(* ===== verification/_CoqProject ===== *)
-Q . S2P
Prelude.v
Volume.v
Mst.v
Runlist.v
RunlistPunch.v
RunlistMerge.v
RunlistMergeThm.v
MappingPairs.v
MappingPairsThm.v
MappingPairsRead.v
AttrIO.v
Bitmap.v
BootSect.v
MkNtfs.v
Unistr.v
Utf.v
Upcase.v
NameCheck.v
Bytes.v
Collate.v
IndexNode.v
IndexNodeThm.v
IndexLookup.v
Fsck.v
LcnAlloc.v
LcnSearch.v
FsckThm.v
FsckDup.v
FsckRead.v
LcnAllocThm.v
LcnAllocProps.v
Device.v
DeviceThm.v
FsckRepair.v
FsckRepairThm.v
Compress.v
CompressTok.v
CompressMatch.v
CompressThm.v
CompressSet.v
CompressSetThm.v
CompressSafe.v
Fields.v
AttrDef.v
AttrDefThm.v
AttrRec.v
AttrFind.v
AttrRecThm.v
AttrValueThm.v
AttrAddThm.v
AttrAddNrThm.v
Cache.v
CacheHeap.v
CacheHash.v
CacheThm.v
CacheRef.v
Logfile.v
LogfileThm.v
LogfilePage.v
LogfileLoad.v
LogfileSearch.v
LogfileCheck.v
FsckBitmap.v
FsckBitmapThm.v
AttrList.v
AttrListThm.v
AttrListFind.v
AttrListLookup.v
AttrListEdit.v
AttrListEx.v
FsckAttrList.v
FsckAttrStore.v
FsckAttrListThm.v
