(* ===== verification/Prelude.v ===== *)
(** * A verification development for ntfsprogs-plus

    ntfsprogs-plus is a library for the NTFS file system (src/libntfs) and the
    tools built on it (src/src: ntfsck, mkntfs, ntfsclone and others).  The
    development models the parts that decide what is on a volume, from the
    bottom up, and proves them correct.

    ** How the code is modelled

    The model is a shallow embedding.  Integers are [Z] and are reduced to
    their width where the code can leave it ([wrapu], [wraps] below, with
    [u16], [s64] and so on).  Arrays are lists that are read and written
    through [aget], [aset], [aslice] and [awrite].  A call returns a [res]:
    [Ok], [Err] with the errno, or [Undef] when it reads or writes outside of
    an array (or of what is allocated), so that a theorem that excludes
    [Undef] is a theorem of memory safety.  State is passed explicitly.
    Loops recurse on fuel; the definitions that start them choose it, and the
    theorems show that it is enough (they exclude [Undef], which is what
    running out of fuel gives).  Allocation is the class [Heap]: whether a
    request is granted, and what the memory contains, is a parameter.
    Messages are left out.

    ** Parts and files

    - This file: machine integers, results, arrays, the allocator, tactics
      and the lemmas on them that all files share.  Bytes: little endian
      integers in byte arrays (include/endians.h).
    - Volume: the geometry of a volume (include/volume.h).  BootSect: the
      check of a boot sector and the set-up of the geometry from it
      (libntfs/bootsect.c).  MkNtfs: the geometry mkntfs chooses and the boot
      sector it writes (src/mkntfs.c).
    - Mst: the protection of multi sector records (libntfs/mst.c).
    - Runlist, RunlistPunch, RunlistMerge with RunlistMergeThm: runlists, the
      maps from the clusters of a file to those of the volume
      (libntfs/runlist.c): lookup, truncation, hole punching and merging.
      MappingPairs with MappingPairsThm and MappingPairsRead: their compressed
      form on the volume, building, sizing and reading.
    - Device with DeviceThm: reads and writes on a device and through a
      runlist, the copying of clusters (libntfs/device.c, libntfs/runlist.c).
    - AttrIO: the interface between the bitmap code and the attribute that
      holds a bitmap, as a class with its law.  Bitmap: bits and runs of bits
      in an attribute (libntfs/bitmap.c), proved against AttrIO.
    - Fsck with FsckThm, FsckDup and FsckRead: the bitmaps ntfsck keeps of the
      clusters and mft records in use (libntfs/fsck.c), an array of blocks
      with two shared sentinels, and the collection of clusters used twice.
    - LcnAlloc with LcnSearch, LcnAllocThm and LcnAllocProps: the cluster
      allocator (libntfs/lcnalloc.c), which searches the bitmap on the volume
      combined with that of fsck.
    - FsckRepair with FsckRepairThm: the repair of clusters used twice, which
      composes the allocator, hole punching, copying and merging.
    - FsckBitmap with FsckBitmapThm: the bitmaps fsck collected, applied to
      those on the volume, with the barrier against freeing too many clusters
      (src/ntfsck.c), proved against the interface [BitmapSource] of a
      collected bitmap, which those of Fsck implement.
    - Unistr, Utf, Upcase, NameCheck: names: comparison and collation, the
      conversions between UTF-16 and UTF-8, the tables for upper and lower
      case, and the names that are not allowed (libntfs/unistr.c).
    - Collate: the collation functions of indexes (libntfs/collate.c), and the
      class [Collation] of what an index expects of one.  IndexNode with
      IndexNodeThm and IndexLookup: the nodes of an index as bytes
      (libntfs/index.c), proved against that class.
    - Compress with CompressTok, CompressMatch, CompressThm and CompressSafe:
      the compression of a block of 4096 bytes and its decompression;
      CompressSet with CompressSetThm: the sets of clusters of a compressed
      attribute, and the rule that a set is stored as it is when nothing is
      gained (libntfs/compress.c).
    - Fields: reads and writes of little endian fields of a buffer, with the
      lemmas that relate them.  AttrDef with AttrDefThm: the table of
      attribute definitions and the check of an attribute against it
      (libntfs/attrib.c).  AttrRec with AttrFind, AttrRecThm, AttrValueThm,
      AttrAddThm and AttrAddNrThm: the attributes of an mft record as bytes,
      the lookup in them, resizing, adding and removing (libntfs/attrib.c).
    - Cache with CacheHeap, CacheHash, CacheThm and CacheRef: the caches of
      the library (libntfs/cache.c), a heap of entries linked in a list by
      age and in the chains of a hash table; CacheHeap and CacheHash relate
      the two structures to lists, CacheThm follows the operations, CacheRef
      states the refinement.
    - Logfile with LogfileThm, LogfilePage, LogfileLoad, LogfileSearch and
      LogfileCheck: the checks of the restart pages of the journal, the
      search for the newest, and the emptying of the journal
      (libntfs/logfile.c).
    - AttrList: attribute lists, that tell in which of the records of an
      inode an attribute or an extent of it is: the search (libntfs/attrib.c),
      the attachment of extents (libntfs/inode.c), adding and removing entries
      (libntfs/attrlist.c).  AttrListThm has the bytes of a list as a list of
      entries, AttrListFind the search on that list and the attributes the
      entries refer to, AttrListLookup the search in a sorted list,
      AttrListEdit the changes, AttrListEx the witnesses and the faults.
      FsckAttrList with FsckAttrStore and FsckAttrListThm: the list that ntfsck
      builds anew from the records (src/ntfsck.c); FsckAttrStore has its storing
      in the base record, which moves the attributes behind it.

    ** What the theorems show

    Each component has a specification that is independent of its code: the
    function from vcns to lcns of a runlist, the function from clusters to
    booleans of a bitmap, the list of entries of an index node, the sequence
    of characters of a name.  The theorems say that the operations do to the
    specification what they should, on every branch: merging and punching
    runlists ([runlists_merge_fills_hole], [rl_punch_hole_correct]); writing
    and reading mapping pairs ([mapping_pairs_roundtrip],
    [mapping_pairs_build_correct], and [mapping_pairs_read_safe] for arbitrary
    bytes); the protection of records ([mst_write_read_roundtrip],
    [mst_torn_write_detected]); bitmaps ([bitmap_set_run_correct],
    [fsck_set_range_correct], [fsck_check_run_correct],
    [fsck_alloc_barrier], [apply_bitmap_correct], [mass_free_refused]);
    allocation ([cluster_alloc_correct],
    [cluster_alloc_terminates], [cluster_alloc_failure_undone],
    [alloc_free_roundtrip], [lcn_volume_invariant]); I/O through a runlist
    ([rl_pread_correct], [rl_write_read_roundtrip], [copy_clusters_correct]);
    the repair of duplicated clusters, which keeps the contents of the file
    and of all others ([repair_cluster_dup_correct]); boot sectors
    ([boot_parse_geometry], [mkntfs_boot_roundtrip]); names
    ([names_full_collate_correct], [utf16_utf8_roundtrip],
    [utf8_to_utf16_safe], [case_tables_correct]); index nodes
    ([ie_lookup_correct], [index_insert_lookup]); compression
    ([compress_block_roundtrip], [comp_set_roundtrip], and [decompress_safe]
    for arbitrary bytes); the attributes of an mft record, as a list of
    attributes in the order of their types and names
    ([attrdef_check_correct], [attr_find_correct], [value_resize_correct],
    [resident_add_correct], [remove_correct]); the caches, as a list of
    entries by age ([cache_refines_list], [cache_release]); the journal
    ([check_logfile_correct], [empty_logfile_roundtrip]); attribute lists, as
    sorted lists of entries ([al_lookup_correct], [al_lookup_extent],
    [entry_add_new], [entry_add_extent], [entry_add_rm],
    [attrlist_need_correct], [rebuild_correct], [rebuild_lookup]).

    Where the code does not do what it should, a theorem shows it on an input:
    [merge_overlap_not_refused], [merge_append_overread],
    [merge_enoent_cuts], [resident_add_same_name_accepted],
    [mapping_pairs_overread], [mapping_pairs_vcn_wraps],
    [decompress_overlap_frees_old], [fsck_fill_unused_overrun],
    [copy_ignores_read_errors], [alloc_enospc_with_free_space],
    [alloc_behind_volume], [repair_failure_leaves_dangling],
    [boot_size_check_wraps], [boot_mftmirr_size_zero],
    [uppercase_mbs_use_after_free], [names_equal_after_nul],
    [collate_binary_not_sign], [entry_check_overread],
    [entry_check_short_node], [decompress_write_behind_end],
    [decompress_read_behind_end], [write_clusters_long_run],
    [attr_find_reads_value_outside], [value_resize_error_modifies],
    [enter_failure_corrupts_list], [hash_out_of_range_fetched],
    [restart_area_overread], [restart_area_length_wraps],
    [entry_add_misplaces_first], [entry_add_resident_twice],
    [next_entry_overread], [stale_extent_taken], [attrlist_need_loops],
    [rebuild_loses_extents], [rebuild_stale_after_move].

    ** Parameters and bounds

    Device operations (Device), attribute reads and writes (AttrIO), the
    allocator ([Heap]), the user's answers to fsck ([fix_]),
    [memcmp] (Collate), the seek to the end of a device (BootSect), and the
    loading of extent records and the truncation of the attribute of a list
    (AttrList), and the storing of a rebuilt list where it is not resident
    (FsckAttrList) are parameters, with their documented behaviour as hypotheses and an instance
    for each in the witnesses.  Sizes that the code keeps in 64 bits are
    assumed to stay below 2^63 bytes where a theorem says so ([volume_ok],
    [run_ok] and the like); fuel is the number of elements of what a loop
    walks over, or the bound its definition states ([alloc_fuel]).

    ** Not modelled

    The opening and synchronising of inodes, the allocation of mft records,
    the streams of attributes (libntfs/attrib.c beyond mft records and lists,
    inode.c, mft.c); the descent and the splitting of
    index trees and the directories over them; security descriptors,
    extended attributes, reparse points; mounting.  Of ntfsck only the
    application of the bitmaps and the rebuilding of attribute lists are
    modelled, of the other tools only mkntfs;
    the rest of them drives these layers over device I/O.  System calls, the
    parsing of options, messages and the problem table of fsck have nothing
    to prove.  The conversion of names by the locale and the normalisation on
    macOS are calls into other libraries. *)

From stdpp Require Export base list numbers option.
From Stdlib Require Export ZArith Lia.

#[global] Open Scope Z_scope.

(** ** Machine integers

    A C integer of width [w] is a [Z]; [wrapu]/[wraps] reduce a mathematical
    result to the unsigned/signed range of its type, two's complement. *)
Definition wrapu (w z : Z) : Z := z mod 2 ^ w.
Definition wraps (w z : Z) : Z := (z + 2 ^ (w - 1)) mod 2 ^ w - 2 ^ (w - 1).

Abbreviation u8 := (wrapu 8).
Abbreviation u16 := (wrapu 16).
Abbreviation u32 := (wrapu 32).
Abbreviation u64 := (wrapu 64).
Abbreviation s8 := (wraps 8).
Abbreviation s16 := (wraps 16).
Abbreviation s32 := (wraps 32).
Abbreviation s64 := (wraps 64).

(** Range predicates of the integer types. *)
Definition in_u (w z : Z) : Prop := 0 <= z < 2 ^ w.
Definition in_s (w z : Z) : Prop := - 2 ^ (w - 1) <= z < 2 ^ (w - 1).

#[global] Instance in_u_dec w z : Decision (in_u w z).
Proof. unfold in_u. apply _. Defined.
#[global] Instance in_s_dec w z : Decision (in_s w z).
Proof. unfold in_s. apply _. Defined.

(** ** Error codes and outcomes

    [Ok a]: the call succeeds with [a].  [Err e]: the call takes its error
    return with [errno = e].  [Undef]: the execution reads or writes outside
    an allocated array; no theorem of the development is about what happens
    after that. *)
Inductive errno :=
  | EINVAL | EIO | ERANGE | ENOMEM | ENOSPC | ENOENT | EOPNOTSUPP | EILSEQ
  | ENAMETOOLONG | EOVERFLOW | EEXIST | EINTR
  | EROFS | ESPIPE | EPERM.

#[global] Instance errno_eq_dec : EqDecision errno.
Proof. solve_decision. Defined.

Inductive res (A : Type) :=
  | Ok (a : A)
  | Err (e : errno)
  | Undef.
Arguments Ok {A} a.
Arguments Err {A} e.
Arguments Undef {A}.

#[global] Instance res_eq_dec {A} `{EqDecision A} : EqDecision (res A).
Proof. solve_decision. Defined.

#[global] Instance res_ret : MRet res := fun A a => Ok a.
#[global] Instance res_bind : MBind res := fun A B f m =>
  match m with
  | Ok a => f a
  | Err e => Err e
  | Undef => Undef
  end.

Definition is_ok {A} (m : res A) : bool :=
  match m with Ok _ => true | _ => false end.

(** ** Arrays

    A C array is the list of its cells; an index is a [Z], and an access
    outside the list is [Undef]. *)
Definition zlen {A} (l : list A) : Z := Z.of_nat (length l).

Definition aget {A} (l : list A) (i : Z) : res A :=
  if i <? 0 then Undef else
  match l !! Z.to_nat i with
  | Some x => Ok x
  | None => Undef
  end.

Definition aset {A} (l : list A) (i : Z) (x : A) : res (list A) :=
  if (i <? 0) || (zlen l <=? i) then Undef
  else Ok (<[Z.to_nat i := x]> l).

(** [memcpy] out of, and into, an array: [n] cells from index [i]. *)
Definition aslice {A} (l : list A) (i n : Z) : res (list A) :=
  if (i <? 0) || (n <? 0) || (zlen l <? i + n) then Undef
  else Ok (take (Z.to_nat n) (drop (Z.to_nat i) l)).

Definition awrite {A} (l : list A) (i : Z) (xs : list A) : res (list A) :=
  if (i <? 0) || (zlen l <? i + zlen xs) then Undef
  else Ok (take (Z.to_nat i) l ++ xs ++ drop (Z.to_nat i + length xs) l).

(** ** The allocator

    [malloc]/[realloc] are outside the program: whether a request of [n]
    bytes is granted, and what fresh memory contains, is a parameter. *)
Class Heap := {
  heap_grants : Z -> bool;
  heap_junk : nat -> Z
}.

(** An allocator that grants every request and hands out zeroed memory. *)
Definition ample_heap : Heap := {| heap_grants := fun _ => true; heap_junk := fun _ => 0 |}.

(** ** Tactics *)

(** Case analysis on the integer comparisons of the goal. *)
Ltac zcase_one :=
  match goal with
  | |- context [?a <=? ?b] => destruct (Z.leb_spec a b)
  | |- context [?a <? ?b] => destruct (Z.ltb_spec a b)
  | |- context [?a =? ?b] => destruct (Z.eqb_spec a b)
  end.
Ltac zcase := repeat zcase_one.

(** The same on a hypothesis. *)
Ltac zcase_in H :=
  repeat match type of H with
  | context [?a <=? ?b] => destruct (Z.leb_spec a b)
  | context [?a <? ?b] => destruct (Z.ltb_spec a b)
  | context [?a =? ?b] => destruct (Z.eqb_spec a b)
  end.

(** Rewrites integer comparisons whose outcome [lia] decides. *)
Ltac zdec_one :=
  match goal with
  | |- context [?a <=? ?b] =>
      first [ rewrite (proj2 (Z.leb_le a b)) by lia
            | rewrite (proj2 (Z.leb_gt a b)) by lia ]
  | |- context [?a <? ?b] =>
      first [ rewrite (proj2 (Z.ltb_lt a b)) by lia
            | rewrite (proj2 (Z.ltb_ge a b)) by lia ]
  | |- context [?a =? ?b] =>
      first [ rewrite (proj2 (Z.eqb_eq a b)) by lia
            | rewrite (proj2 (Z.eqb_neq a b)) by lia ]
  end.
Ltac zdec := repeat (zdec_one; cbn [andb orb negb]).

(** Takes a successful sequence of calls apart. *)
Ltac res_inv :=
  repeat match goal with
  | H : Ok _ = Ok _ |- _ => injection H as H; subst
  | H : Err _ = Ok _ |- _ => discriminate H
  | H : Undef = Ok _ |- _ => discriminate H
  | H : Ok _ = Err _ |- _ => discriminate H
  | H : Undef = Err _ |- _ => discriminate H
  | H : Ok _ = Undef |- _ => discriminate H
  | H : Err _ = Undef |- _ => discriminate H
  | H : mbind _ ?m = Ok _ |- _ =>
      let E := fresh "E" in destruct m eqn:E; cbn [mbind res_bind] in H
  end.

(** Proves a decidable closed proposition by evaluation. *)
Ltac compute_decide := apply (bool_decide_unpack _); vm_compute; exact I.

(** [lia] with the equations of division and remainder. *)
Ltac dlia := Z.div_mod_to_equations; lia.

Create HintDb ntfs.

(** ** Lemmas on machine integers *)

Lemma wrapu_range w z : 0 <= w -> 0 <= wrapu w z < 2 ^ w.
Proof. intros. apply Z.mod_pos_bound. lia. Qed.

Lemma wrapu_small w z : 0 <= z < 2 ^ w -> wrapu w z = z.
Proof. intros. apply Z.mod_small. lia. Qed.

Lemma wrapu_idem w z : wrapu w (wrapu w z) = wrapu w z.
Proof. apply Zmod_mod. Qed.

Lemma wraps_range w z : 0 < w -> - 2 ^ (w - 1) <= wraps w z < 2 ^ (w - 1).
Proof.
  intros. unfold wraps.
  pose proof (Z.mod_pos_bound (z + 2 ^ (w - 1)) (2 ^ w)) as B.
  assert (2 ^ w = 2 * 2 ^ (w - 1)) as E.
  { rewrite <- Z.pow_succ_r by lia. f_equal. lia. }
  lia.
Qed.

Lemma wraps_small w z : 0 < w -> - 2 ^ (w - 1) <= z < 2 ^ (w - 1) -> wraps w z = z.
Proof.
  intros ? ?. unfold wraps.
  assert (2 ^ w = 2 * 2 ^ (w - 1)) as E.
  { rewrite <- Z.pow_succ_r by lia. f_equal. lia. }
  rewrite Z.mod_small by lia. lia.
Qed.

Lemma s64_small z : - 2 ^ 63 <= z < 2 ^ 63 -> s64 z = z.
Proof. intros. apply wraps_small; simpl; lia. Qed.

Lemma u16_small z : 0 <= z < 65536 -> u16 z = z.
Proof. intros. apply wrapu_small. simpl. lia. Qed.

Lemma u32_small z : 0 <= z < 2 ^ 32 -> u32 z = z.
Proof. intros. apply wrapu_small. lia. Qed.

Lemma u64_small z : 0 <= z < 2 ^ 64 -> u64 z = z.
Proof. intros. apply wrapu_small. lia. Qed.

Lemma u8_small z : 0 <= z < 256 -> u8 z = z.
Proof. intros. apply wrapu_small. simpl. lia. Qed.

(** Rounding down to a multiple of a power of two. *)
Lemma land_lnot_ones x k : 0 <= k -> Z.land x (Z.lnot (Z.ones k)) = 2 ^ k * (x / 2 ^ k).
Proof.
  intros. rewrite <- Z.ldiff_land, Z.ldiff_ones_r by lia.
  rewrite Z.shiftr_div_pow2, Z.shiftl_mul_pow2 by lia. lia.
Qed.

(** Disjoint bits. *)
Lemma lor_high k q r : 0 <= k -> 0 <= r < 2 ^ k -> Z.lor (2 ^ k * q) r = 2 ^ k * q + r.
Proof.
  intros Hk Hr. rewrite <- (Z.add_lor_land (2 ^ k * q) r). replace (Z.land (2 ^ k * q) r) with 0; [lia|]. symmetry.
  apply Z.bits_inj'. intros n Hn. rewrite Z.land_spec, Z.bits_0, Z.mul_comm, <- Z.shiftl_mul_pow2 by done.
  destruct (Z.lt_ge_cases n k).
  - by rewrite Z.shiftl_spec_low.
  - destruct (Z.eq_dec r 0) as [->|]; [by rewrite Z.bits_0, andb_false_r|].
    rewrite (Z.bits_above_log2 r n), andb_false_r; [done|lia|]. apply Z.lt_le_trans with k; [|done]. apply Z.log2_lt_pow2; lia.
Qed.


(** Rounding up to a multiple of a power of two. *)
Lemma lor_ones_low x k : 0 <= k -> Z.lor x (2 ^ k - 1) = 2 ^ k * (x / 2 ^ k) + (2 ^ k - 1).
Proof.
  intros Hk. pose proof (Z.pow_pos_nonneg 2 k). rewrite <- lor_high by lia. replace (2 ^ k - 1) with (Z.ones k) by (rewrite Z.ones_equiv; lia).
  rewrite Z.mul_comm, <- Z.shiftl_mul_pow2, <- Z.shiftr_div_pow2 by lia. apply Z.bits_inj'. intros n Hn. rewrite !Z.lor_spec.
  destruct (Z.lt_ge_cases n k); [by rewrite Z.ones_spec_low, !orb_true_r by lia|].
  rewrite Z.ones_spec_high, !orb_false_r, Z.shiftl_spec, Z.shiftr_spec by lia. f_equal. lia.
Qed.

Lemma round_up c k : 0 <= k -> Z.lor (c - 1) (2 ^ k - 1) + 1 = ((c - 1) / 2 ^ k + 1) * 2 ^ k.
Proof. intros Hk. rewrite lor_ones_low by lia. lia. Qed.

(** A decidable statement about a small range holds if it does at every point. *)
Fixpoint all_from (P : Z -> bool) (a : Z) (n : nat) : bool :=
  match n with O => true | S n => if P a then all_from P (a + 1) n else false end.

Lemma forall_range (P : Z -> bool) a n x :
  all_from P a (Z.to_nat n) = true -> a <= x < a + n -> P x = true.
Proof.
  intros F Hx. remember (Z.to_nat n) as m eqn:Em. revert a n F Em Hx. induction m as [|m IH]; intros a n F Em Hx; [lia|].
  cbn in F. destruct (P a) eqn:Ea; [|done]. destruct (Z.eq_dec x a) as [->|]; [done|].
  apply (IH (a + 1) (n - 1)); [done|lia..].
Qed.

(** ** Lemmas on arrays *)

Section array_lemmas.
Context {A : Type}.
Implicit Types (l xs : list A) (i n : Z) (x : A).

Lemma zlen_nonneg l : 0 <= zlen l.
Proof. unfold zlen. lia. Qed.

Lemma zlen_nil : zlen (@nil A) = 0.
Proof. reflexivity. Qed.

Lemma zlen_cons x l : zlen (x :: l) = 1 + zlen l.
Proof. unfold zlen. cbn [length]. lia. Qed.

Lemma zlen_app l l' : zlen (l ++ l') = zlen l + zlen l'.
Proof. unfold zlen. rewrite length_app. lia. Qed.

Lemma zlen_to_nat l : Z.to_nat (zlen l) = length l.
Proof. unfold zlen. lia. Qed.

Lemma zlen_insert l (k : nat) x : zlen (<[k := x]> l) = zlen l.
Proof. unfold zlen. by rewrite length_insert. Qed.

Lemma aget_ok l i x : aget l i = Ok x <-> 0 <= i /\ l !! Z.to_nat i = Some x.
Proof.
  unfold aget. destruct (Z.ltb_spec i 0); [split; [done|lia]|].
  destruct (l !! Z.to_nat i) eqn:E; split; intros H'; try done.
  - injection H' as ->. done.
  - destruct H' as [_ [= ->]]. done.
  - destruct H'. congruence.
Qed.

Lemma aget_total l i : 0 <= i < zlen l -> exists x, aget l i = Ok x.
Proof.
  intros [H1 H2].
  destruct (lookup_lt_is_Some_2 l (Z.to_nat i)) as [x Hx]; [unfold zlen in H2; lia|].
  exists x. by apply aget_ok.
Qed.

Lemma aget_outside l i : zlen l <= i -> aget l i = Undef.
Proof.
  intros H. unfold aget. destruct (Z.ltb_spec i 0); [done|].
  by rewrite lookup_ge_None_2 by (unfold zlen in H; lia).
Qed.

Lemma aget_range l i x : aget l i = Ok x -> 0 <= i < zlen l.
Proof.
  rewrite aget_ok. intros [? ?%lookup_lt_Some]. unfold zlen. lia.
Qed.

Lemma aget_app_l l l' i : 0 <= i < zlen l -> aget (l ++ l') i = aget l i.
Proof.
  unfold aget, zlen. intros. rewrite lookup_app_l by lia. done.
Qed.

Lemma aget_app_r l l' i : zlen l <= i -> aget (l ++ l') i = aget l' (i - zlen l).
Proof.
  intros H. pose proof (zlen_nonneg l). unfold aget. zdec.
  rewrite lookup_app_r by (unfold zlen in *; lia).
  replace (Z.to_nat i - length l)%nat with (Z.to_nat (i - zlen l))
    by (unfold zlen in *; lia).
  done.
Qed.

(** The cell at a known position of a concatenation. *)
Lemma aget_mid l x l' i : i = zlen l -> aget (l ++ x :: l') i = Ok x.
Proof.
  intros ->. rewrite aget_app_r by lia. by rewrite Z.sub_diag.
Qed.

Lemma aset_ok l i x : 0 <= i < zlen l -> aset l i x = Ok (<[Z.to_nat i := x]> l).
Proof. intros. unfold aset. zdec. done. Qed.

Lemma aset_mid l x l' i y : i = zlen l -> aset (l ++ x :: l') i y = Ok (l ++ y :: l').
Proof.
  intros ->. rewrite aset_ok by (rewrite zlen_app, zlen_cons; pose proof (zlen_nonneg l);
    pose proof (zlen_nonneg l'); lia).
  rewrite zlen_to_nat. f_equal. rewrite insert_app_r_alt by lia.
  by rewrite Nat.sub_diag.
Qed.

Lemma aset_inv l i x l' :
  aset l i x = Ok l' -> 0 <= i < zlen l /\ l' = <[Z.to_nat i := x]> l.
Proof.
  unfold aset. destruct (Z.ltb_spec i 0); [done|].
  destruct (Z.leb_spec (zlen l) i); [done|]. cbn. intros [= <-]. split; [lia|done].
Qed.

Lemma aget_insert_eq l i x :
  0 <= i < zlen l -> aget (<[Z.to_nat i := x]> l) i = Ok x.
Proof.
  intros H. apply aget_ok. split; [lia|].
  apply list_lookup_insert_eq. unfold zlen in H. lia.
Qed.

Lemma aget_insert_ne l i j x :
  0 <= i -> i <> j -> aget (<[Z.to_nat i := x]> l) j = aget l j.
Proof.
  intros. unfold aget. destruct (Z.ltb_spec j 0); [done|].
  rewrite list_lookup_insert_ne by lia. done.
Qed.

Lemma aslice_mid l xs l' i n :
  i = zlen l -> n = zlen xs -> aslice (l ++ xs ++ l') i n = Ok xs.
Proof.
  intros -> ->. unfold aslice. rewrite !zlen_app.
  pose proof (zlen_nonneg l). pose proof (zlen_nonneg xs). pose proof (zlen_nonneg l').
  zdec. rewrite !zlen_to_nat, drop_app_length, take_app_length. done.
Qed.

Lemma awrite_mid l xs l' ys i :
  i = zlen l -> length xs = length ys ->
  awrite (l ++ xs ++ l') i ys = Ok (l ++ ys ++ l').
Proof.
  intros -> E. unfold awrite. rewrite !zlen_app.
  pose proof (zlen_nonneg l). pose proof (zlen_nonneg l').
  replace (zlen ys) with (zlen xs) by (unfold zlen; lia).
  zdec. rewrite zlen_to_nat, take_app_length, <- E.
  rewrite (app_assoc l xs l'), <- length_app, drop_app_length. done.
Qed.

(** What a write inside leaves at each position. *)
Lemma awrite_lookup l xs l' pos (k : nat) :
  awrite l pos xs = Ok l' ->
  zlen l' = zlen l /\
  l' !! k = if decide (Z.to_nat pos <= k < Z.to_nat pos + length xs)%nat
            then xs !! (k - Z.to_nat pos)%nat else l !! k.
Proof.
  unfold awrite. destruct (Z.ltb_spec pos 0); [done|].
  destruct (Z.ltb_spec (zlen l) (pos + zlen xs)); [done|]. cbn. intros [= <-].
  assert (Z.to_nat pos + length xs <= length l)%nat by (unfold zlen in *; lia).
  split; [unfold zlen in *; rewrite !length_app, length_take, length_drop; lia|].
  destruct (decide _) as [[D1 D2]|D].
  - rewrite lookup_app_r by (rewrite length_take; lia). rewrite length_take.
    rewrite lookup_app_l by lia. f_equal. lia.
  - destruct (decide (k < Z.to_nat pos)%nat).
    + rewrite lookup_app_l by (rewrite length_take; lia). by rewrite lookup_take_lt.
    + rewrite lookup_app_r by (rewrite length_take; lia).
      rewrite lookup_app_r by (rewrite length_take; lia).
      rewrite length_take, lookup_drop. f_equal. lia.
Qed.

End array_lemmas.

Arguments zlen_nil : clear implicits.
Create Rewrite HintDb zlen.
#[export] Hint Rewrite @zlen_nil @zlen_cons @zlen_app @zlen_insert : zlen.
Ltac zlen_solve :=
  repeat match goal with
  | l : list _ |- _ =>
      lazymatch goal with
      | _ : 0 <= zlen l |- _ => fail
      | _ => pose proof (zlen_nonneg l)
      end
  end; autorewrite with zlen in *; lia.
