(* ===== verification/Volume.v ===== *)
(** The fields of the mounted volume (include/volume.h, struct _ntfs_volume)
    that the modelled components read: the geometry of the file system and the
    mount state bits.  The pointers to the open system files, the caches and
    the allocator's zone positions are not fields here; a component that needs
    one of them takes it as an argument of its own. *)

From S2P Require Import Prelude.

Record ntfs_volume := mk_volume {
  major_ver : Z;
  sector_size : Z;
  sector_size_bits : Z;
  cluster_size : Z;
  cluster_size_bits : Z;
  mft_record_size : Z;
  mft_record_size_bits : Z;
  indx_record_size : Z;
  indx_record_size_bits : Z;
  nr_clusters : Z;
  nr_sectors : Z;
  mft_lcn : Z;
  mftmirr_lcn : Z;
  mftmirr_size : Z;
  on_fsck : bool;       (* NVolIsOnFsck *)
  read_only : bool      (* NVolReadOnly *)
}.

(** The geometry relations that hold on a mounted volume. *)
Record volume_ok (vol : ntfs_volume) : Prop := {
  vo_csb : 0 <= cluster_size_bits vol <= 31;
  vo_cs : cluster_size vol = 2 ^ cluster_size_bits vol;
  vo_clusters : 0 <= nr_clusters vol < 2 ^ 63
}.

(** A volume of 1000 4 KiB clusters. *)
Definition sample_volume (ver : Z) (fsck : bool) : ntfs_volume :=
  mk_volume ver 512 9 4096 12 1024 10 4096 12 1000 8000 4 500 4 fsck false.

Lemma sample_volume_ok ver fsck : volume_ok (sample_volume ver fsck).
Proof. split; cbn; lia. Qed.
