(* ===== verification/Mst.v ===== *)
(** Multi sector transfer protection of NTFS records (libntfs/mst.c).

    A record is held as the array of its little-endian 16-bit words, the unit
    in which the code reads and writes it: words 0-1 are the magic, word 2 is
    [usa_ofs], word 3 is [usa_count].  Before a record is written, the last
    word of every 512-byte sector is saved in the update sequence array and
    replaced with the update sequence number; after it is read, the words are
    checked and put back.  The theorems: the two passes are inverse, a torn
    write is detected, and the number skips 0 and 0xffff. *)

From S2P Require Import Prelude.

Definition NTFS_BLOCK_SIZE : Z := 512.
Definition magic_BAAD : Z := 0x44414142.
Definition magic_HOLE : Z := 0x454c4f48.

(** Words of a logical sector: NTFS_BLOCK_SIZE/sizeof(u16). *)
Definition block_words : Z := NTFS_BLOCK_SIZE / 2.

Definition is_valid_record (size usa_ofs usa_count : Z) : bool :=
  (size mod NTFS_BLOCK_SIZE =? 0) &&
  (usa_ofs mod 2 =? 0) &&
  (usa_count =? 1 + size / NTFS_BLOCK_SIZE) &&
  (u32 (usa_ofs + usa_count * 2) <=? NTFS_BLOCK_SIZE - 2).

(** [b->magic], a 32-bit field over the first two words. *)
Definition get_magic (b : list Z) : res Z :=
  w0 ← aget b 0; w1 ← aget b 1; Ok (w0 + w1 * 65536).

Definition set_magic (b : list Z) (m : Z) : res (list Z) :=
  b ← aset b 0 (m mod 65536); aset b 1 (m / 65536).

Definition ntfs_is_baad_record (magic : Z) : bool := magic =? magic_BAAD.
Definition ntfs_is_hole_record (magic : Z) : bool := magic =? magic_HOLE.

(** The test loop of [ntfs_mst_post_read_fixup_warn]: [n] is what
    [while (--usa_count)] leaves to run. *)
Fixpoint mst_check (b : list Z) (usn data_pos : Z) (n : nat) : res bool :=
  match n with
  | O => Ok true
  | S n =>
      w ← aget b data_pos;
      if negb (w =? usn) then Ok false
      else mst_check b usn (data_pos + block_words) n
  end.

(** The loop [*data_pos = *(++usa_pos); data_pos += ...]. *)
Fixpoint mst_restore (b : list Z) (usa_pos data_pos : Z) (n : nat) : res (list Z) :=
  match n with
  | O => Ok b
  | S n =>
      w ← aget b (usa_pos + 1);
      b ← aset b data_pos w;
      mst_restore b (usa_pos + 1) (data_pos + block_words) n
  end.

(** The loop [*(++usa_pos) = *data_pos; *data_pos = le_usn; ...]. *)
Fixpoint mst_protect (b : list Z) (usa_pos data_pos le_usn : Z) (n : nat) : res (list Z) :=
  match n with
  | O => Ok b
  | S n =>
      w ← aget b data_pos;
      b ← aset b (usa_pos + 1) w;
      b ← aset b data_pos le_usn;
      mst_protect b (usa_pos + 1) (data_pos + block_words) le_usn n
  end.

(** Iterations of [while (--usa_count)] on a 16-bit counter. *)
Definition predec_count (usa_count : Z) : nat := Z.to_nat (u16 (usa_count - 1)).

(** The pair is the buffer after the call and the return: [None] for 0,
    [Some e] for -1 with [errno = e]. *)
Definition ntfs_mst_post_read_fixup_warn (b : list Z) (size : Z)
    : res (list Z * option errno) :=
  usa_ofs ← aget b 2;
  usa_count ← aget b 3;
  if negb (is_valid_record size usa_ofs usa_count) then
    b ← set_magic b magic_BAAD;
    Ok (b, Some EINVAL)
  else
    let usa_pos := usa_ofs / 2 in
    usn ← aget b usa_pos;
    let data_pos := block_words - 1 in
    same ← mst_check b usn data_pos (predec_count usa_count);
    if negb same then
      b ← set_magic b magic_BAAD;
      Ok (b, Some EIO)
    else
      b ← mst_restore b usa_pos data_pos (predec_count usa_count);
      Ok (b, None).

Definition ntfs_mst_post_read_fixup (b : list Z) (size : Z)
    : res (list Z * option errno) :=
  ntfs_mst_post_read_fixup_warn b size.

(** [usn = le16_to_cpup(usa_pos) + 1; if (usn == 0xffff || !usn) usn = 1;] *)
Definition next_usn (usn : Z) : Z :=
  let usn := u16 (usn + 1) in
  if (usn =? 0xffff) || (usn =? 0) then 1 else usn.

(** A null [b] is [None]. *)
Definition ntfs_mst_pre_write_fixup (ob : option (list Z)) (size : Z)
    : res (list Z) :=
  match ob with
  | None => Err EINVAL
  | Some b =>
    magic ← get_magic b;
    if ntfs_is_baad_record magic || ntfs_is_hole_record magic then Err EINVAL
    else
      usa_ofs ← aget b 2;
      usa_count ← aget b 3;
      if negb (is_valid_record size usa_ofs usa_count) then Err EINVAL
      else
        let usa_pos := usa_ofs / 2 in
        usn ← aget b usa_pos;
        let le_usn := next_usn usn in
        b ← aset b usa_pos le_usn;
        mst_protect b usa_pos (block_words - 1) le_usn (predec_count usa_count)
  end.

Definition ntfs_mst_post_write_fixup (b : list Z) : res (list Z) :=
  usa_ofs ← aget b 2;
  usa_count ← aget b 3;
  mst_restore b (usa_ofs / 2) (block_words - 1) (predec_count usa_count).

(** *** A protectable record: what the callers set up before writing. *)
Record protectable (b : list Z) (size : Z) := {
  pr_words : Forall (in_u 16) b;
  pr_len : zlen b = size / 2;
  pr_size : 0 < size < 2 ^ 32;
  pr_magic : exists m, get_magic b = Ok m /\ m <> magic_BAAD /\ m <> magic_HOLE;
  pr_usa : exists ofs count, aget b 2 = Ok ofs /\ aget b 3 = Ok count /\
           is_valid_record size ofs count = true /\ 8 <= ofs
}.

(** Word [j] lies in the update sequence array of [b]. *)
Definition in_usa (b : list Z) (j : Z) : bool :=
  match aget b 2, aget b 3 with
  | Ok ofs, Ok count => (ofs / 2 <=? j) && (j <? ofs / 2 + count)
  | _, _ => false
  end.

(** Word [j] is the last of a sector. *)
Definition sector_end (j : Z) : bool := j mod block_words =? block_words - 1.

(** * Proofs *)

Lemma is_valid_record_spec size ofs count :
  0 <= size < 2 ^ 32 -> in_u 16 ofs -> in_u 16 count ->
  is_valid_record size ofs count = true ->
  size = 512 * (count - 1) /\ ofs mod 2 = 0 /\ ofs + 2 * count <= 510 /\ 1 <= count.
Proof.
  unfold is_valid_record, NTFS_BLOCK_SIZE, in_u. intros Hs Ho Hc H.
  rewrite !andb_true_iff, !Z.eqb_eq, Z.leb_le in H.
  destruct H as [[[H1 H2] H3] H4].
  rewrite wrapu_small in H4 by lia.
  pose proof (Z.div_mod size 512). lia.
Qed.

Lemma predec_count_eq count : 1 <= count < 65536 -> predec_count count = Z.to_nat (count - 1).
Proof. intros. unfold predec_count. rewrite u16_small by lia. done. Qed.

(** Position [j] is the [k]-th sector end, [k < n]. *)
Definition sect_pos (dp : Z) (n : nat) (j : Z) : bool :=
  (dp <=? j) && ((j - dp) mod 256 =? 0) && ((j - dp) / 256 <? Z.of_nat n).

Lemma sect_pos_S dp n j :
  sect_pos dp (S n) j = (j =? dp) || sect_pos (dp + 256) n j.
Proof.
  unfold sect_pos. replace (j - (dp + 256)) with (j - dp + (-1) * 256) by lia.
  rewrite Z.mod_add, Z.div_add by lia.
  destruct (Z.eqb_spec j dp) as [->|Hne]; cbn [orb].
  - rewrite Z.sub_diag. zdec. done.
  - assert (0 <= (j - dp) mod 256 < 256) by (apply Z.mod_pos_bound; lia).
    pose proof (Z.div_mod (j - dp) 256).
    destruct (Z.eqb_spec ((j - dp) mod 256) 0); [|rewrite !andb_false_r; done].
    rewrite !andb_true_r. zcase; cbn; lia || done.
Qed.

Lemma sect_pos_0 dp j : sect_pos dp 0 j = false.
Proof.
  unfold sect_pos. destruct (Z.leb_spec dp j); [|done]. cbn.
  assert (0 <= (j - dp) / 256) by (apply Z.div_pos; lia). zdec. by rewrite andb_false_r.
Qed.

Lemma sect_pos_lt dp n j : j < dp -> sect_pos dp n j = false.
Proof. intros. unfold sect_pos. zdec. done. Qed.

(** What the protecting loop leaves in every word. *)
Lemma mst_protect_get n : forall b up dp usn b',
  mst_protect b up dp usn n = Ok b' ->
  0 <= up -> up + Z.of_nat n < dp ->
  zlen b' = zlen b /\
  forall j, aget b' j =
    if (up <? j) && (j <=? up + Z.of_nat n) then aget b (dp + 256 * (j - up - 1))
    else if sect_pos dp n j then Ok usn else aget b j.
Proof.
  induction n as [|n IH]; intros b up dp usn b' H Hup Hdp; cbn [mst_protect] in H.
  - res_inv. split; [done|]. intros j. rewrite sect_pos_0. zcase; lia || done.
  - res_inv. apply aset_inv in E0 as [R1 ->]. apply aset_inv in E1 as [R2 ->].
    autorewrite with zlen in R2. change block_words with 256 in H.
    apply IH in H as [L G]; [|lia..].
    split; [autorewrite with zlen in L; done|]. intros j. rewrite G.
    rewrite sect_pos_S. clear G IH.
    destruct (Z.ltb_spec (up + 1) j); destruct (Z.leb_spec j (up + 1 + Z.of_nat n)); cbn [andb].
    + zdec. replace (dp + 256 + 256 * (j - (up + 1) - 1)) with (dp + 256 * (j - up - 1)) by lia.
      rewrite !aget_insert_ne by lia. done.
    + zdec. destruct (sect_pos (dp + 256) n j) eqn:S; [by rewrite orb_true_r|].
      rewrite orb_false_r. destruct (Z.eqb_spec j dp) as [->|].
      * rewrite aget_insert_eq by (autorewrite with zlen; lia). done.
      * rewrite !aget_insert_ne by lia. done.
    + zdec. rewrite sect_pos_lt by lia.
      destruct (Z.ltb_spec up j); cbn [andb].
      * replace j with (up + 1) in * by lia.
        rewrite aget_insert_ne, aget_insert_eq by lia. rewrite <- E. f_equal. lia.
      * zdec. rewrite !aget_insert_ne by lia. done.
    + lia.
Qed.

(** What the restoring loop leaves in every word. *)
Lemma mst_restore_get n : forall b up dp b',
  mst_restore b up dp n = Ok b' ->
  0 <= up -> up + Z.of_nat n < dp ->
  zlen b' = zlen b /\
  forall j, aget b' j =
    if sect_pos dp n j then aget b (up + 1 + (j - dp) / 256) else aget b j.
Proof.
  induction n as [|n IH]; intros b up dp b' H Hup Hdp; cbn [mst_restore] in H.
  - res_inv. split; [done|]. intros j. by rewrite sect_pos_0.
  - res_inv. apply aset_inv in E0 as [R1 ->]. change block_words with 256 in H.
    apply IH in H as [L G]; [|lia..].
    split; [autorewrite with zlen in L; done|]. intros j. rewrite G, sect_pos_S. clear G IH.
    destruct (sect_pos (dp + 256) n j) eqn:S.
    + rewrite orb_true_r.
      unfold sect_pos in S. rewrite !andb_true_iff, Z.leb_le, Z.ltb_lt in S.
      replace (j - (dp + 256)) with (j - dp + (-1) * 256) in * by lia.
      rewrite Z.div_add in * by lia.
      rewrite aget_insert_ne by lia. f_equal. lia.
    + rewrite orb_false_r. destruct (Z.eqb_spec j dp) as [->|].
      * rewrite Z.sub_diag, Z.div_0_l, Z.add_0_r, E by lia.
        rewrite aget_insert_eq by lia. done.
      * rewrite aget_insert_ne by lia. done.
Qed.

Lemma mst_protect_total n : forall b up dp usn,
  0 <= up -> up + Z.of_nat n < dp -> dp + 256 * (Z.of_nat n - 1) < zlen b ->
  exists b', mst_protect b up dp usn n = Ok b'.
Proof.
  induction n as [|n IH]; intros b up dp usn Hup Hdp Hb; cbn [mst_protect]; [eauto|].
  destruct (aget_total b dp) as [w ->]; [lia|]. cbn [mbind res_bind].
  rewrite aset_ok by lia. cbn [mbind res_bind].
  rewrite aset_ok by (autorewrite with zlen; lia). cbn [mbind res_bind].
  change block_words with 256. apply IH; autorewrite with zlen; lia.
Qed.

Lemma mst_restore_total n : forall b up dp,
  0 <= up -> up + Z.of_nat n < dp -> dp + 256 * (Z.of_nat n - 1) < zlen b ->
  exists b', mst_restore b up dp n = Ok b'.
Proof.
  induction n as [|n IH]; intros b up dp Hup Hdp Hb; cbn [mst_restore]; [eauto|].
  destruct (aget_total b (up + 1)) as [w ->]; [lia|]. cbn [mbind res_bind].
  rewrite aset_ok by lia. cbn [mbind res_bind].
  change block_words with 256. apply IH; autorewrite with zlen; lia.
Qed.

(** The test loop accepts exactly the buffers whose sector ends are the usn. *)
Lemma mst_check_spec n : forall b usn dp,
  0 <= dp -> dp + 256 * (Z.of_nat n - 1) < zlen b ->
  exists r, mst_check b usn dp n = Ok r /\
    (r = true <-> forall j, sect_pos dp n j = true -> aget b j = Ok usn).
Proof.
  induction n as [|n IH]; intros b usn dp Hdp Hb; cbn [mst_check].
  - exists true. split; [done|]. split; [|done]. intros _ j. by rewrite sect_pos_0.
  - destruct (aget_total b dp) as [w Hw]; [lia|]. rewrite Hw. cbn [mbind res_bind].
    change block_words with 256.
    destruct (Z.eqb_spec w usn) as [->|Hne]; cbn [negb].
    + destruct (IH b usn (dp + 256)) as (r & -> & Hr); [lia..|].
      exists r. split; [done|]. rewrite Hr. split; intros G j Hj.
      * rewrite sect_pos_S in Hj. apply orb_true_iff in Hj as [->%Z.eqb_eq|Hj]; auto.
      * apply G. rewrite sect_pos_S, Hj. apply orb_true_r.
    + exists false. split; [done|]. split; [done|]. intros G.
      specialize (G dp). rewrite sect_pos_S, Z.eqb_refl in G.
      rewrite G in Hw by done. congruence.
Qed.

(** The unpacked facts of a protectable record. *)
Lemma protectable_facts b size :
  protectable b size ->
  exists ofs count m usn,
    aget b 2 = Ok ofs /\ aget b 3 = Ok count /\ get_magic b = Ok m /\
    ntfs_is_baad_record m || ntfs_is_hole_record m = false /\
    is_valid_record size ofs count = true /\ aget b (ofs / 2) = Ok usn /\ in_u 16 usn /\
    predec_count count = Z.to_nat (count - 1) /\
    4 <= ofs / 2 /\ ofs / 2 + count <= 255 /\ 1 < count /\ zlen b = 256 * (count - 1).
Proof.
  intros [Hw Hl Hs (m & Hm & Hm1 & Hm2) (ofs & count & H2 & H3 & Hv & H8)].
  assert (forall i x, aget b i = Ok x -> in_u 16 x) as W.
  { intros i x [_ Hx]%aget_ok. eapply Forall_lookup_1; eauto. }
  pose proof (W _ _ H2) as W2. pose proof (W _ _ H3) as W3.
  destruct (is_valid_record_spec size ofs count) as (S1 & S2 & S3 & S4);
    [lia|done..|]. unfold in_u in W2, W3.
  assert (zlen b = 256 * (count - 1)) as L.
  { rewrite Hl, S1. replace (512 * (count - 1)) with (256 * (count - 1) * 2) by lia.
    by rewrite Z.div_mul by lia. }
  destruct (aget_total b (ofs / 2)) as [usn Hu]; [dlia|].
  exists ofs, count, m, usn. split_and!; try done; try dlia.
  - unfold ntfs_is_baad_record, ntfs_is_hole_record. zdec. done.
  - by eapply W.
  - apply predec_count_eq. lia.
Qed.

(** The state after the protecting pass. *)
Lemma pre_write_get b size :
  protectable b size ->
  exists ofs count usn b',
    aget b 2 = Ok ofs /\ aget b 3 = Ok count /\ is_valid_record size ofs count = true /\
    aget b (ofs / 2) = Ok usn /\ in_u 16 usn /\
    predec_count count = Z.to_nat (count - 1) /\
    4 <= ofs / 2 /\ ofs / 2 + count <= 255 /\ 1 < count /\ zlen b = 256 * (count - 1) /\
    ntfs_mst_pre_write_fixup (Some b) size = Ok b' /\ zlen b' = zlen b /\
    forall j, aget b' j =
      if j =? ofs / 2 then Ok (next_usn usn)
      else if (ofs / 2 <? j) && (j <? ofs / 2 + count)
           then aget b (255 + 256 * (j - ofs / 2 - 1))
      else if sect_pos 255 (Z.to_nat (count - 1)) j then Ok (next_usn usn) else aget b j.
Proof.
  intros (ofs & count & m & usn & H2 & H3 & Hm & Hmm & Hv & Hu & Wu & Hp & A1 & A2 & A3 & L)%protectable_facts.
  unfold ntfs_mst_pre_write_fixup. rewrite Hm. cbn [mbind res_bind]. rewrite Hmm, H2, H3.
  cbn [mbind res_bind]. rewrite Hv. cbn [negb]. rewrite Hu. cbn [mbind res_bind].
  rewrite aset_ok by lia. cbn [mbind res_bind]. rewrite Hp.
  change (block_words - 1) with 255.
  destruct (mst_protect_total (Z.to_nat (count - 1)) (<[Z.to_nat (ofs / 2):=next_usn usn]> b)
    (ofs / 2) 255 (next_usn usn)) as [b' Hb']; [lia|lia|autorewrite with zlen; lia|].
  exists ofs, count, usn, b'. rewrite Hb'.
  apply mst_protect_get in Hb' as [L' G]; [|lia..]. autorewrite with zlen in L'.
  split_and!; try done. intros j. rewrite G. rewrite Z2Nat.id by lia.
  destruct (Z.eqb_spec j (ofs / 2)) as [->|].
  - zdec. rewrite sect_pos_lt by lia. rewrite aget_insert_eq by lia. done.
  - replace (j <=? ofs / 2 + (count - 1)) with (j <? ofs / 2 + count)
      by (zcase; lia || done).
    destruct (Z.ltb_spec (ofs / 2) j), (Z.ltb_spec j (ofs / 2 + count)); cbn [andb];
      rewrite !aget_insert_ne by lia; done.
Qed.

(** Sector ends of a record of [count - 1] sectors. *)
Lemma sect_pos_sector_end count j :
  1 < count -> 0 <= j < 256 * (count - 1) ->
  sect_pos 255 (Z.to_nat (count - 1)) j = sector_end j.
Proof.
  intros Hc Hj. unfold sect_pos, sector_end, block_words, NTFS_BLOCK_SIZE.
  change (512 / 2) with 256. rewrite Z2Nat.id by lia.
  pose proof (Z.div_mod j 256). pose proof (Z.mod_pos_bound j 256).
  pose proof (Z.div_mod (j - 255) 256). pose proof (Z.mod_pos_bound (j - 255) 256).
  assert (j / 256 < count - 1) by (apply Z.div_lt_upper_bound; lia).
  zcase; cbn; lia || done.
Qed.

Lemma next_usn_spec usn :
  in_u 16 usn -> 1 <= next_usn usn <= 65534 /\ next_usn usn <> usn.
Proof.
  unfold in_u, next_usn. intros. unfold wrapu.
  destruct (decide (usn = 65535)) as [->|]; [vm_compute; split; [split|]; congruence|].
  rewrite (Z.mod_small (usn + 1)) by lia. zcase; cbn; lia.
Qed.

(** The header words of the protected record are those of the original. *)
Lemma pre_write_header (b b' : list Z) ofs count usn :
  4 <= ofs / 2 -> ofs / 2 + count <= 255 -> 1 < count ->
  (forall j, aget b' j =
      if j =? ofs / 2 then Ok (next_usn usn)
      else if (ofs / 2 <? j) && (j <? ofs / 2 + count)
           then aget b (255 + 256 * (j - ofs / 2 - 1))
      else if sect_pos 255 (Z.to_nat (count - 1)) j then Ok (next_usn usn) else aget b j) ->
  forall j, 0 <= j < 4 -> aget b' j = aget b j.
Proof.
  intros A1 A2 A3 G j Hj. rewrite G. zdec. rewrite sect_pos_lt by lia. done.
Qed.

Lemma set_magic_ok b m :
  2 <= zlen b -> 0 <= m < 2 ^ 32 ->
  exists b', set_magic b m = Ok b' /\ zlen b' = zlen b /\ get_magic b' = Ok m.
Proof.
  intros Hl Hm. unfold set_magic, get_magic.
  rewrite aset_ok by lia. cbn [mbind res_bind]. rewrite aset_ok by (autorewrite with zlen; lia).
  eexists. split; [done|]. autorewrite with zlen. split; [done|].
  rewrite (aget_insert_ne _ 1 0), (aget_insert_eq _ 0) by lia. cbn [mbind res_bind].
  rewrite aget_insert_eq by (autorewrite with zlen; lia). cbn [mbind res_bind].
  f_equal. dlia.
Qed.

(** The sector ends of [b] all hold the update sequence number. *)
Definition sectors_match (b : list Z) (size : Z) : Prop :=
  exists ofs count usn,
    aget b 2 = Ok ofs /\ aget b 3 = Ok count /\ is_valid_record size ofs count = true /\
    aget b (ofs / 2) = Ok usn /\
    forall j, 0 <= j < zlen b -> sector_end j = true -> aget b j = Ok usn.

(** The read side on a record whose header is valid. *)
Lemma post_read_spec_aux b size ofs count :
  Forall (in_u 16) b -> zlen b = size / 2 -> 8 <= size < 2 ^ 32 ->
  aget b 2 = Ok ofs -> aget b 3 = Ok count -> is_valid_record size ofs count = true ->
  exists usn r, aget b (ofs / 2) = Ok usn /\
    mst_check b usn 255 (predec_count count) = Ok r /\
    (r = true <-> forall j, 0 <= j < zlen b -> sector_end j = true -> aget b j = Ok usn) /\
    exists b', mst_restore b (ofs / 2) 255 (predec_count count) = Ok b' /\ zlen b' = zlen b.
Proof.
  intros Hw Hl Hs H2 H3 Hv.
  assert (forall i x, aget b i = Ok x -> in_u 16 x) as W.
  { intros i x [_ Hx]%aget_ok. eapply Forall_lookup_1; eauto. }
  pose proof (W _ _ H2) as W2. pose proof (W _ _ H3) as W3.
  destruct (is_valid_record_spec size ofs count) as (S1 & S2 & S3 & S4); [lia|done..|].
  unfold in_u in W2, W3.
  assert (zlen b = 256 * (count - 1)) as L by (rewrite Hl, S1; dlia).
  assert (1 < count) by lia.
  rewrite predec_count_eq by lia.
  destruct (aget_total b (ofs / 2)) as [usn Hu]; [dlia|].
  destruct (mst_check_spec (Z.to_nat (count - 1)) b usn 255) as (r & Hr & Er); [lia|lia|].
  destruct (mst_restore_total (Z.to_nat (count - 1)) b (ofs / 2) 255) as [b' Hb']; [dlia..|].
  exists usn, r. split_and!; try done.
  - rewrite Er. split; intros G j.
    + intros Hj Hse. apply G. rewrite sect_pos_sector_end by lia. done.
    + intros Hsp. destruct (decide (0 <= j < 256 * (count - 1))) as [Hj|Hj].
      * apply G; [lia|]. by rewrite <- (sect_pos_sector_end count) by lia.
      * exfalso. unfold sect_pos in Hsp.
        rewrite !andb_true_iff, Z.leb_le, Z.eqb_eq, Z.ltb_lt in Hsp.
        pose proof (Z.div_mod (j - 255) 256). lia.
  - exists b'. split; [done|]. apply mst_restore_get in Hb'; dlia || tauto.
Qed.

(** reading never leaves the buffer; the record is accepted exactly when
    its sector ends match, and every refusal stamps it "BAAD". *)
Theorem mst_post_read_spec b size :
  Forall (in_u 16) b -> zlen b = size / 2 -> 8 <= size < 2 ^ 32 ->
  exists b' rc, ntfs_mst_post_read_fixup b size = Ok (b', rc) /\ zlen b' = zlen b /\
    (rc = None <-> sectors_match b size) /\
    (rc <> None -> get_magic b' = Ok magic_BAAD).
Proof.
  intros Hw Hl Hs.
  destruct (aget_total b 2) as [ofs H2]; [dlia|]. destruct (aget_total b 3) as [count H3]; [dlia|].
  destruct (set_magic_ok b magic_BAAD) as (bb & Eb & Lb & Mb); [dlia|done|].
  unfold ntfs_mst_post_read_fixup, ntfs_mst_post_read_fixup_warn, sectors_match.
  rewrite H2, H3. cbn [mbind res_bind].
  destruct (is_valid_record size ofs count) eqn:Hv; cbn [negb].
  - destruct (post_read_spec_aux b size ofs count) as (usn & r & Hu & Hr & Er & b' & Hb' & L'); try done.
    change (block_words - 1) with 255. rewrite Hu. cbn [mbind res_bind]. rewrite Hr.
    cbn [mbind res_bind]. destruct r; cbn [negb].
    + rewrite Hb'. cbn [mbind res_bind]. exists b', None. split_and!; try done.
      split; [intros _|done]. exists ofs, count, usn. split_and!; try done. by apply Er.
    + rewrite Eb. cbn [mbind res_bind]. exists bb, (Some EIO). split_and!; try done.
      split; [done|]. intros (o & c & u & G2 & G3 & _ & Gu & G). simplify_eq.
      assert (u = usn) as -> by congruence. apply Er in G. done.
  - rewrite Eb. cbn [mbind res_bind]. exists bb, (Some EINVAL). split_and!; try done.
    split; [done|]. intros (o & c & u & G2 & G3 & V & _). congruence.
Qed.

(** C4: protecting a record and reading it back gives the record again,
    the update sequence array apart, and so does the undo after the write. *)
Theorem mst_write_read_roundtrip b size :
  protectable b size ->
  exists b' b'', ntfs_mst_pre_write_fixup (Some b) size = Ok b' /\
    ntfs_mst_post_read_fixup b' size = Ok (b'', None) /\
    ntfs_mst_post_write_fixup b' = Ok b'' /\
    zlen b'' = zlen b /\
    forall j, in_usa b j = false -> aget b'' j = aget b j.
Proof.
  intros (ofs & count & usn & b' & H2 & H3 & Hv & Hu & Wu & Hp & A1 & A2 & A3 & L & Hb' & L' & G)%pre_write_get.
  pose proof (pre_write_header b b' ofs count usn A1 A2 A3 G) as Hh.
  set (n := Z.to_nat (count - 1)) in *.
  destruct (mst_restore_total n b' (ofs / 2) 255) as [b'' Hb'']; [lia..|].
  exists b', b''. split; [done|].
  unfold ntfs_mst_post_read_fixup, ntfs_mst_post_read_fixup_warn, ntfs_mst_post_write_fixup.
  rewrite !Hh, H2, H3 by lia. cbn [mbind res_bind]. rewrite Hv. cbn [negb].
  change (block_words - 1) with 255. rewrite Hp, Hb''.
  assert (aget b' (ofs / 2) = Ok (next_usn usn)) as -> by (rewrite G; zdec; done).
  cbn [mbind res_bind].
  destruct (mst_check_spec n b' (next_usn usn) 255) as (r & -> & Er); [lia|lia|].
  assert (r = true) as ->.
  { apply Er. intros j Hj. rewrite G, Hj.
    assert (255 <= j). { apply Z.nlt_ge. intros Hlt. by rewrite sect_pos_lt in Hj by done. }
    zdec. done. }
  cbn [mbind res_bind negb].
  apply mst_restore_get in Hb'' as [L'' G'']; [|lia..].
  split_and!; try done; [lia|].
  intros j Hj. unfold in_usa in Hj. rewrite H2, H3 in Hj. rewrite G''.
  destruct (sect_pos 255 n j) eqn:S.
  - unfold sect_pos in S. rewrite !andb_true_iff, Z.leb_le, Z.eqb_eq, Z.ltb_lt in S.
    pose proof (Z.div_mod (j - 255) 256). assert (0 <= (j - 255) / 256) by (apply Z.div_pos; lia).
    rewrite G. zdec. f_equal. lia.
  - rewrite G, S. zcase_in Hj; cbn in Hj; try done; try lia; zdec; done.
Qed.

(** C5: a record of which a sector end is not the one written is refused
    with EIO and stamped "BAAD". *)
Theorem mst_torn_write_detected b size b' b1 j :
  protectable b size -> ntfs_mst_pre_write_fixup (Some b) size = Ok b' ->
  Forall (in_u 16) b1 -> zlen b1 = zlen b' ->
  (forall i, 0 <= i < 255 -> aget b1 i = aget b' i) ->
  sector_end j = true -> 0 <= j < zlen b' -> aget b1 j <> aget b' j ->
  exists b2, ntfs_mst_post_read_fixup b1 size = Ok (b2, Some EIO) /\
    get_magic b2 = Ok magic_BAAD.
Proof.
  intros P Hpre Hw1 L1 Hsame Hse Hj Hdiff.
  pose proof (pr_len _ _ P) as PL. pose proof (pr_size _ _ P) as PS.
  destruct (pre_write_get b size P) as
    (ofs & count & usn & b0 & H2 & H3 & Hv & Hu & Wu & Hp & A1 & A2 & A3 & L & Hb' & L' & G).
  rewrite Hb' in Hpre. injection Hpre as ->.
  pose proof (pre_write_header b b' ofs count usn A1 A2 A3 G) as Hh.
  assert (aget b1 2 = Ok ofs) as K2 by (rewrite Hsame, Hh by lia; done).
  assert (aget b1 3 = Ok count) as K3 by (rewrite Hsame, Hh by lia; done).
  destruct (post_read_spec_aux b1 size ofs count) as (u & r & Ku & Kr & Er & _); try done; [dlia..|].
  rewrite Hsame, G, Z.eqb_refl in Ku by lia. injection Ku as <-.
  assert (r = false) as ->.
  { apply not_true_is_false. rewrite Er. intros E. apply Hdiff. rewrite E by (lia || done).
    rewrite G. rewrite sect_pos_sector_end, Hse by lia.
    assert (255 <= j) by (unfold sector_end in Hse; apply Z.eqb_eq in Hse;
      change block_words with 256 in Hse; dlia).
    zdec. done. }
  destruct (set_magic_ok b1 magic_BAAD) as (bb & Eb & Lb & Mb); [lia|done|].
  exists bb. split; [|done].
  unfold ntfs_mst_post_read_fixup, ntfs_mst_post_read_fixup_warn.
  rewrite K2, K3. cbn [mbind res_bind]. rewrite Hv. cbn [negb].
  rewrite Hsame, G, Z.eqb_refl by lia. cbn [mbind res_bind].
  change (block_words - 1) with 255. rewrite Kr. cbn [mbind res_bind negb].
  rewrite Eb. done.
Qed.

(** * Witnesses *)

(** A 1024-byte "FILE" record whose update sequence array is at 0x30. *)
Definition sample_record : list Z :=
  [0x4946; 0x454c; 0x30; 3] ++ map Z.of_nat (seq 4 508).

Lemma sample_protectable : protectable sample_record 1024.
Proof.
  split.
  - compute_decide.
  - reflexivity.
  - lia.
  - exists 0x454c4946. split; [reflexivity|]. split; discriminate.
  - exists 0x30, 3. split_and!; reflexivity || lia.
Defined.

Lemma mst_write_read_roundtrip_witness :
  exists b' b'', ntfs_mst_pre_write_fixup (Some sample_record) 1024 = Ok b' /\
    ntfs_mst_post_read_fixup b' 1024 = Ok (b'', None) /\
    ntfs_mst_post_write_fixup b' = Ok b'' /\
    zlen b'' = zlen sample_record /\
    forall j, in_usa sample_record j = false -> aget b'' j = aget sample_record j.
Proof. apply (mst_write_read_roundtrip sample_record 1024 sample_protectable). Defined.

(** The record as written, and with its second sector end left stale. *)
Definition sample_written : list Z :=
  match ntfs_mst_pre_write_fixup (Some sample_record) 1024 with Ok b => b | _ => [] end.

Definition sample_torn : list Z := <[511%nat := 24]> sample_written.

Lemma mst_torn_write_detected_witness :
  exists b2, ntfs_mst_post_read_fixup sample_torn 1024 = Ok (b2, Some EIO) /\
    get_magic b2 = Ok magic_BAAD.
Proof.
  apply (mst_torn_write_detected sample_record 1024 sample_written sample_torn 511).
  - exact sample_protectable.
  - vm_compute. reflexivity.
  - compute_decide.
  - vm_compute. reflexivity.
  - intros i Hi. unfold sample_torn.
    change 511%nat with (Z.to_nat 511). apply aget_insert_ne; lia.
  - reflexivity.
  - vm_compute. split; [discriminate|reflexivity].
  - vm_compute. discriminate.
Defined.

Lemma mst_post_read_spec_witness :
  exists b' rc, ntfs_mst_post_read_fixup sample_record 1024 = Ok (b', rc) /\
    zlen b' = zlen sample_record /\
    (rc = None <-> sectors_match sample_record 1024) /\
    (rc <> None -> get_magic b' = Ok magic_BAAD).
Proof.
  apply (mst_post_read_spec sample_record 1024).
  - compute_decide.
  - reflexivity.
  - lia.
Defined.
