(* ===== verification/Runlist.v ===== *)
(** Runlists (libntfs/runlist.c, include/runlist.h): the data, their memory
    blocks, and the operations that look a cluster up or cut a list.

    A runlist pointer is the list of the elements that can be reached from it
    up to the end of its memory block, [None] for NULL; moving the pointer
    forward is taking the tail.  Elements after the terminator (length 0) are
    allocated but meaningless.  The meaning of a runlist is the function from
    virtual to logical cluster numbers [rl_den]; [ntfs_rl_vcn_to_lcn] is shown
    to compute it and [ntfs_rl_truncate] to restrict it. *)

From S2P Require Import Prelude.

Record runlist_element := mk_rle { vcn : Z; lcn : Z; len : Z }.

#[global] Instance runlist_element_eq_dec : EqDecision runlist_element.
Proof. solve_decision. Defined.

Abbreviation runlist := (list runlist_element).

Definition set_vcn (r : runlist_element) (v : Z) := mk_rle v (lcn r) (len r).
Definition set_lcn (r : runlist_element) (l : Z) := mk_rle (vcn r) l (len r).
Definition set_len (r : runlist_element) (n : Z) := mk_rle (vcn r) (lcn r) n.

(** The special values of an lcn (include/attrib.h). *)
Definition LCN_HOLE : Z := -1.
Definition LCN_RL_NOT_MAPPED : Z := -2.
Definition LCN_ENOENT : Z := -3.
Definition LCN_EINVAL : Z := -4.

(** ** Memory blocks of runlists *)

Definition sizeof_rle : Z := 24.

(** [(n * sizeof(runlist_element) + 0xfff) & ~0xfff] *)
Definition rl_block_bytes (n : Z) : Z :=
  Z.land (n * sizeof_rle + 0xfff) (Z.lnot 0xfff).

(** Elements that fit in a block of [b] bytes. *)
Definition rl_capacity (b : Z) : Z := b / sizeof_rle.

(** The library copies and moves elements with [memcpy] and [memmove]. *)
Definition ntfs_rl_mm (base : runlist) (dst src size : Z) : res runlist :=
  if negb (dst =? src) && (0 <? size) then
    xs ← aslice base src size; awrite base dst xs
  else Ok base.

Definition ntfs_rl_mc (dstbase : runlist) (dst : Z) (srcbase : runlist) (src size : Z)
    : res runlist :=
  if 0 <? size then
    xs ← aslice srcbase src size; awrite dstbase dst xs
  else Ok dstbase.

Section memory.
Context `{Heap}.

(** What an element of fresh memory reads as. *)
Definition junk_rle (i : nat) : runlist_element :=
  mk_rle (heap_junk (3 * i)) (heap_junk (3 * i + 1)) (heap_junk (3 * i + 2)).

(** [realloc(rl, bytes)]: the block keeps its contents up to the smaller size. *)
Definition rl_resize (rl : runlist) (bytes : Z) : res runlist :=
  if heap_grants bytes then
    let n := Z.to_nat (rl_capacity bytes) in
    Ok (take n rl ++ map junk_rle (seq (length rl) (n - length rl)))
  else Err ENOMEM.

Definition ntfs_rl_malloc (size : Z) : res runlist :=
  let bytes := rl_block_bytes size in
  if heap_grants bytes then
    Ok (replicate (Z.to_nat (rl_capacity bytes)) (mk_rle 0 0 0))
  else Err ENOMEM.

Definition ntfs_rl_realloc (rl : runlist) (old_size new_size : Z) : res runlist :=
  let old_size := rl_block_bytes old_size in
  let new_size := rl_block_bytes new_size in
  if old_size =? new_size then Ok rl else rl_resize rl new_size.

(** [while (na->rl[last].length) last++;] from element [last]. *)
Fixpoint rl_last (rl : runlist) (last : Z) : res Z :=
  match rl with
  | [] => Undef
  | r :: rl => if len r =? 0 then Ok last else rl_last rl (last + 1)
  end.

(** [ntfs_rl_extend]: [na_rl] is [na->rl] and [irl] the index of [rl] in it;
    the result is the new [na->rl], in which [rl] keeps its index. *)
Definition ntfs_rl_extend (na_rl : option runlist) (irl : option Z) (more_entries : Z)
    : res (runlist * Z) :=
  match na_rl, irl with
  | Some arl, Some irl =>
      _ ← aget arl irl;
      last ← rl_last (drop (Z.to_nat irl) arl) irl;
      match ntfs_rl_realloc arl (last + 1) (last + more_entries + 1) with
      | Ok newrl => Ok (newrl, irl)
      | Err _ => Err ENOMEM
      | Undef => Undef
      end
  | _, _ => Err EIO
  end.

End memory.

(** ** Lookups *)

(** The loop and the tail of [ntfs_rl_vcn_to_lcn]. *)
Fixpoint vcn_to_lcn_loop (rl : runlist) (v : Z) : res Z :=
  match rl with
  | [] => Undef
  | r :: rl' =>
      if negb (len r =? 0) then
        match rl' with
        | [] => Undef
        | r1 :: _ =>
            if v <? vcn r1 then
              if 0 <=? lcn r then Ok (s64 (lcn r + (v - vcn r))) else Ok (lcn r)
            else vcn_to_lcn_loop rl' v
        end
      else if lcn r <? 0 then Ok (lcn r) else Ok LCN_ENOENT
  end.

Definition ntfs_rl_vcn_to_lcn (rl : option runlist) (v : Z) : res Z :=
  if v <? 0 then Ok LCN_EINVAL else
  match rl with
  | None => Ok LCN_RL_NOT_MAPPED
  | Some rl =>
      r0 ← aget rl 0;
      if v <? vcn r0 then Ok LCN_ENOENT else vcn_to_lcn_loop rl v
  end.

(** The result of [ntfs_rl_find_vcn] is the index of the element, [None] for NULL. *)
Fixpoint find_vcn_loop (rl : runlist) (i v : Z) : res (option Z) :=
  match rl with
  | [] => Undef
  | r :: rl' =>
      if negb (len r =? 0) then
        match rl' with
        | [] => Undef
        | r1 :: _ =>
            if v <? vcn r1 then
              if LCN_HOLE <=? lcn r then Ok (Some i) else Ok None
            else find_vcn_loop rl' (i + 1) v
        end
      else if lcn r =? LCN_ENOENT then Ok (Some i) else Ok None
  end.

Definition ntfs_rl_find_vcn (rl : option runlist) (v : Z) : res (option Z) :=
  if v <? 0 then Ok None else
  match rl with
  | None => Ok None
  | Some rl =>
      r0 ← aget rl 0;
      if v <? vcn r0 then Ok None else find_vcn_loop rl 0 v
  end.

(** ** Truncation *)

(** From the element the search has reached on; the elements before it are
    left as they are. *)
Fixpoint rl_truncate_loop (rl : runlist) (start_vcn : Z) : res runlist :=
  match rl with
  | [] => Undef
  | r :: rl' =>
      if len r =? 0 then Err EIO else
      match rl' with
      | [] => Undef
      | r1 :: rest =>
          if start_vcn <? vcn r1 then
            let r := set_len r (s64 (start_vcn - vcn r)) in
            if negb (len r =? 0) then
              Ok (r :: mk_rle start_vcn LCN_ENOENT 0 :: rest)
            else Ok (set_lcn r LCN_ENOENT :: r1 :: rest)
          else
            rl' ← rl_truncate_loop rl' start_vcn; Ok (r :: rl')
      end
  end.

Definition ntfs_rl_truncate (arl : option runlist) (start_vcn : Z) : res runlist :=
  match arl with
  | None => Err EINVAL
  | Some rl =>
      r0 ← aget rl 0;
      if start_vcn <? vcn r0 then Err EINVAL else rl_truncate_loop rl start_vcn
  end.

(** ** Sparse regions *)

Fixpoint rl_sparse_loop (rl : runlist) : res bool :=
  match rl with
  | [] => Undef
  | r :: rl =>
      if len r =? 0 then Ok false
      else if lcn r <? 0 then
        if negb (lcn r =? LCN_HOLE) then Err EINVAL else Ok true
      else rl_sparse_loop rl
  end.

Definition ntfs_rl_sparse (rl : option runlist) : res bool :=
  match rl with
  | None => Err EINVAL
  | Some rl => rl_sparse_loop rl
  end.

Fixpoint rl_compressed_loop (rl : runlist) (ret : Z) : res Z :=
  match rl with
  | [] => Undef
  | r :: rl =>
      if len r =? 0 then Ok ret
      else if lcn r <? 0 then
        if negb (lcn r =? LCN_HOLE) then Err EINVAL else rl_compressed_loop rl ret
      else rl_compressed_loop rl (s64 (ret + len r))
  end.

Definition ntfs_rl_get_compressed_size (cluster_size_bits : Z) (rl : option runlist) : res Z :=
  match rl with
  | None => Err EINVAL
  | Some rl => ret ← rl_compressed_loop rl 0; Ok (s64 (Z.shiftl ret cluster_size_bits))
  end.

(** ** The meaning of a runlist *)

(** Runs that follow each other without a gap from [v] on, none empty. *)
Fixpoint contig (v : Z) (runs : runlist) : Prop :=
  match runs with
  | [] => True
  | r :: runs => vcn r = v /\ 0 < len r /\ contig (v + len r) runs
  end.

(** The first vcn after the runs. *)
Fixpoint runs_end (v : Z) (runs : runlist) : Z :=
  match runs with
  | [] => v
  | r :: runs => runs_end (v + len r) runs
  end.

Definition lcn_at (r : runlist_element) (v : Z) : Z :=
  if 0 <=? lcn r then lcn r + (v - vcn r) else lcn r.

(** [None]: no run contains [v]. *)
Fixpoint rl_den (runs : runlist) (v : Z) : option Z :=
  match runs with
  | [] => None
  | r :: runs =>
      if (vcn r <=? v) && (v <? vcn r + len r) then Some (lcn_at r v) else rl_den runs v
  end.

(** An element whose cluster numbers fit their type. *)
Definition run_ok (r : runlist_element) : Prop :=
  0 <= vcn r /\ vcn r + len r < 2 ^ 63 /\ -3 <= lcn r < 2 ^ 63 /\
  (0 <= lcn r -> lcn r + len r < 2 ^ 63).

#[export] Instance run_ok_dec r : Decision (run_ok r).
Proof. unfold run_ok. apply _. Defined.

(** [rl] holds [runs], from [v0] on, ended by [term]. *)
Record rl_holds (rl : runlist) (v0 : Z) (runs : runlist) (term : runlist_element) : Prop := {
  rh_mem : exists tail, rl = runs ++ term :: tail;
  rh_contig : contig v0 runs;
  rh_ok : Forall run_ok runs;
  rh_term : vcn term = runs_end v0 runs /\ len term = 0;
  rh_start : 0 <= v0
}.

(** The runs that are left when everything from vcn [s] on is cut off. *)
Fixpoint runs_cut (s : Z) (runs : runlist) : runlist :=
  match runs with
  | [] => []
  | r :: runs =>
      if s <? vcn r + len r then
        if s =? vcn r then [] else [set_len r (s - vcn r)]
      else r :: runs_cut s runs
  end.

(** Clusters of the runs that are on the volume. *)
Fixpoint runs_mapped (runs : runlist) : Z :=
  match runs with
  | [] => 0
  | r :: runs => (if 0 <=? lcn r then len r else 0) + runs_mapped runs
  end.

(** * Proofs *)

Lemma contig_app v l1 l2 :
  contig v (l1 ++ l2) <-> contig v l1 /\ contig (runs_end v l1) l2.
Proof.
  revert v. induction l1 as [|r l1 IH]; intros v; cbn; [tauto|]. rewrite IH. tauto.
Qed.

Lemma runs_end_app v l1 l2 : runs_end v (l1 ++ l2) = runs_end (runs_end v l1) l2.
Proof. revert v. induction l1 as [|r l1 IH]; intros v; cbn; [done|]. apply IH. Qed.

Lemma contig_end_ge v runs : contig v runs -> v <= runs_end v runs.
Proof.
  revert v. induction runs as [|r runs IH]; intros v; cbn; [lia|].
  intros (_ & ? & C). apply IH in C. lia.
Qed.

Lemma rl_den_app l1 l2 v :
  rl_den (l1 ++ l2) v = match rl_den l1 v with Some l => Some l | None => rl_den l2 v end.
Proof. induction l1 as [|r l1 IH]; cbn; [done|]. destruct (_ && _); done. Qed.

(** A vcn is mapped exactly between the ends of the runs. *)
Lemma rl_den_None v0 runs v :
  contig v0 runs -> rl_den runs v = None <-> v < v0 \/ runs_end v0 runs <= v.
Proof.
  revert v0. induction runs as [|r runs IH]; intros v0; cbn; [split; [lia|done]|].
  intros (E & P & C). pose proof (contig_end_ge _ _ C).
  specialize (IH _ C).
  destruct (Z.leb_spec (vcn r) v), (Z.ltb_spec v (vcn r + len r)); cbn [andb];
    [split; [done|lia]|rewrite IH; lia..].
Qed.

Lemma rl_den_before v0 runs v : contig v0 runs -> v < v0 -> rl_den runs v = None.
Proof. intros. apply (rl_den_None v0); [done|lia]. Qed.

Lemma rl_den_after v0 runs v : contig v0 runs -> runs_end v0 runs <= v -> rl_den runs v = None.
Proof. intros. apply (rl_den_None v0); [done|lia]. Qed.

Lemma lcn_at_range r v :
  run_ok r -> vcn r <= v < vcn r + len r -> - 2 ^ 63 <= lcn_at r v < 2 ^ 63.
Proof. intros (A & B & C & D) Hv. unfold lcn_at. zcase; lia. Qed.

(** The element after the runs of [contig v0]. *)
Lemma next_vcn v0 (runs : runlist) term tail :
  contig v0 runs -> vcn term = runs_end v0 runs ->
  exists r1 rest, runs ++ term :: tail = r1 :: rest /\ vcn r1 = v0.
Proof.
  destruct runs as [|r runs]; cbn; [intros _ ?; eauto|]. intros (? & _) _. eauto.
Qed.

Lemma vcn_to_lcn_loop_spec runs : forall v0 term tail v,
  contig v0 runs -> Forall run_ok runs -> vcn term = runs_end v0 runs -> len term = 0 ->
  v0 <= v ->
  vcn_to_lcn_loop (runs ++ term :: tail) v =
    Ok (match rl_den runs v with
        | Some l => l
        | None => if lcn term <? 0 then lcn term else LCN_ENOENT
        end).
Proof.
  induction runs as [|r runs IH]; intros v0 term tail v C O T L Hv.
  - cbn [app vcn_to_lcn_loop rl_den]. rewrite L. cbn [negb Z.eqb]. by destruct (_ <? _).
  - cbn [contig runs_end] in *. destruct C as (E & P & C). inversion O as [|? ? Or Os]; subst.
    destruct (next_vcn (vcn r + len r) runs term tail C T) as (r1 & rest & Eq & V1).
    cbn [app vcn_to_lcn_loop rl_den]. rewrite Eq, V1. zdec.
    destruct (Z.ltb_spec v (vcn r + len r)).
    + pose proof (lcn_at_range r v Or) as R. unfold lcn_at in *.
      destruct (Z.leb_spec 0 (lcn r)); [|done]. rewrite s64_small by lia. done.
    + rewrite <- Eq. cbn [andb]. apply (IH (vcn r + len r)); done || lia.
Qed.

(** Cutting keeps the meaning below the cut, and nothing above. *)
Lemma runs_cut_den v0 runs s v :
  contig v0 runs -> rl_den (runs_cut s runs) v = if v <? s then rl_den runs v else None.
Proof.
  revert v0. induction runs as [|r runs IH]; intros v0; cbn; [by destruct (_ <? _)|].
  intros (E & P & C). destruct (Z.ltb_spec s (vcn r + len r)).
  - destruct (Z.eqb_spec s (vcn r)); cbn.
    + destruct (Z.ltb_spec v s); [|done]. zdec.
      rewrite (rl_den_before _ _ v C); [done|lia].
    + destruct (Z.leb_spec (vcn r) v); cbn [andb].
      * destruct (Z.ltb_spec v (vcn r + (s - vcn r))); zdec; done.
      * zdec. destruct (Z.ltb_spec v s); [|done].
        rewrite (rl_den_before _ _ v C); [done|lia].
  - cbn. rewrite (IH _ C). destruct (Z.ltb_spec v s); zcase; cbn; done || lia.
Qed.

Lemma runs_cut_contig v0 runs s : contig v0 runs -> v0 <= s -> contig v0 (runs_cut s runs).
Proof.
  revert v0. induction runs as [|r runs IH]; intros v0; cbn; [done|].
  intros (E & P & C) Hs. destruct (Z.ltb_spec s (vcn r + len r)).
  - destruct (Z.eqb_spec s (vcn r)); cbn; [done|]. lia.
  - cbn. split_and!; [done..|]. apply IH; [done|lia].
Qed.

Lemma runs_cut_end v0 runs s :
  contig v0 runs -> v0 <= s < runs_end v0 runs -> runs_end v0 (runs_cut s runs) = s.
Proof.
  revert v0. induction runs as [|r runs IH]; intros v0; cbn; [lia|].
  intros (E & P & C) Hs. destruct (Z.ltb_spec s (vcn r + len r)).
  - destruct (Z.eqb_spec s (vcn r)); cbn; lia.
  - cbn. apply IH; [done|lia].
Qed.

Lemma runs_cut_ok v0 runs s :
  contig v0 runs -> v0 <= s -> Forall run_ok runs -> Forall run_ok (runs_cut s runs).
Proof.
  revert v0. induction runs as [|r runs IH]; intros v0; cbn; [done|].
  intros (E & P & C) Hs O. apply Forall_cons_1 in O as [Or Os]. destruct (Z.ltb_spec s (vcn r + len r)).
  - destruct (Z.eqb_spec s (vcn r)); [done|]. constructor; [|done].
    destruct Or as (A & B & D & F). repeat split; cbn; lia.
  - constructor; [done|]. eapply IH; [done|lia|done].
Qed.

(** The truncating loop produces the cut runs and an ENOENT terminator. *)
Lemma rl_truncate_loop_spec runs : forall v0 term tail s,
  contig v0 runs -> Forall run_ok runs -> vcn term = runs_end v0 runs -> len term = 0 ->
  0 <= v0 <= s -> s < runs_end v0 runs ->
  exists tail', rl_truncate_loop (runs ++ term :: tail) s =
    Ok (runs_cut s runs ++ mk_rle s LCN_ENOENT 0 :: tail').
Proof.
  induction runs as [|r runs IH]; intros v0 term tail s C O T L Hv Hs; cbn [runs_end] in *; [lia|].
  cbn [contig] in C. destruct C as (E & P & C). inversion O as [|? ? Or Os]; subst.
  destruct (next_vcn (vcn r + len r) runs term tail C T) as (r1 & rest & Eq & V1).
  cbn [app rl_truncate_loop runs_cut]. zdec. rewrite Eq, V1.
  destruct (Z.ltb_spec s (vcn r + len r)).
  - destruct Or as (O1 & O2 & _). rewrite s64_small by lia. cbn [len].
    destruct (Z.eqb_spec s (vcn r)); zdec; cbn [set_len len negb].
    + zdec. cbn. exists (r1 :: rest). subst. rewrite Z.sub_diag. done.
    + zdec. exists rest. done.
  - rewrite <- Eq. destruct (IH (vcn r + len r) term tail s) as [t Ht]; [done..|lia|lia|].
    rewrite Ht. cbn. eauto.
Qed.

Lemma rl_holds_first rl v0 runs term :
  rl_holds rl v0 runs term -> exists r0, aget rl 0 = Ok r0 /\ vcn r0 = v0.
Proof.
  intros [[tail ->] C O [T L] S].
  destruct (next_vcn v0 runs term tail C T) as (r1 & rest & -> & V). exists r1. done.
Qed.

(** the lookup computes the meaning of the runlist. *)
Theorem vcn_to_lcn_correct rl v0 runs term v :
  rl_holds rl v0 runs term -> 0 <= v ->
  ntfs_rl_vcn_to_lcn (Some rl) v =
    Ok (match rl_den runs v with
        | Some l => l
        | None => if v <? v0 then LCN_ENOENT
                  else if lcn term <? 0 then lcn term else LCN_ENOENT
        end).
Proof.
  intros Hrl Hv. destruct (rl_holds_first _ _ _ _ Hrl) as (r0 & Hr0 & V0).
  destruct Hrl as [[tail ->] C O [T L] S].
  unfold ntfs_rl_vcn_to_lcn. zdec. rewrite Hr0. cbn [mbind res_bind]. rewrite V0.
  destruct (Z.ltb_spec v v0).
  - rewrite (rl_den_before v0) by done. done.
  - rewrite (vcn_to_lcn_loop_spec runs v0) by done. done.
Qed.

(** truncation keeps exactly the clusters below the cut. *)
Theorem rl_truncate_correct rl v0 runs term s :
  rl_holds rl v0 runs term -> v0 <= s < runs_end v0 runs ->
  exists rl', ntfs_rl_truncate (Some rl) s = Ok rl' /\
    rl_holds rl' v0 (runs_cut s runs) (mk_rle s LCN_ENOENT 0) /\
    forall v, rl_den (runs_cut s runs) v = if v <? s then rl_den runs v else None.
Proof.
  intros Hrl Hs. destruct (rl_holds_first _ _ _ _ Hrl) as (r0 & Hr0 & V0).
  destruct Hrl as [[tail ->] C O [T L] S].
  unfold ntfs_rl_truncate. rewrite Hr0. cbn [mbind res_bind]. rewrite V0. zdec.
  destruct (rl_truncate_loop_spec runs v0 term tail s) as [t Ht]; [done..|lia|lia|].
  eexists. split; [exact Ht|]. split; [|intros v; by eapply runs_cut_den].
  split; [eauto|..].
  - apply runs_cut_contig; [done|lia].
  - eapply runs_cut_ok; [done|lia|done].
  - rewrite runs_cut_end by done. done.
  - done.
Qed.

(** ** Growing a block *)

Lemma rl_resize_grow `{Heap} done junk bytes rl' :
  rl_resize (done ++ junk) bytes = Ok rl' -> zlen done <= rl_capacity bytes ->
  exists junk', rl' = done ++ junk' /\ zlen rl' = Z.max 0 (rl_capacity bytes).
Proof.
  unfold rl_resize. destruct (heap_grants bytes); [|done]. intros [= <-] Hc.
  set (n := Z.to_nat (rl_capacity bytes)).
  assert (length done <= n)%nat by (unfold n, zlen in *; lia).
  rewrite take_app_ge by done. rewrite <- app_assoc. eexists. split; [done|].
  unfold zlen. rewrite !length_app, length_map, length_seq, length_take. lia.
Qed.

(** ** Finding an element *)

(** The index of the run that contains [v]. *)
Fixpoint run_index (runs : runlist) (v : Z) : option nat :=
  match runs with
  | [] => None
  | r :: runs =>
      if (vcn r <=? v) && (v <? vcn r + len r) then Some 0%nat else S <$> run_index runs v
  end.

Lemma find_vcn_loop_spec runs : forall v0 term tail v i,
  contig v0 runs -> vcn term = runs_end v0 runs -> len term = 0 -> v0 <= v ->
  find_vcn_loop (runs ++ term :: tail) i v =
    Ok (match run_index runs v with
        | Some k => r ← runs !! k; if LCN_HOLE <=? lcn r then Some (i + Z.of_nat k) else None
        | None => if lcn term =? LCN_ENOENT then Some (i + zlen runs) else None
        end).
Proof.
  induction runs as [|r runs IH]; intros v0 term tail v i C T L Hv;
    cbn [app find_vcn_loop run_index].
  - zdec. rewrite zlen_nil, Z.add_0_r. by destruct (lcn term =? LCN_ENOENT).
  - destruct C as (V & P & C). destruct (next_vcn (v0 + len r) runs term tail C T)
      as (r1 & rest & Eq & V1). zdec. rewrite Eq, V1. rewrite <- Eq.
    destruct (Z.ltb_spec v (v0 + len r)); zdec.
    + cbn. rewrite Z.add_0_r. by destruct (LCN_HOLE <=? lcn r).
    + rewrite (IH (v0 + len r)) by done. rewrite zlen_cons.
      destruct (run_index runs v) as [k|]; cbn; f_equal.
      * destruct (runs !! k) as [r'|]; cbn; [|done].
        destruct (LCN_HOLE <=? lcn r'); [|done]. f_equal. lia.
      * destruct (lcn term =? LCN_ENOENT); [|done]. f_equal. lia.
Qed.

(** the element found is the run that contains the vcn, if it is mapped or
    a hole; behind the last run it is an ENOENT terminator. *)
Theorem rl_find_vcn_correct rl v0 runs term v :
  rl_holds rl v0 runs term -> v0 <= v ->
  ntfs_rl_find_vcn (Some rl) v =
    Ok (match run_index runs v with
        | Some k => r ← runs !! k; if LCN_HOLE <=? lcn r then Some (Z.of_nat k) else None
        | None => if lcn term =? LCN_ENOENT then Some (zlen runs) else None
        end).
Proof.
  intros Hrl Hv. destruct (rl_holds_first _ _ _ _ Hrl) as (r0 & Hr0 & V0).
  destruct Hrl as [[tail ->] C O [T L] S].
  unfold ntfs_rl_find_vcn. zdec. rewrite Hr0. cbn [mbind res_bind]. rewrite V0. zdec.
  by rewrite (find_vcn_loop_spec runs v0).
Qed.

(** ** The size on the volume *)

Lemma runs_mapped_bound runs : forall v,
  contig v runs -> 0 <= runs_mapped runs <= runs_end v runs - v.
Proof.
  induction runs as [|r runs IH]; intros v C; cbn [runs_mapped runs_end]; [lia|].
  destruct C as (V & P & C). specialize (IH _ C). zcase; lia.
Qed.

Lemma rl_compressed_loop_spec runs : forall v0 term tail ret,
  contig v0 runs -> len term = 0 -> 0 <= ret -> ret + (runs_end v0 runs - v0) < 2 ^ 63 ->
  rl_compressed_loop (runs ++ term :: tail) ret =
    if forallb (fun r => LCN_HOLE <=? lcn r) runs then Ok (ret + runs_mapped runs)
    else Err EINVAL.
Proof.
  induction runs as [|r runs IH]; intros v0 term tail ret C L Hr Hb;
    cbn [app rl_compressed_loop forallb runs_mapped runs_end] in *.
  - rewrite L. cbn [Z.eqb]. by rewrite Z.add_0_r.
  - destruct C as (V & P & C). pose proof (contig_end_ge _ _ C). unfold LCN_HOLE. zdec.
    destruct (Z.ltb_spec (lcn r) 0).
    + destruct (Z.eqb_spec (lcn r) (-1)); cbn [negb]; zdec; [|done].
      rewrite (IH (v0 + len r)) by (done || lia). done.
    + rewrite s64_small by lia. zdec. rewrite (IH (v0 + len r)) by (done || lia).
      destruct (forallb _ runs); [|done]. f_equal. lia.
Qed.

(** the compressed size is the number of clusters on the volume times the
    cluster size; a list with an unmapped element is refused. *)
Theorem rl_compressed_size_correct rl v0 runs term bits :
  rl_holds rl v0 runs term -> 0 <= bits -> runs_end v0 runs * 2 ^ bits < 2 ^ 63 ->
  ntfs_rl_get_compressed_size bits (Some rl) =
    if forallb (fun r => LCN_HOLE <=? lcn r) runs then Ok (runs_mapped runs * 2 ^ bits)
    else Err EINVAL.
Proof.
  intros [[tail ->] C O [T L] S] Hb Hsz. unfold ntfs_rl_get_compressed_size.
  pose proof (runs_mapped_bound _ _ C). pose proof (contig_end_ge _ _ C).
  assert (1 <= 2 ^ bits) by (apply (Z.pow_le_mono_r 2 0); lia).
  rewrite (rl_compressed_loop_spec runs v0) by (done || nia).
  destruct (forallb _ runs); [|done]. cbn [mbind res_bind].
  rewrite Z.shiftl_mul_pow2, s64_small by nia. f_equal.
Qed.

(** ** A concrete runlist *)

Definition small_runs : runlist := [mk_rle 0 100 10; mk_rle 10 (-1) 10; mk_rle 20 200 10].
Definition small_term : runlist_element := mk_rle 30 LCN_ENOENT 0.

Lemma small_holds : rl_holds (small_runs ++ [small_term]) 0 small_runs small_term.
Proof. split; [by exists []|cbn; lia|compute_decide|done|lia]. Defined.

Lemma vcn_to_lcn_correct_witness :
  ntfs_rl_vcn_to_lcn (Some (small_runs ++ [small_term])) 25 = Ok 205.
Proof. apply (vcn_to_lcn_correct _ _ _ _ 25 small_holds). lia. Defined.

Lemma rl_truncate_correct_witness :
  exists rl', ntfs_rl_truncate (Some (small_runs ++ [small_term])) 12 = Ok rl' /\
    rl_holds rl' 0 (runs_cut 12 small_runs) (mk_rle 12 LCN_ENOENT 0) /\
    forall v, rl_den (runs_cut 12 small_runs) v = if v <? 12 then rl_den small_runs v else None.
Proof. apply (rl_truncate_correct _ _ _ _ 12 small_holds). cbn. lia. Defined.

Lemma rl_find_vcn_correct_witness :
  ntfs_rl_find_vcn (Some (small_runs ++ [small_term])) 12 = Ok (Some 1).
Proof. apply (rl_find_vcn_correct _ _ _ _ 12 small_holds). lia. Defined.

Lemma rl_compressed_size_correct_witness :
  ntfs_rl_get_compressed_size 12 (Some (small_runs ++ [small_term])) = Ok (20 * 2 ^ 12).
Proof. apply (rl_compressed_size_correct _ _ _ _ 12 small_holds); cbn; lia. Defined.
