(* ===== verification/RunlistPunch.v ===== *)
(** Punching a hole into a runlist (libntfs/runlist.c, [ntfs_rl_punch_hole]),
    which fsck uses to take clusters away from an attribute: the runs of the
    range become a hole and are handed to the caller as a runlist of their
    own.  Pointers into [dst_rl] are indices. *)

From S2P Require Import Prelude Runlist.

Section punch.
Context {HP : Heap}.

(** Elements [s] and [e] of [dst_rl] hold the start and the end of the range. *)
Record punch_point := mk_pp { pp_s : Z; pp_e : Z; pp_end_vcn : Z; pp_begin_split : bool; pp_end_split : bool }.

(** The guards; [None] is a return of NULL. *)
Definition punch_find (dst_rl : runlist) (dst_cnt start_vcn n : Z) : res (option punch_point) :=
  if dst_cnt <? 2 then Ok None else
  t ← aget dst_rl (dst_cnt - 1);
  if negb (len t =? 0) then Ok None else
  l ← aget dst_rl (dst_cnt - 2);
  let end_vcn := Z.min (s64 (start_vcn + n - 1)) (s64 (vcn l + len l - 1)) in
  s ← ntfs_rl_find_vcn (Some dst_rl) start_vcn;
  match s with
  | None => Ok None
  | Some s =>
      s_rl ← aget dst_rl s;
      if lcn s_rl <=? LCN_ENOENT then Ok None else
      e ← ntfs_rl_find_vcn (Some dst_rl) end_vcn;
      match e with
      | None => Ok None
      | Some e =>
          e_rl ← aget dst_rl e;
          if lcn e_rl <=? LCN_ENOENT then Ok None else
          Ok (Some (mk_pp s e end_vcn (negb (vcn s_rl =? start_vcn))
                      (negb (s64 (vcn e_rl + len e_rl - 1) =? end_vcn))))
      end
  end.

(** Advances a run by [k] clusters: holes stay holes. *)
Definition move_lcn (r : runlist_element) (k : Z) : runlist_element :=
  if LCN_HOLE <? lcn r then set_lcn r (s64 (lcn r + k)) else r.

(** The runs taken out, the first and the last of them cut to the range. *)
Definition punch_out (dst_rl : runlist) (pp : punch_point) (start_vcn new_len : Z) : res (option runlist) :=
  let punch_cnt := pp_e pp - pp_s pp + 1 in
  match ntfs_rl_malloc (punch_cnt + 1) with
  | Undef => Undef
  | Err _ => Ok None
  | Ok p =>
      p ← ntfs_rl_mc p 0 dst_rl (pp_s pp) punch_cnt;
      t ← aget p punch_cnt;
      p ← aset p punch_cnt (mk_rle (vcn t) LCN_ENOENT 0);
      p ← (if pp_begin_split pp then
             s_rl ← aget dst_rl (pp_s pp);
             let first_cnt := s64 (start_vcn - vcn s_rl) in
             r ← aget p 0;
             aset p 0 (move_lcn (mk_rle start_vcn (lcn r) (s64 (len r - first_cnt))) first_cnt)
           else Ok p);
      p ← (if pp_end_split pp then
             r ← aget p (punch_cnt - 1);
             e_rl ← aget dst_rl (pp_e pp);
             aset p (punch_cnt - 1)
               (set_len r (if (pp_e pp =? pp_s pp) && pp_begin_split pp then s64 (len r - new_len)
                           else s64 (pp_end_vcn pp - vcn e_rl + 1)))
           else Ok p);
      r ← aget p (punch_cnt - 1);
      t ← aget p punch_cnt;
      p ← aset p punch_cnt (set_vcn t (s64 (vcn r + len r)));
      Ok (Some p)
  end.

(** Copies the [new_1st_cnt] elements before the hole and cuts the last. *)
Definition punch_first (new_rl dst_rl : runlist) (begin_split : bool) (new_1st_cnt start_vcn : Z)
    : res runlist :=
  new_rl ← ntfs_rl_mc new_rl 0 dst_rl 0 new_1st_cnt;
  if begin_split then
    s_rl ← aget dst_rl (new_1st_cnt - 1);
    if negb (new_1st_cnt =? 0) then
      r ← aget new_rl (new_1st_cnt - 1);
      aset new_rl (new_1st_cnt - 1) (set_len r (s64 (start_vcn - vcn s_rl)))
    else Ok new_rl
  else Ok new_rl.

(** Copies the elements of [dst_rl] from [third] on to index [pos] and cuts the
    first. *)
Definition punch_third (new_rl dst_rl : runlist) (end_split : bool) (pos third dst_3rd_cnt end_vcn : Z)
    : res runlist :=
  new_rl ← ntfs_rl_mc new_rl pos dst_rl third dst_3rd_cnt;
  if end_split then
    e_rl ← aget dst_rl third;
    let first_cnt := s64 (end_vcn - vcn e_rl + 1) in
    r ← aget new_rl pos;
    aset new_rl pos
      (move_lcn (mk_rle (s64 (end_vcn + 1)) (lcn r) (s64 (len r - first_cnt))) first_cnt)
  else Ok new_rl.

(** The new list before holes are merged, in fresh memory [new_rl]; with the
    number of elements before the hole. *)
Definition punch_new (new_rl dst_rl : runlist) (dst_cnt : Z) (pp : punch_point) (start_vcn n : Z)
    : res (runlist * Z) :=
  let new_1st_cnt := if pp_begin_split pp then pp_s pp + 1 else pp_s pp in
  let third := if pp_end_split pp then pp_e pp else pp_e pp + 1 in
  new_rl ← punch_first new_rl dst_rl (pp_begin_split pp) new_1st_cnt start_vcn;
  new_rl ← ntfs_rl_mc new_rl new_1st_cnt [mk_rle start_vcn LCN_HOLE n] 0 1;
  new_rl ← punch_third new_rl dst_rl (pp_end_split pp) (new_1st_cnt + 1) third (dst_cnt - third) (pp_end_vcn pp);
  Ok (new_rl, new_1st_cnt).

(** Element [i] takes over the lengths of the [k] elements behind it, which go. *)
Definition merge_at (new_rl : runlist) (new_cnt i k : Z) : res runlist :=
  r ← aget new_rl i;
  r1 ← aget new_rl (i + 1);
  let r := set_len r (s64 (len r + len r1)) in
  r ← (if k =? 2 then r2 ← aget new_rl (i + 2); Ok (set_len r (s64 (len r + len r2))) else Ok r);
  new_rl ← aset new_rl i r;
  ntfs_rl_mm new_rl (i + 1) (i + 1 + k) (new_cnt - (i + 1 + k)).

(** The hole is merged with holes on its sides. *)
Definition punch_merge (new_rl : runlist) (new_cnt new_1st_cnt : Z) : res runlist :=
  left ← (if 0 <? new_1st_cnt
          then l ← aget new_rl (new_1st_cnt - 1); Ok (lcn l =? LCN_HOLE) else Ok false);
  right ← (if new_1st_cnt + 1 <? new_cnt
           then r ← aget new_rl (new_1st_cnt + 1); Ok (lcn r =? LCN_HOLE) else Ok false);
  if (left : bool) then merge_at new_rl new_cnt (new_1st_cnt - 1) (if (right : bool) then 2 else 1)
  else if (right : bool) then merge_at new_rl new_cnt new_1st_cnt 1
  else Ok new_rl.

(** [None]: NULL is returned.  The second list is [*punch_rl], absent when the
    caller does not ask for it. *)
Definition ntfs_rl_punch_hole (dst_rl : runlist) (dst_cnt start_vcn n : Z) (punch : bool)
    : res (option (runlist * option runlist)) :=
  f ← punch_find dst_rl dst_cnt start_vcn n;
  match f with
  | None => Ok None
  | Some pp =>
      let new_cnt := dst_cnt - (pp_e pp - pp_s pp + 1) + 3 in
      match ntfs_rl_malloc new_cnt with
      | Undef => Undef
      | Err _ => Ok None
      | Ok new_rl =>
          '(new_rl, new_1st_cnt) ← punch_new new_rl dst_rl dst_cnt pp start_vcn n;
          right ← aget new_rl (new_1st_cnt + 1);
          p ← (if punch then
                 p ← punch_out dst_rl pp start_vcn (len right);
                 Ok (match p with None => None | Some p => Some (Some p) end)
               else Ok (Some None));
          match p with
          | None => Ok None
          | Some p => new_rl ← punch_merge new_rl new_cnt new_1st_cnt; Ok (Some (new_rl, p))
          end
      end
  end.

End punch.

(** ** Specification *)

(** A run from its [k]-th cluster on. *)
Definition advance (r : runlist_element) (k : Z) : runlist_element :=
  mk_rle (vcn r + k) (if 0 <=? lcn r then lcn r + k else lcn r) (len r - k).

(** The runs from vcn [s] on. *)
Fixpoint runs_from (s : Z) (runs : runlist) : runlist :=
  match runs with
  | [] => []
  | r :: runs =>
      if vcn r + len r <=? s then runs_from s runs
      else if s <=? vcn r then r :: runs else advance r (s - vcn r) :: runs
  end.

(** * Proofs *)

Lemma runs_from_den v0 runs s v :
  contig v0 runs -> rl_den (runs_from s runs) v = if s <=? v then rl_den runs v else None.
Proof.
  revert v0. induction runs as [|r runs IH]; intros v0; cbn [runs_from rl_den]; [by destruct (_ <=? _)|].
  intros (E & P & C). destruct (Z.leb_spec (vcn r + len r) s) as [H|H].
  - rewrite (IH _ C). destruct (Z.leb_spec s v); [|done]. by zdec.
  - destruct (Z.leb_spec s (vcn r)) as [H1|H1].
    + cbn [rl_den]. destruct (Z.leb_spec s v); [done|]. zdec. rewrite (rl_den_before (v0 + len r)); [done|done|lia].
    + cbn [rl_den]. replace (vcn (advance r (s - vcn r))) with s by (cbn; lia).
      replace (s + len (advance r (s - vcn r))) with (vcn r + len r) by (cbn; lia).
      destruct (Z.leb_spec s v); cbn [andb].
      * zdec. destruct (Z.ltb_spec v (vcn r + len r)); cbn [andb]; [|done].
        f_equal. unfold lcn_at, advance. cbn. destruct (Z.leb_spec 0 (lcn r)); zdec; lia.
      * rewrite (rl_den_before (v0 + len r)); [done|done|lia].
Qed.

Lemma runs_from_contig v0 runs s :
  contig v0 runs -> contig (Z.max v0 s) (runs_from s runs) /\
    (v0 <= s <= runs_end v0 runs -> runs_end s (runs_from s runs) = runs_end v0 runs).
Proof.
  revert v0. induction runs as [|r runs IH]; intros v0; cbn [runs_from contig runs_end]; [split; [done|lia]|].
  intros (E & P & C). destruct (Z.leb_spec (vcn r + len r) s) as [H|H].
  - destruct (IH _ C) as [I1 I2]. split; [by replace (Z.max v0 s) with (Z.max (v0 + len r) s) by lia|].
    intros. apply I2. lia.
  - destruct (Z.leb_spec s (vcn r)) as [H1|H1]; cbn [contig runs_end].
    + split; [replace (Z.max v0 s) with v0 by lia; done|]. intros. f_equal. lia.
    + split; [|intros; f_equal; cbn; lia]. split; [cbn; lia|]. split; [cbn; lia|].
      by replace (Z.max v0 s + len (advance r (s - vcn r))) with (v0 + len r) by (cbn; lia).
Qed.

Lemma run_ok_advance r k : run_ok r -> 0 <= k < len r -> run_ok (advance r k).
Proof. intros (A & B & C & D) Hk. unfold run_ok, advance. cbn. zcase; lia. Qed.

Lemma runs_from_ok s runs : Forall run_ok runs -> Forall run_ok (runs_from s runs).
Proof.
  induction 1 as [|r runs Hr Hs IH]; cbn [runs_from]; [done|].
  destruct (Z.leb_spec (vcn r + len r) s); [done|]. destruct (Z.leb_spec s (vcn r)).
  - by constructor.
  - constructor; [|done]. apply run_ok_advance; [done|lia].
Qed.

(** The run that contains a vcn. *)
Lemma runs_split v0 runs v :
  contig v0 runs -> v0 <= v < runs_end v0 runs ->
  exists L r R, runs = L ++ r :: R /\ vcn r <= v < vcn r + len r /\ run_index runs v = Some (length L).
Proof.
  revert v0. induction runs as [|r runs IH]; intros v0; cbn [contig runs_end run_index]; [lia|].
  intros (E & P & C) Hv. destruct (Z.ltb_spec v (vcn r + len r)) as [H|H].
  - exists [], r, runs. zdec. split_and!; done || lia.
  - destruct (IH _ C) as (L & a & R & -> & Ha & Hi); [lia|].
    exists (r :: L), a, R. rewrite andb_false_r, Hi. split_and!; done || lia.
Qed.

Lemma contig_bounds v0 L r R : contig v0 (L ++ r :: R) -> vcn r = runs_end v0 L /\ 0 < len r.
Proof. intros [_ C]%contig_app. cbn in C. destruct C as (? & ? & _). done. Qed.

Lemma runs_cut_split v0 L r R s :
  contig v0 (L ++ r :: R) -> vcn r <= s < vcn r + len r ->
  runs_cut s (L ++ r :: R) = L ++ (if s =? vcn r then [] else [set_len r (s - vcn r)]).
Proof.
  revert v0. induction L as [|x L IH]; intros v0 C Hs; cbn [app runs_cut].
  - zdec. done.
  - cbn in C. destruct C as (E & P & C). destruct (contig_bounds _ _ _ _ C) as [Er _].
    apply contig_app in C as C'. destruct C' as [CL _]. pose proof (contig_end_ge _ _ CL).
    zdec. by rewrite (IH _ C) by lia.
Qed.

Lemma runs_from_split v0 L r R s :
  contig v0 (L ++ r :: R) -> vcn r < s <= vcn r + len r ->
  runs_from s (L ++ r :: R) =
    (if s =? vcn r + len r then [] else [advance r (s - vcn r)]) ++ runs_from s R /\ runs_from s R = R.
Proof.
  revert v0. induction L as [|x L IH]; intros v0 C Hs; cbn [app runs_from].
  - cbn in C. destruct C as (E & P & C). split.
    + destruct (Z.leb_spec (vcn r + len r) s); zdec; [done|]. cbn [app]. f_equal.
      destruct R as [|y R]; [done|]. cbn in C |- *. destruct C as (Ey & Py & _). by zdec.
    + destruct R as [|y R]; [done|]. cbn in C |- *. destruct C as (Ey & Py & _). by zdec.
  - cbn in C. destruct C as (E & P & C). destruct (contig_bounds _ _ _ _ C) as [Er _].
    apply contig_app in C as C'. destruct C' as [CL _]. pose proof (contig_end_ge _ _ CL).
    zdec. apply (IH _ C). lia.
Qed.

Lemma runs_from_at v0 L r R s :
  contig v0 (L ++ r :: R) -> vcn r <= s < vcn r + len r ->
  runs_from s (L ++ r :: R) = advance r (s - vcn r) :: R.
Proof.
  revert v0. induction L as [|x L IH]; intros v0 C Hs; cbn [app runs_from].
  - zdec. destruct (Z.leb_spec s (vcn r)); [|done]. f_equal. destruct r as [v l m]. cbn in *. unfold advance. cbn.
    f_equal; try lia. zcase; lia.
  - cbn in C. destruct C as (E & P & C). destruct (contig_bounds _ _ _ _ C) as [Er _].
    apply contig_app in C as C'. destruct C' as [CL _]. pose proof (contig_end_ge _ _ CL).
    zdec. apply (IH _ C). lia.
Qed.

Lemma runs_cut_at v0 L r R s :
  contig v0 (L ++ r :: R) -> vcn r < s <= vcn r + len r ->
  runs_cut s (L ++ r :: R) = L ++ [set_len r (s - vcn r)].
Proof.
  intros C Hs. destruct (Z.eq_dec s (vcn r + len r)) as [->|Hne].
  - rewrite (cons_middle r L R), app_assoc in *. destruct R as [|y R].
    + rewrite app_nil_r. replace (vcn r + len r - vcn r) with (len r) by lia.
      replace (set_len r (len r)) with r by by destruct r.
      assert (forall l v, contig v l -> runs_end v l <= vcn r + len r -> runs_cut (vcn r + len r) l = l) as H.
      { clear. induction l as [|x l IH]; intros v; cbn; [done|]. intros (E & P & C) He.
        pose proof (contig_end_ge _ _ C). zdec. f_equal. by apply (IH (v + len x)). }
      rewrite app_nil_r in C. apply (H _ v0); [done|]. apply contig_bounds in C as C'. destruct C' as [Er _].
      rewrite runs_end_app. cbn. lia.
    + assert (vcn y = vcn r + len r /\ 0 < len y) as [Ey Py].
      { rewrite <- app_assoc in C. apply contig_app in C as [_ C]. cbn in C.
        destruct C as (? & ? & ? & ? & _). lia. }
      rewrite (runs_cut_split v0) by (done || lia). zdec. rewrite app_nil_r. do 2 f_equal.
      replace (vcn r + len r - vcn r) with (len r) by lia. by destruct r.
  - rewrite (runs_cut_split v0) by (done || lia). by zdec.
Qed.

(** Copying into the unused end of a block. *)
Lemma mc_fresh P k z src S1 xs S2 i j n :
  src = S1 ++ xs ++ S2 -> i = zlen P -> j = zlen S1 -> n = zlen xs -> n <= Z.of_nat k ->
  ntfs_rl_mc (P ++ replicate k z) i src j n = Ok (P ++ xs ++ replicate (k - length xs) z).
Proof.
  intros -> -> -> -> Hk. unfold ntfs_rl_mc. destruct (Z.ltb_spec 0 (zlen xs)) as [H|H].
  - rewrite aslice_mid by done. cbn [mbind res_bind].
    replace k with (length xs + (k - length xs))%nat at 1 by (unfold zlen in *; lia).
    rewrite replicate_add. apply awrite_mid; [done|]. by rewrite length_replicate.
  - destruct xs as [|x xs]; [|rewrite zlen_cons in H; pose proof (zlen_nonneg xs); lia].
    cbn [app length]. by rewrite Nat.sub_0_r.
Qed.

Lemma rl_malloc_spec {HP : Heap} n :
  (forall m, heap_grants m = true) -> 0 <= n ->
  exists k, ntfs_rl_malloc n = Ok (replicate k (mk_rle 0 0 0)) /\ n <= Z.of_nat k /\
    Z.of_nat k = rl_capacity (rl_block_bytes n).
Proof.
  intros Hh Hn. unfold ntfs_rl_malloc. rewrite Hh. eexists. split; [done|].
  assert (rl_block_bytes n = 4096 * ((n * 24 + 4095) / 4096)) as ->
    by (apply (land_lnot_ones _ 12); lia).
  unfold rl_capacity, sizeof_rle. split; dlia.
Qed.

Section punch_proof.
Context {HP : Heap} (Hheap : forall m, heap_grants m = true).
Context (L X' X'' R : runlist) (a b term : runlist_element) (tail : runlist) (v0 s n : Z).
Context (EX : a :: X'' = X' ++ [b]).
Abbreviation X := (a :: X'').
Abbreviation runs := (L ++ X ++ R).
Abbreviation dst := (L ++ X ++ R ++ term :: tail).
Context (C : contig v0 runs) (Hok : Forall run_ok runs) (Hv0 : 0 <= v0).
Context (Hterm : vcn term = runs_end v0 runs /\ len term = 0) (Hhole : lcn term <> LCN_HOLE).
Context (Ha : vcn a <= s < vcn a + len a) (Hb : vcn b < s + n <= vcn b + len b) (Hn : 0 < n).

Definition bsplit : bool := negb (vcn a =? s).
Definition esplit : bool := negb (vcn b + len b =? s + n).
Definition left_part : runlist := if bsplit then [set_len a (s - vcn a)] else [].
Definition right_part : runlist := if esplit then [advance b (s + n - vcn b)] else [].
Definition hole : runlist_element := mk_rle s LCN_HOLE n.
Definition pp : punch_point := mk_pp (zlen L) (zlen L + zlen X - 1) (s + n - 1) bsplit esplit.

Lemma runs_b : runs = (L ++ X') ++ b :: R.
Proof. rewrite EX, <- !app_assoc. done. Qed.

Lemma ab_ok : run_ok a /\ run_ok b /\ 0 < len a /\ 0 < len b.
Proof.
  assert (run_ok a) as Oa.
  { apply Forall_app in Hok as [_ H]. by apply Forall_cons_1 in H as [H _]. }
  assert (run_ok b) as Ob.
  { pose proof Hok as H. rewrite runs_b in H. apply Forall_app in H as [_ H]. by apply Forall_cons_1 in H as [H _]. }
  split; [done|]. split; [done|]. lia.
Qed.

Lemma cut_is : runs_cut s runs = L ++ left_part.
Proof.
  unfold left_part, bsplit. pose proof C as C'. cbn [app] in C' |- *. rewrite (runs_cut_split v0) by done.
  rewrite Z.eqb_sym. by destruct (vcn a =? s).
Qed.

Lemma from_is : runs_from (s + n) runs = right_part ++ R.
Proof.
  unfold right_part, esplit. pose proof C as C'. rewrite runs_b in C' |- *.
  destruct (runs_from_split v0 (L ++ X') b R (s + n)) as [-> ->]; [done|lia|].
  rewrite Z.eqb_sym. by destruct (vcn b + len b =? s + n).
Qed.

Lemma move_advance r k :
  run_ok r -> 0 <= k < len r ->
  move_lcn (mk_rle (vcn r + k) (lcn r) (s64 (len r - k))) k = advance r k.
Proof.
  intros (A & B & D & E) Hk. unfold move_lcn, advance, LCN_HOLE. cbn. rewrite s64_small by lia.
  destruct (Z.ltb_spec (-1) (lcn r)); zdec; [|done]. unfold set_lcn. cbn. rewrite s64_small by lia. done.
Qed.

Lemma punch_first_spec k z :
  zlen L + 1 <= Z.of_nat k ->
  punch_first (replicate k z) dst bsplit (zlen (L ++ left_part)) s =
    Ok ((L ++ left_part) ++ replicate (k - length (L ++ left_part)) z).
Proof.
  intros Hk. destruct ab_ok as ((? & ? & ? & ?) & _ & La & _). pose proof (zlen_nonneg L).
  unfold punch_first, left_part. destruct bsplit.
  - rewrite (mc_fresh [] k z dst [] (L ++ [a]) (X'' ++ R ++ term :: tail));
      [|by rewrite <- !app_assoc|done|done|by autorewrite with zlen|autorewrite with zlen; lia].
    cbn [mbind res_bind app]. autorewrite with zlen. zdec. rewrite <- !app_assoc. cbn [app].
    rewrite !aget_mid by lia. cbn [mbind res_bind]. rewrite ?aget_mid by lia. cbn [mbind res_bind].
    rewrite aset_mid by lia. rewrite s64_small by lia. by rewrite !length_app.
  - rewrite app_nil_r. by rewrite (mc_fresh [] k z dst [] L (X ++ R ++ term :: tail)) by (done || lia).
Qed.

Lemma punch_third_spec P k z :
  zlen R + 2 <= Z.of_nat k ->
  punch_third (P ++ replicate k z) dst esplit (zlen P)
      (if esplit then zlen L + zlen X - 1 else zlen L + zlen X)
      (zlen runs + 1 - (if esplit then zlen L + zlen X - 1 else zlen L + zlen X)) (s + n - 1) =
    Ok (P ++ (right_part ++ R) ++ term :: replicate (k - length (right_part ++ R) - 1) z).
Proof.
  intros Hk. destruct ab_ok as (Oa & Ob & La & Lb). pose proof (zlen_nonneg L). pose proof (zlen_nonneg R).
  pose proof Ob as (? & ? & ? & ?).
  assert (zlen X = zlen X' + 1) as EXl by (rewrite EX; autorewrite with zlen; lia).
  unfold punch_third, right_part. destruct esplit eqn:Ee.
  - rewrite (mc_fresh P k z dst (L ++ X') (b :: R ++ [term]) tail);
      [|rewrite EX, <- !app_assoc; cbn [app]; by rewrite <- !app_assoc|done|autorewrite with zlen in *; lia..].
    assert (aget dst (zlen L + zlen X - 1) = Ok b) as Eb
      by (rewrite EX, <- !app_assoc, app_assoc; cbn [app]; rewrite aget_mid; [done|autorewrite with zlen in *; lia]).
    cbn [mbind res_bind]. rewrite Eb. cbn [mbind res_bind app]. rewrite aget_mid by done. cbn [mbind res_bind]. rewrite aset_mid by done.
    unfold esplit in Ee. apply negb_true_iff, Z.eqb_neq in Ee.
    assert (s64 (s + n - 1 - vcn b + 1) = s + n - vcn b) as -> by (rewrite s64_small; lia).
    assert (s64 (s + n - 1 + 1) = vcn b + (s + n - vcn b)) as -> by (rewrite s64_small; lia).
    rewrite move_advance by (done || lia).
    do 3 f_equal. rewrite <- app_assoc. cbn [app length]. do 2 f_equal. rewrite length_app. cbn [length].
    f_equal. lia.
  - rewrite (mc_fresh P k z dst (L ++ X) (R ++ [term]) tail);
      [|by rewrite <- !app_assoc|done|autorewrite with zlen in *; lia..].
    cbn [mbind res_bind app]. do 2 f_equal. rewrite <- app_assoc. cbn [app]. do 2 f_equal.
    rewrite length_app. cbn [length]. f_equal. lia.
Qed.

Lemma punch_new_spec k :
  zlen L + zlen R + 4 <= Z.of_nat k ->
  exists junk, punch_new (replicate k (mk_rle 0 0 0)) dst (zlen runs + 1) pp s n =
      Ok ((L ++ left_part) ++ hole :: (right_part ++ R) ++ term :: junk, zlen (L ++ left_part)) /\
    zlen ((L ++ left_part) ++ hole :: (right_part ++ R) ++ term :: junk) = Z.of_nat k.
Proof.
  intros Hk. unfold punch_new. cbn [pp_begin_split pp_end_split pp_s pp_e pp pp_end_vcn].
  pose proof (zlen_nonneg L). pose proof (zlen_nonneg R).
  assert (zlen left_part <= 1 /\ zlen right_part <= 1) as [Hl Hr].
  { unfold left_part, right_part. destruct bsplit, esplit; autorewrite with zlen; lia. }
  assert ((if bsplit then zlen L + 1 else zlen L) = zlen (L ++ left_part)) as ->
    by (unfold left_part; destruct bsplit; autorewrite with zlen; lia).
  assert ((if esplit then zlen L + zlen X - 1 else zlen L + zlen X - 1 + 1) =
    (if esplit then zlen L + zlen X - 1 else zlen L + zlen X)) as -> by (destruct esplit; lia).
  rewrite punch_first_spec by lia. cbn [mbind res_bind]. set (k1 := (k - length (L ++ left_part))%nat).
  assert (zlen (L ++ left_part) + Z.of_nat k1 = Z.of_nat k) as Hk1
    by (unfold k1; autorewrite with zlen; rewrite length_app; unfold zlen in *; lia).
  rewrite (mc_fresh (L ++ left_part) k1 _ _ [] [hole] []); [|done..|autorewrite with zlen in *; lia].
  cbn [mbind res_bind]. rewrite (app_assoc (L ++ left_part) [hole]).
  replace (zlen (L ++ left_part) + 1) with (zlen ((L ++ left_part) ++ [hole])) by (autorewrite with zlen; lia).
  rewrite punch_third_spec by (cbn [length]; autorewrite with zlen in *; lia). cbn [mbind res_bind].
  eexists. split; [by rewrite <- app_assoc|]. unfold zlen in *. cbn [length].
  repeat first [rewrite length_app | rewrite length_replicate | progress cbn [length]]. rewrite length_app in *. lia.
Qed.

Lemma from_start : runs_from s runs = advance a (s - vcn a) :: X'' ++ R.
Proof. pose proof C as C'. cbn [app] in C' |- *. by apply (runs_from_at v0). Qed.

(** The runs taken out. *)
Lemma punched_is :
  runs_cut (s + n) (runs_from s runs) =
    match X' with
    | [] => [mk_rle s (lcn (advance a (s - vcn a))) n]
    | _ :: Z => advance a (s - vcn a) :: Z ++ [set_len b (s + n - vcn b)]
    end.
Proof.
  destruct (runs_from_contig v0 runs s C) as [C1 _]. rewrite from_start in C1 |- *.
  destruct X' as [|x Z].
  - cbn [app] in EX. injection EX as <- ->. cbn [app] in *.
    assert (vcn (advance a (s - vcn a)) = s) as Ev by (cbn; lia).
    pose proof (runs_cut_at _ [] (advance a (s - vcn a)) R (s + n) C1) as E. cbn [app] in E.
    rewrite E by (rewrite Ev; cbn; lia). unfold set_len. rewrite Ev. do 2 f_equal. lia.
  - cbn [app] in EX. injection EX as <- ->. rewrite <- app_assoc in *. cbn [app] in *.
    pose proof (runs_cut_at _ (advance a (s - vcn a) :: Z) b R (s + n) C1) as E. cbn [app] in E. by rewrite E.
Qed.

Lemma advance_0 r : advance r 0 = r.
Proof. destruct r as [v l m]. unfold advance. cbn. f_equal; try lia. zcase; lia. Qed.

(** The cuts of the first and of the last run taken out. *)
Lemma cut_first tl :
  (if bsplit then
     r ← aget (a :: tl) 0;
     aset (a :: tl) 0 (move_lcn (mk_rle s (lcn r) (s64 (len r - s64 (s - vcn a)))) (s64 (s - vcn a)))
   else Ok (a :: tl)) = Ok (advance a (s - vcn a) :: tl).
Proof.
  destruct ab_ok as (Oa & _ & La & _). pose proof Oa as (? & ? & ? & ?). unfold bsplit.
  destruct (Z.eqb_spec (vcn a) s) as [E|E]; cbn [negb].
  - by rewrite E, Z.sub_diag, advance_0.
  - rewrite (aget_mid [] a tl) by done. cbn [mbind res_bind].
    rewrite (aset_mid [] a tl 0) by done. cbn [app].
    assert (s64 (s - vcn a) = s - vcn a) as -> by (rewrite s64_small; lia).
    replace s with (vcn a + (s - vcn a)) at 1 by lia. by rewrite move_advance by (done || lia).
Qed.

(** The last run taken out and its length. *)
Lemma punch_last new_len :
  (bsplit = true -> esplit = true -> X' = [] -> new_len = len a - (s + n - vcn a)) ->
  exists Y y, advance a (s - vcn a) :: X'' = Y ++ [y] /\ zlen X - 1 = zlen Y /\
    runs_cut (s + n) (runs_from s runs) = Y ++ [set_len y (s + n - vcn y)] /\
    vcn y + len y = vcn b + len b /\ s + n - vcn y <= len y < 2 ^ 63 /\ 0 <= vcn y < s + n /\
    (esplit = true -> s + n - vcn y =
      if (zlen L + zlen X - 1 =? zlen L) && bsplit then s64 (len y - new_len) else s64 (s + n - 1 - vcn b + 1)).
Proof.
  intros Hnew. destruct ab_ok as ((? & ? & ? & ?) & (? & ? & ? & ?) & La & Lb).
  rewrite punched_is. rewrite EX. destruct X' as [|x Z].
  - cbn [app] in EX. injection EX as <- ->. exists [], (advance a (s - vcn a)). cbn [app vcn lcn len advance set_len].
    change (zlen [a]) with 1. rewrite zlen_nil, (proj2 (Z.eqb_eq (zlen L + 1 - 1) (zlen L))) by lia. cbn [andb].
    split_and!; try done; try lia; [unfold set_len, advance; cbn; do 2 f_equal; lia|].
    intros He. destruct bsplit eqn:Ebs; [rewrite Hnew by done; rewrite s64_small; lia|].
    unfold bsplit in Ebs. apply negb_false_iff, Z.eqb_eq in Ebs. rewrite s64_small; lia.
  - cbn [app] in EX. injection EX as <- ->. exists (advance a (s - vcn a) :: Z), b. cbn [app].
    pose proof (zlen_nonneg Z). autorewrite with zlen.
    rewrite (proj2 (Z.eqb_neq (zlen L + (1 + (zlen Z + (1 + 0))) - 1) (zlen L))) by lia. cbn [andb].
    split_and!; try done; try lia. intros _. rewrite s64_small; lia.
Qed.

Lemma punch_out_spec new_len :
  (bsplit = true -> esplit = true -> X' = [] -> new_len = len a - (s + n - vcn a)) ->
  exists p junk, punch_out dst pp s new_len = Ok (Some p) /\
    p = runs_cut (s + n) (runs_from s runs) ++ mk_rle (s + n) LCN_ENOENT 0 :: junk.
Proof.
  intros Hnew. set (P := runs_cut (s + n) (runs_from s runs)). destruct ab_ok as (Oa & Ob & La & Lb).
  pose proof Oa as (? & ? & ? & ?). pose proof Ob as (? & ? & ? & ?).
  unfold punch_out. cbn [pp_begin_split pp_end_split pp_s pp_e pp pp_end_vcn].
  replace (zlen L + zlen X - 1 - zlen L + 1) with (zlen X) by lia.
  destruct (rl_malloc_spec (zlen X + 1) Hheap) as (k & -> & Hk & _); [pose proof (zlen_nonneg X); lia|].
  rewrite (mc_fresh [] k (mk_rle 0 0 0) dst L X (R ++ term :: tail)) by (done || lia). cbn [mbind res_bind app length].
  destruct (k - S (length X''))%nat as [|k1] eqn:Ek; [unfold zlen in *; cbn [length] in Hk; lia|].
  cbn [replicate]. set (z := mk_rle 0 0 0). set (zs := replicate k1 z).
  change (a :: X'' ++ z :: zs) with (X ++ z :: zs).
  rewrite (aget_mid X z zs) by done. cbn [mbind res_bind].
  rewrite (aset_mid X z zs) by done. cbn [mbind res_bind app].
  rewrite (aget_mid L a _ (zlen L)) by done. cbn [mbind res_bind]. rewrite cut_first. cbn [mbind res_bind].
  assert (aget (L ++ a :: X'' ++ R ++ term :: tail) (zlen L + zlen X - 1) = Ok b) as Eb.
  { change (L ++ a :: X'' ++ R ++ term :: tail) with (L ++ X ++ R ++ term :: tail).
    rewrite EX, <- !app_assoc, app_assoc. cbn [app]. apply aget_mid. autorewrite with zlen. lia. }
  destruct (punch_last new_len Hnew) as (Y & y & EY & EYl & ER & Hy1 & Hy2 & Hy3 & Hes).
  fold P in ER. rewrite ER.
  rewrite EYl. change (?x :: X'' ++ ?tl) with ((x :: X'') ++ tl). rewrite EY.
  set (t := mk_rle _ _ 0). rewrite <- !(app_assoc Y [y]). cbn [app].
  replace (if esplit then _ else _) with (Ok (Y ++ set_len y (s + n - vcn y) :: t :: zs)).
  2:{ destruct esplit eqn:Ees.
      - rewrite (aget_mid Y y) by done. cbn [mbind res_bind]. rewrite Eb. cbn [mbind res_bind].
        rewrite (aset_mid Y y) by done. by rewrite <- Hes by done.
      - unfold esplit in Ees. apply negb_false_iff, Z.eqb_eq in Ees. do 3 f_equal. destruct y. cbn in *. unfold set_len.
        cbn. f_equal. lia. }
  cbn [mbind res_bind]. rewrite (aget_mid Y _ _ (zlen Y)) by done. cbn [mbind res_bind].
  replace (zlen X) with (zlen (Y ++ [set_len y (s + n - vcn y)])) by (autorewrite with zlen in *; lia).
  rewrite cons_middle, app_assoc, aget_mid by done. cbn [mbind res_bind].
  rewrite aset_mid by done. cbn [mbind res_bind]. eexists _, zs. split; [done|]. do 2 f_equal.
  unfold set_vcn, t. cbn. f_equal. rewrite s64_small; lia.
Qed.

End punch_proof.

(** ** Merging holes *)

Lemma snoc_case {A} (l : list A) : l = [] \/ exists l' x, l = l' ++ [x].
Proof. destruct l using rev_ind; [by left|right; by exists l, x]. Qed.

(** Moving elements down over [D]. *)
Lemma mm_down (P D Q1 Q2 : runlist) i j n :
  i = zlen P -> j = zlen P + zlen D -> n = zlen Q1 -> D <> [] ->
  exists rest, ntfs_rl_mm (P ++ D ++ Q1 ++ Q2) i j n = Ok (P ++ Q1 ++ rest).
Proof.
  intros -> -> -> HD. assert (0 < zlen D) by (destruct D; [done|rewrite zlen_cons; pose proof (zlen_nonneg D); lia]).
  unfold ntfs_rl_mm. rewrite (proj2 (Z.eqb_neq (zlen P) _)) by lia. cbn [negb andb].
  destruct (Z.ltb_spec 0 (zlen Q1)) as [Hq|Hq].
  - assert (aslice (P ++ D ++ Q1 ++ Q2) (zlen P + zlen D) (zlen Q1) = Ok Q1) as ->
      by (rewrite (app_assoc P D); apply aslice_mid; rewrite ?zlen_app; done).
    cbn [mbind res_bind].
    rewrite <- (take_drop (length Q1) (D ++ Q1 ++ Q2)).
    rewrite awrite_mid; [by eexists|done|]. rewrite length_take, !length_app. lia.
  - destruct Q1 as [|x Q1]; [|rewrite zlen_cons in Hq; pose proof (zlen_nonneg Q1); lia]. by eexists.
Qed.

Lemma snoc_app {A} (l : list A) x l' : (l ++ [x]) ++ l' = l ++ x :: l'.
Proof. by rewrite <- app_assoc. Qed.

(** Two adjacent holes in one element. *)
Lemma merge_two v x y Q :
  contig v (x :: y :: Q) -> run_ok x -> run_ok y -> lcn x = LCN_HOLE -> lcn y = LCN_HOLE ->
  let m := set_len x (s64 (len x + len y)) in
  contig v (m :: Q) /\ run_ok m /\ lcn m = LCN_HOLE /\ runs_end v (m :: Q) = runs_end v (x :: y :: Q) /\
  forall w, rl_den (m :: Q) w = rl_den (x :: y :: Q) w.
Proof.
  cbn [contig]. intros (Ex & Px & Ey & Py & C) (Ox1 & Ox2 & Ox3 & Ox4) (Oy1 & Oy2 & Oy3 & Oy4) Hx Hy.
  rewrite s64_small by lia. cbv zeta. cbn [contig runs_end vcn lcn len set_len].
  replace (v + (len x + len y)) with (v + len x + len y) by lia.
  split; [lia || (split; [done|split; [lia|done]])|].
  split; [unfold run_ok; cbn; rewrite Hx in *; unfold LCN_HOLE in *; lia|]. split; [done|]. split; [done|].
  intros w. cbn [rl_den]. unfold lcn_at, set_len. cbn [vcn lcn len]. rewrite Hx, Hy. unfold LCN_HOLE. cbn [Z.leb Z.compare].
  destruct (Z.leb_spec (vcn x) w), (Z.ltb_spec w (vcn x + (len x + len y))),
      (Z.ltb_spec w (vcn x + len x)), (Z.leb_spec (vcn y) w), (Z.ltb_spec w (vcn y + len y));
      cbn [andb]; done || lia.
Qed.

Lemma merge_at_spec P x y Q B term junk new_cnt i :
  i = zlen P -> Q = B ++ term :: junk -> zlen P + zlen B + 3 <= new_cnt <= zlen P + 2 + zlen Q ->
  exists junk', merge_at (P ++ x :: y :: Q) new_cnt i 1 =
    Ok ((P ++ set_len x (s64 (len x + len y)) :: B) ++ term :: junk').
Proof.
  intros -> -> Hc. unfold merge_at. set (Q := B ++ term :: junk).
  assert (aget (P ++ x :: y :: Q) (zlen P) = Ok x) as -> by (by apply aget_mid). cbn [mbind res_bind].
  assert (aget (P ++ x :: y :: Q) (zlen P + 1) = Ok y) as ->
    by (rewrite (cons_middle x), app_assoc; apply aget_mid; autorewrite with zlen; lia).
  cbn [mbind res_bind Z.eqb Pos.eqb]. rewrite aset_mid by done. cbn [mbind res_bind]. unfold Q.
  set (m := set_len x _). pose proof (zlen_nonneg B). pose proof (zlen_nonneg P).
  set (q := (Z.to_nat (new_cnt - (zlen P + 2)) - length B - 1)%nat).
  destruct (mm_down (P ++ [m]) [y] (B ++ term :: take q junk) (drop q junk)
    (zlen P + 1) (zlen P + 1 + 1) (new_cnt - (zlen P + 1 + 1))) as (rest & E); try done.
  - autorewrite with zlen. lia.
  - autorewrite with zlen. lia.
  - autorewrite with zlen in *. unfold q. unfold zlen in *. rewrite length_take. lia.
  - rewrite <- !app_assoc in E. cbn [app] in E. rewrite (take_drop q junk) in E.
    exists (take q junk ++ rest). rewrite E. by rewrite <- !app_assoc.
Qed.

Lemma merge_at2_spec P x y w Q B term junk new_cnt i :
  i = zlen P -> Q = B ++ term :: junk -> zlen P + zlen B + 4 <= new_cnt <= zlen P + 3 + zlen Q ->
  exists junk', merge_at (P ++ x :: y :: w :: Q) new_cnt i 2 =
    Ok ((P ++ set_len x (s64 (s64 (len x + len y) + len w)) :: B) ++ term :: junk').
Proof.
  intros -> -> Hc. unfold merge_at. set (Q := B ++ term :: junk).
  assert (aget (P ++ x :: y :: w :: Q) (zlen P) = Ok x) as -> by (by apply aget_mid). cbn [mbind res_bind].
  assert (aget (P ++ x :: y :: w :: Q) (zlen P + 1) = Ok y) as ->
    by (rewrite (cons_middle x), app_assoc; apply aget_mid; autorewrite with zlen; lia).
  assert (aget (P ++ x :: y :: w :: Q) (zlen P + 2) = Ok w) as ->
    by (change (x :: y :: w :: Q) with ([x; y] ++ w :: Q); rewrite app_assoc; apply aget_mid; autorewrite with zlen; lia).
  cbn [mbind res_bind Z.eqb Pos.eqb]. rewrite aset_mid by done. cbn [mbind res_bind]. unfold Q.
  set (m := set_len (set_len x _) _). pose proof (zlen_nonneg B). pose proof (zlen_nonneg P).
  set (q := (Z.to_nat (new_cnt - (zlen P + 3)) - length B - 1)%nat).
  destruct (mm_down (P ++ [m]) [y; w] (B ++ term :: take q junk) (drop q junk)
    (zlen P + 1) (zlen P + 1 + 2) (new_cnt - (zlen P + 1 + 2))) as (rest & E); try done.
  - autorewrite with zlen. lia.
  - autorewrite with zlen. lia.
  - autorewrite with zlen in *. unfold q. unfold zlen in *. rewrite length_take. lia.
  - rewrite <- !app_assoc in E. cbn [app] in E. rewrite (take_drop q junk) in E.
    exists (take q junk ++ rest). rewrite E. by rewrite <- !app_assoc.
Qed.

(** The mapping of a list does not depend on how a part of it is cut into runs. *)
Lemma replace_runs v P Q Q' :
  contig v (P ++ Q) -> contig (runs_end v P) Q' -> runs_end (runs_end v P) Q' = runs_end (runs_end v P) Q ->
  (forall w, rl_den Q' w = rl_den Q w) -> Forall run_ok (P ++ Q) -> Forall run_ok Q' ->
  contig v (P ++ Q') /\ runs_end v (P ++ Q') = runs_end v (P ++ Q) /\
  (forall w, rl_den (P ++ Q') w = rl_den (P ++ Q) w) /\ Forall run_ok (P ++ Q').
Proof.
  intros [C1 _]%contig_app C2 E D [O1 _]%Forall_app O2. split; [by apply contig_app|].
  split; [by rewrite !runs_end_app|]. split; [|by apply Forall_app].
  intros w. rewrite !rl_den_app, D. done.
Qed.

(** A list with the same mapping. *)
Definition same_runs (v : Z) (runs runs' : runlist) : Prop :=
  contig v runs' /\ runs_end v runs' = runs_end v runs /\
  (forall w, rl_den runs' w = rl_den runs w) /\ Forall run_ok runs'.

Lemma same_runs_merge v P x y Q :
  contig v (P ++ x :: y :: Q) -> Forall run_ok (P ++ x :: y :: Q) -> lcn x = LCN_HOLE -> lcn y = LCN_HOLE ->
  same_runs v (P ++ x :: y :: Q) (P ++ set_len x (s64 (len x + len y)) :: Q).
Proof.
  intros C O Hx Hy. pose proof C as [_ C2]%contig_app. pose proof O as [_ O2]%Forall_app.
  apply Forall_cons_1 in O2 as [Ox O2]. apply Forall_cons_1 in O2 as [Oy OQ].
  destruct (merge_two _ x y Q C2 Ox Oy Hx Hy) as (M1 & M2 & _ & M3 & M4).
  by apply replace_runs; try done; constructor.
Qed.

Lemma same_runs_trans v r1 r2 r3 : same_runs v r1 r2 -> same_runs v r2 r3 -> same_runs v r1 r3.
Proof.
  intros (_ & E1 & D1 & _) (C2 & E2 & D2 & O2). split; [done|]. split; [congruence|].
  split; [|done]. intros w. by rewrite D2, D1.
Qed.

Lemma contig_two v P x y Q : contig v (P ++ x :: y :: Q) ->
  vcn y = vcn x + len x /\ 0 < len x /\ 0 < len y /\ vcn x <= vcn y /\ True.
Proof. intros [_ C]%contig_app. cbn [contig] in C. destruct C as (E1 & P1 & E2 & P2 & _). split_and!; lia || done. Qed.

Lemma contig_three v P x y z Q : contig v (P ++ x :: y :: z :: Q) ->
  vcn y = vcn x + len x /\ vcn z = vcn y + len y /\ 0 < len x /\ 0 < len y /\ 0 < len z.
Proof.
  intros [_ C]%contig_app. cbn [contig] in C. destruct C as (E1 & P1 & E2 & P2 & E3 & P3 & _). split_and!; lia.
Qed.

Lemma awrite_zlen (l xs l' : runlist) i : awrite l i xs = Ok l' -> zlen l' = zlen l.
Proof. intros H. by apply (awrite_lookup _ _ _ _ 0) in H as [? _]. Qed.

Lemma aset_zlen (l l' : runlist) i x : aset l i x = Ok l' -> zlen l' = zlen l.
Proof. intros [_ ->]%aset_inv. apply zlen_insert. Qed.

Lemma merge_at_zlen rl c i k rl' : merge_at rl c i k = Ok rl' -> zlen rl' = zlen rl.
Proof.
  unfold merge_at, ntfs_rl_mm. intros H. res_inv. apply aset_zlen in E2. rewrite <- E2.
  destruct (_ && _); [|by res_inv]. res_inv. by apply awrite_zlen in H.
Qed.

(** The block keeps its size. *)
Lemma punch_merge_zlen rl c i rl' : punch_merge rl c i = Ok rl' -> zlen rl' = zlen rl.
Proof.
  unfold punch_merge. intros H. res_inv.
  repeat match goal with b : bool |- _ => destruct b end; by apply merge_at_zlen in H || res_inv.
Qed.

(** A single hole of [R] covers the vcns from [a] up to [b]. *)
Definition hole_in (R : runlist) (a b : Z) : Prop := exists P r Q,
  R = P ++ r :: Q /\ lcn r = LCN_HOLE /\ vcn r <= a /\ b <= vcn r + len r.

Lemma hole_in_merge v P x y Q a b :
  contig v (P ++ x :: y :: Q) -> Forall run_ok (P ++ x :: y :: Q) -> lcn x = LCN_HOLE ->
  vcn x <= a -> b <= vcn y + len y -> hole_in (P ++ set_len x (s64 (len x + len y)) :: Q) a b.
Proof.
  intros [_ C]%contig_app [_ O]%Forall_app Hx Ha Hb. cbn [contig] in C. destruct C as (E1 & P1 & E2 & P2 & _).
  apply Forall_cons_1 in O as [(O1 & _) O]. apply Forall_cons_1 in O as [(_ & O2 & _) _].
  eexists P, _, Q. split; [done|]. split; [done|]. split; [done|]. cbn [vcn len set_len].
  rewrite s64_small by lia. lia.
Qed.

Lemma punch_merge_spec v A h B term junk new_cnt :
  contig v (A ++ h :: B) -> Forall run_ok (A ++ h :: B) -> lcn h = LCN_HOLE -> lcn term <> LCN_HOLE ->
  zlen A + zlen B + 2 <= new_cnt <= zlen (A ++ h :: B ++ term :: junk) ->
  exists runs' junk', punch_merge (A ++ h :: B ++ term :: junk) new_cnt (zlen A) = Ok (runs' ++ term :: junk') /\
    same_runs v (A ++ h :: B) runs' /\ hole_in runs' (vcn h) (vcn h + len h) /\
    zlen runs' <= zlen (A ++ h :: B).
Proof.
  intros C O Hh Ht Hc. unfold punch_merge. pose proof (zlen_nonneg A). pose proof (zlen_nonneg B). zdec.
  assert (exists y rest, B ++ term :: junk = y :: rest /\
    aget (A ++ h :: B ++ term :: junk) (zlen A + 1) = Ok y /\ (lcn y = LCN_HOLE -> exists B', B = y :: B')) as (y & rest & EB & Ey & HB).
  { destruct B as [|y B]; cbn [app]; eexists _, _; (split; [done|]); rewrite (cons_middle h), app_assoc;
      (split; [apply aget_mid; autorewrite with zlen; lia|]); [done|by exists B]. }
  rewrite Ey. cbn [mbind res_bind].
  assert ((if 0 <? zlen A then l ← aget (A ++ h :: B ++ term :: junk) (zlen A - 1); Ok (lcn l =? LCN_HOLE)
    else Ok false) = Ok true /\ (exists A' x, A = A' ++ [x] /\ lcn x = LCN_HOLE) \/
    (if 0 <? zlen A then l ← aget (A ++ h :: B ++ term :: junk) (zlen A - 1); Ok (lcn l =? LCN_HOLE)
    else Ok false) = Ok false) as Hleft.
  { destruct (snoc_case A) as [->|(A' & x & ->)]; [by right|]. autorewrite with zlen.
    pose proof (zlen_nonneg A'). zdec. rewrite <- app_assoc. cbn [app].
    rewrite aget_mid by lia. cbn [mbind res_bind]. destruct (Z.eqb_spec (lcn x) LCN_HOLE); [left|by right].
    split; [done|]. by exists A', x. }
  destruct Hleft as [[-> (A' & x & -> & Hx)]| ->]; cbn [mbind res_bind]; destruct (Z.eqb_spec (lcn y) LCN_HOLE) as [Hy|Hy].
  - destruct (HB Hy) as [B' ->].
    destruct (merge_at2_spec A' x h y (B' ++ term :: junk) B' term junk new_cnt (zlen (A' ++ [x]) - 1))
      as (junk' & E); [autorewrite with zlen; lia|done|autorewrite with zlen in *; lia|].
    exists (A' ++ set_len x (s64 (s64 (len x + len h) + len y)) :: B'), junk'.
    rewrite !snoc_app in C, O |- *. split; [exact E|]. rewrite snoc_app.
    pose proof (same_runs_merge v A' x h (y :: B') C O Hx Hh) as S1.
    pose proof (contig_three _ _ _ _ _ _ C) as (X1 & X2 & X3 & X4 & X5).
    destruct S1 as (C1 & S1). split; [|split; [|autorewrite with zlen; lia]].
    + eapply same_runs_trans; [split; [exact C1|exact S1]|]. destruct S1 as (_ & _ & O1).
      by apply (same_runs_merge v A' (set_len x (s64 (len x + len h))) y B').
    + apply (hole_in_merge v A' (set_len x (s64 (len x + len h))) y B'); try done; [apply S1|cbn; lia..].
  - destruct (merge_at_spec A' x h (B ++ term :: junk) B term junk new_cnt (zlen (A' ++ [x]) - 1))
      as (junk' & E); [autorewrite with zlen; lia|done|autorewrite with zlen in *; lia|].
    rewrite !snoc_app in C, O |- *. eexists _, junk'. split; [exact E|].
    rewrite snoc_app. split; [by apply same_runs_merge|].
    pose proof C as (X1 & X2 & X3 & X4 & _)%contig_two.
    split; [apply (hole_in_merge v A' x h B); try done; lia|autorewrite with zlen; lia].
  - destruct (HB Hy) as [B' ->].
    destruct (merge_at_spec A h y (B' ++ term :: junk) B' term junk new_cnt (zlen A))
      as (junk' & E); [done|done|autorewrite with zlen in *; lia|].
    eexists _, junk'. split; [exact E|]. split; [by apply same_runs_merge|].
    pose proof C as (X1 & X2 & X3 & X4 & _)%contig_two.
    split; [apply (hole_in_merge v A h y B'); try done; lia|autorewrite with zlen; lia].
  - exists (A ++ h :: B), junk. split; [by rewrite <- app_assoc|]. split; [by split_and!|]. split; [by exists A, h, B|done].
Qed.

(** ** The whole operation *)

Lemma run_index_mid v0 P r Q v :
  contig v0 (P ++ r :: Q) -> vcn r <= v < vcn r + len r -> run_index (P ++ r :: Q) v = Some (length P).
Proof.
  revert v0. induction P as [|x P IH]; intros v0 C Hv; cbn [app run_index].
  - by zdec.
  - cbn in C. destruct C as (E & Px & C). destruct (contig_bounds _ _ _ _ C) as [Er _].
    apply contig_app in C as C'. destruct C' as [CL _]. pose proof (contig_end_ge _ _ CL).
    zdec. by rewrite (IH _ C Hv), ?andb_false_r.
Qed.

(** The runs that hold a range: those before, those it touches, those behind. *)
Lemma runs_range v0 runs s n :
  contig v0 runs -> v0 <= s -> 0 < n -> s + n <= runs_end v0 runs ->
  exists L X' X'' R a b, runs = L ++ (a :: X'') ++ R /\ a :: X'' = X' ++ [b] /\
    vcn a <= s < vcn a + len a /\ vcn b < s + n <= vcn b + len b.
Proof.
  intros C Hs Hn He. destruct (runs_split v0 runs s C) as (L & a & T & -> & Ha & _); [lia|].
  destruct (Z.le_gt_cases (s + n) (vcn a + len a)) as [H|H].
  - exists L, [], [], T, a, a. split_and!; done || lia.
  - destruct (contig_bounds _ _ _ _ C) as [Ea _].
    apply contig_app in C as C'. destruct C' as [_ CT]. cbn in CT. destruct CT as (_ & _ & CT).
    rewrite runs_end_app in He. cbn in He.
    destruct (runs_split _ T (s + n - 1) CT) as (Z & b & R & -> & Hb & _); [lia|].
    exists L, (a :: Z), (Z ++ [b]), R, a, b. cbn [app]. rewrite <- app_assoc. split_and!; done || lia.
Qed.

Lemma find_vcn_spec rl v0 runs term P r Q v :
  rl_holds rl v0 runs term -> runs = P ++ r :: Q -> v0 <= v -> vcn r <= v < vcn r + len r -> LCN_HOLE <= lcn r ->
  ntfs_rl_find_vcn (Some rl) v = Ok (Some (zlen P)) /\ aget rl (zlen P) = Ok r.
Proof.
  intros Hrl Er Hv Hr Hl. destruct (rl_holds_first _ _ _ _ Hrl) as (r0 & Hr0 & V0).
  destruct Hrl as [[tail ->] C O [T Lt] S]. split.
  - unfold ntfs_rl_find_vcn. zdec. rewrite Hr0. cbn [mbind res_bind]. rewrite V0. zdec.
    rewrite (find_vcn_loop_spec runs v0) by done. subst runs. rewrite (run_index_mid v0) by done.
    rewrite lookup_app_r, Nat.sub_diag by lia. cbn. zdec. do 2 f_equal.
  - subst runs. rewrite <- app_assoc. by apply aget_mid.
Qed.

Lemma punch_find_spec L X' X'' R a b term tail v0 s n :
  a :: X'' = X' ++ [b] -> let runs := L ++ (a :: X'') ++ R in
  rl_holds (runs ++ term :: tail) v0 runs term -> v0 <= s -> 0 < n -> s + n <= runs_end v0 runs ->
  vcn a <= s < vcn a + len a -> vcn b < s + n <= vcn b + len b -> LCN_HOLE <= lcn a -> LCN_HOLE <= lcn b ->
  punch_find (runs ++ term :: tail) (zlen runs + 1) s n = Ok (Some (pp L X'' a b s n)).
Proof.
  intros EX runs Hrl Hs Hn He Ha Hb Hla Hlb. unfold punch_find.
  assert (1 <= zlen runs) by (unfold runs; autorewrite with zlen; pose proof (zlen_nonneg L);
    pose proof (zlen_nonneg X''); pose proof (zlen_nonneg R); lia).
  zdec. rewrite (aget_mid runs term tail (zlen runs + 1 - 1)) by lia. cbn [mbind res_bind].
  pose proof Hrl as [_ C O [T Lt] S]. rewrite Lt. cbn [Z.eqb negb].
  assert (runs = (L ++ X') ++ b :: R) as Eb by (unfold runs; rewrite EX, <- !app_assoc; done).
  assert (zlen (L ++ X') = zlen L + zlen (a :: X'') - 1) as Ez by (rewrite EX; autorewrite with zlen; lia).
  destruct (snoc_case runs) as [E|(rs & l & El)]; [rewrite E, zlen_nil in *; lia|].
  assert (vcn l + len l = runs_end v0 runs) as Hl.
  { rewrite El in *. apply contig_bounds in C as C'. destruct C' as [C' _]. rewrite runs_end_app. cbn. lia. }
  assert (aget (runs ++ term :: tail) (zlen runs + 1 - 2) = Ok l) as ->.
  { rewrite El. rewrite <- app_assoc. cbn [app]. apply aget_mid. autorewrite with zlen. lia. }
  cbn [mbind res_bind]. rewrite Hl.
  assert (0 <= vcn l /\ vcn l + len l < 2 ^ 63) as [? ?].
  { rewrite El in O. apply Forall_app in O as [_ O]. apply Forall_cons_1 in O as [(? & ? & _) _]. lia. }
  rewrite !s64_small by lia. rewrite Z.min_l by lia.
  destruct (find_vcn_spec _ v0 runs term L a (X'' ++ R) s Hrl) as [F1 F2]; [done|lia|lia|done|].
  rewrite F1. cbn [mbind res_bind]. rewrite F2. cbn [mbind res_bind]. unfold LCN_ENOENT, LCN_HOLE in *. zdec.
  destruct (find_vcn_spec _ v0 runs term (L ++ X') b R (s + n - 1) Hrl) as [F3 F4]; [done|lia|lia|done|].
  rewrite F3. cbn [mbind res_bind]. rewrite F4. cbn [mbind res_bind]. zdec. unfold pp, bsplit, esplit. rewrite Ez.
  assert (0 <= vcn b /\ vcn b + len b < 2 ^ 63) as [? ?].
  { rewrite Eb in O. apply Forall_app in O as [_ O]. apply Forall_cons_1 in O as [(? & ? & _) _]. lia. }
  rewrite s64_small by lia. do 3 f_equal.
  destruct (Z.eqb_spec (vcn b + len b - 1) (s + n - 1)), (Z.eqb_spec (vcn b + len b) (s + n)); done || lia.
Qed.

(** What is left around a hole. *)
Definition punched (s n : Z) (runs : runlist) : runlist :=
  runs_cut s runs ++ mk_rle s LCN_HOLE n :: runs_from (s + n) runs.

Lemma punched_spec v0 runs s n :
  contig v0 runs -> Forall run_ok runs -> 0 <= v0 <= s -> 0 < n -> s + n <= runs_end v0 runs ->
  runs_end v0 runs < 2 ^ 63 ->
  contig v0 (punched s n runs) /\ runs_end v0 (punched s n runs) = runs_end v0 runs /\
  Forall run_ok (punched s n runs) /\
  forall v, rl_den (punched s n runs) v = if (s <=? v) && (v <? s + n) then Some LCN_HOLE else rl_den runs v.
Proof.
  intros C O Hs Hn He Hmax. unfold punched.
  destruct (runs_from_contig v0 runs (s + n) C) as [C1 E1].
  assert (runs_end v0 (runs_cut s runs) = s) as Ec by (apply runs_cut_end; [done|lia]).
  rewrite Z.max_r in C1 by lia.
  split; [|split; [|split]].
  - apply contig_app. rewrite Ec. split; [apply runs_cut_contig; [done|lia]|]. by cbn.
  - rewrite runs_end_app, Ec. cbn. apply E1. lia.
  - apply Forall_app. split; [by apply (runs_cut_ok v0); [|lia|]|]. constructor; [|by apply runs_from_ok].
    unfold run_ok, LCN_HOLE. cbn. lia.
  - intros v. rewrite rl_den_app, (runs_cut_den v0) by done. cbn [rl_den vcn len]. rewrite (runs_from_den v0) by done.
    unfold lcn_at. cbn. destruct (Z.ltb_spec v s).
    + zdec. destruct (rl_den runs v) eqn:D; [done|].
      destruct (Z.leb_spec s v); [lia|]. zdec. done.
    + zdec. destruct (Z.ltb_spec v (s + n)); [done|]. zdec. done.
Qed.

Lemma runs_cut_end_le v0 runs s :
  contig v0 runs -> v0 <= s <= runs_end v0 runs -> runs_end v0 (runs_cut s runs) = s.
Proof.
  revert v0. induction runs as [|r runs IH]; intros v0; cbn [contig runs_end runs_cut]; [lia|].
  intros (E & P & C) Hs. destruct (Z.ltb_spec s (vcn r + len r)).
  - destruct (Z.eqb_spec s (vcn r)); cbn; lia.
  - cbn. apply IH; [done|lia].
Qed.

(** The runs of the range. *)
Lemma taken_spec v0 runs s n :
  contig v0 runs -> Forall run_ok runs -> 0 <= v0 <= s -> 0 < n -> s + n <= runs_end v0 runs ->
  let taken := runs_cut (s + n) (runs_from s runs) in
  contig s taken /\ runs_end s taken = s + n /\ Forall run_ok taken /\
  forall v, rl_den taken v = if (s <=? v) && (v <? s + n) then rl_den runs v else None.
Proof.
  intros C O Hs Hn He. cbv zeta. destruct (runs_from_contig v0 runs s C) as [FC FE]. rewrite Z.max_r in FC by lia.
  split; [by apply runs_cut_contig; [|lia]|].
  split; [apply runs_cut_end_le; [done|]; rewrite FE; lia|].
  split; [apply (runs_cut_ok s); [done|lia|by apply runs_from_ok]|].
  intros v. rewrite (runs_cut_den s), (runs_from_den v0) by done.
  destruct (v <? s + n); [by rewrite andb_true_r|by rewrite andb_false_r].
Qed.

Lemma rl_block_mono n m : n <= m -> rl_capacity (rl_block_bytes n) <= rl_capacity (rl_block_bytes m).
Proof.
  intros H. assert (forall n, rl_block_bytes n = 4096 * ((n * 24 + 4095) / 4096)) as E
    by (intros; apply (land_lnot_ones _ 12); lia).
  rewrite !E. unfold rl_capacity, sizeof_rle. dlia.
Qed.

Lemma punch_hole_spec `{Heap} rl v0 runs term s n :
  (forall m, heap_grants m = true) -> rl_holds rl v0 runs term -> lcn term <> LCN_HOLE ->
  Forall (fun r => LCN_HOLE <= lcn r) runs -> v0 <= s -> 0 < n -> s + n <= runs_end v0 runs -> runs_end v0 runs < 2 ^ 63 ->
  exists new p runs' pruns, ntfs_rl_punch_hole rl (zlen runs + 1) s n true = Ok (Some (new, Some p)) /\
    rl_holds new v0 runs' term /\ rl_holds p s pruns (mk_rle (s + n) LCN_ENOENT 0) /\
    hole_in runs' s (s + n) /\ rl_capacity (rl_block_bytes (zlen runs' + 1)) <= zlen new /\
    forall v, rl_den runs' v = (if (s <=? v) && (v <? s + n) then Some LCN_HOLE else rl_den runs v) /\
              rl_den pruns v = if (s <=? v) && (v <? s + n) then rl_den runs v else None.
Proof.
  intros Hh Hrl Ht Hl Hs Hn He Hmax. pose proof Hrl as [[tail Erl] C O [T Lt] S]. subst rl.
  destruct (runs_range v0 runs s n C Hs Hn He) as (L & X' & X'' & R & a & b & Er & EX & Ha & Hb).
  assert (LCN_HOLE <= lcn a /\ LCN_HOLE <= lcn b) as [Hla Hlb].
  { subst runs. apply Forall_app in Hl as [_ Hl]. apply Forall_app in Hl as [Hl _].
    split; [by apply Forall_cons_1 in Hl as [? _]|]. rewrite EX in Hl. apply Forall_app in Hl as [_ Hl].
    by apply Forall_cons_1 in Hl as [? _]. }
  unfold ntfs_rl_punch_hole. subst runs. rewrite (punch_find_spec L X' X'' R a b term tail v0) by done.
  cbn [mbind res_bind pp_e pp_s pp].
  pose proof (zlen_nonneg L). pose proof (zlen_nonneg R). pose proof (zlen_nonneg X'').
  set (new_cnt := _ + 3). assert (new_cnt = zlen L + zlen R + 4) as Enc by (unfold new_cnt; autorewrite with zlen; lia).
  destruct (rl_malloc_spec new_cnt Hh) as (k & -> & Hk & Ek); [lia|].
  assert ((L ++ (a :: X'') ++ R) ++ term :: tail = L ++ (a :: X'') ++ R ++ term :: tail) as -> by by rewrite <- !app_assoc.
  destruct (punch_new_spec L X' X'' R a b term tail s n EX O Ha Hb k) as (junk & E & Lj); [lia|].
  fold (pp L X'' a b s n). rewrite E. cbn [mbind res_bind].
  set (B := right_part b s n ++ R) in *. set (A := L ++ left_part a s) in *.
  assert (exists y rest, B ++ term :: junk = y :: rest /\ (esplit b s n = true -> len y = len b - (s + n - vcn b)))
    as (y & rest & Ey & Hy).
  { unfold B, right_part. destruct (esplit b s n); [by eexists _, _|].
    destruct (R ++ term :: junk) as [|y rest] eqn:E'; [by destruct R|]. exists y, rest. split; [by rewrite <- E'|done]. }
  assert (aget (A ++ hole s n :: B ++ term :: junk) (zlen A + 1) = Ok y) as ->.
  { rewrite Ey, (cons_middle (hole s n)), app_assoc. apply aget_mid. autorewrite with zlen. lia. }
  cbn [mbind res_bind].
  destruct (punch_out_spec Hh L X' X'' R a b term tail v0 s n EX C O (conj T Lt) Ha Hb Hn (len y)) as (p & pj & -> & ->).
  { intros _ Hes HX. rewrite Hy by done. subst X'. cbn in EX. injection EX as -> ->. done. }
  cbn [mbind res_bind].
  destruct (punched_spec v0 _ s n C O) as (PC & PE & PO & PD); try done; try lia.
  unfold punched in PC, PE, PO, PD. rewrite (cut_is L X'' R a v0 s C Ha) in PC, PE, PO, PD.
  rewrite (from_is L X' X'' R a b v0 s n EX C Hb) in PC, PE, PO, PD. fold A B (hole s n) in PC, PE, PO, PD.
  destruct (punch_merge_spec v0 A (hole s n) B term junk new_cnt) as (runs' & junk' & Em & (SC & SE & SD & SO) & SH & SL);
    try done.
  { rewrite Lj. split; [|lia]. unfold A, B, left_part, right_part. autorewrite with zlen.
    destruct (bsplit a s), (esplit b s n); autorewrite with zlen; lia. }
  pose proof (punch_merge_zlen _ _ _ _ Em) as Ez. rewrite Em.
  cbn [mbind res_bind]. eexists _, _, runs', _. split; [done|].
  destruct (taken_spec v0 _ s n C O) as (TC & TE & TO & TD); try done; try lia.
  split; [|split; [|split; [done|split]]].
  - split; [by eexists|done|done| |done]. split; [congruence|done].
  - split; [by eexists|done|done| |lia]. by split; [rewrite TE|].
  - rewrite Ez, Lj, Ek. apply rl_block_mono. rewrite Enc. unfold A, B, left_part, right_part in SL.
    destruct (bsplit a s), (esplit b s n); autorewrite with zlen in *; lia.
  - intros v. by rewrite SD, PD, TD.
Qed.

(** C40: punching a hole into a range of a runlist gives a well-formed runlist in
    which the range is a hole and every other cluster is mapped as before, and
    hands out the runs of the range with their old mapping. *)
Theorem rl_punch_hole_correct `{Heap} rl v0 runs term s n :
  (forall m, heap_grants m = true) -> rl_holds rl v0 runs term -> lcn term <> LCN_HOLE ->
  Forall (fun r => LCN_HOLE <= lcn r) runs -> v0 <= s -> 0 < n -> s + n <= runs_end v0 runs -> runs_end v0 runs < 2 ^ 63 ->
  exists new p runs' pruns, ntfs_rl_punch_hole rl (zlen runs + 1) s n true = Ok (Some (new, Some p)) /\
    rl_holds new v0 runs' term /\ rl_holds p s pruns (mk_rle (s + n) LCN_ENOENT 0) /\
    forall v, rl_den runs' v = (if (s <=? v) && (v <? s + n) then Some LCN_HOLE else rl_den runs v) /\
              rl_den pruns v = if (s <=? v) && (v <? s + n) then rl_den runs v else None.
Proof.
  intros Hh Hrl Ht Hl Hs Hn He Hmax.
  destruct (punch_hole_spec rl v0 runs term s n Hh Hrl Ht Hl Hs Hn He Hmax) as (new & p & runs' & pruns & P).
  exists new, p, runs', pruns. by destruct P as (? & ? & ? & _ & _ & ?).
Qed.

Lemma rl_punch_hole_correct_witness :
  exists new p runs' pruns,
    @ntfs_rl_punch_hole ample_heap (small_runs ++ [small_term]) 4 5 7 true = Ok (Some (new, Some p)) /\
    rl_holds new 0 runs' small_term /\ rl_holds p 5 pruns (mk_rle 12 LCN_ENOENT 0) /\
    map (rl_den runs') [4; 5; 11; 12] = [Some 104; Some LCN_HOLE; Some LCN_HOLE; Some LCN_HOLE] /\
    map (rl_den pruns) [4; 5; 9; 11; 12] = [None; Some 105; Some 109; Some LCN_HOLE; None].
Proof.
  destruct (@rl_punch_hole_correct ample_heap _ _ _ _ 5 7 ltac:(done) small_holds)
    as (new & p & runs' & pruns & E & H1 & H2 & D).
  - intros [=].
  - repeat constructor; unfold LCN_HOLE; cbn; lia.
  - lia.
  - lia.
  - cbn. lia.
  - cbn. lia.
  - exists new, p, runs', pruns. split; [exact E|]. split; [exact H1|]. split; [exact H2|].
    cbn [map]. rewrite !(proj1 (D _)), !(proj2 (D _)). split; reflexivity.
Defined.
