(* ===== verification/RunlistMerge.v ===== *)
(** Merging of runlists (libntfs/runlist.c, [ntfs_runlists_merge]).

    The source runlist maps one range of clusters; it is put into a hole or an
    unmapped run of the destination, or after its end, by one of four array
    operations ([ntfs_rl_replace], [ntfs_rl_insert], [ntfs_rl_append],
    [ntfs_rl_split]) that move elements inside one memory block.  The theorems
    show that the operations stay inside the block and that the result means
    the source on the source's range and the destination elsewhere. *)

From S2P Require Import Prelude Runlist.

Definition ntfs_rl_are_mergeable (dst src : option runlist_element) : bool :=
  match dst, src with
  | Some dst, Some src =>
      if (lcn dst =? LCN_RL_NOT_MAPPED) && (lcn src =? LCN_RL_NOT_MAPPED) then true
      else if negb (s64 (vcn dst + len dst) =? vcn src) then false
      else if (0 <=? lcn dst) && (0 <=? lcn src) && (s64 (lcn dst + len dst) =? lcn src) then true
      else if (lcn dst =? LCN_HOLE) && (lcn src =? LCN_HOLE) then true
      else false
  | _, _ => false
  end.

(** [dst->length += src->length], the changed [dst]. *)
Definition ntfs_rl_merge_elt (dst src : runlist_element) : runlist_element :=
  set_len dst (s64 (len dst + len src)).

(** [base[i] = f(base[i])]. *)
Definition amodify (base : runlist) (i : Z) (f : runlist_element -> runlist_element)
    : res runlist :=
  r ← aget base i; aset base i (f r).

(** [dst[loc].length = dst[loc + 1].vcn - dst[loc].vcn] *)
Definition fix_len (dst : runlist) (loc : Z) : res runlist :=
  n ← aget dst (loc + 1);
  amodify dst loc (fun r => set_len r (s64 (vcn n - vcn r))).

(** [dst[m].vcn = dst[m - 1].vcn + dst[m - 1].length] *)
Definition fix_vcn (dst : runlist) (m : Z) : res runlist :=
  p ← aget dst (m - 1);
  amodify dst m (fun r => set_vcn r (s64 (vcn p + len p))).

(** [if ((loc + 1) < dsize)
      right = ntfs_rl_are_mergeable(src + ssize - 1, dst + loc + 1);] *)
Definition needs_right (dst : runlist) (dsize : Z) (src : runlist) (ssize loc : Z) : res bool :=
  if loc + 1 <? dsize then
    s ← aget src (ssize - 1); d ← aget dst (loc + 1);
    Ok (ntfs_rl_are_mergeable (Some s) (Some d))
  else Ok false.

(** [if (loc > 0) left = ntfs_rl_are_mergeable(dst + loc - 1, src);] *)
Definition needs_left (dst src : runlist) (loc : Z) : res bool :=
  if 0 <? loc then
    d ← aget dst (loc - 1); s ← aget src 0;
    Ok (ntfs_rl_are_mergeable (Some d) (Some s))
  else Ok false.

(** The flags [left] and [disc] of [ntfs_rl_insert]; [s0] is [src[0]]. *)
Definition insert_flags (dst : runlist) (s0 : runlist_element) (loc : Z) : res (bool * bool) :=
  if loc =? 0 then Ok (false, 0 <? vcn s0)
  else
    d ← aget dst (loc - 1);
    let mleft := ntfs_rl_are_mergeable (Some d) (Some s0) in
    let merged_length := if mleft then s64 (len d + len s0) else len d in
    Ok (mleft, s64 (vcn d + merged_length) <? vcn s0).

Section merge.
Context `{Heap}.

(** [src] is the block from its first element to insert on. *)
Definition ntfs_rl_append (dst : option runlist) (dsize : Z) (src : option runlist)
    (ssize loc : Z) : res runlist :=
  match dst, src with
  | Some dst, Some src =>
    mright ← needs_right dst dsize src ssize loc;
    dst ← ntfs_rl_realloc dst dsize (dsize + ssize - Z.b2z mright);
    src ← (if mright then
             d ← aget dst (loc + 1); amodify src (ssize - 1) (fun s => ntfs_rl_merge_elt s d)
           else Ok src);
    let marker := loc + ssize + 1 in
    dst ← ntfs_rl_mm dst marker (loc + 1 + Z.b2z mright) (dsize - loc - 1 - Z.b2z mright);
    dst ← ntfs_rl_mc dst (loc + 1) src 0 ssize;
    dst ← fix_len dst loc;
    m ← aget dst marker;
    if lcn m =? LCN_ENOENT then fix_vcn dst marker else Ok dst
  | _, _ => Err EINVAL
  end.

Definition ntfs_rl_insert (dst : option runlist) (dsize : Z) (src : option runlist)
    (ssize loc : Z) : res runlist :=
  match dst, src with
  | Some dst, Some src =>
    s0 ← aget src 0;
    '(mleft, disc) ← insert_flags dst s0 loc;
    dst ← ntfs_rl_realloc dst dsize (dsize + ssize - Z.b2z mleft + Z.b2z disc);
    dst ← (if mleft then amodify dst (loc - 1) (fun d => ntfs_rl_merge_elt d s0) else Ok dst);
    let marker := loc + ssize - Z.b2z mleft + Z.b2z disc in
    dst ← ntfs_rl_mm dst marker loc (dsize - loc);
    dst ← ntfs_rl_mc dst (loc + Z.b2z disc) src (Z.b2z mleft) (ssize - Z.b2z mleft);
    dst ← fix_vcn dst marker;
    m ← aget dst marker;
    dst ← (if (lcn m =? LCN_HOLE) || (lcn m =? LCN_RL_NOT_MAPPED)
           then fix_len dst marker else Ok dst);
    if (disc : bool) then
      dst ← (if 0 <? loc then dst ← fix_vcn dst loc; fix_len dst loc
             else n ← aget dst (loc + 1);
                  amodify dst loc (fun r => set_len (set_vcn r 0) (vcn n)));
      amodify dst loc (fun r => set_lcn r LCN_RL_NOT_MAPPED)
    else Ok dst
  | _, _ => Err EINVAL
  end.

Definition ntfs_rl_replace (dst : option runlist) (dsize : Z) (src : option runlist)
    (ssize loc : Z) : res runlist :=
  match dst, src with
  | Some dst, Some src =>
    mright ← needs_right dst dsize src ssize loc;
    mleft ← needs_left dst src loc;
    let delta := ssize - 1 - Z.b2z mleft - Z.b2z mright in
    dst ← (if 0 <? delta then ntfs_rl_realloc dst dsize (dsize + delta) else Ok dst);
    src ← (if mright then
             d ← aget dst (loc + 1); amodify src (ssize - 1) (fun s => ntfs_rl_merge_elt s d)
           else Ok src);
    dst ← (if mleft then
             s ← aget src 0; amodify dst (loc - 1) (fun d => ntfs_rl_merge_elt d s)
           else Ok dst);
    let tail := loc + Z.b2z mright + 1 in
    let marker := loc + ssize - Z.b2z mleft in
    dst ← ntfs_rl_mm dst marker tail (dsize - tail);
    dst ← ntfs_rl_mc dst loc src (Z.b2z mleft) (ssize - Z.b2z mleft);
    if 0 <? dsize - tail then
      m ← aget dst marker;
      if lcn m =? LCN_ENOENT then fix_vcn dst marker else Ok dst
    else Ok dst
  | _, _ => Err EINVAL
  end.

Definition ntfs_rl_split (dst : option runlist) (dsize : Z) (src : option runlist)
    (ssize loc : Z) : res runlist :=
  match dst, src with
  | Some dst, Some src =>
    dst ← ntfs_rl_realloc dst dsize (dsize + ssize + 1);
    dst ← ntfs_rl_mm dst (loc + 1 + ssize) loc (dsize - loc);
    dst ← ntfs_rl_mc dst (loc + 1) src 0 ssize;
    dst ← fix_len dst loc;
    dst ← fix_vcn dst (loc + ssize + 1);
    fix_len dst (loc + ssize + 1)
  | _, _ => Err EINVAL
  end.

(** [for (i = from; rl[i].length; i++)] *)
Definition rl_end_from (rl : runlist) (from : Z) : res Z :=
  _ ← aget rl from; rl_last (drop (Z.to_nat from) rl) from.

(** [while (srl[si].length && srl[si].lcn < LCN_HOLE) si++;] *)
Fixpoint skip_unmapped (rl : runlist) (si : Z) : res Z :=
  match rl with
  | [] => Undef
  | r :: rl =>
      if negb (len r =? 0) && (lcn r <? LCN_HOLE) then skip_unmapped rl (si + 1) else Ok si
  end.

(** [for (; drl[di].length; di++) if (drl[di].vcn + drl[di].length > svcn) break;] *)
Fixpoint find_insert (rl : runlist) (di svcn : Z) : res Z :=
  match rl with
  | [] => Undef
  | r :: rl =>
      if len r =? 0 then Ok di
      else if svcn <? s64 (vcn r + len r) then Ok di
      else find_insert rl (di + 1) svcn
  end.

(** [for (i = from; i >= 0 && rl[i].lcn < LCN_HOLE; i--)], [from = n - 1]. *)
Fixpoint last_mapped (rl : runlist) (n : nat) : res Z :=
  match n with
  | O => Ok (-1)
  | S n =>
      r ← aget rl (Z.of_nat n);
      if lcn r <? LCN_HOLE then last_mapped rl n else Ok (Z.of_nat n)
  end.

(** A failed reallocation here is the forced crash of [critical_error]. *)
Definition realloc_or_die (rl : runlist) (old_size new_size : Z) : res runlist :=
  match ntfs_rl_realloc rl old_size new_size with
  | Ok rl => Ok rl
  | _ => Undef
  end.

(** The code under [if (marker)]. *)
Definition merge_marker (drl : runlist) (dend marker_vcn : Z) : res runlist :=
  ds ← rl_end_from drl dend;
  t ← aget drl ds;
  if negb (vcn t <=? marker_vcn) then Ok drl
  else if vcn t =? marker_vcn then aset drl ds (set_lcn t LCN_ENOENT)
  else
    let '(ds, slots) := if lcn t =? LCN_ENOENT then (ds - 1, 1) else (ds, 0) in
    t ← aget drl ds;
    '(drl, ds, slots) ←
      (if negb (lcn t =? LCN_RL_NOT_MAPPED) then
         '(drl, slots) ← (if slots =? 0 then
                            drl ← realloc_or_die drl ds (ds + 2); Ok (drl, 2)
                          else Ok (drl, slots));
         let ds := ds + 1 in
         drl ← (if negb (slots =? 1) then fix_vcn drl ds else Ok drl);
         drl ← amodify drl ds (fun r => set_lcn r LCN_RL_NOT_MAPPED);
         Ok (drl, ds, slots - 1)
       else Ok (drl, ds, slots));
    drl ← amodify drl ds (fun r => set_len r (s64 (marker_vcn - vcn r)));
    let ds := ds + 1 in
    drl ← (if slots =? 0 then realloc_or_die drl ds (ds + 1) else Ok drl);
    aset drl ds (mk_rle marker_vcn LCN_ENOENT 0).

(** The first mapping: [drl] is NULL. *)
Definition merge_first (drl : runlist) : res runlist :=
  r0 ← aget drl 0;
  if negb (vcn r0 =? 0) then
    dend ← rl_end_from drl 0;
    let dend := dend + 1 in
    drl ← ntfs_rl_realloc drl dend (dend + 1);
    drl ← ntfs_rl_mm drl 1 0 dend;
    n ← aget drl 1;
    aset drl 0 (mk_rle 0 LCN_RL_NOT_MAPPED (vcn n))
  else Ok drl.

(** The dispatch to one of the four operations. *)
Definition merge_into (drl : runlist) (ds : Z) (src : runlist) (ss dins : Z)
    (start finish : bool) : res runlist :=
  if start then
    if finish then ntfs_rl_replace (Some drl) ds (Some src) ss dins
    else ntfs_rl_insert (Some drl) ds (Some src) ss dins
  else
    if finish then ntfs_rl_append (Some drl) ds (Some src) ss dins
    else ntfs_rl_split (Some drl) ds (Some src) ss dins.

(** Both runlists are there. *)
Definition merge_both (drl srl : runlist) : res runlist :=
  sstart ← skip_unmapped srl 0;
  s ← aget srl sstart;
  if len s =? 0 then Err EINVAL else
  dins ← find_insert drl 0 (vcn s);
  d ← aget drl dins;
  if (vcn d =? vcn s) && (0 <=? lcn d) && (0 <=? lcn s) then Err ERANGE else
  send ← rl_end_from srl sstart;
  dend ← rl_end_from drl dins;
  st ← aget srl send;
  let '(marker, marker_vcn) :=
    if lcn st =? LCN_ENOENT then (send, vcn st) else (0, 0) in
  sfinal ← last_mapped srl (Z.to_nat (send + 1));
  sl ← aget srl (send - 1);
  let ds := dend + 1 in
  let ss := sfinal - sstart + 1 in
  let start := (lcn d <? LCN_RL_NOT_MAPPED) || (vcn d =? vcn s) in
  let finish := (LCN_RL_NOT_MAPPED <=? lcn d) &&
                (s64 (vcn d + len d) <=? s64 (vcn sl + len sl)) in
  let ss := if finish && (len d =? 0) then ss + 1 else ss in
  let finish := if negb (marker =? 0) && (vcn sl <? s64 (vcn d + len d))
                then false else finish in
  drl ← merge_into drl ds (drop (Z.to_nat sstart) srl) ss dins start finish;
  if negb (marker =? 0) then merge_marker drl dend marker_vcn else Ok drl.

Definition ntfs_runlists_merge_i (drl srl : option runlist) : res (option runlist) :=
  match srl with
  | None => Ok drl
  | Some srl =>
      match drl with
      | None => rl ← merge_first srl; Ok (Some rl)
      | Some drl => rl ← merge_both drl srl; Ok (Some rl)
      end
  end.

Definition ntfs_runlists_merge (drl srl : option runlist) : res (option runlist) :=
  ntfs_runlists_merge_i drl srl.

End merge.

(** * Proofs *)

(** ** Memory blocks *)

Definition rl_cap (n : Z) : Z := rl_capacity (rl_block_bytes n).

Lemma rl_block_bytes_eq n : rl_block_bytes n = (n * 24 + 4095) / 4096 * 4096.
Proof.
  unfold rl_block_bytes, sizeof_rle.
  rewrite <- Z.ldiff_land. change 0xfff with (Z.ones 12) at 2.
  rewrite Z.ldiff_ones_r, Z.shiftl_mul_pow2, Z.shiftr_div_pow2 by lia. done.
Qed.

Lemma rl_cap_ge n : 0 <= n -> n <= rl_cap n.
Proof.
  intros. unfold rl_cap, rl_capacity, sizeof_rle. rewrite rl_block_bytes_eq. dlia.
Qed.

Lemma rl_cap_mono n m : n <= m -> rl_cap n <= rl_cap m.
Proof.
  intros. unfold rl_cap, rl_capacity, sizeof_rle. rewrite !rl_block_bytes_eq.
  apply Z.div_le_mono; [lia|]. apply Z.mul_le_mono_nonneg_r; [lia|].
  apply Z.div_le_mono; lia.
Qed.

Lemma realloc_grow `{Heap} (l X tail : runlist) old new :
  (forall b, heap_grants b = true) -> l = X ++ tail ->
  0 <= zlen X <= old -> old <= new -> rl_cap old <= zlen l ->
  exists l' tail', ntfs_rl_realloc l old new = Ok l' /\ l' = X ++ tail' /\
    rl_cap new <= zlen l'.
Proof.
  intros G -> HX Hon Hcap. unfold ntfs_rl_realloc.
  destruct (Z.eqb_spec (rl_block_bytes old) (rl_block_bytes new)) as [E|E].
  - exists (X ++ tail), tail. split_and!; [done..|]. unfold rl_cap in *. rewrite <- E. done.
  - unfold rl_resize. rewrite G. set (n := Z.to_nat (rl_capacity (rl_block_bytes new))).
    pose proof (rl_cap_ge new) as C. fold (rl_cap new) in n.
    assert (length X <= n)%nat by (unfold zlen in HX; lia).
    rewrite take_app_ge by lia. rewrite <- app_assoc. do 2 eexists. split_and!; [done..|].
    unfold zlen in *. rewrite !length_app, length_map, length_seq, length_take in *. lia.
Qed.

(** Equality of lists up to the grouping of concatenations. *)
Ltac app_eq := by repeat progress (rewrite <- ?app_assoc; cbn [app]).

(** ** Array surgery *)

Lemma take_app_exact {A} (l k : list A) n : n = length l -> take n (l ++ k) = l.
Proof. intros ->. apply take_app_length. Qed.

(** [memmove] of the tail [T] to [g + s] cells after [P], then [memcpy] of [S]
    after the first [g] of them. *)
Lemma mm_mc_spec (P X T J U S W G : runlist) dst src p q q0 off sz sz' g :
  dst = P ++ X ++ T ++ J -> src = U ++ S ++ W -> G = take (Z.to_nat g) (X ++ T ++ J) ->
  q = zlen P + zlen X -> p = zlen P + g + zlen S -> sz = zlen T ->
  q0 = zlen P + g -> off = zlen U -> sz' = zlen S -> 0 <= g ->
  zlen P + g + zlen S + zlen T <= zlen dst ->
  exists d2 l' J', ntfs_rl_mm dst p q sz = Ok d2 /\
    ntfs_rl_mc d2 q0 src off sz' = Ok l' /\
    l' = P ++ G ++ S ++ T ++ J' /\ zlen l' = zlen dst.
Proof.
  intros Hd -> HG -> -> -> -> -> -> Hg Hlen.
  set (Y := take (Z.to_nat (g + zlen S)) (X ++ T ++ J)).
  assert (zlen Y = g + zlen S) as LY.
  { unfold Y, zlen in *. rewrite length_take. subst dst. rewrite !length_app in *. lia. }
  assert (exists J', ntfs_rl_mm dst (zlen P + g + zlen S) (zlen P + zlen X) (zlen T)
      = Ok (P ++ Y ++ T ++ J') /\ zlen (P ++ Y ++ T ++ J') = zlen dst) as (J' & -> & L').
  { unfold ntfs_rl_mm.
    destruct (Z.eqb_spec (zlen P + g + zlen S) (zlen P + zlen X)) as [E|E]; cbn [negb andb].
    - exists J. subst dst. unfold Y. rewrite take_app_exact by (unfold zlen in *; lia). done.
    - destruct (Z.ltb_spec 0 (zlen T)) as [HT|HT].
      + rewrite Hd. rewrite (app_assoc P X). rewrite aslice_mid by zlen_solve.
        cbn [mbind res_bind]. rewrite <- (app_assoc P X), <- Hd.
        unfold awrite. rewrite (proj2 (Z.ltb_ge _ 0)) by zlen_solve.
        rewrite (proj2 (Z.ltb_ge (zlen dst) _)) by lia. cbn [orb].
        exists (drop (Z.to_nat (zlen P + g + zlen S) + length T) dst).
        assert (take (Z.to_nat (zlen P + g + zlen S)) dst = P ++ Y) as ->.
        { rewrite Hd. rewrite take_app_ge by (unfold zlen in *; lia). f_equal.
          unfold Y. f_equal. unfold zlen. lia. }
        rewrite <- app_assoc. split; [done|].
        unfold zlen in *. rewrite !length_app, length_drop in *. lia.
      + assert (T = []) as -> by (destruct T; [done|zlen_solve]).
        exists (drop (Z.to_nat (g + zlen S)) (X ++ J)). cbn [app].
        assert (X ++ J = Y ++ drop (Z.to_nat (g + zlen S)) (X ++ J)) as EY.
        { unfold Y. cbn [app]. by rewrite take_drop. }
        split; [rewrite <- EY; subst dst; done|]. rewrite <- EY. subst dst. done. }
  exists (P ++ Y ++ T ++ J'). unfold ntfs_rl_mc.
  assert (Y = G ++ drop (Z.to_nat g) Y) as EY.
  { transitivity (take (Z.to_nat g) Y ++ drop (Z.to_nat g) Y); [by rewrite take_drop|].
    rewrite HG. f_equal. unfold Y. rewrite take_take. f_equal. pose proof (zlen_nonneg S). lia. }
  set (Y2 := drop (Z.to_nat g) Y) in *.
  assert (zlen G = g) as LG.
  { rewrite HG. unfold zlen in *. rewrite length_take. subst dst. rewrite !length_app in *. lia. }
  assert (length Y2 = length S) as L2.
  { unfold Y2, zlen in *. rewrite length_drop. lia. }
  rewrite EY in L' |- *. exists (P ++ G ++ S ++ T ++ J'), J'. split; [done|].
  assert (zlen (P ++ G ++ S ++ T ++ J') = zlen dst).
  { unfold zlen in *. rewrite !length_app in *. lia. }
  destruct (Z.ltb_spec 0 (zlen S)) as [HS|HS].
  - rewrite aslice_mid by done. cbn [mbind res_bind].
    replace (P ++ (G ++ Y2) ++ T ++ J') with ((P ++ G) ++ Y2 ++ T ++ J') by (by rewrite <- !app_assoc).
    rewrite awrite_mid by (zlen_solve || done). rewrite <- !app_assoc. done.
  - assert (S = []) as -> by (destruct S; [done|zlen_solve]).
    destruct Y2; [|done]. rewrite app_nil_r in *. done.
Qed.

Lemma aget_at {A} (l P : list A) r Q i : l = P ++ r :: Q -> i = zlen P -> aget l i = Ok r.
Proof. intros -> ->. by apply aget_mid. Qed.

Lemma fix_len_at l P r n Q i :
  l = P ++ r :: n :: Q -> i = zlen P ->
  fix_len l i = Ok (P ++ set_len r (s64 (vcn n - vcn r)) :: n :: Q).
Proof.
  intros -> ->. unfold fix_len, amodify.
  replace (P ++ r :: n :: Q) with ((P ++ [r]) ++ n :: Q) at 1 by (by rewrite <- app_assoc).
  rewrite !aget_mid by zlen_solve. cbn [mbind res_bind]. by rewrite aset_mid by done.
Qed.

Lemma fix_vcn_at l P p r Q i :
  l = P ++ p :: r :: Q -> i = zlen P + 1 ->
  fix_vcn l i = Ok (P ++ p :: set_vcn r (s64 (vcn p + len p)) :: Q).
Proof.
  intros -> ->. unfold fix_vcn, amodify.
  rewrite (aget_at (P ++ p :: r :: Q) P p (r :: Q) (zlen P + 1 - 1)) by (done || lia). cbn [mbind res_bind].
  replace (P ++ p :: r :: Q) with ((P ++ [p]) ++ r :: Q) by (by rewrite <- app_assoc).
  rewrite aget_mid by zlen_solve. cbn [mbind res_bind].
  rewrite aset_mid by zlen_solve. by rewrite <- app_assoc.
Qed.

Lemma amodify_at l P r Q i f :
  l = P ++ r :: Q -> i = zlen P -> amodify l i f = Ok (P ++ f r :: Q).
Proof.
  intros -> ->. unfold amodify. rewrite aget_mid by done. cbn [mbind res_bind].
  by rewrite aset_mid.
Qed.


(** Steps through an access whose position in the list is given. *)
Ltac at_side :=
  solve [ lia | zlen_solve | app_eq
        | match goal with E : ?x = _ |- ?x = _ => rewrite E; app_eq end ].
Ltac step_get P r Q :=
  match goal with
  | |- context [mbind _ (aget ?l ?i)] =>
      rewrite (aget_at l P r Q i) by at_side; cbn [mbind res_bind]
  end.
Ltac step_modify P r Q :=
  match goal with
  | |- context [amodify ?l ?i ?f] =>
      rewrite (amodify_at l P r Q i f) by at_side; cbn [mbind res_bind]
  end.
Ltac step_fix_len P r n Q :=
  match goal with
  | |- context [fix_len ?l ?i] =>
      rewrite (fix_len_at l P r n Q i) by at_side; cbn [mbind res_bind]
  end.
Ltac step_fix_vcn P p r Q :=
  match goal with
  | |- context [fix_vcn ?l ?i] =>
      rewrite (fix_vcn_at l P p r Q i) by at_side; cbn [mbind res_bind]
  end.

(** A [memmove] followed by a [memcpy], as in [mm_mc_spec]. *)
Ltac step_splice P X T J U S W G g :=
  match goal with
  | |- context [mbind (fun dst => mbind (@?k dst) (ntfs_rl_mc dst ?q0 ?src ?off ?sz'))
                      (ntfs_rl_mm ?d ?p ?q ?sz)] =>
      let d2 := fresh "d2" in let l' := fresh "d" in let J' := fresh "J'" in
      let E1 := fresh "E" in let E2 := fresh "E" in
      let El' := fresh "Ed" in let L' := fresh "Ld" in
      destruct (mm_mc_spec P X T J U S W G d src p q q0 off sz sz' g)
        as (d2 & l' & J' & E1 & E2 & El' & L'); [at_side..|];
      rewrite E1; cbn [mbind res_bind]; rewrite E2; cbn [mbind res_bind]; clear E1 E2
  end.

(** ** Well-formed pieces of a runlist *)

Record good (v e : Z) (R : runlist) : Prop := {
  g_contig : contig v R;
  g_end : runs_end v R = e;
  g_ok : Forall run_ok R
}.

Lemma good_nil v : good v v [].
Proof. split; done. Qed.

Lemma good_one r : run_ok r -> 0 < len r -> good (vcn r) (vcn r + len r) [r].
Proof. intros. split; cbn; [lia|done|]. by constructor. Qed.

Lemma good_app v m e R1 R2 : good v m R1 -> good m e R2 -> good v e (R1 ++ R2).
Proof.
  intros [C1 <- O1] [C2 <- O2]. split.
  - apply contig_app. done.
  - apply runs_end_app.
  - by apply Forall_app_2.
Qed.

Lemma good_app_inv v e R1 R2 :
  good v e (R1 ++ R2) -> exists m, good v m R1 /\ good m e R2.
Proof.
  intros [C E O]. apply contig_app in C as [C1 C2]. rewrite runs_end_app in E.
  apply Forall_app in O as [O1 O2]. exists (runs_end v R1). split; split; done.
Qed.

Lemma good_le v e R : good v e R -> v <= e.
Proof. intros [C <- _]. by apply contig_end_ge. Qed.

Lemma good_cons_inv v e r R :
  good v e (r :: R) -> vcn r = v /\ 0 < len r /\ run_ok r /\ good (v + len r) e R.
Proof.
  intros [(E & P & C) En O]. apply Forall_cons_1 in O as [Or Os]. split_and!; done.
Qed.

Lemma good_last v e R :
  good v e R -> R <> [] ->
  exists R' l, R = R' ++ [l] /\ vcn l + len l = e /\ 0 < len l /\ run_ok l /\ good v (vcn l) R'.
Proof.
  intros G N. destruct (exists_last N) as (R' & l & ->). exists R', l.
  apply good_app_inv in G as (m & G1 & G2).
  apply good_cons_inv in G2 as (<- & P & O & [_ E _]). cbn in E. split_and!; done.
Qed.

Lemma good_snoc v e R r :
  good v (vcn r) R -> run_ok r -> 0 < len r -> e = vcn r + len r -> good v e (R ++ [r]).
Proof. intros G O P ->. eapply good_app; [done|]. by apply good_one. Qed.

(** Two adjacent runs that the code merges mean the same as the merged run. *)
Lemma mergeable_sound x y v e :
  ntfs_rl_are_mergeable (Some x) (Some y) = true -> good v e [x; y] ->
  good v e [ntfs_rl_merge_elt x y] /\
  forall w, rl_den [ntfs_rl_merge_elt x y] w = rl_den [x; y] w.
Proof.
  intros M G. apply good_cons_inv in G as (Ex & Px & Ox & G).
  apply good_cons_inv in G as (Ey & Py & Oy & [_ En _]). cbn in En.
  destruct Ox as (X1 & X2 & X3 & X4), Oy as (Y1 & Y2 & Y3 & Y4).
  unfold ntfs_rl_merge_elt. rewrite s64_small by lia.
  assert ((lcn x < 0 /\ lcn y = lcn x) \/ (0 <= lcn x /\ lcn y = lcn x + len x)) as K.
  { unfold ntfs_rl_are_mergeable, LCN_RL_NOT_MAPPED, LCN_HOLE in M.
    rewrite s64_small in M by lia.
    destruct (Z.eqb_spec (lcn x) (-2)), (Z.eqb_spec (lcn y) (-2)); cbn in M; try lia;
    (destruct (Z.eqb_spec (vcn x + len x) (vcn y)); [|done]; cbn in M;
     destruct (Z.leb_spec 0 (lcn x)), (Z.leb_spec 0 (lcn y)); cbn in M;
     try (rewrite s64_small in M by lia);
     zcase_in M; cbn in M; try done; lia). }
  split.
  - split; cbn; [lia|lia|]. constructor; [|done]. repeat split; cbn; lia.
  - intros w. cbn. unfold lcn_at. cbn.
    destruct (Z.leb_spec (vcn x) w); cbn [andb]; [|zdec; done].
    destruct (Z.ltb_spec w (vcn x + len x)); zdec; [done|].
    destruct (Z.ltb_spec w (vcn x + (len x + len y))); zdec; [|done].
    destruct (Z.leb_spec 0 (lcn x)); zdec; [f_equal; lia|f_equal; lia].
Qed.

(** Equal meaning is a congruence for concatenation. *)
Lemma rl_den_app_congr A B B' C :
  (forall w, rl_den B w = rl_den B' w) ->
  forall w, rl_den (A ++ B ++ C) w = rl_den (A ++ B' ++ C) w.
Proof. intros E w. rewrite !rl_den_app, E. done. Qed.

(** Gluing two adjacent lists at a pair of mergeable runs. *)
Lemma glue_sound v m e L x y R :
  good v m (L ++ [x]) -> good m e (y :: R) ->
  ntfs_rl_are_mergeable (Some x) (Some y) = true ->
  good v e (L ++ ntfs_rl_merge_elt x y :: R) /\
  forall w, rl_den (L ++ ntfs_rl_merge_elt x y :: R) w = rl_den ((L ++ [x]) ++ y :: R) w.
Proof.
  intros G1 G2 M. apply good_app_inv in G1 as (k & GL & Gx).
  destruct (good_app_inv m e [y] R) as (k' & Gy & GR); [done|].
  destruct (mergeable_sound x y k k' M) as [Gm Dm]; [by apply (good_app k m k' [x] [y])|].
  split.
  - eapply good_app; [done|]. by apply (good_app k k' e [_] R).
  - intros w. rewrite <- app_assoc. by apply (rl_den_app_congr L [_] [x; y] R).
Qed.

(** Runs that stand for clusters or holes, not for unmapped ranges. *)
Definition all_mapped (S : runlist) : Prop := Forall (fun r => LCN_HOLE <= lcn r) S.

Lemma not_mergeable_term l t :
  LCN_HOLE <= lcn l -> lcn t < LCN_HOLE -> ntfs_rl_are_mergeable (Some l) (Some t) = false.
Proof.
  unfold ntfs_rl_are_mergeable, LCN_HOLE, LCN_RL_NOT_MAPPED. intros.
  destruct (Z.eqb_spec (lcn l) (-2)); [lia|]. cbn.
  destruct (s64 (vcn l + len l) =? vcn t); [|done]. cbn.
  destruct (Z.leb_spec 0 (lcn t)); [lia|]. rewrite andb_false_r. cbn.
  destruct (Z.eqb_spec (lcn t) (-1)); [lia|]. by rewrite andb_false_r.
Qed.

(** ** The four operations *)

Section ops.
Context `{Heap}.
Hypothesis grants : forall b, heap_grants b = true.

Lemma rl_split_spec A h n1 T J S W sv se dsize ssize loc :
  good sv se S -> S <> [] -> 0 <= vcn h <= sv -> se <= vcn n1 < 2 ^ 63 -> 
  dsize = zlen A + 2 + zlen T -> ssize = zlen S -> loc = zlen A ->
  rl_cap dsize <= zlen (A ++ h :: n1 :: T ++ J) ->
  exists J', ntfs_rl_split (Some (A ++ h :: n1 :: T ++ J)) dsize (Some (S ++ W)) ssize loc
    = Ok (A ++ set_len h (sv - vcn h) :: S ++
          mk_rle se (lcn h) (vcn n1 - se) :: n1 :: T ++ J') /\
    rl_cap (dsize + ssize + 1) <=
      zlen (A ++ set_len h (sv - vcn h) :: S ++
          mk_rle se (lcn h) (vcn n1 - se) :: n1 :: T ++ J').
Proof.
  intros GS NS Hh Hn -> -> -> Hcap. unfold ntfs_rl_split.
  pose proof (good_le _ _ _ GS).
  destruct (realloc_grow (A ++ h :: n1 :: T ++ J) (A ++ h :: n1 :: T) J (zlen A + 2 + zlen T)
    (zlen A + 2 + zlen T + zlen S + 1)) as (d1 & J1 & E1 & Ed1 & C1);
    [done|app_eq|zlen_solve..|done|]. rewrite E1. cbn [mbind res_bind].
  pose proof (rl_cap_ge (zlen A + 2 + zlen T + zlen S + 1)) as Cg.
  step_splice A (@nil runlist_element) (h :: n1 :: T) J1 (@nil runlist_element) S W [h] 1.
  destruct (good_last _ _ _ GS NS) as (S' & l & ES & El & Pl & Ol & GS').
  destruct S as [|s0 S0]; [done|]. destruct (good_cons_inv _ _ _ _ GS) as (Es0 & _).
  step_fix_len A h s0 (S0 ++ h :: n1 :: T ++ J').
  rewrite Es0, s64_small by lia. rewrite app_comm_cons, ES.
  rewrite (fix_vcn_at _ (A ++ set_len h (sv - vcn h) :: S') l h (n1 :: T ++ J')) by
    (app_eq || zlen_solve).
  cbn [mbind res_bind]. destruct Ol as (? & ? & _). rewrite El, s64_small by lia.
  rewrite (fix_len_at _ (A ++ set_len h (sv - vcn h) :: S' ++ [l]) (set_vcn h se) n1 (T ++ J')) by
    (app_eq || zlen_solve).
  cbn [set_vcn vcn]. rewrite s64_small by lia.
  exists J'. unfold set_len at 2. cbn [vcn lcn].
  split; [app_eq|].
  rewrite <- ES. apply (f_equal zlen) in Ed. zlen_solve.
Qed.

(** The end-marker fix-up leaves a consistent terminator as it is. *)
Lemma fix_end_noop (l P Q : runlist) p t m :
  l = P ++ p :: t :: Q -> m = zlen P + 1 -> vcn t = vcn p + len p -> run_ok p -> 0 < len p ->
  (if lcn t =? LCN_ENOENT then fix_vcn l m else Ok l) = Ok l.
Proof.
  intros El -> Et (? & ? & _) ?. destruct (_ =? _); [|done].
  rewrite (fix_vcn_at _ P p t Q) by done. rewrite s64_small by lia. rewrite <- Et.
  subst l. by destruct t.
Qed.

(** Whether the right end of the source is merged. *)
Lemma needs_right_spec A h S' l W D2 term J dsize ssize loc :
  LCN_HOLE <= lcn l -> lcn term < LCN_HOLE ->
  dsize = zlen A + 2 + zlen D2 -> ssize = zlen S' + 1 -> loc = zlen A ->
  exists b, needs_right (A ++ h :: D2 ++ term :: J) dsize ((S' ++ [l]) ++ W) ssize loc = Ok b /\
    (b = true -> exists n1 D2', D2 = n1 :: D2' /\
       ntfs_rl_are_mergeable (Some l) (Some n1) = true).
Proof.
  intros Hl Ht -> -> ->. unfold needs_right. pose proof (zlen_nonneg D2). zdec.
  step_get S' l W. destruct D2 as [|n1 D2'].
  - step_get (A ++ [h]) term J. rewrite not_mergeable_term by done. by eexists.
  - step_get (A ++ [h]) n1 (D2' ++ term :: J). eexists. split; [done|]. eauto.
Qed.

(** The fix-ups at the end of [ntfs_rl_append]. *)
Lemma append_tail d A h R1 X2 term J sv De m :
  good sv De (R1 ++ X2) -> R1 <> [] -> vcn term = De -> 0 <= vcn h <= sv -> De < 2 ^ 63 ->
  d = A ++ h :: R1 ++ X2 ++ term :: J -> m = zlen A + zlen R1 + 1 ->
  (dst ← fix_len d (zlen A); x ← aget dst m;
   if lcn x =? LCN_ENOENT then fix_vcn dst m else Ok dst)
  = Ok (A ++ set_len h (sv - vcn h) :: (R1 ++ X2) ++ term :: J).
Proof.
  intros G N Bt Hh HDe Ed ->.
  destruct R1 as [|r R0] eqn:ER; [done|]. rewrite <- ER in *.
  apply good_app_inv in G as (k & G1 & G2).
  pose proof (good_le _ _ _ G1). pose proof (good_le _ _ _ G2).
  rewrite (fix_len_at d A h r (R0 ++ X2 ++ term :: J)) by (subst; done). cbn [mbind res_bind].
  assert (vcn r = sv) as -> by (rewrite ER in G1; by apply good_cons_inv in G1 as [-> _]).
  rewrite s64_small by lia.
  destruct (good_last _ _ _ G1 N) as (R' & p & E1 & Ep & Pp & Op & _).
  destruct (next_vcn k X2 term J) as (t & Q & E2 & Et); [apply G2|by destruct G2; subst|].
  assert (A ++ set_len h (sv - vcn h) :: r :: R0 ++ X2 ++ term :: J
    = (A ++ set_len h (sv - vcn h) :: R') ++ p :: t :: Q) as E3.
  { rewrite E2, (app_comm_cons R0), <- ER, E1. app_eq. }
  rewrite E3. rewrite (aget_at _ (A ++ set_len h (sv - vcn h) :: R' ++ [p]) t Q) by
    (app_eq || (rewrite E1; zlen_solve)).
  cbn [mbind res_bind].
  rewrite (fix_end_noop _ (A ++ set_len h (sv - vcn h) :: R') Q p t) by
    (done || lia || (rewrite E1; zlen_solve)).
  rewrite <- E3, ER. app_eq.
Qed.

Lemma rl_append_spec A h term S D2 W sv se De J dsize ssize loc :
  good sv se S -> S <> [] -> all_mapped S -> 0 <= vcn h <= sv ->
  good se De D2 -> vcn term = De -> lcn term < LCN_HOLE -> De < 2 ^ 63 ->
  dsize = zlen A + 2 + zlen D2 -> ssize = zlen S -> loc = zlen A ->
  rl_cap dsize <= zlen (A ++ h :: D2 ++ term :: J) ->
  exists R2 J',
    ntfs_rl_append (Some (A ++ h :: D2 ++ term :: J)) dsize (Some (S ++ W)) ssize loc
      = Ok (A ++ set_len h (sv - vcn h) :: R2 ++ term :: J') /\
    good sv De R2 /\ (forall w, rl_den R2 w = rl_den (S ++ D2) w) /\
    rl_cap (zlen A + 2 + zlen R2) <= zlen (A ++ set_len h (sv - vcn h) :: R2 ++ term :: J').
Proof.
  intros GS NS MS Hh GD Bt Lt HDe -> -> -> Hcap.
  destruct (good_last _ _ _ GS NS) as (S' & l & ES & El & Pl & Ol & GS').
  pose proof (good_le _ _ _ GS). pose proof (good_le _ _ _ GD).
  assert (LCN_HOLE <= lcn l) as Ml.
  { unfold all_mapped in MS. rewrite ES in MS. apply Forall_app in MS as [_ M].
    by apply Forall_cons_1 in M as [M _]. }
  destruct S as [|s0 S0] eqn:HS; [done|]. destruct (good_cons_inv _ _ _ _ GS) as (Es0 & _).
  rewrite <- HS in *. rewrite ES in *.
  unfold ntfs_rl_append.
  destruct (needs_right_spec A h S' l W D2 term J (zlen A + 2 + zlen D2) (zlen (S' ++ [l])) (zlen A))
    as (b & -> & Hb); [done..|zlen_solve|done|]. cbn [mbind res_bind].
  destruct (realloc_grow (A ++ h :: D2 ++ term :: J) (A ++ h :: D2 ++ [term]) J
    (zlen A + 2 + zlen D2) (zlen A + 2 + zlen D2 + zlen (S' ++ [l]) - Z.b2z b))
    as (d1 & J1 & E1 & Ed1 & C1);
    [done|app_eq|zlen_solve|destruct b; cbn [Z.b2z]; zlen_solve|done|].
  rewrite E1. cbn [mbind res_bind].
  pose proof (rl_cap_ge (zlen A + 2 + zlen D2 + zlen (S' ++ [l]) - Z.b2z b)) as Cg.
  destruct b; cbn [Z.b2z] in *.
  - destruct Hb as (n1 & D2' & -> & M); [done|].
    step_get (A ++ [h]) n1 (D2' ++ term :: J1).
    step_modify S' l W.
    step_splice (A ++ [h]) [n1] (D2' ++ [term]) J1 (@nil runlist_element)
      (S' ++ [ntfs_rl_merge_elt l n1]) W (@nil runlist_element) 0.
    destruct (glue_sound sv se De S' l n1 D2' GS GD M) as [GR DR].
    exists (S' ++ ntfs_rl_merge_elt l n1 :: D2'), J'.
    rewrite (append_tail d A h (S' ++ [ntfs_rl_merge_elt l n1]) D2' term J' sv De); try done.
    + split; [app_eq|]. split; [done|]. split; [done|].
      apply (f_equal zlen) in Ed. autorewrite with zlen in *. rewrite Ld in Ed.
      etransitivity; [|apply (Z.le_trans _ _ _ C1); rewrite Ed]; [apply rl_cap_mono; lia|lia].
    + rewrite <- app_assoc. done.
    + by destruct S'.
    + at_side.
    + zlen_solve.
  - cbn [mbind res_bind].
    step_splice (A ++ [h]) (@nil runlist_element) (D2 ++ [term]) J1 (@nil runlist_element)
      (S' ++ [l]) W (@nil runlist_element) 0.
    exists ((S' ++ [l]) ++ D2), J'.
    rewrite (append_tail d A h (S' ++ [l]) D2 term J' sv De); try done.
    + split; [app_eq|]. split; [by eapply good_app|]. split; [done|].
      apply (f_equal zlen) in Ed. autorewrite with zlen in *. rewrite Ld in Ed.
      etransitivity; [|apply (Z.le_trans _ _ _ C1); rewrite Ed]; [apply rl_cap_mono; lia|lia].
    + by eapply good_app.
    + at_side.
Qed.

(** Appending after a NOT_MAPPED terminator: the source brings its own
    terminator [t].  The code then reads the element after it, which the
    memory block must have. *)
Lemma rl_append_end_spec A h t M W sv J dsize ssize loc :
  good sv (vcn t) M -> M <> [] -> 0 <= vcn h <= sv -> vcn t < 2 ^ 63 ->
  dsize = zlen A + 1 -> ssize = zlen M + 1 -> loc = zlen A ->
  rl_cap dsize <= zlen (A ++ h :: J) -> dsize + ssize < rl_cap (dsize + ssize) ->
  exists J',
    ntfs_rl_append (Some (A ++ h :: J)) dsize (Some (M ++ t :: W)) ssize loc
      = Ok (A ++ set_len h (sv - vcn h) :: M ++ t :: J') /\
    rl_cap (dsize + ssize) <= zlen (A ++ set_len h (sv - vcn h) :: M ++ t :: J').
Proof.
  intros GM NM Hh Bt -> -> -> Hcap Hroom. pose proof (good_le _ _ _ GM).
  unfold ntfs_rl_append, needs_right. zdec. cbn [mbind res_bind Z.b2z].
  destruct (realloc_grow (A ++ h :: J) (A ++ [h]) J (zlen A + 1) (zlen A + 1 + (zlen M + 1) - 0))
    as (d1 & J1 & E1 & Ed1 & C1); [done|app_eq|zlen_solve..|done|].
  rewrite E1. cbn [mbind res_bind]. rewrite Z.sub_0_r in C1.
  step_splice (A ++ [h]) (@nil runlist_element) (@nil runlist_element) J1 (@nil runlist_element)
    (M ++ [t]) W (@nil runlist_element) 0.
  destruct M as [|s0 M0] eqn:EM; [done|].
  assert (vcn s0 = sv) as Es by (by apply good_cons_inv in GM as [-> _]).
  step_fix_len A h s0 (M0 ++ t :: J'). rewrite Es, s64_small by lia.
  apply (f_equal zlen) in Ed. rewrite Ld in Ed. autorewrite with zlen in Ed.
  destruct J' as [|j J'].
  { exfalso. autorewrite with zlen in *. lia. }
  step_get (A ++ set_len h (sv - vcn h) :: s0 :: M0 ++ [t]) j J'.
  destruct (lcn j =? LCN_ENOENT).
  - step_fix_vcn (A ++ set_len h (sv - vcn h) :: s0 :: M0) t j J'.
    eexists. split; [app_eq|]. autorewrite with zlen in *. lia.
  - eexists. split; [app_eq|]. autorewrite with zlen in *. lia.
Qed.

(** The source starts with a mapped run: it is merged only where it is
    adjacent, and the gap flag says whether it is apart. *)
Lemma insert_flags_spec A Q s0 a loc :
  good 0 a A -> run_ok s0 -> 0 < len s0 -> LCN_HOLE <= lcn s0 -> a <= vcn s0 -> loc = zlen A ->
  exists b, insert_flags (A ++ Q) s0 loc = Ok (b, a <? vcn s0) /\
    (b = true -> a = vcn s0 /\ exists A' x, A = A' ++ [x] /\
       ntfs_rl_are_mergeable (Some x) (Some s0) = true).
Proof.
  intros GA (O1 & O2 & _) P M Ha ->. unfold insert_flags.
  destruct A as [|y A0] eqn:EA.
  - destruct GA as [_ E _]. cbn in E. subst a. exists false. split; done.
  - rewrite <- EA in *. assert (A <> []) as NA by (by rewrite EA).
    assert (zlen A <> 0) by (rewrite EA; zlen_solve). zdec.
    destruct (good_last _ _ _ GA NA) as (A' & x & E & Ex & Px & (X1 & X2 & X3 & X4) & _).
    rewrite E. step_get A' x Q.
    destruct (ntfs_rl_are_mergeable (Some x) (Some s0)) eqn:Mx.
    + assert (vcn x + len x = vcn s0) as EQ.
      { unfold ntfs_rl_are_mergeable, LCN_RL_NOT_MAPPED, LCN_HOLE in *.
        rewrite s64_small in Mx by lia. destruct (Z.eqb_spec (lcn s0) (-2)); [lia|].
        rewrite andb_false_r in Mx. destruct (Z.eqb_spec (vcn x + len x) (vcn s0)); done. }
      rewrite (s64_small (len x + len s0)), s64_small by lia. exists true.
      zdec. split; [done|]. intros _. split; [lia|eauto].
    + rewrite s64_small by lia. rewrite Ex. exists false. done.
Qed.

(** The element after the inserted runs takes up where they end. *)
Lemma insert_fix_vcn d R1 v se h Q :
  good v se R1 -> R1 <> [] -> d = R1 ++ h :: Q ->
  fix_vcn d (zlen R1) = Ok (R1 ++ set_vcn h se :: Q).
Proof.
  intros G N ->. destruct (good_last _ _ _ G N) as (R' & p & -> & Ep & Pp & (O1 & O2 & _) & _).
  step_fix_vcn R' p h Q. rewrite Ep, s64_small by lia. app_eq.
Qed.

(** Merging the left end and moving the source in, no gap between. *)
Lemma insert_splice A s0 S' W T J1 d1 b sv se :
  good 0 sv A -> good sv se (s0 :: S') -> d1 = A ++ T ++ J1 ->
  (b = true -> sv = vcn s0 /\ exists A' x, A = A' ++ [x] /\
     ntfs_rl_are_mergeable (Some x) (Some s0) = true) ->
  zlen A + zlen (s0 :: S') - Z.b2z b + zlen T <= zlen d1 ->
  exists d2 d3 d R1 J',
    (if b then amodify d1 (zlen A - 1) (fun d => ntfs_rl_merge_elt d s0) else Ok d1) = Ok d2 /\
    ntfs_rl_mm d2 (zlen A + zlen (s0 :: S') - Z.b2z b + 0) (zlen A) (zlen T) = Ok d3 /\
    ntfs_rl_mc d3 (zlen A + 0) (s0 :: S' ++ W) (Z.b2z b) (zlen (s0 :: S') - Z.b2z b) = Ok d /\
    d = R1 ++ T ++ J' /\ good 0 se R1 /\ R1 <> [] /\
    (forall w, rl_den R1 w = rl_den (A ++ s0 :: S') w) /\
    zlen R1 = zlen A + zlen (s0 :: S') - Z.b2z b /\ zlen d = zlen d1.
Proof.
  intros GA GS Ed1 Hb Hroom. destruct b; cbn [Z.b2z] in *.
  - destruct Hb as (_ & A' & x & EA & Mx); [done|]. subst A.
    destruct (glue_sound 0 sv se A' x s0 S') as [G1 D1]; [done..|].
    exists (A' ++ ntfs_rl_merge_elt x s0 :: T ++ J1).
    destruct (mm_mc_spec (A' ++ [ntfs_rl_merge_elt x s0]) [] T J1 [s0] S' W []
      (A' ++ ntfs_rl_merge_elt x s0 :: T ++ J1) (s0 :: S' ++ W)
      (zlen (A' ++ [x]) + zlen (s0 :: S') - 1 + 0) (zlen (A' ++ [x])) (zlen (A' ++ [x]) + 0)
      1 (zlen T) (zlen (s0 :: S') - 1) 0) as (d3 & d & J' & E1 & E2 & Ed & L);
      [at_side..|apply (f_equal zlen) in Ed1; zlen_solve|].
    exists d3, d, (A' ++ ntfs_rl_merge_elt x s0 :: S'), J'. split_and!; try done.
    + apply (amodify_at d1 A' x (T ++ J1) _ (fun d => ntfs_rl_merge_elt d s0)); at_side.
    + at_side.
    + by destruct A'.
    + zlen_solve.
    + apply (f_equal zlen) in Ed1. zlen_solve.
  - exists d1.
    destruct (mm_mc_spec A [] T J1 [] (s0 :: S') W [] d1 (s0 :: S' ++ W)
      (zlen A + zlen (s0 :: S') - 0 + 0) (zlen A) (zlen A + 0)
      0 (zlen T) (zlen (s0 :: S') - 0) 0) as (d3 & d & J' & E1 & E2 & Ed & L); [at_side..|].
    exists d3, d, (A ++ s0 :: S'), J'. split_and!; try done.
    + at_side.
    + by eapply good_app.
    + by destruct A.
    + zlen_solve.
Qed.

Lemma rl_insert_hole_spec A h n1 T J S W sv se dsize ssize loc :
  good 0 sv A -> good sv se S -> S <> [] -> all_mapped S ->
  lcn h = LCN_HOLE \/ lcn h = LCN_RL_NOT_MAPPED -> se <= vcn n1 < 2 ^ 63 ->
  dsize = zlen A + 2 + zlen T -> ssize = zlen S -> loc = zlen A ->
  rl_cap dsize <= zlen (A ++ h :: n1 :: T ++ J) ->
  exists R1 J', ntfs_rl_insert (Some (A ++ h :: n1 :: T ++ J)) dsize (Some (S ++ W)) ssize loc
    = Ok (R1 ++ mk_rle se (lcn h) (vcn n1 - se) :: n1 :: T ++ J') /\
    good 0 se R1 /\ (forall w, rl_den R1 w = rl_den (A ++ S) w) /\ zlen A <= zlen R1 /\
    rl_cap (zlen R1 + 2 + zlen T) <=
      zlen (R1 ++ mk_rle se (lcn h) (vcn n1 - se) :: n1 :: T ++ J').
Proof.
  intros GA GS NS MS Lh Hn -> -> -> Hcap.
  pose proof (good_le _ _ _ GA). pose proof (good_le _ _ _ GS).
  destruct S as [|s0 S']; [done|].
  destruct (good_cons_inv _ _ _ _ GS) as (Es0 & Ps0 & Os0 & GS').
  pose proof MS as MS'. apply Forall_cons_1 in MS' as [Ms0 _].
  unfold ntfs_rl_insert. cbn [app]. step_get (@nil runlist_element) s0 (S' ++ W).
  destruct (insert_flags_spec A (h :: n1 :: T ++ J) s0 sv (zlen A)) as (b & -> & Hb); try done; [lia|].
  cbn [mbind res_bind]. zdec. cbn [Z.b2z].
  destruct (realloc_grow (A ++ h :: n1 :: T ++ J) (A ++ h :: n1 :: T) J (zlen A + 2 + zlen T)
    (zlen A + 2 + zlen T + zlen (s0 :: S') - Z.b2z b + 0)) as (d1 & J1 & E1 & Ed1 & C1);
    [done|app_eq|zlen_solve|destruct b; cbn [Z.b2z]; zlen_solve|done|].
  rewrite E1. cbn [mbind res_bind].
  pose proof (rl_cap_ge (zlen A + 2 + zlen T + zlen (s0 :: S') - Z.b2z b + 0)) as Cg.
  destruct (insert_splice A s0 S' W (h :: n1 :: T) J1 d1 b sv se)
    as (d2 & d3 & d & R1 & J' & Ea & Eb & Ec & Ed & GR & NR & DR & LR & Ld);
    [done..|at_side|exact Hb|autorewrite with zlen in *; destruct b; cbn [Z.b2z] in *; zlen_solve|].
  rewrite Ea. cbn [mbind res_bind].
  replace (zlen A + 2 + zlen T - zlen A) with (zlen (h :: n1 :: T)) by zlen_solve.
  rewrite Eb. cbn [mbind res_bind]. rewrite Ec. cbn [mbind res_bind].
  rewrite Z.add_0_r, <- LR. rewrite (insert_fix_vcn d R1 0 se h (n1 :: T ++ J')) by done.
  cbn [mbind res_bind]. step_get R1 (set_vcn h se) (n1 :: T ++ J'). cbn [set_vcn lcn].
  assert ((lcn h =? LCN_HOLE) || (lcn h =? LCN_RL_NOT_MAPPED) = true) as ->
    by (destruct Lh as [-> | ->]; done).
  step_fix_len R1 (set_vcn h se) n1 (T ++ J'). cbn [set_vcn vcn].
  rewrite s64_small by lia. exists R1, J'. split; [done|]. split; [done|]. split; [done|].
  split; [rewrite LR; destruct b; cbn [Z.b2z]; zlen_solve|].
  apply (f_equal zlen) in Ed. autorewrite with zlen in *. rewrite Ld in Ed.
  etransitivity; [|apply (Z.le_trans _ _ _ C1); rewrite Ed]; [apply rl_cap_mono; lia|lia].
Qed.

(** The range from [a] to [b], if not empty, as a run without clusters. *)
Definition gap_run (l a b : Z) : runlist :=
  if a <? b then [mk_rle a l (b - a)] else [].

Lemma gap_run_good l a b : -3 <= l < 0 -> 0 <= a <= b -> b < 2 ^ 63 -> good a b (gap_run l a b).
Proof.
  intros. unfold gap_run. destruct (Z.ltb_spec a b).
  - split; cbn; [lia|lia|]. constructor; [|done]. repeat split; cbn; lia.
  - assert (a = b) as -> by lia. apply good_nil.
Qed.

Lemma gap_run_den l a b w :
  l < 0 -> rl_den (gap_run l a b) w = if (a <=? w) && (w <? b) then Some l else None.
Proof.
  intros. unfold gap_run. destruct (Z.ltb_spec a b); cbn.
  - unfold lcn_at. cbn. replace (a + (b - a)) with b by lia. zdec.
    destruct (Z.leb_spec a w), (Z.ltb_spec w b); done.
  - destruct (Z.leb_spec a w), (Z.ltb_spec w b); cbn; lia || done.
Qed.

(** The element that fills the gap. *)
Lemma insert_gap_fix A g s0 Q De sv :
  good 0 De A -> vcn s0 = sv -> De < sv < 2 ^ 63 ->
  (dst ← (if 0 <? zlen A then dst ← fix_vcn (A ++ g :: s0 :: Q) (zlen A); fix_len dst (zlen A)
          else n ← aget (A ++ g :: s0 :: Q) (zlen A + 1);
               amodify (A ++ g :: s0 :: Q) (zlen A) (fun r => set_len (set_vcn r 0) (vcn n)));
   amodify dst (zlen A) (fun r => set_lcn r LCN_RL_NOT_MAPPED))
  = Ok (A ++ mk_rle De LCN_RL_NOT_MAPPED (sv - De) :: s0 :: Q).
Proof.
  intros GA Es Hgap. destruct A as [|y A0] eqn:EA.
  - destruct GA as [_ E _]. cbn in E. subst De. change (zlen (@nil runlist_element)) with 0. cbn [app].
    change (0 <? 0) with false. cbn match. step_get [g] s0 Q. step_modify (@nil runlist_element) g (s0 :: Q).
    step_modify (@nil runlist_element) (set_len (set_vcn g 0) (vcn s0)) (s0 :: Q).
    rewrite Es, Z.sub_0_r. done.
  - rewrite <- EA in *. assert (A <> []) as NA by (by rewrite EA).
    pose proof (good_le _ _ _ GA).
    destruct (good_last _ _ _ GA NA) as (A' & p & E & Ep & Pp & (O1 & O2 & _) & _).
    assert (0 < zlen A) by (rewrite E; zlen_solve). zdec.
    rewrite (insert_fix_vcn _ A 0 De g (s0 :: Q)) by done. cbn [mbind res_bind].
    step_fix_len A (set_vcn g De) s0 Q. cbn [set_vcn vcn]. rewrite Es, s64_small by lia.
    step_modify A (set_len (set_vcn g De) (sv - De)) (s0 :: Q). done.
Qed.

(** Insertion before an ENOENT terminator, with a gap or without. *)
Lemma rl_insert_end_spec A h J S W De sv se dsize ssize loc :
  good 0 De A -> good sv se S -> S <> [] -> all_mapped S ->
  lcn h = LCN_ENOENT -> De <= sv -> se < 2 ^ 63 ->
  dsize = zlen A + 1 -> ssize = zlen S -> loc = zlen A ->
  rl_cap dsize <= zlen (A ++ h :: J) ->
  exists R1 J', ntfs_rl_insert (Some (A ++ h :: J)) dsize (Some (S ++ W)) ssize loc
    = Ok (R1 ++ set_vcn h se :: J') /\
    good 0 se R1 /\ (forall w, rl_den R1 w = rl_den (A ++ gap_run LCN_RL_NOT_MAPPED De sv ++ S) w) /\
    zlen A <= zlen R1 /\
    rl_cap (zlen R1 + 1) <= zlen (R1 ++ set_vcn h se :: J').
Proof.
  intros GA GS NS MS Lh HDe Hse -> -> -> Hcap.
  pose proof (good_le _ _ _ GA). pose proof (good_le _ _ _ GS).
  destruct S as [|s0 S']; [done|].
  destruct (good_cons_inv _ _ _ _ GS) as (Es0 & Ps0 & Os0 & GS').
  pose proof MS as MS'. apply Forall_cons_1 in MS' as [Ms0 _].
  unfold ntfs_rl_insert. cbn [app]. step_get (@nil runlist_element) s0 (S' ++ W).
  destruct (insert_flags_spec A (h :: J) s0 De (zlen A)) as (b & -> & Hb); try done; [lia|].
  cbn [mbind res_bind]. rewrite Es0.
  destruct (realloc_grow (A ++ h :: J) (A ++ [h]) J (zlen A + 1)
    (zlen A + 1 + zlen (s0 :: S') - Z.b2z b + Z.b2z (De <? sv))) as (d1 & J1 & E1 & Ed1 & C1);
    [done|app_eq|zlen_solve|destruct b, (De <? sv); cbn [Z.b2z]; zlen_solve|done|].
  rewrite E1. cbn [mbind res_bind].
  pose proof (rl_cap_ge (zlen A + 1 + zlen (s0 :: S') - Z.b2z b + Z.b2z (De <? sv))) as Cg.
  unfold gap_run. destruct (Z.ltb_spec De sv) as [Hgap|Hgap]; cbn [Z.b2z] in *.
  - destruct b; [destruct Hb; [done|lia]|]. cbn [Z.b2z] in *. cbn [mbind res_bind].
    step_splice A (@nil runlist_element) [h] J1 (@nil runlist_element) (s0 :: S') W [h] 1.
    assert (d = (A ++ h :: s0 :: S') ++ h :: J') as Ed' by (rewrite Ed; app_eq).
    destruct (good_last _ _ _ GS NS) as (R' & p & EP & Ep & Pp & (O1 & O2 & _) & _).
    rewrite EP in Ed' |- *. step_fix_vcn (A ++ h :: R') p h J'.
    rewrite Ep, s64_small by lia. step_get (A ++ h :: R' ++ [p]) (set_vcn h se) J'.
    cbn [set_vcn lcn]. rewrite Lh.
    change ((LCN_ENOENT =? LCN_HOLE) || (LCN_ENOENT =? LCN_RL_NOT_MAPPED)) with false.
    cbn [mbind res_bind].
    replace ((A ++ h :: R') ++ p :: set_vcn h se :: J')
      with (A ++ h :: s0 :: S' ++ set_vcn h se :: J') by (rewrite (app_comm_cons S'), EP; app_eq).
    replace (mk_rle se LCN_ENOENT (len h)) with (set_vcn h se) by (by rewrite <- Lh).
    rewrite (insert_gap_fix A h s0 (S' ++ set_vcn h se :: J') De sv) by (done || lia).
    exists (A ++ mk_rle De LCN_RL_NOT_MAPPED (sv - De) :: s0 :: S'), J'.
    split; [app_eq|]. split; [|split; [intros w; by rewrite <- EP|split; [zlen_solve|]]].
    + eapply good_app; [done|]. eapply (good_app De sv se [_]); [|done].
      pose proof (gap_run_good LCN_RL_NOT_MAPPED De sv) as G. unfold gap_run in G.
      rewrite (proj2 (Z.ltb_lt De sv)) in G by done. unfold LCN_RL_NOT_MAPPED in *. apply G; lia.
    + apply (f_equal zlen) in Ed'. rewrite <- EP in Ed'. autorewrite with zlen in *. rewrite Ld in Ed'.
      etransitivity; [|apply (Z.le_trans _ _ _ C1); rewrite Ed']; [apply rl_cap_mono; lia|lia].
  - assert (De = sv) as -> by lia.
    destruct (insert_splice A s0 S' W [h] J1 d1 b sv se)
      as (d2 & d3 & d & R1 & J' & Ea & Eb & Ec & Ed & GR & NR & DR & LR & Ld);
      [done..|at_side|exact Hb|autorewrite with zlen in *; destruct b; cbn [Z.b2z] in *; zlen_solve|].
    rewrite Ea. cbn [mbind res_bind].
    replace (zlen A + 1 - zlen A) with (zlen [h]) by zlen_solve.
    rewrite Eb. cbn [mbind res_bind]. rewrite Ec. cbn [mbind res_bind].
    rewrite Z.add_0_r, <- LR. rewrite (insert_fix_vcn d R1 0 se h J') by done.
    cbn [mbind res_bind]. step_get R1 (set_vcn h se) J'. cbn [set_vcn lcn]. rewrite Lh.
    change ((LCN_ENOENT =? LCN_HOLE) || (LCN_ENOENT =? LCN_RL_NOT_MAPPED)) with false.
    cbn [mbind res_bind].
    exists R1, J'. cbn [app]. split; [unfold set_vcn; by rewrite Lh|].
    split; [done|]. split; [done|].
    split; [destruct b; cbn [Z.b2z] in *; zlen_solve|].
    apply (f_equal zlen) in Ed. autorewrite with zlen in *. rewrite Ld in Ed.
    etransitivity; [|apply (Z.le_trans _ _ _ C1); rewrite Ed]; [apply rl_cap_mono; lia|lia].
Qed.

(** The source after its right end has been merged: what [replace] moves in,
    and what is left of the destination after it. *)
Lemma right_merged S' l n1 D2' D2 b sv se De :
  good sv se (S' ++ [l]) -> good se De D2 ->
  (b = true -> D2 = n1 :: D2' /\ ntfs_rl_are_mergeable (Some l) (Some n1) = true) ->
  exists s0 n S2' D2r,
    (if b then S' ++ [ntfs_rl_merge_elt l n1] else S' ++ [l]) = set_len s0 n :: S2' /\
    hd_error (S' ++ [l]) = Some s0 /\ D2r = (if b then D2' else D2) /\
    good sv De ((set_len s0 n :: S2') ++ D2r) /\
    (forall w, rl_den ((set_len s0 n :: S2') ++ D2r) w = rl_den ((S' ++ [l]) ++ D2) w).
Proof.
  intros GS GD Hb. destruct b.
  - destruct Hb as [-> M]; [done|].
    destruct (glue_sound sv se De S' l n1 D2' GS GD M) as [G D].
    destruct S' as [|s0 S0].
    + exists l, (s64 (len l + len n1)), [], D2'. split_and!; done.
    + exists s0, (len s0), (S0 ++ [ntfs_rl_merge_elt l n1]), D2'.
      replace (set_len s0 (len s0)) with s0 by (by destruct s0).
      split_and!; try done; rewrite <- app_comm_cons, <- app_assoc; [exact G|exact D].
  - assert (good sv De ((S' ++ [l]) ++ D2)) as G by (by eapply good_app).
    destruct (S' ++ [l]) as [|s0 S0] eqn:ES; [by destruct S'|].
    exists s0, (len s0), S0, D2.
    replace (set_len s0 (len s0)) with s0 by (by destruct s0). split_and!; done.
Qed.

(** Whether the left end of the source is merged. *)
Lemma needs_left_spec A Q s0 W' loc :
  loc = zlen A ->
  exists b, needs_left (A ++ Q) (s0 :: W') loc = Ok b /\
    (b = true -> exists A' x, A = A' ++ [x] /\
       ntfs_rl_are_mergeable (Some x) (Some s0) = true).
Proof.
  intros ->. unfold needs_left. destruct A as [|y A0] eqn:EA.
  - exists false. done.
  - rewrite <- EA. assert (A <> []) as NA by (by rewrite EA).
    destruct (exists_last NA) as (A' & x & ->).
    assert (0 < zlen (A' ++ [x])) by zlen_solve. zdec.
    step_get A' x Q. step_get (@nil runlist_element) s0 W'. eexists. split; [done|]. eauto.
Qed.

(** Only the place of the second run matters to the test. *)
Lemma mergeable_set_len x s n :
  ntfs_rl_are_mergeable (Some x) (Some (set_len s n)) = ntfs_rl_are_mergeable (Some x) (Some s).
Proof. done. Qed.

(** Merging the left end of [s0 :: S2'] and moving it, and [E] after it, in
    over [X]. *)
Lemma replace_splice A s0 S2' E W X T J1 d1 a v m e p q sz sz' :
  good v m A -> good m e (s0 :: S2') -> d1 = A ++ X ++ T ++ J1 ->
  (a = true -> exists A' x, A = A' ++ [x] /\
     ntfs_rl_are_mergeable (Some x) (Some s0) = true) ->
  p = zlen A + zlen (s0 :: S2' ++ E) - Z.b2z a -> q = zlen A + zlen X -> sz = zlen T ->
  sz' = zlen (s0 :: S2' ++ E) - Z.b2z a ->
  p + zlen T <= zlen d1 ->
  exists d2 d3 d R1 J',
    (if a then s ← aget (s0 :: S2' ++ E ++ W) 0;
       amodify d1 (zlen A - 1) (fun d => ntfs_rl_merge_elt d s) else Ok d1) = Ok d2 /\
    ntfs_rl_mm d2 p q sz = Ok d3 /\
    ntfs_rl_mc d3 (zlen A) (s0 :: S2' ++ E ++ W) (Z.b2z a) sz' = Ok d /\
    d = R1 ++ E ++ T ++ J' /\ good v e R1 /\ R1 <> [] /\
    (forall w, rl_den R1 w = rl_den (A ++ s0 :: S2') w) /\
    zlen R1 = zlen A + zlen (s0 :: S2') - Z.b2z a /\ zlen d = zlen d1.
Proof.
  intros GA GS Ed1 Hb -> -> -> -> Hroom. destruct a; cbn [Z.b2z] in *.
  - destruct Hb as (A' & x & EA & Mx); [done|]. subst A.
    destruct (glue_sound v m e A' x s0 S2') as [G1 D1]; [done..|].
    exists (A' ++ ntfs_rl_merge_elt x s0 :: X ++ T ++ J1).
    destruct (mm_mc_spec (A' ++ [ntfs_rl_merge_elt x s0]) X T J1 [s0] (S2' ++ E) W []
      (A' ++ ntfs_rl_merge_elt x s0 :: X ++ T ++ J1) (s0 :: S2' ++ E ++ W)
      (zlen (A' ++ [x]) + zlen (s0 :: S2' ++ E) - 1) (zlen (A' ++ [x]) + zlen X) (zlen (A' ++ [x]))
      1 (zlen T) (zlen (s0 :: S2' ++ E) - 1) 0) as (d3 & d & J' & E1 & E2 & Ed & L);
      [at_side..|apply (f_equal zlen) in Ed1; zlen_solve|].
    exists d3, d, (A' ++ ntfs_rl_merge_elt x s0 :: S2'), J'. split_and!; try done.
    + step_get (@nil runlist_element) s0 (S2' ++ E ++ W).
      apply (amodify_at d1 A' x (X ++ T ++ J1) _ (fun d => ntfs_rl_merge_elt d s0)); at_side.
    + at_side.
    + by destruct A'.
    + zlen_solve.
    + apply (f_equal zlen) in Ed1. zlen_solve.
  - exists d1.
    destruct (mm_mc_spec A X T J1 [] (s0 :: S2' ++ E) W [] d1 (s0 :: S2' ++ E ++ W)
      (zlen A + zlen (s0 :: S2' ++ E) - 0) (zlen A + zlen X) (zlen A)
      0 (zlen T) (zlen (s0 :: S2' ++ E) - 0) 0) as (d3 & d & J' & E1 & E2 & Ed & L); [at_side..|].
    exists d3, d, (A ++ s0 :: S2'), J'. split_and!; try done.
    + at_side.
    + by eapply good_app.
    + by destruct A.
    + zlen_solve.
Qed.

(** The end-marker fix-up after the inserted runs [R1]. *)
Lemma replace_tail d R1 X2 term J v De :
  good v De (R1 ++ X2) -> R1 <> [] -> vcn term = De ->
  d = R1 ++ X2 ++ term :: J ->
  (m ← aget d (zlen R1); if lcn m =? LCN_ENOENT then fix_vcn d (zlen R1) else Ok d) = Ok d.
Proof.
  intros G N Bt Ed. apply good_app_inv in G as (k & G1 & G2).
  destruct (good_last _ _ _ G1 N) as (R' & p & E1 & Ep & Pp & Op & _).
  destruct (next_vcn k X2 term J) as (t & Q & E2 & Et); [apply G2|by destruct G2; subst|].
  rewrite E2 in Ed. step_get R1 t Q. subst R1.
  apply (fix_end_noop _ R' Q p t); at_side || done.
Qed.

Lemma rl_replace_end_spec A h t M W J De se dsize ssize loc :
  good 0 De A -> good De se M -> M <> [] ->
  dsize = zlen A + 1 -> ssize = zlen M + 1 -> loc = zlen A ->
  rl_cap dsize <= zlen (A ++ h :: J) ->
  exists R1 J', ntfs_rl_replace (Some (A ++ h :: J)) dsize (Some (M ++ t :: W)) ssize loc
    = Ok (R1 ++ t :: J') /\
    good 0 se R1 /\ (forall w, rl_den R1 w = rl_den (A ++ M) w) /\
    zlen A <= zlen R1 /\ rl_cap (zlen R1 + 1) <= zlen (R1 ++ t :: J').
Proof.
  intros GA GM NM -> -> -> Hcap. destruct M as [|s0 M']; [done|]. cbn [app].
  unfold ntfs_rl_replace. unfold needs_right. zdec. cbn [mbind res_bind].
  destruct (needs_left_spec A (h :: J) s0 (M' ++ t :: W) (zlen A)) as (a & -> & Ha); [done|].
  cbn [mbind res_bind Z.b2z].
  assert (exists d1 J1, (if 0 <? zlen (s0 :: M') + 1 - 1 - Z.b2z a - 0
     then ntfs_rl_realloc (A ++ h :: J) (zlen A + 1)
       (zlen A + 1 + (zlen (s0 :: M') + 1 - 1 - Z.b2z a - 0))
     else Ok (A ++ h :: J)) = Ok d1 /\ d1 = A ++ [h] ++ J1 /\
     rl_cap (zlen A + zlen (s0 :: M') + 1 - Z.b2z a) <= zlen d1) as (d1 & J1 & -> & Ed1 & C1).
  { destruct (Z.ltb_spec 0 (zlen (s0 :: M') + 1 - 1 - Z.b2z a - 0)).
    - destruct (realloc_grow (A ++ h :: J) (A ++ [h]) J (zlen A + 1)
        (zlen A + 1 + (zlen (s0 :: M') + 1 - 1 - Z.b2z a - 0))) as (d1 & J1 & E1 & Ed1 & C1);
        [done|app_eq|zlen_solve|destruct a; cbn [Z.b2z]; zlen_solve|done|].
      exists d1, J1. split; [done|]. split; [at_side|].
      etransitivity; [|apply C1]. apply rl_cap_mono. lia.
    - exists (A ++ h :: J), J. split_and!; try done.
      etransitivity; [|apply Hcap]. apply rl_cap_mono. lia. }
  cbn [mbind res_bind].
  pose proof (rl_cap_ge (zlen A + zlen (s0 :: M') + 1 - Z.b2z a)) as Cg.
  destruct (replace_splice A s0 M' [t] W [h] [] J1 d1 a 0 De se
    (zlen A + (zlen (s0 :: M') + 1) - Z.b2z a) (zlen A + 0 + 1) (zlen A + 1 - (zlen A + 0 + 1))
    (zlen (s0 :: M') + 1 - Z.b2z a))
    as (d2 & d3 & d & R1 & J' & Ea & Eb & Ec & Ed & GR & NR & DR & LR & Ld);
    [done|done|done|exact Ha|zlen_solve..| |].
  { destruct a; cbn [Z.b2z] in *; zlen_solve. }
  cbn [app] in Ea, Ec. rewrite Ea. cbn [mbind res_bind]. rewrite Eb. cbn [mbind res_bind]. rewrite Ec.
  cbn [mbind res_bind]. zdec. exists R1, J'. cbn [app] in Ed. subst d. split; [done|]. split; [done|].
  split; [done|]. split; [destruct a; cbn [Z.b2z] in *; zlen_solve|]. rewrite Ld.
  etransitivity; [|apply C1]. apply rl_cap_mono. lia.
Qed.

Lemma rl_replace_hole_spec A h term S D2 W sv se De J dsize ssize loc :
  good 0 sv A -> good sv se S -> S <> [] -> all_mapped S ->
  good se De D2 -> vcn term = De -> lcn term < LCN_HOLE -> De < 2 ^ 63 ->
  dsize = zlen A + 2 + zlen D2 -> ssize = zlen S -> loc = zlen A ->
  rl_cap dsize <= zlen (A ++ h :: D2 ++ term :: J) ->
  exists R J',
    ntfs_rl_replace (Some (A ++ h :: D2 ++ term :: J)) dsize (Some (S ++ W)) ssize loc
      = Ok (R ++ term :: J') /\
    good 0 De R /\ (forall w, rl_den R w = rl_den (A ++ S ++ D2) w) /\
    rl_cap (zlen R + 1) <= zlen (R ++ term :: J').
Proof.
  intros GA GS NS MS GD Bt Lt HDe -> -> -> Hcap.
  destruct (good_last _ _ _ GS NS) as (S' & l & ES & El & Pl & Ol & GS').
  assert (LCN_HOLE <= lcn l) as Ml.
  { unfold all_mapped in MS. rewrite ES in MS. apply Forall_app in MS as [_ M].
    by apply Forall_cons_1 in M as [M _]. }
  rewrite ES in *. unfold ntfs_rl_replace.
  destruct (needs_right_spec A h S' l W D2 term J (zlen A + 2 + zlen D2) (zlen (S' ++ [l])) (zlen A))
    as (b & -> & Hb); [done..|zlen_solve|done|]. cbn [mbind res_bind].
  assert (exists n1 D2', b = true -> D2 = n1 :: D2' /\
    ntfs_rl_are_mergeable (Some l) (Some n1) = true) as (n1 & D2' & Hb').
  { destruct b; [destruct Hb as (n1 & D2' & ?); eauto|by exists h, []]. } clear Hb.
  destruct (right_merged S' l n1 D2' D2 b sv se De GS GD Hb')
    as (s0 & n & S2' & D2r & ES2 & Hd & HD2r & G2 & DD).
  destruct (good_app_inv _ _ _ _ G2) as (e1 & G2a & G2b).
  assert (exists W0, (S' ++ [l]) ++ W = s0 :: W0) as (W0 & EW0).
  { destruct (S' ++ [l]); [done|]. injection Hd as ->. cbn. eauto. }
  rewrite EW0. destruct (needs_left_spec A (h :: D2 ++ term :: J) s0 W0 (zlen A)) as (a & -> & Ha); [done|].
  rewrite <- EW0. cbn [mbind res_bind].
  assert (zlen (S' ++ [l]) = zlen (set_len s0 n :: S2')) as LS2 by (rewrite <- ES2; destruct b; zlen_solve).
  assert (zlen D2 = zlen D2r + Z.b2z b) as LD2.
  { rewrite HD2r. destruct b; cbn [Z.b2z]; [destruct Hb' as [-> _]; [done|]|]; zlen_solve. }
  set (delta := zlen (S' ++ [l]) - 1 - Z.b2z a - Z.b2z b).
  assert (exists d1 J1, (if 0 <? delta then ntfs_rl_realloc (A ++ h :: D2 ++ term :: J)
      (zlen A + 2 + zlen D2) (zlen A + 2 + zlen D2 + delta)
      else Ok (A ++ h :: D2 ++ term :: J)) = Ok d1 /\
     d1 = A ++ (if b then [h; n1] else [h]) ++ (D2r ++ [term]) ++ J1 /\
     rl_cap (zlen A + 2 + zlen D2 + delta) <= zlen d1) as (d1 & J1 & -> & Ed1 & C1).
  { destruct (Z.ltb_spec 0 delta).
    - destruct (realloc_grow (A ++ h :: D2 ++ term :: J) (A ++ h :: D2 ++ [term]) J (zlen A + 2 + zlen D2)
        (zlen A + 2 + zlen D2 + delta)) as (d1 & J1 & E1 & Ed1 & C1);
        [done|app_eq|zlen_solve|lia|done|].
      exists d1, J1. split; [done|]. split; [|done]. rewrite Ed1, HD2r.
      destruct b; [destruct Hb' as [-> _]; [done|]|]; app_eq.
    - exists (A ++ h :: D2 ++ term :: J), J. split; [done|]. split.
      + rewrite HD2r. destruct b; [destruct Hb' as [-> _]; [done|]|]; app_eq.
      + etransitivity; [|apply Hcap]. apply rl_cap_mono. lia. }
  cbn [mbind res_bind].
  assert ((if b then d ← aget d1 (zlen A + 1);
            amodify ((S' ++ [l]) ++ W) (zlen (S' ++ [l]) - 1) (fun s => ntfs_rl_merge_elt s d)
          else Ok ((S' ++ [l]) ++ W)) = Ok (set_len s0 n :: S2' ++ W)) as ->.
  { rewrite app_comm_cons, <- ES2. destruct b; [|done]. step_get (A ++ [h]) n1 ((D2r ++ [term]) ++ J1).
    rewrite (amodify_at _ S' l W) by at_side. app_eq. }
  cbn [mbind res_bind].
  pose proof (rl_cap_ge (zlen A + 2 + zlen D2 + delta)) as Cg.
  destruct (replace_splice A (set_len s0 n) S2' [] W (if b then [h; n1] else [h]) (D2r ++ [term]) J1 d1 a
    0 sv e1 (zlen A + zlen (S' ++ [l]) - Z.b2z a) (zlen A + Z.b2z b + 1)
    (zlen A + 2 + zlen D2 - (zlen A + Z.b2z b + 1)) (zlen (S' ++ [l]) - Z.b2z a))
    as (d2 & d3 & d & R1 & J' & Ea & Eb & Ec & Ed & GR & NR & DR & LR & Ld);
    [done|done|done|exact Ha|zlen_solve|destruct b; cbn [Z.b2z]; zlen_solve|zlen_solve|zlen_solve| |].
  { unfold delta in *. destruct a, b; cbn [Z.b2z] in *; zlen_solve. }
  cbn [app] in Ea, Ec, Ed. rewrite Ea. cbn [mbind res_bind]. rewrite Eb. cbn [mbind res_bind]. rewrite Ec.
  cbn [mbind res_bind]. pose proof (zlen_nonneg D2r). zdec.
  replace (zlen A + zlen (S' ++ [l]) - Z.b2z a) with (zlen R1) by lia.
  rewrite (replace_tail d R1 D2r term J' 0 De);
    [|by eapply good_app|done|done|rewrite Ed; app_eq].
  exists (R1 ++ D2r), J'. split; [rewrite Ed; app_eq|]. split; [by eapply good_app|]. split.
  - intros w. rewrite rl_den_app, DR, <- rl_den_app, <- app_assoc, rl_den_app, DD, <- rl_den_app. done.
  - apply (f_equal zlen) in Ed. rewrite Ld in Ed. autorewrite with zlen in *.
    etransitivity; [|etransitivity; [apply C1|rewrite Ed]]; [apply rl_cap_mono; unfold delta; autorewrite with zlen; lia|lia].
Qed.

End ops.
