(* ===== verification/RunlistMergeThm.v ===== *)
(** What [ntfs_runlists_merge] computes (libntfs/runlist.c).

    The source maps [sv, se); the destination has there a hole or an unmapped
    run, or ends before.  The merged runlist is well formed, means the source
    on [sv, se) and the destination elsewhere, and lies in a memory block of
    the size the next operation expects.  Two theorems at the end show inputs
    outside these conditions that the code does not refuse. *)

From S2P Require Import Prelude Runlist RunlistMerge.

(** ** The two sides of a merge *)

(** A runlist of [D] ended by [term], in a block of the library's size. *)
Record dst_list (drl D : runlist) (term : runlist_element) (De : Z) : Prop := {
  dl_mem : exists J, drl = D ++ term :: J;
  dl_good : good 0 De D;
  dl_term : vcn term = De /\ len term = 0;
  dl_lcn : lcn term = LCN_ENOENT \/ lcn term = LCN_RL_NOT_MAPPED;
  dl_cap : rl_cap (zlen D + 1) <= zlen drl;
  dl_bound : De < 2 ^ 63
}.

(** A runlist that maps [sv, se) by [M], after unmapped elements. *)
Record src_list (srl M : runlist) (t : runlist_element) (sv se : Z) : Prop := {
  sl_mem : exists pre W, srl = pre ++ M ++ t :: W /\
           Forall (fun r => len r <> 0 /\ lcn r < LCN_HOLE) pre;
  sl_good : good sv se M;
  sl_some : M <> [];
  sl_mapped : all_mapped M;
  sl_term : vcn t = se /\ len t = 0;
  sl_lcn : lcn t = LCN_ENOENT \/ lcn t = LCN_RL_NOT_MAPPED
}.

(** The meaning of the merged list. *)
Definition merged_den (D M : runlist) (De sv se w : Z) : option Z :=
  if (sv <=? w) && (w <? se) then rl_den M w
  else if w <? De then rl_den D w
  else if (De <=? w) && (w <? sv) then Some LCN_RL_NOT_MAPPED
  else None.

(** ** Example runlists *)

(** A runlist in a block of [n] elements. *)
Definition in_block (n : nat) (l : runlist) : runlist :=
  l ++ replicate (n - length l) (mk_rle 0 0 0).

(** Ten clusters, a hole of ten, ten clusters. *)
Definition ex_runs : runlist := [mk_rle 0 100 10; mk_rle 10 (-1) 10; mk_rle 20 200 10].
Definition ex_dst : runlist := in_block 170 (ex_runs ++ [mk_rle 30 (-3) 0]).

(** 509 runs of one cluster, ended by an unmapped terminator, in their block. *)
Definition full_runs : runlist :=
  map (fun i => mk_rle (Z.of_nat i) (1000 + 2 * Z.of_nat i) 1) (seq 0 509).
Definition full_dst : runlist := in_block 512 (full_runs ++ [mk_rle 509 (-2) 0]).

(** One cluster at vcn [v]. *)
Definition ex_src (v l n lt : Z) : runlist := in_block 170 [mk_rle v l n; mk_rle (v + n) lt 0].

(** * Proofs *)

(** ** The searches *)

Lemma skip_unmapped_spec pre s Q i :
  Forall (fun r => len r <> 0 /\ lcn r < LCN_HOLE) pre -> LCN_HOLE <= lcn s ->
  skip_unmapped (pre ++ s :: Q) i = Ok (i + zlen pre).
Proof.
  intros F Hs. revert i. induction F as [|r pre [R1 R2] F IH]; intros i; cbn [app skip_unmapped].
  - zdec. rewrite andb_false_r. f_equal. rewrite zlen_nil. lia.
  - zdec. rewrite IH. f_equal. zlen_solve.
Qed.

Lemma find_insert_spec A d Q v sv i :
  good v sv A \/ (exists k, good v k A /\ k <= sv) ->
  len d = 0 \/ (0 <= vcn d /\ 0 <= len d /\ vcn d + len d < 2 ^ 63 /\ sv < vcn d + len d) ->
  find_insert (A ++ d :: Q) i sv = Ok (i + zlen A).
Proof.
  intros HA Hd. assert (exists k, good v k A /\ k <= sv) as (k & G & Hk).
  { destruct HA; [eauto using Z.le_refl|done]. } clear HA.
  revert v i G. induction A as [|r A IH]; intros v i G; cbn [app find_insert].
  - replace (i + zlen []) with i by zlen_solve. destruct (Z.eqb_spec (len d) 0); [done|].
    destruct Hd as [|(? & ? & ? & ?)]; [done|]. rewrite s64_small by lia. zdec. done.
  - apply good_cons_inv in G as (E & P & (O1 & O2 & _) & G). pose proof (good_le _ _ _ G).
    zdec. rewrite s64_small by lia. zdec. rewrite (IH _ _ G). f_equal. zlen_solve.
Qed.

Lemma rl_last_spec R t J v e i :
  good v e R -> len t = 0 -> rl_last (R ++ t :: J) i = Ok (i + zlen R).
Proof.
  intros G Ht. revert v i G. induction R as [|r R IH]; intros v i G; cbn [app rl_last].
  - zdec. f_equal. rewrite zlen_nil. lia.
  - apply good_cons_inv in G as (_ & P & _ & G). zdec. rewrite (IH _ _ G). f_equal. zlen_solve.
Qed.

Lemma rl_end_from_spec P R t J v e i :
  good v e R -> len t = 0 -> i = zlen P ->
  rl_end_from (P ++ R ++ t :: J) i = Ok (zlen P + zlen R).
Proof.
  intros G Ht ->. unfold rl_end_from. rewrite zlen_to_nat, drop_app_length.
  destruct (aget_total (P ++ R ++ t :: J) (zlen P)) as [x ->]; [zlen_solve|]. cbn [mbind res_bind].
  by apply (rl_last_spec R t J v e).
Qed.

(** From any position inside the runs the search ends at the terminator. *)
Lemma rl_end_from_inside R t J v e i :
  good v e R -> len t = 0 -> 0 <= i <= zlen R ->
  rl_end_from (R ++ t :: J) i = Ok (zlen R).
Proof.
  intros G Ht Hi. rewrite <- (take_drop (Z.to_nat i) R) in G |- *.
  apply good_app_inv in G as (k & G1 & G2). rewrite <- app_assoc.
  rewrite (rl_end_from_spec _ _ t J k e) by (done || unfold zlen in *; rewrite length_take; lia).
  f_equal. rewrite !zlen_app. done.
Qed.

Lemma last_mapped_spec P l Q n :
  LCN_HOLE <= lcn l -> Forall (fun r => lcn r < LCN_HOLE) (take n Q) -> (n <= length Q)%nat ->
  last_mapped (P ++ l :: Q) (length P + 1 + n) = Ok (zlen P).
Proof.
  intros Hl. revert Q. induction n as [|n IH]; intros Q F L.
  - rewrite Nat.add_0_r, Nat.add_1_r. cbn [last_mapped].
    rewrite aget_mid by done. cbn [mbind res_bind]. zdec. done.
  - rewrite Nat.add_succ_r. cbn [last_mapped].
    destruct (lookup_lt_is_Some_2 Q n) as [x Hx]; [lia|].
    rewrite (take_S_r Q n x Hx) in F. apply Forall_app in F as [F1 F2].
    apply Forall_cons_1 in F2 as [F2 _].
    assert (aget (P ++ l :: Q) (Z.of_nat (length P + 1 + n)) = Ok x) as ->.
    { apply aget_ok. split; [lia|]. rewrite Nat2Z.id.
      rewrite lookup_app_r by lia. replace (length P + 1 + n - length P)%nat with (S n) by lia. done. }
    cbn [mbind res_bind]. zdec. apply IH; [done|lia].
Qed.

(** ** A hole that is filled *)

Lemma hole_filled A h M D2 sv se De w :
  good 0 De (A ++ h :: D2) -> good sv se M -> lcn h < 0 ->
  vcn h <= sv -> se <= vcn h + len h ->
  rl_den (A ++ gap_run (lcn h) (vcn h) sv ++ M ++ gap_run (lcn h) se (vcn h + len h) ++ D2) w
  = merged_den (A ++ h :: D2) M De sv se w.
Proof.
  intros G GM Lh H1 H2. pose proof (good_le _ _ _ GM).
  apply good_app_inv in G as (k & GA & G).
  destruct (good_cons_inv _ _ _ _ G) as (<- & P & _ & GD).
  pose proof (good_le _ _ _ GA). pose proof (good_le _ _ _ GD).
  unfold merged_den. rewrite !rl_den_app, !gap_run_den by done. cbn [rl_den].
  unfold lcn_at. rewrite (proj2 (Z.leb_gt 0 (lcn h))) by done.
  destruct (decide (w < vcn h)) as [Hw|Hw].
  { zdec. rewrite (rl_den_before sv M) by (apply GM || lia).
    rewrite (rl_den_before _ D2) by (apply GD || lia). done. }
  rewrite (rl_den_after 0 A) by (apply GA || (destruct GA as [_ -> _]; lia)).
  destruct (decide (vcn h + len h <= w)) as [Hw'|Hw'].
  { zdec. rewrite (rl_den_after sv M) by (apply GM || (destruct GM as [_ -> _]; lia)).
    destruct (Z.ltb_spec w De); [done|]. zdec.
    by rewrite (rl_den_after (vcn h + len h) D2) by (apply GD || (destruct GD as [_ -> _]; lia)). }
  destruct (decide (w < sv)) as [Hs|Hs]; [zdec; done|].
  destruct (decide (se <= w)) as [He|He].
  { zdec. by rewrite (rl_den_after sv M) by (apply GM || (destruct GM as [_ -> _]; lia)). }
  zdec. destruct (rl_den M w) eqn:E; [done|].
  apply (rl_den_None sv) in E; [|apply GM]. rewrite (g_end _ _ _ GM) in E. lia.
Qed.

(** Beyond the end of the destination. *)
Lemma end_extended D M De sv se w :
  good 0 De D -> good sv se M -> De <= sv ->
  rl_den (D ++ gap_run LCN_RL_NOT_MAPPED De sv ++ M) w = merged_den D M De sv se w.
Proof.
  intros GD GM H. pose proof (good_le _ _ _ GM). pose proof (good_le _ _ _ GD).
  unfold merged_den. rewrite !rl_den_app, !gap_run_den by done.
  destruct (decide (w < De)) as [Hw|Hw].
  { zdec. rewrite (rl_den_before sv M) by (apply GM || lia). by destruct (rl_den D w). }
  rewrite (rl_den_after 0 D) by (apply GD || (destruct GD as [_ -> _]; lia)).
  destruct (decide (w < sv)) as [Hs|Hs]; [zdec; done|]. zdec.
  destruct (Z.ltb_spec w se); [done|].
  by rewrite (rl_den_after sv M) by (apply GM || (destruct GM as [_ -> _]; lia)).
Qed.

(** ** The dispatch *)

Section dispatch.
Context `{Heap}.

(** What the searches of [merge_both] find. *)
Lemma merge_both_dispatch drl A d Q pre M0 l t W a sv se dend :
  drl = A ++ d :: Q -> good 0 a A -> a <= sv ->
  len d = 0 \/ sv < vcn d + len d ->
  0 <= vcn d -> 0 <= len d -> vcn d + len d < 2 ^ 63 -> lcn d < 0 ->
  rl_end_from drl (zlen A) = Ok dend ->
  Forall (fun r => len r <> 0 /\ lcn r < LCN_HOLE) pre ->
  good sv se (M0 ++ [l]) -> all_mapped (M0 ++ [l]) ->
  len t = 0 -> vcn t = se -> lcn t < LCN_HOLE ->
  let finish0 := (LCN_RL_NOT_MAPPED <=? lcn d) && (vcn d + len d <=? se) in
  merge_both drl (pre ++ (M0 ++ [l]) ++ t :: W) =
    (drl ← merge_into drl (dend + 1) ((M0 ++ [l]) ++ t :: W)
             (zlen (M0 ++ [l]) + (if finish0 && (len d =? 0) then 1 else 0)) (zlen A)
             ((lcn d <? LCN_RL_NOT_MAPPED) || (vcn d =? sv))
             (if (lcn t =? LCN_ENOENT) && (vcn l <? vcn d + len d) then false else finish0);
     if lcn t =? LCN_ENOENT then merge_marker drl dend se else Ok drl).
Proof.
  intros -> GA Ha Hd V0 V1 V2 Ld Hend Fp GM MM Lt Vt Tt finish0.
  destruct (M0 ++ [l]) as [|s0 M'] eqn:EM; [by destruct M0|].
  destruct (good_cons_inv _ _ _ _ GM) as (Es & Ps & Os & _).
  pose proof MM as MM'. apply Forall_cons_1 in MM' as [Ms0 _].
  assert (good sv (vcn l) M0 /\ vcn l + len l = se /\ run_ok l /\ 0 < len l) as (GM0 & El & (O1 & O2 & _) & Pl).
  { rewrite <- EM in GM. apply good_app_inv in GM as (k & G1 & G2).
    destruct (good_cons_inv _ _ _ _ G2) as (<- & ? & ? & [_ E _]). done. }
  assert (LCN_HOLE <= lcn l) as Ml.
  { rewrite <- EM in MM. apply Forall_app in MM as [_ M]. by apply Forall_cons_1 in M as [M _]. }
  unfold merge_both. cbn [app]. rewrite (skip_unmapped_spec pre s0) by done. cbn [mbind res_bind].
  rewrite Z.add_0_l. step_get pre s0 (M' ++ t :: W). zdec.
  rewrite Es, (find_insert_spec A d Q 0 sv 0); [|by right; eauto|destruct Hd; [by left|right; lia]].
  cbn [mbind res_bind]. rewrite Z.add_0_l. step_get A d Q. zdec. rewrite andb_false_r. cbn [andb].
  rewrite app_comm_cons, <- EM in *.
  rewrite (rl_end_from_spec pre (M0 ++ [l]) t W sv se) by done. cbn [mbind res_bind].
  rewrite Hend. cbn [mbind res_bind]. step_get (pre ++ M0 ++ [l]) t W.
  assert (last_mapped (pre ++ (M0 ++ [l]) ++ t :: W) (Z.to_nat (zlen pre + zlen (M0 ++ [l]) + 1))
    = Ok (zlen (pre ++ M0))) as ->.
  { replace (pre ++ (M0 ++ [l]) ++ t :: W) with ((pre ++ M0) ++ l :: t :: W) by app_eq.
    replace (Z.to_nat _) with (length (pre ++ M0) + 1 + 1)%nat
      by (unfold zlen; rewrite !length_app; cbn [length]; lia).
    apply last_mapped_spec; [done|by constructor|cbn [length]; lia]. }
  replace (if lcn t =? LCN_ENOENT then _ else _) with
    (if lcn t =? LCN_ENOENT then (zlen pre + zlen (M0 ++ [l]), se) else (0, 0)) by (by rewrite Vt).
  set (mk := zlen pre + zlen (M0 ++ [l])).
  assert (mk <> 0) as Hmk by (unfold mk; zlen_solve).
  assert (aget (pre ++ (M0 ++ [l]) ++ t :: W) (mk - 1) = Ok l) as El'.
  { apply (aget_at _ (pre ++ M0) l (t :: W)); unfold mk; at_side. }
  rewrite !s64_small by lia. rewrite zlen_to_nat, drop_app_length.
  assert (zlen (pre ++ M0) - zlen pre + 1 = zlen (M0 ++ [l])) as Hss by zlen_solve.
  destruct (lcn t =? LCN_ENOENT); cbn [mbind res_bind andb]; rewrite El'; cbn [mbind res_bind];
    rewrite ?s64_small by lia; rewrite El; fold finish0;
    rewrite Hss, ?(proj2 (Z.eqb_neq mk 0) Hmk), ?Z.eqb_refl; cbn [negb andb];
    destruct (finish0 && (len d =? 0)); rewrite ?Z.add_0_r; done.
Qed.

Hypothesis grants : forall b, heap_grants b = true.

(** A source inside a hole or unmapped run [h] of the destination: one
    lemma for each way [sv, se) meets the ends of [h]. *)
Section hole.
Variables (A : runlist) (h : runlist_element) (D2 : runlist) (term : runlist_element).
Variables (J M : runlist) (t : runlist_element) (W : runlist) (De sv se : Z).
Hypothesis GA : good 0 (vcn h) A.
Hypothesis GD : good (vcn h + len h) De D2.
Hypothesis Vt : vcn term = De.
Hypothesis Tt : lcn term < LCN_HOLE.
Hypothesis HDe : De < 2 ^ 63.
Hypothesis Hcap : rl_cap (zlen A + 2 + zlen D2) <= zlen (A ++ h :: D2 ++ term :: J).
Hypothesis GM : good sv se M.
Hypothesis NM : M <> [].
Hypothesis MM : all_mapped M.
Hypothesis Lh : lcn h = LCN_HOLE \/ lcn h = LCN_RL_NOT_MAPPED.
Hypothesis H1 : vcn h <= sv.
Hypothesis H2 : se <= vcn h + len h.

Definition hole_result (m : res runlist) : Prop :=
  exists R J', m = Ok (R ++ term :: J') /\ good 0 De R /\
    (forall w, rl_den R w = rl_den (A ++ gap_run (lcn h) (vcn h) sv ++ M ++
                                    gap_run (lcn h) se (vcn h + len h) ++ D2) w) /\
    (se < vcn h + len h -> zlen A + 1 + zlen D2 <= zlen R) /\
    rl_cap (zlen R + 1) <= zlen (R ++ term :: J').

Lemma hole_bounds : 0 <= vcn h /\ sv <= se /\ vcn h + len h <= De /\ -3 <= lcn h < 0.
Proof.
  pose proof (good_le _ _ _ GA). pose proof (good_le _ _ _ GM). pose proof (good_le _ _ _ GD).
  unfold LCN_HOLE, LCN_RL_NOT_MAPPED in Lh. lia.
Qed.

Lemma gap_left_good : good (vcn h) sv (gap_run (lcn h) (vcn h) sv).
Proof. pose proof hole_bounds. apply gap_run_good; lia. Qed.

Lemma gap_right_good :
  good se (vcn h + len h) (gap_run (lcn h) se (vcn h + len h)).
Proof. pose proof hole_bounds. apply gap_run_good; lia. Qed.

(** The element after the hole. *)
Lemma hole_next :
  exists n1 T, (forall J, D2 ++ term :: J = n1 :: T ++ J) /\ vcn n1 = vcn h + len h /\
    zlen D2 = zlen T.
Proof.
  destruct (next_vcn (vcn h + len h) D2 term []) as (n1 & T & ET & Vn);
    [apply GD|by destruct GD; subst|].
  exists n1, T. split; [|split; [done|]].
  - intros J0. rewrite (app_comm_cons T J0 n1), <- ET. app_eq.
  - apply (f_equal zlen) in ET. zlen_solve.
Qed.

Lemma hole_replace : vcn h = sv -> vcn h + len h = se ->
  hole_result (ntfs_rl_replace (Some (A ++ h :: D2 ++ term :: J)) (zlen A + 2 + zlen D2)
    (Some (M ++ t :: W)) (zlen M) (zlen A)).
Proof.
  intros E1 E2. rewrite E1 in GA. rewrite E2 in GD.
  destruct (rl_replace_hole_spec grants A h term M D2 (t :: W) sv se De J
    (zlen A + 2 + zlen D2) (zlen M) (zlen A)) as (R & J' & E & GR & DR & CR); try done.
  exists R, J'. unfold gap_run. zdec. split_and!; try done. lia.
Qed.

Lemma hole_insert : vcn h = sv -> se < vcn h + len h ->
  hole_result (ntfs_rl_insert (Some (A ++ h :: D2 ++ term :: J)) (zlen A + 2 + zlen D2)
    (Some (M ++ t :: W)) (zlen M) (zlen A)).
Proof.
  intros E1 E2. pose proof hole_bounds. pose proof gap_right_good as Gr.
  destruct hole_next as (n1 & T & ET & Vn & LT). rewrite (ET J). rewrite (ET J) in Hcap.
  destruct (rl_insert_hole_spec grants A h n1 T J M (t :: W) sv se (zlen A + 2 + zlen D2)
    (zlen M) (zlen A)) as (R1 & J' & E & GR & DR & LR & CR); try done; try lia; [by rewrite <- E1|].
  rewrite Vn in E, CR. unfold hole_result, gap_run in *.
  rewrite (proj2 (Z.ltb_lt se _)) in Gr |- * by lia. rewrite (proj2 (Z.ltb_ge _ sv)) by lia.
  exists (R1 ++ mk_rle se (lcn h) (vcn h + len h - se) :: D2), J'.
  split; [rewrite E, <- (ET J'); app_eq|]. split; [|split; [|split]].
  - eapply good_app; [done|]. by apply (good_app se (vcn h + len h) De [_]).
  - intros w. rewrite rl_den_app, DR, <- rl_den_app. app_eq.
  - intros _. zlen_solve.
  - etransitivity; [|etransitivity; [apply CR|]]; [apply rl_cap_mono; zlen_solve|].
    rewrite <- (ET J'). zlen_solve.
Qed.

Lemma hole_append : vcn h < sv -> vcn h + len h = se ->
  hole_result (ntfs_rl_append (Some (A ++ h :: D2 ++ term :: J)) (zlen A + 2 + zlen D2)
    (Some (M ++ t :: W)) (zlen M) (zlen A)).
Proof.
  intros E1 E2. pose proof hole_bounds. pose proof gap_left_good as Gl. rewrite E2 in GD.
  destruct (rl_append_spec grants A h term M D2 (t :: W) sv se De J
    (zlen A + 2 + zlen D2) (zlen M) (zlen A)) as (R2 & J' & E & GR & DR & CR); try done; [lia|].
  unfold hole_result, gap_run in *.
  rewrite (proj2 (Z.ltb_lt _ sv)) in Gl |- * by lia. rewrite (proj2 (Z.ltb_ge se _)) by lia.
  exists (A ++ set_len h (sv - vcn h) :: R2), J'.
  split; [rewrite E; app_eq|]. split; [|split; [|split]].
  - eapply good_app; [done|]. by apply (good_app _ sv De [_]).
  - intros w. change (mk_rle (vcn h) (lcn h) (sv - vcn h)) with (set_len h (sv - vcn h)).
    cbn [app]. rewrite !(rl_den_app A). cbn [rl_den]. by rewrite DR.
  - lia.
  - etransitivity; [|etransitivity; [apply CR|]]; [apply rl_cap_mono; zlen_solve|zlen_solve].
Qed.

Lemma hole_split : vcn h < sv -> se < vcn h + len h ->
  hole_result (ntfs_rl_split (Some (A ++ h :: D2 ++ term :: J)) (zlen A + 2 + zlen D2)
    (Some (M ++ t :: W)) (zlen M) (zlen A)).
Proof.
  intros E1 E2. pose proof hole_bounds. pose proof gap_left_good as Gl. pose proof gap_right_good as Gr.
  destruct hole_next as (n1 & T & ET & Vn & LT). rewrite (ET J). rewrite (ET J) in Hcap.
  destruct (rl_split_spec grants A h n1 T J M (t :: W) sv se (zlen A + 2 + zlen D2)
    (zlen M) (zlen A)) as (J' & E & CR); try done; try lia.
  rewrite Vn in E, CR. unfold hole_result, gap_run in *.
  rewrite (proj2 (Z.ltb_lt se _)) in Gr |- * by lia. rewrite (proj2 (Z.ltb_lt _ sv)) in Gl |- * by lia.
  exists (A ++ set_len h (sv - vcn h) :: M ++ mk_rle se (lcn h) (vcn h + len h - se) :: D2), J'.
  split; [rewrite E, <- (ET J'); app_eq|]. split; [|split; [|split]].
  - eapply good_app; [done|]. apply (good_app _ sv De [_]); [done|].
    eapply good_app; [done|]. by apply (good_app se (vcn h + len h) De [_]).
  - intros w. done.
  - intros _. zlen_solve.
  - etransitivity; [|etransitivity; [apply CR|]]; [apply rl_cap_mono; zlen_solve|].
    rewrite <- (ET J'). zlen_solve.
Qed.

Lemma hole_merge_into :
  hole_result (merge_into (A ++ h :: D2 ++ term :: J) (zlen A + 2 + zlen D2) (M ++ t :: W)
    (zlen M) (zlen A) (vcn h =? sv) (vcn h + len h <=? se)).
Proof.
  unfold merge_into.
  destruct (Z.eqb_spec (vcn h) sv), (Z.leb_spec (vcn h + len h) se);
    [apply hole_replace|apply hole_insert|apply hole_append|apply hole_split]; lia.
Qed.

End hole.

(** The end marker the source brings: nothing to do but set its lcn. *)
Lemma merge_marker_same R u J e dend :
  good 0 e R -> vcn u = e -> len u = 0 -> 0 <= dend <= zlen R ->
  merge_marker (R ++ u :: J) dend e = Ok (R ++ set_lcn u LCN_ENOENT :: J).
Proof.
  intros G V L Hd. unfold merge_marker. rewrite (rl_end_from_inside R u J 0 e) by done.
  cbn [mbind res_bind]. step_get R u J. rewrite V, Z.leb_refl, Z.eqb_refl. cbn [negb].
  by rewrite aset_mid.
Qed.

(** After the end: the operation for each terminator of the destination. *)
Lemma end_merge_into D term J De M t W sv se :
  good 0 De D -> vcn term = De -> len term = 0 ->
  lcn term = LCN_ENOENT \/ lcn term = LCN_RL_NOT_MAPPED ->
  rl_cap (zlen D + 1) <= zlen (D ++ term :: J) ->
  good sv se M -> M <> [] -> all_mapped M -> vcn t = se -> De <= sv -> se < 2 ^ 63 ->
  (lcn term = LCN_RL_NOT_MAPPED -> De < sv ->
     zlen D + zlen M + 2 < rl_cap (zlen D + zlen M + 2)) ->
  exists R J',
    merge_into (D ++ term :: J) (zlen D + 1) (M ++ t :: W)
      (zlen M + (if LCN_RL_NOT_MAPPED <=? lcn term then 1 else 0)) (zlen D)
      ((lcn term <? LCN_RL_NOT_MAPPED) || (De =? sv)) (LCN_RL_NOT_MAPPED <=? lcn term)
    = Ok (R ++ (if LCN_RL_NOT_MAPPED <=? lcn term then t else set_vcn term se) :: J') /\
    good 0 se R /\
    (forall w, rl_den R w = rl_den (D ++ gap_run LCN_RL_NOT_MAPPED De sv ++ M) w) /\
    zlen D <= zlen R /\
    rl_cap (zlen R + 1) <=
      zlen (R ++ (if LCN_RL_NOT_MAPPED <=? lcn term then t else set_vcn term se) :: J').
Proof.
  intros GD Vt Lt Tt Hcap GM NM MM Vs Hsv Hse Hroom. unfold merge_into.
  pose proof (good_le _ _ _ GD). pose proof (good_le _ _ _ GM).
  destruct Tt as [Tt|Tt]; rewrite Tt in *.
  - change (LCN_RL_NOT_MAPPED <=? LCN_ENOENT) with false.
    change (LCN_ENOENT <? LCN_RL_NOT_MAPPED) with true. cbn [orb]. rewrite Z.add_0_r.
    apply (rl_insert_end_spec grants); done.
  - change (LCN_RL_NOT_MAPPED <=? LCN_RL_NOT_MAPPED) with true.
    change (LCN_RL_NOT_MAPPED <? LCN_RL_NOT_MAPPED) with false. cbn [orb].
    destruct (Z.eqb_spec De sv) as [<-|E].
    + unfold gap_run. rewrite Z.ltb_irrefl. by apply (rl_replace_end_spec grants) with (De := De).
    + destruct (rl_append_end_spec grants D term t M W sv J (zlen D + 1) (zlen M + 1) (zlen D))
        as (J' & E1 & C1); rewrite ?Vs; try done; try lia.
      { specialize (Hroom eq_refl ltac:(lia)).
        replace (zlen D + 1 + (zlen M + 1)) with (zlen D + zlen M + 2) by lia. done. }
      pose proof (gap_run_good LCN_RL_NOT_MAPPED De sv) as Gg. unfold gap_run in *.
      rewrite (proj2 (Z.ltb_lt De sv)) in Gg |- * by lia.
      assert (set_len term (sv - vcn term) = mk_rle De LCN_RL_NOT_MAPPED (sv - De)) as Es
        by (unfold set_len; by rewrite Vt, Tt).
      rewrite Es in *. eexists (D ++ mk_rle De LCN_RL_NOT_MAPPED (sv - De) :: M), J'.
      split; [rewrite E1; app_eq|]. split; [|split; [done|split; [zlen_solve|]]].
      * eapply good_app; [done|]. apply (good_app De sv se [_]); [|done].
        apply Gg; unfold LCN_RL_NOT_MAPPED; lia.
      * etransitivity; [|etransitivity; [apply C1|]]; [apply rl_cap_mono; zlen_solve|zlen_solve].
Qed.

End dispatch.

Lemma merge_fills_hole `{Heap} drl srl A h D2 term De M t sv se :
  (forall b, heap_grants b = true) ->
  dst_list drl (A ++ h :: D2) term De -> src_list srl M t sv se ->
  lcn t = LCN_RL_NOT_MAPPED \/ se < vcn h + len h ->
  lcn h = LCN_HOLE \/ lcn h = LCN_RL_NOT_MAPPED -> vcn h <= sv -> se <= vcn h + len h ->
  exists rl R, ntfs_runlists_merge (Some drl) (Some srl) = Ok (Some rl) /\
    dst_list rl R term De /\
    forall w, rl_den R w = merged_den (A ++ h :: D2) M De sv se w.
Proof.
  intros grants [(J & Ed) GD (Vt & Lt) Tt Hcap HDe] [(pre & W & Es & Fp) GM NM MM (Vs & Ls) Tt'] Ts Lh H1 H2.
  assert (lcn h < 0) by (unfold LCN_HOLE, LCN_RL_NOT_MAPPED in Lh; lia).
  assert (lcn term < LCN_HOLE) by (destruct Tt as [-> | ->]; done).
  pose proof (good_le _ _ _ GM). pose proof GD as GD'.
  apply good_app_inv in GD' as (k & GA & G). destruct (good_cons_inv _ _ _ _ G) as (<- & P & (O1 & O2 & _) & GD2).
  destruct (good_last _ _ _ GM NM) as (M0 & l & EM & El & Pl & _ & GM0).
  pose proof (good_le _ _ _ GM0).
  assert (drl = A ++ h :: D2 ++ term :: J) as Ed' by (rewrite Ed; app_eq).
  unfold ntfs_runlists_merge, ntfs_runlists_merge_i. rewrite Es, EM.
  rewrite (merge_both_dispatch drl A h (D2 ++ term :: J) pre M0 l t W (vcn h) sv se (zlen A + 1 + zlen D2));
    rewrite ?EM in *; try done; try lia; [| |by destruct Tt' as [-> | ->]].
  - assert ((len h =? 0) = false) as -> by (apply Z.eqb_neq; lia).
    rewrite andb_false_r, Z.add_0_r.
    assert ((lcn h <? LCN_RL_NOT_MAPPED) = false) as ->
      by (destruct Lh as [-> | ->]; done).
    assert ((LCN_RL_NOT_MAPPED <=? lcn h) = true) as -> by (destruct Lh as [-> | ->]; done).
    cbn [orb andb]. rewrite Ed'.
    assert ((if (lcn t =? LCN_ENOENT) && (vcn l <? vcn h + len h) then false else vcn h + len h <=? se) = (vcn h + len h <=? se)) as ->.
    { destruct (Z.eqb_spec (lcn t) LCN_ENOENT) as [Et|]; [|done]. destruct Ts as [Ts|Ts]; [by rewrite Ts in Et|].
      destruct (_ <? _); cbn [andb]; [|done]. symmetry. apply Z.leb_gt. lia. }
    replace (zlen A + 1 + zlen D2 + 1) with (zlen A + 2 + zlen D2) by lia.
    destruct (hole_merge_into grants A h D2 term J (M0 ++ [l]) t W De sv se) as (R & J' & -> & GR & DR & LR & CR);
      try done.
    { rewrite <- Ed'. etransitivity; [|apply Hcap]. apply rl_cap_mono. zlen_solve. }
    cbn [mbind res_bind].
    assert ((if lcn t =? LCN_ENOENT then merge_marker (R ++ term :: J') (zlen A + 1 + zlen D2) se else Ok (R ++ term :: J')) = Ok (R ++ term :: J')) as ->.
    { destruct (Z.eqb_spec (lcn t) LCN_ENOENT) as [Et|]; [|done]. destruct Ts as [Ts|Ts]; [by rewrite Ts in Et|].
      pose proof (good_le _ _ _ GD2). pose proof (zlen_nonneg A). pose proof (zlen_nonneg D2).
      unfold merge_marker. rewrite (rl_end_from_inside R term J' 0 De) by (done || lia). cbn [mbind res_bind]. step_get R term J'. rewrite Vt. by zdec. }
    cbn [mbind res_bind]. eexists (R ++ term :: J'), R. split; [done|]. split.
    + split; eauto.
    + intros w. rewrite DR. by apply hole_filled.
  - rewrite Ed'. replace (A ++ h :: D2 ++ term :: J) with (A ++ (h :: D2) ++ term :: J) by app_eq.
    rewrite (rl_end_from_spec A (h :: D2) term J (vcn h) De) by done. f_equal. zlen_solve.
Qed.

(** C1: merging a source that lies inside a hole or an unmapped run of the
    destination succeeds when memory does not run out, and gives a well-formed
    runlist with the terminator of the destination that maps every vcn of the
    source as the source does and every other vcn as the destination did.  The
    source may end with LCN_RL_NOT_MAPPED or LCN_ENOENT, but with the latter it
    must end before the hole does ([merge_enoent_cuts] shows what happens
    otherwise). *)
Theorem runlists_merge_fills_hole `{Heap} drl srl A h D2 term De M t sv se :
  (forall b, heap_grants b = true) ->
  dst_list drl (A ++ h :: D2) term De -> src_list srl M t sv se ->
  lcn t = LCN_RL_NOT_MAPPED \/ se < vcn h + len h ->
  lcn h = LCN_HOLE \/ lcn h = LCN_RL_NOT_MAPPED -> vcn h <= sv -> se <= vcn h + len h ->
  exists rl R, ntfs_runlists_merge (Some drl) (Some srl) = Ok (Some rl) /\
    dst_list rl R term De /\
    forall w, rl_den R w = merged_den (A ++ h :: D2) M De sv se w.
Proof. apply merge_fills_hole. Qed.

(** a source at or after the end of the destination. *)
Theorem runlists_merge_extends `{Heap} drl srl D term De M t sv se :
  (forall b, heap_grants b = true) ->
  dst_list drl D term De -> src_list srl M t sv se -> De <= sv -> se < 2 ^ 63 ->
  (lcn term = LCN_RL_NOT_MAPPED -> De < sv ->
     zlen D + zlen M + 2 < rl_cap (zlen D + zlen M + 2)) ->
  exists rl R u, ntfs_runlists_merge (Some drl) (Some srl) = Ok (Some rl) /\
    dst_list rl R u se /\
    (lcn u = LCN_ENOENT <-> lcn term = LCN_ENOENT \/ lcn t = LCN_ENOENT) /\
    forall w, rl_den R w = merged_den D M De sv se w.
Proof.
  intros grants [(J & ->) GD (Vt & Lt) Tt Hcap HDe] [(pre & W & -> & Fp) GM NM MM (Vs & Ls) Ts] Hsv Hse Hroom.
  pose proof (good_le _ _ _ GM). pose proof (good_le _ _ _ GD).
  destruct (good_last _ _ _ GM NM) as (M0 & l & EM & El & Pl & _ & GM0). pose proof (good_le _ _ _ GM0).
  assert (lcn term < 0) by (destruct Tt as [-> | ->]; done).
  unfold ntfs_runlists_merge, ntfs_runlists_merge_i. rewrite EM.
  rewrite (merge_both_dispatch (D ++ term :: J) D term J pre M0 l t W De sv se (zlen D));
    rewrite ?EM in *; try done; try lia;
    [|by rewrite (rl_end_from_spec D [] term J De De), zlen_nil, Z.add_0_r by (done || apply good_nil)
     |destruct Ts as [-> | ->]; done].
  rewrite Lt, Vt, Z.add_0_r, (proj2 (Z.leb_le De se)), (proj2 (Z.ltb_ge (vcn l) De)) by lia.
  rewrite !andb_true_r, andb_false_r.
  destruct (end_merge_into grants D term J De (M0 ++ [l]) t W sv se) as (R & J' & -> & GR & DR & LR & CR);
    try done. cbn [mbind res_bind].
  set (u := if LCN_RL_NOT_MAPPED <=? lcn term then t else set_vcn term se) in *.
  assert (vcn u = se /\ len u = 0 /\ (lcn u = LCN_ENOENT \/ lcn u = LCN_RL_NOT_MAPPED) /\
    (lcn t <> LCN_ENOENT -> lcn u = LCN_ENOENT <-> lcn term = LCN_ENOENT)) as (Vu & Lu & Tu & Iu).
  { unfold u. destruct Tt as [Tt | Tt]; rewrite Tt; cbn; split_and!; try done; auto. }
  destruct (Z.eqb_spec (lcn t) LCN_ENOENT) as [E|E].
  - rewrite (merge_marker_same R u J' se) by (done || zlen_solve). cbn [mbind res_bind].
    eexists _, R, (set_lcn u LCN_ENOENT). split; [done|]. split; [split; eauto; cbn; auto; zlen_solve|].
    split; [cbn; tauto|]. intros w. rewrite DR. by apply end_extended.
  - eexists _, R, u. split; [done|]. split; [split; eauto|]. split; [tauto|].
    intros w. rewrite DR. by apply end_extended.
Qed.

(** * Witnesses and limits *)

Lemma ex_dst_list : dst_list ex_dst ex_runs (mk_rle 30 (-3) 0) 30.
Proof.
  split.
  - eexists. reflexivity.
  - split; [cbn; lia|reflexivity|]. repeat constructor; cbn; lia.
  - done.
  - by left.
  - vm_compute. discriminate.
  - lia.
Defined.

Lemma ex_src_list v l n lt :
  0 <= v -> 0 < n -> 0 <= l -> l + n < 2 ^ 63 -> v + n < 2 ^ 63 ->
  lt = LCN_ENOENT \/ lt = LCN_RL_NOT_MAPPED ->
  src_list (ex_src v l n lt) [mk_rle v l n] (mk_rle (v + n) lt 0) v (v + n).
Proof.
  intros. split.
  - exists [], (replicate 168 (mk_rle 0 0 0)). split; [done|constructor].
  - split; [cbn; lia|reflexivity|]. repeat constructor; cbn; lia.
  - done.
  - constructor; [cbn; unfold LCN_HOLE; lia|constructor].
  - done.
  - done.
Defined.

Lemma runlists_merge_fills_hole_witness :
  exists rl R, ntfs_runlists_merge (H := ample_heap) (Some ex_dst) (Some (ex_src 12 150 3 (-2)))
      = Ok (Some rl) /\
    dst_list rl R (mk_rle 30 (-3) 0) 30 /\
    forall w, rl_den R w = merged_den ex_runs [mk_rle 12 150 3] 30 12 15 w.
Proof.
  apply (runlists_merge_fills_hole (H := ample_heap) ex_dst (ex_src 12 150 3 (-2))
    [mk_rle 0 100 10] (mk_rle 10 (-1) 10) [mk_rle 20 200 10] (mk_rle 30 (-3) 0) 30
    [mk_rle 12 150 3] (mk_rle 15 (-2) 0) 12 15).
  - reflexivity.
  - exact ex_dst_list.
  - apply (ex_src_list 12 150 3 (-2)); try lia. by right.
  - by left.
  - by left.
  - cbn. lia.
  - cbn. lia.
Defined.

Lemma runlists_merge_extends_witness :
  exists rl R u, ntfs_runlists_merge (H := ample_heap) (Some ex_dst) (Some (ex_src 40 300 5 (-3)))
      = Ok (Some rl) /\
    dst_list rl R u 45 /\
    (lcn u = LCN_ENOENT <-> -3 = LCN_ENOENT \/ -3 = LCN_ENOENT) /\
    forall w, rl_den R w = merged_den ex_runs [mk_rle 40 300 5] 30 40 45 w.
Proof.
  apply (runlists_merge_extends (H := ample_heap) ex_dst (ex_src 40 300 5 (-3))
    ex_runs (mk_rle 30 (-3) 0) 30 [mk_rle 40 300 5] (mk_rle 45 (-3) 0) 40 45).
  - reflexivity.
  - exact ex_dst_list.
  - apply (ex_src_list 40 300 5 (-3)); try lia. by left.
  - lia.
  - lia.
  - cbn. discriminate.
Defined.

(** A source with the terminator LCN_ENOENT that ends exactly with a hole in the
    middle of the destination: the test for the end marker makes the code insert
    the source instead of replacing the hole, an element of length zero is left
    behind it that ends the list, and the run behind it is taken for a hole. *)
Theorem merge_enoent_cuts :
  rl_den ex_runs 25 = Some 205 /\
  exists rl, ntfs_runlists_merge (H := ample_heap) (Some ex_dst) (Some (ex_src 10 150 10 (-3)))
      = Ok (Some rl) /\
    take 3 rl = [mk_rle 0 100 10; mk_rle 10 150 10; mk_rle 20 (-1) 0] /\
    ntfs_rl_vcn_to_lcn (Some rl) 25 = Ok LCN_HOLE.
Proof.
  split; [reflexivity|]. destruct (ntfs_runlists_merge _ _) as [[rl|]| |] eqn:E; [|vm_compute in E; discriminate..].
  exists rl. split; [done|]. vm_compute in E. injection E as <-. split; vm_compute; reflexivity.
Qed.

(** A source that overlaps the middle of a mapped run is accepted; the
    clusters after it are then looked up at wrong places. *)
Theorem merge_overlap_not_refused :
  rl_den ex_runs 7 = Some 107 /\
  exists rl, ntfs_runlists_merge (H := ample_heap) (Some ex_dst) (Some (ex_src 2 300 3 (-2)))
      = Ok (Some rl) /\
    ntfs_rl_vcn_to_lcn (Some rl) 7 = Ok 102.
Proof.
  split; [reflexivity|].
  exists (in_block 170 [mk_rle 0 100 2; mk_rle 2 300 3; mk_rle 5 100 5; mk_rle 10 (-1) 10;
    mk_rle 20 200 10; mk_rle 30 (-3) 0]).
  split; vm_compute; reflexivity.
Qed.

Lemma full_dst_list : dst_list full_dst full_runs (mk_rle 509 (-2) 0) 509.
Proof.
  split.
  - exists [mk_rle 0 0 0; mk_rle 0 0 0]. vm_compute. reflexivity.
  - split.
    + unfold full_runs. generalize 509%nat. intros n.
      assert (forall k, contig (Z.of_nat k)
        (map (fun i => mk_rle (Z.of_nat i) (1000 + 2 * Z.of_nat i) 1) (seq k n))) as C.
      { induction n as [|n IH]; intros k; cbn; [done|]. split_and!; [done|lia|].
        replace (Z.of_nat k + 1) with (Z.of_nat (S k)) by lia. apply IH. }
      apply (C 0%nat).
    + vm_compute. reflexivity.
    + unfold full_runs. apply List.Forall_forall. intros r.
      rewrite in_map_iff. intros (i & <- & Hi%in_seq).
      unfold run_ok. cbn [vcn len lcn]. lia.
  - done.
  - by right.
  - vm_compute. discriminate.
  - lia.
Qed.

(** Appending after a NOT_MAPPED terminator reads the element behind the
    result, which is outside the memory block when the result fills it. *)
Theorem merge_append_overread :
  dst_list full_dst full_runs (mk_rle 509 (-2) 0) 509 /\
  src_list (ex_src 600 5000 1 (-2)) [mk_rle 600 5000 1] (mk_rle 601 (-2) 0) 600 601 /\
  ntfs_runlists_merge (H := ample_heap) (Some full_dst) (Some (ex_src 600 5000 1 (-2))) = Undef.
Proof.
  split; [exact full_dst_list|]. split; [|vm_compute; reflexivity].
  apply (ex_src_list 600 5000 1 (-2)); try lia. by right.
Qed.
