(* ===== verification/MappingPairs.v ===== *)
(** Mapping pairs arrays (libntfs/runlist.c): the on-disk form of a runlist.

    [ntfs_mapping_pairs_build] writes a runlist into a byte buffer,
    [ntfs_get_size_for_mapping_pairs] computes how many bytes that takes, and
    [ntfs_mapping_pairs_decompress_i] reads an array back and merges the
    result into an existing runlist.  An entry is a header byte (length size
    in the low nibble, lcn size in the high one), the run length and the
    change of the lcn, both little-endian signed of minimal width; a hole has
    no lcn on NTFS 3.0 and later.

    A byte buffer is the list of its bytes.  A loop over [rl++] recurses on
    the elements from the current one on and counts its index. *)

From S2P Require Import Prelude Volume Runlist RunlistMerge.

(** ** Numbers of variable width *)

(** [do { i++; l >>= 8; } while (l);] *)
Fixpoint count_bytes (fuel : nat) (i l : Z) : res Z :=
  match fuel with
  | O => Undef
  | S fuel =>
      let i := i + 1 in
      let l := Z.shiftr l 8 in
      if l =? 0 then Ok i else count_bytes fuel i l
  end.

(** [l] has 64 bits, so 8 rounds empty it. *)
Definition ntfs_get_nr_significant_bytes (n : Z) : res Z :=
  let l := u64 (if n <? 0 then Z.lnot n else n) in
  if 128 <=? l then count_bytes 8 1 (Z.shiftr l 7) else Ok 1.

(** [while ((l > 0x7f) || (l < -0x80))]; [None] is the ENOSPC return. *)
Fixpoint write_bytes_loop (fuel : nat) (buf : list Z) (dst dst_max l i : Z)
    : res (list Z * option Z) :=
  if (0x7f <? l) || (l <? -0x80) then
    match fuel with
    | O => Undef
    | S fuel =>
        if dst_max <? dst then Ok (buf, None) else
        let l := Z.shiftr l 8 in
        buf ← aset buf dst (u8 l);
        write_bytes_loop fuel buf (dst + 1) dst_max l (i + 1)
    end
  else Ok (buf, Some i).

Definition ntfs_write_significant_bytes (buf : list Z) (dst dst_max n : Z)
    : res (list Z * option Z) :=
  if dst_max <? dst then Ok (buf, None) else
  buf ← aset buf dst (u8 n);
  write_bytes_loop 8 buf (dst + 1) dst_max n 1.

(** ** Size of the array *)

(** [while (rl->length && start_vcn >= rl[1].vcn) rl++;], the elements from
    the one found on, and its index. *)
Fixpoint skip_to (rl : runlist) (i start_vcn : Z) : res (runlist * Z) :=
  match rl with
  | [] => Undef
  | r :: rl' =>
      if negb (len r =? 0) then
        match rl' with
        | [] => Undef
        | r1 :: _ =>
            if vcn r1 <=? start_vcn then skip_to rl' (i + 1) start_vcn else Ok (rl, i)
        end
      else Ok (rl, i)
  end.

(** [rl->lcn >= 0 || vol->major_ver < 3]: the lcn of the run is stored. *)
Definition stores_lcn (vol : ntfs_volume) (l : Z) : bool :=
  (0 <=? l) || (major_ver vol <? 3).

(** The [err_out] errno. *)
Definition bad_run_errno (r : runlist_element) : errno :=
  if lcn r =? LCN_RL_NOT_MAPPED then EINVAL else EIO.

(** [rl->length < 0 || rl->lcn < LCN_HOLE] *)
Definition bad_run (r : runlist_element) : bool :=
  (len r <? 0) || (lcn r <? LCN_HOLE).

(** Bytes of one entry: header, length, and lcn change where stored. *)
Definition entry_size (vol : ntfs_volume) (r : runlist_element) (n delta : Z) : res Z :=
  a ← ntfs_get_nr_significant_bytes n;
  b ← (if stores_lcn vol (lcn r) then ntfs_get_nr_significant_bytes delta else Ok 0);
  Ok (1 + a + b).

(** [for (; rl->length && (rls <= max_size); rl++)] *)
Fixpoint mp_size_loop (vol : ntfs_volume) (rl : runlist) (prev_lcn rls max_size : Z) : res Z :=
  match rl with
  | [] => Undef
  | r :: rl =>
      if negb (len r =? 0) && (rls <=? max_size) then
        if bad_run r then Err (bad_run_errno r) else
        n ← entry_size vol r (len r) (s64 (lcn r - prev_lcn));
        mp_size_loop vol rl (if stores_lcn vol (lcn r) then lcn r else prev_lcn)
          (s32 (rls + n)) max_size
      else Ok rls
  end.

(** [prev_lcn = rl->lcn; if (rl->lcn >= 0) prev_lcn += delta;] *)
Definition partial_lcn (r : runlist_element) (delta : Z) : Z :=
  if 0 <=? lcn r then s64 (lcn r + delta) else lcn r.

Definition ntfs_get_size_for_mapping_pairs (vol : ntfs_volume) (rl : option runlist)
    (start_vcn max_size : Z) : res Z :=
  if start_vcn <? 0 then Err EINVAL else
  match rl with
  | None => if negb (start_vcn =? 0) then Err EINVAL else Ok 1
  | Some rl =>
      '(rl, _) ← skip_to rl 0 start_vcn;
      r ← aget rl 0;
      if ((len r =? 0) && (vcn r <? start_vcn)) || (start_vcn <? vcn r) then Err EINVAL else
      if vcn r <? start_vcn then
        if bad_run r then Err (bad_run_errno r) else
        let delta := s64 (start_vcn - vcn r) in
        let pl := partial_lcn r delta in
        n ← entry_size vol r (s64 (len r - delta)) pl;
        mp_size_loop vol (tail rl) (if stores_lcn vol (lcn r) then pl else 0)
          (s32 (1 + n)) max_size
      else mp_size_loop vol rl 0 1 max_size
  end.

(** ** Building the array *)

(** What a call leaves: the buffer, the index stored in [*stop_rl] if any, and
    the errno of the -1 return. *)
Record build_out := mk_build { b_buf : list Z; b_stop : option Z; b_err : option errno }.

(** One entry at [dst]: the length [n], the change [delta] where the lcn of
    [r] is stored, then the header byte.  The position of the next entry, or
    [None] where the code jumps to [size_err]. *)
Definition mp_emit (vol : ntfs_volume) (buf : list Z) (dst dst_max : Z)
    (r : runlist_element) (n delta : Z) : res (list Z * option Z) :=
  '(buf, len_len) ← ntfs_write_significant_bytes buf (dst + 1) dst_max n;
  match len_len with
  | None => Ok (buf, None)
  | Some len_len =>
      '(buf, lcn_len) ← (if stores_lcn vol (lcn r)
                         then ntfs_write_significant_bytes buf (dst + 1 + len_len) dst_max delta
                         else Ok (buf, Some 0));
      match lcn_len with
      | None => Ok (buf, None)
      | Some lcn_len =>
          let dst_next := dst + len_len + lcn_len + 1 in
          if dst_max <? dst_next then Ok (buf, None) else
          buf ← aset buf dst (u8 (Z.lor (Z.shiftl lcn_len 4) len_len));
          Ok (buf, Some dst_next)
      end
  end.

(** [size_err]: stop at the current element and terminate the array. *)
Definition size_err (buf : list Z) (dst i : Z) : res build_out :=
  buf ← aset buf dst 0; Ok (mk_build buf (Some i) (Some ENOSPC)).

(** [for (; rl->length; rl++)], then the terminator. *)
Fixpoint mp_build_loop (vol : ntfs_volume) (buf : list Z) (dst dst_max prev_lcn : Z)
    (rl : runlist) (i : Z) : res build_out :=
  match rl with
  | [] => Undef
  | r :: rl =>
      if len r =? 0 then
        buf ← aset buf dst 0; Ok (mk_build buf (Some i) None)
      else if bad_run r then Ok (mk_build buf None (Some (bad_run_errno r)))
      else
        '(buf, next) ← mp_emit vol buf dst dst_max r (len r) (s64 (lcn r - prev_lcn));
        match next with
        | None => size_err buf dst i
        | Some next =>
            mp_build_loop vol buf next dst_max
              (if stores_lcn vol (lcn r) then lcn r else prev_lcn) rl (i + 1)
        end
  end.

Definition ntfs_mapping_pairs_build (vol : ntfs_volume) (dst : list Z) (dst_len : Z)
    (rl : option runlist) (start_vcn : Z) : res build_out :=
  if start_vcn <? 0 then Ok (mk_build dst None (Some EINVAL)) else
  match rl with
  | None =>
      if negb (start_vcn =? 0) then Ok (mk_build dst None (Some EINVAL))
      else if dst_len <? 1 then Ok (mk_build dst None (Some ENOSPC))
      else buf ← aset dst 0 0; Ok (mk_build buf None None)
  | Some rl =>
      '(rl, i) ← skip_to rl 0 start_vcn;
      r ← aget rl 0;
      if ((len r =? 0) && (vcn r <? start_vcn)) || (start_vcn <? vcn r)
      then Ok (mk_build dst None (Some EINVAL)) else
      let dst_max := dst_len - 1 in
      if vcn r <? start_vcn then
        if bad_run r then Ok (mk_build dst None (Some (bad_run_errno r))) else
        let delta := s64 (start_vcn - vcn r) in
        let pl := partial_lcn r delta in
        '(buf, next) ← mp_emit vol dst 0 dst_max r (s64 (len r - delta)) pl;
        match next with
        | None => size_err buf 0 i
        | Some next =>
            mp_build_loop vol buf next dst_max (if stores_lcn vol (lcn r) then pl else 0)
              (tail rl) (i + 1)
        end
      else mp_build_loop vol dst 0 dst_max 0 rl i
  end.

(** ** Reading the array *)

(** The header fields of a non-resident attribute record that are read here,
    and the memory from the start of the record on. *)
Record attr_record := mk_attr {
  non_resident : bool;
  lowest_vcn : Z;
  highest_vcn : Z;
  allocated_size : Z;
  mapping_pairs_offset : Z;
  attr_length : Z;
  attr_mem : list Z
}.

(** [deltaxcn = (deltaxcn << 8) + buf[b];] for [n] bytes downwards from [b]. *)
Fixpoint mp_number_loop (mem : list Z) (p b : Z) (n : nat) (deltaxcn : Z) : res Z :=
  match n with
  | O => Ok deltaxcn
  | S n =>
      x ← aget mem (p + b);
      mp_number_loop mem p (b - 1) n (s64 (Z.shiftl deltaxcn 8 + x))
  end.

(** [for (deltaxcn = (s8)buf[b--]; b > lo; b--) ...] *)
Definition mp_number (mem : list Z) (p b lo : Z) : res Z :=
  x ← aget mem (p + b);
  mp_number_loop mem p (b - 1) (Z.to_nat (b - 1 - lo)) (s8 x).

(** The local variables of the loop: [buf] is an offset into the record. *)
Record mp_state := mk_mp {
  m_vcn : Z;
  m_lcn : Z;
  m_buf : Z;
  m_rl : runlist;
  m_rlpos : Z;
  m_rlsize : Z
}.

(** Ways out of the loop body: next round, [goto err_out] / [goto io_error]
    with the array so far, the return after a failed [realloc]. *)
Inductive mp_flow :=
  | MpNext (st : mp_state)
  | MpErr (rl : runlist) (rlpos : Z)
  | MpNoMem.

Section decompress.
Context {HP : Heap}.
Variable vol : ntfs_volume.

(** [realloc] by another 4 KiB when fewer than three elements are left. *)
Definition mp_grow (st : mp_state) : option mp_state :=
  if m_rlsize st <? (m_rlpos st + 3) * sizeof_rle then
    let rlsize := m_rlsize st + 0x1000 in
    match rl_resize (m_rl st) rlsize with
    | Ok rl => Some (mk_mp (m_vcn st) (m_lcn st) (m_buf st) rl (m_rlpos st) rlsize)
    | _ => None
    end
  else Some st.

(** The run length of the entry at [p]; [None] for [goto io_error]. *)
Definition mp_length (mem : list Z) (p attr_end hdr : Z) : res (option Z) :=
  let b := Z.land hdr 0xf in
  if negb (b =? 0) then
    if attr_end <? p + b then Ok None else
    x ← mp_number mem p b 0; Ok (Some x)
  else Ok (Some (-1)).

(** The lcn of the entry at [p]: the new element, or [None] for an error. *)
Definition mp_lcn (mem : list Z) (p attr_end hdr l rlpos : Z) (r : runlist_element)
    : res (option (runlist_element * Z)) :=
  if Z.land hdr 0xf0 =? 0 then Ok (Some (set_lcn r LCN_HOLE, l))
  else
    let b2 := Z.land hdr 0xf in
    if b2 =? 0 then Ok None else
    let b := b2 + Z.land (Z.shiftr hdr 4) 0xf in
    if attr_end <? p + b then Ok None else
    deltaxcn ← mp_number mem p b b2;
    let r := if on_fsck vol && (deltaxcn =? 0) && negb (rlpos =? 0) then set_len r 0 else r in
    let l := s64 (l + deltaxcn) in
    if l <? -1 then Ok None
    else if negb (l =? -1) && (len r =? 0) then Ok None
    else Ok (Some (set_lcn r l, l)).

(** The body of the loop, at an entry with header byte [hdr]. *)
Definition mp_step (mem : list Z) (attr_end hdr : Z) (st : mp_state) : res mp_flow :=
  match mp_grow st with
  | None => Ok MpNoMem
  | Some st =>
      r ← aget (m_rl st) (m_rlpos st);
      let r := set_vcn r (m_vcn st) in
      let rl := m_rl st in
      rl ← aset rl (m_rlpos st) r;
      n ← mp_length mem (m_buf st) attr_end hdr;
      match n with
      | None => Ok (MpErr rl (m_rlpos st))
      | Some deltaxcn =>
          if deltaxcn <? 0 then Ok (MpErr rl (m_rlpos st)) else
          let r := set_len r deltaxcn in
          rl ← aset rl (m_rlpos st) r;
          e ← mp_lcn mem (m_buf st) attr_end hdr (m_lcn st) (m_rlpos st) r;
          match e with
          | None => Ok (MpErr rl (m_rlpos st))
          | Some (r, l) =>
              rl ← aset rl (m_rlpos st) r;
              Ok (MpNext (mk_mp (s64 (m_vcn st + deltaxcn)) l
                    (m_buf st + Z.land hdr 0xf + Z.land (Z.shiftr hdr 4) 0xf + 1)
                    rl (if negb (len r =? 0) then u16 (m_rlpos st + 1) else m_rlpos st)
                    (m_rlsize st)))
          end
      end
  end.

(** [while (buf < attr_end && *buf)]; every round moves [buf] forward. *)
Fixpoint mp_loop (fuel : nat) (mem : list Z) (attr_end : Z) (st : mp_state) : res mp_flow :=
  if m_buf st <? attr_end then
    hdr ← aget mem (m_buf st);
    if hdr =? 0 then Ok (MpNext st)
    else match fuel with
         | O => Undef
         | S fuel =>
             f ← mp_step mem attr_end hdr st;
             match f with
             | MpNext st => mp_loop fuel mem attr_end st
             | _ => Ok f
             end
         end
  else Ok (MpNext st).

(** After the loop: the checks against [highest_vcn] and [allocated_size] and
    the terminating element. *)
Definition mp_finish (attr : attr_record) (attr_end : Z) (st : mp_state) : res mp_flow :=
  let bad := MpErr (m_rl st) (m_rlpos st) in
  if attr_end <=? m_buf st then Ok bad else
  let deltaxcn := highest_vcn attr in
  if negb (deltaxcn =? 0) && negb (s64 (m_vcn st - 1) =? deltaxcn) then Ok bad else
  f ← (if lowest_vcn attr =? 0 then
         let num_clusters :=
           Z.shiftr (s64 (allocated_size attr + cluster_size vol - 1)) (cluster_size_bits vol) in
         if m_vcn st <? num_clusters then
           let n := s64 (num_clusters - m_vcn st) in
           rl ← aset (m_rl st) (m_rlpos st) (mk_rle (m_vcn st) LCN_RL_NOT_MAPPED n);
           let pos := u16 (m_rlpos st + 1) in
           Ok (Some (rl, pos, s64 (m_vcn st + n), LCN_ENOENT))
         else if num_clusters <? m_vcn st then Ok None
         else Ok (Some (m_rl st, m_rlpos st, m_vcn st, LCN_ENOENT))
       else Ok (Some (m_rl st, m_rlpos st, m_vcn st, LCN_RL_NOT_MAPPED)));
  match f with
  | None => Ok bad
  | Some (rl, pos, v, l) =>
      rl ← aset rl pos (mk_rle v l 0);
      Ok (MpNext (mk_mp v (m_lcn st) (m_buf st) rl pos (m_rlsize st)))
  end.

(** What becomes of the block of [old_rl]: untouched, freed, or owned by the
    runlist that is returned (or stored in [*part_rl]). *)
Inductive old_fate := OldKept | OldFreed | OldMoved.

(** The return value ([inr] with errno for NULL), what was stored in
    [*part_rl], and the fate of [old_rl]. *)
Record decomp_out := mk_out {
  d_ret : runlist + errno;
  d_part : option runlist;
  d_old : old_fate
}.

(** The tail of the error path on fsck: [rl] goes to [*part_rl], or is freed.
    [owns_old]: the block of [old_rl] is [rl]'s. *)
Definition give_part (want_part : bool) (rl : runlist) (owns_old : bool) : decomp_out :=
  mk_out (inr EIO) (if want_part then Some rl else None)
    (if owns_old then if want_part then OldMoved else OldFreed else OldKept).

(** [old_rl && old_rl[0].length]: there is something to merge with. *)
Definition old_mapped (old_rl : option runlist) : res bool :=
  match old_rl with
  | None => Ok false
  | Some old => r ← aget old 0; Ok (negb (len r =? 0))
  end.

(** The [err_out] label. *)
Definition mp_error (old_rl : option runlist) (want_part : bool) (rl : runlist) (rlpos : Z)
    : res decomp_out :=
  if on_fsck vol then
    v ← (if negb (rlpos =? 0) then r ← aget rl (rlpos - 1); Ok (s64 (vcn r + len r)) else Ok 0);
    rl ← aset rl rlpos (mk_rle v LCN_ENOENT 0);
    om ← old_mapped old_rl;
    r0 ← aget rl 0;
    if om && negb (len r0 =? 0) then
      match old_rl, ntfs_runlists_merge old_rl (Some rl) with
      | _, Ok (Some new) => Ok (give_part want_part new true)
      | Some old, Err _ => Ok (give_part want_part old true)
      | _, _ => Undef
      end
    else Ok (give_part want_part rl false)
  else Ok (mk_out (inr EIO) None OldKept).

(** The end of the success path: combine with the old runlist. *)
Definition mp_combine (old_rl : option runlist) (want_part : bool) (rl : runlist)
    : res decomp_out :=
  om ← old_mapped old_rl;
  match old_rl with
  | None => Ok (mk_out (inl rl) None OldKept)
  | Some old =>
      if negb om then Ok (mk_out (inl rl) None OldFreed) else
      r0 ← aget rl 0;
      if negb (len r0 =? 0) then
        match ntfs_runlists_merge (Some old) (Some rl) with
        | Ok (Some new) => Ok (mk_out (inl new) None OldMoved)
        | Err e =>
            if on_fsck vol then Ok (give_part want_part old true)
            else Ok (mk_out (inr e) None OldFreed)
        | _ => Undef
        end
      else Ok (mk_out (inl old) None OldMoved)
  end.

(** The first 4 KiB block, with the unmapped element below [lowest_vcn]. *)
Definition mp_start (attr : attr_record) : res mp_state :=
  let rlsize := 0x1000 in
  rl ← rl_resize [] rlsize;
  let v := lowest_vcn attr in
  if negb (v =? 0) then
    rl ← aset rl 0 (mk_rle 0 LCN_RL_NOT_MAPPED v);
    Ok (mk_mp v 0 (mapping_pairs_offset attr) rl 1 rlsize)
  else Ok (mk_mp v 0 (mapping_pairs_offset attr) rl 0 rlsize).

Definition ntfs_mapping_pairs_decompress_i (attr : option attr_record)
    (old_rl : option runlist) (want_part : bool) : res decomp_out :=
  match attr with
  | None => Ok (mk_out (inr EINVAL) None OldKept)
  | Some attr =>
      if negb (non_resident attr) || (lowest_vcn attr <? 0)
      then Ok (mk_out (inr EINVAL) None OldKept) else
      let attr_end := attr_length attr in
      if attr_end <? mapping_pairs_offset attr
      then Ok (mk_out (inr EIO) None OldKept) else
      match mp_start attr with
      | Ok st =>
          f ← mp_loop (Z.to_nat attr_end) (attr_mem attr) attr_end st;
          f ← match f with MpNext st => mp_finish attr attr_end st | _ => Ok f end;
          match f with
          | MpNext st => mp_combine old_rl want_part (m_rl st)
          | MpErr rl rlpos => mp_error old_rl want_part rl rlpos
          | MpNoMem => Ok (mk_out (inr ENOMEM) None OldKept)
          end
      | Err e => Ok (mk_out (inr e) None OldKept)
      | Undef => Undef
      end
  end.

(** [part_rl] is NULL. *)
Definition ntfs_mapping_pairs_decompress (attr : option attr_record) (old_rl : option runlist)
    : res decomp_out :=
  ntfs_mapping_pairs_decompress_i attr old_rl false.

(** On failure the part that was read, which [*part_rl] holds, or an empty
    runlist; [part] is what [*part_rl] held before the call.  The second
    component is [*part_rl] afterwards; [None] for a failed allocation. *)
Definition ntfs_decompress_cluster_run (attr : option attr_record) (old_rl part : option runlist)
    : res (option runlist * option runlist) :=
  out ← ntfs_mapping_pairs_decompress_i attr old_rl true;
  let part := match d_part out with Some p => Some p | None => part end in
  match d_ret out with
  | inl rl => Ok (Some rl, part)
  | inr _ =>
      match part with
      | Some p => Ok (Some p, part)
      | None =>
          if heap_grants sizeof_rle
          then let p := [mk_rle 0 LCN_ENOENT 0] in Ok (Some p, Some p)
          else Ok (None, None)
      end
  end.

End decompress.

(** ** Specification *)

(** The minimal little-endian two's complement form of [n]. *)
Fixpoint sig_bytes (fuel : nat) (n : Z) : list Z :=
  u8 n :: (if (0x7f <? n) || (n <? -0x80)
           then match fuel with O => [] | S fuel => sig_bytes fuel (Z.shiftr n 8) end
           else []).

(** The value of a little-endian two's complement number. *)
Fixpoint sval (xs : list Z) : Z :=
  match xs with
  | [] => 0
  | [x] => s8 x
  | x :: xs => x + 256 * sval xs
  end.

Abbreviation number_bytes := (sig_bytes 7).

(** ** Proofs: numbers *)

Lemma shiftr8 n : Z.shiftr n 8 = n / 256.
Proof. rewrite Z.shiftr_div_pow2 by lia. done. Qed.

Lemma shiftl8 n : Z.shiftl n 8 = 256 * n.
Proof. rewrite Z.shiftl_mul_pow2 by lia. change (2 ^ 8) with 256. lia. Qed.

Lemma sig_bytes_nonempty f n : sig_bytes f n <> [].
Proof. by destruct f. Qed.

Lemma sval_cons x xs : xs <> [] -> sval (x :: xs) = x + 256 * sval xs.
Proof. by destruct xs. Qed.

Lemma s8_u8 n : -128 <= n < 128 -> s8 (u8 n) = n.
Proof. intros. unfold wraps, wrapu. cbn [Z.pow Z.pow_pos Z.sub]. simpl. dlia. Qed.

(** The minimal form denotes the number, when there are enough bytes. *)
Lemma sval_sig_bytes f : forall n,
  - 2 ^ (8 * Z.of_nat f + 7) <= n < 2 ^ (8 * Z.of_nat f + 7) -> sval (sig_bytes f n) = n.
Proof.
  induction f as [|f IH]; intros n Hn.
  - cbn -[wrapu wraps]. replace (2 ^ (8 * Z.of_nat 0 + 7)) with 128 in Hn by done.
    zdec. apply s8_u8. lia.
  - cbn [sig_bytes]. zcase; cbn [orb]; try (apply s8_u8; lia).
    all: rewrite sval_cons by apply sig_bytes_nonempty; rewrite IH;
      [rewrite shiftr8; unfold wrapu; change (2 ^ 8) with 256; dlia|].
    all: replace (8 * Z.of_nat (S f) + 7) with (8 * Z.of_nat f + 7 + 8) in Hn by lia;
      rewrite Z.pow_add_r in Hn by lia; change (2 ^ 8) with 256 in Hn; rewrite shiftr8; dlia.
Qed.

Lemma sig_bytes_length f n : 1 <= zlen (sig_bytes f n) <= Z.of_nat f + 1.
Proof.
  revert n. induction f as [|f IH]; intros n; cbn [sig_bytes]; rewrite zlen_cons.
  - destruct (_ || _); rewrite zlen_nil; lia.
  - destruct (_ || _); [specialize (IH (Z.shiftr n 8)); lia|rewrite zlen_nil; lia].
Qed.

Lemma sig_bytes_u8 f n : Forall (fun x => 0 <= x < 256) (sig_bytes f n).
Proof.
  revert n. induction f as [|f IH]; intros n; cbn [sig_bytes]; constructor;
    try (apply (wrapu_range 8); lia); destruct (_ || _); auto.
Qed.

Lemma sig_bytes_lnot f : forall n, length (sig_bytes f (Z.lnot n)) = length (sig_bytes f n).
Proof.
  induction f as [|f IH]; intros n; cbn [sig_bytes length]; f_equal; unfold Z.lnot, Z.pred; zcase;
    cbn [orb]; try lia; try done.
  all: rewrite <- IH; f_equal; f_equal; rewrite !shiftr8; unfold Z.lnot, Z.pred; dlia.
Qed.

Lemma count_bytes_spec f g : forall i n,
  128 <= n < 2 ^ (8 * Z.of_nat f + 7) ->
  count_bytes (f + g) i (Z.shiftr n 7) = Ok (i + zlen (sig_bytes (f - 1) (Z.shiftr n 8))).
Proof.
  induction f as [|f IH]; intros i n Hn; [cbn in Hn; lia|].
  cbn [count_bytes Nat.sub Nat.add]. rewrite Nat.sub_0_r.
  assert (Z.shiftr (Z.shiftr n 7) 8 = Z.shiftr (Z.shiftr n 8) 7) as ->.
  { by rewrite !Z.shiftr_shiftr by lia. }
  assert (Z.shiftr (Z.shiftr n 8) 7 = n / 256 / 128) as E.
  { rewrite shiftr8, Z.shiftr_div_pow2 by lia. done. }
  replace (8 * Z.of_nat (S f) + 7) with (8 * Z.of_nat f + 7 + 8) in Hn by lia.
  rewrite Z.pow_add_r in Hn by lia. change (2 ^ 8) with 256 in Hn.
  destruct (Z.eqb_spec (Z.shiftr (Z.shiftr n 8) 7) 0) as [E0|E0]; rewrite E in E0.
  - assert (0 <= Z.shiftr n 8 < 128) by (rewrite shiftr8; dlia).
    destruct f; cbn [sig_bytes]; zdec; rewrite zlen_cons, zlen_nil; f_equal; lia.
  - assert (128 <= Z.shiftr n 8 < 2 ^ (8 * Z.of_nat f + 7)) by (rewrite shiftr8; dlia).
    rewrite IH by done. f_equal. destruct f as [|f]; [cbn in *; lia|].
    cbn [Nat.sub sig_bytes]. rewrite Nat.sub_0_r. zdec. rewrite zlen_cons. lia.
Qed.

(** The counted size is the size of the minimal form. *)
Lemma nr_significant_bytes_spec n :
  in_s 64 n -> ntfs_get_nr_significant_bytes n = Ok (zlen (number_bytes n)).
Proof.
  unfold in_s. change (64 - 1) with 63. intros Hn. unfold ntfs_get_nr_significant_bytes.
  assert (forall m, 0 <= m < 2 ^ 63 ->
    (if 128 <=? u64 m then count_bytes 8 1 (Z.shiftr (u64 m) 7) else Ok 1) =
    Ok (zlen (number_bytes m))) as Pos.
  { intros m Hm. rewrite wrapu_small by lia. destruct (Z.leb_spec 128 m).
    - rewrite (count_bytes_spec 7 1) by (change (8 * Z.of_nat 7 + 7) with 63; lia).
      f_equal. cbn [Nat.sub].
      change (sig_bytes 7 m) with (u8 m :: (if (0x7f <? m) || (m <? -0x80)
        then sig_bytes 6 (Z.shiftr m 8) else [])). zdec. by rewrite zlen_cons.
    - cbn [sig_bytes]. zdec. done. }
  destruct (Z.ltb_spec n 0); [|apply Pos; lia].
  rewrite Pos by (unfold Z.lnot; lia). unfold zlen. by rewrite sig_bytes_lnot.
Qed.

(** One more byte of the minimal form. *)
Lemma sig_bytes_more f n :
  - 2 ^ (8 * Z.of_nat f + 7) <= n < 2 ^ (8 * Z.of_nat f + 7) ->
  (0x7f <? n) || (n <? -0x80) = true ->
  exists f', f = S f' /\
    - 2 ^ (8 * Z.of_nat f' + 7) <= Z.shiftr n 8 < 2 ^ (8 * Z.of_nat f' + 7) /\
    sig_bytes f n = u8 n :: sig_bytes f' (Z.shiftr n 8).
Proof.
  intros Hn C. destruct f as [|f].
  - apply orb_true_iff in C. replace (2 ^ (8 * Z.of_nat 0 + 7)) with 128 in Hn by done. lia.
  - exists f. split; [done|]. split.
    + replace (8 * Z.of_nat (S f) + 7) with (8 * Z.of_nat f + 7 + 8) in Hn by lia.
      rewrite Z.pow_add_r in Hn by lia. change (2 ^ 8) with 256 in Hn. rewrite shiftr8. dlia.
    + cbn [sig_bytes]. by rewrite C.
Qed.

Lemma sig_bytes_one f n : (0x7f <? n) || (n <? -0x80) = false -> sig_bytes f n = [u8 n].
Proof. intros C. destruct f; cbn [sig_bytes]; by rewrite C. Qed.

(** The writing loop after the first byte [u8 l]: the rest of the form where
    it fits, else the room is filled and nothing else is touched. *)
Lemma write_bytes_loop_spec f g : forall P Q l i dst dst_max,
  - 2 ^ (8 * Z.of_nat f + 7) <= l < 2 ^ (8 * Z.of_nat f + 7) ->
  dst = zlen P -> dst_max = zlen (P ++ Q) - 1 ->
  exists Q', length Q' = length Q /\
    write_bytes_loop (f + g) (P ++ Q) dst dst_max l i =
      Ok (P ++ Q', if zlen (sig_bytes f l) <=? zlen Q + 1
                   then Some (i + zlen (sig_bytes f l) - 1) else None) /\
    (zlen (sig_bytes f l) <= zlen Q + 1 ->
     u8 l :: Q' = sig_bytes f l ++ drop (length (sig_bytes f l) - 1) Q).
Proof.
  induction f as [|f IH]; intros P Q l i dst dst_max Hl -> ->;
    (destruct ((0x7f <? l) || (l <? -0x80)) eqn:C; [|exists Q; split; [done|];
       rewrite sig_bytes_one by done; split;
       [destruct g; cbn [Nat.add write_bytes_loop]; rewrite C; rewrite zlen_cons, zlen_nil;
          pose proof (zlen_nonneg Q); zdec; do 3 f_equal; lia
       |by rewrite Nat.sub_diag]]).
  - destruct (sig_bytes_more _ _ Hl C) as (? & ? & _). done.
  - destruct (sig_bytes_more _ _ Hl C) as (f' & [= <-] & Hl' & ->).
    cbn [Nat.add write_bytes_loop]. rewrite C. rewrite zlen_cons.
    pose proof (sig_bytes_length f (Z.shiftr l 8)).
    destruct Q as [|q Q].
    + rewrite zlen_app, zlen_nil. zdec. exists []. split; [done|]. split; [done|]. lia.
    + rewrite zlen_app, zlen_cons. pose proof (zlen_nonneg Q). zdec.
      rewrite aset_mid by done. cbn [mbind res_bind].
      destruct (IH (P ++ [u8 (Z.shiftr l 8)]) Q (Z.shiftr l 8) (i + 1)
        (zlen P + 1) (zlen P + (1 + zlen Q) - 1)) as (Q' & L & E & F);
        [done|by rewrite zlen_app|zlen_solve|].
      rewrite <- !app_assoc in E. cbn [app] in E.
      exists (u8 (Z.shiftr l 8) :: Q'). split; [cbn; congruence|]. split.
      * rewrite E. f_equal. f_equal. zcase; try lia; [f_equal; lia|done].
      * intros Hfit. rewrite F by lia. cbn [app length Nat.sub].
        assert (length (sig_bytes f (Z.shiftr l 8)) = S (length (sig_bytes f (Z.shiftr l 8)) - 1))
          as Ek by (unfold zlen in *; lia).
        f_equal. f_equal. rewrite Nat.sub_0_r. by rewrite Ek at 2.
Qed.

(** [ntfs_write_significant_bytes] into the room [Q] behind [P]. *)
Lemma write_significant_bytes_spec P Q n dst dst_max :
  in_s 64 n -> dst = zlen P -> dst_max = zlen (P ++ Q) - 1 ->
  exists Q', length Q' = length Q /\
    ntfs_write_significant_bytes (P ++ Q) dst dst_max n =
      Ok (P ++ Q', if zlen (number_bytes n) <=? zlen Q
                   then Some (zlen (number_bytes n)) else None) /\
    (zlen (number_bytes n) <= zlen Q ->
     Q' = number_bytes n ++ drop (length (number_bytes n)) Q).
Proof.
  intros Hn -> ->. unfold ntfs_write_significant_bytes.
  pose proof (sig_bytes_length 7 n) as B. destruct Q as [|q Q].
  - exists []. rewrite zlen_app, zlen_nil. zdec. split; [done|]. split; [done|lia].
  - rewrite zlen_app, zlen_cons. pose proof (zlen_nonneg Q). zdec. rewrite aset_mid by done.
    cbn [mbind res_bind].
    destruct (write_bytes_loop_spec 7 1 (P ++ [u8 n]) Q n 1 (zlen P + 1)
      (zlen P + (1 + zlen Q) - 1)) as (Q' & L & E & F); [exact Hn|by rewrite zlen_app|zlen_solve|].
    rewrite <- !app_assoc in E. cbn [app Nat.add] in E.
    exists (u8 n :: Q'). split; [cbn; congruence|]. split.
    + rewrite E. f_equal. f_equal. zcase; try lia; [f_equal; lia|done].
    + intros Hfit. rewrite F by lia. f_equal.
      assert (length (number_bytes n) = S (length (number_bytes n) - 1)) as Ek
        by (unfold zlen in *; lia).
      by rewrite Ek at 2.
Qed.

(** Reading: the loop accumulates from the most significant byte down. *)
Lemma mp_number_loop_spec ys : forall P Q p b acc,
  p + b = zlen P + zlen ys - 1 ->
  mp_number_loop (P ++ ys ++ Q) p b (length ys) acc =
    Ok (foldr (fun x a => s64 (Z.shiftl a 8 + x)) acc ys).
Proof.
  induction ys as [|y ys IH] using rev_ind; intros P Q p b acc Hb; [done|].
  rewrite length_app, Nat.add_1_r. cbn [mp_number_loop].
  rewrite <- (app_assoc ys), (app_assoc P ys). cbn [app].
  rewrite aget_mid by zlen_solve. cbn [mbind res_bind].
  rewrite <- app_assoc, (IH P (y :: Q)) by zlen_solve. by rewrite foldr_app.
Qed.

Lemma sval_range xs :
  Forall (fun x => 0 <= x < 256) xs -> xs <> [] ->
  - 2 ^ (8 * zlen xs - 1) <= sval xs < 2 ^ (8 * zlen xs - 1).
Proof.
  induction 1 as [|x xs Hx Hxs IH]; intros Hne; [done|].
  destruct (decide (xs = [])) as [->|Hn].
  - cbn -[wraps Z.pow]. apply (wraps_range 8). lia.
  - rewrite sval_cons by done. specialize (IH Hn). rewrite zlen_cons.
    assert (1 <= zlen xs) by (destruct xs; [done|]; zlen_solve).
    replace (8 * (1 + zlen xs) - 1) with (8 * zlen xs - 1 + 8) by lia.
    rewrite Z.pow_add_r by lia. change (2 ^ 8) with 256. lia.
Qed.

(** The accumulated value is the value of the bytes: no wrap in 8 bytes. *)
Lemma foldr_sval ys x :
  Forall (fun y => 0 <= y < 256) (ys ++ [x]) -> zlen ys <= 7 ->
  foldr (fun x a => s64 (Z.shiftl a 8 + x)) (s8 x) ys = sval (ys ++ [x]).
Proof.
  induction ys as [|y ys IH]; intros Hb Hl; [done|].
  inversion Hb as [|? ? Hy Hys]; subst. cbn [foldr app]. rewrite IH by (done || zlen_solve).
  rewrite sval_cons by (by destruct ys). rewrite shiftl8.
  pose proof (sval_range ((y :: ys) ++ [x]) Hb) as R. rewrite zlen_app, !zlen_cons, zlen_nil in R.
  cbn [app] in R. rewrite sval_cons in R by (by destruct ys).
  assert (2 ^ (8 * (1 + zlen ys + (1 + 0)) - 1) <= 2 ^ 63) by
    (apply Z.pow_le_mono_r; rewrite zlen_cons in Hl; lia).
  rewrite s64_small; [lia|]. specialize (R ltac:(done)). lia.
Qed.

Lemma mp_number_spec P xs Q p b lo :
  Forall (fun x => 0 <= x < 256) xs -> 1 <= zlen xs <= 8 ->
  p + lo + 1 = zlen P -> b = lo + zlen xs ->
  mp_number (P ++ xs ++ Q) p b lo = Ok (sval xs).
Proof.
  intros Hb Hl Hp ->. destruct xs as [|x xs _] using rev_ind; [zlen_solve|].
  unfold mp_number. rewrite zlen_app, zlen_cons, zlen_nil in *.
  rewrite <- app_assoc. cbn [app]. rewrite app_assoc, aget_mid by zlen_solve.
  cbn [mbind res_bind]. rewrite <- app_assoc.
  replace (Z.to_nat (lo + (zlen xs + (1 + 0)) - 1 - lo)) with (length xs) by (unfold zlen; lia).
  rewrite (mp_number_loop_spec xs P) by zlen_solve.
  by rewrite foldr_sval by (done || zlen_solve).
Qed.
