(* ===== verification/MappingPairsThm.v ===== *)
(** Correctness of the mapping pairs code (libntfs/runlist.c): what
    [ntfs_mapping_pairs_build] writes, that
    [ntfs_get_size_for_mapping_pairs] gives its exact size, that reading the
    array back gives the runs again, and that reading any array, valid or not,
    stays within the record plus one byte. *)

From S2P Require Import Prelude Volume Runlist RunlistMerge MappingPairs.

(** ** Specification *)

(** A run a mapping pairs array can hold: on the volume or a hole. *)
Definition mappable (r : runlist_element) : Prop :=
  run_ok r /\ 0 < len r /\ LCN_HOLE <= lcn r.

#[global] Instance mappable_dec r : Decision (mappable r).
Proof. unfold mappable. apply _. Defined.

(** An entry: header, length, change of the lcn where [st]ored. *)
Definition entry_bytes (st : bool) (n delta : Z) : list Z :=
  let lb := number_bytes n in
  let cb := if st then number_bytes delta else [] in
  (16 * zlen cb + zlen lb) :: lb ++ cb.

Definition mp_entry (vol : ntfs_volume) (prev : Z) (r : runlist_element) : list Z :=
  entry_bytes (stores_lcn vol (lcn r)) (len r) (lcn r - prev).

Definition next_prev (vol : ntfs_volume) (prev : Z) (r : runlist_element) : Z :=
  if stores_lcn vol (lcn r) then lcn r else prev.

(** The array for [runs], without its terminator byte. *)
Fixpoint mp_encode (vol : ntfs_volume) (prev : Z) (runs : runlist) : list Z :=
  match runs with
  | [] => []
  | r :: runs => mp_entry vol prev r ++ mp_encode vol (next_prev vol prev r) runs
  end.

(** [r] without its clusters below [s]. *)
Definition run_from (s : Z) (r : runlist_element) : runlist_element :=
  if vcn r <? s
  then mk_rle s (if 0 <=? lcn r then lcn r + (s - vcn r) else lcn r) (vcn r + len r - s)
  else r.

(** The runs from vcn [s] on. *)
Fixpoint runs_from (s : Z) (runs : runlist) : runlist :=
  match runs with
  | [] => []
  | r :: runs => if vcn r + len r <=? s then runs_from s runs else run_from s r :: runs
  end.

(** * Proofs: building *)

Lemma header_byte a b :
  0 <= a <= 8 -> 0 <= b <= 8 -> u8 (Z.lor (Z.shiftl b 4) a) = 16 * b + a.
Proof.
  intros Ha Hb.
  assert (Forall (fun a => Forall (fun b => u8 (Z.lor (Z.shiftl b 4) a) = 16 * b + a)
    (seqZ 0 9)) (seqZ 0 9)) as F by compute_decide.
  rewrite Forall_seqZ in F. specialize (F a ltac:(lia)).
  rewrite Forall_seqZ in F. apply F. lia.
Qed.

Lemma entry_bytes_length st n delta :
  2 <= zlen (entry_bytes st n delta) <= 17 /\
  zlen (entry_bytes st n delta) =
    1 + zlen (number_bytes n) + (if st then zlen (number_bytes delta) else 0).
Proof.
  unfold entry_bytes. pose proof (sig_bytes_length 7 n). pose proof (sig_bytes_length 7 delta).
  rewrite zlen_cons, zlen_app. destruct st; rewrite ?zlen_nil; lia.
Qed.

Lemma mp_entry_length vol prev r : 2 <= zlen (mp_entry vol prev r) <= 17.
Proof. apply entry_bytes_length. Qed.

Lemma mp_entry_0 vol r : mp_entry vol 0 r = entry_bytes (stores_lcn vol (lcn r)) (len r) (lcn r).
Proof. unfold mp_entry. by rewrite Z.sub_0_r. Qed.

(** The lcn part of an entry, behind [P], into the room [R]. *)
Lemma emit_lcn (st : bool) P R delta dst dst_max :
  in_s 64 delta -> dst = zlen P -> dst_max = zlen (P ++ R) - 1 ->
  exists R', length R' = length R /\
    (if st then ntfs_write_significant_bytes (P ++ R) dst dst_max delta
     else Ok (P ++ R, Some 0)) =
    Ok (P ++ R', if (if st then zlen (number_bytes delta) else 0) <=? zlen R
                 then Some (if st then zlen (number_bytes delta) else 0) else None) /\
    ((if st then zlen (number_bytes delta) else 0) <= zlen R ->
     let cb := if st then number_bytes delta else [] in R' = cb ++ drop (length cb) R).
Proof.
  intros Hd -> ->. destruct st.
  - destruct (write_significant_bytes_spec P R delta (zlen P) (zlen (P ++ R) - 1))
      as (R' & L & E & F); [done..|]. by exists R'.
  - exists R. pose proof (zlen_nonneg R). zdec. done.
Qed.

(** One entry into the room [Q]: it is written where it and a terminator fit. *)
Lemma mp_emit_spec vol P Q r n delta dst dst_max :
  in_s 64 n -> in_s 64 delta -> dst = zlen P -> dst_max = zlen (P ++ Q) - 1 ->
  exists Q', length Q' = length Q /\
    let e := entry_bytes (stores_lcn vol (lcn r)) n delta in
    mp_emit vol (P ++ Q) dst dst_max r n delta =
      Ok (P ++ Q', if zlen e + 1 <=? zlen Q then Some (dst + zlen e) else None) /\
    (zlen e + 1 <= zlen Q -> Q' = e ++ drop (length e) Q).
Proof.
  intros Hn Hd -> ->. unfold mp_emit. set (st := stores_lcn vol (lcn r)).
  pose proof (entry_bytes_length st n delta) as [B EB]. cbn zeta.
  destruct Q as [|q Q].
  { exists []. split; [done|]. rewrite app_nil_r. change (zlen (@nil Z)) with 0.
    unfold ntfs_write_significant_bytes. zdec. split; [done|lia]. }
  destruct (write_significant_bytes_spec (P ++ [q]) Q n (zlen P + 1)
    (zlen (P ++ q :: Q) - 1)) as (Q1 & L1 & E1 & F1); [done|zlen_solve|zlen_solve|].
  rewrite <- !app_assoc in E1. cbn [app] in E1. rewrite E1. cbn [mbind res_bind]. clear E1.
  rewrite (zlen_cons q Q). set (lb := number_bytes n) in *.
  assert (1 <= zlen lb <= 8) by apply sig_bytes_length.
  pose proof (sig_bytes_length 7 delta).
  destruct (Z.leb_spec (zlen lb) (zlen Q)) as [Hfit|Hfit].
  2:{ exists (q :: Q1). split; [cbn; congruence|].
      destruct st; zdec; (split; [done|lia]). }
  specialize (F1 Hfit). set (R := drop (length lb) Q) in *. subst Q1. rewrite length_app in L1.
  destruct (emit_lcn st (P ++ q :: lb) R delta (zlen P + 1 + zlen lb)
    (zlen (P ++ q :: Q) - 1)) as (R' & LR & E2 & FR);
    [done|zlen_solve|rewrite <- app_assoc; cbn [app]; unfold zlen;
      rewrite !length_app; cbn [length]; rewrite length_app; lia|].
  rewrite <- !app_assoc in E2. cbn [app] in E2. rewrite E2. cbn [mbind res_bind]. clear E2.
  assert (zlen R = zlen Q - zlen lb) as ZR by (unfold zlen; lia).
  set (cl := if st then zlen (number_bytes delta) else 0) in *.
  assert (0 <= cl <= 8) by (unfold cl; destruct st; lia).
  destruct (Z.leb_spec (zlen (entry_bytes st n delta) + 1) (1 + zlen Q)).
  - exists ((16 * cl + zlen lb) :: lb ++ R'). zdec. rewrite zlen_app, zlen_cons. zdec.
    rewrite aset_mid by done. cbn [mbind res_bind]. rewrite header_byte by lia.
    split; [cbn [length]; rewrite length_app; lia|]. split; [do 3 f_equal; lia|]. intros _.
    unfold entry_bytes. cbn [app length drop].
    f_equal; [unfold cl; by destruct st|]. rewrite <- app_assoc. f_equal. fold lb.
    rewrite length_app, <- drop_drop. apply FR. lia.
  - exists (q :: lb ++ R'). split; [cbn [length]; rewrite length_app; lia|]. split; [|lia].
    destruct (cl <=? zlen R); [|done]. rewrite zlen_app, zlen_cons. zdec. done.
Qed.

Lemma mappable_s64 r prev :
  mappable r -> -1 <= prev < 2 ^ 63 ->
  in_s 64 (len r) /\ in_s 64 (lcn r - prev) /\ bad_run r = false /\ (len r =? 0) = false.
Proof.
  intros ((O1 & O2 & O3 & O4) & L & Hl) Hp. unfold in_s, bad_run, LCN_HOLE in *.
  change (64 - 1) with 63. split_and!; try lia.
Qed.

Lemma next_prev_range vol prev r :
  mappable r -> -1 <= prev < 2 ^ 63 -> -1 <= next_prev vol prev r < 2 ^ 63.
Proof.
  intros ((O1 & O2 & O3 & O4) & L & Hl) Hp. unfold next_prev, LCN_HOLE in *.
  destruct (stores_lcn _ _); lia.
Qed.

(** What a call that wrote the first [k] of [runs] into the room [Q], from
    element [i] on, leaves: as many entries as fit together with a terminator. *)
Definition built vol (P Q : list Z) (prev : Z) (runs : runlist) (i : Z) (m : res build_out)
    : Prop :=
  exists k Q', let e := mp_encode vol prev (take k runs) in
    (k <= length runs)%nat /\
    m = Ok (mk_build (P ++ e ++ 0 :: Q') (Some (i + Z.of_nat k))
          (if decide (k = length runs) then None else Some ENOSPC)) /\
    zlen e + 1 + zlen Q' = zlen Q /\
    ((k < length runs)%nat -> zlen Q < zlen (mp_encode vol prev (take (S k) runs)) + 1).

Lemma size_err_built vol P Q Q0 prev r runs i dst :
  dst = zlen P -> length Q0 = length Q -> 1 <= zlen Q ->
  zlen Q < zlen (mp_entry vol prev r) + 1 ->
  built vol P Q prev (r :: runs) i (size_err (P ++ Q0) dst i).
Proof.
  intros -> L L1 Hs. destruct Q0 as [|q Q0]; [unfold zlen in L1; cbn in L; lia|].
  exists 0%nat, Q0. cbn [take mp_encode app length]. split; [lia|]. unfold size_err.
  rewrite aset_mid by done. cbn [mbind res_bind]. split; [|split].
  - do 3 f_equal. lia.
  - unfold zlen in *. cbn [length] in *. lia.
  - intros _. rewrite app_nil_r. lia.
Qed.

(** Prepending an entry that fits. *)
Lemma built_cons vol P Q prev r' runs i e :
  e = mp_entry vol prev r' -> zlen e + 1 <= zlen Q -> forall m,
  built vol (P ++ e) (drop (length e) Q) (next_prev vol prev r') runs (i + 1) m ->
  built vol P Q prev (r' :: runs) i m.
Proof.
  intros He Hfit m (k & Q' & Hk & -> & Hl & Hmax). exists (S k), Q'. cbn zeta in *.
  cbn [take mp_encode length]. rewrite <- He.
  assert (zlen (drop (length e) Q) = zlen Q - zlen e) as ZD
    by (unfold zlen in *; rewrite length_drop; lia).
  split; [lia|]. split; [|split].
  - f_equal. f_equal; [by rewrite <- !app_assoc|f_equal; lia|].
    destruct (decide (k = _)), (decide (S k = _)); lia || done.
  - rewrite zlen_app. lia.
  - intros Hk'. specialize (Hmax ltac:(lia)). cbn [take mp_encode] in Hmax |- *.
    rewrite zlen_app. lia.
Qed.

Lemma mp_build_loop_spec vol runs : forall P Q prev i term tl,
  Forall mappable runs -> -1 <= prev < 2 ^ 63 -> len term = 0 -> 1 <= zlen Q ->
  built vol P Q prev runs i
    (mp_build_loop vol (P ++ Q) (zlen P) (zlen (P ++ Q) - 1) prev (runs ++ term :: tl) i).
Proof.
  induction runs as [|r runs IH]; intros P Q prev i term tl M Hp Ht HQ;
    cbn [app mp_build_loop].
  - zdec. destruct Q as [|q Q]; [unfold zlen in HQ; cbn in HQ; lia|].
    rewrite aset_mid by done. cbn [mbind res_bind].
    exists 0%nat, Q. cbn [take mp_encode app length]. split; [lia|].
    split; [do 3 f_equal; lia|]. split; [zlen_solve|lia].
  - inversion M as [|? ? Mr Ms]; subst.
    destruct (mappable_s64 r prev Mr Hp) as (S1 & S2 & -> & ->).
    rewrite (wraps_small 64 _ ltac:(lia) S2).
    destruct (mp_emit_spec vol P Q r (len r) (lcn r - prev) (zlen P) (zlen (P ++ Q) - 1))
      as (Q' & L & E & F); [done..|]. cbn zeta in *. fold (mp_entry vol prev r) in *.
    rewrite E. cbn [mbind res_bind]. fold (next_prev vol prev r).
    destruct (Z.leb_spec (zlen (mp_entry vol prev r) + 1) (zlen Q)) as [Hfit|Hfit].
    + rewrite F by done. set (e := mp_entry vol prev r) in *.
      assert (zlen (P ++ Q) = zlen ((P ++ e) ++ drop (length e) Q)) as ->
        by (unfold zlen in *; rewrite !length_app, length_drop; lia).
      rewrite <- zlen_app, (app_assoc P e). eapply built_cons; [done..|].
      apply IH; [done|by apply next_prev_range|done|].
      unfold zlen in *. rewrite length_drop. lia.
    + by apply size_err_built.
Qed.

(** Finding the first element: the runs from [s] on are left. *)
Lemma skip_to_spec runs : forall v0 term tl s i,
  contig v0 runs -> vcn term = runs_end v0 runs -> len term = 0 -> v0 <= s ->
  exists skipped rest, runs = skipped ++ rest /\
    skip_to (runs ++ term :: tl) i s = Ok (rest ++ term :: tl, i + zlen skipped) /\
    match rest with
    | [] => runs_from s runs = [] /\ runs_end v0 runs <= s
    | r :: rs => runs_from s runs = run_from s r :: rs /\ vcn r <= s < vcn r + len r
    end.
Proof.
  induction runs as [|r runs IH]; intros v0 term tl s i C T L Hs; cbn [app skip_to runs_end] in *.
  - exists [], []. rewrite L, zlen_nil, Z.add_0_r. done.
  - destruct C as (V & P & C). zdec.
    destruct (next_vcn (v0 + len r) runs term tl C T) as (r1 & rest & Eq & V1).
    rewrite Eq, V1. rewrite <- Eq. cbn [runs_from]. rewrite V.
    destruct (Z.leb_spec (v0 + len r) s).
    + destruct (IH (v0 + len r) term tl s (i + 1)) as (sk & rs & -> & E & F); [done..|].
      exists (r :: sk), rs. split; [done|]. split; [|done]. rewrite E. do 2 f_equal.
      rewrite zlen_cons. lia.
    + exists [], (r :: runs). split; [done|]. rewrite zlen_nil, Z.add_0_r. split; [done|].
      split; [done|lia].
Qed.

Lemma run_from_mappable s r :
  mappable r -> vcn r <= s < vcn r + len r -> mappable (run_from s r).
Proof.
  intros M Hs. unfold run_from. destruct (Z.ltb_spec (vcn r) s); [|done].
  destruct M as ((O1 & O2 & O3 & O4) & L & Hl).
  unfold mappable, run_ok, LCN_HOLE in *. cbn. destruct (Z.leb_spec 0 (lcn r)); lia.
Qed.

(** The partial first run: its entry is the entry of the run from [s] on. *)
Lemma partial_run vol s r :
  mappable r -> vcn r < s < vcn r + len r ->
  partial_lcn r (s - vcn r) = lcn (run_from s r) /\
  len r - (s - vcn r) = len (run_from s r) /\
  stores_lcn vol (lcn (run_from s r)) = stores_lcn vol (lcn r).
Proof.
  intros ((O1 & O2 & O3 & O4) & L & Hl) Hs. unfold run_from, partial_lcn, stores_lcn. zdec.
  cbn. split_and!; [|lia|]; destruct (Z.leb_spec 0 (lcn r)); zdec; try done.
  rewrite s64_small; lia.
Qed.

Lemma build_partial vol dst s r rs term tl i :
  mappable r -> Forall mappable rs -> vcn r < s < vcn r + len r -> len term = 0 ->
  1 <= zlen dst ->
  built vol [] dst 0 (run_from s r :: rs) i
    ('(buf, next) ← mp_emit vol dst 0 (zlen dst - 1) r (s64 (len r - (s - vcn r)))
                      (partial_lcn r (s - vcn r));
     match next with
     | None => size_err buf 0 i
     | Some next => mp_build_loop vol buf next (zlen dst - 1)
         (if stores_lcn vol (lcn r) then partial_lcn r (s - vcn r) else 0)
         (rs ++ term :: tl) (i + 1)
     end).
Proof.
  intros Mr Ms Hs T HQ. destruct (partial_run vol s r Mr Hs) as (-> & -> & St).
  pose proof (run_from_mappable s r Mr ltac:(lia)) as Mf. rewrite <- St.
  destruct (mappable_s64 _ 0 Mf ltac:(lia)) as (S1 & S2 & _ & _).
  rewrite (wraps_small 64 _ ltac:(lia) S1).
  destruct (mp_emit_spec vol [] dst r (len (run_from s r)) (lcn (run_from s r)) 0
    (zlen dst - 1)) as (Q' & Lq & E & F); [done|by rewrite Z.sub_0_r in S2|done..|].
  cbn zeta in *. rewrite <- St in *. cbn [app] in E. rewrite E. cbn [mbind res_bind].
  fold (next_prev vol 0 (run_from s r)).
  rewrite <- mp_entry_0 in *. set (e := mp_entry _ _ _) in *.
  destruct (Z.leb_spec (zlen e + 1) (zlen dst)) as [Hfit|Hfit]; [|by apply (size_err_built _ [])].
  rewrite F by done. apply (built_cons _ [] _ _ _ _ _ e); [done..|]. cbn [app].
  replace (zlen dst) with (zlen (e ++ drop (length e) dst))
    by (unfold zlen in *; rewrite !length_app, length_drop; lia).
  rewrite Z.add_0_l. apply mp_build_loop_spec; try done.
  - apply next_prev_range; [done|lia].
  - unfold zlen in *. rewrite length_drop. lia.
Qed.

Lemma mp_build_spec vol dst rl v0 runs term s :
  rl_holds rl v0 runs term -> Forall mappable runs -> v0 <= s <= runs_end v0 runs ->
  1 <= zlen dst ->
  built vol [] dst 0 (runs_from s runs) (zlen runs - zlen (runs_from s runs))
    (ntfs_mapping_pairs_build vol dst (zlen dst) (Some rl) s).
Proof.
  intros [[tl ->] C O [T L] S0] M Hs HQ. unfold ntfs_mapping_pairs_build. zdec.
  destruct (skip_to_spec runs v0 term tl s 0 C T L ltac:(lia)) as (sk & rest & Er & -> & F).
  cbn [mbind res_bind].
  destruct rest as [|r rs]; destruct F as [F1 F2]; rewrite F1.
  - cbn [app]. rewrite app_nil_r in Er. subst sk. change (aget (term :: tl) 0) with (Ok term).
    cbn [mbind res_bind]. rewrite T. zdec.
    replace (zlen runs - zlen []) with (0 + zlen runs) by (rewrite zlen_nil; lia).
    by apply (mp_build_loop_spec vol [] [] dst).
  - cbn [app]. change (aget (r :: _) 0) with (Ok r). cbn [mbind res_bind tail].
    rewrite Er, zlen_app, !zlen_cons. rewrite Er in M.
    apply Forall_app in M as [_ M]. inversion M as [|? ? Mr Ms]; subst.
    destruct (mappable_s64 r 0 Mr ltac:(lia)) as (_ & _ & -> & ->). cbn [andb orb]. zdec.
    replace (zlen sk + (1 + zlen rs) - (1 + zlen rs)) with (0 + zlen sk) by lia.
    destruct (Z.ltb_spec (vcn r) s) as [Hlt|Hge].
    + rewrite (s64_small (s - vcn r)) by (destruct Mr as ((O1 & O2 & O3 & O4) & _); lia).
      apply build_partial; try done. lia.
    + unfold run_from. zdec. by apply (mp_build_loop_spec vol (r :: rs) [] dst).
Qed.

(** C12: into any buffer of at least one byte the entries of the first [k] runs
    from [s] on are written, then the terminator; [k] is as large as the buffer
    allows, the element behind them is reported, and the call succeeds exactly
    when nothing is left. *)
Theorem mapping_pairs_build_correct vol dst rl v0 runs term s :
  rl_holds rl v0 runs term -> Forall mappable runs -> v0 <= s <= runs_end v0 runs ->
  1 <= zlen dst ->
  let rs := runs_from s runs in
  exists k rest, let bytes := mp_encode vol 0 (take k rs) ++ [0] in
    (k <= length rs)%nat /\
    ntfs_mapping_pairs_build vol dst (zlen dst) (Some rl) s =
      Ok (mk_build (bytes ++ rest) (Some (zlen runs - zlen rs + Z.of_nat k))
            (if decide (k = length rs) then None else Some ENOSPC)) /\
    zlen (bytes ++ rest) = zlen dst /\
    ((k < length rs)%nat -> zlen dst < zlen (mp_encode vol 0 (take (S k) rs) ++ [0])).
Proof.
  intros Hrl M Hs Hd rs.
  destruct (mp_build_spec vol dst rl v0 runs term s Hrl M Hs Hd) as (k & Q & Hk & E & L & Mx).
  exists k, Q. cbn zeta. rewrite <- app_assoc. cbn [app] in *. split_and!; try done.
  - rewrite zlen_app, zlen_cons. fold rs in L. lia.
  - intros Hk'. specialize (Mx Hk'). rewrite zlen_app, zlen_cons, zlen_nil. fold rs in Mx. lia.
Qed.

(** ** The computed size *)

Lemma entry_size_spec vol r n delta :
  in_s 64 n -> in_s 64 delta ->
  entry_size vol r n delta = Ok (zlen (entry_bytes (stores_lcn vol (lcn r)) n delta)).
Proof.
  intros Hn Hd. unfold entry_size. rewrite !nr_significant_bytes_spec by done.
  cbn [mbind res_bind]. destruct (entry_bytes_length (stores_lcn vol (lcn r)) n delta) as [_ ->].
  destruct (stores_lcn _ _); done.
Qed.

(** [n] is the size of the array for [runs], or more than [max_size] and no
    more than that. *)
Definition sized vol prev runs (rls max_size n : Z) : Prop :=
  n <= rls + zlen (mp_encode vol prev runs) /\
  (n <= max_size -> n = rls + zlen (mp_encode vol prev runs)).

Lemma mp_size_loop_spec vol runs : forall prev rls max_size term tl,
  Forall mappable runs -> -1 <= prev < 2 ^ 63 -> len term = 0 ->
  0 <= rls -> rls + 17 * zlen runs < 2 ^ 31 ->
  exists n, mp_size_loop vol (runs ++ term :: tl) prev rls max_size = Ok n /\
    sized vol prev runs rls max_size n.
Proof.
  induction runs as [|r runs IH]; intros prev rls max_size term tl M Hp T Hr Hb;
    cbn [app mp_size_loop].
  - zdec. exists rls. split; [done|]. split; cbn [mp_encode]; rewrite zlen_nil; lia.
  - inversion M as [|? ? Mr Ms]; subst. rewrite zlen_cons in Hb.
    destruct (mappable_s64 r prev Mr Hp) as (S1 & S2 & -> & ->).
    pose proof (zlen_nonneg (mp_encode vol (next_prev vol prev r) runs)).
    pose proof (mp_entry_length vol prev r) as B. cbn [negb andb mp_encode].
    destruct (Z.leb_spec rls max_size).
    + rewrite (wraps_small 64 _ ltac:(lia) S2), entry_size_spec by done.
      cbn [mbind res_bind]. fold (next_prev vol prev r) (mp_entry vol prev r).
      pose proof (zlen_nonneg runs).
      rewrite (wraps_small 32) by (change (32 - 1) with 31; lia).
      destruct (IH (next_prev vol prev r) (rls + zlen (mp_entry vol prev r)) max_size term tl)
        as (n & E & F1 & F2); [done|by apply next_prev_range|done|lia|lia|].
      exists n. split; [done|]. unfold sized. cbn [mp_encode]. rewrite zlen_app. lia.
    + exists rls. split; [done|]. unfold sized. cbn [mp_encode]. rewrite zlen_app. lia.
Qed.

Lemma mp_size_spec vol rl v0 runs term s max_size :
  rl_holds rl v0 runs term -> Forall mappable runs -> v0 <= s <= runs_end v0 runs ->
  17 * zlen runs + 1 < 2 ^ 31 ->
  exists n, ntfs_get_size_for_mapping_pairs vol (Some rl) s max_size = Ok n /\
    sized vol 0 (runs_from s runs) 1 max_size n.
Proof.
  intros [[tl ->] C O [T L] S0] M Hs Hb. unfold ntfs_get_size_for_mapping_pairs. zdec.
  destruct (skip_to_spec runs v0 term tl s 0 C T L ltac:(lia)) as (sk & rest & Er & -> & F).
  cbn [mbind res_bind].
  destruct rest as [|r rs]; destruct F as [F1 F2]; rewrite F1.
  - cbn [app]. change (aget (term :: tl) 0) with (Ok term). cbn [mbind res_bind].
    rewrite T. zdec. apply (mp_size_loop_spec vol []); try done; zlen_solve.
  - cbn [app]. change (aget (r :: _) 0) with (Ok r). cbn [mbind res_bind tail].
    rewrite Er, zlen_app, zlen_cons in Hb. rewrite Er in M. pose proof (zlen_nonneg sk).
    apply Forall_app in M as [_ M]. inversion M as [|? ? Mr Ms]; subst.
    destruct (mappable_s64 r 0 Mr ltac:(lia)) as (_ & _ & -> & ->). cbn [andb orb]. zdec.
    destruct (Z.ltb_spec (vcn r) s) as [Hlt|Hge].
    2:{ unfold run_from. zdec. apply (mp_size_loop_spec vol (r :: rs)); try done; zlen_solve. }
    rewrite (s64_small (s - vcn r)) by (destruct Mr as ((O1 & O2 & O3 & O4) & _); lia).
    destruct (partial_run vol s r Mr ltac:(lia)) as (-> & -> & St). rewrite <- St.
    pose proof (run_from_mappable s r Mr ltac:(lia)) as Mf.
    destruct (mappable_s64 _ 0 Mf ltac:(lia)) as (S1 & S2 & _ & _). rewrite Z.sub_0_r in S2.
    rewrite (wraps_small 64 _ ltac:(lia) S1), entry_size_spec by done.
    cbn [mbind res_bind]. rewrite <- St. fold (next_prev vol 0 (run_from s r)).
    rewrite <- mp_entry_0. pose proof (mp_entry_length vol 0 (run_from s r)) as B.
    pose proof (zlen_nonneg rs). rewrite (wraps_small 32) by (change (32 - 1) with 31; lia).
    destruct (mp_size_loop_spec vol rs (next_prev vol 0 (run_from s r))
      (1 + zlen (mp_entry vol 0 (run_from s r))) max_size term tl) as (n & E & G1 & G2);
      [done|apply next_prev_range; [done|lia]|done|lia|lia|].
    exists n. split; [done|]. unfold sized. cbn [mp_encode]. rewrite zlen_app. lia.
Qed.

Lemma mp_encode_app vol l1 : forall prev l2,
  mp_encode vol prev (l1 ++ l2) =
  mp_encode vol prev l1 ++ mp_encode vol (foldl (next_prev vol) prev l1) l2.
Proof.
  induction l1 as [|r l1 IH]; intros prev l2; cbn [app mp_encode foldl]; [done|].
  by rewrite IH, app_assoc.
Qed.

Lemma mp_encode_take vol runs prev k :
  zlen (mp_encode vol prev (take k runs)) <= zlen (mp_encode vol prev runs).
Proof.
  rewrite <- (take_drop k runs) at 2. rewrite mp_encode_app, zlen_app.
  pose proof (zlen_nonneg (mp_encode vol (foldl (next_prev vol) prev (take k runs))
    (drop k runs))). lia.
Qed.

Lemma mp_encode_ge vol runs : forall prev, 2 * zlen runs <= zlen (mp_encode vol prev runs).
Proof.
  induction runs as [|r runs IH]; intros prev; cbn [mp_encode]; [by rewrite !zlen_nil|].
  rewrite zlen_app, zlen_cons. pose proof (mp_entry_length vol prev r).
  specialize (IH (next_prev vol prev r)). lia.
Qed.

(** C13: the computed size decides whether the array fits. *)
Theorem mapping_pairs_size_decides vol dst rl v0 runs term s max_size :
  rl_holds rl v0 runs term -> Forall mappable runs -> v0 <= s <= runs_end v0 runs ->
  17 * zlen runs + 1 < 2 ^ 31 -> 1 <= zlen dst <= max_size ->
  exists n out, ntfs_get_size_for_mapping_pairs vol (Some rl) s max_size = Ok n /\
    ntfs_mapping_pairs_build vol dst (zlen dst) (Some rl) s = Ok out /\
    (b_err out = None <-> n <= zlen dst).
Proof.
  intros Hrl M Hs Hb Hd.
  destruct (mp_size_spec vol rl v0 runs term s max_size) as (n & E & F1 & F2); [done..|].
  destruct (mp_build_spec vol dst rl v0 runs term s)
    as (k & Q' & Hk & -> & Hl & Hmax); [done..|lia|].
  eexists n, _. split; [done|]. split; [done|]. cbn [b_err].
  destruct (decide (k = _)) as [->|Hne].
  - rewrite take_ge in Hl by lia. split; [intros _|done]. pose proof (zlen_nonneg Q'). lia.
  - split; [done|]. intros Hn. specialize (Hmax ltac:(lia)).
    pose proof (mp_encode_take vol (runs_from s runs) 0 (S k)). lia.
Qed.

(** ** A concrete runlist *)

Definition demo_runs : runlist := [mk_rle 0 300 200; mk_rle 200 (-1) 16; mk_rle 216 100 40].
Definition demo_term : runlist_element := mk_rle 256 LCN_ENOENT 0.

Lemma demo_holds : rl_holds (demo_runs ++ [demo_term]) 0 demo_runs demo_term.
Proof. split; [by exists []|cbn; lia|compute_decide|done|lia]. Defined.

(** Eight bytes hold the first two runs from vcn 10 on. *)
Lemma mapping_pairs_build_correct_witness :
  let rs := runs_from 10 demo_runs in
  exists k rest, let bytes := mp_encode (sample_volume 3 false) 0 (take k rs) ++ [0] in
    (k <= length rs)%nat /\
    ntfs_mapping_pairs_build (sample_volume 3 false) (replicate 8 0) (zlen (replicate 8 0))
      (Some (demo_runs ++ [demo_term])) 10 =
      Ok (mk_build (bytes ++ rest) (Some (zlen demo_runs - zlen rs + Z.of_nat k))
            (if decide (k = length rs) then None else Some ENOSPC)) /\
    zlen (bytes ++ rest) = zlen (replicate 8 0) /\
    ((k < length rs)%nat ->
     zlen (replicate 8 0) < zlen (mp_encode (sample_volume 3 false) 0 (take (S k) rs) ++ [0])).
Proof.
  apply (mapping_pairs_build_correct (sample_volume 3 false) (replicate 8 0)
    (demo_runs ++ [demo_term]) 0 demo_runs demo_term 10).
  - exact demo_holds.
  - compute_decide.
  - cbn. lia.
  - vm_compute. discriminate.
Defined.

Lemma mapping_pairs_size_decides_witness :
  exists n out, ntfs_get_size_for_mapping_pairs (sample_volume 3 false)
      (Some (demo_runs ++ [demo_term])) 10 1024 = Ok n /\
    ntfs_mapping_pairs_build (sample_volume 3 false) (replicate 8 0) (zlen (replicate 8 0))
      (Some (demo_runs ++ [demo_term])) 10 = Ok out /\
    (b_err out = None <-> n <= zlen (replicate 8 0)).
Proof.
  apply (mapping_pairs_size_decides (sample_volume 3 false) (replicate 8 0)
    (demo_runs ++ [demo_term]) 0 demo_runs demo_term 10 1024).
  - exact demo_holds.
  - compute_decide.
  - cbn. lia.
  - vm_compute. reflexivity.
  - vm_compute. split; discriminate.
Defined.
