(* ===== verification/MappingPairsRead.v ===== *)
(** Reading mapping pairs arrays (libntfs/runlist.c,
    [ntfs_mapping_pairs_decompress_i]): the array that
    [ntfs_mapping_pairs_build] wrote gives its runs again, and any array,
    valid or not, is read within the attribute record plus one byte. *)

From S2P Require Import Prelude Volume Runlist RunlistMerge MappingPairs MappingPairsThm.

(** ** Specification *)

(** Entries fsck does not take for corrupted: no lcn change of zero behind
    the first element. *)
Fixpoint deltas_ok (vol : ntfs_volume) (pos prev : Z) (runs : runlist) : Prop :=
  match runs with
  | [] => True
  | r :: runs =>
      (on_fsck vol = true -> pos <> 0 -> stores_lcn vol (lcn r) = true -> lcn r <> prev) /\
      deltas_ok vol (pos + 1) (next_prev vol prev r) runs
  end.

(** The clusters [allocated_size] stands for. *)
Definition num_clusters (vol : ntfs_volume) (attr : attr_record) : Z :=
  Z.shiftr (s64 (allocated_size attr + cluster_size vol - 1)) (cluster_size_bits vol).

(** The runlist read from an array for [runs], from [lowest_vcn] to [e]. *)
Definition read_list (vol : ntfs_volume) (attr : attr_record) (runs : runlist) (e : Z) : runlist :=
  if lowest_vcn attr =? 0 then
    let nc := num_clusters vol attr in
    if e <? nc
    then runs ++ [mk_rle e LCN_RL_NOT_MAPPED (nc - e); mk_rle nc LCN_ENOENT 0]
    else runs ++ [mk_rle e LCN_ENOENT 0]
  else mk_rle 0 LCN_RL_NOT_MAPPED (lowest_vcn attr) :: runs ++ [mk_rle e LCN_RL_NOT_MAPPED 0].

(** [st] holds the elements [done], and there is room for two more. *)
Definition mp_inv (st : mp_state) (done : runlist) (room : Z) : Prop :=
  exists junk, m_rl st = done ++ junk /\ m_rlpos st = zlen done /\
    zlen (m_rl st) = rl_capacity (m_rlsize st) /\ room <= zlen junk /\ 0 <= m_rlsize st.

(** * Proofs *)

Lemma header_nibbles hdr :
  0 <= hdr < 256 -> exists a b, hdr = 16 * b + a /\ 0 <= a < 16 /\ 0 <= b < 16 /\
    Z.land hdr 0xf = a /\ Z.land (Z.shiftr hdr 4) 0xf = b /\
    (Z.land hdr 0xf0 =? 0) = (b =? 0).
Proof.
  intros H. exists (hdr mod 16), (hdr / 16).
  assert (forall hdr, 0 <= hdr < 0 + 256 ->
    Z.land hdr 0xf = hdr mod 16 /\ Z.land (Z.shiftr hdr 4) 0xf = hdr / 16 /\
    (Z.land hdr 0xf0 =? 0) = (hdr / 16 =? 0)) as F.
  { apply Forall_seqZ. compute_decide. }
  specialize (F hdr H). split_and!; try apply F; dlia.
Qed.

(** The header byte of an entry, and its nibbles. *)
Definition entry_hdr (vol : ntfs_volume) (prev : Z) (r : runlist_element) : Z :=
  16 * zlen (if stores_lcn vol (lcn r) then number_bytes (lcn r - prev) else [])
  + zlen (number_bytes (len r)).

Lemma mp_entry_hdr vol prev r : exists body, mp_entry vol prev r = entry_hdr vol prev r :: body.
Proof. unfold mp_entry, entry_bytes, entry_hdr. eauto. Qed.

Lemma entry_hdr_nibbles vol prev r :
  let hdr := entry_hdr vol prev r in
  Z.land hdr 0xf = zlen (number_bytes (len r)) /\
  Z.land (Z.shiftr hdr 4) 0xf =
    (if stores_lcn vol (lcn r) then zlen (number_bytes (lcn r - prev)) else 0) /\
  (Z.land hdr 0xf0 =? 0) = negb (stores_lcn vol (lcn r)) /\ hdr <> 0.
Proof.
  cbn zeta. unfold entry_hdr.
  pose proof (sig_bytes_length 7 (len r)). pose proof (sig_bytes_length 7 (lcn r - prev)).
  destruct (header_nibbles (16 * zlen (if stores_lcn vol (lcn r)
    then number_bytes (lcn r - prev) else []) + zlen (number_bytes (len r))))
    as (a & b & Eh & Ha & Hb & -> & -> & ->); [destruct (stores_lcn _ _); rewrite ?zlen_nil; lia|].
  destruct (stores_lcn _ _); rewrite ?zlen_nil in *; cbn [negb]; split_and!; lia.
Qed.

Section heap.
Context {HP : Heap}.

(** Growing keeps the elements and leaves room for three. *)
Lemma mp_grow_spec st done :
  mp_inv st done 2 ->
  mp_grow st = None /\ (exists n, heap_grants n = false) \/
  exists st', mp_grow st = Some st' /\ mp_inv st' done 3 /\
    m_vcn st' = m_vcn st /\ m_lcn st' = m_lcn st /\ m_buf st' = m_buf st.
Proof.
  intros (junk & E & Hpos & Hc & Hj & Hs). unfold mp_grow. pose proof (zlen_nonneg done).
  assert (zlen done + zlen junk = m_rlsize st / 24) as Hcap
    by (rewrite <- zlen_app, <- E, Hc; done).
  unfold sizeof_rle. destruct (Z.ltb_spec (m_rlsize st) ((m_rlpos st + 3) * 24)) as [Hg|Hg].
  - rewrite E. destruct (rl_resize (done ++ junk) (m_rlsize st + 4096)) as [rl|e|] eqn:Er.
    + apply rl_resize_grow in Er as (junk' & -> & L); [|unfold rl_capacity, sizeof_rle; dlia].
      right. eexists. split; [done|]. split; [|done].
      exists junk'. cbn. rewrite zlen_app in *. unfold rl_capacity, sizeof_rle in *.
      split_and!; try done; dlia.
    + left. split; [done|]. exists (m_rlsize st + 4096). revert Er. unfold rl_resize.
      by destruct (heap_grants _).
    + left. split; [done|]. exists (m_rlsize st + 4096). revert Er. unfold rl_resize.
      by destruct (heap_grants _).
  - right. exists st. split; [done|]. split; [|done]. exists junk. split_and!; try done. dlia.
Qed.

(** The length of the entry for [r] at [P]. *)
Lemma mp_length_spec vol P r prev Q attr_end :
  mappable r -> zlen P + zlen (mp_entry vol prev r) <= attr_end ->
  mp_length (P ++ mp_entry vol prev r ++ Q) (zlen P) attr_end (entry_hdr vol prev r) =
    Ok (Some (len r)).
Proof.
  intros M He. unfold mp_length.
  destruct (entry_hdr_nibbles vol prev r) as (-> & _ & _).
  destruct (mappable_s64 r 0 M ltac:(lia)) as (S1 & _).
  unfold mp_entry in *.
  destruct (entry_bytes_length (stores_lcn vol (lcn r)) (len r) (lcn r - prev)) as [_ EB].
  rewrite EB in He. pose proof (sig_bytes_length 7 (len r)).
  pose proof (zlen_nonneg (number_bytes (lcn r - prev))).
  assert ((attr_end <? zlen P + zlen (number_bytes (len r))) = false) as ->
    by (destruct (stores_lcn _ _); lia).
  zdec. unfold entry_bytes. cbn [app]. rewrite <- app_assoc.
  rewrite (cons_middle _ P), (app_assoc P).
  rewrite mp_number_spec; [|apply sig_bytes_u8|lia|zlen_solve|lia].
  cbn [mbind res_bind]. rewrite sval_sig_bytes; [done|exact S1].
Qed.

(** Its lcn. *)
Lemma mp_lcn_spec vol P r prev Q attr_end pos :
  mappable r -> -1 <= prev < 2 ^ 63 ->
  (on_fsck vol = true -> pos <> 0 -> stores_lcn vol (lcn r) = true -> lcn r <> prev) ->
  zlen P + zlen (mp_entry vol prev r) <= attr_end ->
  forall r0, vcn r0 = vcn r -> len r0 = len r ->
  mp_lcn vol (P ++ mp_entry vol prev r ++ Q) (zlen P) attr_end (entry_hdr vol prev r) prev pos r0 =
    Ok (Some (r, next_prev vol prev r)).
Proof.
  intros M Hp Hf He r0 Ev El.
  destruct (mappable_s64 r prev M Hp) as (S1 & S2 & _ & _).
  destruct M as ((O1 & O2 & O3 & O4) & L & Hl). unfold LCN_HOLE in Hl.
  unfold mp_lcn. destruct (entry_hdr_nibbles vol prev r) as (-> & -> & -> & _).
  unfold mp_entry, next_prev in *.
  destruct (entry_bytes_length (stores_lcn vol (lcn r)) (len r) (lcn r - prev)) as [_ EB].
  rewrite EB in He. clear EB. pose proof (sig_bytes_length 7 (len r)).
  pose proof (sig_bytes_length 7 (lcn r - prev)).
  destruct (stores_lcn vol (lcn r)) eqn:Est; cbn [negb].
  - zdec. unfold entry_bytes. cbn [app].
    rewrite <- (app_assoc (number_bytes (len r))), (cons_middle _ P), !(app_assoc P).
    rewrite (app_assoc (P ++ _)).
    rewrite mp_number_spec; [|apply sig_bytes_u8|lia|zlen_solve|lia].
    cbn [mbind res_bind]. rewrite sval_sig_bytes by exact S2. rewrite s64_small by lia.
    replace (prev + (lcn r - prev)) with (lcn r) by lia.
    assert (on_fsck vol && (lcn r - prev =? 0) && negb (pos =? 0) = false) as ->.
    { destruct (on_fsck vol); [|done]. specialize (Hf eq_refl).
      destruct (Z.eqb_spec pos 0); [by rewrite andb_false_r|]. specialize (Hf n eq_refl). lia. }
    rewrite El. zdec. rewrite andb_false_r. destruct r, r0; cbn in *; subst; done.
  - assert (lcn r = -1).
    { unfold stores_lcn in Est. destruct (Z.leb_spec 0 (lcn r)); [done|lia]. }
    destruct r, r0; cbn in *; subst; done.
Qed.

(** One round at an entry for [r]. *)
Lemma mp_step_spec vol P r prev Q attr_end st done :
  mappable r -> -1 <= prev < 2 ^ 63 ->
  (on_fsck vol = true -> zlen done <> 0 -> stores_lcn vol (lcn r) = true -> lcn r <> prev) ->
  zlen P + zlen (mp_entry vol prev r) <= attr_end ->
  (forall n, heap_grants n = true) -> mp_inv st done 2 -> zlen done + 1 < 2 ^ 16 ->
  m_vcn st = vcn r -> m_lcn st = prev -> m_buf st = zlen P ->
  exists st', mp_step vol (P ++ mp_entry vol prev r ++ Q) attr_end (entry_hdr vol prev r) st =
      Ok (MpNext st') /\
    mp_inv st' (done ++ [r]) 2 /\ m_vcn st' = vcn r + len r /\
    m_lcn st' = next_prev vol prev r /\ m_buf st' = zlen (P ++ mp_entry vol prev r).
Proof.
  intros M Hp Hf He Hheap Hinv Hn Ev El Eb.
  destruct (mp_grow_spec st done Hinv) as [[_ [n Hg]]|(st1 & Hg & Hinv1 & G1 & G2 & G3)];
    [by rewrite Hheap in Hg|].
  destruct Hinv1 as (junk & Er & Epos & Hc & Hj & Hs).
  destruct junk as [|x junk]; [zlen_solve|]. rewrite zlen_cons in Hj.
  unfold mp_step. rewrite Hg, Er, Epos, aget_mid by done. cbn [mbind res_bind].
  rewrite aset_mid by done. cbn [mbind res_bind]. rewrite G1, G2, G3, Ev, El, Eb.
  destruct (mappable_s64 r prev M Hp) as (S1 & S2 & _ & Hl0).
  rewrite mp_length_spec by done.
  cbn [mbind res_bind]. assert ((len r <? 0) = false) as -> by (destruct M as (_ & ? & _); lia).
  rewrite aset_mid by done. cbn [mbind res_bind].
  rewrite mp_lcn_spec by done. cbn [mbind res_bind]. rewrite aset_mid by done.
  cbn [mbind res_bind]. rewrite Hl0. cbn [negb]. eexists. split; [done|].
  cbn [m_vcn m_lcn m_buf m_rl m_rlpos m_rlsize].
  split; [|split; [|split; [done|]]].
  - exists junk. cbn [m_rl m_rlpos m_rlsize]. rewrite <- app_assoc. cbn [app]. split; [done|].
    rewrite u16_small by (pose proof (zlen_nonneg done); lia). rewrite Er in Hc.
    split; [zlen_solve|]. split; [zlen_solve|]. split; [lia|done].
  - destruct M as ((O1 & O2 & _) & L & _). rewrite s64_small; lia.
  - destruct (entry_hdr_nibbles vol prev r) as (-> & -> & _). rewrite zlen_app. unfold mp_entry.
    destruct (entry_bytes_length (stores_lcn vol (lcn r)) (len r) (lcn r - prev)) as [_ ->]. lia.
Qed.

(** The loop reads the entries of [runs] up to the terminator. *)
Lemma mp_loop_spec vol (Hheap : forall n, heap_grants n = true) Q attr_end runs :
  forall P prev st done fuel,
  Forall mappable runs -> contig (m_vcn st) runs -> -1 <= prev < 2 ^ 63 ->
  deltas_ok vol (zlen done) prev runs ->
  zlen (P ++ mp_encode vol prev runs) < attr_end -> (length runs <= fuel)%nat ->
  mp_inv st done 2 -> zlen done + zlen runs < 2 ^ 16 ->
  m_lcn st = prev -> m_buf st = zlen P ->
  exists st', mp_loop vol fuel (P ++ mp_encode vol prev runs ++ 0 :: Q) attr_end st =
      Ok (MpNext st') /\
    mp_inv st' (done ++ runs) 2 /\ m_vcn st' = runs_end (m_vcn st) runs /\
    m_buf st' = zlen (P ++ mp_encode vol prev runs).
Proof.
  induction runs as [|r runs IH];
    intros P prev st done fuel M C Hp D Ha Hf Hinv Hn El Eb; cbn [mp_encode] in *.
  - rewrite !app_nil_r in *. exists st. cbn [app].
    destruct fuel; cbn [mp_loop]; rewrite Eb; zdec; rewrite aget_mid by done; done.
  - inversion M as [|? ? Mr Ms]; subst. destruct C as (Cv & Cl & C), D as [D1 D].
    rewrite !zlen_app in Ha. rewrite zlen_cons in Hn.
    pose proof (zlen_nonneg (mp_encode vol (next_prev vol (m_lcn st) r) runs)).
    pose proof (zlen_nonneg runs). pose proof (mp_entry_length vol (m_lcn st) r).
    destruct fuel as [|fuel]; [cbn in Hf; lia|]. cbn [mp_loop]. rewrite Eb. zdec.
    rewrite <- (app_assoc (mp_entry _ _ _)).
    destruct (mp_step_spec vol P r (m_lcn st) (mp_encode vol (next_prev vol (m_lcn st) r) runs
      ++ 0 :: Q) attr_end st done) as (st' & E & I & V & L & B); try done; [lia..|].
    assert (aget (P ++ mp_entry vol (m_lcn st) r ++ mp_encode vol (next_prev vol (m_lcn st) r) runs
      ++ 0 :: Q) (zlen P) = Ok (entry_hdr vol (m_lcn st) r)) as ->.
    { destruct (mp_entry_hdr vol (m_lcn st) r) as [body ->]. cbn [app]. by rewrite aget_mid. }
    cbn [mbind res_bind]. destruct (entry_hdr_nibbles vol (m_lcn st) r) as (_ & _ & _ & Hnz).
    assert ((entry_hdr vol (m_lcn st) r =? 0) = false) as -> by (by apply Z.eqb_neq).
    rewrite E. cbn [mbind res_bind]. rewrite (app_assoc P).
    destruct (IH (P ++ mp_entry vol (m_lcn st) r) (next_prev vol (m_lcn st) r) st' (done ++ [r]) fuel)
      as (st2 & E2 & I2 & V2 & B2).
    all: rewrite ?V, ?zlen_app, ?zlen_cons, ?zlen_nil; try done; try lia.
    + rewrite <- Cv in C. exact C.
    + by apply next_prev_range.
    + cbn in Hf. lia.
    + by rewrite B, zlen_app.
    + exists st2. rewrite <- app_assoc in I2. split; [done|]. split; [done|].
      rewrite V2, V, B2. cbn [runs_end]. rewrite Cv. split; [done|].
      rewrite !zlen_app. lia.
Qed.

(** The start: the unmapped element below [lowest_vcn] is in place. *)
Lemma mp_start_spec attr :
  (forall n, heap_grants n = true) ->
  exists st, mp_start attr = Ok st /\
    mp_inv st (if lowest_vcn attr =? 0 then []
               else [mk_rle 0 LCN_RL_NOT_MAPPED (lowest_vcn attr)]) 2 /\
    m_vcn st = lowest_vcn attr /\ m_lcn st = 0 /\ m_buf st = mapping_pairs_offset attr.
Proof.
  intros Hh. unfold mp_start.
  destruct (rl_resize [] 4096) as [rl|e|] eqn:E;
    try (revert E; unfold rl_resize; rewrite Hh; done).
  apply (rl_resize_grow [] []) in E as (junk & -> & L); [|done].
  change (rl_capacity 4096) with 170 in L. cbn [mbind res_bind app] in *.
  destruct (lowest_vcn attr =? 0); cbn [negb].
  - eexists. split; [done|]. split; [|done]. exists junk. cbn. split_and!; try done. lia.
  - destruct junk as [|x junk]; [done|]. rewrite zlen_cons in L.
    change (aset (x :: junk) 0) with (aset ([] ++ x :: junk) 0).
    rewrite aset_mid by done. eexists. split; [done|]. split; [|done].
    exists junk. cbn [m_rl m_rlpos m_rlsize app]. rewrite !zlen_cons. split_and!; try done; lia.
Qed.

Lemma mp_finish_spec vol attr attr_end st done e :
  mp_inv st done 2 -> m_buf st < attr_end -> m_vcn st = e -> 0 <= e < 2 ^ 63 ->
  zlen done + 1 < 2 ^ 16 -> num_clusters vol attr < 2 ^ 63 ->
  highest_vcn attr = 0 \/ highest_vcn attr = e - 1 ->
  (lowest_vcn attr = 0 -> e <= num_clusters vol attr) ->
  exists st' pre post, mp_finish vol attr attr_end st = Ok (MpNext st') /\
    m_rl st' = pre ++ post /\
    pre = done ++ (if lowest_vcn attr =? 0 then
                     if e <? num_clusters vol attr
                     then [mk_rle e LCN_RL_NOT_MAPPED (num_clusters vol attr - e);
                           mk_rle (num_clusters vol attr) LCN_ENOENT 0]
                     else [mk_rle e LCN_ENOENT 0]
                   else [mk_rle e LCN_RL_NOT_MAPPED 0]).
Proof.
  intros (junk & Er & Epos & Hc & Hj & Hs) Hb Ev He Hn Hnc Hh Hlow.
  destruct junk as [|x [|y junk]]; [zlen_solve..|]. unfold mp_finish. fold (num_clusters vol attr).
  rewrite Ev, Er, Epos, s64_small by lia. pose proof (zlen_nonneg done). zdec.
  assert (negb (highest_vcn attr =? 0) && negb (e - 1 =? highest_vcn attr) = false) as ->
    by (destruct Hh as [-> | ->]; [done|]; rewrite Z.eqb_refl; apply andb_false_r).
  destruct (Z.eqb_spec (lowest_vcn attr) 0) as [E0|E0].
  - specialize (Hlow E0). destruct (Z.ltb_spec e (num_clusters vol attr)).
    + rewrite aset_mid by done. cbn [mbind res_bind]. rewrite u16_small by lia.
      rewrite (s64_small (num_clusters vol attr - e)) by lia. rewrite s64_small by lia.
      rewrite (cons_middle _ done), app_assoc.
      rewrite aset_mid by zlen_solve. cbn [mbind res_bind]. eexists _, _, junk.
      split; [done|]. cbn [m_rl]. split; [|done]. rewrite <- !app_assoc. cbn [app].
      replace (e + (num_clusters vol attr - e)) with (num_clusters vol attr) by lia. done.
    + zdec. cbn [mbind res_bind]. rewrite aset_mid by done. cbn [mbind res_bind].
      eexists _, _, (y :: junk). split; [done|]. cbn [m_rl]. split; [|done].
      by rewrite <- app_assoc.
  - cbn [mbind res_bind]. rewrite aset_mid by done. cbn [mbind res_bind].
    eexists _, _, (y :: junk). split; [done|]. cbn [m_rl]. split; [|done].
    by rewrite <- app_assoc.
Qed.

End heap.

(** Reading an array of entries for [runs]. *)
Lemma mp_read_spec `{Heap} vol attr P Q runs want_part :
  (forall n, heap_grants n = true) -> non_resident attr = true -> 0 <= lowest_vcn attr ->
  attr_mem attr = P ++ mp_encode vol 0 runs ++ 0 :: Q -> mapping_pairs_offset attr = zlen P ->
  zlen (P ++ mp_encode vol 0 runs) < attr_length attr ->
  contig (lowest_vcn attr) runs -> Forall mappable runs ->
  deltas_ok vol (if lowest_vcn attr =? 0 then 0 else 1) 0 runs ->
  let e := runs_end (lowest_vcn attr) runs in
  e < 2 ^ 63 -> zlen runs + 2 < 2 ^ 16 -> num_clusters vol attr < 2 ^ 63 ->
  highest_vcn attr = 0 \/ highest_vcn attr = e - 1 ->
  (lowest_vcn attr = 0 -> e <= num_clusters vol attr) ->
  exists junk, ntfs_mapping_pairs_decompress_i vol (Some attr) None want_part =
    Ok (mk_out (inl (read_list vol attr runs e ++ junk)) None OldKept).
Proof.
  intros Hh Hnr Hlv Hm Ho Hl C M D e He Hn Hnc Hhv Hlow.
  unfold ntfs_mapping_pairs_decompress_i. rewrite Hnr. rewrite zlen_app in Hl.
  pose proof (zlen_nonneg P). pose proof (zlen_nonneg (mp_encode vol 0 runs)).
  rewrite Ho. zdec.
  destruct (mp_start_spec attr Hh) as (st & -> & I & V & L & B).
  set (pre := if lowest_vcn attr =? 0 then [] else _) in *.
  assert (zlen pre = if lowest_vcn attr =? 0 then 0 else 1) as Lp
    by (unfold pre; destruct (_ =? 0); done).
  rewrite Hm.
  destruct (mp_loop_spec vol Hh Q (attr_length attr) runs P 0 st pre
    (Z.to_nat (attr_length attr))) as (st' & -> & I' & V' & B'); try done; try lia.
  - by rewrite V.
  - by rewrite Lp.
  - rewrite zlen_app. lia.
  - pose proof (mp_encode_ge vol runs 0). unfold zlen in *. lia.
  - destruct (lowest_vcn attr =? 0); lia.
  - cbn [mbind res_bind]. pose proof (contig_end_ge _ _ C).
    destruct (mp_finish_spec vol attr (attr_length attr) st' (pre ++ runs) e)
      as (st2 & pl & post & -> & Er & Epl); try done.
    + rewrite B', zlen_app. lia.
    + by rewrite V', V.
    + lia.
    + rewrite zlen_app. destruct (lowest_vcn attr =? 0); lia.
    + exists post. cbn [mbind res_bind]. unfold mp_combine, old_mapped. cbn [mbind res_bind].
      do 3 f_equal. rewrite Er, Epl. unfold read_list, pre.
      destruct (lowest_vcn attr =? 0); [|done].
      by destruct (e <? num_clusters vol attr).
Qed.

(** ** The runs from a vcn on *)

Lemma runs_from_end s runs : forall v0,
  contig v0 runs -> v0 <= s <= runs_end v0 runs ->
  contig s (runs_from s runs) /\ runs_end s (runs_from s runs) = runs_end v0 runs.
Proof.
  induction runs as [|r runs IH]; intros v0 C Hs; cbn [runs_from runs_end] in *; [split; [done|lia]|].
  destruct C as (V & P & C). rewrite V. destruct (Z.leb_spec (v0 + len r) s).
  - apply IH; [done|lia].
  - unfold run_from. rewrite V. destruct (Z.ltb_spec v0 s); cbn [contig runs_end vcn len].
    + split; [split_and!; [done|lia|]|].
      all: by replace (s + (v0 + len r - s)) with (v0 + len r) by lia.
    + assert (s = v0) as -> by lia. done.
Qed.

Lemma rl_den_run_from s r v :
  vcn r <= s -> rl_den [run_from s r] v = if s <=? v then rl_den [r] v else None.
Proof.
  intros Hs. unfold run_from, rl_den, lcn_at. cbn [vcn len lcn].
  destruct (Z.ltb_spec (vcn r) s); cbn [vcn len lcn].
  - destruct (Z.leb_spec s v); [|zdec; done].
    replace (s + (vcn r + len r - s)) with (vcn r + len r) by lia.
    zdec. destruct (v <? vcn r + len r); [|done]. f_equal.
    destruct (Z.leb_spec 0 (lcn r)); zdec; lia.
  - destruct (Z.leb_spec s v); [done|]. by zdec.
Qed.

Lemma rl_den_runs_from s runs : forall v0 v,
  contig v0 runs -> v0 <= s ->
  rl_den (runs_from s runs) v = if s <=? v then rl_den runs v else None.
Proof.
  induction runs as [|r runs IH]; intros v0 v C Hs; cbn [runs_from]; [by destruct (s <=? v)|].
  destruct C as (V & P & C). destruct (Z.leb_spec (vcn r + len r) s).
  - rewrite (IH (v0 + len r)) by (done || lia). destruct (Z.leb_spec s v); [|done].
    cbn [rl_den]. by zdec.
  - pose proof (rl_den_run_from s r v ltac:(lia)) as E. cbn [rl_den] in E |- *.
    destruct (Z.leb_spec s v) as [Hv|Hv].
    + destruct ((vcn (run_from s r) <=? v) && _), ((vcn r <=? v) && _); done.
    + destruct ((vcn (run_from s r) <=? v) && _); [done|].
      apply (rl_den_before (v0 + len r)); [done|lia].
Qed.

Lemma runs_from_mappable s runs :
  Forall mappable runs -> Forall mappable (runs_from s runs).
Proof.
  induction 1 as [|r runs M Ms IH]; cbn [runs_from]; [done|].
  destruct (Z.leb_spec (vcn r + len r) s); [done|]. constructor; [|done].
  destruct (Z.lt_ge_cases (vcn r) s).
  - apply run_from_mappable; [done|lia].
  - unfold run_from. by zdec.
Qed.

Lemma runs_from_length s runs : zlen (runs_from s runs) <= zlen runs.
Proof.
  induction runs as [|r runs IH]; cbn [runs_from]; [done|].
  destruct (_ <=? _); rewrite ?zlen_cons; lia.
Qed.

(** C3: what [ntfs_mapping_pairs_build] writes, [ntfs_mapping_pairs_decompress_i]
    reads back: the runs from [s] on, with the clusters they had. *)
Theorem mapping_pairs_roundtrip `{Heap} vol rl v0 runs term s dst out attr P Q want_part :
  (forall n, heap_grants n = true) ->
  rl_holds rl v0 runs term -> Forall mappable runs -> v0 <= s <= runs_end v0 runs ->
  1 <= zlen dst -> zlen runs + 2 < 2 ^ 16 -> runs_end v0 runs < 2 ^ 63 ->
  ntfs_mapping_pairs_build vol dst (zlen dst) (Some rl) s = Ok out -> b_err out = None ->
  non_resident attr = true -> lowest_vcn attr = s ->
  attr_mem attr = P ++ b_buf out ++ Q -> mapping_pairs_offset attr = zlen P ->
  zlen P + zlen dst <= attr_length attr ->
  highest_vcn attr = 0 \/ highest_vcn attr = runs_end v0 runs - 1 ->
  num_clusters vol attr < 2 ^ 63 -> (s = 0 -> runs_end v0 runs <= num_clusters vol attr) ->
  deltas_ok vol (if s =? 0 then 0 else 1) 0 (runs_from s runs) ->
  exists junk,
    ntfs_mapping_pairs_decompress_i vol (Some attr) None want_part =
      Ok (mk_out (inl (read_list vol attr (runs_from s runs) (runs_end v0 runs) ++ junk))
            None OldKept) /\
    forall v, s <= v -> rl_den (runs_from s runs) v = rl_den runs v.
Proof.
  intros Hh Hrl M Hs Hd Hn Hre Hb He Hnr Hlv Hm Ho Hl Hhv Hnc Hlow D.
  destruct (mp_build_spec vol dst rl v0 runs term s Hrl M Hs Hd) as (k & Q' & Hk & E & Hq & _).
  rewrite Hb in E. injection E as ->. cbn [b_err b_buf] in *.
  destruct (decide (k = _)) as [->|]; [|done]. rewrite take_ge in * by lia.
  destruct Hrl as [_ C O [T _] S0]. destruct (runs_from_end s runs v0 C Hs) as [Cf Ef].
  pose proof (runs_from_length s runs). pose proof (zlen_nonneg Q'). subst s.
  rewrite <- Ef in *. cbn [app] in Hm. rewrite <- app_assoc in Hm. cbn [app] in Hm.
  destruct (mp_read_spec vol attr P (Q' ++ Q) (runs_from (lowest_vcn attr) runs) want_part)
    as [junk E]; try done; try lia.
  - rewrite zlen_app. lia.
  - by apply runs_from_mappable.
  - exists junk. split; [done|]. intros v Hv. rewrite (rl_den_runs_from _ _ v0) by (done || lia).
    by zdec.
Qed.

(** ** Reading any array *)

(** Elements that follow each other in 64-bit arithmetic, none empty. *)
Fixpoint chained (v : Z) (runs : runlist) : Prop :=
  match runs with
  | [] => True
  | r :: runs => vcn r = v /\ len r <> 0 /\ chained (s64 (v + len r)) runs
  end.

Fixpoint chain_end (v : Z) (runs : runlist) : Z :=
  match runs with
  | [] => v
  | r :: runs => chain_end (s64 (v + len r)) runs
  end.

Lemma chained_app l1 : forall v l2,
  chained v (l1 ++ l2) <-> chained v l1 /\ chained (chain_end v l1) l2.
Proof. induction l1 as [|r l1 IH]; intros v l2; cbn; [tauto|]. rewrite IH. tauto. Qed.

Lemma chain_end_app l1 : forall v l2, chain_end v (l1 ++ l2) = chain_end (chain_end v l1) l2.
Proof. induction l1 as [|r l1 IH]; intros v l2; cbn; [done|]. apply IH. Qed.

Lemma mp_number_loop_total mem p : forall n b acc,
  0 <= p -> p + b < zlen mem -> Z.of_nat n <= b + 1 -> exists x, mp_number_loop mem p b n acc = Ok x.
Proof.
  induction n as [|n IH]; intros b acc Hp Hb Hn; cbn [mp_number_loop]; [eauto|].
  destruct (aget_total mem (p + b)) as [x ->]; [lia|]. cbn [mbind res_bind]. apply IH; lia.
Qed.

Lemma mp_number_total mem p b lo :
  0 <= p -> 0 <= lo < b -> p + b < zlen mem -> exists x, mp_number mem p b lo = Ok x.
Proof.
  intros Hp Hl Hb. unfold mp_number. destruct (aget_total mem (p + b)) as [x ->]; [lia|].
  cbn [mbind res_bind]. apply mp_number_loop_total; lia.
Qed.

Lemma mp_length_total mem p attr_end hdr :
  0 <= p -> attr_end < zlen mem -> 0 <= hdr < 256 ->
  exists o, mp_length mem p attr_end hdr = Ok o /\
    (forall n, o = Some n -> 0 <= n -> 1 <= Z.land hdr 0xf).
Proof.
  intros Hp Ha Hh. unfold mp_length.
  destruct (header_nibbles hdr Hh) as (a & b & _ & Ra & Rb & -> & _).
  destruct (Z.eqb_spec a 0); cbn [negb].
  - eexists. split; [done|]. intros n [= <-] ?. lia.
  - destruct (Z.ltb_spec attr_end (p + a)); [eexists; split; [done|done]|].
    destruct (mp_number_total mem p a 0) as [x ->]; [lia..|]. cbn [mbind res_bind].
    eexists. split; [done|]. intros; lia.
Qed.

Lemma mp_lcn_total vol mem p attr_end hdr l pos r :
  0 <= p -> attr_end < zlen mem -> 0 <= hdr < 256 ->
  exists o, mp_lcn vol mem p attr_end hdr l pos r = Ok o /\
    forall r' l', o = Some (r', l') ->
      vcn r' = vcn r /\ (len r' = len r \/ on_fsck vol = true /\ len r' = 0).
Proof.
  intros Hp Ha Hh. unfold mp_lcn.
  destruct (header_nibbles hdr Hh) as (a & b & _ & Ra & Rb & -> & -> & ->).
  destruct (Z.eqb_spec b 0); [eexists; split; [done|]; intros ? ? [= <- <-]; eauto|].
  destruct (Z.eqb_spec a 0); [by eexists|].
  destruct (Z.ltb_spec attr_end (p + (a + b))); [by eexists|].
  destruct (mp_number_total mem p (a + b) a) as [x ->]; [lia..|]. cbn [mbind res_bind].
  destruct (on_fsck vol && (x =? 0) && negb (pos =? 0)) eqn:Ef.
  all: destruct (s64 (l + x) <? -1); [by eexists|];
    destruct (negb (s64 (l + x) =? -1) && _); [by eexists|];
    eexists; split; [done|]; intros ? ? [= <- <-]; cbn; split; [done|].
  - right. split; [|done]. by destruct (on_fsck vol).
  - by left.
Qed.

(** The loop invariant on an arbitrary array. *)
Definition mp_safe (vol : ntfs_volume) (st : mp_state) (done : runlist) : Prop :=
  mp_inv st done 2 /\ 2 * zlen done <= m_buf st + 2 /\ 0 <= m_buf st /\
  in_s 64 (m_vcn st) /\
  Forall (fun r => len r <> 0) done /\
  (on_fsck vol = false -> chained 0 done /\ chain_end 0 done = m_vcn st).

(** The array a jump to [err_out] leaves: room for the terminator. *)
Definition mp_err_ok (rl : runlist) (rlpos : Z) : Prop :=
  exists done junk, rl = done ++ junk /\ rlpos = zlen done /\ 1 <= zlen junk /\
    Forall (fun r => len r <> 0) done.

Definition mp_flow_safe (vol : ntfs_volume) (buf : Z) (f : mp_flow) : Prop :=
  match f with
  | MpNoMem => True
  | MpErr rl rlpos => mp_err_ok rl rlpos
  | MpNext st => buf <= m_buf st /\ exists done, mp_safe vol st done
  end.

(** The state after a round that entered the element [r]. *)
Lemma mp_next_safe vol st done junk r n l buf rlsize :
  mp_safe vol st done -> m_buf st + 2 <= buf -> m_buf st < 2 ^ 16 ->
  zlen (done ++ r :: junk) = rl_capacity rlsize -> 0 <= rlsize -> 2 <= zlen junk ->
  0 <= n -> vcn r = m_vcn st -> len r = n \/ on_fsck vol = true /\ len r = 0 ->
  mp_flow_safe vol (m_buf st + 2)
    (MpNext (mk_mp (s64 (m_vcn st + n)) l buf (done ++ r :: junk)
       (if negb (len r =? 0) then u16 (zlen done + 1) else zlen done) rlsize)).
Proof.
  intros (_ & Hcnt & Hp & Hv & Hlen & Hch) Hb Hb16 Hc Hs Hj Hn Ev El.
  pose proof (zlen_nonneg done). split; [done|]. rewrite zlen_app, zlen_cons in Hc.
  destruct (Z.eqb_spec (len r) 0) as [E0|E0]; cbn [negb].
  - exists done. split_and!; cbn [m_rl m_rlpos m_rlsize m_buf m_vcn]; try done; try lia.
    + exists (r :: junk). cbn [m_rl m_rlpos m_rlsize]. rewrite zlen_app, zlen_cons.
      split_and!; try done; lia.
    + apply wraps_range. lia.
    + intros Hf. destruct El as [El|[El _]]; [|congruence]. assert (n = 0) as -> by lia.
      rewrite Z.add_0_r, (wraps_small 64 _ ltac:(lia) Hv). by apply Hch.
  - exists (done ++ [r]). rewrite u16_small by lia.
    split_and!; cbn [m_rl m_rlpos m_rlsize m_buf m_vcn]; try zlen_solve.
    + exists junk. cbn [m_rl m_rlpos m_rlsize]. rewrite <- app_assoc. cbn [app].
      rewrite !zlen_app, !zlen_cons, zlen_nil. split_and!; try done; lia.
    + apply wraps_range. lia.
    + apply Forall_app. split; [done|]. constructor; [lia|done].
    + intros Hf. destruct El as [El|[El _]]; [|congruence]. destruct (Hch Hf) as [C1 C2].
      rewrite chained_app, chain_end_app. cbn. rewrite C2, Ev, El. split_and!; done || lia.
Qed.

Lemma mp_step_safe `{Heap} vol mem attr_end hdr st done :
  attr_end < zlen mem -> attr_end <= 2 ^ 16 -> 0 <= hdr < 256 -> m_buf st < attr_end ->
  mp_safe vol st done ->
  exists f, mp_step vol mem attr_end hdr st = Ok f /\ mp_flow_safe vol (m_buf st + 2) f.
Proof.
  intros Ha Hb16 Hh Hbuf Hsafe. pose proof Hsafe as (Hinv & _ & Hp & _ & Hlen & _).
  unfold mp_step.
  destruct (mp_grow_spec st done Hinv) as [[-> _]|(st1 & -> & Hinv1 & G1 & G2 & G3)];
    [by eexists|].
  destruct Hinv1 as (junk & Er & Epos & Hc & Hj & Hs).
  destruct junk as [|x junk]; [zlen_solve|]. rewrite zlen_cons in Hj.
  rewrite Er, Epos, aget_mid by done. cbn [mbind res_bind]. rewrite aset_mid by done.
  cbn [mbind res_bind]. rewrite G1, G2, G3.
  assert (forall y, mp_err_ok (done ++ y :: junk) (zlen done)) as Herr.
  { intros y. exists done, (y :: junk). rewrite zlen_cons. split_and!; try done. lia. }
  destruct (mp_length_total mem (m_buf st) attr_end hdr) as (o & -> & Ho); [done..|].
  cbn [mbind res_bind]. destruct o as [n|]; [|eexists; split; [done|apply Herr]].
  destruct (Z.ltb_spec n 0); [eexists; split; [done|apply Herr]|].
  specialize (Ho n eq_refl ltac:(lia)). rewrite aset_mid by done. cbn [mbind res_bind].
  destruct (mp_lcn_total vol mem (m_buf st) attr_end hdr (m_lcn st) (zlen done)
    (set_len (set_vcn x (m_vcn st)) n)) as (o2 & -> & Ho2); [done..|].
  cbn [mbind res_bind]. destruct o2 as [[r' l']|]; [|eexists; split; [done|apply Herr]].
  destruct (Ho2 r' l' eq_refl) as [Ev El]. cbn [set_len set_vcn vcn len] in Ev, El.
  rewrite aset_mid by done. cbn [mbind res_bind]. eexists. split; [done|].
  destruct (header_nibbles hdr Hh) as (a & b & _ & Ra & Rb & Ea & -> & _). rewrite Ea in *.
  apply mp_next_safe; try done; try lia.
  rewrite Er in Hc. rewrite <- Hc. by rewrite !zlen_app, !zlen_cons.
Qed.

(** The loop ends, in a safe state. *)
Lemma mp_loop_safe `{Heap} vol mem attr_end :
  attr_end < zlen mem -> attr_end <= 2 ^ 16 -> Forall (fun x => 0 <= x < 256) mem ->
  forall fuel st done, mp_safe vol st done -> attr_end - m_buf st <= Z.of_nat fuel ->
  exists f, mp_loop vol fuel mem attr_end st = Ok f /\ mp_flow_safe vol (m_buf st) f.
Proof.
  intros Ha Hb16 Hm. induction fuel as [|fuel IH]; intros st done Hsafe Hf;
    cbn [mp_loop]; destruct (Z.ltb_spec (m_buf st) attr_end) as [Hlt|Hge].
  2, 4: eexists; split; [done|]; split; [lia|by exists done].
  - lia.
  - destruct Hsafe as (Hinv & Hcnt & Hp & Hrest).
    destruct (aget_total mem (m_buf st)) as [hdr Eh]; [lia|]. rewrite Eh. cbn [mbind res_bind].
    apply aget_ok in Eh as [_ Eh]. pose proof (Forall_lookup_1 _ _ _ _ Hm Eh) as Rh. cbn in Rh.
    destruct (Z.eqb_spec hdr 0).
    + eexists. split; [done|]. split; [lia|]. exists done. done.
    + destruct (mp_step_safe vol mem attr_end hdr st done) as (f & -> & F); [done..|].
      cbn [mbind res_bind]. destruct f as [st'|rl pos|]; [|by eexists|by eexists].
      destruct F as (Hb & done' & F). destruct (IH st' done' F) as (f & E & G); [lia|].
      exists f. split; [done|]. destruct f; try done. destruct G as [G1 G2].
      split; [lia|done].
Qed.

(** The elements of a result: runs, then a terminator. *)
Definition read_ok (vol : ntfs_volume) (rl : runlist) : Prop :=
  exists runs term junk, rl = runs ++ term :: junk /\ len term = 0 /\
    Forall (fun r => len r <> 0) runs /\
    (on_fsck vol = false -> chained 0 runs /\ vcn term = chain_end 0 runs).

Lemma mp_finish_safe vol attr attr_end st done :
  mp_safe vol st done -> attr_end <= 2 ^ 16 -> in_s 64 (num_clusters vol attr) ->
  exists f, mp_finish vol attr attr_end st = Ok f /\
    match f with
    | MpNext st' => read_ok vol (m_rl st')
    | MpErr rl rlpos => mp_err_ok rl rlpos
    | MpNoMem => False
    end.
Proof.
  intros ((junk & Er & Epos & Hc & Hj & Hs) & Hcnt & Hp & Hv & Hlen & Hch) Hb16 Hnc.
  destruct junk as [|x [|y junk]]; [zlen_solve..|].
  assert (mp_err_ok (m_rl st) (m_rlpos st)) as Herr.
  { exists done, (x :: y :: junk). rewrite !zlen_cons. pose proof (zlen_nonneg junk).
    split_and!; try done. lia. }
  assert (forall l, read_ok vol (done ++ mk_rle (m_vcn st) l 0 :: y :: junk)) as Hok.
  { intros l. exists done, (mk_rle (m_vcn st) l 0), (y :: junk). split_and!; try done.
    intros Hf. destruct (Hch Hf). done. }
  unfold mp_finish. fold (num_clusters vol attr).
  destruct (Z.leb_spec attr_end (m_buf st)); [by eexists|].
  destruct (negb (highest_vcn attr =? 0) && _); [by eexists|].
  pose proof (zlen_nonneg done).
  destruct (Z.eqb_spec (lowest_vcn attr) 0) as [E0|E0].
  - destruct (Z.ltb_spec (m_vcn st) (num_clusters vol attr)) as [Hl|Hl].
    + rewrite Er, Epos, aset_mid by done. cbn [mbind res_bind]. rewrite u16_small by lia.
      rewrite (cons_middle _ done), app_assoc, aset_mid by zlen_solve. cbn [mbind res_bind].
      eexists. split; [done|]. cbn [m_rl].
      set (n := s64 (num_clusters vol attr - m_vcn st)).
      assert (n <> 0).
      { unfold n, in_s in *. intros E. revert E. unfold wraps. change (2 ^ (64 - 1)) with (2 ^ 63) in *.
        change (2 ^ 64) with (2 * 2 ^ 63) in *. dlia. }
      exists (done ++ [mk_rle (m_vcn st) LCN_RL_NOT_MAPPED n]),
        (mk_rle (s64 (m_vcn st + n)) LCN_ENOENT 0), junk.
      split; [done|]. split; [done|]. split; [apply Forall_app; split; [done|by constructor]|].
      intros Hf. destruct (Hch Hf) as [C1 C2]. rewrite chained_app, chain_end_app. cbn.
      by rewrite C2.
    + destruct (Z.ltb_spec (num_clusters vol attr) (m_vcn st)); [by eexists|].
      cbn [mbind res_bind]. rewrite Er, Epos, aset_mid by done. cbn [mbind res_bind].
      eexists. split; [done|]. apply Hok.
  - cbn [mbind res_bind]. rewrite Er, Epos, aset_mid by done. cbn [mbind res_bind].
    eexists. split; [done|]. apply Hok.
Qed.

Lemma mp_error_safe `{Heap} vol rl rlpos want_part :
  mp_err_ok rl rlpos ->
  exists out, mp_error vol None want_part rl rlpos = Ok out /\ d_ret out = inr EIO.
Proof.
  intros (done & junk & -> & -> & Hj & _). unfold mp_error.
  destruct (on_fsck vol); [|by eexists]. destruct junk as [|x junk]; [zlen_solve|].
  pose proof (zlen_nonneg done).
  assert (exists v, (if negb (zlen done =? 0)
    then r ← aget (done ++ x :: junk) (zlen done - 1); Ok (s64 (vcn r + len r)) else Ok 0) = Ok v)
    as [v ->].
  { destruct (Z.eqb_spec (zlen done) 0); cbn [negb]; [by eexists|].
    rewrite aget_app_l by lia. destruct (aget_total done (zlen done - 1)) as [r ->]; [lia|].
    by eexists. }
  cbn [mbind res_bind]. rewrite aset_mid by done. cbn [mbind res_bind old_mapped].
  destruct (aget_total (done ++ mk_rle v LCN_ENOENT 0 :: junk) 0) as [r0 ->]; [zlen_solve|].
  by eexists.
Qed.

Lemma mp_start_safe `{Heap} vol attr :
  0 <= lowest_vcn attr -> in_s 64 (lowest_vcn attr) -> 0 <= mapping_pairs_offset attr ->
  (exists st done, mp_start attr = Ok st /\ mp_safe vol st done /\
     m_buf st = mapping_pairs_offset attr) \/
  exists e, mp_start attr = Err e.
Proof.
  intros Hl Hv Ho. unfold mp_start.
  destruct (rl_resize [] 4096) as [rl|e|] eqn:E; [|by right; eexists|].
  2:{ revert E. unfold rl_resize. by destruct (heap_grants _). }
  apply (rl_resize_grow [] []) in E as (junk & -> & L); [|done].
  change (rl_capacity 4096) with 170 in L. cbn [mbind res_bind app] in *. left.
  destruct (Z.eqb_spec (lowest_vcn attr) 0) as [E0|E0]; cbn [negb].
  - eexists _, []. split; [done|]. split; [|done].
    split; [exists junk; cbn; split_and!; try done; lia|].
    cbn [m_buf m_vcn chained chain_end]. rewrite zlen_nil. split_and!; try done; lia.
  - destruct junk as [|x junk]; [done|]. rewrite zlen_cons in L.
    change (aset (x :: junk) 0) with (aset ([] ++ x :: junk) 0). rewrite aset_mid by done.
    eexists _, [mk_rle 0 LCN_RL_NOT_MAPPED (lowest_vcn attr)]. split; [done|]. split; [|done].
    split; [exists junk; cbn [m_rl m_rlpos m_rlsize app]; rewrite !zlen_cons;
      split_and!; try done; lia|].
    cbn [m_buf m_vcn]. rewrite zlen_cons, zlen_nil. split_and!; try done; try lia.
    + by constructor.
    + intros _. cbn. split; [done|]. apply wraps_small; [lia|done].
Qed.

(** C11: reading an array of any content, in an attribute record of at most 64
    kilobytes and without an old runlist, stays within the attribute record and
    one byte behind it, ends, and returns an error or a terminated list of
    non-empty elements.  Outside of fsck the elements follow each other from vcn
    0 on up to the terminator ([read_ok]). *)
Theorem mapping_pairs_read_safe `{Heap} vol attr want_part :
  Forall (fun x => 0 <= x < 256) (attr_mem attr) ->
  0 <= mapping_pairs_offset attr -> attr_length attr <= 2 ^ 16 ->
  attr_length attr < zlen (attr_mem attr) -> in_s 64 (lowest_vcn attr) ->
  in_s 64 (num_clusters vol attr) ->
  exists out, ntfs_mapping_pairs_decompress_i vol (Some attr) None want_part = Ok out /\
    match d_ret out with inl rl => read_ok vol rl | inr _ => True end.
Proof.
  intros Hm Ho Hl16 Hl Hlv Hnc. unfold ntfs_mapping_pairs_decompress_i.
  destruct (negb (non_resident attr)); [by eexists|]. cbn [orb].
  destruct (Z.ltb_spec (lowest_vcn attr) 0); [by eexists|].
  destruct (Z.ltb_spec (attr_length attr) (mapping_pairs_offset attr)); [by eexists|].
  destruct (mp_start_safe vol attr ltac:(lia) Hlv Ho)
    as [(st & dn & -> & Hs & Hb)|[e ->]]; [|by eexists].
  destruct (mp_loop_safe vol (attr_mem attr) (attr_length attr) Hl Hl16 Hm
    (Z.to_nat (attr_length attr)) st dn Hs ltac:(lia)) as (f & -> & F).
  cbn [mbind res_bind]. destruct f as [st'|rl pos|].
  - destruct F as (_ & done' & F).
    destruct (mp_finish_safe vol attr (attr_length attr) st' done' F) as (f & -> & G); try done.
    cbn [mbind res_bind]. destruct f as [st2|rl pos|]; [|..|done].
    + unfold mp_combine, old_mapped. cbn [mbind res_bind]. by eexists.
    + destruct (mp_error_safe vol rl pos want_part G) as (out & -> & E). exists out. by rewrite E.
  - cbn [mbind res_bind].
    destruct (mp_error_safe vol rl pos want_part F) as (out & -> & E). exists out. by rewrite E.
  - cbn [mbind res_bind]. by eexists.
Qed.

(** ** Concrete arrays *)

(** An attribute record whose mapping pairs array is [bytes], at offset 64. *)
Definition sample_attr (lowest highest alloc : Z) (bytes : list Z) : attr_record :=
  mk_attr true lowest highest alloc 64 (64 + zlen bytes) (replicate 64 0 ++ bytes ++ [0]).

Definition sample_array : list Z := [0x22; 200; 0; 44; 1; 0x01; 16; 0x21; 40; 56; 255; 0].

Lemma mapping_pairs_roundtrip_witness :
  let attr := sample_attr 0 255 (256 * 4096) sample_array in
  exists junk,
    @ntfs_mapping_pairs_decompress_i ample_heap (sample_volume 3 true) (Some attr) None true =
      Ok (mk_out (inl (read_list (sample_volume 3 true) attr (runs_from 0 demo_runs) 256 ++ junk))
            None OldKept) /\
    forall v, 0 <= v -> rl_den (runs_from 0 demo_runs) v = rl_den demo_runs v.
Proof.
  intros attr.
  apply (@mapping_pairs_roundtrip ample_heap (sample_volume 3 true) (demo_runs ++ [demo_term]) 0 demo_runs
    demo_term 0 (replicate 12 7) (mk_build sample_array (Some 3) None)
    attr (replicate 64 0) [0] true).
  - done.
  - exact demo_holds.
  - compute_decide.
  - cbn. lia.
  - done.
  - vm_compute. done.
  - vm_compute. done.
  - vm_compute. reflexivity.
  - done.
  - done.
  - done.
  - reflexivity.
  - reflexivity.
  - vm_compute. discriminate.
  - right. reflexivity.
  - vm_compute. done.
  - intros _. vm_compute. discriminate.
  - cbn. split_and!; try done; intros; try lia; vm_compute in *; discriminate.
Defined.

(** A corrupted array: a length of 15 bytes that ends with the record. *)
Lemma mapping_pairs_read_safe_witness :
  exists out, @ntfs_mapping_pairs_decompress_i ample_heap (sample_volume 3 false)
      (Some (sample_attr 0 0 0 [0x1f; 1; 2; 3])) None false = Ok out /\
    match d_ret out with inl rl => read_ok (sample_volume 3 false) rl | inr _ => True end.
Proof.
  apply (@mapping_pairs_read_safe ample_heap).
  - compute_decide.
  - vm_compute. discriminate.
  - vm_compute. discriminate.
  - vm_compute. reflexivity.
  - compute_decide.
  - compute_decide.
Defined.

(** The bound check of an entry is off by one ([buf + b > attr_end] with
    [buf[b]] read): on a record that ends with the memory it is in, a length
    field cut off by the end of the record is read one byte too far. *)
Theorem mapping_pairs_overread ver fsck want_part :
  let attr := mk_attr true 0 0 0 64 66 (replicate 64 0 ++ [0x12; 5]) in
  @ntfs_mapping_pairs_decompress_i ample_heap (sample_volume ver fsck) (Some attr) None want_part
    = Undef.
Proof. vm_compute. reflexivity. Qed.

(** The sum of the run lengths is not checked for overflow: four runs of
    2^62 clusters bring the vcn back to 0, and the array is accepted as that of
    an empty attribute although its runs overlap. *)
Theorem mapping_pairs_vcn_wraps ver want_part :
  let run := [0x18; 0; 0; 0; 0; 0; 0; 0; 64; 1] in
  let attr := sample_attr 0 0 0 (run ++ run ++ run ++ run ++ [0]) in
  exists junk,
    @ntfs_mapping_pairs_decompress_i ample_heap (sample_volume ver false) (Some attr) None want_part
    = Ok (mk_out (inl ([mk_rle 0 1 (2 ^ 62); mk_rle (2 ^ 62) 2 (2 ^ 62);
                        mk_rle (- 2 ^ 63) 3 (2 ^ 62); mk_rle (- 2 ^ 62) 4 (2 ^ 62);
                        mk_rle 0 LCN_ENOENT 0] ++ junk)) None OldKept).
Proof. exists (replicate 165 (mk_rle 0 0 0)). vm_compute. reflexivity. Qed.

(** When the new runs overlap the old runlist, a normal mount gets ERANGE
    and the old runlist is freed, not left unmodified. *)
Theorem decompress_overlap_frees_old ver want_part :
  let old := demo_runs ++ demo_term :: replicate 166 (mk_rle 0 0 0) in
  let attr := sample_attr 0 99 (100 * 4096) [0x11; 100; 7; 0] in
  @ntfs_mapping_pairs_decompress_i ample_heap (sample_volume ver false) (Some attr) (Some old)
    want_part = Ok (mk_out (inr ERANGE) None OldFreed).
Proof. vm_compute. reflexivity. Qed.
