(* ===== verification/AttrIO.v ===== *)
(** What the attribute layer (libntfs/attrib.c) promises to the components
    that keep their data in an attribute: [ntfs_attr_pread] and
    [ntfs_attr_pwrite] on the attribute's value.  The clients' theorems are
    proved against the class; [mem_attr] is an instance. *)

From S2P Require Import Prelude.

Class AttrIO (A : Type) := {
  (** The bytes read, fewer than asked for at the end of the value. *)
  ntfs_attr_pread : A -> Z -> Z -> res (list Z);
  (** The attribute afterwards and the number of bytes written. *)
  ntfs_attr_pwrite : A -> Z -> list Z -> res (A * Z);
  (** The value of the attribute. *)
  attr_value : A -> list Z
}.

(** A read is cut at the end of the value; a write inside it is complete. *)
Class AttrIOLaws (A : Type) `{AttrIO A} := {
  pread_value : forall a pos n, 0 <= pos -> 0 <= n ->
    ntfs_attr_pread a pos n = Ok (take (Z.to_nat n) (drop (Z.to_nat pos) (attr_value a)));
  pwrite_inside : forall a pos xs,
    0 <= pos -> pos + zlen xs <= zlen (attr_value a) ->
    exists a', ntfs_attr_pwrite a pos xs = Ok (a', zlen xs) /\
      awrite (attr_value a) pos xs = Ok (attr_value a')
}.

(** An attribute that is just its value: a write inside changes it, a write
    that would leave it writes nothing. *)
#[export] Instance mem_attr : AttrIO (list Z) := {
  ntfs_attr_pread a pos n :=
    if (pos <? 0) || (n <? 0) then Err EINVAL
    else Ok (take (Z.to_nat n) (drop (Z.to_nat pos) a));
  ntfs_attr_pwrite a pos xs :=
    match awrite a pos xs with
    | Ok a' => Ok (a', zlen xs)
    | _ => Ok (a, 0)
    end;
  attr_value a := a
}.

#[export] Instance mem_attr_laws : AttrIOLaws (list Z).
Proof.
  split.
  - intros a pos n Hp Hn. cbn. zdec. done.
  - intros a pos xs Hp Hl. cbn in *. unfold awrite. zdec. by eexists.
Defined.
