(* ===== verification/Bitmap.v ===== *)
(** Bitmaps (libntfs/bitmap.c, include/bitmap.h).

    Single bits of a byte array, runs of bits of a bitmap that is kept in an
    attribute (written through a window of at most 8 KiB), the mirroring of
    such a change into the bitmap fsck keeps in memory, and the searches for
    zero bits in an array of 64-bit words.  The meaning of a byte array is the
    function [gbit] from bit numbers to booleans. *)

From S2P Require Import Prelude AttrIO.

(** ** Single bits; a null [bitmap] is [None] *)

Definition ntfs_bit_set (bitmap : option (list Z)) (bit new_value : Z) : res (option (list Z)) :=
  match bitmap with
  | None => Ok None
  | Some bm =>
      if 1 <? new_value then Ok (Some bm) else
      x ← aget bm (Z.shiftr bit 3);
      let m := Z.shiftl 1 (Z.land bit 7) in
      bm ← aset bm (Z.shiftr bit 3)
             (if new_value =? 0 then u8 (Z.land x (Z.lnot m)) else u8 (Z.lor x m));
      Ok (Some bm)
  end.

Definition ntfs_bit_get (bitmap : option (list Z)) (bit : Z) : res Z :=
  match bitmap with
  | None => Ok (-1)
  | Some bm =>
      x ← aget bm (Z.shiftr bit 3);
      Ok (Z.land (Z.shiftr x (Z.land bit 7)) 1)
  end.

(** The bitmap afterwards and the returned old value. *)
Definition ntfs_bit_get_and_set (bm : list Z) (bit new_value : Z) : res (list Z * Z) :=
  if 1 <? new_value then Ok (bm, -1) else
  let shift := Z.land bit 7 in
  x ← aget bm (Z.shiftr bit 3);
  let old_bit := Z.land (Z.shiftr x shift) 1 in
  bm ← (if negb (new_value =? old_bit)
        then aset bm (Z.shiftr bit 3) (u8 (Z.lxor x (Z.shiftl 1 shift))) else Ok bm);
  Ok (bm, old_bit).

(** ** Rotations of 32-bit words *)

Definition ntfs_rol32 (word shift : Z) : Z :=
  Z.lor (u32 (Z.shiftl word shift)) (Z.shiftr word (32 - shift)).

Definition ntfs_ror32 (word shift : Z) : Z :=
  Z.lor (Z.shiftr word shift) (u32 (Z.shiftl word (32 - shift))).

(** ** Runs of bits *)

(** [*b |= 1 << bit] or [*b &= ~(1 << bit)] *)
Definition put_bit (value : bool) (b bit : Z) : Z :=
  if value then u8 (Z.lor b (Z.shiftl 1 bit)) else u8 (Z.land b (Z.lnot (Z.shiftl 1 bit))).

(** [while ((bit & 7) && count--)]: the byte and [count] afterwards, which is
    one too small when the loop ends because [count] was 0. *)
Fixpoint first_byte_loop (fuel : nat) (value : bool) (b bit count : Z) : Z * Z :=
  match fuel with
  | O => (b, count)
  | S fuel =>
      if Z.land bit 7 =? 0 then (b, count)
      else if count =? 0 then (b, count - 1)
      else first_byte_loop fuel value (put_bit value b bit) (bit + 1) (count - 1)
  end.

(** [while (bit && count--)]: sets the bits [bit - 1] down to 0. *)
Fixpoint last_byte_loop (bit : nat) (value : bool) (b count : Z) : Z * Z :=
  match bit with
  | O => (b, count)
  | S bit =>
      if count =? 0 then (b, count - 1)
      else last_byte_loop bit value (put_bit value b (Z.of_nat bit)) (count - 1)
  end.

Definition fill_byte (value : bool) : Z := if value then 0xff else 0.

Section runs.
Context {HP : Heap} {A : Type} {IO : AttrIO A}.

(** The bytes a failed or short read of one byte turns into EIO. *)
Definition read_byte (na : A) (pos : Z) : res Z :=
  match ntfs_attr_pread na pos 1 with
  | Ok [b] => Ok b
  | Ok _ => Err EIO
  | Err e => Err e
  | Undef => Undef
  end.

(** The variables of the [do]-loop. *)
Record run_state := mk_run {
  r_na : A;
  r_start : Z;
  r_count : Z;
  r_bit : Z;
  r_first : Z;
  r_bufsize : Z;
  r_buf : list Z
}.

(** The last partial byte, if it is in the current window: the state and
    [lastbyte]. *)
Definition do_last_byte (value : bool) (st : run_state) : res (run_state * Z) :=
  if (0 <? r_count st) && negb (r_bit st =? 0) then
    let lastbyte_pos := s32 (Z.shiftr (r_count st + 7) 3 + r_first st) in
    if lastbyte_pos =? 0 then Err EIO else
    if lastbyte_pos <=? r_bufsize st then
      b ← read_byte (r_na st) (Z.shiftr (r_start st + r_count st) 3);
      let '(b, count) := last_byte_loop (Z.to_nat (r_bit st)) value b (r_count st) in
      buf ← aset (r_buf st) (lastbyte_pos - 1) b;
      Ok (mk_run (r_na st) (r_start st) count 0 (r_first st) (r_bufsize st) buf, 1)
    else Ok (st, 0)
  else Ok (st, 0).

(** The [do { ... } while (count > 0)]; [lastbyte] stays set once it is. *)
Fixpoint run_loop (fuel : nat) (value : bool) (st : run_state) (lastbyte : Z) : res A :=
  match fuel with
  | O => Undef
  | S fuel =>
      '(st, lb) ← do_last_byte value st;
      let lastbyte := Z.max lastbyte lb in
      bytes ← aslice (r_buf st) 0 (r_bufsize st);
      '(na, br) ← ntfs_attr_pwrite (r_na st) (Z.shiftr (r_start st) 3 - r_first st) bytes;
      if negb (br =? r_bufsize st) then Err EIO else
      let tmp := Z.shiftl (r_bufsize st - r_first st - lastbyte) 3 in
      buf ← (if negb (r_first st =? 0) then aset (r_buf st) 0 (fill_byte value)
             else Ok (r_buf st));
      let start_bit := r_start st + tmp in
      let count := r_count st - tmp in
      let bufsize := Z.min (r_bufsize st) (Z.shiftr (count + 7) 3) in
      if negb (lastbyte =? 0) && negb (count =? 0) then Err EIO else
      if 0 <? count
      then run_loop fuel value (mk_run na start_bit count (r_bit st) 0 bufsize buf) lastbyte
      else Ok na
  end.

Definition ntfs_bitmap_set_bits_in_run (na : A) (start_bit count : Z) (value : bool) : res A :=
  if (start_bit <? 0) || (count <? 0) then Err EINVAL else
  let bit := Z.land start_bit 7 in
  let firstbyte := if negb (bit =? 0) then 1 else 0 in
  let bufsize :=
    Z.shiftr (count - (if negb (bit =? 0) then 8 - bit else 0) + 7) 3 + firstbyte in
  let bufsize := if 8192 <? bufsize then 8192 else bufsize in
  if negb (heap_grants bufsize) then Err ENOMEM else
  let buf := replicate (Z.to_nat bufsize) (fill_byte value) in
  '(buf, count, start) ←
    (if negb (bit =? 0) then
       b ← read_byte na (Z.shiftr start_bit 3);
       let '(b, count) := first_byte_loop 8 value b bit count in
       buf ← aset buf 0 b;
       Ok (buf, count, Z.land (start_bit + 7) (Z.lnot 7))
     else Ok (buf, count, start_bit));
  run_loop (Z.to_nat count + 2) value
    (mk_run na start count (Z.land count 7) firstbyte bufsize buf) 0.

End runs.

(** ** Searches in arrays of 64-bit words *)

Definition BITS_PER_LONG : Z := 64.
Definition ulong_max : Z := 2 ^ 64 - 1.

(** [ffsl]: the number of the lowest bit that is set, from 1 on; 0 for 0. *)
Fixpoint ffsl_from (n : nat) (i x : Z) : Z :=
  match n with
  | O => 0
  | S n => if Z.testbit x i then i + 1 else ffsl_from n (i + 1) x
  end.
Definition ffsl (x : Z) : Z := ffsl_from 64 0 x.
Definition ffzl (x : Z) : Z := ffsl (u64 (Z.lnot x)).

Definition GENMASK (h l : Z) : Z :=
  Z.land (u64 (ulong_max - Z.shiftl 1 l + 1)) (Z.shiftr ulong_max (BITS_PER_LONG - 1 - h)).

Definition BITMAP_FIRST_WORD_MASK (start : Z) : Z :=
  u64 (Z.shiftl ulong_max (Z.land start (BITS_PER_LONG - 1))).

(** [while (!tmp)]; the number of words bounds the rounds. *)
Fixpoint find_next_loop (fuel : nat) (addr : list Z) (nbits start invert tmp : Z) : res Z :=
  if negb (tmp =? 0) then Ok (start + ffsl tmp - 1)
  else match fuel with
       | O => Undef
       | S fuel =>
           let start := start + BITS_PER_LONG in
           if nbits <=? start then Ok nbits else
           w ← aget addr (start / BITS_PER_LONG);
           find_next_loop fuel addr nbits start invert (Z.lxor w invert)
       end.

Definition find_next_bit (addr : list Z) (nbits start invert : Z) : res Z :=
  if nbits <=? start then Ok nbits else
  w ← aget addr (start / BITS_PER_LONG);
  let tmp := Z.land (Z.lxor w invert) (BITMAP_FIRST_WORD_MASK start) in
  let start := start / BITS_PER_LONG * BITS_PER_LONG in
  find_next_loop (S (length addr)) addr nbits start invert tmp.

(** [for (idx = 0; idx * BITS_PER_LONG < size; idx++)] *)
Fixpoint find_first_zero_bit_from (fuel : nat) (addr : list Z) (idx size : Z) : res Z :=
  if idx * BITS_PER_LONG <? size then
    match fuel with
    | O => Undef
    | S fuel =>
        w ← aget addr idx;
        if negb (w =? ulong_max) then Ok (idx * BITS_PER_LONG + ffzl w - 1)
        else find_first_zero_bit_from fuel addr (idx + 1) size
    end
  else Ok size.

Definition find_first_zero_bit (addr : list Z) (size : Z) : res Z :=
  find_first_zero_bit_from (S (length addr)) addr 0 size.

Definition ntfs_find_first_zero_bit (addr : list Z) (size : Z) : res Z :=
  if (0 <? size) && (size <=? BITS_PER_LONG) then
    w ← aget addr 0;
    let val := Z.lor w (u64 (Z.lnot (GENMASK (size - 1) 0))) in
    Ok (if val =? ulong_max then size else ffzl val - 1)
  else find_first_zero_bit addr size.

Definition ntfs_find_next_zero_bit (addr : list Z) (size offset : Z) : res Z :=
  if (0 <? size) && (size <=? BITS_PER_LONG) then
    if size <=? offset then Ok size else
    w ← aget addr 0;
    let val := Z.lor w (u64 (Z.lnot (GENMASK (size - 1) offset))) in
    Ok (if val =? ulong_max then size else ffzl val - 1)
  else find_next_bit addr size offset ulong_max.

(** ** The meaning of a bitmap *)

Definition gbit (bm : list Z) (j : Z) : bool :=
  match bm !! Z.to_nat (j / 8) with
  | Some b => Z.testbit b (j mod 8)
  | None => false
  end.

(** * Proofs *)

Lemma land7 x : Z.land x 7 = x mod 8.
Proof. change 7 with (Z.ones 3). by rewrite Z.land_ones. Qed.

Lemma shiftr3 x : Z.shiftr x 3 = x / 8.
Proof. by rewrite Z.shiftr_div_pow2. Qed.

Lemma shiftl3 x : Z.shiftl x 3 = 8 * x.
Proof. rewrite Z.shiftl_mul_pow2 by lia. change (2 ^ 3) with 8. lia. Qed.

Lemma testbit_u8 x k : 0 <= k < 8 -> Z.testbit (u8 x) k = Z.testbit x k.
Proof. intros. unfold wrapu. rewrite Z.mod_pow2_bits_low by lia. done. Qed.

Lemma testbit_one i k : 0 <= i -> 0 <= k -> Z.testbit (Z.shiftl 1 i) k = (k =? i).
Proof.
  intros. rewrite Z.shiftl_1_l, Z.pow2_bits_eqb by lia. apply Z.eqb_sym.
Qed.

Lemma put_bit_spec v b i k :
  0 <= i < 8 -> 0 <= k < 8 -> Z.testbit (put_bit v b i) k = if k =? i then v else Z.testbit b k.
Proof.
  intros. unfold put_bit. destruct v; rewrite testbit_u8 by done.
  - rewrite Z.lor_spec, testbit_one by lia. destruct (k =? i); [apply orb_true_r|apply orb_false_r].
  - rewrite Z.land_spec, Z.lnot_spec, testbit_one by lia.
    destruct (k =? i); [apply andb_false_r|apply andb_true_r].
Qed.

Lemma testbit_fill v k : 0 <= k < 8 -> Z.testbit (fill_byte v) k = v.
Proof.
  intros. destruct v; [|apply Z.testbit_0_l]. change (fill_byte true) with (Z.ones 8).
  apply Z.ones_spec_low. lia.
Qed.

(** ** Single bits *)

Lemma gbit_lookup bm j b :
  bm !! Z.to_nat (j / 8) = Some b -> gbit bm j = Z.testbit b (j mod 8).
Proof. unfold gbit. by intros ->. Qed.

Lemma byte_of_bit bm j :
  0 <= j < 8 * zlen bm -> exists b, aget bm (j / 8) = Ok b /\ gbit bm j = Z.testbit b (j mod 8) /\
    0 <= j / 8 < zlen bm.
Proof.
  intros Hj. assert (0 <= j / 8 < zlen bm) as R by dlia.
  destruct (aget_total bm (j / 8) R) as [b E]. exists b. split; [done|]. split; [|done].
  apply aget_ok in E as [_ E]. by apply gbit_lookup.
Qed.

(** Replacing the byte of bit [i] by one that differs at most there. *)
Lemma gbit_insert bm i x b v j :
  aget bm (i / 8) = Ok b -> (forall k, 0 <= k < 8 ->
    Z.testbit x k = if k =? i mod 8 then v else Z.testbit b k) -> 0 <= i -> 0 <= j ->
  gbit (<[Z.to_nat (i / 8) := x]> bm) j = if j =? i then v else gbit bm j.
Proof.
  intros E Hx Hi Hj. pose proof (aget_range _ _ _ E) as R. apply aget_ok in E as [_ E]. unfold gbit.
  destruct (Z.eq_dec (j / 8) (i / 8)) as [Eq|Ne].
  - rewrite Eq, E, list_lookup_insert_eq by (unfold zlen in R; lia).
    rewrite Hx by dlia. destruct (Z.eqb_spec (j mod 8) (i mod 8)), (Z.eqb_spec j i);
      try done; exfalso; dlia.
  - rewrite list_lookup_insert_ne by dlia. destruct (Z.eqb_spec j i); [congruence|done].
Qed.

Lemma land1 x : Z.land x 1 = Z.b2z (Z.testbit x 0).
Proof. change 1 with (Z.ones 1) at 1. rewrite Z.land_ones by lia. symmetry. apply Z.bit0_mod. Qed.

Lemma bit_get_spec bm bit :
  0 <= bit < 8 * zlen bm -> ntfs_bit_get (Some bm) bit = Ok (Z.b2z (gbit bm bit)).
Proof.
  intros Hb. unfold ntfs_bit_get. rewrite shiftr3, land7.
  destruct (byte_of_bit bm bit Hb) as (b & -> & -> & _). cbn [mbind res_bind].
  rewrite land1, Z.shiftr_spec by lia. done.
Qed.

Lemma bit_set_spec bm bit v :
  0 <= bit < 8 * zlen bm ->
  exists bm', ntfs_bit_set (Some bm) bit (Z.b2z v) = Ok (Some bm') /\ zlen bm' = zlen bm /\
    forall j, 0 <= j -> gbit bm' j = if j =? bit then v else gbit bm j.
Proof.
  intros Hb. unfold ntfs_bit_set. rewrite shiftr3, land7.
  replace (1 <? Z.b2z v) with false by (by destruct v).
  destruct (byte_of_bit bm bit Hb) as (b & E & _ & R). rewrite E. cbn [mbind res_bind].
  rewrite aset_ok by done. cbn [mbind res_bind]. eexists. split; [done|].
  split; [apply zlen_insert|]. intros j Hj. apply (gbit_insert _ _ _ b); try done; [|lia].
  intros k Hk. rewrite <- (put_bit_spec v b (bit mod 8) k) by (lia || dlia).
  by destruct v.
Qed.

Lemma bit_get_and_set_spec bm bit v :
  0 <= bit < 8 * zlen bm ->
  exists bm', ntfs_bit_get_and_set bm bit (Z.b2z v) = Ok (bm', Z.b2z (gbit bm bit)) /\
    zlen bm' = zlen bm /\
    forall j, 0 <= j -> gbit bm' j = if j =? bit then v else gbit bm j.
Proof.
  intros Hb. unfold ntfs_bit_get_and_set. rewrite shiftr3, land7.
  replace (1 <? Z.b2z v) with false by (by destruct v).
  destruct (byte_of_bit bm bit Hb) as (b & E & G & R). rewrite E. cbn [mbind res_bind].
  rewrite land1, Z.shiftr_spec, Z.add_0_l, <- G by lia.
  destruct (Z.eqb_spec (Z.b2z v) (Z.b2z (gbit bm bit))) as [Eq|Ne]; cbn [negb].
  - exists bm. split; [done|]. split; [done|]. intros j Hj.
    destruct (Z.eqb_spec j bit) as [->|]; [|done]. by destruct v, (gbit bm bit).
  - rewrite aset_ok by done. cbn [mbind res_bind]. eexists. split; [done|].
    split; [apply zlen_insert|]. intros j Hj. apply (gbit_insert _ _ _ b); try done; [|lia].
    intros k Hk. rewrite testbit_u8, Z.lxor_spec, testbit_one by (lia || dlia).
    destruct (Z.eqb_spec k (bit mod 8)) as [->|]; [|apply xorb_false_r].
    rewrite <- G. by destruct v, (gbit bm bit).
Qed.

(** ** Partial bytes *)

Lemma first_byte_loop_spec v : forall fuel b bit count b' count',
  0 < bit <= 8 -> 8 - bit <= Z.of_nat fuel -> 0 <= count ->
  first_byte_loop fuel v b bit count = (b', count') ->
  count' = (if 8 - bit <=? count then count - (8 - bit) else -1) /\
  forall k, 0 <= k < 8 ->
    Z.testbit b' k = if (bit <=? k) && (k <? bit + count) then v else Z.testbit b k.
Proof.
  induction fuel as [|fuel IH]; intros b bit count b' count' Hb Hf Hc; cbn [first_byte_loop].
  - intros [= <- <-]. split; [zdec; lia|]. intros k Hk. by zdec.
  - rewrite land7. destruct (Z.eqb_spec (bit mod 8) 0) as [E|E].
    { assert (bit = 8) as -> by dlia. intros [= <- <-].
      split; [zdec; lia|]. intros k Hk. by zdec. }
    assert (bit < 8) by dlia. destruct (Z.eqb_spec count 0) as [->|Hc0].
    { intros [= <- <-]. split; [by zdec|]. intros k Hk. zcase; cbn; done || lia. }
    intros [F1 F2]%IH; try lia. split; [rewrite F1; zcase; lia|]. intros k Hk.
    rewrite F2, put_bit_spec by lia. zcase; cbn; done || lia.
Qed.

Lemma last_byte_loop_spec v : forall n b count b' count',
  (n <= 8)%nat -> Z.of_nat n <= count -> last_byte_loop n v b count = (b', count') ->
  count' = count - Z.of_nat n /\
  forall k, 0 <= k < 8 -> Z.testbit b' k = if k <? Z.of_nat n then v else Z.testbit b k.
Proof.
  induction n as [|n IH]; intros b count b' count' Hn Hc; cbn [last_byte_loop].
  - intros [= <- <-]. split; [lia|]. intros k Hk. by zdec.
  - zdec. intros [F1 F2]%IH; try lia. split; [lia|]. intros k Hk.
    rewrite F2, put_bit_spec by lia. zcase; cbn; done || lia.
Qed.

(** ** Windows of an attribute *)

Lemma gbit_awrite bm p bytes bm' j :
  awrite bm p bytes = Ok bm' -> 0 <= p -> 0 <= j ->
  gbit bm' j = if (8 * p <=? j) && (j <? 8 * (p + zlen bytes)) then gbit bytes (j - 8 * p) else gbit bm j.
Proof.
  intros W Hp Hj. destruct (awrite_lookup _ _ _ _ (Z.to_nat (j / 8)) W) as [_ L].
  unfold gbit at 1. rewrite L. clear L W. pose proof (zlen_nonneg bytes).
  destruct (decide _) as [[D1 D2]|D].
  - assert (p <= j / 8 < p + zlen bytes) by (unfold zlen in *; dlia).
    rewrite (proj2 (Z.leb_le _ _)), (proj2 (Z.ltb_lt _ _)) by dlia. cbn [andb]. unfold gbit.
    replace ((j - 8 * p) / 8) with (j / 8 - p) by dlia.
    replace ((j - 8 * p) mod 8) with (j mod 8) by dlia.
    by replace (Z.to_nat (j / 8 - p)) with (Z.to_nat (j / 8) - Z.to_nat p)%nat by dlia.
  - assert (~ (p <= j / 8 < p + zlen bytes)) as N by (intros ?; apply D; unfold zlen in *; dlia).
    replace ((8 * p <=? j) && (j <? 8 * (p + zlen bytes))) with false; [done|].
    symmetry. apply andb_false_iff. rewrite Z.leb_gt, Z.ltb_ge. dlia.
Qed.

Section window.
Context {A : Type} {IO : AttrIO A} {LAWS : AttrIOLaws A}.
Implicit Types (na : A).

Lemma read_byte_spec na pos :
  0 <= pos < zlen (attr_value na) -> exists b, read_byte na pos = Ok b /\
    forall k, 0 <= k < 8 -> Z.testbit b k = gbit (attr_value na) (8 * pos + k).
Proof.
  intros Hp. unfold read_byte. rewrite pread_value by lia.
  destruct (aget_total (attr_value na) pos Hp) as [b E]. apply aget_ok in E as [_ E].
  rewrite (drop_S _ b) by done. exists b. split; [done|]. intros k Hk.
  rewrite (gbit_lookup _ _ b); [f_equal; dlia|].
  by replace ((8 * pos + k) / 8) with pos by dlia.
Qed.

Lemma write_window na p bytes :
  0 <= p -> p + zlen bytes <= zlen (attr_value na) ->
  exists na', ntfs_attr_pwrite na p bytes = Ok (na', zlen bytes) /\
    zlen (attr_value na') = zlen (attr_value na) /\
    forall j, 0 <= j -> gbit (attr_value na') j =
      if (8 * p <=? j) && (j <? 8 * (p + zlen bytes)) then gbit bytes (j - 8 * p)
      else gbit (attr_value na) j.
Proof.
  intros Hp Hl. destruct (pwrite_inside na p bytes Hp Hl) as (na' & E & W).
  exists na'. split; [done|]. split; [by apply (awrite_lookup _ _ _ _ 0) in W as [? _]|].
  intros j Hj. by apply gbit_awrite.
Qed.

End window.

Lemma gbit_take bm n j : 0 <= j < 8 * n -> gbit (take (Z.to_nat n) bm) j = gbit bm j.
Proof. intros Hj. unfold gbit. rewrite lookup_take_lt by dlia. done. Qed.

Lemma gbit_insert_byte bm q x j :
  0 <= q < zlen bm -> 0 <= j ->
  gbit (<[Z.to_nat q := x]> bm) j =
    if (8 * q <=? j) && (j <? 8 * q + 8) then Z.testbit x (j - 8 * q) else gbit bm j.
Proof.
  intros Hq Hj. unfold gbit. destruct (Z.eq_dec (j / 8) q) as [<-|Ne].
  - rewrite list_lookup_insert_eq by (unfold zlen in Hq; lia).
    rewrite (proj2 (Z.leb_le _ _)), (proj2 (Z.ltb_lt _ _)) by dlia. cbn [andb]. f_equal. dlia.
  - rewrite list_lookup_insert_ne by dlia.
    replace ((8 * q <=? j) && (j <? 8 * q + 8)) with false; [done|].
    symmetry. apply andb_false_iff. rewrite Z.leb_gt, Z.ltb_ge. dlia.
Qed.

Lemma gbit_fill v n j :
  0 <= j < 8 * n -> gbit (replicate (Z.to_nat n) (fill_byte v)) j = v.
Proof.
  intros Hj. unfold gbit. rewrite lookup_replicate_2 by dlia. apply testbit_fill. dlia.
Qed.

(** ** The loop over the windows *)

Section run.
Context {A : Type} {IO : AttrIO A} {LAWS : AttrIOLaws A}.
Implicit Types (st : run_state (A := A)).

(** At the head of the loop: the bits from [r_start] on are to be set, the
    buffer has the prepared first byte, if any, and is filled behind it. *)
Record run_inv (v : bool) (st : run_state (A := A)) : Prop := {
  ri_first : r_first st = 0 \/ r_first st = 1;
  ri_start : r_start st mod 8 = 0 /\ 8 * r_first st <= r_start st;
  ri_count : -1 <= r_count st < 2 ^ 33;
  ri_bit : r_bit st = r_count st mod 8;
  ri_size : r_bufsize st = Z.min 8192 ((r_count st + 7) / 8 + r_first st);
  ri_buf : r_bufsize st <= zlen (r_buf st);
  ri_fill : forall i, 8 * r_first st <= i < 8 * r_bufsize st -> gbit (r_buf st) i = v;
  ri_room : r_start st <= 8 * zlen (attr_value (r_na st)) /\
            r_start st + r_count st <= 8 * zlen (attr_value (r_na st))
}.

(** The bits after the loop. *)
Definition run_post (v : bool) (st : run_state (A := A)) (value : list Z) : Prop :=
  zlen value = zlen (attr_value (r_na st)) /\
  forall j, 0 <= j -> gbit value j =
    if (r_start st - 8 * r_first st <=? j) && (j <? r_start st)
    then gbit (r_buf st) (j - (r_start st - 8 * r_first st))
    else if (r_start st <=? j) && (j <? r_start st + r_count st) then v
    else gbit (attr_value (r_na st)) j.

(** The current window is the last one. *)
Definition last_window (st : run_state (A := A)) : Prop :=
  r_bufsize st = (r_count st + 7) / 8 + r_first st.

(** The last partial byte: handled in the last window only. *)
Lemma do_last_byte_spec v st :
  run_inv v st ->
  (r_count st <= 0 \/ r_count st mod 8 = 0 \/ ~ last_window st) /\
    do_last_byte v st = Ok (st, 0) \/
  0 < r_count st /\ r_count st mod 8 <> 0 /\ last_window st /\
  exists buf, do_last_byte v st =
      Ok (mk_run (r_na st) (r_start st) (r_count st - r_count st mod 8) 0 (r_first st)
            (r_bufsize st) buf, 1) /\
    zlen buf = zlen (r_buf st) /\
    forall i, 0 <= i < 8 * r_bufsize st -> gbit buf i =
      if 8 * (r_bufsize st - 1) <=? i then
        if i <? 8 * (r_bufsize st - 1) + r_count st mod 8 then v
        else gbit (attr_value (r_na st)) (i - 8 * r_bufsize st + 8 + r_start st + r_count st - r_count st mod 8)
      else gbit (r_buf st) i.
Proof.
  intros [If Is Ic Ib In Ibuf Ifill [Ir1 Ir2]]. unfold do_last_byte, last_window.
  rewrite Ib, shiftr3. set (C := r_count st) in *. set (N := r_bufsize st) in *.
  destruct (Z.ltb_spec 0 C) as [Hc|Hc]; [|left; split; [lia|done]].
  destruct (Z.eqb_spec (C mod 8) 0) as [Hr|Hr]; [left; split; [lia|done]|]. cbn [negb andb].
  assert (1 <= (C + 7) / 8 + r_first st < 2 ^ 31) as B by dlia.
  rewrite (wraps_small 32) by (change (32 - 1) with 31; lia). zdec.
  destruct (Z.leb_spec ((C + 7) / 8 + r_first st) N) as [Hw|Hw]; [|left; split; [lia|done]].
  right. split; [done|]. split; [done|]. split; [lia|]. assert (N = (C + 7) / 8 + r_first st) as EN by lia.
  rewrite shiftr3.
  destruct (read_byte_spec (r_na st) ((r_start st + C) / 8)) as (b & -> & Hb); [dlia|].
  cbn [mbind res_bind].
  destruct (last_byte_loop (Z.to_nat (C mod 8)) v b C) as [b' c'] eqn:EL.
  apply last_byte_loop_spec in EL as [-> Hb']; [|dlia..].
  rewrite aset_ok by lia. cbn [mbind res_bind]. eexists.
  rewrite Z2Nat.id by dlia. split; [done|]. split; [apply zlen_insert|]. intros i Hi.
  rewrite gbit_insert_byte by lia.
  destruct (Z.leb_spec (8 * (N - 1)) i).
  - rewrite <- EN. zdec. rewrite Hb', Z2Nat.id by dlia.
    destruct (Z.ltb_spec (i - 8 * (N - 1)) (C mod 8)); [by zdec|]. zdec.
    rewrite Hb by lia. f_equal. dlia.
  - rewrite <- EN. by zdec.
Qed.

(** Writing the prepared window. *)
Lemma run_write v st buf count bit :
  run_inv v st -> zlen buf = zlen (r_buf st) ->
  let st' := mk_run (r_na st) (r_start st) count bit (r_first st) (r_bufsize st) buf in
  exists bytes na', aslice (r_buf st') 0 (r_bufsize st') = Ok bytes /\
    ntfs_attr_pwrite (r_na st') (Z.shiftr (r_start st') 3 - r_first st') bytes =
      Ok (na', r_bufsize st) /\
    zlen (attr_value na') = zlen (attr_value (r_na st)) /\
    forall j, 0 <= j -> gbit (attr_value na') j =
      if (r_start st - 8 * r_first st <=? j) &&
         (j <? r_start st - 8 * r_first st + 8 * r_bufsize st)
      then gbit buf (j - (r_start st - 8 * r_first st)) else gbit (attr_value (r_na st)) j.
Proof.
  intros [If [Is1 Is2] Ic Ib In Ibuf Ifill [Ir1 Ir2]] Lb. cbn zeta. cbn [r_buf r_bufsize r_na r_start r_first].
  rewrite shiftr3. set (N := r_bufsize st) in *.
  assert (0 <= N) by dlia. unfold aslice. zdec. cbn [drop].
  assert (zlen (take (Z.to_nat N) buf) = N) as LN by (unfold zlen in *; rewrite length_take; lia).
  destruct (write_window (r_na st) (r_start st / 8 - r_first st) (take (Z.to_nat N) buf))
    as (na' & E & L & G); [dlia|rewrite LN; dlia|].
  exists (take (Z.to_nat N) buf), na'. rewrite LN in *. split; [done|]. split; [done|]. split; [done|].
  intros j Hj. rewrite (G j Hj). clear G.
  replace (8 * (r_start st / 8 - r_first st)) with (r_start st - 8 * r_first st) by dlia.
  replace (8 * (r_start st / 8 - r_first st + N)) with (r_start st - 8 * r_first st + 8 * N) by dlia.
  destruct (Z.leb_spec (r_start st - 8 * r_first st) j); [|done].
  destruct (Z.ltb_spec j (r_start st - 8 * r_first st + 8 * N)); [|done]. cbn [andb].
  apply gbit_take. lia.
Qed.

(** The first byte of the buffer is reset after it was written. *)
Lemma run_refill v st :
  run_inv v st ->
  exists buf, (if negb (r_first st =? 0) then aset (r_buf st) 0 (fill_byte v)
               else Ok (r_buf st)) = Ok buf /\
    zlen buf = zlen (r_buf st) /\ forall i, 0 <= i < 8 * r_bufsize st -> gbit buf i = v.
Proof.
  intros [If [Is1 Is2] Ic Ib In Ibuf Ifill _].
  destruct (Z.eqb_spec (r_first st) 0) as [E|E]; cbn [negb].
  - exists (r_buf st). split; [done|]. split; [done|]. intros i Hi. apply Ifill. lia.
  - assert (r_first st = 1) as E1 by lia. rewrite aset_ok by dlia.
    eexists. split; [done|]. split; [apply zlen_insert|]. intros i Hi.
    rewrite (gbit_insert_byte _ 0) by dlia. zcase; cbn [andb]; try lia.
    + apply testbit_fill. lia.
    + apply Ifill. lia.
Qed.

(** A full window: the rest is left to the next round. *)
Lemma run_next v st na' buf :
  run_inv v st -> ~ last_window st ->
  zlen (attr_value na') = zlen (attr_value (r_na st)) -> zlen buf = zlen (r_buf st) ->
  (forall i, 0 <= i < 8 * r_bufsize st -> gbit buf i = v) ->
  (forall j, 0 <= j -> gbit (attr_value na') j =
      if (r_start st - 8 * r_first st <=? j) &&
         (j <? r_start st - 8 * r_first st + 8 * r_bufsize st)
      then gbit (r_buf st) (j - (r_start st - 8 * r_first st)) else gbit (attr_value (r_na st)) j) ->
  let tmp := 8 * (r_bufsize st - r_first st) in
  let st' := mk_run na' (r_start st + tmp) (r_count st - tmp) (r_bit st) 0
               (Z.min (r_bufsize st) ((r_count st - tmp + 7) / 8)) buf in
  0 < tmp /\ 0 < r_count st - tmp /\ run_inv v st' /\
  forall value, run_post v st' value -> run_post v st value.
Proof.
  intros [If [Is1 Is2] Ic Ib In Ibuf Ifill [Ir1 Ir2]] Hl L Lb Gb G. cbn zeta.
  unfold last_window in Hl. assert (r_bufsize st = 8192) as EN by lia. rewrite EN in *.
  assert (0 < r_count st - 8 * (8192 - r_first st)) by dlia.
  split; [lia|]. split; [done|]. split.
  - split; cbn [r_na r_start r_count r_bit r_first r_bufsize r_buf].
    + by left.
    + dlia.
    + lia.
    + rewrite Ib. dlia.
    + lia.
    + lia.
    + intros i Hi. apply Gb. lia.
    + rewrite L. lia.
  - intros value [PL PG]. cbn [r_na r_start r_count r_bit r_first r_bufsize r_buf] in *.
    split; [congruence|]. intros j Hj. rewrite (PG j Hj), (G j Hj). zcase; cbn [andb]; try lia; try done.
    all: apply Ifill; lia.
Qed.

(** The last window without a partial byte. *)
Lemma run_done v st na' :
  run_inv v st -> last_window st -> r_count st <= 0 \/ r_count st mod 8 = 0 ->
  zlen (attr_value na') = zlen (attr_value (r_na st)) ->
  (forall j, 0 <= j -> gbit (attr_value na') j =
      if (r_start st - 8 * r_first st <=? j) &&
         (j <? r_start st - 8 * r_first st + 8 * r_bufsize st)
      then gbit (r_buf st) (j - (r_start st - 8 * r_first st)) else gbit (attr_value (r_na st)) j) ->
  r_count st - 8 * (r_bufsize st - r_first st) <= 0 /\ run_post v st (attr_value na').
Proof.
  intros [If [Is1 Is2] Ic Ib In Ibuf Ifill [Ir1 Ir2]] Hl Hc L G. unfold last_window in Hl.
  assert (8 * (r_bufsize st - r_first st) = Z.max 0 (r_count st)) as EN by dlia.
  split; [lia|]. split; [done|]. intros j Hj. rewrite (G j Hj).
  zcase; cbn [andb]; try lia; try done; apply Ifill; lia.
Qed.

(** The last window with a partial byte. *)
Lemma run_last v st na' buf :
  run_inv v st -> last_window st -> 0 < r_count st ->
  zlen (attr_value na') = zlen (attr_value (r_na st)) ->
  (forall i, 0 <= i < 8 * r_bufsize st -> gbit buf i =
     if 8 * (r_bufsize st - 1) <=? i then
       if i <? 8 * (r_bufsize st - 1) + r_count st mod 8 then v
       else gbit (attr_value (r_na st)) (i - 8 * r_bufsize st + 8 + r_start st + r_count st - r_count st mod 8)
     else gbit (r_buf st) i) ->
  (forall j, 0 <= j -> gbit (attr_value na') j =
      if (r_start st - 8 * r_first st <=? j) &&
         (j <? r_start st - 8 * r_first st + 8 * r_bufsize st)
      then gbit buf (j - (r_start st - 8 * r_first st)) else gbit (attr_value (r_na st)) j) ->
  r_count st mod 8 <> 0 -> 1 <= r_bufsize st /\
  8 * (r_bufsize st - r_first st - 1) = r_count st - r_count st mod 8 /\
  run_post v st (attr_value na').
Proof.
  intros [If [Is1 Is2] Ic Ib In Ibuf Ifill [Ir1 Ir2]] Hl Hc L Gb G Hr. unfold last_window in Hl.
  split; [dlia|]. split; [dlia|]. split; [done|]. intros j Hj. rewrite (G j Hj).
  assert (8 * r_bufsize st = r_count st - r_count st mod 8 + 8 * r_first st + 8) as EN by dlia.
  assert (0 <= r_count st mod 8 < 8 /\ r_count st mod 8 <= r_count st) by dlia.
  destruct (_ && _) eqn:Cond; zcase_in Cond; cbn [andb] in Cond; try done.
  - rewrite Gb by lia. zcase; cbn [andb]; try lia; try done; try (apply Ifill; lia).
    all: f_equal; lia.
  - zcase; cbn [andb]; try done; lia.
  - zcase; cbn [andb]; try done; lia.
  - zcase; cbn [andb]; try done; lia.
Qed.

Lemma run_loop_spec v : forall fuel st,
  run_inv v st -> r_count st + 2 <= Z.of_nat fuel ->
  exists na', run_loop fuel v st 0 = Ok na' /\ run_post v st (attr_value na').
Proof.
  induction fuel as [|fuel IH]; intros st Hinv Hf; [destruct Hinv; lia|]. cbn [run_loop].
  destruct (do_last_byte_spec v st Hinv) as [[Hc ->]|(Hc & Hr & Hl & buf & -> & Lb & Gb)];
    cbn [mbind res_bind].
  - destruct (run_write v st (r_buf st) (r_count st) (r_bit st) Hinv eq_refl)
      as (bytes & na' & E1 & E2 & L & G). cbn [r_buf r_bufsize r_na r_start r_first] in *.
    rewrite E1. cbn [mbind res_bind]. rewrite E2. cbn [mbind res_bind]. rewrite Z.eqb_refl.
    destruct (run_refill v st Hinv) as (buf' & -> & Lb' & Gb'). cbn [mbind res_bind negb].
    rewrite shiftl3, shiftr3. change (Z.max 0 0) with 0. cbn [negb andb Z.eqb]. rewrite Z.sub_0_r.
    destruct (decide (last_window st)) as [Hl|Hl].
    + destruct (run_done v st na' Hinv Hl ltac:(tauto) L G) as [Hle Hpost]. zdec.
      by exists na'.
    + destruct (run_next v st na' buf' Hinv Hl L Lb' Gb' G) as (T1 & T2 & I2 & P2). cbn zeta in *.
      zdec. destruct (IH _ I2) as (na2 & E & P); [cbn [r_count]; lia|].
      exists na2. split; [done|]. by apply P2.
  - destruct (run_write v st buf (r_count st - r_count st mod 8) 0 Hinv Lb)
      as (bytes & na' & E1 & E2 & L & G). cbn [r_buf r_bufsize r_na r_start r_first] in *.
    cbn [r_buf r_bufsize r_na r_start r_first r_count r_bit].
    rewrite E1. cbn [mbind res_bind]. rewrite E2. cbn [mbind res_bind]. rewrite Z.eqb_refl.
    assert (zlen buf >= r_bufsize st) by (destruct Hinv; lia).
    destruct (run_last v st na' buf Hinv Hl Hc L Gb G Hr) as (HN & EN & Hpost).
    assert (exists buf', (if negb (r_first st =? 0) then aset buf 0 (fill_byte v) else Ok buf) =
      Ok buf') as [buf' ->].
    { destruct (r_first st =? 0); [by eexists|]. cbn [negb]. rewrite aset_ok by lia. by eexists. }
    cbn [mbind res_bind negb]. rewrite shiftl3. change (Z.max 0 1) with 1.
    rewrite EN, Z.sub_diag. cbn [negb andb Z.eqb Z.ltb Z.compare]. by exists na'.
Qed.

End run.

Lemma land_not7 x : Z.land x (Z.lnot 7) = 8 * (x / 8).
Proof. apply (land_lnot_ones x 3). lia. Qed.

Section set_run.
Context {HP : Heap} {A : Type} {IO : AttrIO A} {LAWS : AttrIOLaws A}.
Hypothesis Hheap : forall n, heap_grants n = true.

(** The loop after a first partial byte [b], prepared from bit [start] on. *)
Lemma run_from_partial v (na : A) start count b b' count' :
  0 <= start -> 0 <= count < 2 ^ 33 -> start + count <= 8 * zlen (attr_value na) ->
  start < 8 * zlen (attr_value na) -> start mod 8 <> 0 ->
  (forall k, 0 <= k < 8 -> Z.testbit b k = gbit (attr_value na) (8 * (start / 8) + k)) ->
  first_byte_loop 8 v b (start mod 8) count = (b', count') ->
  let n := Z.min 8192 ((count - (8 - start mod 8) + 7) / 8 + 1) in
  let st := mk_run na (8 * ((start + 7) / 8)) count' (count' mod 8) 1 n
              (<[0%nat := b']> (replicate (Z.to_nat n) (fill_byte v))) in
  run_inv v st /\ count' <= count /\ 1 <= n /\
  forall value, run_post v st value ->
    zlen value = zlen (attr_value na) /\ forall j, 0 <= j -> gbit value j =
      if (start <=? j) && (j <? start + count) then v else gbit (attr_value na) j.
Proof.
  intros Hs Hc Hr Hr' E Hb EF. apply first_byte_loop_spec in EF as [Ec Hb']; [|dlia..].
  cbn zeta. set (bit := start mod 8) in *. assert (0 < bit < 8) by dlia.
  assert (8 * ((start + 7) / 8) = start - bit + 8) as -> by dlia.
  set (n := Z.min 8192 _). assert (1 <= n) by (unfold n; dlia).
  assert (zlen (replicate (Z.to_nat n) (fill_byte v)) = n) as Ln
    by (unfold zlen; rewrite length_replicate; lia).
  assert (forall i, 0 <= i < 8 * n ->
    gbit (<[0%nat := b']> (replicate (Z.to_nat n) (fill_byte v))) i =
    if i <? 8 then Z.testbit b' i else v) as Gbuf.
  { intros i Hi. rewrite (gbit_insert_byte _ 0), Z.sub_0_r by lia. change (8 * 0) with 0. change (0 + 8) with 8. rewrite (proj2 (Z.leb_le 0 i)) by lia. cbn [andb].
    destruct (i <? 8); [done|]. by apply gbit_fill. }
  split; [|split; [zcase_in Ec; lia|split; [done|]]].
  - split; cbn [r_na r_start r_count r_bit r_first r_bufsize r_buf].
    + by right.
    + dlia.
    + zcase_in Ec; lia.
    + done.
    + unfold n. f_equal. f_equal. zcase_in Ec; dlia.
    + rewrite zlen_insert. lia.
    + intros i Hi. rewrite Gbuf by lia. by zdec.
    + zcase_in Ec; dlia.
  - intros value [PL PG]. cbn [r_na r_start r_count r_bit r_first r_bufsize r_buf] in *.
    split; [done|]. intros j Hj. rewrite (PG j Hj).
    destruct (Z.leb_spec (start - bit + 8 - 8 * 1) j); destruct (Z.ltb_spec j (start - bit + 8)); cbn [andb].
    + rewrite Gbuf by lia. zdec. rewrite Hb' by lia.
      rewrite Hb by lia. replace (8 * (start / 8) + (j - (start - bit + 8 - 8 * 1))) with j by dlia.
      zcase; cbn [andb]; done || lia.
    + zcase_in Ec; zcase; cbn [andb]; done || lia.
    + zcase_in Ec; zcase; cbn [andb]; done || lia.
    + lia.
Qed.

Lemma set_bits_in_run_spec (na : A) start count v :
  0 <= start -> 0 <= count < 2 ^ 33 -> start + count <= 8 * zlen (attr_value na) ->
  start < 8 * zlen (attr_value na) \/ start mod 8 = 0 ->
  exists na', ntfs_bitmap_set_bits_in_run na start count v = Ok na' /\
    zlen (attr_value na') = zlen (attr_value na) /\
    forall j, 0 <= j -> gbit (attr_value na') j =
      if (start <=? j) && (j <? start + count) then v else gbit (attr_value na) j.
Proof.
  intros Hs Hc Hr Hr'. unfold ntfs_bitmap_set_bits_in_run.
  rewrite Hheap, !land7, land_not7, !shiftr3. zdec. cbn [negb].
  assert (forall x, (if 8192 <? x then 8192 else x) = Z.min 8192 x) as Emin by (intros; zcase; lia).
  rewrite Emin. destruct (Z.eqb_spec (start mod 8) 0) as [E|E]; cbn [negb mbind res_bind].
  - rewrite Z.sub_0_r, Z.add_0_r, land7.
    destruct (run_loop_spec v (Z.to_nat count + 2) (mk_run na start count (count mod 8) 0
      (Z.min 8192 ((count + 7) / 8)) (replicate (Z.to_nat (Z.min 8192 ((count + 7) / 8))) (fill_byte v))))
      as (na' & EL & L & G).
    { split; cbn [r_na r_start r_count r_bit r_first r_bufsize r_buf]; try lia.
      - unfold zlen. rewrite length_replicate. lia.
      - intros i Hi. by apply gbit_fill. }
    { cbn [r_count]. lia. }
    exists na'. split; [done|]. split; [done|]. intros j Hj. rewrite (G j Hj).
    cbn [r_na r_start r_count r_bit r_first r_bufsize r_buf].
    zcase; cbn [andb]; try lia; done.
  - destruct (read_byte_spec na (start / 8)) as (b & -> & Hb); [dlia|]. cbn [mbind res_bind].
    destruct (first_byte_loop 8 v b (start mod 8) count) as [b' count'] eqn:EF.
    destruct (run_from_partial v na start count b b' count') as (I & Hle & Hn & P); try done; [lia|].
    cbn zeta in *. set (n := Z.min 8192 _) in *.
    rewrite aset_ok by (unfold zlen; rewrite length_replicate; lia). cbn [mbind res_bind].
    rewrite land7. destruct (run_loop_spec v (Z.to_nat count' + 2) _ I) as (na' & EL & Post);
      [cbn [r_count]; lia|].
    exists na'. split; [done|]. by apply P.
Qed.

End set_run.

(** C37: setting or clearing a run of bits of a bitmap attribute changes these
    bits and no other, whatever their alignment and number. *)
Theorem bitmap_set_run_correct `{Heap} {A} `{AttrIOLaws A} (na : A) start count v :
  (forall n, heap_grants n = true) -> 0 <= start -> 0 <= count < 2 ^ 33 ->
  start + count <= 8 * zlen (attr_value na) ->
  start < 8 * zlen (attr_value na) \/ start mod 8 = 0 ->
  exists na', ntfs_bitmap_set_bits_in_run na start count v = Ok na' /\
    zlen (attr_value na') = zlen (attr_value na) /\
    forall j, 0 <= j -> gbit (attr_value na') j =
      if (start <=? j) && (j <? start + count) then v else gbit (attr_value na) j.
Proof. intros Hh. by apply set_bits_in_run_spec. Qed.

Lemma bitmap_set_run_correct_witness :
  exists na', @ntfs_bitmap_set_bits_in_run ample_heap (list Z) mem_attr (replicate 4 0) 5 20 true
      = Ok na' /\
    zlen na' = 4 /\ forall j, 0 <= j -> gbit na' j =
      if (5 <=? j) && (j <? 5 + 20) then true else gbit (replicate 4 0) j.
Proof.
  apply (@bitmap_set_run_correct ample_heap (list Z) mem_attr mem_attr_laws (replicate 4 0) 5 20 true).
  - done.
  - lia.
  - lia.
  - vm_compute. discriminate.
  - left. vm_compute. reflexivity.
Defined.
