(* ===== verification/BootSect.v ===== *)
(** The boot sector (libntfs/bootsect.c): the check that a sector is an NTFS
    boot sector, and the set-up of the geometry of a volume from it.

    A boot sector is the record of its fields, converted from little endian;
    the seek to the last sector is a parameter. *)

From S2P Require Import Prelude Volume Bitmap.

Definition NTFS_MAX_CLUSTER_SIZE : Z := 2097152.

Record BIOS_PARAMETER_BLOCK := mk_bpb {
  bytes_per_sector : Z;
  sectors_per_cluster : Z;
  reserved_sectors : Z;
  fats : Z;
  root_entries : Z;
  sectors : Z;
  media_type : Z;
  sectors_per_fat : Z;
  sectors_per_track : Z;
  heads : Z;
  hidden_sectors : Z;
  large_sectors : Z
}.

Record NTFS_BOOT_SECTOR := mk_boot {
  oem_id : Z;
  bpb : BIOS_PARAMETER_BLOCK;
  number_of_sectors : Z;
  bs_mft_lcn : Z;
  bs_mftmirr_lcn : Z;
  clusters_per_mft_record : Z;
  clusters_per_index_record : Z;
  end_of_sector_marker : Z
}.

(** [ffs] on a 32-bit value. *)
Definition ffs (x : Z) : Z := ffsl_from 32 0 x.

(** [1 << n] for an [int]; shifting by 32 or more is undefined. *)
Definition shl1 (n : Z) : res Z :=
  if (n <? 0) || (32 <=? n) then Undef else Ok (Z.shiftl 1 n).

(** The number of sectors of a cluster from its code, as a [u16]. *)
Definition spc_of_code (code : Z) : res Z :=
  if 128 <? code then n ← shl1 (256 - code); Ok (u16 n) else Ok code.

(** The [switch] on a number of clusters per record, [c] being signed. *)
Definition record_code_ok (c : Z) : bool :=
  if (u8 c <? 0xe1) || (0xf7 <? u8 c)
  then (c =? 1) || (c =? 2) || (c =? 4) || (c =? 8) || (c =? 0x10) || (c =? 0x20) || (c =? 0x40)
  else true.

Definition spc_code_ok (c : Z) : bool :=
  (c =? 1) || (c =? 2) || (c =? 4) || (c =? 8) || (c =? 16) || (c =? 32) || (c =? 64) || (c =? 128) ||
  negb ((c <? 240) || (253 <? c)).

Definition ntfs_boot_sector_is_ntfs (b : NTFS_BOOT_SECTOR) : res bool :=
  if negb (oem_id b =? 0x202020205346544e) then Ok false else
  if (bytes_per_sector (bpb b) <? 256) || (4096 <? bytes_per_sector (bpb b)) then Ok false else
  if negb (spc_code_ok (sectors_per_cluster (bpb b))) then Ok false else
  spc ← spc_of_code (sectors_per_cluster (bpb b));
  let i := u32 (bytes_per_sector (bpb b) * spc) in
  if (i =? 0) || (NTFS_MAX_CLUSTER_SIZE <? i) then Ok false else
  if negb (reserved_sectors (bpb b) =? 0) || negb (root_entries (bpb b) =? 0) || negb (sectors (bpb b) =? 0) ||
     negb (sectors_per_fat (bpb b) =? 0) || negb (large_sectors (bpb b) =? 0) || negb (fats (bpb b) =? 0)
  then Ok false else
  if negb (record_code_ok (clusters_per_mft_record b)) then Ok false else
  if negb (record_code_ok (clusters_per_index_record b)) then Ok false else
  if (bs_mft_lcn b <=? 0) || (bs_mftmirr_lcn b <=? 0) || (bs_mft_lcn b =? bs_mftmirr_lcn b) then Ok false else
  Ok true.

(** [if (c < 0) 1 << -c; else c << vol->cluster_size_bits;] *)
Definition record_size (c cluster_size_bits : Z) : res Z :=
  if c <? 0 then n ← shl1 (- c); Ok (u32 n)
  else if 32 <=? cluster_size_bits then Undef else Ok (u32 (Z.shiftl c cluster_size_bits)).

Definition not_power_of_2 (x : Z) : bool := negb (Z.land x (x - 1) =? 0).

(** The volume with the geometry set, the other fields as in [vol].  [seek] is
    the device's seek, with its error. *)
Definition ntfs_boot_sector_parse (seek : Z -> option errno) (vol : ntfs_volume) (bs : NTFS_BOOT_SECTOR)
    : res ntfs_volume :=
  let sector_size := bytes_per_sector (bpb bs) in
  let sector_size_bits := u8 (ffs sector_size - 1) in
  spc ← spc_of_code (sectors_per_cluster (bpb bs));
  if not_power_of_2 spc then Err EINVAL else
  let sectors := number_of_sectors bs in
  if sectors =? 0 then Err EINVAL else
  match seek (s64 (Z.shiftl (sectors - 1) sector_size_bits)) with
  | Some e => Err e
  | None =>
      if ffs spc =? 0 then Undef else
      let nr_clusters := Z.shiftr sectors (ffs spc - 1) in
      let mft_lcn := bs_mft_lcn bs in
      let mftmirr_lcn := bs_mftmirr_lcn bs in
      if (mft_lcn <? 0) || (nr_clusters <? mft_lcn) || (mftmirr_lcn <? 0) || (nr_clusters <? mftmirr_lcn)
      then Err EINVAL else
      let cluster_size := u32 (spc * sector_size) in
      if not_power_of_2 cluster_size then Err EINVAL else
      let cluster_size_bits := u8 (ffs cluster_size - 1) in
      mft_record_size ← record_size (clusters_per_mft_record bs) cluster_size_bits;
      if (mft_record_size =? 0) || not_power_of_2 mft_record_size then Err EINVAL else
      let mft_record_size_bits := u8 (ffs mft_record_size - 1) in
      indx_record_size ← record_size (clusters_per_index_record bs) cluster_size_bits;
      let indx_record_size_bits := u8 (ffs indx_record_size - 1) in
      let mftmirr_size := if cluster_size <=? u32 (4 * mft_record_size) then 4
                          else Z.shiftr cluster_size mft_record_size_bits in
      Ok (mk_volume (major_ver vol) sector_size sector_size_bits cluster_size cluster_size_bits
            mft_record_size mft_record_size_bits indx_record_size indx_record_size_bits
            nr_clusters sectors mft_lcn mftmirr_lcn mftmirr_size (on_fsck vol) (read_only vol))
  end.

(** ** Specification *)

(** The fields have the ranges of their types. *)
Record boot_fields_ok (b : NTFS_BOOT_SECTOR) : Prop := {
  bf_bps : in_u 16 (bytes_per_sector (bpb b));
  bf_spc : in_u 8 (sectors_per_cluster (bpb b));
  bf_sectors : in_s 64 (number_of_sectors b);
  bf_mft : in_s 64 (bs_mft_lcn b);
  bf_mirr : in_s 64 (bs_mftmirr_lcn b);
  bf_cmft : in_s 8 (clusters_per_mft_record b);
  bf_cindx : in_s 8 (clusters_per_index_record b)
}.

(** A consistent geometry. *)
Record geometry_ok (vol : ntfs_volume) : Prop := {
  go_volume : volume_ok vol;
  go_sector : sector_size vol = 2 ^ sector_size_bits vol /\ 8 <= sector_size_bits vol <= 12;
  go_cluster : sector_size_bits vol <= cluster_size_bits vol <= 21;
  go_clusters : nr_clusters vol = nr_sectors vol / 2 ^ (cluster_size_bits vol - sector_size_bits vol);
  go_mft_record : mft_record_size vol = 2 ^ mft_record_size_bits vol /\ 8 <= mft_record_size_bits vol <= 31;
  go_indx_record : indx_record_size vol = 2 ^ indx_record_size_bits vol /\ 8 <= indx_record_size_bits vol <= 31;
  go_mft : 0 < mft_lcn vol <= nr_clusters vol;
  go_mirr : 0 < mftmirr_lcn vol <= nr_clusters vol;
  go_differ : mft_lcn vol <> mftmirr_lcn vol
}.

(** * Proofs *)

Lemma ffsl_from_pow n : forall fuel i, 0 <= i <= n -> n < i + Z.of_nat fuel -> ffsl_from fuel i (2 ^ n) = n + 1.
Proof.
  induction fuel as [|fuel IH]; intros i Hi Hf; [lia|]. cbn [ffsl_from].
  rewrite Z.pow2_bits_eqb by lia. destruct (Z.eqb_spec n i) as [->|]; [done|]. apply IH; lia.
Qed.

Lemma ffs_pow n : 0 <= n < 32 -> ffs (2 ^ n) = n + 1.
Proof. intros. apply ffsl_from_pow; lia. Qed.

Lemma power_of_2 x : 0 < x -> not_power_of_2 x = false -> x = 2 ^ Z.log2 x.
Proof.
  intros Hx H. unfold not_power_of_2 in H. apply negb_false_iff, Z.eqb_eq in H.
  pose proof (Z.log2_spec x Hx) as [L1 L2]. pose proof (Z.log2_nonneg x).
  destruct (Z.eq_dec x (2 ^ Z.log2 x)) as [|Hne]; [done|exfalso].
  assert (Z.log2 (x - 1) = Z.log2 x) as E.
  { apply Z.log2_unique; [lia|]. rewrite <- Z.add_1_r in L2. split; [lia|rewrite <- Z.add_1_r; lia]. }
  assert (0 < x - 1) as Hx1 by (pose proof (Z.pow_pos_nonneg 2 (Z.log2 x)); lia).
  assert (Z.testbit (Z.land x (x - 1)) (Z.log2 x) = true) as Hb
    by (rewrite Z.land_spec, Z.bit_log2 by done; rewrite <- E, Z.bit_log2 by done; done).
  by rewrite H, Z.bits_0 in Hb.
Qed.

Lemma power_of_2_ok n : 0 <= n -> not_power_of_2 (2 ^ n) = false.
Proof.
  intros Hn. unfold not_power_of_2. apply negb_false_iff, Z.eqb_eq.
  rewrite Z.sub_1_r, <- Z.ones_equiv, Z.land_ones by done. apply Z.mod_same. pose proof (Z.pow_pos_nonneg 2 n). lia.
Qed.

Lemma log2_bounds x a b : 0 <= a -> 2 ^ a <= x <= 2 ^ b -> a <= Z.log2 x <= b.
Proof.
  intros Ha [H1 H2]. assert (0 < x) by (pose proof (Z.pow_pos_nonneg 2 a); lia). split.
  - by apply Z.log2_le_pow2.
  - rewrite <- (Z.log2_pow2 b); [by apply Z.log2_le_mono|].
    destruct (Z.le_gt_cases 0 b); [done|]. rewrite (Z.pow_neg_r 2 b) in H2 by lia. lia.
Qed.

Lemma spc_code_spec c : 0 <= c < 256 -> spc_code_ok c = true ->
  exists spc, spc_of_code c = Ok spc /\ (spc = 0 \/ exists j, 0 <= j <= 15 /\ spc = 2 ^ j).
Proof.
  intros Hc Ho.
  pose proof (forall_range (fun c => if spc_code_ok c then match spc_of_code c with
    | Ok s => (s =? 0) || ((s =? 2 ^ Z.log2 s) && (Z.log2 s <=? 15)) | _ => false end else true) 0 256 c) as H.
  cbn beta in H. rewrite Ho in H. specialize (H ltac:(vm_compute; reflexivity) ltac:(lia)).
  destruct (spc_of_code c) as [s| |]; [|done..]. exists s. split; [done|].
  apply orb_true_iff in H as [?%Z.eqb_eq|[Es%Z.eqb_eq Hl%Z.leb_le]%andb_true_iff]; [by left|right].
  exists (Z.log2 s). split; [split; [apply Z.log2_nonneg|done]|done].
Qed.

Lemma record_code_spec c : -128 <= c < 128 -> record_code_ok c = true ->
  c < 0 /\ 9 <= - c <= 31 \/ exists j, 0 <= j <= 6 /\ c = 2 ^ j.
Proof.
  intros Hc Ho.
  pose proof (forall_range (fun c => if record_code_ok c then ((c <? 0) && (9 <=? - c) && (- c <=? 31)) ||
    ((c =? 2 ^ Z.log2 c) && (Z.log2 c <=? 6)) else true) (-128) 256 c) as H.
  cbn beta in H. rewrite Ho in H. specialize (H ltac:(vm_compute; reflexivity) ltac:(lia)).
  apply orb_true_iff in H as [H|[Es%Z.eqb_eq Hl%Z.leb_le]%andb_true_iff].
  - left. rewrite !andb_true_iff, Z.ltb_lt, !Z.leb_le in H. lia.
  - right. exists (Z.log2 c). split; [split; [apply Z.log2_nonneg|done]|done].
Qed.

(** A record size from its code. *)
Lemma record_size_spec c bits : -128 <= c < 128 -> record_code_ok c = true -> 8 <= bits <= 21 ->
  exists n, record_size c bits = Ok (2 ^ n) /\ 8 <= n <= 31.
Proof.
  intros Hc Ho Hb. unfold record_size.
  destruct (record_code_spec c Hc Ho) as [[Hn Hr]|(j & Hj & ->)].
  - zdec. unfold shl1. zdec. cbn [mbind res_bind]. exists (- c). rewrite Z.shiftl_1_l, u32_small; [split; [done|lia]|].
    split; [lia|]. apply Z.pow_lt_mono_r; lia.
  - pose proof (Z.pow_pos_nonneg 2 j). zdec. exists (j + bits).
    rewrite Z.shiftl_mul_pow2, <- Z.pow_add_r, u32_small by lia || (split; [lia|apply Z.pow_lt_mono_r; lia]). split; [done|lia].
Qed.

(** What a checked boot sector has. *)
Record boot_checked (b : NTFS_BOOT_SECTOR) (j : Z) : Prop := {
  bc_spc : spc_of_code (sectors_per_cluster (bpb b)) = Ok (2 ^ j) /\ 0 <= j <= 15;
  bc_bps : 256 <= bytes_per_sector (bpb b) <= 4096;
  bc_cluster : bytes_per_sector (bpb b) * 2 ^ j <= 2 ^ 21;
  bc_mft_code : record_code_ok (clusters_per_mft_record b) = true;
  bc_indx_code : record_code_ok (clusters_per_index_record b) = true;
  bc_mft : 0 < bs_mft_lcn b /\ 0 < bs_mftmirr_lcn b /\ bs_mft_lcn b <> bs_mftmirr_lcn b
}.

Lemma is_ntfs_checked b : boot_fields_ok b -> ntfs_boot_sector_is_ntfs b = Ok true -> exists j, boot_checked b j.
Proof.
  intros [F1 F2 _ _ _ _ _] H. unfold ntfs_boot_sector_is_ntfs in H.
  destruct (negb (oem_id b =? _)); [done|].
  destruct (Z.ltb_spec (bytes_per_sector (bpb b)) 256); [done|].
  destruct (Z.ltb_spec 4096 (bytes_per_sector (bpb b))); [done|]. cbn [orb] in H.
  destruct (spc_code_ok _) eqn:Ec; [|done]. cbn [negb] in H.
  destruct (spc_code_spec _ F2 Ec) as (spc & Es & Hs). rewrite Es in H. cbn [mbind res_bind] in H.
  set (i := u32 _) in H. destruct (Z.eqb_spec i 0) as [|Hi0]; [done|]. destruct (Z.ltb_spec NTFS_MAX_CLUSTER_SIZE i) as [|Hi]; [done|].
  cbn [orb] in H. destruct (negb _ || _ || _ || _ || _ || _); [done|].
  destruct (record_code_ok (clusters_per_mft_record b)) eqn:E1; [|done].
  destruct (record_code_ok (clusters_per_index_record b)) eqn:E2; [|done]. cbn [negb] in H.
  destruct (Z.leb_spec (bs_mft_lcn b) 0); [done|]. destruct (Z.leb_spec (bs_mftmirr_lcn b) 0); [done|].
  destruct (Z.eqb_spec (bs_mft_lcn b) (bs_mftmirr_lcn b)); [done|].
  destruct Hs as [->|(j & Hj & ->)]; [by unfold i in Hi0; rewrite Z.mul_0_r in Hi0|].
  assert (2 ^ j <= 2 ^ 15) by (apply Z.pow_le_mono_r; lia). pose proof (Z.pow_pos_nonneg 2 j).
  exists j. split; try done; try lia. unfold i in Hi. rewrite u32_small in Hi by nia. exact Hi.
Qed.

(** Setting up a volume from a checked boot sector succeeds or fails with an
    error, and a success gives a consistent geometry. *)
Lemma boot_parse_spec seek vol b j :
  boot_fields_ok b -> boot_checked b j ->
  match ntfs_boot_sector_parse seek vol b with
  | Ok v => geometry_ok v /\ major_ver v = major_ver vol /\ on_fsck v = on_fsck vol /\ read_only v = read_only vol
  | Err _ => True
  | Undef => False
  end.
Proof.
  intros [F1 F2 F3 F4 F5 F6 F7] [[Es Hj] Hb Hc M1 M2 (L1 & L2 & L3)]. unfold ntfs_boot_sector_parse.
  rewrite Es. cbn [mbind res_bind]. rewrite power_of_2_ok by lia.
  destruct (number_of_sectors b =? 0); [done|]. destruct (seek _); [done|].
  rewrite ffs_pow by lia. zdec. replace (j + 1 - 1) with j by lia.
  rewrite Z.shiftr_div_pow2 by lia. set (nr := number_of_sectors b / 2 ^ j).
  destruct (_ || _) eqn:El; [done|]. rewrite !orb_false_iff, !Z.ltb_ge in El.
  assert (2 ^ j <= 2 ^ 15) by (apply Z.pow_le_mono_r; lia). pose proof (Z.pow_pos_nonneg 2 j ltac:(lia) ltac:(lia)).
  assert (u32 (2 ^ j * bytes_per_sector (bpb b)) = bytes_per_sector (bpb b) * 2 ^ j) as ->
    by (rewrite Z.mul_comm; apply u32_small; nia).
  set (cs := bytes_per_sector (bpb b) * 2 ^ j) in *. destruct (not_power_of_2 cs) eqn:Ep; [done|].
  apply power_of_2 in Ep; [|nia]. set (cb := Z.log2 cs) in *.
  assert (8 + j <= cb <= 21) as Hcb.
  { apply log2_bounds; [lia|]. rewrite Z.pow_add_r by lia. change (2 ^ 8) with 256. nia. }
  assert (bytes_per_sector (bpb b) = 2 ^ (cb - j)) as Ebps.
  { apply (Z.mul_cancel_r _ _ (2 ^ j)); [lia|]. rewrite <- Z.pow_add_r by lia. fold cs. rewrite Ep. f_equal. lia. }
  assert (cb - j <= 12) as Hsb.
  { apply (Z.pow_le_mono_r_iff 2); [lia|lia|]. rewrite <- Ebps. change (2 ^ 12) with 4096. lia. }
  rewrite Ep, Ebps. rewrite !ffs_pow by lia.
  replace (cb + 1 - 1) with cb by lia. replace (cb - j + 1 - 1) with (cb - j) by lia. rewrite !u8_small by lia.
  destruct (record_size_spec _ cb F6 M1 ltac:(lia)) as (m & -> & Hm). cbn [mbind res_bind].
  pose proof (Z.pow_pos_nonneg 2 m ltac:(lia) ltac:(lia)). zdec. rewrite power_of_2_ok by lia. cbn [orb].
  destruct (record_size_spec _ cb F7 M2 ltac:(lia)) as (x & -> & Hx). cbn [mbind res_bind].
  rewrite !ffs_pow by lia. replace (m + 1 - 1) with m by lia. replace (x + 1 - 1) with x by lia. rewrite !u8_small by lia.
  split; [|done]. unfold in_s in F3. change (64 - 1) with 63 in F3.
  split; cbn [sector_size sector_size_bits cluster_size cluster_size_bits mft_record_size mft_record_size_bits
    indx_record_size indx_record_size_bits nr_clusters nr_sectors mft_lcn mftmirr_lcn]; try done; try lia.
  - split; cbn; [lia|done|]. split; [lia|]. unfold nr.
    apply Z.le_lt_trans with (number_of_sectors b); [|lia].
    destruct (Z.le_gt_cases 0 (number_of_sectors b)); [apply Z.div_le_upper_bound; nia|].
    assert (nr < 0) by (unfold nr; apply Z.div_lt_upper_bound; nia). lia.
  - unfold nr. do 2 f_equal. lia.
Qed.

(** C34: setting up the geometry of a volume from a boot sector that passed the
    check shifts only by counts its types allow (a left shift of a signed value
    keeps the low bits, as the compilers used document), and when it succeeds the geometry is consistent: sector, cluster and
    record sizes are the powers of two their shift counts say and within the
    limits of NTFS, the number of clusters is that of the sectors, and the mft
    and its mirror are at two different clusters of the volume; the rest of
    the volume is left alone. *)
Theorem boot_parse_geometry seek vol b :
  boot_fields_ok b -> ntfs_boot_sector_is_ntfs b = Ok true ->
  match ntfs_boot_sector_parse seek vol b with
  | Ok v => geometry_ok v /\ major_ver v = major_ver vol /\ on_fsck v = on_fsck vol /\ read_only v = read_only vol
  | Err _ => True
  | Undef => False
  end.
Proof. intros F [j Hc]%is_ntfs_checked; [|done]. by eapply boot_parse_spec. Qed.

(** A volume of 1 GiB with clusters of 4 KiB. *)
Definition ex_bpb : BIOS_PARAMETER_BLOCK := mk_bpb 512 8 0 0 0 0 0xf8 0 63 255 2048 0.
Definition ex_boot (n cm : Z) : NTFS_BOOT_SECTOR := mk_boot 0x202020205346544e ex_bpb n 4 131071 cm 1 0xaa55.
Definition ex_vol : ntfs_volume := mk_volume 3 0 0 0 0 0 0 0 0 0 0 0 0 0 false false.

Lemma boot_parse_geometry_witness : exists v,
  ntfs_boot_sector_parse (fun pos => if pos <? 2 ^ 30 then None else Some EIO) ex_vol (ex_boot 2097151 (-10)) = Ok v /\
  nr_clusters v = 262143 /\ geometry_ok v.
Proof.
  pose proof (boot_parse_geometry (fun pos => if pos <? 2 ^ 30 then None else Some EIO) ex_vol (ex_boot 2097151 (-10))
    ltac:(split; unfold in_u, in_s; cbn; lia) ltac:(vm_compute; reflexivity)) as W.
  destruct (ntfs_boot_sector_parse _ _ _) as [v| |] eqn:E in W; [|by vm_compute in E..].
  exists v. split; [exact E|]. split; [vm_compute in E; by injection E as <-|]. apply W.
Defined.

(** The seek to the last sector is at a position computed modulo 2^64: a boot
    sector that claims 2^55+1 sectors of 512 bytes passes on any device, the
    seek being to the start of it. *)
Theorem boot_size_check_wraps : exists v,
  ntfs_boot_sector_parse (fun pos => if pos =? 0 then None else Some EINVAL) ex_vol (ex_boot (2 ^ 55 + 1) (-10)) = Ok v /\
  nr_sectors v = 2 ^ 55 + 1.
Proof. eexists. split; [vm_compute; reflexivity|reflexivity]. Qed.

(** The size of the mft mirror is compared with four mft records in 32 bits:
    for records of 1 GiB the product is 0 and the mirror gets no records. *)
Theorem boot_mftmirr_size_zero : exists v,
  ntfs_boot_sector_is_ntfs (ex_boot 2097151 (-30)) = Ok true /\
  ntfs_boot_sector_parse (fun _ => None) ex_vol (ex_boot 2097151 (-30)) = Ok v /\ mftmirr_size v = 0.
Proof. eexists. split_and!; [vm_compute; reflexivity..|reflexivity]. Qed.
