(* ===== verification/MkNtfs.v ===== *)
(** The geometry mkntfs chooses for a new volume (src/mkntfs.c,
    [mkntfs_override_vol_params], the start of [mkntfs_initialize_rl_mft]) and
    the boot sector it writes ([mkntfs_create_root_structures]).

    Values read from the device by system calls are the record
    [dev_geometry]; a negative value stands for a failed query.  The messages
    and the warnings about the page size are left out. *)

From S2P Require Import Prelude Volume Bitmap BootSect.

(** The options of the geometry; -1 when not given. *)
Record mkntfs_options := mk_opts {
  enable_compression : bool;
  force : bool;
  o_heads : Z;
  part_start_sect : Z;
  o_sector_size : Z;
  o_sectors_per_track : Z;
  num_sectors : Z
}.

Record dev_geometry := mk_dg {
  dg_sector_size : Z;
  dg_size : Z -> Z;
  dg_start : Z;
  dg_sectors_per_track : Z;
  dg_heads : Z
}.

(** ** Options *)

(** The sector size, [None] when it is refused. *)
Definition pick_sector_size (o : mkntfs_options) (dg : dev_geometry) : option Z :=
  let s := if o_sector_size o <? 0 then (if dg_sector_size dg <? 0 then 512 else dg_sector_size dg)
           else o_sector_size o in
  if negb (Z.land (s - 1) s =? 0) then None
  else if (s <? 256) || (4096 <? s) then None else Some s.

(** The number of sectors without the backup boot sector. *)
Definition pick_num_sectors (o : mkntfs_options) (dg : dev_geometry) (s : Z) : option Z :=
  let n := if num_sectors o <? 0 then (if dg_size dg s <=? 0 then None else Some (dg_size dg s))
           else Some (num_sectors o) in
  match n with
  | None => None
  | Some n => Some (s64 (n - (if s <? 512 then 512 / s else 1)))
  end.

Definition pick_part_start (o : mkntfs_options) (dg : dev_geometry) : option Z :=
  if part_start_sect o <? 0 then
    if dg_start dg <? 0 then Some 0
    else if negb (Z.shiftr (dg_start dg) 32 =? 0) then Some 0 else Some (dg_start dg)
  else if negb (Z.shiftr (part_start_sect o) 32 =? 0) then None else Some (part_start_sect o).

(** Sectors per track and heads. *)
Definition pick_u16 (given queried : Z) : option Z :=
  if given <? 0 then
    if queried <? 0 then Some 0 else if 65535 <? queried then Some 0 else Some queried
  else if 65535 <? given then None else Some given.

(** [while (volume_size >> (ffs(vol->cluster_size) - 1 + 32))]; the cluster
    size doubles until it reaches the limit. *)
Fixpoint grow_cluster_size (fuel : nat) (volume_size cs : Z) : option Z :=
  if Z.shiftr volume_size (ffs cs - 1 + 32) =? 0 then Some cs else
  match fuel with
  | O => None
  | S fuel =>
      let cs := u32 (Z.shiftl cs 1) in
      if NTFS_MAX_CLUSTER_SIZE <=? cs then None else grow_cluster_size fuel volume_size cs
  end.

Definition pick_cluster_size (cs volume_size s : Z) : option Z :=
  let picked := if negb (cs =? 0) then Some cs
                else grow_cluster_size 32 volume_size (if 4096 <? u32 s then s else 4096) in
  match picked with
  | None => None
  | Some cs =>
      if negb (Z.land cs (cs - 1) =? 0) then None
      else if cs <? u32 s then None
      else if u32 (4096 * u32 s) <? cs then None
      else if NTFS_MAX_CLUSTER_SIZE <? cs then None
      else Some cs
  end.

(** The options as used and the volume, [None] for FALSE.  [vol] has the
    cluster size of the option -c, or 0. *)
Definition mkntfs_override_vol_params (o : mkntfs_options) (dg : dev_geometry) (vol : ntfs_volume)
    : option (mkntfs_options * ntfs_volume) :=
  s ← pick_sector_size o dg;
  n ← pick_num_sectors o dg s;
  start ← pick_part_start o dg;
  spt ← pick_u16 (o_sectors_per_track o) (dg_sectors_per_track dg);
  hd ← pick_u16 (o_heads o) (dg_heads dg);
  let volume_size := s64 (n * s) in
  if volume_size <? Z.shiftl 1 20 then None else
  cs ← pick_cluster_size (cluster_size vol) volume_size s;
  let csb := u8 (ffs cs - 1) in
  if (4096 <? cs) && enable_compression o && negb (force o) then None else
  let compression := if 4096 <? cs then false else enable_compression o in
  let nr := volume_size / cs in
  if negb (nr =? s64 (n * s) / cs) || negb (Z.quot volume_size s =? n) || negb (volume_size / cs =? nr) then None else
  if negb (Z.shiftr nr 32 =? 0) then None else
  let mrs := if 1024 <? u32 s then s else 1024 in
  let irs := if 4096 <? u32 s then s else 4096 in
  Some (mk_opts compression (force o) hd start s spt n,
        mk_volume (major_ver vol) (sector_size vol) (sector_size_bits vol) cs csb
          mrs (u8 (ffs mrs - 1)) irs (u8 (ffs irs - 1)) nr (nr_sectors vol)
          (mft_lcn vol) (mftmirr_lcn vol) (mftmirr_size vol) (on_fsck vol) (read_only vol)).

(** ** Places of the mft and its mirror *)

(** [g_rl_mft_bmp[0].lcn]: right after the data of $Boot. *)
Definition mft_bitmap_lcn (vol : ntfs_volume) : Z := u32 (8192 + cluster_size vol - 1) / cluster_size vol.

Definition default_mft_lcn (vol : ntfs_volume) : Z :=
  let l := mft_bitmap_lcn vol + 1 in
  if l * cluster_size vol <? 16 * 1024 then u32 (16 * 1024 + cluster_size vol - 1) / cluster_size vol else l.

(** The middle of the volume. *)
Definition default_mftmirr_lcn (o : mkntfs_options) (vol : ntfs_volume) : Z :=
  Z.shiftr (s64 (num_sectors o * o_sector_size o)) 1 / cluster_size vol.

(** ** The boot sector *)

(** The code of a record size; [None] for the BUG message. *)
Definition record_code (size size_bits cs : Z) : res (option Z) :=
  if cs <=? size then Ok (Some (s8 (size / cs)))
  else
    let c := s8 (- size_bits) in
    n ← shl1 (- c);
    Ok (if n =? size then Some c else None).

Definition mkntfs_boot_sector (o : mkntfs_options) (vol : ntfs_volume) (mft mftmirr : Z)
    : res (option NTFS_BOOT_SECTOR) :=
  let spc := u32 (cluster_size vol / o_sector_size o) in
  let code := if 128 <? spc then u8 (257 - ffs spc) else u8 spc in
  let bpb := mk_bpb (u16 (o_sector_size o)) code 0 0 0 0 0xf8 0 (u16 (o_sectors_per_track o)) (u16 (o_heads o))
               (u32 (part_start_sect o)) 0 in
  cm ← record_code (mft_record_size vol) (ffs (mft_record_size vol) - 1) (cluster_size vol);
  match cm with
  | None => Ok None
  | Some cm =>
      ci ← record_code (indx_record_size vol) (indx_record_size_bits vol) (cluster_size vol);
      match ci with
      | None => Ok None
      | Some ci =>
          let bs := mk_boot 0x202020205346544e bpb (num_sectors o) mft mftmirr cm ci 0xaa55 in
          ok ← ntfs_boot_sector_is_ntfs bs;
          Ok (if (ok : bool) then Some bs else None)
      end
  end.

(** ** Specification *)

(** The geometry mkntfs has settled on. *)
Record mk_geometry (o : mkntfs_options) (vol : ntfs_volume) (k c : Z) : Prop := {
  mg_sector : o_sector_size o = 2 ^ k /\ 8 <= k <= 12;
  mg_cluster : cluster_size vol = 2 ^ c /\ cluster_size_bits vol = c /\ k <= c <= 21 /\ c - k <= 12;
  mg_size : 2 ^ 20 <= num_sectors o * 2 ^ k < 2 ^ 63;
  mg_nr : nr_clusters vol = num_sectors o * 2 ^ k / 2 ^ c;
  mg_mft : mft_record_size vol = 2 ^ Z.max 10 k /\ mft_record_size_bits vol = Z.max 10 k;
  mg_indx : indx_record_size vol = 2 ^ 12 /\ indx_record_size_bits vol = 12
}.

(** * Proofs *)

Lemma pick_sector_size_spec o dg s : pick_sector_size o dg = Some s -> exists k, s = 2 ^ k /\ 8 <= k <= 12.
Proof.
  unfold pick_sector_size. set (x := if o_sector_size o <? 0 then _ else _).
  destruct (Z.land (x - 1) x =? 0) eqn:E; [|done]. cbn [negb].
  destruct (Z.ltb_spec x 256); [done|]. destruct (Z.ltb_spec 4096 x); [done|]. cbn [orb]. intros [= <-].
  assert (not_power_of_2 x = false) as Hp%power_of_2 by (unfold not_power_of_2; rewrite Z.land_comm, E; done); [|lia].
  exists (Z.log2 x). split; [done|]. apply log2_bounds; [lia|]. change (2 ^ 8) with 256. change (2 ^ 12) with 4096. lia.
Qed.

Lemma pick_cluster_size_spec cs vs k r : 8 <= k <= 12 ->
  pick_cluster_size cs vs (2 ^ k) = Some r -> exists c, r = 2 ^ c /\ k <= c <= 21 /\ c - k <= 12.
Proof.
  intros Hk. unfold pick_cluster_size. destruct (if negb (cs =? 0) then _ else _) as [x|]; [|done].
  assert (2 ^ 8 <= 2 ^ k <= 2 ^ 12) as [K1 K2] by (split; apply Z.pow_le_mono_r; lia).
  change (2 ^ 8) with 256 in K1. change (2 ^ 12) with 4096 in K2.
  rewrite !u32_small by (rewrite ?u32_small; lia). destruct (Z.land x (x - 1) =? 0) eqn:E; [|done]. cbn [negb].
  destruct (Z.ltb_spec x (2 ^ k)); [done|]. destruct (Z.ltb_spec (4096 * 2 ^ k) x); [done|].
  destruct (Z.ltb_spec NTFS_MAX_CLUSTER_SIZE x); [done|]. intros [= <-].
  assert (not_power_of_2 x = false) as Hp%power_of_2 by (unfold not_power_of_2; by rewrite E); [|lia].
  exists (Z.log2 x). split; [done|]. split; [apply log2_bounds; [lia|]; change (2 ^ 21) with NTFS_MAX_CLUSTER_SIZE; lia|].
  assert (Z.log2 x <= 12 + k); [|lia]. apply (log2_bounds x 0 (12 + k)); [lia|]. rewrite Z.pow_add_r by lia.
  change (2 ^ 12) with 4096. change (2 ^ 0) with 1. lia.
Qed.

(** The check of the volume size against the number of sectors finds overflow. *)
Lemma volume_size_exact n s v : 0 < s <= 4096 -> v = s64 (n * s) -> 0 < v -> Z.quot v s = n -> v = n * s.
Proof.
  intros Hs Ev Hv Hq. pose proof (Z.quot_rem v s ltac:(lia)) as Er. pose proof (Z.rem_bound_pos v s ltac:(lia) ltac:(lia)) as Hr.
  rewrite Hq in Er. unfold wraps in Ev. change (2 ^ (64 - 1)) with (2 ^ 63) in Ev. dlia.
Qed.

Lemma ffs_bits c : 0 <= c < 32 -> u8 (ffs (2 ^ c) - 1) = c.
Proof. intros Hc. rewrite ffs_pow by done. replace (c + 1 - 1) with c by lia. apply u8_small. lia. Qed.

Lemma pow_in k : 8 <= k <= 12 -> 256 <= 2 ^ k <= 4096.
Proof. intros Hk. assert (2 ^ 8 <= 2 ^ k <= 2 ^ 12) by (split; apply Z.pow_le_mono_r; lia). done. Qed.

Lemma override_geometry o dg vol o' vol' :
  mkntfs_override_vol_params o dg vol = Some (o', vol') -> exists k c, mk_geometry o' vol' k c.
Proof.
  unfold mkntfs_override_vol_params. intros H.
  destruct (pick_sector_size o dg) as [s|] eqn:Es; [|done]. cbn [mbind option_bind] in H.
  destruct (pick_num_sectors o dg s) as [n|]; [|done]. cbn [mbind option_bind] in H.
  destruct (pick_part_start o dg) as [st|]; [|done]. cbn [mbind option_bind] in H.
  destruct (pick_u16 (o_sectors_per_track o) _) as [spt|]; [|done]. cbn [mbind option_bind] in H.
  destruct (pick_u16 (o_heads o) _) as [hd|]; [|done]. cbn [mbind option_bind] in H.
  apply pick_sector_size_spec in Es as (k & -> & Hk). pose proof (pow_in k Hk) as Pk.
  destruct (Z.ltb_spec (s64 (n * 2 ^ k)) (Z.shiftl 1 20)) as [|Hv]; [done|]. change (Z.shiftl 1 20) with (2 ^ 20) in Hv.
  destruct (pick_cluster_size _ _ _) as [cs|] eqn:Ec; [|done]. cbn [mbind option_bind] in H.
  apply pick_cluster_size_spec in Ec as (c & -> & Hc & Hck); [|done].
  destruct (_ && _); [done|]. destruct (Z.quot (s64 (n * 2 ^ k)) (2 ^ k) =? n) eqn:Eq; [|by rewrite orb_true_r in H].
  apply Z.eqb_eq in Eq. destruct (_ || _); [done|].
  pose proof (volume_size_exact n (2 ^ k) _ ltac:(lia) eq_refl ltac:(lia) Eq) as Ev. rewrite Ev in *.
  pose proof (wraps_range 64 (n * 2 ^ k) ltac:(lia)) as Hr. rewrite Ev in Hr. change (2 ^ (64 - 1)) with (2 ^ 63) in Hr.
  destruct (negb _); [done|]. injection H as <- <-. exists k, c. rewrite !u32_small by lia.
  assert ((if 1024 <? 2 ^ k then 2 ^ k else 1024) = 2 ^ Z.max 10 k) as ->.
  { destruct (Z.le_gt_cases k 10); [|].
    - rewrite Z.max_l by lia. assert (2 ^ k <= 2 ^ 10) by (apply Z.pow_le_mono_r; lia). change (2 ^ 10) with 1024 in *. by zdec.
    - rewrite Z.max_r by lia. assert (2 ^ 10 < 2 ^ k) by (apply Z.pow_lt_mono_r; lia). change (2 ^ 10) with 1024 in *. by zdec. }
  assert ((if 4096 <? 2 ^ k then 2 ^ k else 4096) = 2 ^ 12) as -> by by zdec.
  rewrite !ffs_bits by lia.
  split; cbn [o_sector_size num_sectors cluster_size cluster_size_bits nr_clusters mft_record_size mft_record_size_bits
    indx_record_size indx_record_size_bits]; try done; try (split_and!; done || lia).
Qed.

(** ** The boot sector of a chosen geometry *)

Lemma mk_spc k c : 8 <= k -> k <= c <= 21 -> c - k <= 12 ->
  let spc := u32 (2 ^ c / 2 ^ k) in
  let code := if 128 <? spc then u8 (257 - ffs spc) else u8 spc in
  spc_code_ok code = true /\ spc_of_code code = Ok (2 ^ (c - k)).
Proof.
  intros Hk Hc Hd. cbn zeta. rewrite <- Z.pow_sub_r by lia.
  pose proof (forall_range (fun d => let spc := u32 (2 ^ d) in
    let code := if 128 <? spc then u8 (257 - ffs spc) else u8 spc in
    spc_code_ok code && match spc_of_code code with Ok s => s =? 2 ^ d | _ => false end) 0 13 (c - k)
    ltac:(vm_compute; reflexivity) ltac:(lia)) as [H1 H2]%andb_true_iff.
  split; [done|]. cbn zeta in H2. destruct (spc_of_code _); [|done..]. apply Z.eqb_eq in H2. by rewrite H2.
Qed.

Lemma mk_record m c : 10 <= m <= 12 -> 8 <= c <= 21 -> exists r,
  record_code (2 ^ m) m (2 ^ c) = Ok (Some r) /\ record_code_ok r = true /\ record_size r c = Ok (2 ^ m).
Proof.
  intros Hm Hc.
  pose proof (forall_range (fun m => all_from (fun c => match record_code (2 ^ m) m (2 ^ c) with
    | Ok (Some r) => record_code_ok r && match record_size r c with Ok x => x =? 2 ^ m | _ => false end
    | _ => false end) 8 (Z.to_nat 14)) 10 3 m ltac:(vm_compute; reflexivity) ltac:(lia)) as H.
  apply (forall_range _ _ _ c) in H; [|lia]. cbn beta in H.
  destruct (record_code (2 ^ m) m (2 ^ c)) as [[r|]| |]; [|done..]. apply andb_true_iff in H as [H1 H2].
  exists r. split_and!; [done..|]. destruct (record_size r c); [|done..]. apply Z.eqb_eq in H2. by rewrite H2.
Qed.

(** The geometry a volume mounts with. *)
Definition same_geometry (o : mkntfs_options) (v v' : ntfs_volume) (mft mirr : Z) : Prop :=
  sector_size v' = o_sector_size o /\ nr_sectors v' = num_sectors o /\
  cluster_size v' = cluster_size v /\ cluster_size_bits v' = cluster_size_bits v /\ nr_clusters v' = nr_clusters v /\
  mft_record_size v' = mft_record_size v /\ mft_record_size_bits v' = mft_record_size_bits v /\
  indx_record_size v' = indx_record_size v /\ indx_record_size_bits v' = indx_record_size_bits v /\
  mft_lcn v' = mft /\ mftmirr_lcn v' = mirr.

Lemma boot_sector_spec o vol k c mft mirr : mk_geometry o vol k c ->
  0 < mft <= nr_clusters vol -> 0 < mirr <= nr_clusters vol -> mft <> mirr ->
  exists bs, mkntfs_boot_sector o vol mft mirr = Ok (Some bs) /\
    forall (seek : Z -> option errno) v0, (forall pos, 0 <= pos < num_sectors o * o_sector_size o -> seek pos = None) ->
    exists v', ntfs_boot_sector_parse seek v0 bs = Ok v' /\ same_geometry o vol v' mft mirr.
Proof.
  intros [[Es Hk] (Ec & Ecb & Hc & Hd) Hz En [Em Emb] [Ex Exb]] Hmft Hmirr Hne.
  pose proof (pow_in k Hk) as Pk. unfold mkntfs_boot_sector.
  rewrite Es, Ec, Em, Ex, Exb, ffs_pow by lia. replace (Z.max 10 k + 1 - 1) with (Z.max 10 k) by lia.
  destruct (mk_spc k c) as [S1 S2]; [lia..|]. set (code := if 128 <? _ then _ else _) in *.
  destruct (mk_record (Z.max 10 k) c) as (cm & -> & M1 & M2); [lia..|]. cbn [mbind res_bind].
  destruct (mk_record 12 c) as (ci & -> & I1 & I2); [lia..|]. cbn [mbind res_bind].
  rewrite u16_small by lia. set (bs := mk_boot _ _ _ _ _ _ _ _).
  assert (2 ^ k * 2 ^ (c - k) = 2 ^ c) as Ekc by (rewrite <- Z.pow_add_r by lia; f_equal; lia).
  assert (2 ^ 8 <= 2 ^ c <= 2 ^ 21) as [C1 C2] by (split; apply Z.pow_le_mono_r; lia).
  assert (ntfs_boot_sector_is_ntfs bs = Ok true) as ->.
  { unfold ntfs_boot_sector_is_ntfs. cbn [oem_id bpb bytes_per_sector sectors_per_cluster bs]. zdec. cbn [negb orb].
    rewrite S1, S2. cbn [mbind res_bind negb]. rewrite Ekc, u32_small by lia.
    change NTFS_MAX_CLUSTER_SIZE with (2 ^ 21). zdec. cbn [orb reserved_sectors root_entries sectors sectors_per_fat large_sectors fats].
    cbn [clusters_per_mft_record clusters_per_index_record bs_mft_lcn bs_mftmirr_lcn bs]. rewrite M1, I1. cbn [negb]. by zdec. }
  cbn [mbind res_bind]. exists bs. split; [done|]. intros seek v0 Hs. unfold ntfs_boot_sector_parse.
  cbn [bpb bytes_per_sector sectors_per_cluster number_of_sectors bs_mft_lcn bs_mftmirr_lcn clusters_per_mft_record
    clusters_per_index_record bs]. rewrite S2. cbn [mbind res_bind]. rewrite power_of_2_ok, !ffs_bits, !ffs_pow by lia.
  assert (0 < num_sectors o) by nia. zdec. rewrite Hs.
  2:{ rewrite Z.shiftl_mul_pow2, s64_small by (try lia; split; nia). nia. }
  replace (c - k + 1 - 1) with (c - k) by lia. rewrite Z.shiftr_div_pow2 by lia.
  assert (num_sectors o / 2 ^ (c - k) = nr_clusters vol) as ->.
  { rewrite En, <- Ekc, (Z.mul_comm (2 ^ k) (2 ^ (c - k))), Z.div_mul_cancel_r; [done|..]; pose proof (Z.pow_pos_nonneg 2 (c - k)); lia. }
  zdec. rewrite (Z.mul_comm (2 ^ (c - k))), Ekc, u32_small, power_of_2_ok, ffs_bits, M2 by lia. cbn [orb mbind res_bind].
  pose proof (Z.pow_pos_nonneg 2 (Z.max 10 k) ltac:(lia) ltac:(lia)).
  rewrite power_of_2_ok, ffs_bits, I2 by lia. zdec. cbn [orb mbind res_bind].
  eexists. split; [reflexivity|]. unfold same_geometry. cbn [sector_size nr_sectors cluster_size cluster_size_bits nr_clusters
    mft_record_size mft_record_size_bits indx_record_size indx_record_size_bits mft_lcn mftmirr_lcn].
  rewrite ffs_bits by lia. by split_and!.
Qed.

(** On a volume of six clusters the default places are apart and inside the
    volume. *)
Lemma default_places o vol k c : mk_geometry o vol k c -> 6 <= nr_clusters vol ->
  0 < default_mft_lcn vol < default_mftmirr_lcn o vol /\ default_mftmirr_lcn o vol <= nr_clusters vol.
Proof.
  intros [[Es Hk] (Ec & _ & Hc & _) Hz En _ _] Hnr. unfold default_mft_lcn, mft_bitmap_lcn, default_mftmirr_lcn.
  rewrite Es, Ec, En, s64_small by lia. rewrite En in Hnr. rewrite Z.shiftr_div_pow2 by lia. change (2 ^ 1) with 2.
  pose proof (Z.pow_pos_nonneg 2 c ltac:(lia) ltac:(lia)) as Hpos.
  pose proof (forall_range (fun c => let l := u32 (8192 + 2 ^ c - 1) / 2 ^ c + 1 in
    let r := if l * 2 ^ c <? 16 * 1024 then u32 (16 * 1024 + 2 ^ c - 1) / 2 ^ c else l in
    (0 <? r) && ((r <? 2 ^ 19 / 2 ^ c) || (r <? 3))) 8 14 c ltac:(vm_compute; reflexivity) ltac:(lia)) as [H1 H2]%andb_true_iff.
  cbn zeta in H1, H2. apply Z.ltb_lt in H1. split; [split; [done|]|].
  - apply orb_true_iff in H2 as [H2|H2]; apply Z.ltb_lt in H2; (eapply Z.lt_le_trans; [exact H2|]).
    + apply Z.div_le_mono; [done|]. apply Z.div_le_lower_bound; [done|]. change (2 * 2 ^ 19) with (2 ^ 20). lia.
    + apply Z.div_le_lower_bound; [done|]. apply Z.div_le_lower_bound; [done|].
      pose proof (Z.mul_div_le (num_sectors o * 2 ^ k) (2 ^ c) Hpos). nia.
  - apply Z.div_le_mono; [done|]. apply Z.div_le_upper_bound; lia.
Qed.

(** With clusters of at most 64 kiB every volume has that many. *)
Lemma small_clusters o vol k c : mk_geometry o vol k c -> cluster_size vol <= 65536 -> 6 <= nr_clusters vol.
Proof.
  intros [[_ Hk] (Ec & _ & Hc & _) Hz En _ _] H. rewrite Ec in H. rewrite En. apply Z.div_le_lower_bound; [apply Z.pow_pos_nonneg; lia|]. change (2 ^ 20) with 1048576 in Hz. lia.
Qed.

(** C33: whenever mkntfs settles on a geometry with at least six clusters, as it
    always has with clusters of at most 64 kiB ([small_clusters]), the boot
    sector it makes from it (with the default places of the mft and its mirror)
    passes the checks every tool makes before it mounts a volume, and parsing it gives back the sector size, the number of
    sectors, the cluster size, the number of clusters, both record sizes and
    both places that mkntfs has used. *)
Theorem mkntfs_boot_roundtrip o dg vol o' vol' :
  mkntfs_override_vol_params o dg vol = Some (o', vol') -> 6 <= nr_clusters vol' ->
  exists bs, mkntfs_boot_sector o' vol' (default_mft_lcn vol') (default_mftmirr_lcn o' vol') = Ok (Some bs) /\
    forall (seek : Z -> option errno) v0, (forall pos, 0 <= pos < num_sectors o' * o_sector_size o' -> seek pos = None) ->
    exists v', ntfs_boot_sector_parse seek v0 bs = Ok v' /\
      same_geometry o' vol' v' (default_mft_lcn vol') (default_mftmirr_lcn o' vol').
Proof.
  intros (k & c & G)%override_geometry Hnr.
  destruct (default_places _ _ _ _ G Hnr). apply (boot_sector_spec _ _ k c); [done|lia..].
Qed.

Definition ex_options : mkntfs_options := mk_opts false false (-1) (-1) (-1) (-1) (-1).
Definition ex_device : dev_geometry := mk_dg 512 (fun s => 2 ^ 40 / s) 2048 63 255.
Definition ex_blank : ntfs_volume := mk_volume 3 0 0 0 0 0 0 0 0 0 0 0 0 0 false false.

Lemma mkntfs_boot_roundtrip_witness : exists o' vol',
  mkntfs_override_vol_params ex_options ex_device ex_blank = Some (o', vol') /\ nr_clusters vol' = 2 ^ 28 - 1 /\
  exists bs, mkntfs_boot_sector o' vol' (default_mft_lcn vol') (default_mftmirr_lcn o' vol') = Ok (Some bs).
Proof.
  destruct (mkntfs_override_vol_params ex_options ex_device ex_blank) as [[o' vol']|] eqn:E; [|by vm_compute in E].
  assert (nr_clusters vol' = 2 ^ 28 - 1) as En by (vm_compute in E; by injection E as <- <-).
  exists o', vol'. split; [reflexivity|]. split; [exact En|].
  destruct (mkntfs_boot_roundtrip _ _ _ _ _ E ltac:(rewrite En; vm_compute; discriminate)) as (bs & Hbs & _). exists bs. exact Hbs.
Defined.
