(* ===== verification/Unistr.v ===== *)
(** Unicode names (libntfs/unistr.c): comparison, collation, length,
    duplication and change of case.

    A name is the list of its 16-bit characters in the byte order of the
    machine.  A pointer into an array is the part of the array from the place
    it points to; reading through the pointer behind the last element is
    undefined. *)

From S2P Require Import Prelude.

Definition deref {A} (p : list A) : res A := match p with x :: _ => Ok x | [] => Undef end.

Inductive IGNORE_CASE_BOOL := CASE_SENSITIVE | IGNORE_CASE.

(** [if (u < upcase_len) u = le16_to_cpu(upcase[u]);] *)
Definition up (upcase : list Z) (upcase_len u : Z) : res Z :=
  if u <? upcase_len then aget upcase u else Ok u.

(** ** Comparison *)

Fixpoint ntfs_ucsncmp (s1 s2 : list Z) (n : nat) : res Z :=
  match n with
  | O => Ok 0
  | S n =>
      c1 ← deref s1;
      c2 ← deref s2;
      if c1 <? c2 then Ok (-1) else if c2 <? c1 then Ok 1 else
      if c1 =? 0 then Ok 0 else ntfs_ucsncmp (tail s1) (tail s2) n
  end.

Fixpoint ntfs_ucsncasecmp (upcase : list Z) (upcase_size : Z) (s1 s2 : list Z) (n : nat) : res Z :=
  match n with
  | O => Ok 0
  | S n =>
      c1 ← deref s1;
      c1 ← up upcase upcase_size c1;
      c2 ← deref s2;
      c2 ← up upcase upcase_size c2;
      if c1 <? c2 then Ok (-1) else if c2 <? c1 then Ok 1 else
      if c1 =? 0 then Ok 0 else ntfs_ucsncasecmp upcase upcase_size (tail s1) (tail s2) n
  end.

Definition ntfs_names_are_equal (s1 : list Z) (s1_len : Z) (s2 : list Z) (s2_len : Z) (ic : IGNORE_CASE_BOOL)
    (upcase : list Z) (upcase_size : Z) : res bool :=
  if negb (s1_len =? s2_len) then Ok false else
  if s1_len =? 0 then Ok true else
  r ← match ic with
      | CASE_SENSITIVE => ntfs_ucsncmp s1 s2 (Z.to_nat s1_len)
      | IGNORE_CASE => ntfs_ucsncasecmp upcase upcase_size s1 s2 (Z.to_nat s1_len)
      end;
  Ok (r =? 0).

(** ** Collation *)

(** [while (--cnt && ( *name1 == *name2)) { name1++; name2++; }], entered
    with a positive [cnt]. *)
Fixpoint skip_equal (cnt : nat) (name1 name2 : list Z) : res (nat * list Z * list Z) :=
  match cnt with
  | O => Undef
  | S O => Ok (O, name1, name2)
  | S cnt =>
      c1 ← deref name1;
      c2 ← deref name2;
      if c1 =? c2 then skip_equal cnt (tail name1) (tail name2) else Ok (cnt, name1, name2)
  end.

(** [do ... while ((u1 == u2) && --cnt)], entered with a positive [cnt]. *)
Fixpoint upcase_loop (upcase : list Z) (upcase_len : Z) (cnt : nat) (name1 name2 : list Z) : res (Z * Z) :=
  match cnt with
  | O => Undef
  | S cnt =>
      u1 ← deref name1;
      u2 ← deref name2;
      u1 ← up upcase upcase_len u1;
      u2 ← up upcase upcase_len u2;
      match cnt with
      | O => Ok (u1, u2)
      | S _ => if u1 =? u2 then upcase_loop upcase upcase_len cnt (tail name1) (tail name2) else Ok (u1, u2)
      end
  end.

(** [if (a < b) return -1; if (a > b) return 1;] *)
Definition cmp_then (a b : Z) (k : Z) : Z := if a <? b then -1 else if b <? a then 1 else k.

Definition ntfs_names_full_collate (name1 : list Z) (name1_len : Z) (name2 : list Z) (name2_len : Z)
    (ic : IGNORE_CASE_BOOL) (upcase : list Z) (upcase_len : Z) : res Z :=
  let cnt := Z.to_nat (Z.min name1_len name2_len) in
  match cnt with
  | S _ =>
      match ic with
      | CASE_SENSITIVE =>
          '(cnt, name1, name2) ← skip_equal cnt name1 name2;
          c1 ← deref name1;
          c2 ← deref name2;
          u1 ← up upcase upcase_len c1;
          u2 ← up upcase upcase_len c2;
          '(u1, u2) ← match cnt with
                      | S _ => if u1 =? u2 then upcase_loop upcase upcase_len cnt (tail name1) (tail name2)
                               else Ok (u1, u2)
                      | O => Ok (u1, u2)
                      end;
          Ok (cmp_then u1 u2 (cmp_then name1_len name2_len (cmp_then c1 c2 0)))
      | IGNORE_CASE =>
          '(u1, u2) ← upcase_loop upcase upcase_len cnt name1 name2;
          Ok (cmp_then u1 u2 (cmp_then name1_len name2_len 0))
      end
  | O => Ok (cmp_then name1_len name2_len 0)
  end.

(** ** Length, copies and case *)

Fixpoint ucsnlen_loop (i : Z) (s : list Z) (n : nat) : res Z :=
  match n with
  | O => Ok i
  | S n => c ← deref s; if c =? 0 then Ok i else ucsnlen_loop (i + 1) (tail s) n
  end.

Definition ntfs_ucsnlen (s : list Z) (maxlen : Z) : res Z := ucsnlen_loop 0 s (Z.to_nat maxlen).

(** The copy with its terminator, [None] when there is no memory. *)
Definition ntfs_ucsndup `{Heap} (s : list Z) (maxlen : Z) : res (option (list Z)) :=
  len ← ntfs_ucsnlen s maxlen;
  if heap_grants ((len + 1) * 2) then t ← aslice s 0 len; Ok (Some (t ++ [0])) else Ok None.

Fixpoint upcase_from (n : nat) (i : Z) (name upcase : list Z) (upcase_len : Z) : res (list Z) :=
  match n with
  | O => Ok name
  | S n =>
      u ← aget name i;
      name ← (if u <? upcase_len then w ← aget upcase u; aset name i w else Ok name);
      upcase_from n (i + 1) name upcase upcase_len
  end.

Definition ntfs_name_upcase (name : list Z) (name_len : Z) (upcase : list Z) (upcase_len : Z) : res (list Z) :=
  upcase_from (Z.to_nat name_len) 0 name upcase upcase_len.

Definition ntfs_name_locase (name : list Z) (name_len : Z) (locase : option (list Z)) (locase_len : Z) : res (list Z) :=
  match locase with
  | None => Ok name
  | Some locase => upcase_from (Z.to_nat name_len) 0 name locase locase_len
  end.

(** * Specification *)

(** Lexicographic order. *)
Fixpoint lex (l1 l2 : list Z) : comparison :=
  match l1, l2 with
  | [], [] => Eq
  | [], _ => Lt
  | _, [] => Gt
  | x :: l1, y :: l2 => match x ?= y with Eq => lex l1 l2 | c => c end
  end.

Definition sgn (c : comparison) : Z := match c with Lt => -1 | Eq => 0 | Gt => 1 end.

(** Upper case of a character, by a table. *)
Definition toup (upcase : list Z) (u : Z) : Z := match up upcase (zlen upcase) u with Ok v => v | _ => u end.

(** The order of file names: by upper case, then by the characters. *)
Definition names_compare (upcase l1 l2 : list Z) : comparison :=
  match lex (map (toup upcase) l1) (map (toup upcase) l2) with Eq => lex l1 l2 | c => c end.

(** The characters before a NUL. *)
Fixpoint until0 (l : list Z) : list Z := match l with [] => [] | c :: l => if c =? 0 then [] else c :: until0 l end.

Definition is_name (l : list Z) : Prop := Forall (in_u 16) l.

(** * Proofs *)

Lemma lex_refl l : lex l l = Eq.
Proof. induction l; [done|]. cbn. by rewrite Z.compare_refl. Qed.

Lemma lex_eq l1 : forall l2, lex l1 l2 = Eq -> l1 = l2.
Proof.
  induction l1 as [|x l1 IH]; intros [|y l2]; try done. cbn. destruct (Z.compare_spec x y) as [->| |]; [|done..].
  intros ->%IH. done.
Qed.

Lemma lex_antisym l1 : forall l2, lex l2 l1 = CompOpp (lex l1 l2).
Proof.
  induction l1 as [|x l1 IH]; intros [|y l2]; try done. cbn. rewrite (Z.compare_antisym x y).
  destruct (x ?= y); [apply IH|done..].
Qed.

Lemma lex_trans l1 : forall l2 l3, lex l1 l2 = Lt -> lex l2 l3 = Lt -> lex l1 l3 = Lt.
Proof.
  induction l1 as [|x l1 IH]; intros [|y l2] [|z l3]; try done. cbn.
  destruct (Z.compare_spec x y), (Z.compare_spec y z); try done; subst.
  - rewrite Z.compare_refl. apply IH.
  - intros _ _. by rewrite (proj2 (Z.compare_lt_iff _ _)).
  - intros _ _. by rewrite (proj2 (Z.compare_lt_iff _ _)).
  - intros _ _. by rewrite (proj2 (Z.compare_lt_iff x z)) by lia.
Qed.

Lemma lex_app p : forall l1 l2, lex (p ++ l1) (p ++ l2) = lex l1 l2.
Proof. induction p; intros; [done|]. cbn. by rewrite Z.compare_refl. Qed.

(** ** Collation *)

Section collate.
Context (upcase : list Z).

Lemma up_toup u : 0 <= u -> up upcase (zlen upcase) u = Ok (toup upcase u).
Proof.
  intros Hu. unfold toup, up. destruct (Z.ltb_spec u (zlen upcase)) as [Hl|]; [|done].
  by destruct (aget_total upcase u ltac:(lia)) as [x ->].
Qed.

Lemma cmp_then_sgn a b k : cmp_then a b k = match a ?= b with Eq => k | c => sgn c end.
Proof. unfold cmp_then. destruct (Z.compare_spec a b); subst; by zdec. Qed.

(** The loop on upper cases compares as [lex] does, up to the lengths. *)
Lemma upcase_loop_spec l1 : forall l2 r1 r2 k, is_name l1 -> is_name l2 -> l1 <> [] -> length l1 = length l2 ->
  exists u1 u2, upcase_loop upcase (zlen upcase) (length l1) (l1 ++ r1) (l2 ++ r2) = Ok (u1, u2) /\
    cmp_then u1 u2 k = match lex (map (toup upcase) l1) (map (toup upcase) l2) with Eq => k | c => sgn c end.
Proof.
  induction l1 as [|x l1 IH]; intros [|y l2] r1 r2 k H1 H2 Hn Hl; try done.
  apply Forall_cons_1 in H1 as [[Hx _] H1]. apply Forall_cons_1 in H2 as [[Hy _] H2].
  cbn. rewrite !up_toup by done. cbn. destruct l1 as [|x' l1], l2 as [|y' l2]; try done.
  - eexists _, _. split; [done|]. rewrite cmp_then_sgn. by destruct (_ ?= _).
  - cbn [length]. destruct (Z.eqb_spec (toup upcase x) (toup upcase y)) as [->|Hne].
    + rewrite Z.compare_refl. apply (IH (y' :: l2)); [done..|]. cbn in *; lia.
    + eexists _, _. split; [done|]. rewrite cmp_then_sgn. destruct (Z.compare_spec (toup upcase x) (toup upcase y)); done.
Qed.

(** The loop over equal characters stops at the first difference or at the
    last character. *)
Lemma skip_equal_spec l1 : forall l2 r1 r2, l1 <> [] -> length l1 = length l2 ->
  exists p x y t1 t2, l1 = p ++ x :: t1 /\ l2 = p ++ y :: t2 /\ (x = y -> t1 = []) /\
    skip_equal (length l1) (l1 ++ r1) (l2 ++ r2) = Ok (length t1, x :: t1 ++ r1, y :: t2 ++ r2).
Proof.
  induction l1 as [|x l1 IH]; intros [|y l2] r1 r2 Hn Hl; try done.
  destruct l1 as [|x' l1], l2 as [|y' l2]; try done.
  - by exists [], x, y, [], [].
  - cbn. destruct (Z.eqb_spec x y) as [->|Hne].
    + destruct (IH (y' :: l2) r1 r2) as (p & a & b & t1 & t2 & E1 & E2 & Ht & E); [done|cbn in *; lia|].
      exists (y :: p), a, b, t1, t2. split_and!; [by rewrite E1|by rewrite E2|done|exact E].
    + by exists [], x, y, (x' :: l1), (y' :: l2).
Qed.

Lemma lex_app_length a1 : forall a2 b1 b2, length a1 = length a2 ->
  lex (a1 ++ b1) (a2 ++ b2) = match lex a1 a2 with Eq => lex b1 b2 | c => c end.
Proof.
  induction a1 as [|x a1 IH]; intros [|y a2] b1 b2 Hl; try done. cbn in *. destruct (x ?= y); [|done..]. apply IH. lia.
Qed.

Lemma lex_lengths a1 a2 b1 b2 : length a1 = length a2 -> b1 = [] \/ b2 = [] ->
  lex b1 b2 = (zlen (a1 ++ b1) ?= zlen (a2 ++ b2)).
Proof.
  intros Hl Hb. rewrite !zlen_app. unfold zlen. rewrite Hl. destruct Hb as [-> | ->].
  - destruct b2; cbn; [by rewrite Z.compare_refl|]. symmetry. apply Z.compare_lt_iff. lia.
  - destruct b1; cbn; [by rewrite Z.compare_refl|]. symmetry. apply Z.compare_gt_iff. lia.
Qed.

(** The common length of two names. *)
Lemma split_common (n1 n2 : list Z) : exists l1 l2 d1 d2, n1 = l1 ++ d1 /\ n2 = l2 ++ d2 /\ length l1 = length l2 /\
  (d1 = [] \/ d2 = []) /\ Z.to_nat (Z.min (zlen n1) (zlen n2)) = length l1.
Proof.
  set (m := Nat.min (length n1) (length n2)). exists (take m n1), (take m n2), (drop m n1), (drop m n2).
  rewrite !take_drop, !length_take. split_and!; [done..|lia| |unfold zlen; lia].
  destruct (Nat.le_gt_cases (length n1) (length n2)); [left|right]; apply drop_ge; lia.
Qed.

Lemma full_collate_case n1 r1 n2 r2 : is_name n1 -> is_name n2 ->
  ntfs_names_full_collate (n1 ++ r1) (zlen n1) (n2 ++ r2) (zlen n2) CASE_SENSITIVE upcase (zlen upcase)
  = Ok (sgn (names_compare upcase n1 n2)).
Proof.
  intros H1 H2. unfold ntfs_names_full_collate. destruct (split_common n1 n2) as (l1 & l2 & d1 & d2 & -> & -> & Hl & Hd & ->).
  unfold is_name in *. unfold names_compare. rewrite !map_app.
  rewrite !lex_app_length, (lex_lengths l1 l2 d1 d2) by (rewrite ?length_map; done).
  assert (lex (map (toup upcase) d1) (map (toup upcase) d2) = (zlen (l1 ++ d1) ?= zlen (l2 ++ d2))) as ->.
  { rewrite (lex_lengths (map (toup upcase) l1) (map (toup upcase) l2)); [|by rewrite !length_map|destruct Hd as [-> | ->]; [left|right]; done].
    unfold zlen. by rewrite <- !map_app, !length_map. }
  apply Forall_app in H1 as [H1 _]. apply Forall_app in H2 as [H2 _].
  destruct (length l1) as [|k] eqn:Ek.
  { destruct l1, l2; try done. cbn. rewrite cmp_then_sgn. by destruct (_ ?= _). }
  rewrite <- Ek, <- !app_assoc.
  destruct (skip_equal_spec l1 l2 (d1 ++ r1) (d2 ++ r2)) as (p & x & y & t1 & t2 & E1 & E2 & Ht & ->); [by destruct l1|congruence|].
  cbn [mbind res_bind deref tail].
  assert (length t1 = length t2) as Hlt.
  { apply (f_equal length) in E1, E2. rewrite length_app in E1, E2. cbn in E1, E2. lia. }
  assert (lex l1 l2 = (x ?= y)) as Exy.
  { rewrite E1, E2, lex_app. cbn. destruct (Z.compare_spec x y) as [Hxy| |]; [|done..].
    rewrite (Ht Hxy) in Hlt |- *. by destruct t2. }
  rewrite Exy. rewrite E1, E2, !map_app, lex_app. cbn [map lex].
  rewrite E1 in H1. rewrite E2 in H2. apply Forall_app in H1 as [_ [[Hx _] H1]%Forall_cons_1].
  apply Forall_app in H2 as [_ [[Hy _] H2]%Forall_cons_1]. rewrite !up_toup by done. cbn [mbind res_bind].
  set (k1 := zlen (_ ++ d1)). set (k2 := zlen (_ ++ d2)).
  destruct t1 as [|a t1], t2 as [|b t2]; try done; cbn [length].
  - cbn [mbind res_bind]. rewrite !cmp_then_sgn. by destruct (toup upcase x ?= toup upcase y), (k1 ?= k2), (x ?= y).
  - destruct (Z.eqb_spec (toup upcase x) (toup upcase y)) as [Eu|Hne].
    + destruct (upcase_loop_spec (a :: t1) (b :: t2) (d1 ++ r1) (d2 ++ r2)
        (cmp_then k1 k2 (cmp_then x y 0))) as (u1 & u2 & Eloop & Ec); [done..|].
      cbn [length tail app] in Eloop |- *. rewrite Eloop. cbn [mbind res_bind]. rewrite Ec, Eu, Z.compare_refl.
      rewrite !cmp_then_sgn. by destruct (lex (map (toup upcase) (a :: t1)) _), (k1 ?= k2), (x ?= y).
    + cbn [mbind res_bind]. rewrite cmp_then_sgn. by destruct (Z.compare_spec (toup upcase x) (toup upcase y)).
Qed.

Lemma full_collate_nocase n1 r1 n2 r2 : is_name n1 -> is_name n2 ->
  ntfs_names_full_collate (n1 ++ r1) (zlen n1) (n2 ++ r2) (zlen n2) IGNORE_CASE upcase (zlen upcase)
  = Ok (sgn (lex (map (toup upcase) n1) (map (toup upcase) n2))).
Proof.
  intros H1 H2. unfold ntfs_names_full_collate. destruct (split_common n1 n2) as (l1 & l2 & d1 & d2 & -> & -> & Hl & Hd & ->).
  rewrite !map_app, lex_app_length by (rewrite !length_map; done).
  assert (lex (map (toup upcase) d1) (map (toup upcase) d2) = (zlen (l1 ++ d1) ?= zlen (l2 ++ d2))) as ->.
  { rewrite (lex_lengths (map (toup upcase) l1) (map (toup upcase) l2)); [|by rewrite !length_map|destruct Hd as [-> | ->]; [left|right]; done].
    unfold zlen. by rewrite <- !map_app, !length_map. }
  apply Forall_app in H1 as [H1 _]. apply Forall_app in H2 as [H2 _].
  destruct (length l1) as [|k] eqn:Ek.
  { destruct l1, l2; try done. cbn. rewrite cmp_then_sgn. by destruct (_ ?= _). }
  rewrite <- Ek, <- !app_assoc.
  destruct (upcase_loop_spec l1 l2 (d1 ++ r1) (d2 ++ r2) (cmp_then (zlen (l1 ++ d1)) (zlen (l2 ++ d2)) 0))
    as (u1 & u2 & -> & Ec); [done|done|by destruct l1|congruence|].
  cbn [mbind res_bind]. rewrite Ec, cmp_then_sgn. destruct (lex (map _ l1) _); [|done..]. by destruct (_ ?= _).
Qed.
End collate.

(** ** The order of names *)

Lemma names_compare_refl upcase l : names_compare upcase l l = Eq.
Proof. unfold names_compare. by rewrite !lex_refl. Qed.

Lemma names_compare_eq upcase l1 l2 : names_compare upcase l1 l2 = Eq -> l1 = l2.
Proof. unfold names_compare. destruct (lex (map _ _) _); [|done..]. apply lex_eq. Qed.

Lemma names_compare_antisym upcase l1 l2 : names_compare upcase l2 l1 = CompOpp (names_compare upcase l1 l2).
Proof.
  unfold names_compare. rewrite (lex_antisym (map _ l1)). destruct (lex (map _ l1) _); cbn; [apply lex_antisym|done..].
Qed.

Lemma names_compare_trans upcase l1 l2 l3 :
  names_compare upcase l1 l2 = Lt -> names_compare upcase l2 l3 = Lt -> names_compare upcase l1 l3 = Lt.
Proof.
  unfold names_compare. destruct (lex (map _ l1) (map _ l2)) eqn:E1; [| |done].
  - apply lex_eq in E1 as ->. destruct (lex (map _ l2) _); [apply lex_trans|done..].
  - intros _. destruct (lex (map _ l2) (map _ l3)) eqn:E2; [| |done].
    + apply lex_eq in E2 as <-. by rewrite E1.
    + intros _. by rewrite (lex_trans _ _ _ E1 E2).
Qed.

(** ** Equality *)

Section equality.
Context (f : Z -> Z).

(** The comparison of the characters before a NUL. *)
Lemma until0_lex x y l1 l2 : 0 <= x -> 0 <= y ->
  lex (until0 (x :: l1)) (until0 (y :: l2)) =
  (if x <? y then Lt else if y <? x then Gt else if x =? 0 then Eq else lex (until0 l1) (until0 l2)).
Proof.
  intros Hx Hy. cbn. destruct (Z.ltb_spec x y); [|destruct (Z.ltb_spec y x)].
  - zdec. destruct (Z.eqb_spec x 0); [done|]. cbn. by rewrite (proj2 (Z.compare_lt_iff x y)).
  - zdec. destruct (Z.eqb_spec y 0); [done|]. cbn. by rewrite (proj2 (Z.compare_gt_iff x y)) by lia.
  - assert (x = y) as -> by lia. destruct (y =? 0); [done|]. cbn. by rewrite Z.compare_refl.
Qed.
End equality.

Lemma ucsncmp_spec l1 : forall l2 r1 r2, is_name l1 -> is_name l2 -> length l1 = length l2 ->
  ntfs_ucsncmp (l1 ++ r1) (l2 ++ r2) (length l1) = Ok (sgn (lex (until0 l1) (until0 l2))).
Proof.
  induction l1 as [|x l1 IH]; intros [|y l2] r1 r2 H1 H2 Hl; try done.
  apply Forall_cons_1 in H1 as [[Hx _] H1]. apply Forall_cons_1 in H2 as [[Hy _] H2].
  rewrite until0_lex by done. cbn [length ntfs_ucsncmp deref tail app mbind res_bind].
  destruct (x <? y); [done|]. destruct (y <? x); [done|]. destruct (x =? 0); [done|]. apply IH; [done..|cbn in Hl; lia].
Qed.

Lemma toup_range upcase u : is_name upcase -> 0 <= u -> 0 <= toup upcase u.
Proof.
  intros Hu Hp. unfold toup, up. destruct (u <? zlen upcase); [|done].
  destruct (aget upcase u) as [v| |] eqn:E; [|done..]. apply aget_ok in E as [_ E].
  by destruct (Forall_lookup_1 _ _ _ _ Hu E).
Qed.

Lemma ucsncasecmp_spec upcase l1 : is_name upcase ->
  forall l2 r1 r2, is_name l1 -> is_name l2 -> length l1 = length l2 ->
  ntfs_ucsncasecmp upcase (zlen upcase) (l1 ++ r1) (l2 ++ r2) (length l1)
  = Ok (sgn (lex (until0 (map (toup upcase) l1)) (until0 (map (toup upcase) l2)))).
Proof.
  intros Hu. induction l1 as [|x l1 IH]; intros [|y l2] r1 r2 H1 H2 Hl; try done.
  apply Forall_cons_1 in H1 as [[Hx _] H1]. apply Forall_cons_1 in H2 as [[Hy _] H2].
  cbn [map]. rewrite until0_lex by by apply toup_range.
  cbn [length ntfs_ucsncasecmp deref tail app mbind res_bind]. rewrite !up_toup by done. cbn [mbind res_bind].
  destruct (_ <? _); [done|]. destruct (_ <? _); [done|]. destruct (_ =? 0); [done|]. apply IH; [done..|cbn in Hl; lia].
Qed.

Lemma sgn_0 c : (sgn c =? 0) = true <-> c = Eq.
Proof. by destruct c. Qed.

(** ** Theorems *)

(** collating two names gives the sign of a total order: with
    CASE_SENSITIVE the lexicographic order of the names in upper case, names
    that differ only in case being ordered by their characters; with
    IGNORE_CASE the order of the names in upper case alone.  No character
    behind a name and no entry behind the upcase table is read. *)
Theorem names_full_collate_correct ic upcase n1 r1 n2 r2 : is_name n1 -> is_name n2 ->
  ntfs_names_full_collate (n1 ++ r1) (zlen n1) (n2 ++ r2) (zlen n2) ic upcase (zlen upcase)
  = Ok (sgn (match ic with
             | CASE_SENSITIVE => names_compare upcase n1 n2
             | IGNORE_CASE => lex (map (toup upcase) n1) (map (toup upcase) n2)
             end)).
Proof. intros H1 H2. destruct ic; [by apply full_collate_case|by apply full_collate_nocase]. Qed.

Definition ex_upcase : list Z := map (fun c => if (97 <=? c) && (c <=? 122) then c - 32 else c) (seqZ 0 128).

Lemma names_full_collate_correct_witness :
  ntfs_names_full_collate [97; 98; 99] 3 [65; 66; 67] 3 CASE_SENSITIVE ex_upcase 128 = Ok 1 /\
  ntfs_names_full_collate [97; 98; 99] 3 [66; 67; 68] 3 CASE_SENSITIVE ex_upcase 128 = Ok (-1) /\
  ntfs_names_full_collate [97; 98; 99] 3 [65; 66; 67] 3 IGNORE_CASE ex_upcase 128 = Ok 0.
Proof.
  split_and!.
  - exact (names_full_collate_correct CASE_SENSITIVE ex_upcase [97; 98; 99] [] [65; 66; 67] []
      ltac:(compute_decide) ltac:(compute_decide)).
  - exact (names_full_collate_correct CASE_SENSITIVE ex_upcase [97; 98; 99] [] [66; 67; 68] []
      ltac:(compute_decide) ltac:(compute_decide)).
  - exact (names_full_collate_correct IGNORE_CASE ex_upcase [97; 98; 99] [] [65; 66; 67] []
      ltac:(compute_decide) ltac:(compute_decide)).
Defined.

(** Two names of the same length are equal when they agree up to a NUL. *)
Theorem names_are_equal_correct ic upcase n1 r1 n2 r2 : is_name upcase -> is_name n1 -> is_name n2 ->
  exists b, ntfs_names_are_equal (n1 ++ r1) (zlen n1) (n2 ++ r2) (zlen n2) ic upcase (zlen upcase) = Ok b /\
    (b = true <-> zlen n1 = zlen n2 /\
      match ic with
      | CASE_SENSITIVE => until0 n1 = until0 n2
      | IGNORE_CASE => until0 (map (toup upcase) n1) = until0 (map (toup upcase) n2)
      end).
Proof.
  intros Hu H1 H2. unfold ntfs_names_are_equal.
  destruct (Z.eqb_spec (zlen n1) (zlen n2)) as [El|Hne]; [|exists false; split; [done|]; split; [done|intros [? _]; done]].
  cbn [negb]. destruct (Z.eqb_spec (zlen n1) 0) as [E0|_].
  { exists true. destruct n1, n2; [|rewrite zlen_cons in *; pose proof (zlen_nonneg n2); rewrite ?zlen_nil in *; lia
      |rewrite zlen_cons in *; pose proof (zlen_nonneg n1); lia..]. by destruct ic. }
  rewrite zlen_to_nat. assert (length n1 = length n2) as Hl by (unfold zlen in El; lia).
  assert (forall a b : list Z, (sgn (lex a b) =? 0) = true <-> a = b) as Hs.
  { intros a b. rewrite sgn_0. split; [apply lex_eq|intros ->; apply lex_refl]. }
  destruct ic; [rewrite ucsncmp_spec by done|rewrite ucsncasecmp_spec by done]; cbn [mbind res_bind];
    eexists; (split; [reflexivity|]); rewrite Hs; tauto.
Qed.

(** Characters behind a NUL are not compared. *)
Theorem names_equal_after_nul :
  ntfs_names_are_equal [97; 0; 98] 3 [97; 0; 99] 3 CASE_SENSITIVE [] 0 = Ok true.
Proof. reflexivity. Qed.
