(* ===== verification/Utf.v ===== *)
(** Conversion of names between UTF-16 and UTF-8 (libntfs/unistr.c), as built
    with ALLOW_BROKEN_UNICODE, the default: surrogates that form no pair are
    encoded one by one.

    Output buffers are arrays that are written in place; the size of the
    output is computed before. *)

From S2P Require Import Prelude Unistr.

Definition PATH_MAX : Z := 4096.

(** ** UTF-16 to UTF-8 *)

(** One pass of the loop of [utf16_to_utf8_size]: the new state, and whether
    the character is consumed. *)
Definition size_unit (c : Z) (surrog : bool) (count : Z) : bool * Z * bool :=
  if surrog then
    if (0xdc00 <=? c) && (c <? 0xe000) then (false, count + 4, true) else (false, count + 3, false)
  else if c <? 0x80 then (false, count + 1, true)
  else if c <? 0x800 then (false, count + 2, true)
  else if c <? 0xd800 then (false, count + 3, true)
  else if c <? 0xdc00 then (true, count, true)
  else (false, count + 3, true).

(** [n] characters are left; an unpaired surrogate is followed by a second
    look at the same character, hence the fuel. *)
Fixpoint size_loop (fuel : nat) (ins : list Z) (n : nat) (outs_len : Z) (surrog : bool) (count : Z) : res (bool * Z) :=
  match fuel with
  | O => Undef
  | S fuel =>
      match n with
      | O => Ok (surrog, count)
      | S n' =>
          c ← deref ins;
          if (c =? 0) || (outs_len <? count) then Ok (surrog, count) else
          let '(surrog, count, consumed) := size_unit c surrog count in
          if consumed then size_loop fuel (tail ins) n' outs_len surrog count
          else size_loop fuel ins n outs_len surrog count
      end
  end.

Definition utf16_to_utf8_size (ins : list Z) (ins_len outs_len : Z) : res Z :=
  let n := Z.to_nat ins_len in
  '(surrog, count) ← size_loop (2 * n + 2) ins n outs_len false 0;
  let count := if surrog && (count <=? outs_len) then count + 3 else count in
  if outs_len <? count then Err ENAMETOOLONG else Ok count.

Definition enc2 (c : Z) : list Z := [u8 (Z.lor 0xc0 (Z.land (Z.shiftr c 6) 0x3f)); u8 (Z.lor 0x80 (Z.land c 0x3f))].
Definition enc3 (c : Z) : list Z :=
  [u8 (Z.lor 0xe0 (Z.shiftr c 12)); u8 (Z.lor 0x80 (Z.land (Z.shiftr c 6) 0x3f)); u8 (Z.lor 0x80 (Z.land c 0x3f))].
Definition enc4 (halfpair c : Z) : list Z :=
  [u8 (0xf0 + Z.land (Z.shiftr (halfpair + 64) 8) 7); u8 (0x80 + Z.land (Z.shiftr (halfpair + 64) 2) 63);
   u8 (0x80 + Z.land (Z.shiftr c 6) 15 + Z.shiftl (Z.land halfpair 3) 4); u8 (0x80 + Z.land c 63)].

(** One pass of the loop of [ntfs_utf16_to_utf8]: the bytes put out, the new
    [halfpair], and whether the character is consumed. *)
Definition conv_unit (c halfpair : Z) : list Z * Z * bool :=
  if negb (halfpair =? 0) then
    if (0xdc00 <=? c) && (c <? 0xe000) then (enc4 halfpair c, 0, true) else (enc3 halfpair, 0, false)
  else if c <? 0x80 then ([u8 c], 0, true)
  else if c <? 0x800 then (enc2 c, 0, true)
  else if c <? 0xd800 then (enc3 c, 0, true)
  else if c <? 0xdc00 then ([], c, true)
  else (enc3 c, 0, true).

Fixpoint conv_loop (fuel : nat) (ins : list Z) (n : nat) (halfpair : Z) (outs : list Z) (t : Z)
    : res (Z * list Z * Z) :=
  match fuel with
  | O => Undef
  | S fuel =>
      match n with
      | O => Ok (halfpair, outs, t)
      | S n' =>
          c ← deref ins;
          if c =? 0 then Ok (halfpair, outs, t) else
          let '(bs, halfpair, consumed) := conv_unit c halfpair in
          outs ← awrite outs t bs;
          if consumed then conv_loop fuel (tail ins) n' halfpair outs (t + zlen bs)
          else conv_loop fuel ins n halfpair outs (t + zlen bs)
      end
  end.

(** The output string and its length.  [outs] is the buffer of the caller, or
    [None] when one is to be allocated. *)
Definition ntfs_utf16_to_utf8 `{Heap} (ins : list Z) (ins_len : Z) (outs : option (list Z)) (outs_len : Z)
    : res (list Z * Z) :=
  let outs_len := match outs with None => PATH_MAX | Some _ => outs_len end in
  size ← utf16_to_utf8_size ins ins_len (outs_len - 1);
  outs ← match outs with
         | Some o => Ok o
         | None => if heap_grants (size + 1) then Ok (map heap_junk (seq 0 (Z.to_nat (size + 1)))) else Err ENOMEM
         end;
  let n := Z.to_nat ins_len in
  '(halfpair, outs, t) ← conv_loop (2 * n + 2) ins n 0 outs 0;
  '(outs, t) ← (if negb (halfpair =? 0) then o ← awrite outs t (enc3 halfpair); Ok (o, t + 3) else Ok (outs, t));
  outs ← aset outs t 0;
  Ok (outs, t).

(** ** UTF-8 to UTF-16 *)

(** The number of bytes skipped behind a first byte [byte]; [None] when the
    loop is left because the string ends. *)
Definition skip_seq (byte : Z) (s : list Z) (count : Z) : res (option (list Z * Z)) :=
  if byte <? 0xc0 then Ok (Some (s, count)) else
  if 0xf5 <=? byte then Err EILSEQ else
  c ← deref s;
  if c =? 0 then Ok None else
  let s := tail s in
  c ← deref s;
  if c =? 0 then Ok None else
  let s := if 0xe0 <=? byte then tail s else s in
  c ← deref s;
  if c =? 0 then Ok None else
  if 0xf0 <=? byte then
    (if PATH_MAX <=? count + 1 then Err ENAMETOOLONG else Ok (Some (tail s, count + 1)))
  else Ok (Some (s, count)).

Fixpoint size16_loop (fuel : nat) (s : list Z) (count : Z) : res Z :=
  match fuel with
  | O => Undef
  | S fuel =>
      byte ← deref s;
      if byte =? 0 then Ok count else
      if PATH_MAX <=? count + 1 then Err ENAMETOOLONG else
      r ← skip_seq byte (tail s) (count + 1);
      match r with
      | None => Ok (count + 1)
      | Some (s, count) => size16_loop fuel s count
      end
  end.

Definition utf8_to_utf16_size (s : list Z) : res Z := size16_loop (S (length s)) s 0.

Definition is_cont (b : Z) : bool := Z.land b 0xc0 =? 0x80.

(** The character and the number of bytes used; 0 bytes at the end. *)
Definition utf8_to_unicode (s : list Z) : res (Z * Z) :=
  byte ← deref s;
  if byte =? 0 then Ok (0, 0)
  else if byte <? 0x80 then Ok (byte, 1)
  else if byte <? 0xc2 then Err EILSEQ
  else if byte <? 0xe0 then
    s1 ← aget s 1;
    if is_cont s1 then Ok (Z.lor (Z.shiftl (Z.land byte 0x1f) 6) (Z.land s1 0x3f), 2) else Err EILSEQ
  else if byte <? 0xf0 then
    s1 ← aget s 1;
    if negb (is_cont s1) then Err EILSEQ else
    s2 ← aget s 2;
    if negb (is_cont s2) then Err EILSEQ else
    let wc := Z.lor (Z.lor (Z.shiftl (Z.land byte 0x0f) 12) (Z.shiftl (Z.land s1 0x3f) 6)) (Z.land s2 0x3f) in
    if (0x800 <=? wc) && (wc <=? 0xd7ff) || (0xd800 <=? wc) && (wc <=? 0xdfff) || (0xe000 <=? wc) && (wc <=? 0xffff)
    then Ok (wc, 3) else Err EILSEQ
  else if byte <? 0xf5 then
    s1 ← aget s 1;
    if negb (is_cont s1) then Err EILSEQ else
    s2 ← aget s 2;
    if negb (is_cont s2) then Err EILSEQ else
    s3 ← aget s 3;
    if negb (is_cont s3) then Err EILSEQ else
    let wc := Z.lor (Z.lor (Z.lor (Z.shiftl (Z.land byte 0x07) 18) (Z.shiftl (Z.land s1 0x3f) 12))
                       (Z.shiftl (Z.land s2 0x3f) 6)) (Z.land s3 0x3f) in
    if (wc <=? 0x10ffff) && (0x10000 <=? wc) then Ok (wc, 4) else Err EILSEQ
  else Err EILSEQ.

Definition units (wc : Z) : list Z :=
  if wc <? 0x10000 then [u16 wc]
  else let wc := wc - 0x10000 in [u16 (Z.shiftr wc 10 + 0xd800); u16 (Z.land wc 0x3ff + 0xdc00)].

Fixpoint conv16_loop (fuel : nat) (t : list Z) (outs : list Z) (outpos : Z) : res (list Z * Z) :=
  match fuel with
  | O => Undef
  | S fuel =>
      '(wc, m) ← utf8_to_unicode t;
      if m =? 0 then outs ← aset outs outpos 0; Ok (outs, outpos)
      else
        outs ← awrite outs outpos (units wc);
        conv16_loop fuel (drop (Z.to_nat m) t) outs (outpos + zlen (units wc))
  end.

(** The output string and its length; an allocated buffer is freed again on
    an error. *)
Definition ntfs_utf8_to_utf16 `{Heap} (ins : list Z) (outs : option (list Z)) : res (list Z * Z) :=
  shorts ← utf8_to_utf16_size ins;
  outs ← match outs with
         | Some o => Ok o
         | None => if heap_grants ((shorts + 1) * 2) then Ok (map heap_junk (seq 0 (Z.to_nat (shorts + 1)))) else Err ENOMEM
         end;
  conv16_loop (S (length ins)) ins outs 0.

(** ** Upper case of a UTF-8 string *)

Definition enc_upper (wc : Z) : list Z :=
  if wc <? 0x80 then [u8 wc]
  else if wc <? 0x800 then [u8 (Z.lor 0xc0 (Z.land (Z.shiftr wc 6) 0x3f)); u8 (Z.lor 0x80 (Z.land wc 0x3f))]
  else if wc <? 0x10000 then
    [u8 (Z.lor 0xe0 (Z.shiftr wc 12)); u8 (Z.lor 0x80 (Z.land (Z.shiftr wc 6) 0x3f)); u8 (Z.lor 0x80 (Z.land wc 0x3f))]
  else [u8 (Z.lor 0xf0 (Z.land (Z.shiftr wc 18) 7)); u8 (Z.lor 0x80 (Z.land (Z.shiftr wc 12) 63));
        u8 (Z.lor 0x80 (Z.land (Z.shiftr wc 6) 0x3f)); u8 (Z.lor 0x80 (Z.land wc 0x3f))].

(** The buffer, the place of the terminator, and whether the input ended. *)
Fixpoint upper_loop (fuel : nat) (s upcase : list Z) (upcase_size : Z) (upp : list Z) (t : Z) : res (list Z * Z * bool) :=
  match fuel with
  | O => Undef
  | S fuel =>
      match utf8_to_unicode s with
      | Undef => Undef
      | Err _ => Ok (upp, t, false)
      | Ok (wc, n) =>
          if n =? 0 then Ok (upp, t, true) else
          wc ← up upcase upcase_size wc;
          upp ← awrite upp t (enc_upper wc);
          upper_loop fuel (drop (Z.to_nat n) s) upcase upcase_size upp (t + zlen (enc_upper wc))
      end
  end.

(** [size] is [strlen(low)].  The terminator is written after the buffer has
    been freed when the input is invalid. *)
Definition ntfs_uppercase_mbs `{Heap} (low : list Z) (size : Z) (upcase : list Z) (upcase_size : Z) : res (option (list Z)) :=
  if heap_grants (3 * size + 1) then
    '(upp, t, ended) ← upper_loop (S (length low)) low upcase upcase_size (map heap_junk (seq 0 (Z.to_nat (3 * size + 1)))) 0;
    if (ended : bool) then upp ← aset upp t 0; Ok (Some upp) else Undef
  else Ok None.

(** * Specification *)

Definition is_high (c : Z) : bool := (0xd800 <=? c) && (c <? 0xdc00).
Definition is_low (c : Z) : bool := (0xdc00 <=? c) && (c <? 0xe000).

(** The UTF-8 form of a character that is not part of a pair. *)
Definition enc1 (c : Z) : list Z := if c <? 0x80 then [c] else if c <? 0x800 then enc2 c else enc3 c.

(** The UTF-8 form of a UTF-16 string. *)
Fixpoint utf8_of (l : list Z) : list Z :=
  match l with
  | [] => []
  | c :: l' =>
      if is_high c then
        match l' with
        | d :: l'' => if is_low d then enc4 c d ++ utf8_of l'' else enc1 c ++ utf8_of l'
        | [] => enc1 c
        end
      else enc1 c ++ utf8_of l'
  end.

(** A string of non-zero 16-bit characters. *)
Definition chars (l : list Z) : Prop := Forall (fun c => 0 < c < 65536) l.

(** [ins] holds the string [l], which ends at a NUL or after [n] characters. *)
Definition holds_string (ins : list Z) (n : nat) (l : list Z) : Prop :=
  exists r, ins = l ++ r /\ (n = length l \/ (length l < n)%nat /\ exists r', r = 0 :: r').

(** * Proofs *)

(** What is put out from a state of the conversion. *)
Definition enc_state (h : Z) (l : list Z) : list Z := if h =? 0 then utf8_of l else utf8_of (h :: l).

Definition half_ok (h : Z) : Prop := h = 0 \/ is_high h = true.

Lemma is_high_iff c : is_high c = true <-> 0xd800 <= c < 0xdc00.
Proof. unfold is_high. rewrite andb_true_iff, Z.leb_le, Z.ltb_lt. lia. Qed.

Lemma enc1_high c : is_high c = true -> enc1 c = enc3 c.
Proof. rewrite is_high_iff. intros. unfold enc1. by zdec. Qed.

(** One pass puts out what the state says. *)
Lemma conv_unit_spec h c l : half_ok h -> 0 < c < 65536 ->
  let '(bs, h', consumed) := conv_unit c h in
  half_ok h' /\ (consumed = false -> h <> 0 /\ h' = 0) /\
  enc_state h (c :: l) = bs ++ enc_state h' (if consumed then l else c :: l).
Proof.
  intros Hh Hc. unfold conv_unit, enc_state. destruct Hh as [->|Hh].
  - cbn [Z.eqb negb]. destruct (Z.ltb_spec c 0x80); [|destruct (Z.ltb_spec c 0x800); [|destruct (Z.ltb_spec c 0xd800); [|
      destruct (Z.ltb_spec c 0xdc00)]]]; cbn [Z.eqb].
    1-3, 5: split_and!; [by left|done|]; cbn [utf8_of]; unfold is_high; zdec; cbn [andb]; unfold enc1; zdec;
      rewrite ?u8_small by lia; done.
    split_and!; [right; apply is_high_iff; lia|done|]. zdec. done.
  - pose proof (proj1 (is_high_iff h) Hh). zdec. cbn [negb]. change ((0xdc00 <=? c) && (c <? 0xe000)) with (is_low c).
    destruct (is_low c) eqn:El; cbn [utf8_of Z.eqb]; rewrite Hh, El; split_and!; try (by left); try done.
    + intros _. split; [lia|done].
    + by rewrite enc1_high.
Qed.

Lemma size_unit_conv h c count : half_ok h -> 0 < c < 65536 ->
  let '(bs, h', consumed) := conv_unit c h in
  size_unit c (negb (h =? 0)) count = (negb (h' =? 0), count + zlen bs, consumed).
Proof.
  intros Hh Hc. unfold conv_unit, size_unit. destruct (negb (h =? 0)).
  { by destruct (_ && _). }
  destruct (c <? 0x80); [done|]. destruct (c <? 0x800); [done|]. destruct (c <? 0xd800); [done|].
  destruct (Z.ltb_spec c 0xdc00); [|done]. zdec. cbn [negb]. by rewrite zlen_nil, Z.add_0_r.
Qed.

(** Steps left: a pending half pair may need a second look. *)
Definition steps (h : Z) (l : list Z) : nat := 2 * length l + (if (h =? 0)%Z then 0 else 1).

Lemma conv_unit_steps h c l : half_ok h -> 0 < c < 65536 ->
  let '(_, h', consumed) := conv_unit c h in (steps h' (if consumed then l else c :: l) < steps h (c :: l))%nat.
Proof.
  intros Hh Hc. pose proof (conv_unit_spec h c l Hh Hc) as S. destruct (conv_unit c h) as [[bs h'] [|]];
    destruct S as (_ & S & _); unfold steps; cbn [length].
  - destruct (h' =? 0), (h =? 0); lia.
  - destruct (S eq_refl) as [Hn ->]. zdec. lia.
Qed.

Lemma holds_cons ins n c l : holds_string ins n (c :: l) ->
  exists ins' n', ins = c :: ins' /\ n = S n' /\ holds_string ins' n' l.
Proof.
  intros (r & -> & Hn). exists (l ++ r), (pred n). destruct Hn as [->|[Hl Hr]].
  - split_and!; [done..|]. exists r. split; [done|by left].
  - cbn in Hl. split_and!; [done|lia|]. exists r. split; [done|right]. split; [lia|done].
Qed.

Lemma conv_loop_spec fuel : forall ins n l h pre mid, holds_string ins n l -> chars l -> half_ok h ->
  (steps h l < fuel)%nat -> zlen (enc_state h l) <= zlen mid ->
  exists h' e mid', conv_loop fuel ins n h (pre ++ mid) (zlen pre) = Ok (h', pre ++ e ++ mid', zlen pre + zlen e) /\
    half_ok h' /\ enc_state h l = e ++ (if h' =? 0 then [] else enc3 h') /\ zlen e + zlen mid' = zlen mid.
Proof.
  induction fuel as [|fuel IH]; intros ins n l h pre mid Hs Hc Hh Hf Hm; [lia|]. destruct l as [|c l].
  - exists h, [], mid. rewrite zlen_nil, Z.add_0_r. cbn [app]. split_and!; [|done| |done].
    + destruct Hs as (r & -> & [->|[Hl (r' & ->)]]); [done|]. by destruct n; [lia|].
    + unfold enc_state. destruct Hh as [->|Hh]; [done|]. pose proof (proj1 (is_high_iff h) Hh). zdec. cbn. rewrite Hh.
      by apply enc1_high.
  - destruct (holds_cons _ _ _ _ Hs) as (ins' & n' & -> & -> & Hs'). apply Forall_cons_1 in Hc as [Hc Hl].
    cbn [conv_loop deref tail mbind res_bind]. zdec.
    pose proof (conv_unit_spec h c l Hh Hc) as S. pose proof (conv_unit_steps h c l Hh Hc) as St.
    destruct (conv_unit c h) as [[bs h1] consumed]. destruct S as (Hh1 & _ & Ee).
    rewrite Ee, zlen_app in Hm. pose proof (zlen_nonneg (enc_state h1 (if consumed then l else c :: l))).
    assert (exists m1 m2, mid = m1 ++ m2 /\ zlen m1 = zlen bs) as (m1 & m2 & -> & Em).
    { exists (take (length bs) mid), (drop (length bs) mid). rewrite take_drop. split; [done|].
      unfold zlen in *. rewrite length_take. lia. }
    rewrite awrite_mid by (unfold zlen in Em; lia || done). cbn [mbind res_bind]. rewrite zlen_app in Hm.
    destruct (IH (if consumed then ins' else c :: ins') (if consumed then n' else S n') (if consumed then l else c :: l)
      h1 (pre ++ bs) m2) as (h' & e & mid' & E & Hh' & Ex & El).
    { by destruct consumed. } { destruct consumed; [done|by constructor]. } { done. } { lia. } { lia. }
    exists h', (bs ++ e), mid'. rewrite Ee, Ex, !zlen_app. rewrite <- !app_assoc in *. split_and!; [|done|done|lia].
    rewrite zlen_app in E. destruct consumed; rewrite E; do 2 f_equal; lia.
Qed.

(** The size is counted until it exceeds the limit. *)
Lemma size_loop_spec L fuel : forall ins n l h count, holds_string ins n l -> chars l -> half_ok h ->
  (steps h l < fuel)%nat ->
  exists s k e rest, size_loop fuel ins n L (negb (h =? 0)) count = Ok (s, k) /\ enc_state h l = e ++ rest /\
    k = count + zlen e /\ (zlen rest = (if (s : bool) then 3 else 0) \/ L < k).
Proof.
  induction fuel as [|fuel IH]; intros ins n l h count Hs Hc Hh Hf; [lia|]. destruct l as [|c l].
  - exists (negb (h =? 0)), count, [], (enc_state h []). split_and!; [|done|rewrite zlen_nil; lia|left].
    + destruct Hs as (r & -> & [->|[Hl (r' & ->)]]); [done|]. by destruct n; [lia|].
    + unfold enc_state. destruct Hh as [->|Hh]; [done|]. pose proof (proj1 (is_high_iff h) Hh). zdec. cbn. rewrite Hh.
      by rewrite enc1_high.
  - destruct (holds_cons _ _ _ _ Hs) as (ins' & n' & -> & -> & Hs'). apply Forall_cons_1 in Hc as [Hc Hl].
    cbn [size_loop deref tail mbind res_bind]. zdec. destruct (Z.ltb_spec L count).
    { eexists _, count, [], _. split_and!; [done|reflexivity|rewrite zlen_nil; lia|by right]. }
    pose proof (conv_unit_spec h c l Hh Hc) as S. pose proof (conv_unit_steps h c l Hh Hc) as St.
    pose proof (size_unit_conv h c count Hh Hc) as Sz.
    destruct (conv_unit c h) as [[bs h1] consumed]. destruct S as (Hh1 & _ & Ee). rewrite Sz, Ee.
    destruct (IH (if consumed then ins' else c :: ins') (if consumed then n' else S n') (if consumed then l else c :: l)
      h1 (count + zlen bs)) as (s & k & e & rest & E & Ex & Ek & Hr).
    { by destruct consumed. } { destruct consumed; [done|by constructor]. } { done. } { lia. }
    exists s, k, (bs ++ e), rest. rewrite Ex, zlen_app, app_assoc. split_and!; [by destruct consumed|done|lia|done].
Qed.

Lemma utf8_size_spec ins ins_len L l : holds_string ins (Z.to_nat ins_len) l -> chars l -> 0 <= L ->
  utf16_to_utf8_size ins ins_len L = if L <? zlen (utf8_of l) then Err ENAMETOOLONG else Ok (zlen (utf8_of l)).
Proof.
  intros Hs Hc HL. unfold utf16_to_utf8_size.
  assert (length l <= Z.to_nat ins_len)%nat by (destruct Hs as (r & _ & [->|[? _]]); lia).
  destruct (size_loop_spec L (2 * Z.to_nat ins_len + 2) ins (Z.to_nat ins_len) l 0 0) as (s & k & e & rest & E & Ex & Ek & Hr);
    [done|done|by left|unfold steps; zdec; lia|].
  cbn [negb Z.eqb] in E. rewrite E. cbn [mbind res_bind]. unfold enc_state in Ex. cbn [Z.eqb] in Ex. rewrite Ex, zlen_app.
  pose proof (zlen_nonneg rest). destruct s; cbn [andb]; destruct (Z.leb_spec k L).
  all: destruct Hr as [Hr|]; [|lia || (zdec; done)]; rewrite Hr in *; repeat zcase_one; try lia; f_equal; lia.
Qed.

(** The conversion of a string that ends within [ins_len] characters. *)
Lemma utf16_to_utf8_spec `{Heap} ins ins_len l outs outs_len : holds_string ins (Z.to_nat ins_len) l -> chars l ->
  (forall o, outs = Some o -> zlen o = outs_len /\ 0 < outs_len) ->
  let limit := match outs with None => PATH_MAX | Some _ => outs_len end in
  let bytes := utf8_of l in
  match ntfs_utf16_to_utf8 ins ins_len outs outs_len with
  | Ok (o, n) => zlen bytes < limit /\ n = zlen bytes /\ exists rest, o = bytes ++ 0 :: rest /\
      zlen o = match outs with None => zlen bytes + 1 | Some _ => outs_len end
  | Err e => (e = ENAMETOOLONG /\ limit <= zlen bytes) \/ (e = ENOMEM /\ outs = None /\ heap_grants (zlen bytes + 1) = false)
  | Undef => False
  end.
Proof.
  intros Hs Hc Ho limit bytes. unfold ntfs_utf16_to_utf8. fold limit.
  assert (0 < limit) as HL by (unfold limit; destruct outs; [by destruct (Ho _ eq_refl)|done]).
  rewrite (utf8_size_spec _ _ _ l) by (done || lia). fold bytes.
  destruct (Z.ltb_spec (limit - 1) (zlen bytes)); cbn [mbind res_bind]; [left; split; [done|lia]|].
  pose proof (zlen_nonneg bytes).
  set (buf := match outs with Some _ => _ | None => _ end).
  assert (buf = Err ENOMEM /\ outs = None /\ heap_grants (zlen bytes + 1) = false \/ exists o, buf = Ok o /\ zlen bytes < zlen o /\
    zlen o = match outs with None => zlen bytes + 1 | Some _ => outs_len end) as [(-> & -> & Eg)|(o & -> & Hl & El)].
  { unfold buf. destruct outs as [o|].
    - right. exists o. destruct (Ho o eq_refl). unfold limit in *. split_and!; [done|lia|done].
    - destruct (heap_grants _) eqn:Eg; [right|by left]. eexists. split; [done|].
      assert (forall k, 0 <= k -> zlen (map heap_junk (seq 0 (Z.to_nat k))) = k) as -> by (intros; unfold zlen; rewrite length_map, length_seq; lia); lia. }
  { cbn. right. done. }
  cbn [mbind res_bind].
  assert (length l <= Z.to_nat ins_len)%nat by (destruct Hs as (r & _ & [->|[? _]]); lia).
  destruct (conv_loop_spec (2 * Z.to_nat ins_len + 2) ins (Z.to_nat ins_len) l 0 [] o) as (h & e & mid & E & Hh & Ex & Em);
    [done|done|by left|unfold steps; zdec; lia|change (zlen bytes <= zlen o); lia|].
  cbn [app] in E. rewrite zlen_nil, Z.add_0_l in E. rewrite E. cbn [mbind res_bind].
  change (enc_state 0 l) with bytes in Ex.
  assert (exists mid', (if negb (h =? 0) then o0 ← awrite (e ++ mid) (zlen e) (enc3 h); Ok (o0, zlen e + 3)
    else Ok (e ++ mid, zlen e)) = Ok (bytes ++ mid', zlen bytes) /\ zlen bytes + zlen mid' = zlen o) as (mid' & -> & El').
  { rewrite Ex, zlen_app in *. destruct (Z.eqb_spec h 0) as [->|Hh0]; cbn [negb].
    - exists mid. rewrite app_nil_r, zlen_nil, Z.add_0_r in *. split; [done|lia].
    - change (zlen (enc3 h)) with 3 in *. destruct mid as [|a [|b [|c mid]]];
        rewrite ?zlen_cons, ?zlen_nil in *; try lia.
      exists mid. rewrite <- app_assoc. change (a :: b :: c :: mid) with ([a; b; c] ++ mid). rewrite awrite_mid by done.
      cbn [mbind res_bind]. split; [done|lia]. }
  cbn [mbind res_bind]. destruct mid' as [|x mid']; [rewrite zlen_nil in El'; lia|].
  rewrite aset_mid by done. cbn [mbind res_bind]. split_and!; [lia|done|]. exists mid'. split; [done|].
  rewrite zlen_app, zlen_cons in *. lia.
Qed.

(** ** Decoding *)

Lemma aget_app_ok {A} (l l' : list A) i x : aget l i = Ok x -> aget (l ++ l') i = Ok x.
Proof. intros E. rewrite aget_app_l; [done|]. by eapply aget_range. Qed.

(** What is decoded does not depend on what follows. *)
Lemma unicode_app s rest r : utf8_to_unicode s = Ok r -> utf8_to_unicode (s ++ rest) = Ok r.
Proof.
  unfold utf8_to_unicode. destruct s as [|b s]; [done|]. cbn [deref mbind res_bind app].
  assert (forall i x, aget (b :: s) i = Ok x -> aget (b :: s ++ rest) i = Ok x) as Ha.
  { intros i x E. by apply (aget_app_ok _ rest) in E. }
  destruct (b =? 0); [done|]. destruct (b <? 0x80); [done|]. destruct (b <? 0xc2); [done|].
  destruct (b <? 0xe0); [|destruct (b <? 0xf0); [|destruct (b <? 0xf5); [|done]]].
  - destruct (aget (b :: s) 1) eqn:E1; [|done..]. by rewrite (Ha _ _ E1).
  - destruct (aget (b :: s) 1) eqn:E1; [|done..]. rewrite (Ha _ _ E1). cbn [mbind res_bind].
    destruct (negb _); [done|]. destruct (aget (b :: s) 2) eqn:E2; [|done..]. by rewrite (Ha _ _ E2).
  - destruct (aget (b :: s) 1) eqn:E1; [|done..]. rewrite (Ha _ _ E1). cbn [mbind res_bind].
    destruct (negb _); [done|]. destruct (aget (b :: s) 2) eqn:E2; [|done..]. rewrite (Ha _ _ E2). cbn [mbind res_bind].
    destruct (negb _); [done|]. destruct (aget (b :: s) 3) eqn:E3; [|done..]. by rewrite (Ha _ _ E3).
Qed.

Lemma decode_enc1 c : 0 < c < 65536 -> utf8_to_unicode (enc1 c) = Ok (c, zlen (enc1 c)).
Proof.
  intros Hc. pose proof (forall_range (fun c => match utf8_to_unicode (enc1 c) with
    | Ok (wc, m) => (wc =? c) && (m =? zlen (enc1 c)) | _ => false end) 1 65535 c
    ltac:(vm_compute; reflexivity) ltac:(lia)) as E. cbn beta in E.
  destruct (utf8_to_unicode (enc1 c)) as [[wc m]| |]; [|done..].
  by apply andb_true_iff in E as [->%Z.eqb_eq ->%Z.eqb_eq].
Qed.

(** The first two and the last two bytes of a pair. *)
Lemma enc4_head h : is_high h = true ->
  let b1 := u8 (0xf0 + Z.land (Z.shiftr (h + 64) 8) 7) in
  let b2 := u8 (0x80 + Z.land (Z.shiftr (h + 64) 2) 63) in
  0xf0 <= b1 < 0xf5 /\ is_cont b2 = true /\
  Z.lor (Z.shiftl (Z.land b1 0x07) 18) (Z.shiftl (Z.land b2 0x3f) 12) = 4096 * ((h - 0xd800 + 64) / 4).
Proof.
  intros Hh%is_high_iff. cbn zeta. pose proof (forall_range (fun h =>
    let b1 := u8 (0xf0 + Z.land (Z.shiftr (h + 64) 8) 7) in
    let b2 := u8 (0x80 + Z.land (Z.shiftr (h + 64) 2) 63) in
    (0xf0 <=? b1) && (b1 <? 0xf5) && is_cont b2 &&
    (Z.lor (Z.shiftl (Z.land b1 0x07) 18) (Z.shiftl (Z.land b2 0x3f) 12) =? 4096 * ((h - 0xd800 + 64) / 4)))
    0xd800 1024 h ltac:(vm_compute; reflexivity) ltac:(lia)) as E. cbn zeta in E.
  rewrite !andb_true_iff, Z.leb_le, Z.ltb_lt, Z.eqb_eq in E. tauto.
Qed.

Lemma enc4_tail h c : is_low c = true ->
  let b3 := u8 (0x80 + Z.land (Z.shiftr c 6) 15 + Z.shiftl (Z.land h 3) 4) in
  let b4 := u8 (0x80 + Z.land c 63) in
  is_cont b3 = true /\ is_cont b4 = true /\
  Z.lor (Z.shiftl (Z.land b3 0x3f) 6) (Z.land b4 0x3f) = 1024 * (h mod 4) + (c - 0xdc00).
Proof.
  intros Hc. unfold is_low in Hc. rewrite andb_true_iff, Z.leb_le, Z.ltb_lt in Hc. cbn zeta.
  change 3 with (Z.ones 2). rewrite Z.land_ones by lia. change (2 ^ 2) with 4.
  pose proof (forall_range (fun k => all_from (fun c =>
    let b3 := u8 (0x80 + Z.land (Z.shiftr c 6) 15 + Z.shiftl k 4) in
    let b4 := u8 (0x80 + Z.land c 63) in
    is_cont b3 && is_cont b4 && (Z.lor (Z.shiftl (Z.land b3 0x3f) 6) (Z.land b4 0x3f) =? 1024 * k + (c - 0xdc00)))
    0xdc00 (Z.to_nat 1024)) 0 4 (h mod 4) ltac:(vm_compute; reflexivity)
    ltac:(pose proof (Z.mod_pos_bound h 4); lia)) as E.
  apply (forall_range _ _ _ c) in E; [|lia]. cbn zeta in E. rewrite !andb_true_iff, Z.eqb_eq in E. tauto.
Qed.

Lemma decode_enc4 h c : is_high h = true -> is_low c = true ->
  utf8_to_unicode (enc4 h c) = Ok (0x10000 + 1024 * (h - 0xd800) + (c - 0xdc00), 4).
Proof.
  intros Hh Hc. destruct (enc4_head h Hh) as (B1 & B2 & E1). destruct (enc4_tail h c Hc) as (B3 & B4 & E2).
  apply is_high_iff in Hh. unfold is_low in Hc. rewrite andb_true_iff, Z.leb_le, Z.ltb_lt in Hc.
  unfold utf8_to_unicode, enc4. cbn zeta in *.
  set (b1 := u8 (0xf0 + _)) in *. set (b2 := u8 (0x80 + Z.land (Z.shiftr (h + 64) 2) _)) in *.
  set (b3 := u8 (0x80 + _ + _)) in *. set (b4 := u8 (0x80 + Z.land c _)) in *.
  cbn [deref mbind res_bind]. zdec.
  change (aget [b1; b2; b3; b4] 1) with (Ok b2). change (aget [b1; b2; b3; b4] 2) with (Ok b3).
  change (aget [b1; b2; b3; b4] 3) with (Ok b4). cbn [mbind res_bind]. rewrite B2, B3, B4. cbn [negb].
  rewrite <- Z.lor_assoc, E1, E2. change 4096 with (2 ^ 12). rewrite lor_high by (change (2 ^ 12) with 4096; dlia).
  change (2 ^ 12) with 4096. assert (4096 * ((h - 55296 + 64) / 4) + (1024 * (h mod 4) + (c - 56320))
    = 0x10000 + 1024 * (h - 0xd800) + (c - 0xdc00)) as -> by dlia. zdec. done.
Qed.

(** The next character of an encoded string. *)
Lemma utf8_of_next l : chars l -> l <> [] -> exists wc seq l',
  l = units wc ++ l' /\ utf8_of l = seq ++ utf8_of l' /\ 0 < zlen seq /\ units wc <> [] /\
  forall rest, utf8_to_unicode (seq ++ rest) = Ok (wc, zlen seq).
Proof.
  intros Hc Hn. destruct l as [|c l]; [done|]. apply Forall_cons_1 in Hc as [Hc Hl].
  assert (exists wc seq l', c :: l = units wc ++ l' /\ utf8_of (c :: l) = seq ++ utf8_of l' /\
    0 < zlen seq /\ units wc <> [] /\ utf8_to_unicode seq = Ok (wc, zlen seq)) as H; cycle 1.
  { destruct H as (wc & seq & l' & ? & ? & ? & ? & E). exists wc, seq, l'. split_and!; [done..|].
    intros rest. by apply unicode_app. }
  assert (utf8_of (c :: l) = enc1 c ++ utf8_of l -> exists wc seq l', c :: l = units wc ++ l' /\
    utf8_of (c :: l) = seq ++ utf8_of l' /\ 0 < zlen seq /\ units wc <> [] /\ utf8_to_unicode seq = Ok (wc, zlen seq)) as Hone.
  { intros E. exists c, (enc1 c), l. assert (units c = [c]) as Eu by (unfold units; zdec; by rewrite u16_small by lia).
    rewrite Eu. split_and!; [done|done| |done|by apply decode_enc1].
    unfold enc1. destruct (c <? 0x80); [done|]. by destruct (c <? 0x800). }
  cbn [utf8_of] in *. destruct (is_high c) eqn:Eh; [|by apply Hone].
  destruct l as [|d l]; [apply Hone; by rewrite app_nil_r|]. destruct (is_low d) eqn:El; [|by apply Hone].
  exists (0x10000 + 1024 * (c - 0xd800) + (d - 0xdc00)), (enc4 c d), l. pose proof (decode_enc4 c d Eh El) as E.
  apply is_high_iff in Eh. unfold is_low in El. rewrite andb_true_iff, Z.leb_le, Z.ltb_lt in El.
  assert (units (0x10000 + 1024 * (c - 0xd800) + (d - 0xdc00)) = [c; d]) as Eu.
  { unfold units. zdec. rewrite Z.shiftr_div_pow2 by lia. change 0x3ff with (Z.ones 10). rewrite Z.land_ones by lia.
    change (2 ^ 10) with 1024. f_equal; [|f_equal]; rewrite u16_small; dlia. }
  rewrite Eu. done.
Qed.

Definition bytes (b : list Z) : Prop := Forall (fun x => 0 <= x < 256) b.

Lemma is_cont_nz b : is_cont b = true -> b <> 0.
Proof. by intros H ->. Qed.

(** The sequences that are decoded. *)
Inductive sequence : list Z -> Z -> Z -> Prop :=
  | seq_nul s : sequence (0 :: s) 0 0
  | seq1 b s : b <> 0 -> b < 0x80 -> sequence (b :: s) b 1
  | seq2 b c1 s wc : 0xc2 <= b < 0xe0 -> c1 <> 0 -> wc < 0x10000 -> sequence (b :: c1 :: s) wc 2
  | seq3 b c1 c2 s wc : 0xe0 <= b < 0xf0 -> c1 <> 0 -> c2 <> 0 -> wc < 0x10000 -> sequence (b :: c1 :: c2 :: s) wc 3
  | seq4 b c1 c2 c3 s wc : 0xf0 <= b < 0xf5 -> c1 <> 0 -> c2 <> 0 -> c3 <> 0 -> 0x10000 <= wc ->
      sequence (b :: c1 :: c2 :: c3 :: s) wc 4.

Lemma two_byte_range b c : Z.lor (Z.shiftl (Z.land b 0x1f) 6) (Z.land c 0x3f) < 0x10000.
Proof.
  rewrite Z.shiftl_mul_pow2, Z.mul_comm by lia. change 0x1f with (Z.ones 5). change 0x3f with (Z.ones 6).
  rewrite !Z.land_ones by lia. rewrite lor_high by (lia || apply Z.mod_pos_bound; done). change (2 ^ 6) with 64.
  change (2 ^ 5) with 32. dlia.
Qed.

Lemma unicode_inv s wc m : utf8_to_unicode s = Ok (wc, m) -> sequence s wc m.
Proof.
  unfold utf8_to_unicode. destruct s as [|b s]; [done|]. cbn [deref mbind res_bind].
  destruct (Z.eqb_spec b 0) as [->|]; [intros [= <- <-]; constructor|].
  destruct (Z.ltb_spec b 0x80); [intros [= <- <-]; by constructor|]. destruct (Z.ltb_spec b 0xc2); [done|].
  destruct (Z.ltb_spec b 0xe0); [|destruct (Z.ltb_spec b 0xf0); [|destruct (Z.ltb_spec b 0xf5); [|done]]];
    destruct s as [|c1 s]; try done; change (aget (b :: c1 :: s) 1) with (Ok c1); cbn [mbind res_bind].
  - destruct (is_cont c1) eqn:E1; [|done]. intros [= <- <-].
    constructor; [done|by apply is_cont_nz|apply two_byte_range].
  - destruct (is_cont c1) eqn:E1; [|done]. cbn [negb]. destruct s as [|c2 s]; [done|].
    change (aget (b :: c1 :: c2 :: s) 2) with (Ok c2). cbn [mbind res_bind]. destruct (is_cont c2) eqn:E2; [|done]. cbn [negb].
    set (w := Z.lor _ _). destruct (_ || _ || _) eqn:Ew; [|done]. intros [= <- <-].
    rewrite !orb_true_iff, !andb_true_iff, !Z.leb_le in Ew.
    constructor; [done|by apply is_cont_nz|by apply is_cont_nz|lia].
  - destruct (is_cont c1) eqn:E1; [|done]. cbn [negb]. destruct s as [|c2 s]; [done|].
    change (aget (b :: c1 :: c2 :: s) 2) with (Ok c2). cbn [mbind res_bind]. destruct (is_cont c2) eqn:E2; [|done]. cbn [negb].
    destruct s as [|c3 s]; [done|]. change (aget (b :: c1 :: c2 :: c3 :: s) 3) with (Ok c3). cbn [mbind res_bind].
    destruct (is_cont c3) eqn:E3; [|done]. cbn [negb]. set (w := Z.lor _ _). destruct (_ && _) eqn:Ew; [|done].
    intros [= <- <-]. rewrite andb_true_iff, !Z.leb_le in Ew. constructor; [done|by apply is_cont_nz..|lia].
Qed.

Lemma units_len wc : zlen (units wc) = if wc <? 0x10000 then 1 else 2.
Proof. unfold units. by destruct (wc <? 0x10000). Qed.

(** A decoded character and the count of its units: both look at the same
    bytes. *)
Lemma decode_skip s wc m fuel count : utf8_to_unicode s = Ok (wc, m) -> m <> 0 -> drop (Z.to_nat m) s <> [] ->
  size16_loop (S (S fuel)) s count =
    if PATH_MAX <=? count + zlen (units wc) then Err ENAMETOOLONG
    else size16_loop (S fuel) (drop (Z.to_nat m) s) (count + zlen (units wc)).
Proof.
  intros S%unicode_inv Hm Hd. rewrite units_len.
  destruct S as [| b s Hb Hlt | b c1 s wc Hb H1 Hw | b c1 c2 s wc Hb H1 H2 Hw | b c1 c2 c3 s wc Hb H1 H2 H3 Hw]; [done|..];
    set (fuel' := Datatypes.S fuel); cbn [size16_loop deref tail mbind res_bind]; unfold skip_seq; zdec.
  - by destruct (PATH_MAX <=? _).
  - change (drop (Z.to_nat 2) (b :: c1 :: s)) with s in *. destruct (PATH_MAX <=? _); [done|].
    cbn [deref mbind res_bind tail]. zdec. destruct s as [|x s]; [done|]. cbn [deref mbind res_bind].
    destruct (Z.eqb_spec x 0) as [->|]; [done|]. done.
  - change (drop (Z.to_nat 3) (b :: c1 :: c2 :: s)) with s in *. destruct (PATH_MAX <=? _); [done|].
    cbn [deref mbind res_bind tail]. zdec. cbn [deref mbind res_bind tail]. zdec. destruct s as [|x s]; [done|].
    cbn [deref mbind res_bind]. destruct (Z.eqb_spec x 0) as [->|]; [done|]. done.
  - change (drop (Z.to_nat 4) (b :: c1 :: c2 :: c3 :: s)) with s in *.
    destruct (Z.leb_spec PATH_MAX (count + 1)); [zdec; done|].
    cbn [deref mbind res_bind tail]. zdec. cbn [deref mbind res_bind tail]. zdec. cbn [deref mbind res_bind tail]. zdec.
    replace (count + 1 + 1) with (count + 2) by lia. by destruct (PATH_MAX <=? _).
Qed.

(** ** Round trip *)

(** Induction along the encoded characters. *)
Lemma utf8_ind (P : list Z -> Prop) : P [] ->
  (forall wc seq l, chars l -> utf8_of (units wc ++ l) = seq ++ utf8_of l -> 0 < zlen seq -> units wc <> [] ->
    (forall rest, utf8_to_unicode (seq ++ rest) = Ok (wc, zlen seq)) -> P l -> P (units wc ++ l)) ->
  forall l, chars l -> P l.
Proof.
  intros H0 HS l Hc. remember (length l) as n eqn:En. revert l En Hc. induction n as [n IH] using lt_wf_ind. intros l -> Hc.
  destruct l as [|c l0]; [done|]. set (l := c :: l0) in *.
  destruct (utf8_of_next l Hc ltac:(done)) as (wc & seq & l' & El & Eu & Hs & Hn & Hd).
  clearbody l. subst l. apply Forall_app in Hc as [_ Hc]. apply (HS wc seq); try done. eapply IH; [|done..].
  rewrite length_app. destruct (units wc); [done|]. cbn. lia.
Qed.

Lemma drop_seq {A} (s t : list A) : drop (Z.to_nat (zlen s)) (s ++ t) = t.
Proof. rewrite zlen_to_nat. apply drop_app_length. Qed.

Lemma utf8_of_length l : chars l -> zlen l <= zlen (utf8_of l).
Proof.
  intros Hc. pattern l. apply utf8_ind; [done| |done]. intros wc seq l' _ -> Hs _ Hd IH.
  pose proof (unicode_inv _ _ _ (Hd [])) as S. rewrite !zlen_app, units_len. inversion S; subst; zdec; lia.
Qed.

Lemma size16_of l : chars l -> forall fuel count rest, (length l < fuel)%nat -> 0 <= count -> count + zlen l < PATH_MAX ->
  size16_loop fuel (utf8_of l ++ 0 :: rest) count = Ok (count + zlen l).
Proof.
  intros Hc. pattern l. apply utf8_ind; [| |done].
  { intros [|fuel] count rest Hf _ _; [lia|]. cbn. by rewrite Z.add_0_r. }
  intros wc seq l' _ -> Hs Hn Hd IH fuel count rest Hf H0 Hl. rewrite length_app in Hf. rewrite zlen_app in Hl |- *.
  pose proof (zlen_nonneg l'). pose proof (zlen_nonneg (units wc)).
  destruct fuel as [|[|fuel]]; [destruct (units wc); [done|cbn in *; lia]..|].
  rewrite <- app_assoc. erewrite decode_skip; [|apply Hd|lia|]; rewrite drop_seq; [|by destruct (utf8_of l')].
  zdec. rewrite IH; [f_equal; lia| |lia|lia]. destruct (units wc); [done|]. cbn in Hf. lia.
Qed.

Lemma conv16_of l : chars l -> forall fuel pre mid rest, (length l < fuel)%nat -> zlen mid = zlen l + 1 ->
  conv16_loop fuel (utf8_of l ++ 0 :: rest) (pre ++ mid) (zlen pre) = Ok (pre ++ l ++ [0], zlen pre + zlen l).
Proof.
  intros Hc. pattern l. apply utf8_ind; [| |done].
  { intros [|fuel] pre mid rest Hf Hm; [lia|]. destruct mid as [|x [|y mid]]; rewrite ?zlen_cons, zlen_nil in Hm;
      [lia| |pose proof (zlen_nonneg mid); lia]. cbn [utf8_of app]. cbn. rewrite aset_mid by done. cbn. by rewrite Z.add_0_r. }
  intros wc seq l' _ -> Hs Hn Hd IH fuel pre mid rest Hf Hm. rewrite length_app in Hf. rewrite zlen_app in Hm.
  destruct fuel as [|fuel]; [lia|]. cbn [conv16_loop]. rewrite <- app_assoc, Hd. cbn [mbind res_bind]. zdec.
  pose proof (zlen_nonneg l').
  assert (exists m1 m2, mid = m1 ++ m2 /\ length m1 = length (units wc)) as (m1 & m2 & -> & Em).
  { exists (take (length (units wc)) mid), (drop (length (units wc)) mid). rewrite take_drop. split; [done|].
    unfold zlen in *. rewrite length_take. lia. }
  rewrite awrite_mid by done. cbn [mbind res_bind]. rewrite drop_seq, app_assoc, <- zlen_app.
  rewrite IH; [|destruct (units wc); [done|]; cbn in Hf; lia|rewrite zlen_app in Hm; unfold zlen in *; lia].
  by rewrite !zlen_app, <- !app_assoc, Z.add_assoc.
Qed.

(** ** Arbitrary input *)

Lemma sequence_nul s wc m : sequence s wc m -> m <> 0 -> 0 ∈ s ->
  0 ∈ drop (Z.to_nat m) s /\ (length (drop (Z.to_nat m) s) < length s)%nat.
Proof.
  intros S Hm Hin. destruct S; [done|..]; rewrite !elem_of_cons in Hin;
    (split; [cbn; repeat (destruct Hin as [Hin|Hin]; [lia|]); done|rewrite length_drop; cbn [length]; lia]).
Qed.

Lemma unicode_defined s : 0 ∈ s -> utf8_to_unicode s <> Undef.
Proof.
  intros Hin. destruct s as [|b s]; [by apply not_elem_of_nil in Hin|]. unfold utf8_to_unicode. cbn [deref mbind res_bind].
  destruct (Z.eqb_spec b 0); [done|]. destruct (b <? 0x80); [done|]. destruct (b <? 0xc2); [done|].
  assert (0 ∈ s) as Hs by (apply elem_of_cons in Hin as [|]; [lia|done]).
  destruct s as [|c1 s]; [by apply not_elem_of_nil in Hs|].
  destruct (b <? 0xe0); [|destruct (b <? 0xf0); [|destruct (b <? 0xf5); [|done]]];
    change (aget (b :: c1 :: s) 1) with (Ok c1); cbn [mbind res_bind]; (destruct (is_cont c1) eqn:E1; cbn [negb]; [|done]); [done|..].
  all: assert (0 ∈ s) as Hs1 by (apply elem_of_cons in Hs as [<-|]; [done|done]).
  all: destruct s as [|c2 s]; [by apply not_elem_of_nil in Hs1|].
  all: change (aget (b :: c1 :: c2 :: s) 2) with (Ok c2); cbn [mbind res_bind]; (destruct (is_cont c2) eqn:E2; cbn [negb]; [|done]).
  { by destruct (_ || _). }
  assert (0 ∈ s) as Hs2 by (apply elem_of_cons in Hs1 as [<-|]; [done|done]).
  destruct s as [|c3 s]; [by apply not_elem_of_nil in Hs2|].
  change (aget (b :: c1 :: c2 :: c3 :: s) 3) with (Ok c3). cbn [mbind res_bind]. destruct (is_cont c3); cbn [negb]; [|done].
  by destruct (_ && _).
Qed.

Lemma size16_mono fuel : forall s count k, size16_loop fuel s count = Ok k -> count <= k.
Proof.
  induction fuel as [|fuel IH]; intros s count k; [done|]. cbn [size16_loop]. destruct s as [|b s]; [done|]. cbn [deref mbind res_bind tail].
  destruct (b =? 0); [intros [= ->]; lia|]. destruct (_ <=? _); [done|].
  destruct (skip_seq b s (count + 1)) as [[[s' c']|]| |] eqn:E; [|cbn; intros [= <-]; lia|done..]. cbn [mbind res_bind]. intros H%IH.
  assert (count + 1 <= c'); [|lia]. unfold skip_seq in E. repeat (case_match; res_inv); simplify_eq; try lia.
Qed.

Lemma aget_not_err {A} (l : list A) i e : aget l i <> Err e.
Proof. unfold aget. destruct (_ <? 0); [done|]. by destruct (_ !! _). Qed.

Lemma unicode_err s e : utf8_to_unicode s = Err e -> e = EILSEQ.
Proof.
  unfold utf8_to_unicode. destruct s as [|b s]; [done|]. cbn [deref mbind res_bind]. intros H.
  repeat match type of H with
  | (if ?b then _ else _) = _ => destruct b
  | mbind _ ?m = _ => let E := fresh "E" in destruct m eqn:E; cbn [mbind res_bind] in H; [|by apply aget_not_err in E|]
  end; by simplify_eq.
Qed.

Lemma conv16_safe fuel : forall s outs count shorts, 0 ∈ s -> (length s < fuel)%nat -> 0 <= count ->
  size16_loop fuel s count = Ok shorts -> zlen outs = shorts + 1 ->
  match conv16_loop fuel s outs count with
  | Ok (o, n) => zlen o = shorts + 1 /\ n <= shorts /\ aget o n = Ok 0
  | Err e => e = EILSEQ
  | Undef => False
  end.
Proof.
  induction fuel as [|fuel IH]; intros s outs count shorts Hin Hf Hc Hs Ho; [lia|]. cbn [conv16_loop].
  destruct (utf8_to_unicode s) as [[wc m]|e|] eqn:E; cbn [mbind res_bind]; [| |by apply unicode_defined in E].
  2:{ by apply unicode_err in E. }
  pose proof (unicode_inv _ _ _ E) as S. destruct (Z.eqb_spec m 0) as [->|Hm].
  { inversion S; subst. cbn in Hs. injection Hs as <-. rewrite aset_ok by lia. cbn [mbind res_bind].
    rewrite zlen_insert, aget_insert_eq by lia. split_and!; [done|lia|done]. }
  destruct (sequence_nul _ _ _ S Hm Hin) as [Hin' Hl].
  destruct fuel as [|fuel]; [lia|]. erewrite decode_skip in Hs; [|done|done|by intros E0; rewrite E0 in Hin'; apply not_elem_of_nil in Hin'].
  destruct (_ <=? _); [done|]. pose proof (size16_mono _ _ _ _ Hs). pose proof (zlen_nonneg (units wc)).
  assert (exists o', awrite outs count (units wc) = Ok o' /\ zlen o' = zlen outs) as (o' & -> & Eo).
  { unfold awrite. zdec. eexists. split; [done|]. unfold zlen in *. rewrite !length_app, length_take, length_drop. lia. }
  cbn [mbind res_bind]. apply IH; [done|lia|lia|done|lia].
Qed.

(** Behind a byte that is not NUL there are more. *)
Lemma deref_nul (s : list Z) : 0 ∈ s -> exists c s', s = c :: s' /\ deref s = Ok c /\ (c <> 0 -> 0 ∈ s').
Proof.
  destruct s as [|c s]; [by intros ?%not_elem_of_nil|]. intros Hin. exists c, s. split_and!; [done..|].
  intros Hc. apply elem_of_cons in Hin as [|]; [lia|done].
Qed.

Lemma skip_seq_spec b s count : 0 ∈ s ->
  match skip_seq b s count with
  | Ok None => True
  | Ok (Some (s', _)) => 0 ∈ s' /\ (length s' <= length s)%nat
  | Err e => e = EILSEQ \/ e = ENAMETOOLONG
  | Undef => False
  end.
Proof.
  intros Hs. unfold skip_seq. destruct (b <? 0xc0); [by split|]. destruct (0xf5 <=? b); [by left|].
  destruct (deref_nul s Hs) as (c & s1 & -> & -> & H1). cbn [mbind res_bind tail]. destruct (Z.eqb_spec c 0); [done|].
  specialize (H1 ltac:(done)). destruct (deref_nul s1 H1) as (c1 & s2 & -> & -> & H2). cbn [mbind res_bind tail].
  destruct (Z.eqb_spec c1 0); [done|]. specialize (H2 ltac:(done)). destruct (Z.leb_spec 0xe0 b).
  - destruct (deref_nul s2 H2) as (c2 & s3 & -> & -> & H3). cbn [mbind res_bind tail]. destruct (Z.eqb_spec c2 0); [done|].
    specialize (H3 ltac:(done)). destruct (0xf0 <=? b); [|split; [done|cbn; lia]].
    destruct (_ <=? _); [by right|split; [done|cbn; lia]].
  - cbn [deref mbind res_bind]. zdec. split; [done|cbn; lia].
Qed.

Lemma size16_defined fuel : forall s count, 0 ∈ s -> (length s < fuel)%nat ->
  match size16_loop fuel s count with
  | Ok _ => True
  | Err e => e = EILSEQ \/ e = ENAMETOOLONG
  | Undef => False
  end.
Proof.
  induction fuel as [|fuel IH]; intros s count Hs Hf; [lia|]. cbn [size16_loop].
  destruct (deref_nul s Hs) as (c & s1 & -> & -> & H1). cbn [mbind res_bind tail]. destruct (Z.eqb_spec c 0); [done|].
  specialize (H1 ltac:(done)). destruct (PATH_MAX <=? _); [by right|]. pose proof (skip_seq_spec c s1 (count + 1) H1) as S.
  destruct (skip_seq _ _ _) as [[[s' k]|]|e|]; cbn [mbind res_bind]; [|done..]. apply IH; [apply S|]. cbn in Hf. lia.
Qed.

Lemma utf8_of_bound l : chars l -> zlen (utf8_of l) <= 3 * zlen l.
Proof.
  intros Hc. pattern l. apply utf8_ind; [done| |done]. intros wc seq l' _ -> Hs _ Hd IH.
  pose proof (unicode_inv _ _ _ (Hd [])) as S. rewrite !zlen_app, units_len. inversion S; subst; zdec; lia.
Qed.

(** ** Theorems *)

(** C8: every name of non-zero 16-bit characters, pairs of surrogates and
    stray surrogates included, of up to 1365 characters (NTFS names have at
    most 255) is converted to UTF-8, and the result is converted back to
    exactly this name. *)
Theorem utf16_utf8_roundtrip `{Heap} l :
  (forall n, heap_grants n = true) -> chars l -> 3 * zlen l < PATH_MAX ->
  exists o n, ntfs_utf16_to_utf8 l (zlen l) None 0 = Ok (o, n) /\ ntfs_utf8_to_utf16 o None = Ok (l ++ [0], zlen l).
Proof.
  intros Hg Hc Hl. pose proof (utf8_of_bound l Hc). pose proof (utf8_of_length l Hc) as Hlen.
  assert (holds_string l (Z.to_nat (zlen l)) l) as Hs.
  { exists []. rewrite app_nil_r. split; [done|left; apply zlen_to_nat]. }
  pose proof (utf16_to_utf8_spec l (zlen l) l None 0 Hs Hc ltac:(done)) as S. cbn zeta in S.
  destruct (ntfs_utf16_to_utf8 l (zlen l) None 0) as [[o n]|e|] eqn:E; [| |done].
  2:{ destruct S as [[_ ?]|(_ & _ & Eg)]; [lia|by rewrite Hg in Eg]. }
  destruct S as (_ & _ & rest & -> & _). exists (utf8_of l ++ 0 :: rest), n. split; [done|].
  unfold ntfs_utf8_to_utf16, utf8_to_utf16_size. pose proof (zlen_nonneg l).
  assert (length l < Datatypes.S (length (utf8_of l ++ 0%Z :: rest)))%nat by (rewrite length_app; unfold zlen in Hlen; lia).
  rewrite size16_of by (done || lia). cbn [mbind res_bind]. rewrite Hg. cbn [mbind res_bind].
  set (buf := map heap_junk _). apply (conv16_of l Hc _ [] buf rest); [done|].
  unfold buf, zlen. rewrite length_map, length_seq. unfold zlen. lia.
Qed.

(** a, e acute, the euro sign, a musical symbol, a stray surrogate. *)
Definition ex_name : list Z := [0x61; 0xe9; 0x20ac; 0xd834; 0xdd1e; 0xdc00].

Lemma utf16_utf8_roundtrip_witness : exists o n,
  @ntfs_utf16_to_utf8 ample_heap ex_name 6 None 0 = Ok (o, n) /\ @ntfs_utf8_to_utf16 ample_heap o None = Ok (ex_name ++ [0], 6).
Proof. exact (@utf16_utf8_roundtrip ample_heap ex_name (fun _ => eq_refl) ltac:(compute_decide) ltac:(vm_compute; reflexivity)). Defined.

(** C36: the conversion of a name to UTF-8 writes exactly its UTF-8 form and a
    terminator, and nothing behind the end of the buffer, whether the buffer
    is given or allocated; it fails exactly when the form does not fit (or
    there is no memory).  The name ends after [ins_len] characters or at a
    NUL. *)
Theorem utf16_to_utf8_correct `{Heap} ins ins_len l outs outs_len : holds_string ins (Z.to_nat ins_len) l -> chars l ->
  (forall o, outs = Some o -> zlen o = outs_len /\ 0 < outs_len) ->
  let limit := match outs with None => PATH_MAX | Some _ => outs_len end in
  match ntfs_utf16_to_utf8 ins ins_len outs outs_len with
  | Ok (o, n) => zlen (utf8_of l) < limit /\ n = zlen (utf8_of l) /\ exists rest, o = utf8_of l ++ 0 :: rest /\
      zlen o = match outs with None => zlen (utf8_of l) + 1 | Some _ => outs_len end
  | Err e => (e = ENAMETOOLONG /\ limit <= zlen (utf8_of l)) \/
             (e = ENOMEM /\ outs = None /\ heap_grants (zlen (utf8_of l) + 1) = false)
  | Undef => False
  end.
Proof. apply utf16_to_utf8_spec. Qed.

Lemma utf16_to_utf8_correct_witness : exists o n,
  @ntfs_utf16_to_utf8 ample_heap ex_name 6 (Some (repeat 7 16)) 16 = Ok (o, n) /\ n = 13.
Proof.
  pose proof (@utf16_to_utf8_correct ample_heap ex_name 6 ex_name (Some (repeat 7 16)) 16
    ltac:(exists []; split; [reflexivity|left; reflexivity]) ltac:(compute_decide)
    ltac:(intros o [= <-]; split; reflexivity)) as W.
  destruct (ntfs_utf16_to_utf8 _ _ _ _) as [[o n]| |] eqn:E in W; [|by vm_compute in E..].
  exists o, n. split; [exact E|]. destruct W as (_ & -> & _). reflexivity.
Defined.

(** C35: on any bytes that contain a NUL, the conversion to UTF-16 reads nothing
    behind the NUL and writes nothing behind the buffer it has allocated from
    the count of the first pass: both passes agree on the characters.  It
    returns a terminated string, or EILSEQ, ENAMETOOLONG or ENOMEM. *)
Theorem utf8_to_utf16_safe `{Heap} s : 0 ∈ s ->
  match ntfs_utf8_to_utf16 s None with
  | Ok (o, n) => utf8_to_utf16_size s = Ok (zlen o - 1) /\ n < zlen o /\ aget o n = Ok 0
  | Err e => e = EILSEQ \/ e = ENAMETOOLONG \/ e = ENOMEM
  | Undef => False
  end.
Proof.
  intros Hin. unfold ntfs_utf8_to_utf16. pose proof (size16_defined (S (length s)) s 0 Hin ltac:(lia)) as D.
  change (size16_loop (S (length s)) s 0) with (utf8_to_utf16_size s) in D.
  destruct (utf8_to_utf16_size s) as [shorts|e|] eqn:Hs; cbn [mbind res_bind]; [|tauto|done].
  destruct (heap_grants _); cbn [mbind res_bind]; [|tauto]. pose proof (size16_mono _ _ _ _ Hs).
  pose proof (conv16_safe (S (length s)) s (map heap_junk (seq 0 (Z.to_nat (shorts + 1)))) 0 shorts Hin ltac:(lia) ltac:(lia) Hs) as W.
  destruct (conv16_loop _ _ _ _) as [[o n]|e|]; specialize (W ltac:(unfold zlen; rewrite length_map, length_seq; lia)); [|by left|done].
  destruct W as (Wo & Wn & W0). rewrite Wo. split_and!; [f_equal; lia|lia|done].
Qed.

Lemma utf8_to_utf16_safe_witness :
  exists e, @ntfs_utf8_to_utf16 ample_heap [0x61; 0xf0; 0x9d; 0] None = Err e /\ (e = EILSEQ \/ e = ENAMETOOLONG \/ e = ENOMEM).
Proof.
  pose proof (@utf8_to_utf16_safe ample_heap [0x61; 0xf0; 0x9d; 0] ltac:(compute_decide)) as W.
  destruct (ntfs_utf8_to_utf16 _ _) as [|e|] eqn:E in W; [by vm_compute in E| |by vm_compute in E].
  exists e. split; [exact E|exact W].
Defined.

(** Two byte strings for one name: surrogates that are encoded one by one are
    accepted, and the pair they form has a form of its own. *)
Theorem utf8_forms_not_unique :
  @ntfs_utf8_to_utf16 ample_heap [0xed; 0xa0; 0xb4; 0xed; 0xb4; 0x9e; 0] None
  = @ntfs_utf8_to_utf16 ample_heap [0xf0; 0x9d; 0x84; 0x9e; 0] None.
Proof. vm_compute. reflexivity. Qed.

(** The upper case of an invalid string: the terminator goes to freed memory. *)
Theorem uppercase_mbs_use_after_free : @ntfs_uppercase_mbs ample_heap [0x61; 0x80; 0] 2 [] 0 = Undef.
Proof. vm_compute. reflexivity. Qed.
