(* ===== verification/Upcase.v ===== *)
(** The default upcase table, its inverse, and the checks of file names that
    use it (libntfs/unistr.c). *)

From S2P Require Import Prelude Unistr.

Definition UPCASE_MAJOR : Z := 6.
Definition UPCASE_MINOR : Z := 1.
Definition UPCASE_LEN : Z := 65536.

(** ** Tables *)

Definition uc_run_table : list (Z * Z * Z) := [
    (0x0061, 0x007B, (-32)); (0x0451, 0x045D, (-80)); (0x1F70, 0x1F72, 74); (0x00E0, 0x00F7, (-32));
    (0x045E, 0x0460, (-80)); (0x1F72, 0x1F76, 86); (0x00F8, 0x00FF, (-32)); (0x0561, 0x0587, (-48));
    (0x1F76, 0x1F78, 100); (0x0256, 0x0258, (-205)); (0x1F00, 0x1F08, 8); (0x1F78, 0x1F7A, 128);
    (0x028A, 0x028C, (-217)); (0x1F10, 0x1F16, 8); (0x1F7A, 0x1F7C, 112); (0x03AC, 0x03AD, (-38));
    (0x1F20, 0x1F28, 8); (0x1F7C, 0x1F7E, 126); (0x03AD, 0x03B0, (-37)); (0x1F30, 0x1F38, 8);
    (0x1FB0, 0x1FB2, 8); (0x03B1, 0x03C2, (-32)); (0x1F40, 0x1F46, 8); (0x1FD0, 0x1FD2, 8);
    (0x03C2, 0x03C3, (-31)); (0x1F51, 0x1F52, 8); (0x1FE0, 0x1FE2, 8); (0x03C3, 0x03CC, (-32));
    (0x1F53, 0x1F54, 8); (0x1FE5, 0x1FE6, 7); (0x03CC, 0x03CD, (-64)); (0x1F55, 0x1F56, 8);
    (0x2170, 0x2180, (-16)); (0x03CD, 0x03CF, (-63)); (0x1F57, 0x1F58, 8); (0x24D0, 0x24EA, (-26));
    (0x0430, 0x0450, (-32)); (0x1F60, 0x1F68, 8); (0xFF41, 0xFF5B, (-32))].

Definition uc_dup_table : list (Z * Z) := [
    (0x0100, 0x012F); (0x01A0, 0x01A6); (0x03E2, 0x03EF); (0x04CB, 0x04CC); (0x0132, 0x0137); (0x01B3, 0x01B7);
    (0x0460, 0x0481); (0x04D0, 0x04EB); (0x0139, 0x0149); (0x01CD, 0x01DD); (0x0490, 0x04BF); (0x04EE, 0x04F5);
    (0x014A, 0x0178); (0x01DE, 0x01EF); (0x04BF, 0x04BF); (0x04F8, 0x04F9); (0x0179, 0x017E); (0x01F4, 0x01F5);
    (0x04C1, 0x04C4); (0x1E00, 0x1E95); (0x018B, 0x018B); (0x01FA, 0x0218); (0x04C7, 0x04C8); (0x1EA0, 0x1EF9)].

Definition uc_byte_table : list (Z * Z) := [
    (0x00FF, 0x0178); (0x01AD, 0x01AC); (0x01F3, 0x01F1); (0x0269, 0x0196); (0x0183, 0x0182); (0x01B0, 0x01AF);
    (0x0253, 0x0181); (0x026F, 0x019C); (0x0185, 0x0184); (0x01B9, 0x01B8); (0x0254, 0x0186); (0x0272, 0x019D);
    (0x0188, 0x0187); (0x01BD, 0x01BC); (0x0259, 0x018F); (0x0275, 0x019F); (0x018C, 0x018B); (0x01C6, 0x01C4);
    (0x025B, 0x0190); (0x0283, 0x01A9); (0x0192, 0x0191); (0x01C9, 0x01C7); (0x0260, 0x0193); (0x0288, 0x01AE);
    (0x0199, 0x0198); (0x01CC, 0x01CA); (0x0263, 0x0194); (0x0292, 0x01B7); (0x01A8, 0x01A7); (0x01DD, 0x018E);
    (0x0268, 0x0197)].

Definition newuppercase : list (Z * Z * Z * Z * Z * Z) := [
    (0x37b, 0x37d, 0x82, 1, 6, 0); (0x1f80, 0x1f87, 0x8, 1, 6, 0); (0x1f90, 0x1f97, 0x8, 1, 6, 0);
    (0x1fa0, 0x1fa7, 0x8, 1, 6, 0); (0x2c30, 0x2c5e, (-0x30), 1, 6, 0); (0x2d00, 0x2d25, (-0x1c60), 1, 6, 0);
    (0x2c68, 0x2c6c, (-0x1), 2, 6, 0); (0x219, 0x21f, (-0x1), 2, 6, 0); (0x223, 0x233, (-0x1), 2, 6, 0);
    (0x247, 0x24f, (-0x1), 2, 6, 0); (0x3d9, 0x3e1, (-0x1), 2, 6, 0); (0x48b, 0x48f, (-0x1), 2, 6, 0);
    (0x4fb, 0x513, (-0x1), 2, 6, 0); (0x2c81, 0x2ce3, (-0x1), 2, 6, 0); (0x3f8, 0x3fb, (-0x1), 3, 6, 0);
    (0x4c6, 0x4ce, (-0x1), 4, 6, 0); (0x23c, 0x242, (-0x1), 6, 6, 0); (0x4ed, 0x4f7, (-0x1), 10, 6, 0);
    (0x450, 0x45d, (-0x50), 13, 6, 0); (0x2c61, 0x2c76, (-0x1), 21, 6, 0); (0x1fcc, 0x1ffc, (-0x9), 48, 6, 0);
    (0x180, 0x180, 0xc3, 1, 6, 0); (0x195, 0x195, 0x61, 1, 6, 0); (0x19a, 0x19a, 0xa3, 1, 6, 0);
    (0x19e, 0x19e, 0x82, 1, 6, 0); (0x1bf, 0x1bf, 0x38, 1, 6, 0); (0x1f9, 0x1f9, (-0x1), 1, 6, 0);
    (0x23a, 0x23a, 0x2a2b, 1, 6, 0); (0x23e, 0x23e, 0x2a28, 1, 6, 0); (0x26b, 0x26b, 0x29f7, 1, 6, 0);
    (0x27d, 0x27d, 0x29e7, 1, 6, 0); (0x280, 0x280, (-0xda), 1, 6, 0); (0x289, 0x289, (-0x45), 1, 6, 0);
    (0x28c, 0x28c, (-0x47), 1, 6, 0); (0x3f2, 0x3f2, 0x7, 1, 6, 0); (0x4cf, 0x4cf, (-0xf), 1, 6, 0);
    (0x1d7d, 0x1d7d, 0xee6, 1, 6, 0); (0x1fb3, 0x1fb3, 0x9, 1, 6, 0); (0x214e, 0x214e, (-0x1c), 1, 6, 0);
    (0x2184, 0x2184, (-0x1), 1, 6, 0); (0x23a, 0x23e, 0x0, 4, 6, 1); (0x250, 0x250, 0x2a1f, 2, 6, 1);
    (0x251, 0x251, 0x2a1c, 2, 6, 1); (0x271, 0x271, 0x29fd, 2, 6, 1); (0x371, 0x373, (-0x1), 2, 6, 1);
    (0x377, 0x377, (-0x1), 2, 6, 1); (0x3c2, 0x3c2, 0x0, 2, 6, 1); (0x3d7, 0x3d7, (-0x8), 2, 6, 1);
    (0x515, 0x523, (-0x1), 2, 6, 1); (0x1d79, 0x1d79, (-0x75fc), 2, 6, 1); (0x1efb, 0x1eff, (-0x1), 2, 6, 1);
    (0x1fc3, 0x1ff3, 0x9, 48, 6, 1); (0x1fcc, 0x1ffc, 0x0, 48, 6, 1); (0x2c65, 0x2c65, (-0x2a2b), 2, 6, 1);
    (0x2c66, 0x2c66, (-0x2a28), 2, 6, 1); (0x2c73, 0x2c73, (-0x1), 2, 6, 1); (0xa641, 0xa65f, (-0x1), 2, 6, 1);
    (0xa663, 0xa66d, (-0x1), 2, 6, 1); (0xa681, 0xa697, (-0x1), 2, 6, 1); (0xa723, 0xa72f, (-0x1), 2, 6, 1);
    (0xa733, 0xa76f, (-0x1), 2, 6, 1); (0xa77a, 0xa77c, (-0x1), 2, 6, 1); (0xa77f, 0xa787, (-0x1), 2, 6, 1);
    (0xa78c, 0xa78c, (-0x1), 2, 6, 1)].

(** ** Construction *)

(** [for (i = first; ...; i += step) uc[i] = cpu_to_le16(i + off);], [n] times. *)
Fixpoint set_range (n : nat) (i step off : Z) (uc : list Z) : res (list Z) :=
  match n with
  | O => Ok uc
  | S n => uc ← aset uc i (u16 (i + off)); set_range n (i + step) step off uc
  end.

(** [for (i = start; i < end; i += 2) uc[i + 1] = cpu_to_le16(i);], [n] times. *)
Fixpoint set_dups (n : nat) (i : Z) (uc : list Z) : res (list Z) :=
  match n with
  | O => Ok uc
  | S n => uc ← aset uc (i + 1) (u16 i); set_dups n (i + 2) uc
  end.

Fixpoint run_tables (t : list (Z * Z * Z)) (uc : list Z) : res (list Z) :=
  match t with
  | [] => Ok uc
  | (first, last, off) :: t => uc ← set_range (Z.to_nat (last - first)) first 1 off uc; run_tables t uc
  end.

Fixpoint dup_tables (t : list (Z * Z)) (uc : list Z) : res (list Z) :=
  match t with
  | [] => Ok uc
  | (first, last) :: t => uc ← set_dups (Z.to_nat ((last - first + 1) / 2)) first uc; dup_tables t uc
  end.

Fixpoint byte_tables (t : list (Z * Z)) (uc : list Z) : res (list Z) :=
  match t with
  | [] => Ok uc
  | (i, k) :: t => uc ← aset uc i (u16 k); byte_tables t uc
  end.

Fixpoint new_tables (t : list (Z * Z * Z * Z * Z * Z)) (uc : list Z) : res (list Z) :=
  match t with
  | [] => Ok uc
  | (first, last, diff, step, osmajor, osminor) :: t =>
      uc ← (if (osmajor <? UPCASE_MAJOR) || ((osmajor =? UPCASE_MAJOR) && (osminor <=? UPCASE_MINOR))
            then set_range (Z.to_nat ((last - first) / step + 1)) first step diff uc else Ok uc);
      new_tables t uc
  end.

Fixpoint identity (n : nat) (i : Z) : list Z := match n with O => [] | S n => u16 i :: identity n (i + 1) end.

(** The table in a buffer of [uc_len] bytes. *)
Definition ntfs_upcase_table_build (uc_len : Z) : res (list Z) :=
  let n := Z.shiftr uc_len 1 in
  let m := if 65536 <? n then 65536 else n in
  let uc := identity (Z.to_nat m) 0 ++ repeat 0 (Z.to_nat (n - m)) in
  uc ← run_tables uc_run_table uc;
  uc ← dup_tables uc_dup_table uc;
  uc ← byte_tables uc_byte_table uc;
  new_tables newuppercase uc.

(** The table and the number of its entries. *)
Definition ntfs_upcase_build_default `{Heap} : res (option (list Z) * Z) :=
  if heap_grants (UPCASE_LEN * 2) then uc ← ntfs_upcase_table_build (UPCASE_LEN * 2); Ok (Some uc, UPCASE_LEN)
  else Ok (None, 0).

(** [n] entries of [uc] are left, from [i] on. *)
Fixpoint locase_loop (n : nat) (i : Z) (uc : list Z) (uc_cnt : Z) (lc : list Z) : res (list Z) :=
  match n with
  | O => Ok lc
  | S n =>
      upp ← deref uc;
      lc ← (if negb (upp =? i) && (upp <? uc_cnt) then aset lc upp (u16 i) else Ok lc);
      locase_loop n (i + 1) (tail uc) uc_cnt lc
  end.

Definition ntfs_locase_table_build `{Heap} (uc : list Z) (uc_cnt : Z) : res (option (list Z)) :=
  if heap_grants (uc_cnt * 2) then
    lc ← locase_loop (Z.to_nat uc_cnt) 0 uc uc_cnt (identity (Z.to_nat uc_cnt) 0); Ok (Some lc)
  else Ok None.

(** ** Names *)

Definition mainset : Z :=
  fold_right Z.lor 0 (map (fun c => Z.shiftl 1 (c - 0x20)) [0x22; 0x2a; 0x2f; 0x3a; 0x3c; 0x3e; 0x3f]).

Definition bad_char (ch : Z) : bool :=
  (ch <? 0x20) || ((ch <? 0x40) && negb (Z.land (Z.shiftl 1 (ch - 0x20)) mainset =? 0)) || (ch =? 0x5c) || (ch =? 0x7c).

Fixpoint bad_chars (n : nat) (name : list Z) (forbidden : bool) : res bool :=
  match n with
  | O => Ok forbidden
  | S n => ch ← deref name; bad_chars n (tail name) (if bad_char ch then true else forbidden)
  end.

Definition ntfs_forbidden_chars (name : list Z) (len : Z) (strict : bool) : res bool :=
  forbidden ← (if len =? 0 then Ok true else
               if strict then c ← aget name (len - 1); Ok ((c =? 0x20) || (c =? 0x2e)) else Ok false);
  bad_chars (Z.to_nat len) name forbidden.

Definition con : list Z := [0x63; 0x6f; 0x6e].
Definition prn : list Z := [0x70; 0x72; 0x6e].
Definition aux : list Z := [0x61; 0x75; 0x78].
Definition nul : list Z := [0x6e; 0x75; 0x6c].
Definition com : list Z := [0x63; 0x6f; 0x6d].
Definition lpt : list Z := [0x6c; 0x70; 0x74].

(** The hash of the first two characters. *)
Definition name_hash (c0 c1 : Z) : Z := Z.lxor (Z.land c0 31 * 48) (Z.land c1 31 * 165).

(** [!ntfs_ucsncasecmp(name, w, 3, ...)] *)
Definition is_word (upcase : list Z) (upcase_len : Z) (name w : list Z) : res bool :=
  r ← ntfs_ucsncasecmp upcase upcase_len name w 3; Ok (r =? 0).

(** [(len == n) || (name[n] == dot)] *)
Definition ends_at (name : list Z) (len n : Z) : res bool :=
  if len =? n then Ok true else c ← aget name n; Ok (c =? 0x2e).

(** CON and the like. *)
Definition word_of_3 (upcase : list Z) (upcase_len : Z) (name : list Z) (len : Z) (w : list Z) : res bool :=
  e ← ends_at name len 3;
  if (e : bool) then is_word upcase upcase_len name w else Ok false.

(** COM1 and the like. *)
Definition word_of_4 (upcase : list Z) (upcase_len : Z) (name : list Z) (len : Z) (w : list Z) : res bool :=
  if len <=? 3 then Ok false else
  c ← aget name 3;
  if (c <? 0x31) || (0x39 <? c) then Ok false else
  e ← ends_at name len 4;
  if (e : bool) then is_word upcase upcase_len name w else Ok false.

Definition ntfs_forbidden_names (upcase : list Z) (upcase_len : Z) (name : list Z) (len : Z) (strict : bool) : res bool :=
  forbidden ← ntfs_forbidden_chars name len strict;
  if negb (forbidden : bool) && (3 <=? len) then
    c0 ← aget name 0;
    c1 ← aget name 1;
    if Z.rem (name_hash c0 c1) 23 =? 17 then
      c2 ← aget name 2;
      let k := Z.land c2 (Z.lnot 0x20) in
      if k =? 0x4e then
        a ← word_of_3 upcase upcase_len name len con;
        if (a : bool) then Ok true else word_of_3 upcase upcase_len name len prn
      else if k =? 0x58 then word_of_3 upcase upcase_len name len aux
      else if k =? 0x4c then word_of_3 upcase upcase_len name len nul
      else if k =? 0x4d then word_of_4 upcase upcase_len name len com
      else if k =? 0x54 then word_of_4 upcase upcase_len name len lpt
      else Ok false
    else Ok false
  else Ok forbidden.

(** [n] characters are left. *)
Fixpoint collapsible_loop (n : nat) (upcase : list Z) (upcase_len : Z) (shortname longname : list Z) : res bool :=
  match n with
  | O => Ok true
  | S n =>
      ch ← deref longname;
      cs ← deref shortname;
      differ ← (if cs =? ch then Ok false else
                if (upcase_len <=? ch) || (upcase_len <=? cs) then Ok true else
                us ← aget upcase cs;
                uh ← aget upcase ch;
                Ok (negb (us =? uh)));
      if (differ : bool) then Ok false else collapsible_loop n upcase upcase_len (tail shortname) (tail longname)
  end.

Definition ntfs_collapsible_chars (upcase : list Z) (upcase_len : Z) (shortname : list Z) (shortlen : Z)
    (longname : list Z) (longlen : Z) : res bool :=
  if shortlen =? longlen then collapsible_loop (Z.to_nat shortlen) upcase upcase_len shortname longname else Ok false.

(** * Proofs *)

(** ** The updates of the table *)

Fixpoint apply_all (us : list (Z * Z)) (uc : list Z) : res (list Z) :=
  match us with [] => Ok uc | (i, v) :: us => uc ← aset uc i v; apply_all us uc end.

(** What the updates leave at [j]. *)
Fixpoint last_of (us : list (Z * Z)) (j : Z) : option Z :=
  match us with
  | [] => None
  | (i, v) :: us => match last_of us j with Some w => Some w | None => if i =? j then Some v else None end
  end.

Fixpoint range_updates (n : nat) (i step off : Z) : list (Z * Z) :=
  match n with O => [] | S n => (i, u16 (i + off)) :: range_updates n (i + step) step off end.

Fixpoint dup_updates (n : nat) (i : Z) : list (Z * Z) :=
  match n with O => [] | S n => (i + 1, u16 i) :: dup_updates n (i + 2) end.

Definition updates : list (Z * Z) :=
  flat_map (fun '(first, last, off) => range_updates (Z.to_nat (last - first)) first 1 off) uc_run_table ++
  flat_map (fun '(first, last) => dup_updates (Z.to_nat ((last - first + 1) / 2)) first) uc_dup_table ++
  map (fun '(i, k) => (i, u16 k)) uc_byte_table ++
  flat_map (fun '(first, last, diff, step, osmajor, osminor) =>
    if (osmajor <? UPCASE_MAJOR) || ((osmajor =? UPCASE_MAJOR) && (osminor <=? UPCASE_MINOR))
    then range_updates (Z.to_nat ((last - first) / step + 1)) first step diff else []) newuppercase.

Lemma apply_all_app us vs uc : apply_all (us ++ vs) uc = uc ← apply_all us uc; apply_all vs uc.
Proof.
  revert uc. induction us as [|[i v] us IH]; intros uc; [done|]. cbn. destruct (aset uc i v); cbn; [apply IH|done..].
Qed.

Lemma set_range_updates n : forall i step off uc, set_range n i step off uc = apply_all (range_updates n i step off) uc.
Proof. induction n as [|n IH]; intros; [done|]. cbn. destruct (aset uc i _); cbn; [apply IH|done..]. Qed.

Lemma set_dups_updates n : forall i uc, set_dups n i uc = apply_all (dup_updates n i) uc.
Proof. induction n as [|n IH]; intros; [done|]. cbn. destruct (aset uc _ _); cbn; [apply IH|done..]. Qed.

Lemma table_updates uc :
  (uc ← run_tables uc_run_table uc; uc ← dup_tables uc_dup_table uc; uc ← byte_tables uc_byte_table uc; new_tables newuppercase uc)
  = apply_all updates uc.
Proof.
  assert (forall t uc, run_tables t uc = apply_all (flat_map (fun '(first, last, off) =>
    range_updates (Z.to_nat (last - first)) first 1 off) t) uc) as E1.
  { induction t as [|[[a b] o] t IH]; intros u; [done|]. cbn. rewrite set_range_updates, apply_all_app.
    destruct (apply_all _ u); cbn; [apply IH|done..]. }
  assert (forall t uc, dup_tables t uc = apply_all (flat_map (fun '(first, last) =>
    dup_updates (Z.to_nat ((last - first + 1) / 2)) first) t) uc) as E2.
  { induction t as [|[a b] t IH]; intros u; [done|]. cbn [dup_tables flat_map]. rewrite set_dups_updates, apply_all_app.
    destruct (apply_all _ u); cbn [mbind res_bind]; [apply IH|done..]. }
  assert (forall t uc, byte_tables t uc = apply_all (map (fun '(i, k) => (i, u16 k)) t) uc) as E3.
  { induction t as [|[a b] t IH]; intros u; [done|]. cbn. destruct (aset u _ _); cbn; [apply IH|done..]. }
  assert (forall t uc, new_tables t uc = apply_all (flat_map (fun '(first, last, diff, step, osmajor, osminor) =>
    if (osmajor <? UPCASE_MAJOR) || ((osmajor =? UPCASE_MAJOR) && (osminor <=? UPCASE_MINOR))
    then range_updates (Z.to_nat ((last - first) / step + 1)) first step diff else []) t) uc) as E4.
  { induction t as [|[[[[[a b] d] st] mj] mn] t IH]; intros u; [done|]. cbn [new_tables flat_map]. rewrite apply_all_app.
    destruct (_ || _); [rewrite set_range_updates; destruct (apply_all _ u)|]; cbn [mbind res_bind apply_all]; try done; apply IH. }
  unfold updates. rewrite E1, !apply_all_app. destruct (apply_all _ uc) as [u| |]; [|done..]. cbn [mbind res_bind].
  rewrite E2, apply_all_app. destruct (apply_all _ u) as [u'| |]; [|done..]. cbn [mbind res_bind].
  rewrite E3, apply_all_app. destruct (apply_all _ u'); [|done..]. cbn [mbind res_bind]. apply E4.
Qed.

Lemma apply_all_spec us : forall uc, Forall (fun '(i, _) => 0 <= i < zlen uc) us -> exists uc',
  apply_all us uc = Ok uc' /\ zlen uc' = zlen uc /\
  forall j, aget uc' j = match last_of us j with Some v => Ok v | None => aget uc j end.
Proof.
  induction us as [|[i v] us IH]; intros uc Hu; [by exists uc|]. apply Forall_cons_1 in Hu as [Hi Hu].
  cbn [apply_all last_of]. rewrite aset_ok by done. cbn [mbind res_bind].
  destruct (IH (<[Z.to_nat i := v]> uc)) as (uc' & -> & El & Ej); [by rewrite zlen_insert|].
  exists uc'. split; [done|]. rewrite El, zlen_insert. split; [done|]. intros j. rewrite Ej.
  destruct (last_of us j); [done|]. destruct (Z.eqb_spec i j) as [<-|]; [by apply aget_insert_eq|apply aget_insert_ne; [lia|done]].
Qed.

Lemma identity_get n : forall i j, 0 <= i -> i + Z.of_nat n <= 65536 -> 0 <= j < Z.of_nat n -> aget (identity n i) j = Ok (i + j).
Proof.
  induction n as [|n IH]; intros i j Hi Hn Hj; [lia|]. cbn [identity]. rewrite u16_small by lia.
  destruct (Z.eq_dec j 0) as [->|]; [by rewrite Z.add_0_r|]. change (i :: ?l) with ([i] ++ l).
  rewrite aget_app_r by (change (zlen [i]) with 1; lia). change (zlen [i]) with 1. rewrite IH by lia. f_equal. lia.
Qed.

Lemma identity_len n : forall i, zlen (identity n i) = Z.of_nat n.
Proof. induction n as [|n IH]; intros i; [done|]. cbn [identity]. rewrite zlen_cons, IH. lia. Qed.

(** The upper case by the default table. *)
Definition upval (u : Z) : Z := match last_of updates u with Some v => v | None => u end.

Lemma last_of_elem us j v : last_of us j = Some v -> In (j, v) us.
Proof.
  induction us as [|[i w] us IH]; [done|]. cbn. destruct (last_of us j) as [x|].
  - intros [= ->]. right. by apply IH.
  - destruct (Z.eqb_spec i j) as [->|]; [|done]. intros [= ->]. by left.
Qed.

Lemma last_of_none us j v : last_of us j = None -> ~ In (j, v) us.
Proof.
  induction us as [|[i w] us IH]; [by intros _ []|]. cbn. destruct (last_of us j); [done|].
  destruct (Z.eqb_spec i j); [done|]. intros _ [[= -> ->]|Hin]; [done|]. by apply IH.
Qed.

Lemma changed_elem u : upval u <> u -> exists w, In (u, w) updates.
Proof.
  unfold upval. destruct (last_of updates u) as [v|] eqn:E; [intros _|congruence]. exists v. exact (last_of_elem _ _ _ E).
Qed.

(** What the updates satisfy, every character does. *)
Lemma upval_ind (P : Z -> bool) u : forallb (fun '(i, _) => P i) updates = true -> (upval u = u -> P u = true) -> P u = true.
Proof.
  intros F Hid. unfold upval in Hid. destruct (last_of updates u) as [v|] eqn:E; [|by apply Hid].
  apply last_of_elem in E. rewrite forallb_forall in F. exact (F _ E).
Qed.

Lemma upval_idem u : upval (upval u) = upval u.
Proof.
  apply Z.eqb_eq. apply (upval_ind (fun u => upval (upval u) =? upval u)); [vm_compute; reflexivity|].
  intros E. rewrite !E. apply Z.eqb_refl.
Qed.

Lemma upval_range u : 0 <= u < 65536 -> 0 <= upval u < 65536.
Proof.
  intros Hu. pose proof (upval_ind (fun u => negb ((0 <=? u) && (u <? 65536)) || (0 <=? upval u) && (upval u <? 65536)) u
    ltac:(vm_compute; reflexivity)) as H. cbn beta in H.
  rewrite (proj2 (Z.leb_le 0 u)), (proj2 (Z.ltb_lt u 65536)) in H by lia. cbn [andb negb orb] in H.
  rewrite andb_true_iff, Z.leb_le, Z.ltb_lt in H. apply H. intros ->. lia.
Qed.

(** Only the letters a to z change within ASCII, and nothing else comes to it. *)
Lemma upval_ascii u : upval u < 0x80 -> upval u = if (0x61 <=? u) && (u <=? 0x7a) then u - 32 else u.
Proof.
  intros Hu. pose proof (upval_ind (fun u => (0x80 <=? upval u) || (upval u =? if (0x61 <=? u) && (u <=? 0x7a) then u - 32 else u)) u
    ltac:(vm_compute; reflexivity)) as H. cbn beta in H.
  destruct (Z.leb_spec 0x80 (upval u)); [lia|]. cbn [orb] in H. apply Z.eqb_eq, H. intros E. rewrite E.
  destruct (_ && _) eqn:Ea; [|apply Z.eqb_refl].
  pose proof (forall_range (fun u => negb (upval u =? u)) 0x61 26 u ltac:(vm_compute; reflexivity)) as Hne.
  rewrite andb_true_iff, !Z.leb_le in Ea. specialize (Hne ltac:(lia)). cbn beta in Hne. by rewrite E, Z.eqb_refl in Hne.
Qed.

Definition pairs : list (Z * Z) := map (fun '(i, _) => (i, upval i)) updates.

Definition one_lower (ps : list (Z * Z)) : bool :=
  forallb (fun '(i, v) => (i =? v) || forallb (fun '(j, w) => (j =? w) || negb (w =? v) || (j =? i)) ps) ps.

Lemma one_lower_spec ps i j v : one_lower ps = true -> In (i, v) ps -> In (j, v) ps -> v <> i -> v <> j -> i = j.
Proof.
  intros H Hi Hj Hiv Hjv. unfold one_lower in H. rewrite forallb_forall in H. specialize (H _ Hi). cbn beta iota in H.
  apply orb_true_iff in H as [H%Z.eqb_eq|H]; [congruence|]. rewrite forallb_forall in H. specialize (H _ Hj). cbn beta iota in H.
  rewrite !orb_true_iff, negb_true_iff, !Z.eqb_eq, Z.eqb_neq in H. destruct H as [[H|H]|H]; congruence.
Qed.

Lemma one_lower_pairs : one_lower pairs = true.
Proof. vm_compute. reflexivity. Qed.

Lemma changed_pair k : upval k <> k -> In (k, upval k) pairs.
Proof. intros [w Hw]%changed_elem. apply in_map_iff. exists (k, w). split; [reflexivity|exact Hw]. Qed.

(** No two lower case characters have the same upper case. *)
Lemma upval_inj i j : upval i = upval j -> upval i <> i -> upval j <> j -> i = j.
Proof.
  intros E Hi Hj. apply (one_lower_spec pairs i j (upval i)); [exact one_lower_pairs|by apply changed_pair| |done|by rewrite E].
  rewrite E. by apply changed_pair.
Qed.

Lemma table_spec : exists uc, ntfs_upcase_table_build (UPCASE_LEN * 2) = Ok uc /\ zlen uc = 65536 /\
  forall j, 0 <= j < 65536 -> aget uc j = Ok (upval j).
Proof.
  unfold ntfs_upcase_table_build. change (Z.shiftr (UPCASE_LEN * 2) 1) with 65536. cbn [Z.ltb Z.compare Pos.compare Pos.compare_cont].
  change (Z.to_nat (65536 - 65536)) with O. cbn [repeat]. rewrite app_nil_r, table_updates.
  pose proof (identity_len (Z.to_nat 65536) 0) as El. rewrite Z2Nat.id in El by lia.
  destruct (apply_all_spec updates (identity (Z.to_nat 65536) 0)) as (uc & -> & Eu & Ej).
  { rewrite El. apply Forall_forall. intros [i v] Hi.
    assert (forallb (fun '(i, _) => (0 <=? i) && (i <? 65536)) updates = true) as F by (vm_compute; reflexivity).
    rewrite forallb_forall in F. specialize (F _ Hi). cbn in F. rewrite andb_true_iff, Z.leb_le, Z.ltb_lt in F. exact F. }
  exists uc. split; [done|]. rewrite Eu, El. split; [done|]. intros j Hj. rewrite Ej. unfold upval.
  destruct (last_of updates j); [done|]. rewrite identity_get by lia. done.
Qed.

(** ** The table for lower case *)

Fixpoint loc_updates (i : Z) (uc : list Z) (cnt : Z) : list (Z * Z) :=
  match uc with
  | [] => []
  | upp :: uc => (if negb (upp =? i) && (upp <? cnt) then [(upp, u16 i)] else []) ++ loc_updates (i + 1) uc cnt
  end.

Lemma locase_updates uc : forall i cnt lc, locase_loop (length uc) i uc cnt lc = apply_all (loc_updates i uc cnt) lc.
Proof.
  induction uc as [|upp uc IH]; intros i cnt lc; [done|]. cbn [length locase_loop deref mbind res_bind tail loc_updates].
  rewrite apply_all_app. destruct (_ && _); cbn [apply_all]; [destruct (aset lc upp _)|]; cbn [mbind res_bind]; [apply IH|done|done|apply IH].
Qed.

Lemma loc_updates_in uc cnt j v : forall i, 0 <= i -> i + zlen uc <= 65536 ->
  In (j, v) (loc_updates i uc cnt) <-> i <= v /\ aget uc (v - i) = Ok j /\ j <> v /\ j < cnt.
Proof.
  induction uc as [|upp uc IH]; intros i Hi Hl.
  { split; [done|]. intros (_ & [_ E]%aget_ok & _). done. }
  rewrite zlen_cons in Hl. cbn [loc_updates]. rewrite in_app_iff, IH by lia.
  assert (forall k, 0 < k -> aget (upp :: uc) k = aget uc (k - 1)) as Ek.
  { intros k Hk. change (upp :: uc) with ([upp] ++ uc). by rewrite aget_app_r by (change (zlen [upp]) with 1; lia). }
  pose proof (zlen_nonneg uc). split.
  - intros [H0|(H1 & H2 & H3)].
    + destruct (_ && _) eqn:E; [|done]. destruct H0 as [[= -> <-]|[]]. rewrite u16_small, Z.sub_diag by lia.
      rewrite andb_true_iff, negb_true_iff, Z.eqb_neq, Z.ltb_lt in E. split_and!; [lia|done|lia|lia].
    + rewrite Ek by lia. replace (v - i - 1) with (v - (i + 1)) by lia. split; [lia|done].
  - intros (H1 & H2 & H3 & H4). destruct (Z.eq_dec v i) as [->|].
    + left. rewrite Z.sub_diag in H2. injection H2 as ->. zdec. left. by rewrite u16_small by lia.
    + right. rewrite Ek in H2 by lia. replace (v - i - 1) with (v - (i + 1)) in H2 by lia. split; [lia|done].
Qed.

(** An entry of the table is a character with that upper case, or the
    character itself when there is none. *)
Lemma locase_spec `{Heap} uc : is_name uc -> zlen uc <= 65536 -> heap_grants (zlen uc * 2) = true ->
  exists lc, ntfs_locase_table_build uc (zlen uc) = Ok (Some lc) /\ zlen lc = zlen uc /\
    forall j, 0 <= j < zlen uc -> exists v, aget lc j = Ok v /\
      ((v <> j /\ aget uc v = Ok j) \/ (v = j /\ forall i, i <> j -> aget uc i <> Ok j)).
Proof.
  intros Hn Hl Hg. unfold ntfs_locase_table_build. rewrite Hg, zlen_to_nat, locase_updates.
  pose proof (identity_len (length uc) 0) as Ei.
  destruct (apply_all_spec (loc_updates 0 uc (zlen uc)) (identity (length uc) 0)) as (lc & -> & El & Ej).
  { apply Forall_forall. intros [j v] Hin. apply loc_updates_in in Hin as (_ & Hj & _ & Hlt); [|lia|lia].
    apply aget_ok in Hj as [_ Hj]. destruct (Forall_lookup_1 _ _ _ _ Hn Hj). rewrite Ei. unfold zlen in Hlt. lia. }
  cbn [mbind res_bind]. exists lc. split; [done|]. split; [by rewrite El, Ei|]. intros j Hj. rewrite Ej.
  destruct (last_of _ j) as [v|] eqn:E.
  - exists v. split; [done|left]. apply last_of_elem, loc_updates_in in E as (_ & Hv & Hne & _); [|lia|lia].
    rewrite Z.sub_0_r in Hv. split; [congruence|done].
  - exists j. rewrite identity_get by (unfold zlen in *; lia). split; [done|right]. split; [done|]. intros i Hi Hu.
    apply (last_of_none _ _ i E). apply loc_updates_in; [lia|lia|]. rewrite Z.sub_0_r. pose proof (aget_range _ _ _ Hu). split_and!; [lia|done|congruence|lia].
Qed.

(** ** Theorems *)

Lemma toup_get t u v : aget t u = Ok v -> toup t u = v.
Proof. intros E. unfold toup, up. pose proof (aget_range _ _ _ E). zdec. by rewrite E. Qed.

(** the default upcase table and the lower case table made from it fit
    together: building them stays within the arrays of 65536 entries, the
    upper case of an upper case character is itself, a character keeps its
    upper case when it is put in lower case, and a character that has another
    upper case is the lower case of it.  Within ASCII exactly the letters a to
    z change, and no other character has an upper case in ASCII. *)
Theorem case_tables_correct `{Heap} : (forall n, heap_grants n = true) ->
  exists uc lc, ntfs_upcase_build_default = Ok (Some uc, UPCASE_LEN) /\ ntfs_locase_table_build uc UPCASE_LEN = Ok (Some lc) /\
    zlen uc = UPCASE_LEN /\ zlen lc = UPCASE_LEN /\ is_name uc /\
    forall u, 0 <= u < UPCASE_LEN ->
      toup uc (toup uc u) = toup uc u /\ toup uc (toup lc u) = toup uc u /\
      (toup uc u <> u -> toup lc (toup uc u) = u) /\
      (toup uc u < 0x80 -> toup uc u = if (0x61 <=? u) && (u <=? 0x7a) then u - 32 else u).
Proof.
  intros Hg. destruct table_spec as (uc & Eb & El & Eu). unfold ntfs_upcase_build_default. rewrite Hg, Eb. cbn [mbind res_bind].
  assert (is_name uc) as Hn.
  { apply Forall_lookup. intros k v Hk. assert (aget uc (Z.of_nat k) = Ok v) as Hv
      by (apply aget_ok; rewrite Nat2Z.id; split; [lia|done]).
    pose proof (aget_range _ _ _ Hv). rewrite Eu in Hv by lia. injection Hv as <-. apply upval_range. lia. }
  destruct (locase_spec uc Hn ltac:(lia) ltac:(by rewrite Hg)) as (lc & Elc & Ell & Hlc). rewrite El in *.
  exists uc, lc. split_and!; [done|done|done|done|done|]. intros u Hu. change UPCASE_LEN with 65536 in Hu.
  assert (forall k, 0 <= k < 65536 -> toup uc k = upval k) as Et by (intros k Hk; by apply toup_get, Eu).
  pose proof (upval_range u Hu) as Hr. destruct (Hlc u Hu) as (v & Ev & Hv). rewrite (toup_get _ _ _ Ev).
  rewrite (Et u Hu), (Et (upval u) Hr). split_and!; [apply upval_idem| | |apply upval_ascii].
  - destruct Hv as [[Hne Hv]|[-> _]]; [|by apply Et]. pose proof (aget_range _ _ _ Hv). rewrite El in *.
    rewrite Eu in Hv by lia. injection Hv as Hv. rewrite Et, Hv by lia. rewrite <- Hv. symmetry. apply upval_idem.
  - intros Hch. destruct (Hlc (upval u) Hr) as (w & Ew & Hw). rewrite (toup_get _ _ _ Ew).
    destruct Hw as [[Hne Hw]|[_ Hw]]; [|exfalso; apply (Hw u); [congruence|by apply Eu]].
    pose proof (aget_range _ _ _ Hw). rewrite El in *. rewrite Eu in Hw by lia. injection Hw as Hw.
    apply upval_inj; [done|congruence|done].
Qed.

Lemma case_tables_correct_witness : exists uc lc,
  @ntfs_upcase_build_default ample_heap = Ok (Some uc, UPCASE_LEN) /\
  @ntfs_locase_table_build ample_heap uc UPCASE_LEN = Ok (Some lc) /\ toup uc (toup lc 0x3a3) = toup uc 0x3a3.
Proof.
  destruct (@case_tables_correct ample_heap (fun _ => eq_refl)) as (uc & lc & E1 & E2 & _ & _ & _ & H).
  exists uc, lc. split; [exact E1|]. split; [exact E2|]. destruct (H 0x3a3) as (_ & W & _); [split; [discriminate|reflexivity]|]. exact W.
Defined.
