(* ===== verification/NameCheck.v ===== *)
(** The checks of file names (libntfs/unistr.c) decide what their comments
    say: [ntfs_forbidden_names], whose hash of the first two characters saves
    most comparisons, against the list of the reserved names. *)

From S2P Require Import Prelude Unistr Upcase.

(** * Specification *)

(** The part of a name before the first dot. *)
Fixpoint stem (l : list Z) : list Z := match l with [] => [] | c :: l => if c =? 0x2e then [] else c :: stem l end.

Definition CON : list Z := [0x43; 0x4f; 0x4e].
Definition PRN : list Z := [0x50; 0x52; 0x4e].
Definition AUX : list Z := [0x41; 0x55; 0x58].
Definition NUL : list Z := [0x4e; 0x55; 0x4c].
Definition COM : list Z := [0x43; 0x4f; 0x4d].
Definition LPT : list Z := [0x4c; 0x50; 0x54].

Definition reserved (u : list Z) : Prop :=
  u = CON \/ u = PRN \/ u = AUX \/ u = NUL \/ exists d, 0x31 <= d <= 0x39 /\ (u = COM ++ [d] \/ u = LPT ++ [d]).

(** The characters not allowed in a Win32 name: control characters and these. *)
Definition forbidden_char (c : Z) : Prop :=
  c < 0x20 \/ In c [0x22; 0x2a; 0x2f; 0x3a; 0x3c; 0x3e; 0x3f; 0x5c; 0x7c].

Definition forbidden_name (upcase name : list Z) (strict : bool) : Prop :=
  name = [] \/ (strict = true /\ exists p c, name = p ++ [c] /\ (c = 0x20 \/ c = 0x2e)) \/ Exists forbidden_char name \/
  reserved (map (toup upcase) (stem name)).

(** A table that treats ASCII as the default table does. *)
Definition ascii_table (upcase : list Z) : Prop :=
  is_name upcase /\ forall u, 0 <= u < 65536 -> u < 0x80 \/ toup upcase u < 0x80 ->
    toup upcase u = if (0x61 <=? u) && (u <=? 0x7a) then u - 32 else u.

(** * Proofs *)

Lemma bad_char_spec c : 0 <= c < 65536 -> bad_char c = true <-> forbidden_char c.
Proof.
  intros Hc. unfold bad_char, forbidden_char. destruct (Z.ltb_spec c 0x40) as [Hl|Hl].
  - pose proof (forall_range (fun c => Bool.eqb (bad_char c) ((c <? 0x20) || existsb (Z.eqb c) [0x22; 0x2a; 0x2f; 0x3a; 0x3c; 0x3e; 0x3f; 0x5c; 0x7c]))
      0 64 c ltac:(vm_compute; reflexivity) ltac:(lia)) as E%eqb_prop. unfold bad_char in E.
    rewrite (proj2 (Z.ltb_lt c 0x40)) in E by done. rewrite E, orb_true_iff, Z.ltb_lt, existsb_exists.
    split; (intros [H|H]; [by left|right]); [destruct H as (x & Hx & ->%Z.eqb_eq); done|exists c; split; [done|apply Z.eqb_refl]].
  - zdec. cbn. rewrite orb_true_iff, !Z.eqb_eq. lia.
Qed.

Lemma bad_chars_spec name : forall b, is_name name ->
  exists r, bad_chars (length name) name b = Ok r /\ (r = true <-> b = true \/ Exists forbidden_char name).
Proof.
  induction name as [|c name IH]; intros b Hn.
  { exists b. split; [done|]. rewrite Exists_nil. tauto. }
  apply Forall_cons_1 in Hn as [Hc Hn]. cbn [length bad_chars deref mbind res_bind tail].
  destruct (IH (if bad_char c then true else b) Hn) as (r & -> & Hr). exists r. split; [done|]. rewrite Hr, Exists_cons.
  pose proof (bad_char_spec c Hc) as Hb. destruct (bad_char c).
  - split; intros _; [right; left; by apply Hb|by left].
  - assert (~ forbidden_char c) by (rewrite <- Hb; done). tauto.
Qed.

Lemma last_char (name : list Z) : name <> [] -> exists p c, name = p ++ [c] /\ aget name (zlen name - 1) = Ok c.
Proof.
  intros Hn. destruct (exists_last Hn) as (p & c & ->). exists p, c. split; [done|]. apply aget_mid. rewrite zlen_app. change (zlen [c]) with 1. lia.
Qed.

Lemma forbidden_chars_spec name strict : is_name name -> exists r, ntfs_forbidden_chars name (zlen name) strict = Ok r /\
  (r = true <-> name = [] \/ (strict = true /\ exists p c, name = p ++ [c] /\ (c = 0x20 \/ c = 0x2e)) \/ Exists forbidden_char name).
Proof.
  intros Hn. unfold ntfs_forbidden_chars. rewrite zlen_to_nat. destruct name as [|c0 name0]; [by exists true; split; [|tauto]|].
  set (name := c0 :: name0) in *. assert (name <> []) as Hne by done.
  assert ((zlen name =? 0) = false) as -> by (apply Z.eqb_neq; unfold name; rewrite zlen_cons; pose proof (zlen_nonneg name0); lia).
  destruct (last_char name Hne) as (p & c & Ep & Ec).
  assert (exists b, (if strict then c ← aget name (zlen name - 1); Ok ((c =? 0x20) || (c =? 0x2e)) else Ok false) = Ok b /\
    (b = true <-> strict = true /\ exists p c, name = p ++ [c] /\ (c = 0x20 \/ c = 0x2e))) as (b & -> & Hb).
  { destruct strict; [|by exists false; split; [|split; [done|by intros [? _]]]]. rewrite Ec. cbn [mbind res_bind]. eexists. split; [done|].
    rewrite orb_true_iff, !Z.eqb_eq. split; [intros H; split; [done|by exists p, c]|].
    intros (_ & p' & c' & E & H). rewrite Ep in E. apply app_inj_tail in E as [_ ->]. done. }
  cbn [mbind res_bind]. destruct (bad_chars_spec name b Hn) as (r & -> & Hr). exists r. split; [done|]. rewrite Hr, Hb. tauto.
Qed.

(** ** Words *)

Section words.
Context (t : list Z) (Ht : ascii_table t).
Implicit Types (name w : list Z).

Lemma toup_lower c : 0x61 <= c <= 0x7a -> toup t c = c - 32.
Proof. intros Hc. rewrite (proj2 Ht) by lia. by zdec. Qed.

(** A character whose upper case is an ASCII letter. *)
Lemma toup_letter c L : 0 <= c < 65536 -> 0x41 <= L <= 0x5a -> toup t c = L -> c = L \/ c = L + 32.
Proof.
  intros Hc HL E. pose proof (proj2 Ht c Hc ltac:(lia)) as H. rewrite E in H. destruct (_ && _) eqn:Eb; [right|left; done].
  lia.
Qed.

Lemma until0_word (l w : list Z) : length l = length w -> Forall (fun c => c <> 0) w -> until0 l = until0 w <-> l = w.
Proof.
  intros Hl Hw. assert (until0 w = w) as ->.
  { clear Hl. induction Hw as [|c w Hc _ IH]; [done|]. cbn. zdec. by rewrite IH. }
  split; [|intros ->; clear Hl; induction Hw as [|c w Hc _ IH]; [done|]; cbn; zdec; by rewrite IH].
  revert w Hl Hw. induction l as [|x l IH]; intros [|y w] Hl Hw; try done. cbn. destruct (x =? 0); [done|].
  intros [= -> E]. f_equal. apply IH; [by injection Hl|by apply Forall_cons_1 in Hw as [_ ?]|done].
Qed.

Lemma is_word_spec n0 n1 n2 r w : is_name [n0; n1; n2] -> length w = 3%nat -> Forall (fun c => 0x61 <= c <= 0x7a) w ->
  is_word t (zlen t) (n0 :: n1 :: n2 :: r) w = Ok (bool_decide (map (toup t) [n0; n1; n2] = map (fun c => c - 32) w)).
Proof.
  intros Hn Hl Hw. unfold is_word.
  assert (is_name w) as Hwn by (eapply Forall_impl; [|exact Hw]; cbn beta; intros c Hc; unfold in_u; lia).
  pose proof (ucsncasecmp_spec t [n0; n1; n2] (proj1 Ht) w r [] Hn Hwn ltac:(done)) as E. rewrite app_nil_r in E.
  cbn [app length] in E. rewrite E. cbn [mbind res_bind]. f_equal. apply eq_true_iff_eq. rewrite sgn_0, bool_decide_eq_true.
  assert (map (toup t) w = map (fun c => c - 32) w) as Ew.
  { clear -Hw Ht. induction Hw as [|c w Hc _ IH]; [done|]. cbn. by rewrite toup_lower, IH. }
  rewrite Ew. rewrite <- until0_word; [|by rewrite !length_map, Hl|].
  - split; [apply lex_eq|intros ->; apply lex_refl].
  - clear -Hw. induction Hw; constructor; [lia|done].
Qed.
End words.

(** ** Reserved names *)

Lemma stem_nil l : stem l = [] <-> l = [] \/ exists l', l = 0x2e :: l'.
Proof.
  destruct l as [|c l]; [tauto|]. cbn. destruct (Z.eqb_spec c 0x2e) as [->|Hne].
  - split; [|done]. intros _. right. by exists l.
  - split; [done|]. by intros [?|[l' [= ? ?]]].
Qed.

(** [(len == n) || (name[n] == dot)]: the name or its stem ends here. *)
Lemma ends_at_spec p r : ends_at (p ++ r) (zlen (p ++ r)) (zlen p) = Ok (bool_decide (stem r = [])).
Proof.
  unfold ends_at. rewrite zlen_app. destruct r as [|c r].
  - rewrite zlen_nil, Z.add_0_r, Z.eqb_refl. done.
  - rewrite zlen_cons. pose proof (zlen_nonneg r). zdec. rewrite aget_mid by done. cbn [mbind res_bind]. f_equal.
    apply eq_true_iff_eq. rewrite Z.eqb_eq, bool_decide_eq_true, stem_nil. split; [intros ->; right; by exists r|].
    by intros [?|[l' [= ? ?]]].
Qed.

Section reserved.
Context (t : list Z) (Ht : ascii_table t).

Definition up3 (n0 n1 n2 : Z) : list Z := map (toup t) [n0; n1; n2].

(** A word of three letters, and one followed by a digit. *)
Definition B3 (n0 n1 n2 : Z) (r W : list Z) : bool := bool_decide (stem r = []) && bool_decide (up3 n0 n1 n2 = W).
Definition B4 (n0 n1 n2 : Z) (r W : list Z) : bool :=
  match r with
  | d :: r => (0x31 <=? d) && (d <=? 0x39) && bool_decide (stem r = []) && bool_decide (up3 n0 n1 n2 = W)
  | [] => false
  end.

Lemma word_of_3_spec n0 n1 n2 r w : is_name [n0; n1; n2] -> length w = 3%nat -> Forall (fun c => 0x61 <= c <= 0x7a) w ->
  word_of_3 t (zlen t) (n0 :: n1 :: n2 :: r) (zlen (n0 :: n1 :: n2 :: r)) w = Ok (B3 n0 n1 n2 r (map (fun c => c - 32) w)).
Proof.
  intros Hn Hl Hw. unfold word_of_3, B3.
  pose proof (ends_at_spec [n0; n1; n2] r) as E. cbn [app] in E. change (zlen [n0; n1; n2]) with 3 in E. rewrite E.
  cbn [mbind res_bind]. destruct (bool_decide (stem r = [])); [|done]. by rewrite is_word_spec.
Qed.

Lemma word_of_4_spec n0 n1 n2 r w : is_name [n0; n1; n2] -> length w = 3%nat -> Forall (fun c => 0x61 <= c <= 0x7a) w ->
  word_of_4 t (zlen t) (n0 :: n1 :: n2 :: r) (zlen (n0 :: n1 :: n2 :: r)) w = Ok (B4 n0 n1 n2 r (map (fun c => c - 32) w)).
Proof.
  intros Hn Hl Hw. unfold word_of_4, B4. destruct r as [|d r]; [done|]. pose proof (zlen_nonneg r).
  assert (3 < zlen (n0 :: n1 :: n2 :: d :: r)) by (rewrite !zlen_cons; lia). zdec. change (aget (n0 :: n1 :: n2 :: d :: r) 3) with (Ok d). cbn [mbind res_bind].
  destruct (Z.ltb_spec d 0x31); [by zdec|]. destruct (Z.ltb_spec 0x39 d); [by zdec|]. zdec. cbn [orb].
  pose proof (ends_at_spec [n0; n1; n2; d] r) as E. cbn [app] in E.
  change (zlen [n0; n1; n2; d]) with 4 in E. rewrite E. cbn [mbind res_bind andb].
  destruct (bool_decide (stem r = [])); [|done]. by rewrite is_word_spec.
Qed.

(** What is decided by the hash and the third character. *)
Definition hashed (n0 n1 n2 : Z) (r : list Z) : bool :=
  if Z.rem (name_hash n0 n1) 23 =? 17 then
    let k := Z.land n2 (Z.lnot 0x20) in
    if k =? 0x4e then (if B3 n0 n1 n2 r CON then true else B3 n0 n1 n2 r PRN)
    else if k =? 0x58 then B3 n0 n1 n2 r AUX
    else if k =? 0x4c then B3 n0 n1 n2 r NUL
    else if k =? 0x4d then B4 n0 n1 n2 r COM
    else if k =? 0x54 then B4 n0 n1 n2 r LPT
    else false
  else false.

Lemma B4_word n0 n1 n2 r W : B4 n0 n1 n2 r W = true -> up3 n0 n1 n2 = W.
Proof. unfold B4. destruct r as [|d r]; [done|]. rewrite !andb_true_iff, !bool_decide_eq_true. tauto. Qed.

Lemma B3_word n0 n1 n2 r W : B3 n0 n1 n2 r W = true -> up3 n0 n1 n2 = W.
Proof. unfold B3. rewrite andb_true_iff, !bool_decide_eq_true. tauto. Qed.

(** The letters of a word, in either case. *)
Lemma up3_letters n0 n1 n2 a b c : is_name [n0; n1; n2] -> 0x41 <= a <= 0x5a -> 0x41 <= b <= 0x5a -> 0x41 <= c <= 0x5a ->
  up3 n0 n1 n2 = [a; b; c] -> (n0 = a \/ n0 = a + 32) /\ (n1 = b \/ n1 = b + 32) /\ (n2 = c \/ n2 = c + 32).
Proof.
  intros Hn Ha Hb Hc [= E0 E1 E2]. apply Forall_cons_1 in Hn as [H0 Hn]. apply Forall_cons_1 in Hn as [H1 Hn].
  apply Forall_cons_1 in Hn as [H2 _]. split_and!; by apply (toup_letter t Ht).
Qed.

(** The hash loses none of the words. *)
Lemma hashed_iff n0 n1 n2 r : is_name [n0; n1; n2] ->
  hashed n0 n1 n2 r = true <->
  B3 n0 n1 n2 r CON = true \/ B3 n0 n1 n2 r PRN = true \/ B3 n0 n1 n2 r AUX = true \/ B3 n0 n1 n2 r NUL = true \/
  B4 n0 n1 n2 r COM = true \/ B4 n0 n1 n2 r LPT = true.
Proof.
  intros Hn. split.
  - unfold hashed. destruct (_ =? 17); [|done]. cbn zeta. repeat (destruct (_ =? _); [|]); try tauto; [|done].
    destruct (B3 n0 n1 n2 r CON); tauto.
  - intros H. assert (forall a b c, 0x41 <= a <= 0x5a -> 0x41 <= b <= 0x5a -> 0x41 <= c <= 0x5a -> up3 n0 n1 n2 = [a; b; c] ->
      exists x y z, n0 = a + x /\ n1 = b + y /\ n2 = c + z /\ (x = 0 \/ x = 32) /\ (y = 0 \/ y = 32) /\ (z = 0 \/ z = 32)) as Hl.
    { intros a b c Ha Hb Hc E. destruct (up3_letters _ _ _ _ _ _ Hn Ha Hb Hc E) as (E0 & E1 & E2).
      exists (n0 - a), (n1 - b), (n2 - c). lia. }
    unfold hashed. destruct H as [H|[H|[H|[H|[H|H]]]]]; pose proof H as Hw; (apply B3_word in Hw || apply B4_word in Hw);
      apply Hl in Hw as (x & y & z & -> & -> & -> & Hx & Hy & Hz); try lia;
      destruct Hx as [-> | ->], Hy as [-> | ->], Hz as [-> | ->]; cbn in H |- *; rewrite ?H; by repeat case_match.
Qed.

Lemma stem_word n0 n1 n2 r a b c : is_name [n0; n1; n2] -> 0x41 <= a <= 0x5a -> 0x41 <= b <= 0x5a -> 0x41 <= c <= 0x5a ->
  up3 n0 n1 n2 = [a; b; c] -> map (toup t) (stem (n0 :: n1 :: n2 :: r)) = [a; b; c] ++ map (toup t) (stem r).
Proof.
  intros Hn Ha Hb Hc E. destruct (up3_letters _ _ _ _ _ _ Hn Ha Hb Hc E) as (E0 & E1 & E2). cbn [stem]. zdec.
  cbn [map]. injection E as -> -> ->. done.
Qed.

(** The stem of a reserved name starts with three letters. *)
Lemma stem_split n0 n1 n2 r a b c w : map (toup t) (stem (n0 :: n1 :: n2 :: r)) = [a; b; c] ++ w ->
  up3 n0 n1 n2 = [a; b; c] /\ map (toup t) (stem r) = w.
Proof.
  cbn [stem]. destruct (n0 =? 0x2e); [done|]. destruct (n1 =? 0x2e); [done|]. destruct (n2 =? 0x2e); [done|].
  cbn. intros [= E0 E1 E2 E3]. unfold up3. cbn. by rewrite E0, E1, E2.
Qed.

Lemma digit_stem r d : is_name r -> 0x31 <= d <= 0x39 ->
  map (toup t) (stem r) = [d] <-> exists r', r = d :: r' /\ stem r' = [].
Proof.
  intros Hn Hd. split.
  - destruct r as [|c r]; [done|]. cbn [stem]. destruct (Z.eqb_spec c 0x2e); [done|]. intros [= Ec Er].
    apply Forall_cons_1 in Hn as [Hc _]. pose proof (proj2 Ht c Hc ltac:(lia)) as H. exists r.
    split; [|by destruct (stem r)]. f_equal. destruct (_ && _) eqn:Eb; [|congruence].
    rewrite andb_true_iff, !Z.leb_le in Eb. lia.
  - intros (r' & -> & E). cbn [stem]. zdec. rewrite E. cbn. rewrite (proj2 Ht d) by lia. by zdec.
Qed.

Lemma B3_iff n0 n1 n2 r a b c : is_name [n0; n1; n2] -> 0x41 <= a <= 0x5a -> 0x41 <= b <= 0x5a -> 0x41 <= c <= 0x5a ->
  B3 n0 n1 n2 r [a; b; c] = true <-> map (toup t) (stem (n0 :: n1 :: n2 :: r)) = [a; b; c].
Proof.
  intros Hn Ha Hb Hc. unfold B3. rewrite andb_true_iff, !bool_decide_eq_true. split.
  - intros [Es Eu]. rewrite (stem_word _ _ _ _ a b c), Es by done. done.
  - intros E. rewrite <- (app_nil_r [a; b; c]) in E. apply stem_split in E as [Eu Er]. split; [by destruct (stem r)|done].
Qed.

Lemma B4_iff n0 n1 n2 r a b c : is_name [n0; n1; n2] -> is_name r -> 0x41 <= a <= 0x5a -> 0x41 <= b <= 0x5a -> 0x41 <= c <= 0x5a ->
  B4 n0 n1 n2 r [a; b; c] = true <->
  exists d, 0x31 <= d <= 0x39 /\ map (toup t) (stem (n0 :: n1 :: n2 :: r)) = [a; b; c] ++ [d].
Proof.
  intros Hn Hr Ha Hb Hc. split.
  - destruct r as [|d r]; [done|]. unfold B4. rewrite !andb_true_iff, !bool_decide_eq_true, !Z.leb_le. intros [[Hd Es] Eu].
    exists d. split; [done|]. rewrite (stem_word _ _ _ _ a b c) by done. f_equal. apply digit_stem; [done..|by exists r].
  - intros (d & Hd & E). apply stem_split in E as [Eu Er]. apply digit_stem in Er as (r' & -> & Es); [|done..].
    unfold B4. rewrite !andb_true_iff, !bool_decide_eq_true, !Z.leb_le. split_and!; done || lia.
Qed.

Lemma hashed_reserved n0 n1 n2 r : is_name [n0; n1; n2] -> is_name r ->
  hashed n0 n1 n2 r = true <-> reserved (map (toup t) (stem (n0 :: n1 :: n2 :: r))).
Proof.
  intros Hn Hr. rewrite hashed_iff by done. unfold CON, PRN, AUX, NUL, COM, LPT.
  rewrite !B3_iff, !B4_iff by (done || lia). unfold reserved, CON, PRN, AUX, NUL, COM, LPT.
  set (m := map _ _). split.
  - intros [H|[H|[H|[H|[(d & Hd & H)|(d & Hd & H)]]]]]; [tauto..| |]; do 4 right; exists d; tauto.
  - intros [H|[H|[H|[H|(d & Hd & [H|H])]]]]; [tauto..| |]; do 4 right; [left|right]; by exists d.
Qed.
End reserved.

Lemma short_not_reserved t name : zlen name < 3 -> ~ reserved (map (toup t) (stem name)).
Proof.
  intros Hl. assert (length (map (toup t) (stem name)) < 3)%nat as H.
  { rewrite length_map. assert (length (stem name) <= length name)%nat; [|unfold zlen in Hl; lia].
    clear. induction name as [|c l IH]; [done|]. cbn. destruct (_ =? _); cbn; lia. }
  intros [E|[E|[E|[E|(d & _ & [E|E])]]]]; rewrite E in H; cbn in H; lia.
Qed.

(** a name is refused exactly when it is empty, contains a character Win32
    does not allow, ends in a dot or a space (when that is asked for), or is a
    reserved name (CON, PRN, AUX, NUL, COM1 to COM9, LPT1 to LPT9, in any case
    and with any suffix): the hash of the first two characters and the switch
    on the third one lose none of them.  No character behind the name is
    read. *)
Theorem forbidden_names_correct upcase name strict : ascii_table upcase -> is_name name ->
  exists r, ntfs_forbidden_names upcase (zlen upcase) name (zlen name) strict = Ok r /\
    (r = true <-> forbidden_name upcase name strict).
Proof.
  intros Ht Hn. unfold ntfs_forbidden_names, forbidden_name.
  destruct (forbidden_chars_spec name strict Hn) as (b & -> & Hb). cbn [mbind res_bind].
  destruct b; [exists true; split; [done|]; tauto|]. cbn [negb andb].
  destruct (Z.leb_spec 3 (zlen name)) as [Hl|Hl].
  2:{ exists false. split; [done|]. pose proof (short_not_reserved upcase name Hl). tauto. }
  destruct name as [|n0 [|n1 [|n2 r]]]; rewrite ?zlen_cons, ?zlen_nil in Hl; try lia.
  assert (is_name [n0; n1; n2]) as H3 by (by apply (Forall_app _ [n0; n1; n2] r) in Hn as [? _]).
  assert (is_name r) as Hr by (by apply (Forall_app _ [n0; n1; n2] r) in Hn as [_ ?]).
  exists (hashed upcase n0 n1 n2 r). split; [|rewrite hashed_reserved by done; assert (false <> true) by done; tauto].
  change (aget (n0 :: n1 :: n2 :: r) 0) with (Ok n0). change (aget (n0 :: n1 :: n2 :: r) 1) with (Ok n1).
  change (aget (n0 :: n1 :: n2 :: r) 2) with (Ok n2). cbn [mbind res_bind]. unfold hashed.
  destruct (_ =? 17); [|done]. cbn zeta. rewrite !word_of_3_spec, !word_of_4_spec by (done || compute_decide).
  change (map _ con) with CON. change (map _ prn) with PRN. change (map _ aux) with AUX. change (map _ nul) with NUL.
  change (map _ com) with COM. change (map _ lpt) with LPT. cbn [mbind res_bind].
  destruct (_ =? 0x4e); [by destruct (B3 _ _ _ _ _ CON)|]. by repeat case_match.
Qed.

Lemma default_ascii_table uc : ntfs_upcase_table_build (UPCASE_LEN * 2) = Ok uc -> ascii_table uc.
Proof.
  destruct table_spec as (uc' & -> & El & Eu). intros [= ->].
  assert (forall k, 0 <= k < 65536 -> toup uc k = upval k) as Et by (intros k Hk; by apply toup_get, Eu). split.
  - apply Forall_lookup. intros k v Hk. assert (aget uc (Z.of_nat k) = Ok v) as Hv
      by (apply aget_ok; rewrite Nat2Z.id; split; [lia|done]).
    pose proof (aget_range _ _ _ Hv). rewrite Eu in Hv by lia. injection Hv as <-. apply upval_range. lia.
  - intros u Hu Hor. rewrite Et in * by done. apply upval_ascii. destruct Hor; [|done].
    pose proof (forall_range (fun u => upval u <? 0x80) 0 0x80 u ltac:(vm_compute; reflexivity) ltac:(lia)) as Hlt. by apply Z.ltb_lt.
Qed.

(** lpt7.txt is refused, lpt7x.txt is not. *)
Lemma forbidden_names_correct_witness : exists uc, ntfs_upcase_table_build (UPCASE_LEN * 2) = Ok uc /\
  (exists r, ntfs_forbidden_names uc (zlen uc) [0x6c; 0x70; 0x74; 0x37; 0x2e; 0x74; 0x78; 0x74] 8 true = Ok r /\
    (r = true <-> forbidden_name uc [0x6c; 0x70; 0x74; 0x37; 0x2e; 0x74; 0x78; 0x74] true)).
Proof.
  destruct table_spec as (uc & E & _). exists uc. split; [exact E|].
  exact (forbidden_names_correct uc [0x6c; 0x70; 0x74; 0x37; 0x2e; 0x74; 0x78; 0x74] true (default_ascii_table uc E) ltac:(compute_decide)).
Defined.
