(* ===== verification/Bytes.v ===== *)
(** Little endian integers in byte arrays: what le16_to_cpu, le32_to_cpu and
    the like read, and what their counterparts write. *)

From S2P Require Import Prelude.

Fixpoint le (bs : list Z) : Z := match bs with [] => 0 | b :: bs => b + 256 * le bs end.

Fixpoint le_bytes (n : nat) (v : Z) : list Z := match n with O => [] | S n => v mod 256 :: le_bytes n (v / 256) end.

(** The [n]-byte integer at [p]. *)
Definition get_le (n : Z) (buf : list Z) (p : Z) : res Z := bs ← aslice buf p n; Ok (le bs).

Definition put_le (n : nat) (buf : list Z) (p v : Z) : res (list Z) := awrite buf p (le_bytes n v).

Definition bytes (b : list Z) : Prop := Forall (fun x => 0 <= x < 256) b.

(** * Lemmas *)

Lemma le_bytes_length n : forall v, length (le_bytes n v) = n.
Proof. induction n as [|n IH]; intros v; [done|]. cbn. by rewrite IH. Qed.

Lemma le_bytes_zlen n v : zlen (le_bytes n v) = Z.of_nat n.
Proof. unfold zlen. by rewrite le_bytes_length. Qed.

Lemma le_bytes_bytes n : forall v, bytes (le_bytes n v).
Proof. induction n as [|n IH]; intros v; [constructor|]. constructor; [apply Z.mod_pos_bound; lia|apply IH]. Qed.

Lemma le_range bs : bytes bs -> 0 <= le bs < 256 ^ zlen bs.
Proof.
  induction 1 as [|b bs Hb _ IH]; [done|]. rewrite zlen_cons, Z.pow_add_r by (done || apply zlen_nonneg). cbn [le]. lia.
Qed.

Lemma le_le_bytes n : forall v, le (le_bytes n v) = v mod 256 ^ Z.of_nat n.
Proof.
  induction n as [|n IH]; intros v; [by rewrite Z.mod_1_r|]. cbn [le le_bytes]. rewrite IH, Nat2Z.inj_succ, Z.pow_succ_r by lia.
  pose proof (Z.pow_pos_nonneg 256 (Z.of_nat n)). rewrite Z.rem_mul_r by lia. done.
Qed.

Lemma le_le_bytes_small n v : 0 <= v < 256 ^ Z.of_nat n -> le (le_bytes n v) = v.
Proof. intros. rewrite le_le_bytes. by apply Z.mod_small. Qed.

Lemma le_bytes_le bs : bytes bs -> le_bytes (length bs) (le bs) = bs.
Proof.
  induction 1 as [|b bs Hb _ IH]; [done|]. cbn [le le_bytes length]. f_equal; [dlia|].
  replace ((b + 256 * le bs) / 256) with (le bs) by dlia. done.
Qed.

Lemma le_inj a b : bytes a -> bytes b -> length a = length b -> le a = le b -> a = b.
Proof. intros Ha Hb Hl E. rewrite <- (le_bytes_le a), <- (le_bytes_le b) by done. by rewrite Hl, E. Qed.

Lemma get_le_mid n l bs r p : p = zlen l -> zlen bs = n -> get_le n (l ++ bs ++ r) p = Ok (le bs).
Proof. intros -> <-. unfold get_le. by rewrite aslice_mid. Qed.

Lemma get_le_head n bs r : zlen bs = n -> get_le n (bs ++ r) 0 = Ok (le bs).
Proof. exact (get_le_mid n [] bs r 0 eq_refl). Qed.

(** The integer at [p] of a part of an array. *)
Lemma get_le_app n l a r p : 0 <= p -> 0 <= n -> p + n <= zlen a -> get_le n (l ++ a ++ r) (zlen l + p) = get_le n a p.
Proof.
  intros Hp Hn Hl. assert (a = take (Z.to_nat p) a ++ take (Z.to_nat n) (drop (Z.to_nat p) a) ++ drop (Z.to_nat n) (drop (Z.to_nat p) a)) as E
    by (by rewrite !take_drop).
  assert (zlen (take (Z.to_nat p) a) = p) as E1 by (unfold zlen in *; rewrite length_take; lia).
  assert (zlen (take (Z.to_nat n) (drop (Z.to_nat p) a)) = n) as E2 by (unfold zlen in *; rewrite length_take, length_drop; lia).
  set (x := take (Z.to_nat p) a) in *. set (y := take _ (drop _ a)) in *. set (z := drop _ (drop _ a)) in *. rewrite E.
  rewrite (get_le_mid n x y z) by done. rewrite <- !app_assoc. rewrite (app_assoc l x). apply get_le_mid; [rewrite zlen_app; lia|done].
Qed.

Lemma get_le_app_l n a r p : 0 <= p -> 0 <= n -> p + n <= zlen a -> get_le n (a ++ r) p = get_le n a p.
Proof. exact (get_le_app n [] a r p). Qed.

Lemma get_le_range n a p v : bytes a -> 0 <= n -> get_le n a p = Ok v -> 0 <= v < 256 ^ n.
Proof.
  intros Ha Hn. unfold get_le, aslice. destruct (Z.ltb_spec p 0); [done|]. destruct (n <? 0); [done|].
  destruct (Z.ltb_spec (zlen a) (p + n)); [done|]. cbn [orb mbind res_bind]. intros [= <-].
  assert (bytes (take (Z.to_nat n) (drop (Z.to_nat p) a))) as Hb%le_range by (apply Forall_take, Forall_drop, Ha).
  assert (zlen (take (Z.to_nat n) (drop (Z.to_nat p) a)) = n) as El by (unfold zlen in *; rewrite length_take, length_drop; lia).
  by rewrite El in Hb.
Qed.
