(* ===== verification/Collate.v ===== *)
(** Collation of index keys (libntfs/collate.c).

    A key is given by the bytes from its address on and its length.  [memcmp] is a parameter: the C standard
    fixes only the sign of its result. *)

From S2P Require Import Prelude Unistr Bytes.

Definition NTFS_COLLATION_ERROR : Z := -2.

Inductive COLLATION_RULES :=
  | COLLATION_BINARY | COLLATION_FILE_NAME | COLLATION_UNICODE_STRING | COLLATION_NTOFS_ULONG | COLLATION_NTOFS_SID
  | COLLATION_NTOFS_SECURITY_HASH | COLLATION_NTOFS_ULONGS.

#[global] Instance collation_rules_eq_dec : EqDecision COLLATION_RULES.
Proof. solve_decision. Defined.

(** [memcmp]: the sign of the result is that of the comparison. *)
Definition memcmp_law (memcmp : list Z -> list Z -> Z) : Prop :=
  forall a b, zlen a = zlen b -> Z.sgn (memcmp a b) = sgn (lex a b).

Definition ntfs_collate_binary (memcmp : list Z -> list Z -> Z) (data1 : list Z) (data1_len : Z) (data2 : list Z) (data2_len : Z)
    : res Z :=
  let n := Z.min data1_len data2_len in
  d1 ← aslice data1 0 n;
  d2 ← aslice data2 0 n;
  let rc := memcmp d1 d2 in
  Ok (if (rc =? 0) && negb (data1_len =? data2_len) then (if data1_len <? data2_len then -1 else 1) else rc).

(** [if (d1 < d2) -1; else if (d1 == d2) 0; else 1] *)
Definition cmp_ulong (d1 d2 : Z) : Z := if d1 <? d2 then -1 else if d1 =? d2 then 0 else 1.

Definition ntfs_collate_ntofs_ulong (data1 : list Z) (data1_len : Z) (data2 : list Z) (data2_len : Z) : res Z :=
  if negb (data1_len =? data2_len) || negb (data1_len =? 4) then Ok NTFS_COLLATION_ERROR else
  d1 ← get_le 4 data1 0;
  d2 ← get_le 4 data2 0;
  Ok (cmp_ulong d1 d2).

(** [do ... while ((d1 == d2) && ((len -= 4) > 0))], [n] words being left. *)
Fixpoint ulongs_loop (n : nat) (data1 data2 : list Z) (p : Z) : res (Z * Z) :=
  match n with
  | O => Undef
  | S n =>
      d1 ← get_le 4 data1 p;
      d2 ← get_le 4 data2 p;
      match n with
      | O => Ok (d1, d2)
      | S _ => if d1 =? d2 then ulongs_loop n data1 data2 (p + 4) else Ok (d1, d2)
      end
  end.

Definition ntfs_collate_ntofs_ulongs (data1 : list Z) (data1_len : Z) (data2 : list Z) (data2_len : Z) : res Z :=
  if negb (data1_len =? data2_len) || (data1_len <=? 0) || negb (Z.land data1_len 3 =? 0) then Ok NTFS_COLLATION_ERROR else
  '(d1, d2) ← ulongs_loop (Z.to_nat (data1_len / 4)) data1 data2 0;
  Ok (cmp_ulong d1 d2).

Definition ntfs_collate_ntofs_security_hash (data1 : list Z) (data1_len : Z) (data2 : list Z) (data2_len : Z) : res Z :=
  if negb (data1_len =? data2_len) || negb (data1_len =? 8) then Ok NTFS_COLLATION_ERROR else
  d1 ← get_le 4 data1 0;
  d2 ← get_le 4 data2 0;
  if d1 <? d2 then Ok (-1) else if d2 <? d1 then Ok 1 else
  d1 ← get_le 4 data1 4;
  d2 ← get_le 4 data2 4;
  Ok (if d1 <? d2 then -1 else if d2 <? d1 then 1 else 0).

(** The 16-bit characters from an address on. *)
Fixpoint ntfschars (p : list Z) : list Z :=
  match p with a :: b :: p => (a + 256 * b) :: ntfschars p | _ => [] end.

(** [file_name_length] is at 0x40 of a FILE_NAME_ATTR, [file_name] at 0x42. *)
Definition ntfs_collate_file_name (upcase : list Z) (upcase_len : Z) (data1 : list Z) (data1_len : Z)
    (data2 : list Z) (data2_len : Z) : res Z :=
  l1 ← aget data1 0x40;
  l2 ← aget data2 0x40;
  ntfs_names_full_collate (ntfschars (drop 0x42 data1)) l1 (ntfschars (drop 0x42 data2)) l2 CASE_SENSITIVE upcase upcase_len.

Definition ntfs_get_collate_function (memcmp : list Z -> list Z -> Z) (upcase : list Z) (upcase_len : Z) (cr : COLLATION_RULES)
    : res (list Z -> Z -> list Z -> Z -> res Z) :=
  match cr with
  | COLLATION_BINARY => Ok (ntfs_collate_binary memcmp)
  | COLLATION_FILE_NAME => Ok (ntfs_collate_file_name upcase upcase_len)
  | COLLATION_NTOFS_SECURITY_HASH => Ok ntfs_collate_ntofs_security_hash
  | COLLATION_NTOFS_ULONG => Ok ntfs_collate_ntofs_ulong
  | COLLATION_NTOFS_ULONGS => Ok ntfs_collate_ntofs_ulongs
  | _ => Err EOPNOTSUPP
  end.

(** * What an index expects of a collation

    On valid keys the function returns -1, 0 or 1, the sign of a comparison
    that orders the keys totally up to an equivalence. *)
Class Collation (collate : list Z -> Z -> list Z -> Z -> res Z) (valid : list Z -> Prop) (cmp : list Z -> list Z -> comparison) := {
  collate_cmp : forall k1 r1 k2 r2, valid k1 -> valid k2 ->
    collate (k1 ++ r1) (zlen k1) (k2 ++ r2) (zlen k2) = Ok (sgn (cmp k1 k2));
  cmp_refl : forall k, cmp k k = Eq;
  cmp_antisym : forall k1 k2, cmp k2 k1 = CompOpp (cmp k1 k2);
  cmp_trans : forall k1 k2 k3, cmp k1 k2 = Lt -> cmp k2 k3 = Lt -> cmp k1 k3 = Lt;
  cmp_eq : forall k1 k2 k3, cmp k1 k2 = Eq -> cmp k1 k3 = cmp k2 k3
}.

(** * Proofs *)

(** The bytes of characters. *)
Definition bytes_of (w : list Z) : list Z := concat (map (le_bytes 2) w).

Lemma bytes_of_chars k : forall b, length b = (2 * k)%nat -> bytes b -> bytes_of (ntfschars b) = b.
Proof.
  induction k as [|k IH]; intros b El Hb; [by destruct b|]. destruct b as [|x [|y b]]; [done|cbn in El; lia|].
  apply Forall_cons_1 in Hb as [Hx Hb]. apply Forall_cons_1 in Hb as [Hy Hb]. cbn [ntfschars]. unfold bytes_of. cbn [map concat le_bytes app].
  f_equal; [dlia|]. f_equal; [dlia|]. apply IH; [cbn in El; lia|done].
Qed.

Lemma bytes_of_lookup w : forall i, bytes_of w !! i = w !! (i / 2)%nat ≫= fun x => le_bytes 2 x !! (i mod 2)%nat.
Proof.
  induction w as [|x w IH]; intros i; [by rewrite !lookup_nil|]. unfold bytes_of. cbn [map concat]. destruct i as [|[|i]]; [done|done|].
  assert (S (S i) / 2 = S (i / 2) /\ S (S i) mod 2 = i mod 2)%nat as [-> ->] by (split; [exact (Nat.div_add_l 1 2 i ltac:(done))|replace (S (S i)) with (i + 1 * 2)%nat by lia; apply Nat.Div0.mod_add]).
  apply IH.
Qed.

Lemma bytes_of_length w : length (bytes_of w) = (2 * length w)%nat.
Proof. induction w as [|x w IH]; [done|]. unfold bytes_of in *. cbn [map concat]. rewrite length_app, IH, le_bytes_length. cbn [length]. lia. Qed.

Lemma bytes_of_bytes w : bytes (bytes_of w).
Proof. induction w as [|x w IH]; [constructor|]. apply Forall_app_2; [apply le_bytes_bytes|done]. Qed.

(** The characters behind a name in an array of bytes come after those of the
    name. *)
Lemma ntfschars_bytes s r : Forall (in_u 16) s -> ntfschars (bytes_of s ++ r) = s ++ ntfschars r.
Proof.
  induction 1 as [|x s Hx _ IH]; [done|]. unfold bytes_of in *. cbn [map concat]. rewrite <- app_assoc. cbn [le_bytes app].
  cbn [ntfschars app]. f_equal; [|exact IH]. unfold in_u in Hx. dlia.
Qed.

(** The 32-bit words of a key. *)
Fixpoint words (n : nat) (k : list Z) : list Z :=
  match n with O => [] | S n => le (take 4 k) :: words n (drop 4 k) end.

Definition fn_name (k : list Z) : list Z :=
  take (Z.to_nat (default 0 (k !! 0x40%nat))) (ntfschars (drop 0x42 k)).

(** A FILE_NAME_ATTR with all of its name. *)
Record fn_valid (k : list Z) : Prop := {
  fv_bytes : bytes k;
  fv_len : exists l, aget k 0x40 = Ok l /\ 0x42 + 2 * l <= zlen k
}.

Lemma cmp_ulong_sgn a b : cmp_ulong a b = sgn (a ?= b).
Proof. unfold cmp_ulong. destruct (Z.compare_spec a b); subst; by zdec. Qed.

Lemma get_word k r p : 0 <= p -> p + 4 <= zlen k -> get_le 4 (k ++ r) p = Ok (le (take 4 (drop (Z.to_nat p) k))).
Proof. intros Hp Hl. rewrite get_le_app_l by lia. unfold get_le, aslice. by zdec. Qed.

Lemma lex_words_eq (a b : list Z) (x y : Z) : lex (x :: a) (y :: b) = match x ?= y with Eq => lex a b | c => c end.
Proof. done. Qed.

Lemma ulongs_step n k1 k2 p : ulongs_loop (S (S n)) k1 k2 p =
  (d1 ← get_le 4 k1 p; d2 ← get_le 4 k2 p; if d1 =? d2 then ulongs_loop (S n) k1 k2 (p + 4) else Ok (d1, d2)).
Proof. done. Qed.

Lemma ulongs_loop_spec n : forall k1 r1 k2 r2 p, 0 <= p -> p + 4 * Z.of_nat (S n) <= zlen k1 -> p + 4 * Z.of_nat (S n) <= zlen k2 ->
  exists d1 d2, ulongs_loop (S n) (k1 ++ r1) (k2 ++ r2) p = Ok (d1, d2) /\
    (d1 ?= d2) = lex (words (S n) (drop (Z.to_nat p) k1)) (words (S n) (drop (Z.to_nat p) k2)).
Proof.
  induction n as [|n IH]; intros k1 r1 k2 r2 p Hp H1 H2.
  - cbn [ulongs_loop]. rewrite !get_word by lia. cbn [mbind res_bind]. eexists _, _. split; [done|]. cbn [words lex]. by destruct (_ ?= _).
  - rewrite ulongs_step, !get_word by lia. cbn [mbind res_bind].
    set (x := le (take 4 (drop (Z.to_nat p) k1))). set (y := le (take 4 (drop (Z.to_nat p) k2))).
    change (words (S (S n)) (drop (Z.to_nat p) k1)) with (x :: words (S n) (drop 4 (drop (Z.to_nat p) k1))).
    change (words (S (S n)) (drop (Z.to_nat p) k2)) with (y :: words (S n) (drop 4 (drop (Z.to_nat p) k2))).
    rewrite lex_words_eq. destruct (Z.eqb_spec x y) as [->|Hne].
    + rewrite Z.compare_refl. destruct (IH k1 r1 k2 r2 (p + 4)) as (d1 & d2 & E & Ec); [lia..|]. exists d1, d2. split; [exact E|].
      rewrite Ec, !drop_drop. by replace (Z.to_nat (p + 4)) with (Z.to_nat p + 4)%nat by lia.
    + eexists _, _. split; [done|]. by destruct (Z.compare_spec x y).
Qed.

(** Orders by a list of integers computed from the key. *)
Section by_lex.
Context (collate : list Z -> Z -> list Z -> Z -> res Z) (valid : list Z -> Prop) (proj : list Z -> list Z).
Context (Hspec : forall k1 r1 k2 r2, valid k1 -> valid k2 ->
  collate (k1 ++ r1) (zlen k1) (k2 ++ r2) (zlen k2) = Ok (sgn (lex (proj k1) (proj k2)))).

Lemma collation_by_lex : Collation collate valid (fun a b => lex (proj a) (proj b)).
Proof.
  split; [exact Hspec|..].
  - intros k. apply lex_refl.
  - intros k1 k2. apply lex_antisym.
  - intros k1 k2 k3. apply lex_trans.
  - intros k1 k2 k3 ->%lex_eq. done.
Qed.
End by_lex.

#[global] Instance ulong_collation :
  Collation ntfs_collate_ntofs_ulong (fun k => zlen k = 4) (fun a b => lex (words 1 a) (words 1 b)).
Proof.
  apply collation_by_lex. intros k1 r1 k2 r2 H1 H2. unfold ntfs_collate_ntofs_ulong. rewrite H1, H2. cbn [Z.eqb Pos.eqb negb orb].
  rewrite !get_word by lia. cbn [mbind res_bind]. rewrite cmp_ulong_sgn. cbn [words lex]. rewrite !drop_0. by destruct (_ ?= _).
Qed.

#[global] Instance security_hash_collation :
  Collation ntfs_collate_ntofs_security_hash (fun k => zlen k = 8) (fun a b => lex (words 2 a) (words 2 b)).
Proof.
  apply collation_by_lex. intros k1 r1 k2 r2 H1 H2. unfold ntfs_collate_ntofs_security_hash. rewrite H1, H2. cbn [Z.eqb Pos.eqb negb orb].
  rewrite !get_word by lia. cbn [mbind res_bind words lex]. rewrite !drop_0. change (Z.to_nat 4) with 4%nat.
  set (a := le (take 4 k1)). set (b := le (take 4 k2)). set (c := le (take 4 (drop 4 k1))). set (d := le (take 4 (drop 4 k2))).
  destruct (Z.compare_spec a b); subst; zdec; try done. destruct (Z.compare_spec c d); zdec; done.
Qed.

#[global] Instance ulongs_collation n :
  Collation ntfs_collate_ntofs_ulongs (fun k => zlen k = 4 * Z.of_nat (S n)) (fun a b => lex (words (S n) a) (words (S n) b)).
Proof.
  apply collation_by_lex. intros k1 r1 k2 r2 H1 H2. unfold ntfs_collate_ntofs_ulongs. rewrite H1, H2, Z.eqb_refl.
  change 3 with (Z.ones 2) at 1. rewrite Z.land_ones by lia. change (2 ^ 2) with 4. rewrite Z.mul_comm, Z.mod_mul by lia. zdec.
  cbn [negb orb Z.eqb]. rewrite Z.div_mul, Nat2Z.id by lia.
  destruct (ulongs_loop_spec n k1 r1 k2 r2 0) as (d1 & d2 & -> & Ec); [lia..|]. cbn [mbind res_bind]. by rewrite cmp_ulong_sgn, Ec.
Qed.

(** ** File names *)

Lemma ntfschars_length k : length (ntfschars k) = (length k / 2)%nat.
Proof.
  remember (length k) as n eqn:En. revert k En. induction n as [n IH] using lt_wf_ind. intros k ->.
  destruct k as [|a [|b k]]; [done..|]. cbn [ntfschars length]. rewrite (IH (length k)) by (done || cbn; lia).
  change (S (S (length k))) with (1 * 2 + length k)%nat. by rewrite Nat.div_add_l by done.
Qed.

Lemma ntfschars_name k : bytes k -> is_name (ntfschars k).
Proof.
  remember (length k) as n eqn:En. revert k En. induction n as [n IH] using lt_wf_ind. intros k -> Hb.
  destruct k as [|a [|b k]]; [constructor..|]. apply Forall_cons_1 in Hb as [Ha Hb]. apply Forall_cons_1 in Hb as [Hb Hk].
  cbn [ntfschars]. constructor; [unfold in_u; change (2 ^ 16) with 65536; lia|]. eapply IH; [|done|done]. cbn. lia.
Qed.

Lemma ntfschars_app k r : exists t, ntfschars (k ++ r) = ntfschars k ++ t.
Proof.
  remember (length k) as n eqn:En. revert k En. induction n as [n IH] using lt_wf_ind. intros k ->.
  destruct k as [|a [|b k]]; [by eexists..|]. destruct (IH (length k) ltac:(cbn; lia) k eq_refl) as [t E].
  exists t. cbn [app ntfschars]. by rewrite E.
Qed.

Lemma fn_split k r : fn_valid k -> exists rest, aget (k ++ r) 0x40 = Ok (zlen (fn_name k)) /\
  ntfschars (drop 0x42 (k ++ r)) = fn_name k ++ rest /\ is_name (fn_name k).
Proof.
  intros [Hb (l & El & Hl)]. pose proof El as [_ Ek]%aget_ok. change (Z.to_nat 0x40) with 0x40%nat in Ek.
  assert (0 <= l < 256) as Hl' by exact (Forall_lookup_1 _ _ _ _ Hb Ek).
  destruct (ntfschars_app (drop 0x42 k) r) as [t Et].
  unfold fn_name. rewrite Ek. cbn [default]. exists (drop (Z.to_nat l) (ntfschars (drop 0x42 k)) ++ t). split_and!.
  - rewrite aget_app_l by (pose proof (aget_range _ _ _ El); lia).
    rewrite El. f_equal. unfold zlen in *. rewrite length_take, ntfschars_length, length_drop. cbn [from_option id].
    assert (Z.to_nat l <= (length k - 66) / 2)%nat; [|lia]. apply Nat.div_le_lower_bound; lia.
  - rewrite app_assoc, take_drop, <- Et. f_equal. rewrite drop_app_le; [done|]. unfold zlen in Hl. lia.
  - apply Forall_take, ntfschars_name, Forall_drop, Hb.
Qed.

#[global] Instance file_name_collation upcase :
  Collation (ntfs_collate_file_name upcase (zlen upcase)) fn_valid (fun a b => names_compare upcase (fn_name a) (fn_name b)).
Proof.
  split.
  - intros k1 r1 k2 r2 H1 H2. destruct (fn_split k1 r1 H1) as (t1 & E1 & S1 & N1). destruct (fn_split k2 r2 H2) as (t2 & E2 & S2 & N2).
    unfold ntfs_collate_file_name. rewrite E1, E2. cbn [mbind res_bind]. rewrite S1, S2. by apply full_collate_case.
  - intros k. apply names_compare_refl.
  - intros k1 k2. apply names_compare_antisym.
  - intros k1 k2 k3. apply names_compare_trans.
  - intros k1 k2 k3 ->%names_compare_eq. done.
Qed.

(** ** Bytes *)

(** With a [memcmp] that returns -1, 0 or 1. *)
Lemma binary_collation memcmp : memcmp_law memcmp -> (forall a b, memcmp a b = Z.sgn (memcmp a b)) ->
  Collation (ntfs_collate_binary memcmp) (fun _ => True) lex.
Proof.
  intros Hm Hs. apply (collation_by_lex _ _ (fun k => k)). intros k1 r1 k2 r2 _ _. unfold ntfs_collate_binary.
  destruct (split_common k1 k2) as (l1 & l2 & d1 & d2 & -> & -> & Hl & Hd & En).
  assert (Z.min (zlen (l1 ++ d1)) (zlen (l2 ++ d2)) = zlen l1) as ->.
  { pose proof (zlen_nonneg (l1 ++ d1)). pose proof (zlen_nonneg (l2 ++ d2)). unfold zlen at 3. rewrite <- En. lia. }
  assert (zlen l1 = zlen l2) as El by (unfold zlen; lia).
  rewrite <- !app_assoc, (aslice_mid [] l1 (d1 ++ r1)), (aslice_mid [] l2 (d2 ++ r2)) by done. cbn [mbind res_bind].
  rewrite lex_app_length, Hs, Hm, (lex_lengths l1 l2 d1 d2) by done.
  destruct (lex l1 l2); cbn [sgn Z.eqb andb]; [|done..].
  destruct (Z.compare_spec (zlen (l1 ++ d1)) (zlen (l2 ++ d2))) as [Ez|Hlt|Hgt]; zdec; done.
Qed.

(** A [memcmp] that returns the difference of the first bytes that differ, as
    that of glibc on x86-64 does. *)
Fixpoint memcmp_diff (a b : list Z) : Z :=
  match a, b with
  | x :: a, y :: b => if x =? y then memcmp_diff a b else x - y
  | _, _ => 0
  end.

Lemma memcmp_diff_law : memcmp_law memcmp_diff.
Proof.
  intros a. induction a as [|x a IH]; intros [|y b] Hl; rewrite ?zlen_cons, ?zlen_nil in Hl; [done| | |].
  - pose proof (zlen_nonneg b). lia.
  - pose proof (zlen_nonneg a). lia.
  - cbn. destruct (Z.eqb_spec x y) as [->|Hne]; [rewrite Z.compare_refl; apply IH; lia|].
    destruct (Z.compare_spec x y); [done|..]; cbn; lia.
Qed.

(** With such a [memcmp], two keys of one byte are not comparable, and a key
    that comes first by more than 2 is not reported by -1. *)
Theorem collate_binary_not_sign :
  memcmp_law memcmp_diff /\ ntfs_collate_binary memcmp_diff [1] 1 [3] 1 = Ok NTFS_COLLATION_ERROR /\
  ntfs_collate_binary memcmp_diff [1] 1 [9] 1 = Ok (-8).
Proof. split; [exact memcmp_diff_law|]. split; reflexivity. Qed.
