(* ===== verification/IndexNode.v ===== *)
(** Nodes of an index B-tree (libntfs/index.c): the walk over the entries of a
    node, their insertion and deletion, the check of an entry and the search
    for a key.

    A node is the array of the bytes from its INDEX_HEADER on, a pointer to an
    entry the offset of the entry in it.  An entry that is held outside of a
    node is an array of its own. *)

From S2P Require Import Prelude Bytes Collate.

Definition INDEX_ENTRY_NODE : Z := 1.
Definition INDEX_ENTRY_END : Z := 2.

(** ** Fields *)

Definition ih_entries_offset (ih : list Z) : res Z := get_le 4 ih 0.
Definition ih_index_length (ih : list Z) : res Z := get_le 4 ih 4.
Definition ie_data_offset (b : list Z) (ie : Z) : res Z := get_le 2 b ie.
Definition ie_data_length (b : list Z) (ie : Z) : res Z := get_le 2 b (ie + 2).
Definition ie_length (b : list Z) (ie : Z) : res Z := get_le 2 b (ie + 8).
Definition ie_key_length (b : list Z) (ie : Z) : res Z := get_le 2 b (ie + 10).
Definition ie_flags (b : list Z) (ie : Z) : res Z := get_le 2 b (ie + 12).

(** [flags & bit] *)
Definition has_flag (flags bit : Z) : bool := negb (Z.land flags bit =? 0).

Definition ntfs_ie_get_vcn_addr (b : list Z) (ie : Z) : res Z := l ← ie_length b ie; Ok (ie + l - 8).
Definition ntfs_ie_get_vcn (b : list Z) (ie : Z) : res Z := p ← ntfs_ie_get_vcn_addr b ie; v ← get_le 8 b p; Ok (s64 v).
Definition ntfs_ie_get_first (ih : list Z) : res Z := ih_entries_offset ih.
Definition ntfs_ie_get_next (b : list Z) (ie : Z) : res Z := l ← ie_length b ie; Ok (ie + l).
Definition ntfs_ie_get_end (ih : list Z) : res Z := ih_index_length ih.

Definition ntfs_ie_end (b : list Z) (ie : Z) : res bool :=
  f ← ie_flags b ie;
  if has_flag f INDEX_ENTRY_END then Ok true else l ← ie_length b ie; Ok (l =? 0).

(** ** Walks; the fuel bounds the number of entries *)

Fixpoint ntfs_ie_get_last (fuel : nat) (b : list Z) (ie ies_end : Z) : res Z :=
  match fuel with
  | O => Undef
  | S fuel =>
      if ies_end <=? ie then Ok ie else
      e ← ntfs_ie_end b ie;
      if (e : bool) then Ok ie else ie ← ntfs_ie_get_next b ie; ntfs_ie_get_last fuel b ie ies_end
  end.

Fixpoint ie_advance (pos : nat) (b : list Z) (ie : Z) : res Z :=
  match pos with
  | O => Ok ie
  | S pos => ie ← ntfs_ie_get_next b ie; ie_advance pos b ie
  end.

Definition ntfs_ie_get_by_pos (ih : list Z) (pos : Z) : res Z :=
  ie ← ntfs_ie_get_first ih; ie_advance (Z.to_nat pos) ih ie.

Fixpoint ie_prev_loop (fuel : nat) (ih : list Z) (tmp ie : Z) (prev : option Z) : res (option Z) :=
  match fuel with
  | O => Undef
  | S fuel =>
      if tmp =? ie then Ok prev else next ← ntfs_ie_get_next ih tmp; ie_prev_loop fuel ih next ie (Some tmp)
  end.

Definition ntfs_ie_prev (fuel : nat) (ih : list Z) (ie : Z) : res (option Z) :=
  tmp ← ntfs_ie_get_first ih; ie_prev_loop fuel ih tmp ie None.

Fixpoint numof_loop (fuel : nat) (ih : list Z) (ie end_ n : Z) : res Z :=
  match fuel with
  | O => Undef
  | S fuel =>
      e ← ntfs_ie_end ih ie;
      if (e : bool) || (end_ <=? ie) then Ok n else ie ← ntfs_ie_get_next ih ie; numof_loop fuel ih ie end_ (n + 1)
  end.

Definition ntfs_ih_numof_entries (fuel : nat) (ih : list Z) : res Z :=
  end_ ← ntfs_ie_get_end ih;
  ie ← ntfs_ie_get_first ih;
  numof_loop fuel ih ie end_ 0.

(** [while ((u8 * )ie < ie_end && !ntfs_ie_end(ie))], counting. *)
Fixpoint median_count (fuel : nat) (ih : list Z) (ie ie_end i : Z) : res Z :=
  match fuel with
  | O => Undef
  | S fuel =>
      if ie_end <=? ie then Ok i else
      e ← ntfs_ie_end ih ie;
      if (e : bool) then Ok i else ie ← ntfs_ie_get_next ih ie; median_count fuel ih ie ie_end (i + 1)
  end.

Definition ntfs_ie_get_median (fuel : nat) (ih : list Z) : res Z :=
  ie_start ← ntfs_ie_get_first ih;
  ie_end ← ntfs_ie_get_end ih;
  i ← median_count fuel ih ie_start ie_end 0;
  let median := Z.quot i 2 - 1 in
  ie_advance (Z.to_nat (median + 1)) ih ie_start.

(** ** Changes *)

(** [memmove(dst, src, n)] within an array. *)
Definition memmove (b : list Z) (dst src n : Z) : res (list Z) := bs ← aslice b src n; awrite b dst bs.

Definition ntfs_ie_delete (ih : list Z) (ie : Z) : res (list Z) :=
  n ← ih_index_length ih;
  l ← ie_length ih ie;
  let new_size := u32 (n - l) in
  ih ← put_le 4 ih 4 new_size;
  l ← ie_length ih ie;
  memmove ih ie (ie + l) (new_size - ie).

Definition ntfs_ie_set_vcn (b : list Z) (ie vcn : Z) : res (list Z) :=
  p ← ntfs_ie_get_vcn_addr b ie; put_le 8 b p vcn.

(** [ie] is an array of its own. *)
Definition ntfs_ie_insert (ih ie : list Z) (pos : Z) : res (list Z) :=
  ie_size ← ie_length ie 0;
  n ← ih_index_length ih;
  ih ← put_le 4 ih 4 (u32 (n + ie_size));
  n ← ih_index_length ih;
  ih ← memmove ih (pos + ie_size) pos (n - pos - ie_size);
  e ← aslice ie 0 ie_size;
  awrite ih pos e.

Definition ntfs_ie_dup `{Heap} (b : list Z) (ie : Z) : res (option (list Z)) :=
  l ← ie_length b ie;
  if heap_grants l then d ← aslice b ie l; Ok (Some d) else Ok None.

Definition ntfs_ie_dup_novcn `{Heap} (b : list Z) (ie : Z) : res (option (list Z)) :=
  size ← ie_length b ie;
  f ← ie_flags b ie;
  let size := if has_flag f INDEX_ENTRY_NODE then size - 8 else size in
  if heap_grants size then
    dup ← aslice b ie size;
    f ← ie_flags dup 0;
    dup ← put_le 2 dup 12 (Z.land f (Z.lnot INDEX_ENTRY_NODE));
    dup ← put_le 2 dup 8 size;
    Ok (Some dup)
  else Ok None.

(** The entry grown by the room for a vcn; what it holds is left open.  The
    length is changed before the memory is asked for. *)
Definition ntfs_ie_add_vcn `{Heap} (old : list Z) : res (option (list Z)) :=
  l ← ie_length old 0;
  let l := u16 (l + 8) in
  old ← put_le 2 old 8 l;
  if heap_grants l then
    let p := take (Z.to_nat l) (old ++ map heap_junk (seq 0 (Z.to_nat (l - zlen old)))) in
    f ← ie_flags p 0;
    p ← put_le 2 p 12 (Z.lor f INDEX_ENTRY_NODE);
    Ok (Some p)
  else Ok None.

(** The node with the entry put in at [pos] and [new_vcn] as the child of the
    entry behind it; [None] when there is no memory. *)
Definition ntfs_ih_insert `{Heap} (ih orig_ie : list Z) (new_vcn pos : Z) : res (option (list Z)) :=
  ie ← ntfs_ie_dup orig_ie 0;
  match ie with
  | None => Ok None
  | Some ie =>
      f ← ie_flags ie 0;
      ie ← (if has_flag f INDEX_ENTRY_NODE then Ok (Some ie) else ntfs_ie_add_vcn ie);
      match ie with
      | None => Ok None
      | Some ie =>
          ie_node ← ntfs_ie_get_by_pos ih pos;
          old_vcn ← ntfs_ie_get_vcn ih ie_node;
          ih ← ntfs_ie_set_vcn ih ie_node new_vcn;
          ih ← ntfs_ie_insert ih ie ie_node;
          ih ← ntfs_ie_set_vcn ih ie_node old_vcn;
          Ok (Some ih)
      end
  end.

(** ** The check of an entry *)

Inductive problem := PR_IE_ZERO_LENGTH | PR_IE_END_FLAG_CORRUPTED | PR_IE_FLAG_SUB_NODE_CORRUPTED.

(** What the context of an index is used for: the shift of a vcn and the size
    of the index allocation, [None] when it cannot be opened. *)
Record index_ctx := mk_ictx { vcn_size_bits : Z; ia_data_size : option Z }.

(** [((key_length + offsetof(INDEX_ENTRY, key) + 7) & ~7)] *)
Definition aligned_key_end (key_length : Z) : Z := Z.land (key_length + 16 + 7) (Z.lnot 7).

(** A repair step: the new node and flag, or -1 when it is declined. *)
Definition repair (fix_ : problem -> bool) (p : problem) (ih : list Z) (ie flags : Z) : res (list Z * Z) :=
  if fix_ p then ih ← put_le 2 ih (ie + 12) flags; Ok (ih, 1) else Ok (ih, -1).

(** The checks of a node entry: [Some r] is an early return. *)
Definition check_vcn (ictx : option index_ctx) (ih : list Z) (ie : Z) : res (option Z) :=
  f ← ie_flags ih ie;
  if negb (has_flag f INDEX_ENTRY_NODE) then Ok None else
  match ictx with
  | None => Ok None
  | Some c =>
      vcn ← ntfs_ie_get_vcn ih ie;
      match ia_data_size c with
      | None => Ok (Some 0)
      | Some size => Ok (if size <? s64 (Z.shiftl (vcn + 1) (vcn_size_bits c)) then Some (-1) else None)
      end
  end.

(** The last part: keys and data that overflow from the entry. *)
Definition check_overflow (rule : COLLATION_RULES) (ih : list Z) (ie ret : Z) : res Z :=
  f ← ie_flags ih ie;
  if has_flag f INDEX_ENTRY_END then Ok ret else
  k ← ie_key_length ih ie;
  l ← ie_length ih ie;
  if negb (k =? 0) && (l <? k + 16) then Ok (-1) else
  if bool_decide (rule = COLLATION_FILE_NAME) then
    n ← aget ih (ie + 16 + 0x40);
    Ok (if l <? 16 + 0x42 + n * 2 then -1 else ret)
  else
    dl ← ie_data_length ih ie;
    if dl =? 0 then Ok ret else
    o ← ie_data_offset ih ie;
    Ok (if l <? o + dl then -1 else ret).

(** The node after the repairs, and the result: -1 for an inconsistent entry,
    1 for a repaired one.  [fix_] stands for [ntfs_fix_problem]. *)
Definition ntfs_index_entry_inconsistent (fix_ : problem -> bool) (ih : list Z) (ie : Z) (rule : COLLATION_RULES)
    (ictx : option index_ctx) : res (list Z * Z) :=
  l ← ie_length ih ie;
  k ← ie_key_length ih ie;
  '(ih, ret) ← (if (l =? 0) && (k =? 0) then
      (if fix_ PR_IE_ZERO_LENGTH then
         ih ← put_le 2 ih (ie + 8) 16; ih ← put_le 2 ih (ie + 12) INDEX_ENTRY_END; Ok (ih, 1)
       else Ok (ih, -1))
    else Ok (ih, 0));
  if ret <? 0 then Ok (ih, -1) else
  l ← ie_length ih ie;
  f ← ie_flags ih ie;
  '(ih, ret) ← (if (l =? 16) && (f =? 0) then repair fix_ PR_IE_END_FLAG_CORRUPTED ih ie INDEX_ENTRY_END else Ok (ih, ret));
  if ret <? 0 then Ok (ih, -1) else
  early ← check_vcn ictx ih ie;
  match early with
  | Some r => Ok (ih, r)
  | None =>
      f ← ie_flags ih ie;
      k ← ie_key_length ih ie;
      l ← ie_length ih ie;
      if has_flag f INDEX_ENTRY_NODE && (u64 (l - 8) <? aligned_key_end k) then Ok (ih, -1) else
      '(ih, ret) ← (if bool_decide (rule = COLLATION_FILE_NAME) && (aligned_key_end k =? u64 (l - 8)) &&
                       negb (has_flag f INDEX_ENTRY_NODE)
                    then repair fix_ PR_IE_FLAG_SUB_NODE_CORRUPTED ih ie (Z.lor f INDEX_ENTRY_NODE) else Ok (ih, ret));
      if ret <? 0 then Ok (ih, -1) else
      ret ← check_overflow rule ih ie ret;
      Ok (ih, ret)
  end.

(** ** The search for a key in a node *)

Inductive lookup_status :=
  | STATUS_OK (ie item : Z)
  | STATUS_NOT_FOUND (ie : Z)
  | STATUS_KEEP_SEARCHING (vcn item : Z).

(** The loop: the entry it stops at with its number, and whether it matches. *)
Fixpoint ie_lookup_loop (fuel : nat) (fix_ : problem -> bool) (collate : list Z -> Z -> list Z -> Z -> res Z) (rule : COLLATION_RULES)
    (ictx : option index_ctx) (key ih : list Z) (ie index_end item : Z) : res (list Z * Z * Z * bool) :=
  match fuel with
  | O => Undef
  | S fuel =>
      if index_end <? ie + 16 then Err ERANGE else
      l ← ie_length ih ie;
      if index_end <? ie + l then Err ERANGE else
      '(ih, rc) ← ntfs_index_entry_inconsistent fix_ ih ie rule ictx;
      if rc <? 0 then Err EIO else
      e ← ntfs_ie_end ih ie;
      if (e : bool) then Ok (ih, ie, item, false) else
      kl ← ie_key_length ih ie;
      rc ← collate key (zlen key) (drop (Z.to_nat (ie + 16)) ih) kl;
      if rc =? NTFS_COLLATION_ERROR then Err ERANGE else
      if rc =? -1 then Ok (ih, ie, item, false) else
      if rc =? 0 then Ok (ih, ie, item, true) else
      ie ← ntfs_ie_get_next ih ie;
      ie_lookup_loop fuel fix_ collate rule ictx key ih ie index_end (item + 1)
  end.

(** The node, which the checks may have repaired, and the result. *)
Definition ntfs_ie_lookup (fuel : nat) (fix_ : problem -> bool) (collate : list Z -> Z -> list Z -> Z -> res Z) (rule : COLLATION_RULES)
    (ictx : option index_ctx) (key ih : list Z) : res (list Z * lookup_status) :=
  index_end ← ntfs_ie_get_end ih;
  ie ← ntfs_ie_get_first ih;
  '(ih, ie, item, found) ← ie_lookup_loop fuel fix_ collate rule ictx key ih ie index_end 0;
  if (found : bool) then Ok (ih, STATUS_OK ie item) else
  f ← ie_flags ih ie;
  if negb (has_flag f INDEX_ENTRY_NODE) then Ok (ih, STATUS_NOT_FOUND ie) else
  vcn ← ntfs_ie_get_vcn ih ie;
  if vcn <? 0 then Err EINVAL else Ok (ih, STATUS_KEEP_SEARCHING vcn item).
