(* ===== verification/IndexNodeThm.v ===== *)
(** The operations on an index node refine operations on the list of its
    entries: a node is laid out by [node_of] from its header, its entries, the
    end entry and the unused rest of its memory. *)

From S2P Require Import Prelude Unistr Bytes Collate IndexNode.

(** * Specification *)

Definition e_length (e : list Z) : Z := le (take 2 (drop 8 e)).
Definition e_key_length (e : list Z) : Z := le (take 2 (drop 10 e)).
Definition e_flags (e : list Z) : Z := le (take 2 (drop 12 e)).
Definition e_end (e : list Z) : bool := has_flag (e_flags e) INDEX_ENTRY_END.

(** An entry has a header, and its length field is right. *)
Record entry_ok (e : list Z) : Prop := {
  eo_bytes : bytes e;
  eo_size : 16 <= zlen e;
  eo_length : e_length e = zlen e
}.

(** The bytes of a node: [h0] is the offset of the entries, [h1] what follows
    the length in the header. *)
Definition node_length (h1 : list Z) (es : list (list Z)) (last : list Z) : Z := 8 + zlen h1 + zlen (concat es) + zlen last.
Definition node_of (h0 h1 : list Z) (es : list (list Z)) (last slack : list Z) : list Z :=
  h0 ++ le_bytes 4 (node_length h1 es last) ++ h1 ++ concat es ++ last ++ slack.

Record node_wf (h0 h1 : list Z) (es : list (list Z)) (last : list Z) : Prop := {
  nw_h0 : zlen h0 = 4;
  nw_h1 : 8 <= zlen h1;
  nw_offset : le h0 = 8 + zlen h1;
  nw_entries : Forall (fun e => entry_ok e /\ e_end e = false) es;
  nw_last : entry_ok last /\ e_end last = true;
  nw_size : node_length h1 es last < 2 ^ 32
}.

(** The place of the entry behind the entries [a]. *)
Definition offset_of (h1 : list Z) (a : list (list Z)) : Z := 8 + zlen h1 + zlen (concat a).

(** * Proofs *)

Section fields.
Context (pre e post : list Z) (He : entry_ok e).

Lemma field_at n k : 0 <= n -> 0 <= k -> k + n <= zlen e ->
  get_le n (pre ++ e ++ post) (zlen pre + k) = Ok (le (take (Z.to_nat n) (drop (Z.to_nat k) e))).
Proof. intros Hn Hk Hl. rewrite get_le_app by lia. unfold get_le, aslice. by zdec. Qed.

Lemma length_at : ie_length (pre ++ e ++ post) (zlen pre) = Ok (zlen e).
Proof. destruct He as [_ Hs Hl]. unfold ie_length. rewrite field_at by lia. f_equal. exact Hl. Qed.

Lemma key_length_at : ie_key_length (pre ++ e ++ post) (zlen pre) = Ok (e_key_length e).
Proof. destruct He as [_ Hs Hl]. unfold ie_key_length. by rewrite field_at by lia. Qed.

Lemma flags_at : ie_flags (pre ++ e ++ post) (zlen pre) = Ok (e_flags e).
Proof. destruct He as [_ Hs Hl]. unfold ie_flags. by rewrite field_at by lia. Qed.

Lemma end_at : ntfs_ie_end (pre ++ e ++ post) (zlen pre) = Ok (e_end e).
Proof.
  unfold ntfs_ie_end. rewrite flags_at. cbn [mbind res_bind]. unfold e_end. destruct (has_flag _ _); [done|].
  rewrite length_at. cbn [mbind res_bind]. destruct He. by zdec.
Qed.

Lemma next_at : ntfs_ie_get_next (pre ++ e ++ post) (zlen pre) = Ok (zlen pre + zlen e).
Proof. unfold ntfs_ie_get_next. by rewrite length_at. Qed.
End fields.

Lemma concat_cons (e : list Z) es : concat (e :: es) = e ++ concat es.
Proof. done. Qed.

Lemma node_len_le es : Forall (fun e => entry_ok e /\ e_end e = false) es -> (length es <= length (concat es))%nat.
Proof.
  induction 1 as [|e es [[_ Hs _] _] _ IH]; [done|]. cbn. rewrite length_app. unfold zlen in Hs. lia.
Qed.

Section node.
Context (h0 h1 : list Z) (last : list Z).

Lemma node_header es slack : node_wf h0 h1 es last ->
  ntfs_ie_get_first (node_of h0 h1 es last slack) = Ok (offset_of h1 []) /\
  ntfs_ie_get_end (node_of h0 h1 es last slack) = Ok (node_length h1 es last).
Proof.
  intros [E0 E1 Eo _ _ Hs]. unfold node_of, ntfs_ie_get_first, ntfs_ie_get_end, ih_entries_offset, ih_index_length, offset_of. split.
  - rewrite get_le_head by done. cbn [concat]. rewrite zlen_nil, Z.add_0_r. by rewrite Eo.
  - rewrite get_le_mid by (rewrite ?le_bytes_zlen; done). f_equal. apply le_le_bytes_small. split; [|exact Hs].
    unfold node_length. pose proof (zlen_nonneg (concat es)). pose proof (zlen_nonneg last). lia.
Qed.

(** The node around the entry behind [a]. *)
Lemma node_split a e b slack : zlen h0 = 4 ->
  exists pre, node_of h0 h1 (a ++ e :: b) last slack = pre ++ e ++ (concat b ++ last ++ slack) /\ zlen pre = offset_of h1 a.
Proof.
  intros E0. exists (h0 ++ le_bytes 4 (node_length h1 (a ++ e :: b) last) ++ h1 ++ concat a). split.
  - unfold node_of. by rewrite concat_app, concat_cons, <- !app_assoc.
  - rewrite !zlen_app, le_bytes_zlen. unfold offset_of. lia.
Qed.

Lemma node_split_last es slack : zlen h0 = 4 ->
  exists pre, node_of h0 h1 es last slack = pre ++ last ++ slack /\ zlen pre = offset_of h1 es.
Proof.
  intros E0. exists (h0 ++ le_bytes 4 (node_length h1 es last) ++ h1 ++ concat es). split.
  - unfold node_of. by rewrite <- !app_assoc.
  - rewrite !zlen_app, le_bytes_zlen. unfold offset_of. lia.
Qed.

Lemma offset_snoc a e : offset_of h1 (a ++ [e]) = offset_of h1 a + zlen e.
Proof. unfold offset_of. rewrite concat_app, zlen_app. cbn [concat]. rewrite app_nil_r. lia. Qed.

Lemma wf_mid a e b : node_wf h0 h1 (a ++ e :: b) last -> entry_ok e /\ e_end e = false.
Proof. intros [_ _ _ He _ _]. apply Forall_app in He as [_ He]. by apply Forall_cons_1 in He as [? _]. Qed.

(** What is seen at the entry behind [a]. *)
Lemma entry_here a e b slack : node_wf h0 h1 (a ++ e :: b) last ->
  ntfs_ie_end (node_of h0 h1 (a ++ e :: b) last slack) (offset_of h1 a) = Ok false /\
  ntfs_ie_get_next (node_of h0 h1 (a ++ e :: b) last slack) (offset_of h1 a) = Ok (offset_of h1 (a ++ [e])).
Proof.
  intros W. destruct (wf_mid _ _ _ W) as [He Hend]. destruct (node_split a e b slack (nw_h0 _ _ _ _ W)) as (pre & -> & Ep). rewrite offset_snoc, <- Ep.
  rewrite end_at, next_at by done. rewrite Hend. done.
Qed.

Lemma last_here es slack : node_wf h0 h1 es last ->
  ntfs_ie_end (node_of h0 h1 es last slack) (offset_of h1 es) = Ok true.
Proof.
  intros W. destruct (nw_last _ _ _ _ W) as [He Hend]. destruct (node_split_last es slack (nw_h0 _ _ _ _ W)) as (pre & -> & <-).
  by rewrite end_at, Hend by done.
Qed.

Lemma offset_before a b : Forall (fun e => entry_ok e /\ e_end e = false) b -> entry_ok last ->
  offset_of h1 a < node_length h1 (a ++ b) last.
Proof.
  intros _ [_ Hs _]. unfold offset_of, node_length. rewrite concat_app, zlen_app. pose proof (zlen_nonneg (concat b)). lia.
Qed.

(** ** Walks *)

Lemma ie_advance_spec slack a : forall p b, node_wf h0 h1 (p ++ a ++ b) last ->
  ie_advance (length a) (node_of h0 h1 (p ++ a ++ b) last slack) (offset_of h1 p) = Ok (offset_of h1 (p ++ a)).
Proof.
  induction a as [|e a IH]; intros p b W; [by rewrite app_nil_r|]. cbn [length ie_advance app] in *.
  destruct (entry_here p e (a ++ b) slack W) as [_ ->]. cbn [mbind res_bind].
  assert (p ++ e :: a ++ b = (p ++ [e]) ++ a ++ b) as E by (by rewrite <- app_assoc). rewrite E in *.
  rewrite IH by done. by rewrite <- app_assoc.
Qed.

Lemma get_by_pos_spec a b slack : node_wf h0 h1 (a ++ b) last ->
  ntfs_ie_get_by_pos (node_of h0 h1 (a ++ b) last slack) (zlen a) = Ok (offset_of h1 a).
Proof.
  intros W. unfold ntfs_ie_get_by_pos. destruct (node_header (a ++ b) slack W) as [-> _]. cbn [mbind res_bind].
  rewrite zlen_to_nat. exact (ie_advance_spec slack a [] b W).
Qed.

Lemma get_last_spec slack b : forall fuel a, node_wf h0 h1 (a ++ b) last -> (length b < fuel)%nat ->
  ntfs_ie_get_last fuel (node_of h0 h1 (a ++ b) last slack) (offset_of h1 a) (node_length h1 (a ++ b) last)
  = Ok (offset_of h1 (a ++ b)).
Proof.
  induction b as [|e b IH]; intros [|fuel] a W Hf; [lia| |cbn in Hf; lia|]; cbn [ntfs_ie_get_last].
  - rewrite app_nil_r in *. destruct (_ <=? _); [done|]. by rewrite last_here.
  - pose proof (nw_entries _ _ _ _ W) as He. apply Forall_app in He as [_ He].
    pose proof (offset_before a (e :: b) He (proj1 (nw_last _ _ _ _ W))). zdec.
    destruct (entry_here a e b slack W) as [-> ->]. cbn [mbind res_bind].
    assert (a ++ e :: b = (a ++ [e]) ++ b) as E by (by rewrite <- app_assoc). rewrite E in *. apply IH; [done|cbn in Hf; lia].
Qed.

Lemma numof_spec slack b : forall fuel a n, node_wf h0 h1 (a ++ b) last -> (length b < fuel)%nat ->
  numof_loop fuel (node_of h0 h1 (a ++ b) last slack) (offset_of h1 a) (node_length h1 (a ++ b) last) n = Ok (n + zlen b).
Proof.
  induction b as [|e b IH]; intros [|fuel] a n W Hf; [lia| |cbn in Hf; lia|]; cbn [numof_loop].
  - rewrite app_nil_r in *. rewrite last_here by done. cbn. by rewrite Z.add_0_r.
  - pose proof (nw_entries _ _ _ _ W) as He. apply Forall_app in He as [_ He].
    pose proof (offset_before a (e :: b) He (proj1 (nw_last _ _ _ _ W))).
    destruct (entry_here a e b slack W) as [-> ->]. cbn [mbind res_bind]. zdec. cbn [mbind res_bind].
    assert (a ++ e :: b = (a ++ [e]) ++ b) as E by (by rewrite <- app_assoc). rewrite E in *.
    rewrite IH by (done || (cbn in Hf; lia)). rewrite zlen_cons. f_equal. lia.
Qed.

Lemma median_count_spec slack b : forall fuel a n, node_wf h0 h1 (a ++ b) last -> (length b < fuel)%nat ->
  median_count fuel (node_of h0 h1 (a ++ b) last slack) (offset_of h1 a) (node_length h1 (a ++ b) last) n = Ok (n + zlen b).
Proof.
  induction b as [|e b IH]; intros [|fuel] a n W Hf; [lia| |cbn in Hf; lia|]; cbn [median_count].
  - rewrite app_nil_r in *. rewrite last_here by done. rewrite zlen_nil, Z.add_0_r. by destruct (_ <=? _).
  - pose proof (nw_entries _ _ _ _ W) as He. apply Forall_app in He as [_ He].
    pose proof (offset_before a (e :: b) He (proj1 (nw_last _ _ _ _ W))).
    destruct (entry_here a e b slack W) as [-> ->]. zdec. cbn [mbind res_bind].
    assert (a ++ e :: b = (a ++ [e]) ++ b) as E by (by rewrite <- app_assoc). rewrite E in *.
    rewrite IH by (done || (cbn in Hf; lia)). rewrite zlen_cons. f_equal. lia.
Qed.

(** The median of [n] entries is the one behind half of them. *)
Lemma get_median_spec fuel a b slack : node_wf h0 h1 (a ++ b) last -> (length (a ++ b) < fuel)%nat ->
  zlen a = zlen (a ++ b) / 2 ->
  ntfs_ie_get_median fuel (node_of h0 h1 (a ++ b) last slack) = Ok (offset_of h1 a).
Proof.
  intros W Hf Ha. unfold ntfs_ie_get_median. destruct (node_header (a ++ b) slack W) as [-> ->]. cbn [mbind res_bind].
  pose proof (median_count_spec slack (a ++ b) fuel [] 0 W Hf) as E. cbn [app] in E. rewrite E. cbn [mbind res_bind].
  rewrite Z.add_0_l, Z.quot_div_nonneg, <- Ha by (apply zlen_nonneg || lia).
  replace (zlen a - 1 + 1) with (zlen a) by lia. rewrite zlen_to_nat. exact (ie_advance_spec slack a [] b W).
Qed.

(** ** Deletion *)

Lemma put_length es n slack : zlen h0 = 4 ->
  put_le 4 (node_of h0 h1 es last slack) 4 n = Ok (h0 ++ le_bytes 4 n ++ h1 ++ concat es ++ last ++ slack).
Proof.
  intros E0. unfold put_le, node_of. apply awrite_mid; [done|by rewrite !le_bytes_length].
Qed.

Lemma ie_delete_spec a e b slack : node_wf h0 h1 (a ++ e :: b) last -> exists slack',
  ntfs_ie_delete (node_of h0 h1 (a ++ e :: b) last slack) (offset_of h1 a) = Ok (node_of h0 h1 (a ++ b) last slack') /\
  zlen slack' = zlen e + zlen slack.
Proof.
  intros W. pose proof (nw_h0 _ _ _ _ W) as E0. destruct (wf_mid _ _ _ W) as [He _]. pose proof (nw_size _ _ _ _ W) as Hs.
  unfold ntfs_ie_delete. change ih_index_length with ntfs_ie_get_end. destruct (node_header (a ++ e :: b) slack W) as [_ ->].
  cbn [mbind res_bind].
  assert (forall n, exists pre, h0 ++ le_bytes 4 n ++ h1 ++ concat (a ++ e :: b) ++ last ++ slack = pre ++ e ++ (concat b ++ last ++ slack) /\
    zlen pre = offset_of h1 a /\ pre = h0 ++ le_bytes 4 n ++ h1 ++ concat a) as Hpre.
  { intros n. eexists. split; [|split; [|reflexivity]]; [by rewrite concat_app, concat_cons, <- !app_assoc|].
    rewrite !zlen_app, le_bytes_zlen. unfold offset_of. lia. }
  destruct (node_split a e b slack E0) as (pre0 & En & Ep0). rewrite En, <- Ep0, length_at by done. rewrite Ep0, <- En. cbn [mbind res_bind].
  assert (u32 (node_length h1 (a ++ e :: b) last - zlen e) = node_length h1 (a ++ b) last) as ->.
  { unfold node_length in *. rewrite !concat_app, !concat_cons, !zlen_app in *. pose proof (zlen_nonneg (concat a)).
    pose proof (zlen_nonneg (concat b)). pose proof (zlen_nonneg last). pose proof (zlen_nonneg h1). pose proof (zlen_nonneg e). rewrite u32_small; lia. }
  rewrite put_length by done. cbn [mbind res_bind]. destruct (Hpre (node_length h1 (a ++ b) last)) as (pre & -> & Ep & Eq).
  rewrite <- Ep, length_at by done. cbn [mbind res_bind]. unfold memmove.
  assert (node_length h1 (a ++ b) last - zlen pre = zlen (concat b ++ last)) as ->.
  { rewrite Ep. unfold node_length, offset_of. rewrite concat_app, !zlen_app. lia. }
  rewrite (app_assoc pre e), (app_assoc (concat b) last), aslice_mid by (rewrite ?zlen_app; done). cbn [mbind res_bind].
  set (m := concat b ++ last). exists (drop (length m) (e ++ m ++ slack)).
  assert (zlen (drop (length m) (e ++ m ++ slack)) = zlen e + zlen slack) as Ez.
  { unfold zlen. rewrite length_drop, !length_app. lia. }
  split; [|done]. rewrite <- app_assoc. rewrite <- (take_drop (length m) (e ++ m ++ slack)) at 1.
  rewrite awrite_mid; [|done|rewrite length_take, !length_app; lia].
  rewrite Eq. unfold node_of, m. by rewrite concat_app, <- !app_assoc.
Qed.

(** ** Insertion *)

Lemma length_of_entry e : entry_ok e -> ie_length e 0 = Ok (zlen e).
Proof. intros He. pose proof (length_at [] e [] He) as E. cbn [app] in E. by rewrite app_nil_r in E. Qed.

(** Moving [m] up by the size of [e] and copying [e] before it. *)
Lemma open_gap pre m s1 s2 (e : list Z) : length s1 = length e ->
  (ih ← memmove (pre ++ m ++ s1 ++ s2) (zlen pre + zlen e) (zlen pre) (zlen m); c ← aslice e 0 (zlen e); awrite ih (zlen pre) c)
  = Ok (pre ++ e ++ m ++ s2).
Proof.
  intros Hl. unfold memmove. rewrite aslice_mid by done. cbn [mbind res_bind].
  set (x := take (length e) (m ++ s1)). set (y := drop (length e) (m ++ s1)).
  assert (m ++ s1 ++ s2 = x ++ y ++ s2) as -> by (unfold x, y; by rewrite !app_assoc, take_drop).
  assert (length x = length e) as Hx by (unfold x; rewrite length_take, length_app; lia).
  assert (length y = length m) as Hy by (unfold y; rewrite length_drop, length_app; lia).
  rewrite (app_assoc pre x), awrite_mid by (rewrite ?zlen_app; unfold zlen; lia). cbn [mbind res_bind].
  rewrite <- (app_nil_r e) at 1. rewrite (aslice_mid [] e []) by done. cbn [mbind res_bind]. rewrite <- app_assoc. by apply awrite_mid.
Qed.

Lemma ie_insert_spec a e b slack : node_wf h0 h1 (a ++ b) last -> entry_ok e -> zlen e <= zlen slack ->
  node_length h1 (a ++ e :: b) last < 2 ^ 32 ->
  ntfs_ie_insert (node_of h0 h1 (a ++ b) last slack) e (offset_of h1 a)
  = Ok (node_of h0 h1 (a ++ e :: b) last (drop (length e) slack)).
Proof.
  intros W He Hsl Hs. pose proof (nw_h0 _ _ _ _ W) as E0. unfold ntfs_ie_insert. rewrite length_of_entry by done. cbn [mbind res_bind].
  change ih_index_length with ntfs_ie_get_end. destruct (node_header (a ++ b) slack W) as [_ ->]. cbn [mbind res_bind].
  assert (node_length h1 (a ++ b) last + zlen e = node_length h1 (a ++ e :: b) last) as ->.
  { unfold node_length. rewrite !concat_app, concat_cons, !zlen_app. lia. }
  assert (0 <= node_length h1 (a ++ e :: b) last) as H0.
  { unfold node_length. pose proof (zlen_nonneg (concat (a ++ e :: b))). pose proof (zlen_nonneg last). pose proof (zlen_nonneg h1). lia. }
  rewrite u32_small, put_length by done. cbn [mbind res_bind]. unfold ntfs_ie_get_end, ih_index_length.
  rewrite get_le_mid by (rewrite ?le_bytes_zlen; done). rewrite le_le_bytes_small by done. cbn [mbind res_bind].
  set (n := node_length h1 (a ++ e :: b) last) in *. set (pre := h0 ++ le_bytes 4 n ++ h1 ++ concat a).
  assert (offset_of h1 a = zlen pre) as -> by (unfold pre; rewrite !zlen_app, le_bytes_zlen; unfold offset_of; lia).
  assert (n - zlen pre - zlen e = zlen (concat b ++ last)) as ->.
  { unfold n, pre, node_length. rewrite !concat_app, concat_cons, !zlen_app, le_bytes_zlen. lia. }
  assert (h0 ++ le_bytes 4 n ++ h1 ++ concat (a ++ b) ++ last ++ slack
    = pre ++ (concat b ++ last) ++ take (length e) slack ++ drop (length e) slack) as ->
    by (unfold pre; by rewrite take_drop, concat_app, <- !app_assoc).
  rewrite open_gap by (unfold zlen in Hsl; rewrite length_take; lia).
  unfold node_of, pre. fold n. by rewrite concat_app, concat_cons, <- !app_assoc.
Qed.
End node.
