(* ===== verification/IndexLookup.v ===== *)
(** The search for a key in an index node, over any collation that keeps the
    promises of [Collation]. *)

From Stdlib Require Import Sorted.
From S2P Require Import Prelude Unistr Bytes Collate IndexNode IndexNodeThm.

(** * Specification *)

Definition e_key (e : list Z) : list Z := take (Z.to_nat (e_key_length e)) (drop 16 e).
Definition e_node (e : list Z) : bool := has_flag (e_flags e) INDEX_ENTRY_NODE.
Definition e_vcn (e : list Z) : Z := s64 (le (take 8 (drop (Z.to_nat (zlen e - 8)) e))).

(** An entry that passes the checks without a repair. *)
Record entry_good (rule : COLLATION_RULES) (ictx : option index_ctx) (e : list Z) : Prop := {
  eg_ok : entry_ok e;
  eg_end : zlen e = 16 -> e_flags e <> 0;
  eg_node : e_node e = true -> aligned_key_end (e_key_length e) <= zlen e - 8;
  eg_vcn : forall c size, e_node e = true -> ictx = Some c -> ia_data_size c = Some size ->
    s64 (Z.shiftl (e_vcn e + 1) (vcn_size_bits c)) <= size;
  eg_leaf : rule = COLLATION_FILE_NAME -> aligned_key_end (e_key_length e) = zlen e - 8 -> e_node e = true;
  eg_key : e_end e = false -> e_key_length e + 16 <= zlen e;
  eg_name : e_end e = false -> rule = COLLATION_FILE_NAME -> exists n, aget e 0x50 = Ok n /\ 0x52 + 2 * n <= zlen e;
  eg_data : e_end e = false -> rule <> COLLATION_FILE_NAME -> le (take 2 (drop 2 e)) <> 0 ->
    le (take 2 e) + le (take 2 (drop 2 e)) <= zlen e
}.

(** * Proofs *)

Section check.
Context (rule : COLLATION_RULES) (ictx : option index_ctx) (pre e post : list Z) (Hg : entry_good rule ictx e).

Lemma vcn_at : ntfs_ie_get_vcn (pre ++ e ++ post) (zlen pre) = Ok (e_vcn e).
Proof.
  pose proof (eg_ok _ _ _ Hg) as He. unfold ntfs_ie_get_vcn, ntfs_ie_get_vcn_addr. rewrite length_at by done. cbn [mbind res_bind].
  destruct He as [_ Hs _]. replace (zlen pre + zlen e - 8) with (zlen pre + (zlen e - 8)) by lia. by rewrite field_at by lia.
Qed.

Lemma check_vcn_good : check_vcn ictx (pre ++ e ++ post) (zlen pre) = Ok None \/ check_vcn ictx (pre ++ e ++ post) (zlen pre) = Ok (Some 0).
Proof.
  unfold check_vcn. rewrite flags_at by apply Hg. cbn [mbind res_bind]. change (has_flag _ INDEX_ENTRY_NODE) with (e_node e).
  pose proof vcn_at as Ev. pose proof (eg_vcn _ _ _ Hg) as Hv.
  destruct (e_node e) eqn:En; cbn [negb]; [|by left]. destruct ictx as [c|]; [|by left].
  rewrite Ev. cbn [mbind res_bind]. destruct (ia_data_size c) as [size|] eqn:Es; [|by right].
  pose proof (Hv c size eq_refl eq_refl Es). zdec. by left.
Qed.

Lemma check_overflow_good : check_overflow rule (pre ++ e ++ post) (zlen pre) 0 = Ok 0.
Proof.
  pose proof (eg_ok _ _ _ Hg) as He. unfold check_overflow. rewrite flags_at by done. cbn [mbind res_bind].
  change (has_flag _ INDEX_ENTRY_END) with (e_end e). destruct (e_end e) eqn:Ee; [done|].
  rewrite key_length_at, length_at by done. cbn [mbind res_bind]. pose proof (eg_key _ _ _ Hg Ee). zdec. rewrite andb_false_r.
  destruct (bool_decide (rule = COLLATION_FILE_NAME)) eqn:Er.
  - apply bool_decide_eq_true in Er. destruct (eg_name _ _ _ Hg Ee Er) as (n & En & Hn).
    pose proof (aget_range _ _ _ En). replace (zlen pre + 16 + 0x40) with (zlen pre + 0x50) by lia.
    assert (aget (pre ++ e ++ post) (zlen pre + 0x50) = Ok n) as ->.
    { rewrite aget_app_r by lia. replace (zlen pre + 0x50 - zlen pre) with 0x50 by lia. by rewrite aget_app_l. }
    cbn [mbind res_bind]. by zdec.
  - apply bool_decide_eq_false in Er. pose proof (eg_data _ _ _ Hg Ee Er) as Hd. destruct He as [_ Hs _].
    unfold ie_data_length, ie_data_offset. rewrite field_at by lia.
    pose proof (field_at pre e post 2 0 ltac:(lia) ltac:(lia) ltac:(lia)) as E0. rewrite Z.add_0_r in E0. rewrite E0.
    cbn [mbind res_bind]. destruct (Z.eqb_spec (le (take (Z.to_nat 2) (drop (Z.to_nat 2) e))) 0) as [|Hne]; [done|].
    specialize (Hd Hne). change (drop (Z.to_nat 0) e) with e. change (Z.to_nat 2) with 2%nat. by zdec.
Qed.

Lemma aligned_key_end_range k : 0 <= k -> 16 <= aligned_key_end k.
Proof.
  intros Hk. unfold aligned_key_end. change 7 with (Z.ones 3) at 2. rewrite land_lnot_ones by lia. change (2 ^ 3) with 8. dlia.
Qed.

Lemma check_good fix_ : ntfs_index_entry_inconsistent fix_ (pre ++ e ++ post) (zlen pre) rule ictx = Ok (pre ++ e ++ post, 0).
Proof.
  pose proof (eg_ok _ _ _ Hg) as He. pose proof (eo_size _ He). unfold ntfs_index_entry_inconsistent.
  rewrite length_at, key_length_at by done. cbn [mbind res_bind]. zdec. cbn [andb mbind res_bind Z.ltb Z.compare].
  rewrite length_at, flags_at by done. cbn [mbind res_bind].
  assert ((zlen e =? 16) && (e_flags e =? 0) = false) as ->.
  { destruct (Z.eqb_spec (zlen e) 16) as [E|]; [|done]. pose proof (eg_end _ _ _ Hg E). cbn [andb]. by apply Z.eqb_neq. }
  cbn [mbind res_bind Z.ltb Z.compare]. destruct check_vcn_good as [-> | ->]; cbn [mbind res_bind]; [|done].
  rewrite flags_at, key_length_at, length_at by done. cbn [mbind res_bind].
  change (has_flag (e_flags e) INDEX_ENTRY_NODE) with (e_node e).
  assert (zlen e < 2 ^ 64) as Hlt.
  { destruct He as [Hb _ Hl]. rewrite <- Hl. unfold e_length.
    assert (bytes (take 2 (drop 8 e))) as Hr%le_range by (apply Forall_take, Forall_drop, Hb).
    assert (zlen (take 2 (drop 8 e)) = 2) as E2 by (unfold zlen in *; rewrite length_take, length_drop; lia). rewrite E2 in Hr. lia. }
  rewrite u64_small by lia.
  assert (e_node e && (zlen e - 8 <? aligned_key_end (e_key_length e)) = false) as ->.
  { destruct (e_node e) eqn:En; [|done]. pose proof (eg_node _ _ _ Hg En). by zdec. }
  assert (bool_decide (rule = COLLATION_FILE_NAME) && (aligned_key_end (e_key_length e) =? zlen e - 8) && negb (e_node e) = false) as ->.
  { destruct (bool_decide _) eqn:Er; [|done]. apply bool_decide_eq_true in Er. destruct (Z.eqb_spec (aligned_key_end (e_key_length e)) (zlen e - 8)) as [Ea|]; [|done].
    by rewrite (eg_leaf _ _ _ Hg Er Ea). }
  cbn [mbind res_bind Z.ltb Z.compare]. by rewrite check_overflow_good.
Qed.
End check.

(** ** The loop *)

Section lookup.
Context {collate : list Z -> Z -> list Z -> Z -> res Z} {valid : list Z -> Prop} {cmp : list Z -> list Z -> comparison}.
Context {HC : Collation collate valid cmp}.
Context (rule : COLLATION_RULES) (ictx : option index_ctx) (fix_ : problem -> bool).
Context (h0 h1 last slack : list Z).
Implicit Types (es a b : list (list Z)) (e key : list Z).

(** A node whose entries pass the checks and have valid keys. *)
Record good_node es : Prop := {
  gn_wf : node_wf h0 h1 es last;
  gn_good : Forall (entry_good rule ictx) es;
  gn_last : entry_good rule ictx last;
  gn_keys : Forall (fun e => valid (e_key e)) es
}.

Definition greater key e : Prop := cmp key (e_key e) = Gt.
Definition less key e : Prop := cmp key (e_key e) = Lt.

(** The key of an entry of the node, with what follows it. *)
Lemma key_at pre e post : e_key_length e + 16 <= zlen e -> 0 <= e_key_length e ->
  exists r, drop (Z.to_nat (zlen pre + 16)) (pre ++ e ++ post) = e_key e ++ r /\ zlen (e_key e) = e_key_length e.
Proof.
  intros Hl H0. exists (drop (Z.to_nat (e_key_length e)) (drop 16 e) ++ post). split.
  - unfold e_key. rewrite (app_assoc (take _ _)), take_drop. replace (Z.to_nat (zlen pre + 16)) with (length pre + 16)%nat by (unfold zlen; lia).
    rewrite <- drop_drop, drop_app_length, drop_app_le; [done|]. unfold zlen in Hl. lia.
  - unfold e_key, zlen in *. rewrite length_take, length_drop. lia.
Qed.

Lemma key_length_nonneg e : entry_ok e -> 0 <= e_key_length e.
Proof.
  intros [Hb _ _]. assert (bytes (take 2 (drop 10 e))) as Hr%le_range by (apply Forall_take, Forall_drop, Hb). apply Hr.
Qed.

Lemma lookup_loop_spec key : valid key -> forall b fuel a item, good_node (a ++ b) -> (length b < fuel)%nat ->
  exists b1 b2 found, b = b1 ++ b2 /\ Forall (greater key) b1 /\
    ie_lookup_loop fuel fix_ collate rule ictx key (node_of h0 h1 (a ++ b) last slack) (offset_of h1 a)
      (node_length h1 (a ++ b) last) item
    = Ok (node_of h0 h1 (a ++ b) last slack, offset_of h1 (a ++ b1), item + zlen b1, found) /\
    match b2 with
    | [] => found = false
    | e :: _ => if (found : bool) then cmp key (e_key e) = Eq else less key e
    end.
Proof.
  intros Hk. induction b as [|e b IH]; intros [|fuel] a item G Hf; [lia| |cbn in Hf; lia|].
  - exists [], [], false. split_and!; [done|constructor| |done]. rewrite app_nil_r in *. rewrite zlen_nil, Z.add_0_r.
    pose proof (gn_wf _ G) as W. pose proof (eo_size _ (proj1 (nw_last _ _ _ _ W))) as Hs. pose proof (gn_last _ G) as Hg.
    assert (node_length h1 a last = offset_of h1 a + zlen last) as -> by (unfold node_length, offset_of; lia).
    destruct (node_split_last h0 h1 last a slack (nw_h0 _ _ _ _ W)) as (pre & -> & <-). cbn [ie_lookup_loop].
    zdec. rewrite length_at by apply Hg. cbn [mbind res_bind]. zdec. rewrite check_good by done. cbn [mbind res_bind Z.ltb Z.compare].
    rewrite end_at, (proj2 (nw_last _ _ _ _ W)) by apply Hg. done.
  - pose proof (gn_wf _ G) as W. destruct (wf_mid _ _ _ _ _ _ W) as [He Hend]. pose proof (gn_good _ G) as Hgs.
    apply Forall_app in Hgs as [_ Hgs]. apply Forall_cons_1 in Hgs as [Hg _].
    pose proof (gn_keys _ G) as Hks. apply Forall_app in Hks as [_ Hks]. apply Forall_cons_1 in Hks as [Hke _].
    destruct (node_split h0 h1 last a e b slack (nw_h0 _ _ _ _ W)) as (pre & En & Ep). cbn [ie_lookup_loop].
    pose proof (eo_size _ He) as Hs. pose proof (zlen_nonneg (concat b)). pose proof (zlen_nonneg last).
    assert (node_length h1 (a ++ e :: b) last = offset_of h1 a + zlen e + zlen (concat b) + zlen last) as El.
    { unfold node_length, offset_of. rewrite concat_app, concat_cons, !zlen_app. lia. }
    rewrite El. zdec. rewrite En, <- Ep, length_at by done. cbn [mbind res_bind]. zdec.
    rewrite check_good by done. cbn [mbind res_bind Z.ltb Z.compare]. rewrite end_at, Hend by done. cbn [mbind res_bind].
    rewrite key_length_at by done. cbn [mbind res_bind].
    destruct (key_at pre e (concat b ++ last ++ slack) (eg_key _ _ _ Hg Hend) (key_length_nonneg e He)) as (r & Er & Ekl).
    rewrite Er, <- Ekl. pose proof (collate_cmp key [] (e_key e) r Hk Hke) as Ecmp. rewrite app_nil_r in Ecmp. rewrite Ecmp. cbn [mbind res_bind].
    destruct (cmp key (e_key e)) eqn:Ec; cbn [sgn]; change NTFS_COLLATION_ERROR with (-2); cbn [Z.eqb Pos.eqb].
    + exists [], (e :: b), true. rewrite app_nil_r, zlen_nil, Z.add_0_r, Ep. split_and!; [done|constructor|done|done].
    + exists [], (e :: b), false. rewrite app_nil_r, zlen_nil, Z.add_0_r, Ep. split_and!; [done|constructor|done|done].
    + rewrite next_at by done. cbn [mbind res_bind]. rewrite <- En, Ep, <- El, <- offset_snoc.
      assert (a ++ e :: b = (a ++ [e]) ++ b) as Ea by (by rewrite <- app_assoc).
      destruct (IH fuel (a ++ [e]) (item + 1)) as (b1 & b2 & found & Eb & Hgt & E & Hm); [by rewrite <- Ea|cbn in Hf; lia|].
      rewrite <- Ea in E. exists (e :: b1), b2, found. rewrite Eb. split_and!; [done|by constructor| |done].
      by rewrite <- Eb, E, zlen_cons, <- app_assoc, Z.add_assoc.
Qed.

(** ** Sorted nodes *)

Definition sorted es : Prop := StronglySorted (fun e1 e2 => cmp (e_key e1) (e_key e2) = Lt) es.

Lemma less_tail key e b : less key e -> sorted (e :: b) -> Forall (less key) (e :: b).
Proof.
  intros Hl [_ Hs]%StronglySorted_inv. constructor; [done|]. eapply Forall_impl; [|exact Hs]. cbn beta. intros x Hx.
  unfold less in *. by eapply cmp_trans.
Qed.

Lemma sorted_app a b : sorted (a ++ b) -> sorted b.
Proof. induction a as [|x a IH]; [done|]. cbn. intros [Hs _]%StronglySorted_inv. by apply IH. Qed.

Lemma lookup_spec key es fuel : valid key -> good_node es -> sorted es -> (length es < fuel)%nat ->
  let node := node_of h0 h1 es last slack in
  exists a b, es = a ++ b /\ Forall (greater key) a /\
  match ntfs_ie_lookup fuel fix_ collate rule ictx key node with
  | Ok (ih, STATUS_OK ie item) =>
      ih = node /\ ie = offset_of h1 a /\ item = zlen a /\ exists e b', b = e :: b' /\ cmp key (e_key e) = Eq
  | Ok (ih, STATUS_NOT_FOUND ie) =>
      ih = node /\ ie = offset_of h1 a /\ Forall (less key) b /\ e_node (hd last b) = false
  | Ok (ih, STATUS_KEEP_SEARCHING vcn item) =>
      ih = node /\ item = zlen a /\ Forall (less key) b /\ e_node (hd last b) = true /\ vcn = e_vcn (hd last b) /\ 0 <= vcn
  | Err e => e = EINVAL /\ e_vcn (hd last b) < 0
  | Undef => False
  end.
Proof.
  intros Hk G Hs Hf node. destruct (lookup_loop_spec key Hk es fuel [] 0 G Hf) as (a & b & found & -> & Hgt & E & Hm).
  exists a, b. split; [done|]. split; [done|]. unfold ntfs_ie_lookup, node. pose proof (gn_wf _ G) as W.
  destruct (node_header h0 h1 last (a ++ b) slack W) as [-> ->]. cbn [mbind res_bind]. cbn [app] in E. rewrite E. cbn [mbind res_bind].
  destruct found; [destruct b as [|e b]; [done|]; split_and!; [done|done|lia|by exists e, b]|].
  assert (Forall (less key) b) as Hl.
  { destruct b as [|e b]; [constructor|]. apply less_tail; [done|]. by apply sorted_app in Hs. }
  assert (exists pre post, node_of h0 h1 (a ++ b) last slack = pre ++ hd last b ++ post /\ zlen pre = offset_of h1 a /\
    entry_good rule ictx (hd last b)) as (pre & post & En & Ep & Hg).
  { destruct b as [|e b]; cbn [hd].
    - rewrite app_nil_r. destruct (node_split_last h0 h1 last a slack (nw_h0 _ _ _ _ W)) as (pre & E1 & E2).
      exists pre, slack. split_and!; [done|done|apply G].
    - destruct (node_split h0 h1 last a e b slack (nw_h0 _ _ _ _ W)) as (pre & E1 & E2). exists pre. eexists. split_and!; [done|done|].
      pose proof (gn_good _ G) as Hgs. apply Forall_app in Hgs as [_ Hgs]. by apply Forall_cons_1 in Hgs as [? _]. }
  rewrite En, <- Ep, flags_at by apply Hg. cbn [mbind res_bind]. change (has_flag _ INDEX_ENTRY_NODE) with (e_node (hd last b)).
  destruct (e_node (hd last b)) eqn:Eb; cbn [negb]; [|done]. rewrite (vcn_at rule ictx) by done. cbn [mbind res_bind].
  destruct (Z.ltb_spec (e_vcn (hd last b)) 0); [done|]. split_and!; [done|lia|done..].
Qed.

(** Where the keys stop to be smaller. *)
Lemma split_unique key a e b a' b' : a ++ e :: b = a' ++ b' -> Forall (greater key) a -> ~ greater key e -> Forall (greater key) a' ->
  match b' with [] => True | x :: _ => ~ greater key x end -> a' = a /\ b' = e :: b.
Proof.
  revert a'. induction a as [|x a IH]; intros a' E Ha He Ha' Hb'; destruct a' as [|y a']; cbn in E.
  - by rewrite E.
  - injection E as <- _. by apply Forall_cons_1 in Ha' as [? _].
  - rewrite <- E in Hb'. apply Forall_cons_1 in Ha as [? _]. done.
  - injection E as <- E. apply Forall_cons_1 in Ha as [_ Ha]. apply Forall_cons_1 in Ha' as [_ Ha'].
    destruct (IH a' E Ha He Ha' Hb') as [-> ->]. done.
Qed.

Lemma sorted_insert key a e b : cmp key (e_key e) = Eq -> sorted (a ++ b) -> Forall (greater key) a -> Forall (less key) b ->
  sorted (a ++ e :: b).
Proof.
  intros Ek Hs Ha Hb. assert (forall x, greater key x -> cmp (e_key x) (e_key e) = Lt) as Hg.
  { intros x Hx. rewrite (cmp_antisym (e_key e) (e_key x)), <- (cmp_eq key (e_key e) (e_key x) Ek). unfold greater in Hx. by rewrite Hx. }
  assert (Forall (fun x => cmp (e_key e) (e_key x) = Lt) b) as Hl.
  { eapply Forall_impl; [|exact Hb]. cbn beta. intros x Hx. rewrite <- (cmp_eq key (e_key e) (e_key x) Ek). exact Hx. }
  induction a as [|x a IH]; cbn in *; [by constructor|]. apply StronglySorted_inv in Hs as [Hs Hx].
  apply Forall_cons_1 in Ha as [Hxg Ha]. constructor; [by apply IH|]. apply Forall_app in Hx as [Hxa Hxb].
  apply Forall_app. split; [done|]. constructor; [by apply Hg|done].
Qed.

Lemma lookup_found key a e b fuel : valid key -> good_node (a ++ e :: b) -> sorted (a ++ e :: b) -> (length (a ++ e :: b) < fuel)%nat ->
  Forall (greater key) a -> cmp key (e_key e) = Eq ->
  ntfs_ie_lookup fuel fix_ collate rule ictx key (node_of h0 h1 (a ++ e :: b) last slack)
  = Ok (node_of h0 h1 (a ++ e :: b) last slack, STATUS_OK (offset_of h1 a) (zlen a)).
Proof.
  intros Hk G Hs Hf Ha Ek. destruct (lookup_loop_spec key Hk (a ++ e :: b) fuel [] 0 G Hf) as (a' & b' & found & E & Hgt & El & Hm).
  destruct (split_unique key a e b a' b') as [-> ->]; [done|done|unfold greater; by rewrite Ek|done| |].
  { destruct b' as [|x b']; [done|]. unfold greater. destruct found; [by rewrite Hm|]. unfold less in Hm. by rewrite Hm. }
  destruct found; [|unfold less in Hm; by rewrite Ek in Hm].
  unfold ntfs_ie_lookup. destruct (node_header h0 h1 last (a ++ e :: b) slack (gn_wf _ G)) as [-> ->]. cbn [mbind res_bind app] in El |- *.
  by rewrite El.
Qed.
End lookup.

(** ** Theorems *)

(** C6: searching a sorted node for a key answers what the node holds: OK with
    the place and the number of the entry whose key collates equal; NOT_FOUND
    with the place where the key belongs when that place has no child;
    KEEP_SEARCHING with the child of that place otherwise.  All entries
    before the place collate before the key and all entries behind it after
    it, the node is left as it is, and no byte outside of it is read.  The
    only error is a negative vcn of the child. *)
Theorem ie_lookup_correct {collate valid cmp} `{Collation collate valid cmp} rule ictx fix_ h0 h1 last slack key es fuel :
  valid key -> good_node (valid := valid) rule ictx h0 h1 last es -> sorted (cmp := cmp) es -> (length es < fuel)%nat ->
  let node := node_of h0 h1 es last slack in
  exists a b, es = a ++ b /\ Forall (greater (cmp := cmp) key) a /\
  match ntfs_ie_lookup fuel fix_ collate rule ictx key node with
  | Ok (ih, STATUS_OK ie item) =>
      ih = node /\ ie = offset_of h1 a /\ item = zlen a /\ exists e b', b = e :: b' /\ cmp key (e_key e) = Eq
  | Ok (ih, STATUS_NOT_FOUND ie) =>
      ih = node /\ ie = offset_of h1 a /\ Forall (less (cmp := cmp) key) b /\ e_node (hd last b) = false
  | Ok (ih, STATUS_KEEP_SEARCHING vcn item) =>
      ih = node /\ item = zlen a /\ Forall (less (cmp := cmp) key) b /\ e_node (hd last b) = true /\
      vcn = e_vcn (hd last b) /\ 0 <= vcn
  | Err e => e = EINVAL /\ e_vcn (hd last b) < 0
  | Undef => False
  end.
Proof. apply lookup_spec. Qed.

(** C7: an entry inserted where the search for its key ended is found there
    afterwards, the node stays sorted and well-formed, and deleting the entry
    gives back the entries, the header and the end entry as they were. *)
Theorem index_insert_lookup {collate valid cmp} `{Collation collate valid cmp} rule ictx fix_ h0 h1 last slack e es fuel ie :
  good_node (valid := valid) rule ictx h0 h1 last es -> sorted (cmp := cmp) es -> (S (length es) < fuel)%nat ->
  entry_good rule ictx e -> e_end e = false -> valid (e_key e) -> zlen e <= zlen slack ->
  node_length h1 es last + zlen e < 2 ^ 32 ->
  ntfs_ie_lookup fuel fix_ collate rule ictx (e_key e) (node_of h0 h1 es last slack)
    = Ok (node_of h0 h1 es last slack, STATUS_NOT_FOUND ie) ->
  exists es' slack' slack'',
    ntfs_ie_insert (node_of h0 h1 es last slack) e ie = Ok (node_of h0 h1 es' last slack') /\
    good_node (valid := valid) rule ictx h0 h1 last es' /\ sorted (cmp := cmp) es' /\
    (exists item, ntfs_ie_lookup fuel fix_ collate rule ictx (e_key e) (node_of h0 h1 es' last slack')
       = Ok (node_of h0 h1 es' last slack', STATUS_OK ie item)) /\
    ntfs_ie_delete (node_of h0 h1 es' last slack') ie = Ok (node_of h0 h1 es last slack'').
Proof.
  intros G Hs Hf Hg He Hv Hsl Hsz El.
  destruct (lookup_spec rule ictx fix_ h0 h1 last slack (e_key e) es fuel Hv G Hs ltac:(lia)) as (a & b & -> & Ha & Hm).
  rewrite El in Hm. destruct Hm as (_ & -> & Hb & _). pose proof (gn_wf _ _ _ _ _ _ G) as W.
  assert (node_length h1 (a ++ e :: b) last = node_length h1 (a ++ b) last + zlen e) as En.
  { unfold node_length. rewrite !concat_app, concat_cons, !zlen_app. lia. }
  assert (good_node (valid := valid) rule ictx h0 h1 last (a ++ e :: b)) as G'.
  { destruct G as [W0 G1 G2 G3]. destruct W0. apply Forall_app in G1 as [Ga Gb]. apply Forall_app in G3 as [Ka Kb].
    apply Forall_app in nw_entries as [Na Nb]. split; [split; try done|..]; try done.
    - apply Forall_app. split; [done|]. constructor; [split; [apply Hg|done]|done].
    - lia.
    - apply Forall_app. split; [done|by constructor].
    - apply Forall_app. split; [done|by constructor]. }
  assert (sorted (cmp := cmp) (a ++ e :: b)) as Hs' by (apply (sorted_insert (e_key e)); [apply cmp_refl|done..]).
  destruct (ie_delete_spec h0 h1 last a e b (drop (length e) slack) (gn_wf _ _ _ _ _ _ G')) as (slack'' & Ed & _).
  exists (a ++ e :: b), (drop (length e) slack), slack''. split_and!; [|done|done| |done].
  - apply ie_insert_spec; [done|apply Hg|done|lia].
  - exists (zlen a). apply lookup_found; [done|done|done| |done|apply cmp_refl]. rewrite length_app in *. cbn. lia.
Qed.

(** A node of two entries of an index of security ids. *)
Definition ex_entry (k : Z) : list Z := [0; 0; 0; 0; 0; 0; 0; 0; 24; 0; 4; 0; 0; 0; 0; 0; k; 0; 0; 0; 0; 0; 0; 0].
Definition ex_last : list Z := [0; 0; 0; 0; 0; 0; 0; 0; 16; 0; 0; 0; 2; 0; 0; 0].
Definition ex_h0 : list Z := [16; 0; 0; 0].
Definition ex_h1 : list Z := [232; 15; 0; 0; 0; 0; 0; 0].

Lemma ex_entry_good k : In k [5; 7; 9] -> entry_good COLLATION_NTOFS_ULONG None (ex_entry k).
Proof.
  intros Hk. assert (0 <= k < 256) as Hr by (cbn in Hk; lia).
  split; try done. split; [|done|done]. repeat (constructor; [done|]). constructor.
Qed.

Lemma ex_good_node : good_node (valid := fun k => zlen k = 4) COLLATION_NTOFS_ULONG None ex_h0 ex_h1 ex_last [ex_entry 5; ex_entry 9].
Proof.
  split.
  - split; try done; [|split; [split; [compute_decide|done|done]|done]].
    constructor; [split; [apply ex_entry_good; cbn; tauto|done]|]. constructor; [split; [apply ex_entry_good; cbn; tauto|done]|constructor].
  - constructor; [apply ex_entry_good; cbn; tauto|]. constructor; [apply ex_entry_good; cbn; tauto|constructor].
  - split; try done. split; [compute_decide|done|done].
  - repeat (constructor; [done|]). constructor.
Qed.

Lemma ex_sorted : sorted (cmp := fun a b => lex (words 1 a) (words 1 b)) [ex_entry 5; ex_entry 9].
Proof. repeat constructor. Qed.

Lemma ie_lookup_correct_witness :
  ntfs_ie_lookup 3 (fun _ => false) ntfs_collate_ntofs_ulong COLLATION_NTOFS_ULONG None [7; 0; 0; 0]
    (node_of ex_h0 ex_h1 [ex_entry 5; ex_entry 9] ex_last (repeat 0 48))
  = Ok (node_of ex_h0 ex_h1 [ex_entry 5; ex_entry 9] ex_last (repeat 0 48), STATUS_NOT_FOUND 40) /\
  exists a b, [ex_entry 5; ex_entry 9] = a ++ b /\ 40 = offset_of ex_h1 a.
Proof.
  destruct (ie_lookup_correct COLLATION_NTOFS_ULONG None (fun _ => false) ex_h0 ex_h1 ex_last (repeat 0 48) [7; 0; 0; 0]
    [ex_entry 5; ex_entry 9] 3 eq_refl ex_good_node ex_sorted ltac:(cbn; lia)) as (a & b & E & _ & W).
  assert (ntfs_ie_lookup 3 (fun _ => false) ntfs_collate_ntofs_ulong COLLATION_NTOFS_ULONG None [7; 0; 0; 0]
    (node_of ex_h0 ex_h1 [ex_entry 5; ex_entry 9] ex_last (repeat 0 48))
    = Ok (node_of ex_h0 ex_h1 [ex_entry 5; ex_entry 9] ex_last (repeat 0 48), STATUS_NOT_FOUND 40)) as Er by (vm_compute; reflexivity).
  cbn zeta in W. rewrite Er in W. split; [exact Er|]. exists a, b. split; [exact E|]. apply W.
Defined.

Lemma index_insert_lookup_witness : exists es' slack' slack'',
  ntfs_ie_insert (node_of ex_h0 ex_h1 [ex_entry 5; ex_entry 9] ex_last (repeat 0 48)) (ex_entry 7) 40
    = Ok (node_of ex_h0 ex_h1 es' ex_last slack') /\
  ntfs_ie_delete (node_of ex_h0 ex_h1 es' ex_last slack') 40 = Ok (node_of ex_h0 ex_h1 [ex_entry 5; ex_entry 9] ex_last slack'').
Proof.
  destruct (index_insert_lookup COLLATION_NTOFS_ULONG None (fun _ => false) ex_h0 ex_h1 ex_last (repeat 0 48) (ex_entry 7)
    [ex_entry 5; ex_entry 9] 4 40 ex_good_node ex_sorted ltac:(cbn; lia) (ex_entry_good 7 ltac:(cbn; tauto)) eq_refl eq_refl
    ltac:(vm_compute; discriminate) eq_refl ltac:(vm_compute; reflexivity)) as (es' & s1 & s2 & E1 & _ & _ & _ & E2).
  exists es', s1, s2. split; [exact E1|exact E2].
Defined.

(** The length of a file name is read at a fixed place of an entry that has
    not been checked to reach it: an entry of 32 bytes without a key at the end
    of the memory is read 49 bytes behind its end. *)
Theorem entry_check_overread :
  ntfs_index_entry_inconsistent (fun _ => false)
    ([0; 0; 0; 0; 0; 0; 0; 0; 32; 0; 0; 0; 0; 0; 0; 0] ++ repeat 0 16) 0 COLLATION_FILE_NAME None = Undef.
Proof. vm_compute. reflexivity. Qed.

(** A node entry too short for a vcn passes the check for one: the
    subtraction of its size from the length wraps. *)
Theorem entry_check_short_node :
  ntfs_index_entry_inconsistent (fun _ => false) ([0; 0; 0; 0; 0; 0; 0; 0; 4; 0; 0; 0; 3; 0; 0; 0]) 0 COLLATION_FILE_NAME None
  = Ok ([0; 0; 0; 0; 0; 0; 0; 0; 4; 0; 0; 0; 3; 0; 0; 0], 0).
Proof. vm_compute. reflexivity. Qed.

(** With a [memcmp] that returns differences, a binary index cannot be
    searched: the key 1 collates before 3, and the search ends with ERANGE. *)
Theorem binary_lookup_fails :
  ntfs_ie_lookup 3 (fun _ => false) (ntfs_collate_binary memcmp_diff) COLLATION_BINARY None [1; 0; 0; 0]
    (node_of ex_h0 ex_h1 [ex_entry 3] ex_last []) = Err ERANGE.
Proof. vm_compute. reflexivity. Qed.
