(* ===== verification/Fsck.v ===== *)
(** The bitmaps fsck keeps in memory (libntfs/fsck.c) and their mirroring by
    the bitmap functions (libntfs/bitmap.c).

    The cluster bitmap is an array of blocks of 8 KiB, each standing for 65536
    clusters.  A slot is NULL for an all-free block, the shared block of ones
    for an all-allocated one, or a private block with a count of its set bits;
    a block whose count reaches 65536 is replaced by the shared one.  The
    allocator's occupancy bitmap has the same form, the mft bitmap has NULL
    and private blocks only.

    The abstract state of such an array is the function [fbit] from cluster
    numbers to booleans; FsckThm.v proves that the operations implement the
    operations on that function. *)

From S2P Require Import Prelude AttrIO Bitmap Runlist.

Definition NTFS_BUF_SIZE : Z := 8192.
Definition NTFS_BUF_SIZE_BITS : Z := 13.
Definition NTFSCK_BYTE_TO_BITS : Z := 3.

(** Bits of a block. *)
Definition FB_BLOCK_BITS : Z := Z.shiftl 1 (NTFS_BUF_SIZE_BITS + NTFSCK_BYTE_TO_BITS).

Definition FB_ROUND_DOWN (x : Z) : Z :=
  Z.shiftr (Z.land x (Z.lnot (NTFS_BUF_SIZE - 1))) NTFS_BUF_SIZE_BITS.

(** A slot of a block array: NULL, FB_ONES, or a pointer to a private block. *)
Inductive fblock := FbNull | FbOnes | FbLit (bm : list Z).

(** A block array with its set-bit counts, [fsck_lcn_bitmap] and
    [fsck_lcn_setcnt], or [fsck_alloc_bitmap] and [fsck_alloc_setcnt]. *)
Record block_array := mk_blocks {
  blocks : list fblock;
  setcnt : list Z
}.

Definition zero_block : list Z := replicate (Z.to_nat NTFS_BUF_SIZE) 0.
Definition ones_block : list Z := replicate (Z.to_nat NTFS_BUF_SIZE) 0xff.

(** [ntfs_fsck_mount] allocates the arrays with [calloc]. *)
Definition max_flb_cnt (nr_clusters : Z) : Z :=
  FB_ROUND_DOWN (Z.shiftr (nr_clusters - 1) NTFSCK_BYTE_TO_BITS) + 1.

Definition blocks_init (nr_clusters : Z) : block_array :=
  let n := Z.to_nat (max_flb_cnt nr_clusters) in
  mk_blocks (replicate n FbNull) (replicate n 0).

(** The mft bitmap: a slot is NULL or a private block; the length of the list
    is [max_fmb_cnt]. *)
Abbreviation mft_bitmap := (list (option (list Z))).

Section fsck.
Context {HP : Heap}.

(** [buf] is written back through the pointer in the slot. *)
Definition store_block (ba : block_array) (idx : Z) (b : fblock) (cnt : Z) : res block_array :=
  bl ← aset (blocks ba) idx b;
  sc ← aset (setcnt ba) idx cnt;
  Ok (mk_blocks bl sc).

(** [ntfs_fsck_lcnbmp_materialize]: the private block of slot [idx]; [None]
    for a failed allocation.  With a scratch arena the storage is there
    already.  [ntfs_fsck_alloc_materialize] is the same without an arena. *)
Definition materialize (arena : bool) (ba : block_array) (idx : Z)
    : res (option (block_array * list Z)) :=
  buf ← aget (blocks ba) idx;
  match buf with
  | FbLit bm => Ok (Some (ba, bm))
  | _ =>
      if arena || heap_grants NTFS_BUF_SIZE then
        let '(bm, cnt) := match buf with
                          | FbOnes => (ones_block, FB_BLOCK_BITS)
                          | _ => (zero_block, 0)
                          end in
        ba ← store_block ba idx (FbLit bm) cnt;
        Ok (Some (ba, bm))
      else Ok None
  end.

(** [ntfs_fsck_lcnbmp_try_collapse], [ntfs_fsck_alloc_try_collapse] *)
Definition try_collapse (ba : block_array) (idx : Z) : res block_array :=
  buf ← aget (blocks ba) idx;
  cnt ← aget (setcnt ba) idx;
  match buf with
  | FbLit _ =>
      if negb (cnt =? FB_BLOCK_BITS) then Ok ba
      else bl ← aset (blocks ba) idx FbOnes; Ok (mk_blocks bl (setcnt ba))
  | _ => Ok ba
  end.

(** [for (i = 0; i < rel_length; i++)] over the bits of a block from [pos] on:
    the block, its count and the number of bits that were set already. *)
Fixpoint range_bits (n : nat) (bm : list Z) (pos bit cnt dup : Z) : res (list Z * Z * Z) :=
  match n with
  | O => Ok (bm, cnt, dup)
  | S n =>
      '(bm, old) ← ntfs_bit_get_and_set bm pos bit;
      if negb (bit =? 0) then
        if old =? 0 then range_bits n bm (pos + 1) bit (u32 (cnt + 1)) dup
        else range_bits n bm (pos + 1) bit cnt (u64 (dup + 1))
      else
        if negb (old =? 0) then range_bits n bm (pos + 1) bit (u32 (cnt - 1)) dup
        else range_bits n bm (pos + 1) bit cnt dup
  end.

(** The part of a range that lies in block [idx]: where it starts in the
    block, how long it is, and whether it is the whole block. *)
Definition rel_range (idx rel_slcn remain_length : Z) : Z * Z * bool :=
  let idx_slcn := Z.shiftl idx (NTFS_BUF_SIZE_BITS + NTFSCK_BYTE_TO_BITS) in
  let rel_slcn := if negb (rel_slcn =? 0) then rel_slcn - idx_slcn else rel_slcn in
  let rel_length := Z.shiftl 1 (NTFS_BUF_SIZE_BITS + NTFSCK_BYTE_TO_BITS) - rel_slcn in
  let rel_length := if remain_length <? rel_length then remain_length else rel_length in
  (rel_slcn, rel_length, (rel_slcn =? 0) && (rel_length =? FB_BLOCK_BITS)).

(** The bits of a range in the private block of slot [idx]; [None] for a failed
    allocation. *)
Definition mark_block (arena : bool) (ba : block_array) (dup idx rel_slcn rel_length bit : Z)
    : res (option (block_array * Z)) :=
  m ← materialize arena ba idx;
  match m with
  | None => Ok None
  | Some (ba, bm) =>
      cnt ← aget (setcnt ba) idx;
      '(bm, cnt, dup) ← range_bits (Z.to_nat rel_length) bm rel_slcn bit cnt dup;
      ba ← store_block ba idx (FbLit bm) cnt;
      Ok (Some (ba, dup))
  end.

(** What a range operation does to one block: the array and the duplicates. *)
Definition set_block (arena : bool) (ba : block_array) (dup idx rel_slcn rel_length : Z)
    (full_cover : bool) (bit : Z) : res (option (block_array * Z)) :=
  cur ← aget (blocks ba) idx;
  match cur, negb (bit =? 0), full_cover with
  | FbNull, true, true =>
      bl ← aset (blocks ba) idx FbOnes; Ok (Some (mk_blocks bl (setcnt ba), dup))
  | FbNull, false, _ => Ok (Some (ba, dup))
  | _, true, _ =>
      m ← mark_block arena ba dup idx rel_slcn rel_length bit;
      match m with
      | None => Ok None
      | Some (ba, dup) => ba ← try_collapse ba idx; Ok (Some (ba, dup))
      end
  | _, false, _ => mark_block arena ba dup idx rel_slcn rel_length bit
  end.

(** The loop over the blocks; the array is changed also when the result is
    -ENOMEM. *)
Fixpoint set_range_loop (n : nat) (arena : bool) (ba : block_array) (dup idx rel_slcn remain_length bit : Z)
    : res (block_array * Z * option errno) :=
  match n with
  | O => Ok (ba, dup, None)
  | S n =>
      let '(rel_slcn, rel_length, full_cover) := rel_range idx rel_slcn remain_length in
      m ← set_block arena ba dup idx rel_slcn rel_length full_cover bit;
      match m with
      | None => Ok (ba, dup, Some ENOMEM)
      | Some (ba, dup) =>
          let remain_length := remain_length - rel_length in
          if remain_length <=? 0 then Ok (ba, dup, None)
          else set_range_loop n arena ba dup (idx + 1) 0 remain_length bit
      end
  end.

(** [dup] is [fsck_lcn_range_dup_count]. *)
Definition ntfs_fsck_set_lcnbmp_range (arena : bool) (ba : block_array) (dup lcn length bit : Z)
    : res (block_array * Z * option errno) :=
  let last_lcn := s64 (lcn + length - 1) in
  let s_idx := FB_ROUND_DOWN (Z.shiftr lcn NTFSCK_BYTE_TO_BITS) in
  let e_idx := FB_ROUND_DOWN (Z.shiftr last_lcn NTFSCK_BYTE_TO_BITS) in
  if length <=? 0 then Ok (ba, dup, Some EINVAL) else
  set_range_loop (Z.to_nat (e_idx - s_idx + 1)) arena ba dup s_idx lcn length bit.

(** The occupancy bitmap: set only, no duplicates counted, no arena, and a
    block of ones is left alone. *)
Fixpoint set_alloc_loop (n : nat) (ba : block_array) (idx rel_slcn remain_length : Z)
    : res (block_array * option errno) :=
  match n with
  | O => Ok (ba, None)
  | S n =>
      let '(rel_slcn, rel_length, full_cover) := rel_range idx rel_slcn remain_length in
      cur ← aget (blocks ba) idx;
      m ← match cur with
          | FbOnes => Ok (Some (ba, 0))
          | _ => set_block false ba 0 idx rel_slcn rel_length full_cover 1
          end;
      match m with
      | None => Ok (ba, Some ENOMEM)
      | Some (ba, _) =>
          let remain_length := remain_length - rel_length in
          if remain_length <=? 0 then Ok (ba, None)
          else set_alloc_loop n ba (idx + 1) 0 remain_length
      end
  end.

Definition ntfs_fsck_set_alloc_lcnbmp_range (ba : block_array) (lcn length : Z)
    : res (block_array * option errno) :=
  let last_lcn := s64 (lcn + length - 1) in
  let s_idx := FB_ROUND_DOWN (Z.shiftr lcn NTFSCK_BYTE_TO_BITS) in
  let e_idx := FB_ROUND_DOWN (Z.shiftr last_lcn NTFSCK_BYTE_TO_BITS) in
  if length <=? 0 then Ok (ba, Some EINVAL) else
  set_alloc_loop (Z.to_nat (e_idx - s_idx + 1)) ba s_idx lcn length.

(** ** Reading blocks *)

(** [memset] of [n] bytes at [pos]. *)
Definition amemset (bm : list Z) (pos n x : Z) : res (list Z) :=
  awrite bm pos (replicate (Z.to_nat n) x).

(** Sets the bits of the last block that stand for no cluster. *)
Definition ntfs_fsck_fill_unused_lcnbmp (nr_clusters last_idx : Z) (last_bm : list Z)
    : res (list Z) :=
  let start_pos := last_idx * NTFS_BUF_SIZE in
  let last_bit_offset := nr_clusters - Z.shiftl start_pos 3 in
  let last_byte_offset := Z.shiftr last_bit_offset 3 in
  bm ← (if last_byte_offset + 1 <? NTFS_BUF_SIZE
        then amemset last_bm (last_byte_offset + 1) (NTFS_BUF_SIZE - (last_byte_offset + 1)) 0xff
        else Ok last_bm);
  let last_bit := last_bit_offset - Z.shiftl last_byte_offset 3 in
  x ← aget bm last_byte_offset;
  aset bm last_byte_offset (u8 (Z.lor x (Z.shiftl 0xff last_bit))).

(** The block that covers byte [pos] of the cluster bitmap.  The array
    changes when the unused bits of a private last block are set. *)
Definition ntfs_fsck_find_lcnbmp_block (nr_clusters : Z) (ba : block_array) (pos : Z)
    : res (block_array * list Z) :=
  let bm_i := u32 (FB_ROUND_DOWN pos) in
  let last_idx := u32 (FB_ROUND_DOWN (Z.shiftr (nr_clusters - 1) NTFSCK_BYTE_TO_BITS)) in
  cur ← (if bm_i <? max_flb_cnt nr_clusters then aget (blocks ba) bm_i else Ok FbNull);
  match cur with
  | FbOnes => Ok (ba, ones_block)
  | FbNull =>
      if bm_i =? last_idx
      then bm ← ntfs_fsck_fill_unused_lcnbmp nr_clusters last_idx zero_block; Ok (ba, bm)
      else Ok (ba, zero_block)
  | FbLit bm =>
      if bm_i =? last_idx then
        bm ← ntfs_fsck_fill_unused_lcnbmp nr_clusters last_idx bm;
        bl ← aset (blocks ba) bm_i (FbLit bm);
        Ok (mk_blocks bl (setcnt ba), bm)
      else Ok (ba, bm)
  end.

Definition ntfs_fsck_find_alloc_lcnbmp_block (nr_clusters : Z) (ba : block_array) (byte_pos : Z)
    : res (list Z) :=
  let bm_i := u32 (FB_ROUND_DOWN byte_pos) in
  if max_flb_cnt nr_clusters <=? bm_i then Ok zero_block else
  cur ← aget (blocks ba) bm_i;
  Ok (match cur with FbNull => zero_block | FbOnes => ones_block | FbLit bm => bm end).

(** [for (i = 0; i < chunk; i++) dst[done + i] |= src[off + i];] *)
Fixpoint or_bytes (n : nat) (dst : list Z) (d : Z) (src : list Z) (o : Z) : res (list Z) :=
  match n with
  | O => Ok dst
  | S n =>
      x ← aget dst d; y ← aget src o;
      dst ← aset dst d (Z.lor x y);
      or_bytes n dst (d + 1) src (o + 1)
  end.

(** [while (done < nbytes)]; every round does at least one byte. *)
Fixpoint or_alloc_loop (fuel : nat) (nr_clusters : Z) (ba : block_array) (byte_pos nbytes done : Z)
    (dst : list Z) : res (list Z) :=
  if done <? nbytes then
    match fuel with
    | O => Undef
    | S fuel =>
        let cur := byte_pos + done in
        let blk_start := Z.shiftl (Z.shiftr cur NTFS_BUF_SIZE_BITS) NTFS_BUF_SIZE_BITS in
        let off := cur - blk_start in
        let chunk := NTFS_BUF_SIZE - off in
        let chunk := if nbytes - done <? chunk then nbytes - done else chunk in
        src ← ntfs_fsck_find_alloc_lcnbmp_block nr_clusters ba cur;
        dst ← or_bytes (Z.to_nat chunk) dst done src off;
        or_alloc_loop fuel nr_clusters ba byte_pos nbytes (done + chunk) dst
    end
  else Ok dst.

Definition ntfs_fsck_or_alloc_lcnbmp (nr_clusters : Z) (ba : block_array) (byte_pos nbytes : Z)
    (dst : list Z) : res (list Z) :=
  or_alloc_loop (Z.to_nat nbytes) nr_clusters ba byte_pos nbytes 0 dst.

(** ** Duplicated clusters *)

(** Adds a run to the list of duplicated runs: it extends the last run where
    it continues it, else it is appended.  [None] is a failed [realloc]; a
    failed [calloc] is dereferenced. *)
Definition ntfs_fsck_make_dup_runlist (orig_dup_rl : option runlist) (new_dup_rl : runlist_element)
    : res (option runlist) :=
  let term := mk_rle (s64 (vcn new_dup_rl + len new_dup_rl)) LCN_ENOENT 0 in
  match orig_dup_rl with
  | None =>
      if heap_grants 0x1000 then
        rl ← Ok (replicate (Z.to_nat (rl_capacity 0x1000)) (mk_rle 0 0 0));
        rl ← aset rl 0 new_dup_rl;
        rl ← aset rl 1 term;
        Ok (Some rl)
      else Undef
  | Some rl =>
      last ← rl_last rl 0;
      let orig_size := last + 1 in
      cont ← (if 1 <? orig_size then
                p ← aget rl (orig_size - 2);
                Ok ((s64 (vcn p + len p) =? vcn new_dup_rl) && (s64 (lcn p + len p) =? lcn new_dup_rl))
              else Ok false);
      if (cont : bool) then
        p ← aget rl (orig_size - 2);
        let p := set_len p (s64 (len p + len new_dup_rl)) in
        rl ← aset rl (orig_size - 2) p;
        t ← aget rl (orig_size - 1);
        rl ← aset rl (orig_size - 1) (set_vcn t (s64 (vcn p + len p)));
        Ok (Some rl)
      else
        match rl_resize rl (Z.land ((orig_size + 1) * sizeof_rle + 0xfff) (Z.lnot 0xfff)) with
        | Ok rl =>
            rl ← aset rl (orig_size - 1) new_dup_rl;
            rl ← aset rl orig_size term;
            Ok (Some rl)
        | Err _ => Ok None
        | Undef => Undef
        end
  end.

(** A duplicated cluster [x] of vcn [v]; [tmp] is [tmp_rl[0]], lcn -1 for none. *)
Definition note_dup (tmp : runlist_element) (dup_rl : option runlist) (v x : Z)
    : res (runlist_element * option runlist) :=
  if lcn tmp =? -1 then Ok (mk_rle v x 1, dup_rl)
  else if s64 (lcn tmp + len tmp) =? x then Ok (set_len tmp (len tmp + 1), dup_rl)
  else d ← ntfs_fsck_make_dup_runlist dup_rl tmp; Ok (mk_rle v x 1, d).

(** The bits of one block from [pos] on, of which [x] is the lcn and [v] the
    vcn of the first. *)
Fixpoint check_bits (n : nat) (bm : list Z) (pos x v bit cnt : Z) (tmp : runlist_element)
    (dup_rl : option runlist) : res (list Z * Z * runlist_element * option runlist) :=
  match n with
  | O => Ok (bm, cnt, tmp, dup_rl)
  | S n =>
      '(bm, old) ← ntfs_bit_get_and_set bm pos bit;
      if old =? 0 then
        let cnt := if negb (bit =? 0) then u32 (cnt + 1) else cnt in
        check_bits n bm (pos + 1) (x + 1) (v + 1) bit cnt tmp dup_rl
      else if bit =? 0 then
        check_bits n bm (pos + 1) (x + 1) (v + 1) bit (u32 (cnt - 1)) tmp dup_rl
      else
        '(tmp, dup_rl) ← note_dup tmp dup_rl v x;
        check_bits n bm (pos + 1) (x + 1) (v + 1) bit cnt tmp dup_rl
  end.

(** One block of a checked run: [inr] is the early return when the block
    cannot be allocated. *)
Definition check_block (arena : bool) (ba : block_array) (idx rel_slcn rel_length : Z)
    (full_cover : bool) (v bit : Z) (tmp : runlist_element) (dup_rl : option runlist)
    : res (option (block_array * runlist_element * option runlist)) :=
  let idx_slcn := Z.shiftl idx (NTFS_BUF_SIZE_BITS + NTFSCK_BYTE_TO_BITS) in
  cur ← aget (blocks ba) idx;
  match cur, negb (bit =? 0), full_cover with
  | FbNull, true, true =>
      bl ← aset (blocks ba) idx FbOnes; Ok (Some (mk_blocks bl (setcnt ba), tmp, dup_rl))
  | FbNull, false, _ => Ok (Some (ba, tmp, dup_rl))
  | _, _, _ =>
      m ← materialize arena ba idx;
      match m with
      | None => Ok None
      | Some (ba, bm) =>
          cnt ← aget (setcnt ba) idx;
          '(bm, cnt, tmp, dup_rl) ← check_bits (Z.to_nat rel_length) bm rel_slcn
             (idx_slcn + rel_slcn) v bit cnt tmp dup_rl;
          ba ← store_block ba idx (FbLit bm) cnt;
          ba ← try_collapse ba idx;
          Ok (Some (ba, tmp, dup_rl))
      end
  end.

(** [inl]: the loop ended; [inr]: it returned [dup_rl] early. *)
Fixpoint check_loop (n : nat) (arena : bool) (ba : block_array) (idx rel_slcn remain_length v bit : Z)
    (tmp : runlist_element) (dup_rl : option runlist)
    : res (block_array * runlist_element * option runlist * bool) :=
  match n with
  | O => Ok (ba, tmp, dup_rl, true)
  | S n =>
      let '(rel_slcn, rel_length, full_cover) := rel_range idx rel_slcn remain_length in
      m ← check_block arena ba idx rel_slcn rel_length full_cover v bit tmp dup_rl;
      match m with
      | None => Ok (ba, tmp, dup_rl, false)
      | Some (ba, tmp, dup_rl) =>
          let remain_length := remain_length - rel_length in
          if remain_length <=? 0 then Ok (ba, tmp, dup_rl, true)
          else check_loop n arena ba (idx + 1) 0 remain_length (v + rel_length) bit tmp dup_rl
      end
  end.

(** [rl] is [na->rl], of which the run [rl_idx] is checked. *)
Definition ntfs_fsck_check_and_set_lcnbmp (arena : bool) (ba : block_array) (rl : option runlist)
    (rl_idx bit : Z) (dup_rl : option runlist) : res (block_array * option runlist) :=
  match rl with
  | None => Ok (ba, None)
  | Some rl =>
      if rl_idx <? 0 then Ok (ba, None) else
      r ← aget rl rl_idx;
      if len r <=? 0 then Ok (ba, None) else
      let last_lcn := s64 (lcn r + len r - 1) in
      let s_idx := FB_ROUND_DOWN (Z.shiftr (lcn r) NTFSCK_BYTE_TO_BITS) in
      let e_idx := FB_ROUND_DOWN (Z.shiftr last_lcn NTFSCK_BYTE_TO_BITS) in
      '(ba, tmp, dup_rl, ended) ←
        check_loop (Z.to_nat (e_idx - s_idx + 1)) arena ba s_idx (lcn r) (len r) (vcn r) bit
          (mk_rle 0 (-1) 0) dup_rl;
      if (ended : bool) && (0 <=? lcn tmp)
      then d ← ntfs_fsck_make_dup_runlist dup_rl tmp; Ok (ba, d)
      else Ok (ba, dup_rl)
  end.

(** ** The mft bitmap *)

Definition ntfs_fsck_set_mftbmp_value (mb : mft_bitmap) (mft_no value : Z)
    : res (mft_bitmap * option errno) :=
  let bm_i := u32 (FB_ROUND_DOWN (Z.shiftr mft_no NTFSCK_BYTE_TO_BITS)) in
  let bm_pos := Z.shiftl bm_i (NTFS_BUF_SIZE_BITS + NTFSCK_BYTE_TO_BITS) in
  let mft_diff := mft_no - bm_pos in
  if zlen mb <=? bm_i then Ok (mb, Some EINVAL) else
  cur ← aget mb bm_i;
  match (match cur with
         | Some bm => Some bm
         | None => if heap_grants NTFS_BUF_SIZE then Some zero_block else None
         end) with
  | None => Ok (mb, Some ENOMEM)
  | Some bm =>
      bm ← ntfs_bit_set (Some bm) mft_diff (u8 value);
      mb ← aset mb bm_i bm;
      Ok (mb, None)
  end.

Definition ntfs_fsck_mftbmp_get (mb : mft_bitmap) (mft_no : Z) : res Z :=
  let bm_i := u32 (FB_ROUND_DOWN (Z.shiftr mft_no NTFSCK_BYTE_TO_BITS)) in
  let bm_pos := Z.shiftl bm_i (NTFS_BUF_SIZE_BITS + NTFSCK_BYTE_TO_BITS) in
  if zlen mb <=? bm_i then Ok 0 else
  cur ← aget mb bm_i;
  match cur with
  | None => Ok 0
  | Some bm => ntfs_bit_get (Some bm) (mft_no - bm_pos)
  end.

Definition ntfs_fsck_mftbmp_clear (mb : mft_bitmap) (mft_no : Z) := ntfs_fsck_set_mftbmp_value mb mft_no 0.
Definition ntfs_fsck_mftbmp_set (mb : mft_bitmap) (mft_no : Z) := ntfs_fsck_set_mftbmp_value mb mft_no 1.

Definition ntfs_fsck_find_mftbmp_block (mb : mft_bitmap) (pos : Z) : res (list Z) :=
  let bm_i := u32 (FB_ROUND_DOWN pos) in
  if zlen mb <=? bm_i then Ok zero_block else
  cur ← aget mb bm_i;
  Ok (match cur with None => zero_block | Some bm => bm end).

(** [for (bit = 0; bit < count; bit++)]; the results of the calls are ignored. *)
Fixpoint mirror_loop (n : nat) (mb : mft_bitmap) (start value : Z) : res mft_bitmap :=
  match n with
  | O => Ok mb
  | S n =>
      '(mb, _) ← ntfs_fsck_set_mftbmp_value mb (u64 start) value;
      mirror_loop n mb (start + 1) value
  end.

(** [None]: fsck has no mft bitmap, or [na] is another attribute. *)
Definition ntfs_bitmap_mirror_fsck_mftbmp (mb : option mft_bitmap) (start_bit count value : Z)
    : res (option mft_bitmap) :=
  match mb with
  | None => Ok None
  | Some mb => mb ← mirror_loop (Z.to_nat count) mb start_bit value; Ok (Some mb)
  end.

(** [ntfs_bitmap_set_run] and [ntfs_bitmap_clear_run]: the attribute, then
    fsck's copy. *)
Definition bitmap_run {A} `{AttrIO A} (na : A) (mb : option mft_bitmap) (start_bit count : Z) (value : bool)
    : res (A * option mft_bitmap) :=
  na ← ntfs_bitmap_set_bits_in_run na start_bit count value;
  mb ← ntfs_bitmap_mirror_fsck_mftbmp mb start_bit count (Z.b2z value);
  Ok (na, mb).

Definition ntfs_bitmap_set_run {A} `{AttrIO A} (na : A) (mb : option mft_bitmap) (start_bit count : Z) :=
  bitmap_run na mb start_bit count true.
Definition ntfs_bitmap_clear_run {A} `{AttrIO A} (na : A) (mb : option mft_bitmap) (start_bit count : Z) :=
  bitmap_run na mb start_bit count false.
Definition ntfs_bitmap_set_bit {A} `{AttrIO A} (na : A) (mb : option mft_bitmap) (bit : Z) :=
  ntfs_bitmap_set_run na mb bit 1.
Definition ntfs_bitmap_clear_bit {A} `{AttrIO A} (na : A) (mb : option mft_bitmap) (bit : Z) :=
  ntfs_bitmap_clear_run na mb bit 1.

End fsck.
