(* ===== verification/LcnAlloc.v ===== *)
(** The cluster allocator (libntfs/lcnalloc.c).

    The state is the part of the volume the allocator works on: the bitmap
    attribute, an instance of [AttrIO]; the zone positions; and on fsck the
    in-memory bitmaps of Fsck.v.  [ntfs_cluster_alloc] is a loop over windows of
    the bitmap; its body is the step function [alloc_step] on a record of the
    C function's variables, and an iteration of it is [alloc_loop]. *)

From S2P Require Import Prelude Volume AttrIO Runlist Bitmap Fsck.

Definition LCNBMP_ALLOC_SIZE : Z := 4096.
Definition NTFS_LCNALLOC_SKIP : Z := LCNBMP_ALLOC_SIZE.

Definition ZONE_MFT : Z := 1.
Definition ZONE_DATA1 : Z := 2.
Definition ZONE_DATA2 : Z := 4.

(** NTFS_CLUSTER_ALLOCATION_ZONES *)
Inductive alloc_zone := MFT_ZONE | DATA_ZONE.

(** The allocator's fields of the volume. *)
Record zones := mk_zones {
  mft_zone_start : Z;
  mft_zone_end : Z;
  mft_zone_pos : Z;
  data1_zone_pos : Z;
  data2_zone_pos : Z;
  full_zones : Z;
  free_clusters : Z;
  NVolFreeSpaceKnown : bool
}.

Definition set_full (z : zones) (f : Z) : zones :=
  mk_zones (mft_zone_start z) (mft_zone_end z) (mft_zone_pos z) (data1_zone_pos z) (data2_zone_pos z)
    f (free_clusters z) (NVolFreeSpaceKnown z).
Definition set_free (z : zones) (f : Z) : zones :=
  mk_zones (mft_zone_start z) (mft_zone_end z) (mft_zone_pos z) (data1_zone_pos z) (data2_zone_pos z)
    (full_zones z) f (NVolFreeSpaceKnown z).

(** The in-memory bitmaps of fsck. *)
Record fsck_maps := mk_fsck {
  fk_arena : bool;
  fk_lcn : block_array;
  fk_dup : Z;
  fk_alloc : block_array
}.

(** [lv_fsck] is [None] when NVolFsck is not set. *)
Record lcn_vol {A : Type} := mk_lv {
  lv_na : A;
  lv_zones : zones;
  lv_fsck : option fsck_maps
}.
Arguments lcn_vol : clear implicits.

(** ** Zone positions *)

Definition ntfs_cluster_set_zone_pos (start end_ pos tc : Z) : Z :=
  if end_ <=? tc then start else if start <=? tc then tc else pos.

Section alloc.
Context {HP : Heap} {A : Type} {IO : AttrIO A} (vol : ntfs_volume).

Definition ntfs_cluster_update_zone_pos (z : zones) (zone tc : Z) : zones :=
  if zone =? ZONE_MFT then
    mk_zones (mft_zone_start z) (mft_zone_end z)
      (ntfs_cluster_set_zone_pos (mft_lcn vol) (mft_zone_end z) (mft_zone_pos z) tc)
      (data1_zone_pos z) (data2_zone_pos z) (full_zones z) (free_clusters z) (NVolFreeSpaceKnown z)
  else if zone =? ZONE_DATA1 then
    mk_zones (mft_zone_start z) (mft_zone_end z) (mft_zone_pos z)
      (ntfs_cluster_set_zone_pos (mft_zone_end z) (nr_clusters vol) (data1_zone_pos z) tc)
      (data2_zone_pos z) (full_zones z) (free_clusters z) (NVolFreeSpaceKnown z)
  else
    mk_zones (mft_zone_start z) (mft_zone_end z) (mft_zone_pos z) (data1_zone_pos z)
      (ntfs_cluster_set_zone_pos 0 (mft_zone_start z) (data2_zone_pos z) tc)
      (full_zones z) (free_clusters z) (NVolFreeSpaceKnown z).

(** [if (vol->full_zones & zone)]: the zone is looked at again from [lcn] on. *)
Definition unmark_full (z : zones) (zone lcn : Z) : zones :=
  if negb (Z.land (full_zones z) zone =? 0) then
    let z := ntfs_cluster_update_zone_pos z zone lcn in
    set_full z (Z.land (full_zones z) (u8 (Z.lnot zone)))
  else z.

Definition update_full_status (z : zones) (lcn : Z) : zones :=
  if mft_zone_end z <=? lcn then unmark_full z ZONE_DATA1 lcn
  else if lcn <? mft_zone_start z then unmark_full z ZONE_DATA2 lcn
  else unmark_full z ZONE_MFT lcn.

(** ** Searching a window *)

(** The [default] case of the switch: the bits [j]..7 of a byte. *)
Fixpoint empty_bits (n : nat) (b i j run max_range start_pos : Z) : Z * Z * Z :=
  match n with
  | O => (run, max_range, start_pos)
  | S n =>
      if negb (Z.land b (Z.shiftl 1 j) =? 0) then
        if max_range <? run
        then empty_bits n b i (j + 1) 0 run (i * 8 + (j - run))
        else empty_bits n b i (j + 1) 0 max_range start_pos
      else empty_bits n b i (j + 1) (run + 1) max_range start_pos
  end.

(** [while (i < size)].  The inner loops over bytes of the same value do what
    going around the outer loop does: for 0 they add 8, for 255 the run is 0
    from the second byte on. *)
Fixpoint empty_range (buf : list Z) (i run max_range start_pos : Z) : Z :=
  match buf with
  | [] => if max_range <? run then i * 8 - run else start_pos
  | b :: buf =>
      if b =? 0 then empty_range buf (i + 1) (run + 8) max_range start_pos
      else if b =? 255 then
        if max_range <? run then empty_range buf (i + 1) 0 run (i * 8 - run)
        else empty_range buf (i + 1) 0 max_range start_pos
      else
        let '(run, max_range, start_pos) := empty_bits 8 b i 0 run max_range start_pos in
        empty_range buf (i + 1) run max_range start_pos
  end.

Definition max_empty_bit_range (buf : list Z) : Z := empty_range buf 0 0 0 (-1).

(** The attribute afterwards and whether the write was complete. *)
Definition bitmap_writeback (na : A) (pos : Z) (buf : list Z) (writeback : bool) : res (A * bool) :=
  if negb writeback then Ok (na, true) else
  match ntfs_attr_pwrite na pos buf with
  | Ok (na, written) => Ok (na, written =? zlen buf)
  | Err _ => Ok (na, false)
  | Undef => Undef
  end.

(** ** Freeing *)

Definition lv_set_zones (lv : lcn_vol A) (z : zones) : lcn_vol A := mk_lv A (lv_na lv) z (lv_fsck lv).
Definition lv_set_na (lv : lcn_vol A) (na : A) : lcn_vol A := mk_lv A na (lv_zones lv) (lv_fsck lv).

(** [if (NVolFsck(vol)) ntfs_fsck_set_lcnbmp_range(vol, lcn, count, bit);] *)
Definition fsck_mark (lv : lcn_vol A) (lcn count bit : Z) : res (lcn_vol A) :=
  match lv_fsck lv with
  | None => Ok lv
  | Some fk =>
      '(ba, dup, _) ← ntfs_fsck_set_lcnbmp_range (fk_arena fk) (fk_lcn fk) (fk_dup fk) lcn count bit;
      Ok (mk_lv A (lv_na lv) (lv_zones lv) (Some (mk_fsck (fk_arena fk) ba dup (fk_alloc fk))))
  end.

(** Clears the bits of a run on the volume and in fsck's bitmap.  When the
    attribute cannot be written the call fails. *)
Definition free_run (lv : lcn_vol A) (lcn count : Z) : res (lcn_vol A) :=
  let lv := lv_set_zones lv (update_full_status (lv_zones lv) lcn) in
  '(na, _) ← ntfs_bitmap_clear_run (lv_na lv) None lcn count;
  fsck_mark (lv_set_na lv na) lcn count 0.

(** [for (; rl->length; rl++)]; with the number of freed clusters. *)
Fixpoint free_loop (rl : runlist) (lv : lcn_vol A) (nr_freed : Z) : res (lcn_vol A * Z) :=
  match rl with
  | [] => Undef
  | r :: rl =>
      if len r =? 0 then Ok (lv, nr_freed)
      else if 0 <=? lcn r then
        lv ← free_run lv (lcn r) (len r);
        free_loop rl lv (s64 (nr_freed + len r))
      else free_loop rl lv nr_freed
  end.

Definition add_free (lv : lcn_vol A) (nr_freed : Z) : lcn_vol A :=
  lv_set_zones lv (set_free (lv_zones lv) (s64 (free_clusters (lv_zones lv) + nr_freed))).

Definition ntfs_cluster_free_from_rl (lv : lcn_vol A) (rl : runlist) : res (lcn_vol A) :=
  '(lv, nr_freed) ← free_loop rl lv 0;
  Ok (add_free lv nr_freed).

Definition ntfs_cluster_free_basic (lv : lcn_vol A) (lcn count : Z) : res (lcn_vol A) :=
  if 0 <=? lcn then lv ← free_run lv lcn count; Ok (add_free lv count)
  else Ok (add_free lv 0).

(** ** Allocating *)

(** The variables of the search. *)
Record search := mk_search {
  zone_start : Z;
  zone_end : Z;
  bmp_pos : Z;
  pass : Z;
  search_zone : Z;
  done_zones : Z;
  has_guess : bool;
  used_zone_pos : bool
}.

(** What has been allocated; [rl] is the memory block, empty for NULL. *)
Record alloc_acc := mk_acc {
  a_rl : runlist;
  rlpos : Z;
  rlsize : Z;
  prev_lcn : Z;
  prev_run_len : Z;
  clusters : Z
}.

(** A window of the bitmap while it is searched. *)
Record window := mk_window {
  w_lv : lcn_vol A;
  w_acc : alloc_acc;
  w_buf : list Z;
  w_lcn : Z;
  w_guess : bool;
  w_writeback : bool
}.

(** [free_clusters--] *)
Definition take_free (z : zones) : zones :=
  if NVolFreeSpaceKnown z && negb (free_clusters z <=? 0) then set_free z (free_clusters z - 1) else z.

(** Coalesces cluster [x] with the previous run or appends a new one. *)
Definition add_cluster (acc : alloc_acc) (start_vcn x : Z) : res alloc_acc :=
  if (prev_lcn acc =? x - prev_run_len acc) && negb (rlpos acc =? 0) then
    let prev_run_len := prev_run_len acc + 1 in
    p ← aget (a_rl acc) (rlpos acc - 1);
    rl ← aset (a_rl acc) (rlpos acc - 1) (set_len p prev_run_len);
    Ok (mk_acc rl (rlpos acc) (rlsize acc) (prev_lcn acc) prev_run_len (clusters acc - 1))
  else
    v ← (if negb (rlpos acc =? 0)
         then p ← aget (a_rl acc) (rlpos acc - 1); Ok (s64 (vcn p + prev_run_len acc))
         else Ok start_vcn);
    rl ← aset (a_rl acc) (rlpos acc) (mk_rle v x 1);
    Ok (mk_acc rl (rlpos acc + 1) (rlsize acc) x 1 (clusters acc - 1)).

(** The runlist grows by 4 KiB; [None] is a failed [realloc]. *)
Definition grow_rl (acc : alloc_acc) : res (option alloc_acc) :=
  if rlsize acc <=? (rlpos acc + 2) * sizeof_rle then
    let rlsize := rlsize acc + 4096 in
    match rl_resize (a_rl acc) rlsize with
    | Ok rl => Ok (Some (mk_acc rl (rlpos acc) rlsize (prev_lcn acc) (prev_run_len acc) (clusters acc)))
    | Err _ => Ok None
    | Undef => Undef
    end
  else Ok (Some acc).

(** How the search of a window ends. *)
Inductive window_end := WDone | WEnd | WNoMem.

(** [while (lcn < buf_size)] with [base] for [bmp_pos].  A round allocates a
    bit, or takes a guess, or is the last, and the round after a guess
    allocates the guessed bit, so [buf_size + 2] rounds are enough. *)
Fixpoint window_loop (fuel : nat) (start_vcn base : Z) (w : window) : res (window * window_end) :=
  if zlen (w_buf w) * 8 <=? w_lcn w then Ok (w, WEnd) else
  match fuel with
  | O => Undef
  | S fuel =>
      let x := w_lcn w in
      b ← aget (w_buf w) (Z.shiftr x 3);
      let bit := Z.shiftl 1 (Z.land x 7) in
      if negb (w_guess w) then
        let x := max_empty_bit_range (w_buf w) in
        if x <? 0 then Ok (mk_window (w_lv w) (w_acc w) (w_buf w) x false (w_writeback w), WEnd)
        else window_loop fuel start_vcn base (mk_window (w_lv w) (w_acc w) (w_buf w) x true (w_writeback w))
      else if negb (Z.land b bit =? 0) then
        Ok (mk_window (w_lv w) (w_acc w) (w_buf w) x false (w_writeback w), WEnd)
      else
        g ← grow_rl (w_acc w);
        match g with
        | None => Ok (w, WNoMem)
        | Some acc =>
            buf ← aset (w_buf w) (Z.shiftr x 3) (Z.lor b bit);
            lv ← fsck_mark (w_lv w) (x + base) 1 1;
            let lv := lv_set_zones lv (take_free (lv_zones lv)) in
            acc ← add_cluster acc start_vcn (x + base);
            if clusters acc =? 0 then Ok (mk_window lv acc buf x true true, WDone)
            else window_loop fuel start_vcn base (mk_window lv acc buf (x + 1) true true)
        end
  end.

(** ** Zones *)

Definition zone_pos (z : zones) (zone : Z) : Z :=
  if zone =? ZONE_MFT then mft_zone_pos z
  else if zone =? ZONE_DATA1 then data1_zone_pos z else data2_zone_pos z.

Definition zone_first (z : zones) (zone : Z) : Z :=
  if zone =? ZONE_MFT then mft_zone_start z else if zone =? ZONE_DATA1 then mft_zone_end z else 0.

(** The zone after the current one, where its search ends, and whether it
    starts at its beginning. *)
Definition next_zone (z : zones) (zone done : Z) : Z * Z * bool :=
  let to_data1 := (ZONE_DATA1, nr_clusters vol, data1_zone_pos z =? mft_zone_end z) in
  if zone =? ZONE_MFT then to_data1
  else if zone =? ZONE_DATA1 then (ZONE_DATA2, mft_zone_start z, data2_zone_pos z =? 0)
  else if Z.land done ZONE_DATA1 =? 0 then to_data1
  else (ZONE_MFT, mft_zone_end z, mft_zone_pos z =? mft_zone_start z).

(** [done_zones_check]: the next zone that is not empty; [None] when all zones
    are finished.  A zone is visited at most twice. *)
Fixpoint done_zones_check (fuel : nat) (z : zones) (acc : alloc_acc) (s : search) : res (zones * option search) :=
  let done := Z.lor (done_zones s) (search_zone s) in
  let z := set_full z (Z.lor (full_zones z) (search_zone s)) in
  if done <? ZONE_MFT + ZONE_DATA1 + ZONE_DATA2 then
    match fuel with
    | O => Undef
    | S fuel =>
        z ← (if negb (rlpos acc =? 0) then
               p ← aget (a_rl acc) (rlpos acc - 1);
               Ok (if used_zone_pos s
                   then ntfs_cluster_update_zone_pos z (search_zone s) (s64 (lcn p + len p + NTFS_LCNALLOC_SKIP))
                   else z)
             else Ok z);
        let '(zone, e, first) := next_zone z (search_zone s) done in
        let start := zone_pos z zone in
        let s := mk_search start e start (if first then 2 else 1) zone done (has_guess s) (used_zone_pos s) in
        if start =? e then done_zones_check fuel z acc s else Ok (z, Some s)
    end
  else Ok (z, None).

(** [zone_pass_done] *)
Definition zone_pass_done (z : zones) (acc : alloc_acc) (s : search) : res (zones * option search) :=
  if pass s =? 1 then
    let start := zone_first z (search_zone s) in
    let e := if zone_start s <? start then start else zone_start s in
    Ok (z, Some (mk_search start e start 2 (search_zone s) (done_zones s) (has_guess s) (used_zone_pos s)))
  else done_zones_check 8 z acc s.

(** ** The loop *)

(** A step goes on with the search, or returns a runlist or an error. *)
Inductive alloc_result :=
  | Go (lv : lcn_vol A) (s : search) (acc : alloc_acc)
  | Return (lv : lcn_vol A) (r : runlist + errno).

(** The terminator is written behind the runs. *)
Definition terminate_rl (acc : alloc_acc) : res runlist :=
  p ← aget (a_rl acc) (rlpos acc - 1);
  aset (a_rl acc) (rlpos acc) (mk_rle (s64 (vcn p + len p)) LCN_RL_NOT_MAPPED 0).

(** [err_ret]: what was allocated is freed again; if that fails, so does the
    call. *)
Definition err_ret (lv : lcn_vol A) (acc : alloc_acc) (err : errno) : res alloc_result :=
  match a_rl acc with
  | [] => Ok (Return lv (inr err))
  | _ =>
      rl ← terminate_rl acc;
      match ntfs_cluster_free_from_rl lv rl with
      | Ok lv => Ok (Return lv (inr err))
      | Err _ => Err err
      | Undef => Undef
      end
  end.

(** The zone is finished, or has no windows left. *)
Definition pass_done (lv : lcn_vol A) (s : search) (acc : alloc_acc) : res alloc_result :=
  '(z, next) ← zone_pass_done (lv_zones lv) acc s;
  let lv := lv_set_zones lv z in
  match next with
  | Some s => Ok (Go lv s acc)
  | None => err_ret lv acc ENOSPC
  end.

(** Where the search goes after a window. *)
Definition next_window (z : zones) (s : search) (base buf_size : Z) (guess : bool) : search :=
  if negb (used_zone_pos s) then
    let start := zone_pos z (search_zone s) in
    let pass := if (start =? 0) || (start =? mft_zone_start z) || (start =? mft_zone_end z) then 2 else pass s in
    mk_search start (zone_end s) start pass (search_zone s) (done_zones s) guess true
  else
    mk_search (zone_start s) (zone_end s) (base + buf_size) (pass s) (search_zone s) (done_zones s) guess true.

(** The body of [while (1)]. *)
Definition alloc_step (start_vcn : Z) (lv : lcn_vol A) (s : search) (acc : alloc_acc) : res alloc_result :=
  if negb (Z.land (search_zone s) (full_zones (lv_zones lv)) =? 0) then pass_done lv s acc else
  let last_read_pos := Z.shiftr (bmp_pos s) 3 in
  match ntfs_attr_pread (lv_na lv) last_read_pos LCNBMP_ALLOC_SIZE with
  | Undef => Undef
  | Err e => err_ret lv acc e
  | Ok [] => pass_done lv s acc
  | Ok buf =>
      buf ← (match lv_fsck lv with
             | Some fk => ntfs_fsck_or_alloc_lcnbmp (nr_clusters vol) (fk_alloc fk) last_read_pos (zlen buf) buf
             | None => Ok buf
             end);
      let base := Z.land (bmp_pos s) (Z.lnot 7) in
      '(w, e) ← window_loop (length buf * 8 + 2) start_vcn base
                  (mk_window lv acc buf (Z.land (bmp_pos s) 7) (has_guess s) false);
      match e with
      | WDone =>
          let lv := w_lv w in
          let z := lv_zones lv in
          let z := if used_zone_pos s
                   then ntfs_cluster_update_zone_pos z (search_zone s) (s64 (w_lcn w + base + 1 + NTFS_LCNALLOC_SKIP))
                   else z in
          rl ← terminate_rl (w_acc w);
          '(na, ok) ← bitmap_writeback (lv_na lv) last_read_pos (w_buf w) (w_writeback w);
          let lv := lv_set_na (lv_set_zones lv z) na in
          if (ok : bool) then Ok (Return lv (inl rl)) else err_ret lv (w_acc w) EIO
      | WNoMem =>
          '(na, ok) ← bitmap_writeback (lv_na (w_lv w)) last_read_pos (w_buf w) (w_writeback w);
          err_ret (lv_set_na (w_lv w) na) (w_acc w) (if (ok : bool) then ENOMEM else EIO)
      | WEnd =>
          '(na, ok) ← bitmap_writeback (lv_na (w_lv w)) last_read_pos (w_buf w) (w_writeback w);
          let lv := lv_set_na (w_lv w) na in
          if negb ok then err_ret lv (w_acc w) EIO else
          let s := next_window (lv_zones lv) s base (zlen buf * 8) (w_guess w) in
          if bmp_pos s <? zone_end s then Ok (Go lv s (w_acc w)) else pass_done lv s (w_acc w)
      end
  end.

Fixpoint alloc_loop (fuel : nat) (start_vcn : Z) (lv : lcn_vol A) (s : search) (acc : alloc_acc)
    : res (lcn_vol A * (runlist + errno)) :=
  match fuel with
  | O => Undef
  | S fuel =>
      r ← alloc_step start_vcn lv s acc;
      match r with
      | Go lv s acc => alloc_loop fuel start_vcn lv s acc
      | Return lv r => Ok (lv, r)
      end
  end.

(** The first zone that is searched. *)
Definition alloc_init (z : zones) (start_lcn : Z) (zone : alloc_zone) : search :=
  let guess := 0 <=? start_lcn in
  let start := if guess then start_lcn
               else match zone with DATA_ZONE => data1_zone_pos z | MFT_ZONE => mft_zone_pos z end in
  let pass := if (start =? 0) || (start =? mft_zone_start z) || (start =? mft_zone_end z) then 2 else 1 in
  let '(e, sz) :=
    if start <? mft_zone_start z then (mft_zone_start z, ZONE_DATA2)
    else if start <? mft_zone_end z then (mft_zone_end z, ZONE_MFT)
    else (nr_clusters vol, ZONE_DATA1) in
  mk_search start e start pass sz 0 guess (negb guess).

(** A window moves the position forward by at least one bit, and a zone is
    searched in at most two passes of its own and two from a hint; four zones
    are visited at most. *)
Definition alloc_fuel (lv : lcn_vol A) : nat := Z.to_nat (16 * (8 * zlen (attr_value (lv_na lv)) + 1)).

Definition ntfs_cluster_alloc (lv : lcn_vol A) (start_vcn count start_lcn : Z) (zone : alloc_zone)
    : res (lcn_vol A * (runlist + errno)) :=
  if (count <? 0) || (start_lcn <? -1) then Ok (lv, inr EINVAL) else
  if count =? 0 then
    if heap_grants 0x1000 then
      Ok (lv, inl (mk_rle start_vcn LCN_RL_NOT_MAPPED 0 :: map junk_rle (seq 1 (Z.to_nat (rl_capacity 0x1000) - 1))))
    else Ok (lv, inr ENOMEM)
  else if negb (heap_grants LCNBMP_ALLOC_SIZE) then Ok (lv, inr ENOMEM)
  else alloc_loop (alloc_fuel lv) start_vcn lv (alloc_init (lv_zones lv) start_lcn zone) (mk_acc [] 0 0 0 0 count).

End alloc.
