(* ===== verification/LcnSearch.v ===== *)
(** The search for free clusters in a window of the bitmap
    (libntfs/lcnalloc.c, [max_empty_bit_range]).

    The routine goes through the bytes and treats bytes of zeroes and of ones
    as a whole.  It is proved equal to its meaning on single bits: it finds
    the start of a longest run of free bits, and -1 only when there is none. *)

From S2P Require Import Prelude Volume AttrIO Runlist Bitmap Fsck LcnAlloc.

(** ** Specification *)

(** The bits from [q] up to [q + k] are free. *)
Definition free_range (f : Z -> bool) (q k : Z) : Prop := forall j, q <= j < q + k -> f j = false.

(** What is known after [pos] bits: the last [run] bits are free, and the
    longest run that ended before them has [max_range] bits and starts at
    [start_pos], -1 when there is none. *)
Record range_inv (f : Z -> bool) (pos run max_range start_pos : Z) : Prop := {
  ri_run : 0 <= run <= pos;
  ri_max : 0 <= max_range;
  ri_last : free_range f (pos - run) run;
  ri_before : pos = run \/ f (pos - run - 1) = true;
  ri_best : max_range = 0 /\ start_pos = -1 \/
    0 < max_range /\ 0 <= start_pos /\ start_pos + max_range <= pos /\ free_range f start_pos max_range;
  ri_all : forall q k, 0 <= q -> 0 < k -> q + k <= pos -> free_range f q k ->
    k <= max_range \/ pos - run <= q
}.

(** * Proofs *)

Section inv.
Context (f : Z -> bool).

Lemma range_inv_init : range_inv f 0 0 0 (-1).
Proof. split; try lia. intros j ?. lia. Qed.

Lemma range_inv_free pos run m s :
  range_inv f pos run m s -> f pos = false -> range_inv f (pos + 1) (run + 1) m s.
Proof.
  intros [R M L P B A] E. split; try lia.
  - intros j Hj. destruct (Z.eq_dec j pos) as [->|]; [done|]. apply L. lia.
  - destruct P as [->|P]; [by left|right]. by replace (pos + 1 - (run + 1)) with (pos - run) by lia.
  - destruct B as [B|(B1 & B2 & B3 & B4)]; [by left|right]. split_and!; done || lia.
  - intros q k Hq Hk Hp F. destruct (Z_le_gt_dec (q + k) pos) as [H|H].
    + destruct (A q k Hq Hk H F); lia.
    + destruct (Z_le_gt_dec (pos - run) q); [lia|]. destruct P as [->|P]; [lia|].
      rewrite F in P by lia. done.
Qed.

Lemma range_inv_used pos run m s :
  range_inv f pos run m s -> f pos = true ->
  range_inv f (pos + 1) 0 (if m <? run then run else m) (if m <? run then pos - run else s).
Proof.
  intros [R M L P B A] E. split; try lia.
  - destruct (m <? run); lia.
  - intros j Hj. lia.
  - right. by replace (pos + 1 - 0 - 1) with pos by lia.
  - destruct (Z.ltb_spec m run).
    + right. split_and!; try lia. done.
    + destruct B as [B|(B1 & B2 & B3 & B4)]; [by left|right]. split_and!; done || lia.
  - intros q k Hq Hk Hp F. left. destruct (Z_le_gt_dec (q + k) pos) as [H|H].
    + destruct (A q k Hq Hk H F); destruct (Z.ltb_spec m run); lia.
    + rewrite F in E by lia. done.
Qed.

Lemma range_inv_free_n n : forall pos run m s,
  range_inv f pos run m s -> free_range f pos (Z.of_nat n) ->
  range_inv f (pos + Z.of_nat n) (run + Z.of_nat n) m s.
Proof.
  induction n as [|n IH]; intros pos run m s I F; [by rewrite !Z.add_0_r|].
  replace (pos + Z.of_nat (S n)) with (pos + 1 + Z.of_nat n) by lia.
  replace (run + Z.of_nat (S n)) with (run + 1 + Z.of_nat n) by lia.
  apply IH; [apply range_inv_free; [done|apply F; lia]|]. intros j Hj. apply F. lia.
Qed.

Lemma range_inv_used_n n : forall pos m s,
  range_inv f pos 0 m s -> (forall j, pos <= j < pos + Z.of_nat n -> f j = true) ->
  range_inv f (pos + Z.of_nat n) 0 m s.
Proof.
  induction n as [|n IH]; intros pos m s I F; [by rewrite Z.add_0_r|].
  replace (pos + Z.of_nat (S n)) with (pos + 1 + Z.of_nat n) by lia.
  apply IH; [|intros j Hj; apply F; lia].
  pose proof (ri_max _ _ _ _ _ I). apply range_inv_used in I; [|apply F; lia].
  destruct (Z.ltb_spec m 0); [lia|done].
Qed.

Lemma land_bit b j : 0 <= j -> (Z.land b (Z.shiftl 1 j) =? 0) = negb (Z.testbit b j).
Proof.
  intros Hj. rewrite Z.shiftl_1_l, Z.land_comm. destruct (Z.testbit b j) eqn:E; cbn.
  - apply Z.eqb_neq. intros H. assert (Z.testbit (Z.land (2 ^ j) b) j = false) as H' by (rewrite H; apply Z.bits_0).
    by rewrite Z.land_spec, Z.pow2_bits_true, E in H'.
  - apply Z.eqb_eq, Z.bits_inj_iff'. intros n Hn. rewrite Z.land_spec, Z.pow2_bits_eqb, Z.bits_0 by lia.
    destruct (Z.eqb_spec j n) as [<-|]; [by rewrite E|done].
Qed.

Lemma empty_bits_spec b i : forall n j run m s run' m' s',
  empty_bits n b i j run m s = (run', m', s') -> 0 <= j -> range_inv f (i * 8 + j) run m s ->
  (forall k, j <= k < j + Z.of_nat n -> f (i * 8 + k) = Z.testbit b k) ->
  range_inv f (i * 8 + j + Z.of_nat n) run' m' s'.
Proof.
  induction n as [|n IH]; intros j run m s run' m' s'; cbn [empty_bits].
  { intros [= <- <- <-] _ I _. by rewrite Z.add_0_r. }
  intros E Hj I Hf. rewrite land_bit, negb_involutive in E by done.
  replace (i * 8 + j + Z.of_nat (S n)) with (i * 8 + (j + 1) + Z.of_nat n) by lia.
  assert (f (i * 8 + j) = Z.testbit b j) as Ef by (apply Hf; lia).
  assert (forall k, j + 1 <= k < j + 1 + Z.of_nat n -> f (i * 8 + k) = Z.testbit b k) as Hf'
    by (intros; apply Hf; lia).
  destruct (Z.testbit b j); cbn [negb] in E.
  - apply range_inv_used in I; [|done]. rewrite <- Z.add_assoc in I.
    replace (i * 8 + j - run) with (i * 8 + (j - run)) in I by lia.
    destruct (m <? run); apply IH in E; done || lia.
  - apply range_inv_free in I; [|done]. rewrite <- Z.add_assoc in I. apply IH in E; done || lia.
Qed.

Lemma empty_range_spec : forall buf i run m s,
  0 <= i -> range_inv f (i * 8) run m s ->
  (forall j b k, buf !! j = Some b -> 0 <= k < 8 -> f ((i + Z.of_nat j) * 8 + k) = Z.testbit b k) ->
  exists run' m' s', range_inv f ((i + zlen buf) * 8) run' m' s' /\
    empty_range buf i run m s = if m' <? run' then (i + zlen buf) * 8 - run' else s'.
Proof.
  induction buf as [|b buf IH]; intros i run m s Hi I Hf; cbn [empty_range].
  { exists run, m, s. rewrite zlen_nil, Z.add_0_r. done. }
  assert (forall k, 0 <= k < 8 -> f (i * 8 + k) = Z.testbit b k) as H0.
  { intros k Hk. specialize (Hf 0%nat b k eq_refl Hk). by rewrite Z.add_0_r in Hf. }
  assert (forall run m s, range_inv f (i * 8 + 8) run m s ->
    exists run' m' s', range_inv f ((i + zlen (b :: buf)) * 8) run' m' s' /\
      empty_range buf (i + 1) run m s = if m' <? run' then (i + zlen (b :: buf)) * 8 - run' else s') as Next.
  { intros run1 m1 s1 I1. replace (i + zlen (b :: buf)) with (i + 1 + zlen buf) by (rewrite zlen_cons; lia).
    apply IH; [lia|by replace ((i + 1) * 8) with (i * 8 + 8) by lia|].
    intros j b' k Hj Hk. replace (i + 1 + Z.of_nat j) with (i + Z.of_nat (S j)) by lia. by apply Hf. }
  destruct (Z.eqb_spec b 0) as [->|]; [|destruct (Z.eqb_spec b 255) as [->|]].
  - apply Next, (range_inv_free_n 8); [done|]. intros j Hj. replace j with (i * 8 + (j - i * 8)) by lia.
    rewrite H0 by lia. apply Z.bits_0.
  - assert (forall j, i * 8 <= j < i * 8 + 8 -> f j = true) as H1.
    { intros j Hj. replace j with (i * 8 + (j - i * 8)) by lia. rewrite H0 by lia.
      change 255 with (Z.ones 8). apply Z.ones_spec_low. lia. }
    apply range_inv_used in I; [|apply H1; lia]. apply (range_inv_used_n 7) in I; [|intros; apply H1; lia].
    rewrite <- Z.add_assoc in I. destruct (m <? run); by apply Next.
  - destruct (empty_bits 8 b i 0 run m s) as [[run1 m1] s1] eqn:E.
    apply empty_bits_spec in E; [|lia|by rewrite Z.add_0_r|intros; apply H0; lia].
    rewrite Z.add_0_r in E. by apply Next.
Qed.

End inv.

Lemma max_empty_spec buf :
  let r := max_empty_bit_range buf in
  r = -1 /\ (forall j, 0 <= j < 8 * zlen buf -> gbit buf j = true) \/
  exists m, 0 < m /\ 0 <= r /\ r + m <= 8 * zlen buf /\ free_range (gbit buf) r m /\
    forall q k, 0 <= q -> 0 < k -> q + k <= 8 * zlen buf -> free_range (gbit buf) q k -> k <= m.
Proof.
  cbn zeta. unfold max_empty_bit_range.
  destruct (empty_range_spec (gbit buf) buf 0 0 0 (-1)) as (run & m & s & I & ->);
    [lia|apply range_inv_init| |].
  { intros j b k Hj Hk. rewrite Z.add_0_l. rewrite (gbit_lookup _ _ b); [f_equal; dlia|].
    by replace ((Z.of_nat j * 8 + k) / 8) with (Z.of_nat j) by dlia; rewrite Nat2Z.id. }
  rewrite Z.add_0_l in *. replace (zlen buf * 8) with (8 * zlen buf) in * by lia.
  destruct I as [R M L _ B A]. destruct (Z.ltb_spec m run) as [H|H].
  - right. exists run. split_and!; try lia; [done|].
    intros q k Hq Hk Hp F. destruct (A q k Hq Hk Hp F); lia.
  - destruct B as [[-> ->]|(B1 & B2 & B3 & B4)].
    + left. split; [done|]. intros j Hj. destruct (gbit buf j) eqn:E; [done|exfalso].
      destruct (A j 1); try lia. intros j' Hj'. by replace j' with j by lia.
    + right. exists m. split_and!; try done; try lia.
      intros q k Hq Hk Hp F. destruct (A q k Hq Hk Hp F); lia.
Qed.

(** the search of a window finds the start of a longest run of free bits,
    and fails only when every bit is in use. *)
Theorem max_empty_range_correct buf :
  let r := max_empty_bit_range buf in
  r = -1 /\ (forall j, 0 <= j < 8 * zlen buf -> gbit buf j = true) \/
  exists m, 0 < m /\ 0 <= r /\ r + m <= 8 * zlen buf /\ free_range (gbit buf) r m /\
    forall q k, 0 <= q -> 0 < k -> q + k <= 8 * zlen buf -> free_range (gbit buf) q k -> k <= m.
Proof. apply max_empty_spec. Qed.
