(* ===== verification/FsckThm.v ===== *)
(** Correctness of fsck's in-memory bitmaps (libntfs/fsck.c).

    The block arrays refine the function [fbit] from cluster numbers to
    booleans: marking a range sets or clears exactly its clusters, whatever
    blocks it covers and however they are represented, counts the clusters
    that were marked already, and reports them as runs.  The invariant
    [blocks_ok] ties the counts to the private blocks, which is what makes the
    collapse of a full block sound. *)

From S2P Require Import Prelude AttrIO Bitmap Runlist Fsck.

(** ** Specification *)

Definition bbit (b : fblock) (k : Z) : bool :=
  match b with
  | FbNull => false
  | FbOnes => true
  | FbLit bm => gbit bm k
  end.

(** Cluster [x] is marked. *)
Definition fbit (ba : block_array) (x : Z) : bool :=
  match blocks ba !! Z.to_nat (x / FB_BLOCK_BITS) with
  | Some b => bbit b (x mod FB_BLOCK_BITS)
  | None => false
  end.

(** The number of [true]s of [f] on [n] integers from [pos] on. *)
Fixpoint count_true (f : Z -> bool) (pos : Z) (n : nat) : Z :=
  match n with
  | O => 0
  | S n => Z.b2z (f pos) + count_true f (pos + 1) n
  end.

(** The set bits of a private block below [lim]. *)
Definition set_below (bm : list Z) (lim : Z) : Z := count_true (gbit bm) 0 (Z.to_nat lim).

(** The bits of block [idx] that stand for clusters. *)
Definition used_bits (nr_clusters idx : Z) : Z :=
  Z.max 0 (Z.min FB_BLOCK_BITS (nr_clusters - FB_BLOCK_BITS * idx)).

(** The count of a private block is the number of its set bits, up to those
    that stand for no cluster. *)
Definition count_ok (lim : Z) (bm : list Z) (cnt : Z) : Prop :=
  zlen bm = NTFS_BUF_SIZE /\ set_below bm lim <= cnt <= set_below bm FB_BLOCK_BITS.

Definition block_ok (lim : Z) (b : fblock) (cnt : Z) : Prop :=
  match b with FbLit bm => count_ok lim bm cnt | _ => True end.

Record blocks_ok (nr_clusters : Z) (ba : block_array) : Prop := {
  bo_len : length (setcnt ba) = length (blocks ba);
  bo_blocks : forall idx b c, 0 <= idx -> aget (blocks ba) idx = Ok b -> aget (setcnt ba) idx = Ok c ->
    block_ok (used_bits nr_clusters idx) b c
}.

(** * Proofs *)

Lemma count_true_ext f g n : forall pos,
  (forall j, pos <= j < pos + Z.of_nat n -> f j = g j) -> count_true f pos n = count_true g pos n.
Proof.
  induction n as [|n IH]; intros pos H; cbn [count_true]; [done|].
  rewrite H by lia. f_equal. apply IH. intros. apply H. lia.
Qed.

Lemma count_true_range f n : forall pos, 0 <= count_true f pos n <= Z.of_nat n.
Proof.
  induction n as [|n IH]; intros pos; cbn [count_true]; [lia|].
  specialize (IH (pos + 1)). destruct (f pos); cbn [Z.b2z]; lia.
Qed.

Lemma count_true_full f n : forall pos j,
  count_true f pos n = Z.of_nat n -> pos <= j < pos + Z.of_nat n -> f j = true.
Proof.
  induction n as [|n IH]; intros pos j H Hj; cbn [count_true] in H; [lia|].
  pose proof (count_true_range f n (pos + 1)).
  destruct (f pos) eqn:E; cbn [Z.b2z] in H; [|lia].
  destruct (Z.eq_dec j pos) as [->|]; [done|]. apply (IH (pos + 1)); lia.
Qed.

Lemma count_true_const f n v : forall pos,
  (forall j, pos <= j < pos + Z.of_nat n -> f j = v) ->
  count_true f pos n = if v then Z.of_nat n else 0.
Proof.
  induction n as [|n IH]; intros pos H; cbn [count_true]; [by destruct v|].
  rewrite H, IH by (try intros; try apply H; lia). destruct v; cbn [Z.b2z]; lia.
Qed.

(** Changing one value changes the count of the ranges that contain it. *)
Lemma count_true_update f g i v n : forall pos,
  (forall j, 0 <= j -> g j = if j =? i then v else f j) -> 0 <= pos ->
  count_true g pos n = count_true f pos n +
    (if (pos <=? i) && (i <? pos + Z.of_nat n) then Z.b2z v - Z.b2z (f i) else 0).
Proof.
  induction n as [|n IH]; intros pos H Hp; cbn [count_true].
  - zcase; cbn [andb]; lia.
  - rewrite IH, H by (done || lia). destruct (Z.eqb_spec pos i) as [->|].
    + zcase; cbn [andb]; lia.
    + zcase; cbn [andb]; lia.
Qed.

Lemma set_below_update bm bm' i v lim :
  (forall j, 0 <= j -> gbit bm' j = if j =? i then v else gbit bm j) -> 0 <= i -> 0 <= lim ->
  set_below bm' lim = set_below bm lim + (if i <? lim then Z.b2z v - Z.b2z (gbit bm i) else 0).
Proof.
  intros H Hi Hl. unfold set_below. rewrite (count_true_update (gbit bm) _ i v) by done.
  rewrite Z.add_0_l, Z2Nat.id by lia. by zdec.
Qed.

Lemma fb_bits : FB_BLOCK_BITS = 65536.
Proof. done. Qed.

Lemma FB_ROUND_DOWN_spec x : FB_ROUND_DOWN x = x / 8192.
Proof.
  unfold FB_ROUND_DOWN, NTFS_BUF_SIZE, NTFS_BUF_SIZE_BITS. change (8192 - 1) with (Z.ones 13).
  rewrite <- Z.ldiff_land, Z.ldiff_ones_r by lia.
  rewrite Z.shiftr_shiftl_l by lia. rewrite Z.sub_diag, Z.shiftl_0_r.
  rewrite Z.shiftr_div_pow2 by lia. done.
Qed.

Lemma block_index x : FB_ROUND_DOWN (Z.shiftr x NTFSCK_BYTE_TO_BITS) = x / FB_BLOCK_BITS.
Proof.
  rewrite FB_ROUND_DOWN_spec. unfold NTFSCK_BYTE_TO_BITS. rewrite shiftr3, fb_bits. dlia.
Qed.

(** ** The bits of one block *)

Lemma set_below_range bm lim : 0 <= lim -> 0 <= set_below bm lim <= lim.
Proof.
  intros H. unfold set_below. pose proof (count_true_range (gbit bm) (Z.to_nat lim) 0). lia.
Qed.

Lemma set_below_full bm lim k : 0 <= k < lim -> lim <= set_below bm lim -> gbit bm k = true.
Proof.
  intros Hk H. unfold set_below in H. pose proof (count_true_range (gbit bm) (Z.to_nat lim) 0).
  apply (count_true_full (gbit bm) (Z.to_nat lim) 0); lia.
Qed.

(** The count after setting bit [pos] to [v], as the loops keep it. *)
Lemma count_step (v : bool) lim bm bm1 pos cnt :
  count_ok lim bm cnt -> 0 <= lim <= FB_BLOCK_BITS ->
  0 <= pos < (if v then FB_BLOCK_BITS else lim) -> zlen bm1 = zlen bm ->
  (forall j, 0 <= j -> gbit bm1 j = if j =? pos then v else gbit bm j) ->
  let cnt1 := cnt + Z.b2z v - Z.b2z (gbit bm pos) in
  0 <= cnt <= FB_BLOCK_BITS /\ count_ok lim bm1 cnt1 /\ 0 <= cnt1 <= FB_BLOCK_BITS.
Proof.
  intros [Hl Hc] Hlim Hp L1 G1. cbn zeta. rewrite fb_bits in *.
  pose proof (set_below_update bm bm1 pos v lim G1 ltac:(destruct v; lia) ltac:(lia)) as U1.
  pose proof (set_below_update bm bm1 pos v 65536 G1 ltac:(destruct v; lia) ltac:(lia)) as U2.
  pose proof (set_below_range bm lim ltac:(lia)). pose proof (set_below_range bm 65536 ltac:(lia)).
  pose proof (set_below_range bm1 lim ltac:(lia)). pose proof (set_below_range bm1 65536 ltac:(lia)).
  assert (pos < 65536) by (destruct v; lia).
  rewrite (proj2 (Z.ltb_lt pos 65536)) in U2 by lia.
  unfold count_ok. rewrite fb_bits. split; [lia|]. split; [split; [congruence|]|].
  - destruct v; [|destruct (Z.ltb_spec pos lim); lia].
    destruct (pos <? lim); destruct (gbit bm pos); cbn [Z.b2z] in *; lia.
  - destruct v; [destruct (gbit bm pos); cbn [Z.b2z] in *; lia|].
    destruct (Z.ltb_spec pos lim); destruct (gbit bm pos); cbn [Z.b2z] in *; lia.
Qed.

Lemma range_bits_spec (v : bool) lim n : forall bm pos cnt dup,
  count_ok lim bm cnt -> 0 <= lim <= FB_BLOCK_BITS -> 0 <= pos ->
  pos + Z.of_nat n <= (if v then FB_BLOCK_BITS else lim) ->
  0 <= dup -> dup + Z.of_nat n < 2 ^ 64 ->
  exists bm' cnt', range_bits n bm pos (Z.b2z v) cnt dup =
      Ok (bm', cnt', dup + (if v then count_true (gbit bm) pos n else 0)) /\
    count_ok lim bm' cnt' /\
    forall j, 0 <= j -> gbit bm' j =
      if (pos <=? j) && (j <? pos + Z.of_nat n) then v else gbit bm j.
Proof.
  induction n as [|n IH]; intros bm pos cnt dup Hc Hlim Hp Hr Hd Hd'; cbn [range_bits].
  - exists bm, cnt. cbn [count_true]. split; [destruct v; do 2 f_equal; lia|].
    split; [done|]. intros j Hj. zcase; cbn [andb]; done || lia.
  - destruct (bit_get_and_set_spec bm pos v) as (bm1 & -> & L1 & G1);
      [rewrite (proj1 Hc); unfold NTFS_BUF_SIZE; rewrite fb_bits in *; destruct v; lia|].
    cbn [mbind res_bind].
    destruct (count_step v lim bm bm1 pos cnt) as (R & C1 & R1); try done; [lia|].
    cbn zeta in *. rewrite fb_bits in *.
    destruct (IH bm1 (pos + 1) (cnt + Z.b2z v - Z.b2z (gbit bm pos))
      (dup + (if v then Z.b2z (gbit bm pos) else 0))) as (bm' & cnt' & E & C' & G');
      [done|done|lia|lia|destruct v, (gbit bm pos); cbn [Z.b2z]; lia
      |destruct v, (gbit bm pos); cbn [Z.b2z]; lia|].
    exists bm', cnt'. split; [|split; [done|]].
    + rewrite (count_true_ext (gbit bm1) (gbit bm)) in E
        by (intros j Hj; rewrite G1 by lia; by zdec).
      cbn [count_true]. revert E R1. destruct v, (gbit bm pos); cbn [Z.b2z Z.eqb negb];
        intros E R1; rewrite ?u32_small, ?u64_small by lia;
        rewrite ?Z.add_0_r, ?Z.sub_0_r, ?Z.add_simpl_r in E; rewrite E; do 2 f_equal; lia.
    + intros j Hj. rewrite G', G1 by done. zcase; cbn [andb]; done || lia.
Qed.

(** ** Replacing one block *)

Definition upd (ba : block_array) (idx : Z) (b : fblock) (cnt : Z) : block_array :=
  mk_blocks (<[Z.to_nat idx := b]> (blocks ba)) (<[Z.to_nat idx := cnt]> (setcnt ba)).

(** Slot [idx] holds [b] and [cnt]. *)
Definition slot (ba : block_array) (idx : Z) (b : fblock) (cnt : Z) : Prop :=
  aget (blocks ba) idx = Ok b /\ aget (setcnt ba) idx = Ok cnt.

Lemma slot_total nr ba idx :
  blocks_ok nr ba -> 0 <= idx < zlen (blocks ba) ->
  exists b cnt, slot ba idx b cnt /\ block_ok (used_bits nr idx) b cnt.
Proof.
  intros [Hl Hb] Hi. destruct (aget_total (blocks ba) idx Hi) as [b Eb].
  destruct (aget_total (setcnt ba) idx) as [c Ec]; [unfold zlen in *; lia|].
  exists b, c. split; [done|]. apply Hb; [lia|done..].
Qed.

Lemma slot_range ba idx b cnt :
  slot ba idx b cnt -> 0 <= idx < zlen (blocks ba) /\ 0 <= idx < zlen (setcnt ba).
Proof. intros [H1 H2]. split; by eapply aget_range. Qed.

Lemma upd_slot ba idx b cnt b' cnt' :
  slot ba idx b cnt -> slot (upd ba idx b' cnt') idx b' cnt'.
Proof. intros [R1 R2]%slot_range. split; cbn; by apply aget_insert_eq. Qed.

Lemma upd_upd ba idx b cnt b' cnt' : upd (upd ba idx b cnt) idx b' cnt' = upd ba idx b' cnt'.
Proof. unfold upd. cbn. by rewrite !list_insert_insert_eq. Qed.

Lemma upd_same ba idx b cnt : slot ba idx b cnt -> upd ba idx b cnt = ba.
Proof.
  intros [[_ H1]%aget_ok [_ H2]%aget_ok]. unfold upd. rewrite !list_insert_id by done. by destruct ba.
Qed.

Lemma upd_zlen ba idx b cnt : zlen (blocks (upd ba idx b cnt)) = zlen (blocks ba).
Proof. apply zlen_insert. Qed.

Lemma upd_ok nr ba idx b cnt :
  blocks_ok nr ba -> 0 <= idx < zlen (blocks ba) -> block_ok (used_bits nr idx) b cnt ->
  blocks_ok nr (upd ba idx b cnt).
Proof.
  intros [Hl Hb] Hi Hbo. split; [cbn; by rewrite !length_insert|]. intros i b' c' Hi' E1 E2. cbn in *.
  destruct (Z.eq_dec i idx) as [->|Hne].
  - rewrite aget_insert_eq in E1 by done.
    rewrite aget_insert_eq in E2 by (unfold zlen in *; lia). by simplify_eq.
  - rewrite aget_insert_ne in E1 by lia. rewrite aget_insert_ne in E2 by lia. by apply Hb.
Qed.

Lemma fbit_upd ba idx b cnt x :
  0 <= idx < zlen (blocks ba) -> 0 <= x ->
  fbit (upd ba idx b cnt) x =
    if x / FB_BLOCK_BITS =? idx then bbit b (x mod FB_BLOCK_BITS) else fbit ba x.
Proof.
  intros Hi Hx. unfold fbit. cbn [blocks upd]. rewrite fb_bits.
  destruct (Z.eqb_spec (x / 65536) idx) as [->|Hne].
  - rewrite list_lookup_insert_eq by (unfold zlen in Hi; lia). done.
  - rewrite list_lookup_insert_ne by dlia. done.
Qed.

Lemma fbit_slot ba idx b cnt x :
  slot ba idx b cnt -> x / FB_BLOCK_BITS = idx -> fbit ba x = bbit b (x mod FB_BLOCK_BITS).
Proof. intros [[_ H1]%aget_ok _] <-. unfold fbit. by rewrite H1. Qed.

Lemma store_block_upd ba idx b cnt b' cnt' :
  slot ba idx b cnt -> store_block ba idx b' cnt' = Ok (upd ba idx b' cnt').
Proof.
  intros [R1 R2]%slot_range. unfold store_block. by rewrite !aset_ok by done.
Qed.

(** ** Operations on one block *)

Section block_ops.
Context {HP : Heap} (Hheap : forall n, heap_grants n = true).

Lemma zero_block_bits k : 0 <= k < FB_BLOCK_BITS -> gbit zero_block k = false.
Proof. rewrite fb_bits. intros. apply (gbit_fill false NTFS_BUF_SIZE). unfold NTFS_BUF_SIZE. lia. Qed.

Lemma ones_block_bits k : 0 <= k < FB_BLOCK_BITS -> gbit ones_block k = true.
Proof. rewrite fb_bits. intros. apply (gbit_fill true NTFS_BUF_SIZE). unfold NTFS_BUF_SIZE. lia. Qed.

Lemma const_block_ok (v : bool) lim :
  0 <= lim <= FB_BLOCK_BITS ->
  count_ok lim (if v then ones_block else zero_block) (if v then FB_BLOCK_BITS else 0).
Proof.
  intros Hl. split.
  - unfold zlen, zero_block, ones_block. destruct v; rewrite length_replicate; done.
  - unfold set_below. rewrite !(count_true_const _ _ v);
      [destruct v; lia|intros j Hj; destruct v; [apply ones_block_bits|apply zero_block_bits]; lia..].
Qed.

Lemma used_bits_range nr idx : 0 <= used_bits nr idx <= FB_BLOCK_BITS.
Proof. unfold used_bits. rewrite fb_bits. lia. Qed.

Lemma materialize_spec arena lim ba idx b cnt :
  slot ba idx b cnt -> block_ok lim b cnt -> 0 <= lim <= FB_BLOCK_BITS ->
  exists bm cnt', materialize arena ba idx = Ok (Some (upd ba idx (FbLit bm) cnt', bm)) /\
    count_ok lim bm cnt' /\ forall k, 0 <= k < FB_BLOCK_BITS -> gbit bm k = bbit b k.
Proof.
  intros Hs Hb Hl. unfold materialize. rewrite (proj1 Hs). cbn [mbind res_bind].
  rewrite Hheap, orb_true_r. destruct b as [| |bm].
  - rewrite (store_block_upd _ _ _ _ _ _ Hs). cbn [mbind res_bind]. exists zero_block, 0.
    split; [done|]. split; [apply (const_block_ok false lim Hl)|]. apply zero_block_bits.
  - rewrite (store_block_upd _ _ _ _ _ _ Hs). cbn [mbind res_bind]. exists ones_block, FB_BLOCK_BITS.
    split; [done|]. split; [apply (const_block_ok true lim Hl)|]. apply ones_block_bits.
  - exists bm, cnt. rewrite (upd_same _ _ _ _ Hs). done.
Qed.

(** A block is collapsed only when all its bits are set. *)
Lemma try_collapse_spec lim ba idx bm cnt :
  slot ba idx (FbLit bm) cnt -> count_ok lim bm cnt ->
  exists b', try_collapse ba idx = Ok (upd ba idx b' cnt) /\ block_ok lim b' cnt /\
    forall k, 0 <= k < FB_BLOCK_BITS -> bbit b' k = gbit bm k.
Proof.
  intros Hs Hc. unfold try_collapse. rewrite (proj1 Hs), (proj2 Hs). cbn [mbind res_bind].
  destruct (Z.eqb_spec cnt FB_BLOCK_BITS) as [E|E]; cbn [negb].
  - destruct (slot_range _ _ _ _ Hs) as [R1 R2]. rewrite aset_ok by done. cbn [mbind res_bind].
    exists FbOnes. split; [|split; [done|]].
    + destruct Hs as [_ [_ Hs]%aget_ok]. unfold upd. by rewrite (list_insert_id (setcnt ba)).
    + intros k Hk. symmetry. destruct Hc as [_ Hc].
      apply (set_below_full _ FB_BLOCK_BITS); [done|lia].
  - exists (FbLit bm). rewrite (upd_same _ _ _ _ Hs). done.
Qed.

Lemma mark_block_spec (v : bool) arena lim ba idx b cnt rel n dup :
  slot ba idx b cnt -> block_ok lim b cnt -> 0 <= lim <= FB_BLOCK_BITS -> 0 <= rel ->
  rel + Z.of_nat n <= (if v then FB_BLOCK_BITS else lim) -> 0 <= dup -> dup + Z.of_nat n < 2 ^ 64 ->
  exists bm cnt',
    mark_block arena ba dup idx rel (Z.of_nat n) (Z.b2z v) =
      Ok (Some (upd ba idx (FbLit bm) cnt', dup + (if v then count_true (bbit b) rel n else 0))) /\
    count_ok lim bm cnt' /\
    forall k, 0 <= k < FB_BLOCK_BITS -> gbit bm k =
      if (rel <=? k) && (k <? rel + Z.of_nat n) then v else bbit b k.
Proof.
  intros Hs Hb Hl Hr Hn Hd Hd'. unfold mark_block.
  destruct (materialize_spec arena lim ba idx b cnt Hs Hb Hl) as (bm & cnt1 & -> & C & G).
  pose proof (upd_slot _ _ _ _ (FbLit bm) cnt1 Hs) as Hs1.
  destruct (range_bits_spec v lim n bm rel cnt1 dup C Hl Hr Hn Hd Hd') as (bm' & cnt' & E2 & C2 & G2).
  cbn [mbind res_bind]. rewrite (proj2 Hs1), Nat2Z.id. cbn [mbind res_bind]. rewrite E2.
  cbn [mbind res_bind]. rewrite (store_block_upd _ _ _ _ _ _ Hs1), upd_upd. cbn [mbind res_bind].
  exists bm', cnt'. split; [|split; [done|]].
  - do 3 f_equal. destruct v; [|done]. f_equal. apply count_true_ext. intros j Hj. apply G.
    cbn in Hn. lia.
  - intros k Hk. rewrite G2 by lia. destruct (_ && _); [done|]. by apply G.
Qed.

Lemma set_block_spec (v : bool) arena lim ba idx b cnt rel n dup :
  slot ba idx b cnt -> block_ok lim b cnt -> 0 <= lim <= FB_BLOCK_BITS -> 0 <= rel ->
  rel + Z.of_nat n <= (if v then FB_BLOCK_BITS else lim) -> 0 <= dup -> dup + Z.of_nat n < 2 ^ 64 ->
  exists b' cnt',
    set_block arena ba dup idx rel (Z.of_nat n) ((rel =? 0) && (Z.of_nat n =? FB_BLOCK_BITS)) (Z.b2z v) =
      Ok (Some (upd ba idx b' cnt', dup + (if v then count_true (bbit b) rel n else 0))) /\
    block_ok lim b' cnt' /\
    forall k, 0 <= k < FB_BLOCK_BITS -> bbit b' k =
      if (rel <=? k) && (k <? rel + Z.of_nat n) then v else bbit b k.
Proof.
  intros Hs Hb Hl Hr Hn Hd Hd'. unfold set_block. rewrite (proj1 Hs). cbn [mbind res_bind].
  destruct (mark_block_spec v arena lim ba idx b cnt rel n dup) as (bm & cnt' & -> & C & G); [done..|].
  assert (exists b' cnt'',
    (ba1 ← try_collapse (upd ba idx (FbLit bm) cnt') idx;
     Ok (Some (ba1, dup + (if v then count_true (bbit b) rel n else 0)))) =
      Ok (Some (upd ba idx b' cnt'', dup + (if v then count_true (bbit b) rel n else 0))) /\
    block_ok lim b' cnt'' /\ forall k, 0 <= k < FB_BLOCK_BITS -> bbit b' k =
      if (rel <=? k) && (k <? rel + Z.of_nat n) then v else bbit b k) as Hcol.
  { destruct (try_collapse_spec lim _ _ _ _ (upd_slot _ _ _ _ (FbLit bm) cnt' Hs) C)
      as (b' & -> & Cb & Gb). rewrite upd_upd. exists b', cnt'. split; [done|]. split; [done|].
    intros k Hk. rewrite Gb by done. by apply G. }
  destruct b, v; cbn [Z.b2z Z.eqb negb]; try exact Hcol.
  2:{ exists FbNull, cnt. rewrite (upd_same _ _ _ _ Hs), Z.add_0_r. split; [done|]. split; [done|].
      intros k Hk. cbn. by destruct (_ && _). }
  2, 3: exists (FbLit bm), cnt'; done.
  destruct ((rel =? 0) && _) eqn:Efull; [|exact Hcol].
  apply andb_true_iff in Efull as [->%Z.eqb_eq En%Z.eqb_eq].
  destruct (slot_range _ _ _ _ Hs) as [R1 R2]. rewrite aset_ok by done. cbn [mbind res_bind].
  exists FbOnes, cnt. split; [|split; [done|]].
  - rewrite (count_true_const _ _ false) by done. rewrite Z.add_0_r.
    destruct Hs as [_ [_ Hs]%aget_ok]. unfold upd. by rewrite (list_insert_id (setcnt ba)).
  - intros k Hk. cbn. by zdec.
Qed.

End block_ops.

Lemma count_true_shift f g n : forall p q,
  (forall i, 0 <= i < Z.of_nat n -> f (p + i) = g (q + i)) -> count_true f p n = count_true g q n.
Proof.
  induction n as [|n IH]; intros p q H; cbn [count_true]; [done|].
  f_equal; [f_equal; pose proof (H 0 ltac:(lia)) as H0; by rewrite !Z.add_0_r in H0|].
  apply IH. intros i Hi. rewrite <- !Z.add_assoc. apply H. lia.
Qed.

Lemma count_true_app f a b : forall p,
  count_true f p (a + b) = count_true f p a + count_true f (p + Z.of_nat a) b.
Proof.
  induction a as [|a IH]; intros p; cbn [count_true Nat.add]; [by rewrite Z.add_0_r|].
  rewrite IH, Z.add_assoc. f_equal. f_equal. lia.
Qed.

(** [ba'] is [ba] with the clusters from [x] up to [y] set to [v]. *)
Record marked (nr : Z) (ba ba' : block_array) (x y : Z) (v : bool) : Prop := {
  mk_ok : blocks_ok nr ba';
  mk_len : zlen (blocks ba') = zlen (blocks ba);
  mk_bits : forall z, 0 <= z -> fbit ba' z = if (x <=? z) && (z <? y) then v else fbit ba z
}.

Lemma marked_trans nr ba ba1 ba2 x y z v :
  marked nr ba ba1 x y v -> marked nr ba1 ba2 y z v -> x <= y <= z -> marked nr ba ba2 x z v.
Proof.
  intros [O1 L1 B1] [O2 L2 B2] H. split; [done|congruence|]. intros w Hw.
  rewrite B2, B1 by done. zcase; cbn [andb]; done || lia.
Qed.

(** Replacing a block by one that differs in a part of it. *)
Lemma marked_upd nr ba idx b cnt b' cnt' rel n v :
  blocks_ok nr ba -> slot ba idx b cnt -> block_ok (used_bits nr idx) b' cnt' ->
  0 <= rel -> 0 <= n -> rel + n <= FB_BLOCK_BITS ->
  (forall k, 0 <= k < FB_BLOCK_BITS -> bbit b' k =
     if (rel <=? k) && (k <? rel + n) then v else bbit b k) ->
  marked nr ba (upd ba idx b' cnt') (FB_BLOCK_BITS * idx + rel) (FB_BLOCK_BITS * idx + rel + n) v.
Proof.
  intros Ho Hs Hb Hr Hn Hrn G. destruct (slot_range _ _ _ _ Hs) as [R _].
  split; [by apply upd_ok|apply upd_zlen|]. intros z Hz. rewrite fbit_upd by done.
  rewrite fb_bits in *. destruct (Z.eqb_spec (z / 65536) idx) as [E|E].
  - rewrite G by dlia. rewrite (fbit_slot _ _ _ _ _ Hs) by (by rewrite fb_bits). rewrite fb_bits.
    replace (65536 * idx + rel <=? z) with (rel <=? z mod 65536) by
      (destruct (Z.leb_spec rel (z mod 65536)), (Z.leb_spec (65536 * idx + rel) z); dlia).
    replace (z <? 65536 * idx + rel + n) with (z mod 65536 <? rel + n) by
      (destruct (Z.ltb_spec (z mod 65536) (rel + n)), (Z.ltb_spec z (65536 * idx + rel + n)); dlia).
    done.
  - replace ((65536 * idx + rel <=? z) && (z <? 65536 * idx + rel + n)) with false; [done|].
    symmetry. apply andb_false_iff. rewrite Z.leb_gt, Z.ltb_ge. dlia.
Qed.

(** Position [x] is what the loop's [idx] and [rel_slcn] stand for. *)
Definition at_pos (x idx rel_slcn : Z) : Prop :=
  0 <= x /\ x / FB_BLOCK_BITS = idx /\ (rel_slcn = x \/ rel_slcn = 0 /\ x mod FB_BLOCK_BITS = 0).

Lemma rel_range_spec x idx rel_slcn remain :
  at_pos x idx rel_slcn -> 0 < remain ->
  exists n, rel_range idx rel_slcn remain =
      (x mod FB_BLOCK_BITS, Z.of_nat n,
       (x mod FB_BLOCK_BITS =? 0) && (Z.of_nat n =? FB_BLOCK_BITS)) /\
    Z.of_nat n = Z.min (FB_BLOCK_BITS - x mod FB_BLOCK_BITS) remain /\ 0 < Z.of_nat n /\
    (Z.of_nat n < remain -> at_pos (x + Z.of_nat n) (idx + 1) 0).
Proof.
  intros (Hx & Ei & Hr) Hrem. unfold at_pos in *. rewrite fb_bits in *.
  exists (Z.to_nat (Z.min (65536 - x mod 65536) remain)).
  assert (0 < Z.min (65536 - x mod 65536) remain) by dlia. rewrite !Z2Nat.id by lia.
  split; [|split; [done|split; [done|]]].
  - unfold rel_range. unfold NTFS_BUF_SIZE_BITS, NTFSCK_BYTE_TO_BITS.
    rewrite !Z.shiftl_mul_pow2 by lia. change (2 ^ (13 + 3)) with 65536. rewrite fb_bits.
    assert ((if negb (rel_slcn =? 0) then rel_slcn - idx * 65536 else rel_slcn) = x mod 65536) as ->
      by (destruct (Z.eqb_spec rel_slcn 0); cbn [negb]; dlia).
    assert ((if remain <? 1 * 65536 - x mod 65536 then remain else 1 * 65536 - x mod 65536) =
      Z.min (65536 - x mod 65536) remain) as -> by (zcase; lia).
    done.
  - intros Hlt. assert (Z.min (65536 - x mod 65536) remain = 65536 - x mod 65536) as -> by lia.
    split; [dlia|]. split; [dlia|]. right. split; [done|dlia].
Qed.

(** An array without private blocks is consistent, the freshly allocated one
    in particular. *)
Lemma shared_blocks_ok nr bl sc :
  length sc = length bl -> Forall (fun b => b = FbNull \/ b = FbOnes) bl -> blocks_ok nr (mk_blocks bl sc).
Proof.
  intros Hl Hb. split; [done|]. cbn. intros idx b c _ [_ E]%aget_ok _.
  by destruct (Forall_lookup_1 _ _ _ _ Hb E) as [->| ->].
Qed.

Lemma blocks_init_ok nr : blocks_ok nr (blocks_init nr).
Proof.
  apply shared_blocks_ok; [by rewrite !length_replicate|]. apply Forall_replicate. by left.
Qed.

Lemma blocks_init_free nr x : fbit (blocks_init nr) x = false.
Proof.
  unfold fbit, blocks_init. cbn [blocks].
  destruct (_ !! _) as [b|] eqn:E; [|done]. by apply lookup_replicate in E as [-> _].
Qed.

Section range_ops.
Context {HP : Heap} (Hheap : forall n, heap_grants n = true).

Lemma set_range_loop_spec nr (v : bool) arena : forall fuel ba dup x idx rel_slcn remain,
  blocks_ok nr ba -> at_pos x idx rel_slcn -> 0 < remain ->
  (x + remain - 1) / FB_BLOCK_BITS < idx + Z.of_nat fuel ->
  x + remain <= FB_BLOCK_BITS * zlen (blocks ba) -> (v = false -> x + remain <= nr) ->
  0 <= dup -> dup + remain < 2 ^ 64 ->
  exists ba', set_range_loop fuel arena ba dup idx rel_slcn remain (Z.b2z v) =
      Ok (ba', dup + (if v then count_true (fbit ba) x (Z.to_nat remain) else 0), None) /\
    marked nr ba ba' x (x + remain) v.
Proof.
  induction fuel as [|fuel IH]; intros ba dup x idx rel_slcn remain Ho Hpos Hrem Hf Hend Hnr Hd Hd'.
  { destruct Hpos as (? & <- & _). rewrite fb_bits in *. exfalso. dlia. }
  cbn [set_range_loop].
  destruct (rel_range_spec x idx rel_slcn remain Hpos Hrem) as (n & -> & En & Hn & Hnext).
  pose proof Hpos as (Hx & Ei & _).
  destruct (slot_total nr ba idx Ho) as (b & cnt & Hs & Hb); [rewrite fb_bits in *; dlia|].
  destruct (set_block_spec Hheap v arena (used_bits nr idx) ba idx b cnt (x mod FB_BLOCK_BITS) n dup)
    as (b' & cnt' & -> & Hb' & G); try done; try apply used_bits_range; try lia;
    try (rewrite fb_bits in *; dlia).
  { destruct v; [rewrite fb_bits in *; dlia|]. specialize (Hnr eq_refl). unfold used_bits.
    rewrite fb_bits in *. dlia. }
  cbn [mbind res_bind].
  assert (FB_BLOCK_BITS * idx + x mod FB_BLOCK_BITS = x) as Ex by (rewrite fb_bits in *; dlia).
  assert (marked nr ba (upd ba idx b' cnt') x (x + Z.of_nat n) v) as M1.
  { rewrite <- Ex at 1. rewrite <- Ex at 2.
    apply (marked_upd _ _ _ b cnt); try done; rewrite ?fb_bits in *; dlia. }
  assert (count_true (bbit b) (x mod FB_BLOCK_BITS) n = count_true (fbit ba) x n) as ->.
  { apply count_true_shift. intros i Hi. rewrite (fbit_slot _ _ _ _ _ Hs) by (rewrite fb_bits in *; dlia).
    f_equal. rewrite fb_bits in *. dlia. }
  destruct (Z.leb_spec (remain - Z.of_nat n) 0).
  - exists (upd ba idx b' cnt'). assert (remain = Z.of_nat n) as -> by lia. by rewrite Nat2Z.id.
  - destruct (IH (upd ba idx b' cnt') (dup + (if v then count_true (fbit ba) x n else 0))
      (x + Z.of_nat n) (idx + 1) 0 (remain - Z.of_nat n)) as (ba' & -> & M2).
    + apply M1.
    + apply Hnext. lia.
    + lia.
    + replace (x + Z.of_nat n + (remain - Z.of_nat n) - 1) with (x + remain - 1) by lia. lia.
    + rewrite upd_zlen. lia.
    + intros Hv. specialize (Hnr Hv). lia.
    + pose proof (count_true_range (fbit ba) n x). destruct v; lia.
    + pose proof (count_true_range (fbit ba) n x). destruct v; lia.
    + exists ba'. split.
      * do 3 f_equal. destruct v; [|lia]. rewrite <- Z.add_assoc. f_equal.
        replace (Z.to_nat remain) with (n + Z.to_nat (remain - Z.of_nat n))%nat by lia.
        rewrite count_true_app. f_equal. apply count_true_ext. intros j Hj.
        rewrite (mk_bits _ _ _ _ _ _ M1) by lia. by zdec.
      * replace (x + remain) with (x + Z.of_nat n + (remain - Z.of_nat n)) by lia.
        eapply marked_trans; [done..|lia].
Qed.

Lemma set_range_spec nr arena ba dup x n (v : bool) :
  blocks_ok nr ba -> 0 <= x -> 0 < n -> x + n < 2 ^ 63 ->
  x + n <= FB_BLOCK_BITS * zlen (blocks ba) -> (v = false -> x + n <= nr) ->
  0 <= dup -> dup + n < 2 ^ 64 ->
  exists ba', ntfs_fsck_set_lcnbmp_range arena ba dup x n (Z.b2z v) =
      Ok (ba', dup + (if v then count_true (fbit ba) x (Z.to_nat n) else 0), None) /\
    marked nr ba ba' x (x + n) v.
Proof.
  intros Ho Hx Hn Hxn Hend Hnr Hd Hd'. unfold ntfs_fsck_set_lcnbmp_range.
  rewrite !block_index, s64_small by lia. zdec.
  apply set_range_loop_spec; try done; [|rewrite fb_bits in *; dlia].
  split; [done|]. split; [done|by left].
Qed.

End range_ops.

(** C15: marking or freeing a range of clusters changes exactly its clusters in
    fsck's bitmap, keeps the representation consistent, and adds the clusters
    that were marked already to the duplicate count. *)
Theorem fsck_set_range_correct `{Heap} nr arena ba dup x n (v : bool) :
  (forall m, heap_grants m = true) -> blocks_ok nr ba -> 0 <= x -> 0 < n -> x + n < 2 ^ 63 ->
  x + n <= FB_BLOCK_BITS * zlen (blocks ba) -> (v = false -> x + n <= nr) ->
  0 <= dup -> dup + n < 2 ^ 64 ->
  exists ba', ntfs_fsck_set_lcnbmp_range arena ba dup x n (Z.b2z v) =
      Ok (ba', dup + (if v then count_true (fbit ba) x (Z.to_nat n) else 0), None) /\
    blocks_ok nr ba' /\ zlen (blocks ba') = zlen (blocks ba) /\
    forall z, 0 <= z -> fbit ba' z = if (x <=? z) && (z <? x + n) then v else fbit ba z.
Proof.
  intros Hh Ho Hx Hn Hxn Hend Hnr Hd Hd'.
  destruct (set_range_spec Hh nr arena ba dup x n v) as (ba' & E & [M1 M2 M3]); [done..|].
  by exists ba'.
Qed.

(** A range that covers the end of one block, a whole block and the start of a
    third. *)
Lemma fsck_set_range_correct_witness :
  exists ba', @ntfs_fsck_set_lcnbmp_range ample_heap false (blocks_init 140000) 0 60000 75000 1 = Ok (ba', 0, None) /\
    blocks_ok 140000 ba' /\ fbit ba' 59999 = false /\ fbit ba' 60000 = true /\
    fbit ba' 134999 = true /\ fbit ba' 135000 = false.
Proof.
  destruct (@fsck_set_range_correct ample_heap 140000 false (blocks_init 140000) 0 60000 75000 true)
    as (ba' & E & Hok & _ & G);
    [done|apply blocks_init_ok|lia|lia|lia|vm_compute; discriminate|discriminate|lia|lia|].
  - rewrite (count_true_const _ _ false) in E by (intros; apply blocks_init_free).
    exists ba'. split; [exact E|]. split; [exact Hok|]. rewrite !G, !blocks_init_free by lia. repeat split.
Defined.
