(* ===== verification/FsckDup.v ===== *)
(** Duplicated clusters (libntfs/fsck.c, [ntfs_fsck_check_and_set_lcnbmp] and
    [ntfs_fsck_make_dup_runlist]): marking a run reports exactly the clusters
    that were marked before, as runs that give each of them its vcn. *)

From S2P Require Import Prelude AttrIO Bitmap Runlist Fsck FsckThm.

(** ** Specification *)

(** The clusters of a run with their vcns, and of a list of runs. *)
Fixpoint run_pairs (v x : Z) (n : nat) : list (Z * Z) :=
  match n with
  | O => []
  | S n => (v, x) :: run_pairs (v + 1) (x + 1) n
  end.

Fixpoint rl_pairs (runs : runlist) : list (Z * Z) :=
  match runs with
  | [] => []
  | r :: runs => run_pairs (vcn r) (lcn r) (Z.to_nat (len r)) ++ rl_pairs runs
  end.

(** The clusters from [x] on that [f] holds for, with vcns from [v] on. *)
Fixpoint dup_pairs (f : Z -> bool) (v x : Z) (n : nat) : list (Z * Z) :=
  match n with
  | O => []
  | S n => (if f x then [(v, x)] else []) ++ dup_pairs f (v + 1) (x + 1) n
  end.

(** A run of duplicated clusters. *)
Definition dup_run (r : runlist_element) : Prop :=
  0 <= vcn r /\ 0 <= lcn r /\ 0 < len r /\ vcn r + len r < 2 ^ 63 /\ lcn r + len r < 2 ^ 63.

(** The list of duplicated runs, NULL while there is none. *)
Definition dup_holds (d : option runlist) (runs : runlist) : Prop :=
  match d with
  | None => runs = []
  | Some rl => Forall dup_run runs /\ exists term tail, rl = runs ++ term :: tail /\ len term = 0
  end.

(** * Proofs *)

Lemma rl_pairs_app r1 r2 : rl_pairs (r1 ++ r2) = rl_pairs r1 ++ rl_pairs r2.
Proof. induction r1 as [|r r1 IH]; cbn; [done|]. by rewrite IH, app_assoc. Qed.

Lemma run_pairs_app a b : forall v x,
  run_pairs v x (a + b) = run_pairs v x a ++ run_pairs (v + Z.of_nat a) (x + Z.of_nat a) b.
Proof.
  induction a as [|a IH]; intros v x; cbn [run_pairs Nat.add app]; [by rewrite !Z.add_0_r|].
  rewrite IH. do 3 f_equal; lia.
Qed.

Lemma dup_pairs_ext f g n : forall v x,
  (forall y, x <= y < x + Z.of_nat n -> f y = g y) -> dup_pairs f v x n = dup_pairs g v x n.
Proof.
  induction n as [|n IH]; intros v x H; cbn [dup_pairs]; [done|].
  rewrite H by lia. f_equal. apply IH. intros. apply H. lia.
Qed.

Lemma dup_pairs_app f a b : forall v x,
  dup_pairs f v x (a + b) =
  dup_pairs f v x a ++ dup_pairs f (v + Z.of_nat a) (x + Z.of_nat a) b.
Proof.
  induction a as [|a IH]; intros v x; cbn [dup_pairs Nat.add app]; [by rewrite !Z.add_0_r|].
  rewrite IH, <- app_assoc. do 3 f_equal; lia.
Qed.

Lemma dup_pairs_none f n : forall v x,
  (forall y, x <= y < x + Z.of_nat n -> f y = false) -> dup_pairs f v x n = [].
Proof.
  induction n as [|n IH]; intros v x H; cbn [dup_pairs]; [done|].
  rewrite H by lia. apply IH. intros. apply H. lia.
Qed.

Lemma rl_last_dup runs term tail : forall i,
  Forall dup_run runs -> len term = 0 ->
  rl_last (runs ++ term :: tail) i = Ok (i + zlen runs).
Proof.
  induction runs as [|r runs IH]; intros i Hd Ht; cbn [app rl_last].
  - rewrite Ht, zlen_nil, Z.add_0_r. done.
  - inversion Hd as [|? ? (_ & _ & Hl & _) Hds]; subst. zdec.
    rewrite IH by done. rewrite zlen_cons. f_equal. lia.
Qed.

Section dups.
Context {HP : Heap} (Hheap : forall n, heap_grants n = true).

Lemma make_dup_first r :
  dup_run r -> exists rl, ntfs_fsck_make_dup_runlist None r = Ok (Some rl) /\ dup_holds (Some rl) [r].
Proof.
  intros Hr. unfold ntfs_fsck_make_dup_runlist. rewrite Hheap. cbn [mbind res_bind].
  assert (exists x y l, replicate (Z.to_nat (rl_capacity 4096)) (mk_rle 0 0 0) = x :: y :: l)
    as (x & y & l & ->) by (eexists _, _, _; reflexivity).
  rewrite (aset_mid [] x (y :: l)) by done. cbn [mbind res_bind app].
  rewrite (aset_mid [r] y l) by done. cbn [mbind res_bind app].
  eexists. split; [done|]. split; [by apply Forall_singleton|]. by eexists _, l.
Qed.

(** The run continues the last one. *)
Lemma make_dup_extend R p r term tail :
  Forall dup_run (R ++ [p]) -> dup_run r -> len term = 0 ->
  vcn p + len p = vcn r -> lcn p + len p = lcn r ->
  exists rl, ntfs_fsck_make_dup_runlist (Some ((R ++ [p]) ++ term :: tail)) r = Ok (Some rl) /\
    dup_holds (Some rl) (R ++ [set_len p (len p + len r)]).
Proof.
  intros Hruns Hr Ht Hv Hl. unfold ntfs_fsck_make_dup_runlist.
  rewrite rl_last_dup by done. cbn [mbind res_bind]. rewrite Z.add_0_l, zlen_app, zlen_cons, zlen_nil.
  pose proof (zlen_nonneg R). apply Forall_app in Hruns as [HR Hp].
  inversion Hp as [|? ? (P1 & P2 & P3 & P4 & P5) _]; subst. destruct Hr as (R1 & R2 & R3 & R4 & R5).
  zdec. rewrite <- app_assoc. cbn [app].
  replace (zlen R + (1 + 0) + 1 - 2) with (zlen R) by lia.
  replace (zlen R + (1 + 0) + 1 - 1) with (zlen R + 1) by lia.
  rewrite aget_mid by done. cbn [mbind res_bind]. rewrite !s64_small by lia.
  rewrite Hv, Hl, !Z.eqb_refl. cbn [andb]. rewrite aset_mid by done. cbn [mbind res_bind].
  rewrite (cons_middle _ R), app_assoc, aget_mid by zlen_solve. cbn [mbind res_bind].
  rewrite aset_mid by zlen_solve. cbn [mbind res_bind]. rewrite (s64_small (len p + len r)) by lia.
  eexists. split; [done|]. split; [|by eexists _, tail].
  apply Forall_app. split; [done|]. apply Forall_singleton. unfold dup_run. cbn. lia.
Qed.

(** The run is appended. *)
Lemma make_dup_append runs r term tail :
  Forall dup_run runs -> dup_run r -> len term = 0 ->
  (forall R p, runs = R ++ [p] -> ~ (vcn p + len p = vcn r /\ lcn p + len p = lcn r)) ->
  exists rl, ntfs_fsck_make_dup_runlist (Some (runs ++ term :: tail)) r = Ok (Some rl) /\
    dup_holds (Some rl) (runs ++ [r]).
Proof.
  intros Hruns Hr Ht Hne. unfold ntfs_fsck_make_dup_runlist.
  rewrite rl_last_dup by done. cbn [mbind res_bind]. rewrite Z.add_0_l. pose proof (zlen_nonneg runs).
  assert ((if 1 <? zlen runs + 1 then
      p ← aget (runs ++ term :: tail) (zlen runs + 1 - 2);
      Ok ((s64 (vcn p + len p) =? vcn r) && (s64 (lcn p + len p) =? lcn r))
    else Ok false) = Ok false) as ->.
  { destruct (Z.ltb_spec 1 (zlen runs + 1)); [|done].
    destruct runs as [|p R _] using rev_ind; [zlen_solve|]. rewrite zlen_app, zlen_cons, zlen_nil.
    rewrite <- app_assoc. cbn [app]. rewrite aget_mid by lia. cbn [mbind res_bind].
    apply Forall_app in Hruns as [_ Hp]. inversion Hp as [|? ? (P1 & P2 & P3 & P4 & P5) _]; subst.
    rewrite !s64_small by lia. specialize (Hne R p eq_refl). f_equal.
    apply andb_false_iff. rewrite !Z.eqb_neq. lia. }
  cbn [mbind res_bind]. change 4095 with (Z.ones 12) at 2. rewrite land_lnot_ones by lia.
  change (2 ^ 12) with 4096.
  set (bytes := 4096 * _). assert (zlen runs + 2 <= rl_capacity bytes) as Hcap.
  { unfold bytes, rl_capacity, sizeof_rle. dlia. }
  destruct (rl_resize (runs ++ term :: tail) bytes) as [rl|e|] eqn:E;
    try (revert E; unfold rl_resize; rewrite Hheap; done).
  apply rl_resize_grow in E as (junk & -> & L); [|lia].
  destruct junk as [|a [|b junk]]; [zlen_solve..|].
  rewrite aset_mid by lia. cbn [mbind res_bind].
  rewrite (cons_middle _ runs), app_assoc, aset_mid by zlen_solve. cbn [mbind res_bind].
  eexists. split; [done|]. split; [apply Forall_app; split; [done|by apply Forall_singleton]|].
  by eexists _, junk.
Qed.

(** Adding a run adds its clusters. *)
Lemma make_dup_spec d runs r :
  dup_holds d runs -> dup_run r ->
  exists rl runs', ntfs_fsck_make_dup_runlist d r = Ok (Some rl) /\
    dup_holds (Some rl) runs' /\ rl_pairs runs' = rl_pairs runs ++ rl_pairs [r].
Proof.
  intros Hd Hr. destruct d as [rl|].
  2:{ cbn in Hd. subst. destruct (make_dup_first r Hr) as (rl & E & H). by exists rl, [r]. }
  destruct Hd as (Hruns & term & tail & -> & Ht).
  destruct runs as [|p R _] using rev_ind.
  - destruct (make_dup_append [] r term tail) as (rl & E & H); try done;
      [by intros [|? ?] ? ?|]. by exists rl, [r].
  - destruct (decide (vcn p + len p = vcn r /\ lcn p + len p = lcn r)) as [[Hv Hl]|Hn].
    + destruct (make_dup_extend R p r term tail) as (rl & E & H); try done.
      eexists rl, _. split; [done|]. split; [done|]. rewrite !rl_pairs_app, <- app_assoc. f_equal.
      apply Forall_app in Hruns as [_ Hp]. inversion Hp as [|? ? (P1 & P2 & P3 & _) _]; subst.
      destruct Hr as (R1 & R2 & R3 & _). cbn. rewrite !app_nil_r, Z2Nat.inj_add by lia.
      rewrite run_pairs_app, Z2Nat.id by lia. by rewrite Hv, Hl.
    + destruct (make_dup_append (R ++ [p]) r term tail) as (rl & E & H); try done.
      { by intros R' p' [-> [= ->]]%app_inj_tail. }
      eexists rl, _. split; [done|]. split; [done|]. apply rl_pairs_app.
Qed.

(** [tmp_rl[0]]: none, or a run that ended at or before cluster [x]. *)
Definition tmp_ok (tmp : runlist_element) (v x : Z) : Prop :=
  lcn tmp = -1 \/ dup_run tmp /\ lcn tmp + len tmp <= x /\ vcn tmp - lcn tmp = v - x.

Definition tmp_pairs (tmp : runlist_element) : list (Z * Z) :=
  if lcn tmp =? -1 then [] else rl_pairs [tmp].

Lemma tmp_ok_mono tmp v x n : 0 <= n -> tmp_ok tmp v x -> tmp_ok tmp (v + n) (x + n).
Proof. intros Hn [H|(H1 & H2 & H3)]; [by left|right]. split; [done|lia]. Qed.

Lemma dup_run_one v x : 0 <= v -> 0 <= x -> v + 1 < 2 ^ 63 -> x + 1 < 2 ^ 63 -> dup_run (mk_rle v x 1).
Proof. intros. unfold dup_run. cbn. lia. Qed.

(** A duplicated cluster [x] is added to the current run, or starts a new one. *)
Lemma note_dup_spec tmp d runs v x :
  dup_holds d runs -> tmp_ok tmp v x -> 0 <= v -> 0 <= x -> v + 1 < 2 ^ 63 -> x + 1 < 2 ^ 63 ->
  exists tmp' d' runs',
    note_dup tmp d v x = Ok (tmp', d') /\
    dup_holds d' runs' /\ tmp_ok tmp' (v + 1) (x + 1) /\
    rl_pairs runs' ++ tmp_pairs tmp' = (rl_pairs runs ++ tmp_pairs tmp) ++ [(v, x)].
Proof.
  intros Hd Ht Hv Hx Hv' Hx'. unfold note_dup.
  assert (tmp_ok (mk_rle v x 1) (v + 1) (x + 1)) as Hone
    by (right; split; [by apply dup_run_one|cbn; lia]).
  assert (tmp_pairs (mk_rle v x 1) = [(v, x)]) as Pone
    by (unfold tmp_pairs; cbn [lcn]; zdec; done).
  unfold tmp_pairs at 2. destruct (Z.eqb_spec (lcn tmp) (-1)) as [E|E].
  { exists (mk_rle v x 1), d, runs. rewrite Pone, app_nil_r. done. }
  destruct Ht as [|((T1 & T2 & T3 & T4 & T5) & Hle & Hoff)]; [done|].
  rewrite s64_small by lia. destruct (Z.eqb_spec (lcn tmp + len tmp) x) as [Ec|Ec].
  - exists (set_len tmp (len tmp + 1)), d, runs. split; [done|]. split; [done|]. split.
    + right. unfold dup_run. cbn. lia.
    + rewrite <- app_assoc. f_equal. unfold tmp_pairs. cbn [set_len lcn len vcn rl_pairs]. zdec.
      rewrite !app_nil_r, Z2Nat.inj_add by lia. change (Z.to_nat 1) with 1%nat.
      rewrite run_pairs_app, Z2Nat.id by lia. cbn. do 3 f_equal; lia.
  - destruct (make_dup_spec d runs tmp Hd) as (rl & runs' & -> & Hd' & P'); [done|].
    cbn [mbind res_bind]. exists (mk_rle v x 1), (Some rl), runs'. rewrite Pone, P'. done.
Qed.

Lemma check_bits_spec (b : bool) lim base n : forall bm x v cnt tmp d runs,
  count_ok lim bm cnt -> 0 <= lim <= FB_BLOCK_BITS -> 0 <= base <= x ->
  x - base + Z.of_nat n <= (if b then FB_BLOCK_BITS else lim) ->
  0 <= v -> v + Z.of_nat n < 2 ^ 63 -> x + Z.of_nat n < 2 ^ 63 ->
  dup_holds d runs -> tmp_ok tmp v x ->
  exists bm' cnt' tmp' d' runs',
    check_bits n bm (x - base) x v (Z.b2z b) cnt tmp d = Ok (bm', cnt', tmp', d') /\
    count_ok lim bm' cnt' /\
    (forall j, 0 <= j -> gbit bm' j =
      if (x - base <=? j) && (j <? x - base + Z.of_nat n) then b else gbit bm j) /\
    dup_holds d' runs' /\ tmp_ok tmp' (v + Z.of_nat n) (x + Z.of_nat n) /\
    rl_pairs runs' ++ tmp_pairs tmp' = (rl_pairs runs ++ tmp_pairs tmp) ++
      (if b then dup_pairs (fun y => gbit bm (y - base)) v x n else []).
Proof.
  induction n as [|n IH]; intros bm x v cnt tmp d runs Hc Hlim Hb Hr Hv Hv' Hx' Hd Ht;
    cbn [check_bits].
  - exists bm, cnt, tmp, d, runs. rewrite !Z.add_0_r. cbn [dup_pairs].
    split_and!; try done; [|by destruct b; rewrite app_nil_r].
    intros j Hj. zcase; cbn [andb]; done || lia.
  - destruct (bit_get_and_set_spec bm (x - base) b) as (bm1 & -> & L1 & G1);
      [rewrite (proj1 Hc); unfold NTFS_BUF_SIZE; rewrite fb_bits in *; destruct b; lia|].
    cbn [mbind res_bind].
    destruct (count_step b lim bm bm1 (x - base) cnt) as (R & C1 & R1); try done; [lia|].
    cbn zeta in *.
    assert (forall cnt1 tmp1 d1 runs1, count_ok lim bm1 cnt1 -> dup_holds d1 runs1 ->
      tmp_ok tmp1 (v + 1) (x + 1) ->
      rl_pairs runs1 ++ tmp_pairs tmp1 = (rl_pairs runs ++ tmp_pairs tmp) ++
        (if b && gbit bm (x - base) then [(v, x)] else []) ->
      exists bm' cnt' tmp' d' runs',
        check_bits n bm1 (x - base + 1) (x + 1) (v + 1) (Z.b2z b) cnt1 tmp1 d1 =
          Ok (bm', cnt', tmp', d') /\
        count_ok lim bm' cnt' /\
        (forall j, 0 <= j -> gbit bm' j =
          if (x - base <=? j) && (j <? x - base + Z.of_nat (S n)) then b else gbit bm j) /\
        dup_holds d' runs' /\ tmp_ok tmp' (v + Z.of_nat (S n)) (x + Z.of_nat (S n)) /\
        rl_pairs runs' ++ tmp_pairs tmp' = (rl_pairs runs ++ tmp_pairs tmp) ++
          (if b then dup_pairs (fun y => gbit bm (y - base)) v x (S n) else [])) as Hstep.
    { intros cnt1 tmp1 d1 runs1 C Hd1 Ht1 P1.
      destruct (IH bm1 (x + 1) (v + 1) cnt1 tmp1 d1 runs1)
        as (bm' & cnt' & tmp' & d' & runs' & E & C' & G' & Hd' & Ht' & P'); try done; try lia.
      exists bm', cnt', tmp', d', runs'. replace (x - base + 1) with (x + 1 - base) by lia.
      split; [done|]. split; [done|]. split.
      { intros j Hj. rewrite G', G1 by done. zcase; cbn [andb]; done || lia. }
      split; [done|]. split.
      { replace (v + Z.of_nat (S n)) with (v + 1 + Z.of_nat n) by lia.
        by replace (x + Z.of_nat (S n)) with (x + 1 + Z.of_nat n) by lia. }
      rewrite P', P1, <- app_assoc. f_equal. destruct b; [|done]. cbn [dup_pairs andb]. f_equal.
      apply dup_pairs_ext. intros y Hy. rewrite G1 by lia. by zdec. }
    clear IH. rewrite fb_bits in R, R1.
    destruct b, (gbit bm (x - base)) eqn:Eg; cbn [Z.b2z Z.eqb negb andb] in *.
    + destruct (note_dup_spec tmp d runs v x) as (tmp1 & d1 & runs1 & -> & Hd1 & Ht1 & P1);
        [done|done|lia..|]. cbn [mbind res_bind]. apply (Hstep _ _ _ runs1); try done.
      by replace cnt with (cnt + 1 - 1) by lia.
    + rewrite u32_small by lia. apply (Hstep _ _ _ runs); try done; [|by apply tmp_ok_mono|by rewrite app_nil_r].
      by rewrite Z.sub_0_r in C1.
    + rewrite u32_small by lia. apply (Hstep _ _ _ runs); try done; [|by apply tmp_ok_mono|by rewrite app_nil_r].
      by rewrite Z.add_0_r in C1.
    + apply (Hstep _ _ _ runs); try done; [|by apply tmp_ok_mono|by rewrite app_nil_r].
      by rewrite Z.add_0_r, Z.sub_0_r in C1.
Qed.

(** The duplicates a check has found so far, in the list and in [tmp_rl]. *)
Definition found (tmp : runlist_element) (d : option runlist) (v x : Z) (ps : list (Z * Z)) : Prop :=
  exists runs, dup_holds d runs /\ tmp_ok tmp v x /\ ps = rl_pairs runs ++ tmp_pairs tmp.

Lemma found_mono tmp d v x n ps : 0 <= n -> found tmp d v x ps -> found tmp d (v + n) (x + n) ps.
Proof. intros Hn (runs & Hd & Ht & E). exists runs. split; [done|]. split; [|done]. by apply tmp_ok_mono. Qed.

Lemma check_block_spec (b : bool) arena lim ba idx blk cnt rel n v tmp d ps :
  slot ba idx blk cnt -> block_ok lim blk cnt -> 0 <= lim <= FB_BLOCK_BITS -> 0 <= rel -> 0 <= idx ->
  rel + Z.of_nat n <= (if b then FB_BLOCK_BITS else lim) ->
  let x := FB_BLOCK_BITS * idx + rel in
  0 <= v -> v + Z.of_nat n < 2 ^ 63 -> x + Z.of_nat n < 2 ^ 63 -> found tmp d v x ps ->
  exists blk' cnt' tmp' d',
    check_block arena ba idx rel (Z.of_nat n) ((rel =? 0) && (Z.of_nat n =? FB_BLOCK_BITS)) v
      (Z.b2z b) tmp d = Ok (Some (upd ba idx blk' cnt', tmp', d')) /\
    block_ok lim blk' cnt' /\
    (forall k, 0 <= k < FB_BLOCK_BITS -> bbit blk' k =
      if (rel <=? k) && (k <? rel + Z.of_nat n) then b else bbit blk k) /\
    found tmp' d' (v + Z.of_nat n) (x + Z.of_nat n)
      (ps ++ if b then dup_pairs (fun y => bbit blk (y - FB_BLOCK_BITS * idx)) v x n else []).
Proof.
  intros Hs Hb Hl Hr Hi Hn x Hv Hv' Hx' Hfound. unfold check_block. rewrite (proj1 Hs).
  cbn [mbind res_bind].
  destruct (materialize_spec Hheap arena lim ba idx blk cnt Hs Hb Hl) as (bm & cnt1 & Em & C & G).
  pose proof (upd_slot _ _ _ _ (FbLit bm) cnt1 Hs) as Hs1.
  assert (Z.shiftl idx (NTFS_BUF_SIZE_BITS + NTFSCK_BYTE_TO_BITS) = FB_BLOCK_BITS * idx) as ->
    by (rewrite Z.shiftl_mul_pow2 by done; rewrite Z.mul_comm; done).
  destruct Hfound as (runs & Hd & Ht & ->).
  destruct (check_bits_spec b lim (FB_BLOCK_BITS * idx) n bm x v cnt1 tmp d runs)
    as (bm' & cnt' & tmp' & d' & runs' & Ec & C' & G' & Hd' & Ht' & P'); try done;
    [unfold x; rewrite fb_bits; lia|unfold x; lia|].
  destruct (try_collapse_spec lim _ _ _ _ (upd_slot _ _ _ _ (FbLit bm') cnt' Hs) C')
    as (blk' & Ecol & Cb & Gb).
  replace (x - FB_BLOCK_BITS * idx) with rel in * by (unfold x; lia).
  assert (exists blk' cnt' tmp' d',
    (m ← materialize arena ba idx;
     match m with
     | None => Ok None
     | Some (ba, bm) =>
         cnt ← aget (setcnt ba) idx;
         '(bm, cnt, tmp, dup_rl) ← check_bits (Z.to_nat (Z.of_nat n)) bm rel
            (FB_BLOCK_BITS * idx + rel) v (Z.b2z b) cnt tmp d;
         ba ← store_block ba idx (FbLit bm) cnt;
         ba ← try_collapse ba idx;
         Ok (Some (ba, tmp, dup_rl))
     end) = Ok (Some (upd ba idx blk' cnt', tmp', d')) /\
    block_ok lim blk' cnt' /\
    (forall k, 0 <= k < FB_BLOCK_BITS -> bbit blk' k =
      if (rel <=? k) && (k <? rel + Z.of_nat n) then b else bbit blk k) /\
    found tmp' d' (v + Z.of_nat n) (x + Z.of_nat n)
      ((rl_pairs runs ++ tmp_pairs tmp) ++
       if b then dup_pairs (fun y => bbit blk (y - FB_BLOCK_BITS * idx)) v x n else [])) as Hlit.
  { rewrite Em. cbn [mbind res_bind]. rewrite (proj2 Hs1), Nat2Z.id. cbn [mbind res_bind].
    fold x. rewrite Ec. cbn [mbind res_bind]. rewrite (store_block_upd _ _ _ _ _ _ Hs1), upd_upd.
    cbn [mbind res_bind]. rewrite Ecol, upd_upd. cbn [mbind res_bind].
    exists blk', cnt', tmp', d'. split; [done|]. split; [done|]. split.
    - intros k Hk. rewrite Gb, G' by lia. destruct (_ && _); [done|]. by apply G.
    - exists runs'. split; [done|]. split; [done|]. rewrite P'. f_equal. destruct b; [|done].
      apply dup_pairs_ext. intros y Hy. symmetry. apply G. unfold x in *. lia. }
  destruct blk; [|exact Hlit..].
  destruct b; cbn [Z.b2z Z.eqb negb].
  - destruct ((rel =? 0) && _) eqn:Efull; [|exact Hlit].
    apply andb_true_iff in Efull as [->%Z.eqb_eq En%Z.eqb_eq].
    destruct (slot_range _ _ _ _ Hs) as [R1 R2]. rewrite aset_ok by done. cbn [mbind res_bind].
    exists FbOnes, cnt, tmp, d. split.
    { destruct Hs as [_ [_ Hs]%aget_ok]. unfold upd. by rewrite (list_insert_id (setcnt ba)). }
    split; [done|]. split; [intros k Hk; cbn; by zdec|].
    rewrite dup_pairs_none, app_nil_r by done. apply found_mono; [lia|]. by exists runs.
  - exists FbNull, cnt, tmp, d. rewrite (upd_same _ _ _ _ Hs), app_nil_r.
    split; [done|]. split; [done|]. split; [intros k Hk; cbn; by destruct (_ && _)|].
    apply found_mono; [lia|]. by exists runs.
Qed.

Lemma check_loop_spec nr (b : bool) arena : forall fuel ba x v idx rel_slcn remain tmp d ps,
  blocks_ok nr ba -> at_pos x idx rel_slcn -> 0 < remain ->
  (x + remain - 1) / FB_BLOCK_BITS < idx + Z.of_nat fuel ->
  x + remain <= FB_BLOCK_BITS * zlen (blocks ba) -> (b = false -> x + remain <= nr) ->
  0 <= v -> v + remain < 2 ^ 63 -> x + remain < 2 ^ 63 -> found tmp d v x ps ->
  exists ba' tmp' d', check_loop fuel arena ba idx rel_slcn remain v (Z.b2z b) tmp d =
      Ok (ba', tmp', d', true) /\
    marked nr ba ba' x (x + remain) b /\
    found tmp' d' (v + remain) (x + remain)
      (ps ++ if b then dup_pairs (fbit ba) v x (Z.to_nat remain) else []).
Proof.
  induction fuel as [|fuel IH];
    intros ba x v idx rel_slcn remain tmp d ps Ho Hpos Hrem Hf Hend Hnr Hv Hv' Hx' Hfound.
  { destruct Hpos as (? & <- & _). rewrite fb_bits in *. exfalso. dlia. }
  cbn [check_loop].
  destruct (rel_range_spec x idx rel_slcn remain Hpos Hrem) as (n & -> & En & Hn & Hnext).
  pose proof Hpos as (Hx & Ei & _).
  destruct (slot_total nr ba idx Ho) as (blk & cnt & Hs & Hb); [rewrite fb_bits in *; dlia|].
  assert (FB_BLOCK_BITS * idx + x mod FB_BLOCK_BITS = x) as Ex by (rewrite fb_bits in *; dlia).
  destruct (check_block_spec b arena (used_bits nr idx) ba idx blk cnt (x mod FB_BLOCK_BITS) n v tmp d ps)
    as (blk' & cnt' & tmp1 & d1 & -> & Hb' & G & F1); try done; rewrite ?Ex; try done;
    try apply used_bits_range; try lia; try (rewrite fb_bits in *; dlia).
  { destruct b; [rewrite fb_bits in *; dlia|]. specialize (Hnr eq_refl). unfold used_bits.
    rewrite fb_bits in *. dlia. }
  cbn [mbind res_bind]. rewrite Ex in F1.
  assert (marked nr ba (upd ba idx blk' cnt') x (x + Z.of_nat n) b) as M1.
  { rewrite <- Ex at 1. rewrite <- Ex at 2.
    apply (marked_upd _ _ _ blk cnt); try done; rewrite ?fb_bits in *; dlia. }
  rewrite (dup_pairs_ext _ (fbit ba)) in F1.
  2:{ intros y Hy. rewrite (fbit_slot _ _ _ _ _ Hs) by (rewrite fb_bits in *; dlia).
      f_equal. rewrite fb_bits in *. dlia. }
  destruct (Z.leb_spec (remain - Z.of_nat n) 0).
  - exists (upd ba idx blk' cnt'), tmp1, d1. assert (remain = Z.of_nat n) as -> by lia.
    by rewrite Nat2Z.id.
  - destruct (IH (upd ba idx blk' cnt') (x + Z.of_nat n) (v + Z.of_nat n) (idx + 1) 0
      (remain - Z.of_nat n) tmp1 d1 (ps ++ if b then dup_pairs (fbit ba) v x n else []))
      as (ba' & tmp' & d' & -> & M2 & F2); rewrite ?upd_zlen; try done; try lia.
    + apply M1.
    + apply Hnext. lia.
    + replace (x + Z.of_nat n + (remain - Z.of_nat n) - 1) with (x + remain - 1) by lia. lia.
    + intros Hb0. specialize (Hnr Hb0). lia.
    + exists ba', tmp', d'. split; [done|].
      replace (x + Z.of_nat n + (remain - Z.of_nat n)) with (x + remain) in * by lia.
      replace (v + Z.of_nat n + (remain - Z.of_nat n)) with (v + remain) in * by lia.
      split; [eapply marked_trans; [done..|lia]|]. destruct b; [|by rewrite !app_nil_r in *].
      replace (Z.to_nat remain) with (n + Z.to_nat (remain - Z.of_nat n))%nat by lia.
      rewrite dup_pairs_app, app_assoc.
      rewrite (dup_pairs_ext (fbit (upd ba idx blk' cnt')) (fbit ba)) in F2; [done|].
      intros y Hy. rewrite (mk_bits _ _ _ _ _ _ M1) by lia. by zdec.
Qed.

End dups.

(** C14: checking a run of an attribute marks or frees exactly its clusters, and
    the list of duplicates grows by exactly the clusters that were marked
    before, each with the vcn it has in the run. *)
Theorem fsck_check_run_correct `{Heap} nr arena ba rl i r (b : bool) d runs :
  (forall m, heap_grants m = true) -> blocks_ok nr ba ->
  0 <= i -> aget rl i = Ok r -> dup_run r ->
  lcn r + len r <= FB_BLOCK_BITS * zlen (blocks ba) -> (b = false -> lcn r + len r <= nr) ->
  dup_holds d runs ->
  exists ba' d' runs', ntfs_fsck_check_and_set_lcnbmp arena ba (Some rl) i (Z.b2z b) d = Ok (ba', d') /\
    blocks_ok nr ba' /\ zlen (blocks ba') = zlen (blocks ba) /\
    (forall z, 0 <= z -> fbit ba' z =
       if (lcn r <=? z) && (z <? lcn r + len r) then b else fbit ba z) /\
    dup_holds d' runs' /\
    rl_pairs runs' = rl_pairs runs ++
      if b then dup_pairs (fbit ba) (vcn r) (lcn r) (Z.to_nat (len r)) else [].
Proof.
  intros Hh Ho Hi Er (R1 & R2 & R3 & R4 & R5) Hend Hnr Hd.
  unfold ntfs_fsck_check_and_set_lcnbmp. zdec. rewrite Er. cbn [mbind res_bind]. zdec.
  rewrite !block_index, s64_small by lia.
  destruct (check_loop_spec Hh nr b arena
    (Z.to_nat ((lcn r + len r - 1) / FB_BLOCK_BITS - lcn r / FB_BLOCK_BITS + 1)) ba (lcn r) (vcn r)
    (lcn r / FB_BLOCK_BITS) (lcn r) (len r) (mk_rle 0 (-1) 0) d (rl_pairs runs))
    as (ba' & tmp & d' & -> & [M1 M2 M3] & (runs' & Hd' & Ht & P)); try done.
  - split; [done|]. split; [done|by left].
  - rewrite fb_bits in *. dlia.
  - exists runs. split; [done|]. split; [by left|]. by rewrite app_nil_r.
  - cbn [mbind res_bind andb]. unfold tmp_pairs in P. destruct (Z.leb_spec 0 (lcn tmp)) as [Ht0|Ht0].
    + assert ((lcn tmp =? -1) = false) as Et by lia. rewrite Et in P.
      destruct Ht as [|(Ht & _)]; [lia|].
      destruct (make_dup_spec Hh d' runs' tmp Hd' Ht) as (rl' & runs2 & -> & Hd2 & P2).
      cbn [mbind res_bind]. exists ba', (Some rl'), runs2. split_and!; try done. by rewrite P2.
    + assert (lcn tmp = -1) as Et by (destruct Ht as [|((_ & ? & _) & _)]; lia).
      rewrite Et in P. cbn in P. rewrite app_nil_r in P.
      exists ba', d', runs'. split_and!; done.
Qed.

(** A run whose first six clusters lie in a block that is marked already. *)
Lemma fsck_check_run_correct_witness :
  exists ba' d' runs',
    @ntfs_fsck_check_and_set_lcnbmp ample_heap false (mk_blocks [FbOnes; FbNull] [65536; 0])
      (Some [mk_rle 3 65530 10; mk_rle 13 LCN_ENOENT 0]) 0 1 None = Ok (ba', d') /\
    blocks_ok 131072 ba' /\ fbit ba' 65539 = true /\ fbit ba' 65540 = false /\ dup_holds d' runs' /\
    rl_pairs runs' = [(3, 65530); (4, 65531); (5, 65532); (6, 65533); (7, 65534); (8, 65535)].
Proof.
  destruct (@fsck_check_run_correct ample_heap 131072 false (mk_blocks [FbOnes; FbNull] [65536; 0])
    [mk_rle 3 65530 10; mk_rle 13 LCN_ENOENT 0] 0 (mk_rle 3 65530 10) true None [])
    as (ba' & d' & runs' & E & Hok & _ & G & Hd & P).
  - reflexivity.
  - apply shared_blocks_ok; [reflexivity|]. apply Forall_cons; [by right|]. apply Forall_singleton. by left.
  - lia.
  - reflexivity.
  - unfold dup_run. cbn [lcn len vcn]. lia.
  - cbn [lcn len blocks]. rewrite fb_bits. compute_decide.
  - intros [=].
  - reflexivity.
  - exists ba', d', runs'. split; [exact E|]. split; [exact Hok|]. rewrite !G by lia. split_and!; [done|done|exact Hd|exact P].
Defined.
