(* ===== verification/FsckRead.v ===== *)
(** Reading fsck's in-memory bitmaps (libntfs/fsck.c): the block that covers a
    byte of the cluster bitmap, with the bits behind the last cluster set; the
    allocator's occupancy bitmap, merged into the bytes it searches; and the
    mft bitmap. *)

From S2P Require Import Prelude AttrIO Bitmap Runlist Fsck FsckThm.

(** ** The occupancy bitmap *)

Section alloc_marks.
Context {HP : Heap} (Hheap : forall n, heap_grants n = true).

Lemma set_alloc_loop_spec nr : forall fuel ba x idx rel_slcn remain,
  blocks_ok nr ba -> at_pos x idx rel_slcn -> 0 < remain ->
  (x + remain - 1) / FB_BLOCK_BITS < idx + Z.of_nat fuel ->
  x + remain <= FB_BLOCK_BITS * zlen (blocks ba) ->
  exists ba', set_alloc_loop fuel ba idx rel_slcn remain = Ok (ba', None) /\
    marked nr ba ba' x (x + remain) true.
Proof.
  induction fuel as [|fuel IH]; intros ba x idx rel_slcn remain Ho Hpos Hrem Hf Hend.
  { destruct Hpos as (? & <- & _). rewrite fb_bits in *. exfalso. dlia. }
  cbn [set_alloc_loop].
  destruct (rel_range_spec x idx rel_slcn remain Hpos Hrem) as (n & -> & En & Hn & Hnext).
  pose proof Hpos as (Hx & Ei & _).
  destruct (slot_total nr ba idx Ho) as (b & cnt & Hs & Hb); [rewrite fb_bits in *; dlia|].
  rewrite (proj1 Hs). cbn [mbind res_bind].
  assert (exists b' cnt' d, match b with FbOnes => Ok (Some (ba, 0))
      | _ => set_block false ba 0 idx (x mod FB_BLOCK_BITS) (Z.of_nat n)
               ((x mod FB_BLOCK_BITS =? 0) && (Z.of_nat n =? FB_BLOCK_BITS)) 1
      end = Ok (Some (upd ba idx b' cnt', d)) /\ block_ok (used_bits nr idx) b' cnt' /\
    forall k, 0 <= k < FB_BLOCK_BITS -> bbit b' k =
      if (x mod FB_BLOCK_BITS <=? k) && (k <? x mod FB_BLOCK_BITS + Z.of_nat n) then true else bbit b k)
    as (b' & cnt' & d & -> & Hb' & G).
  { destruct (set_block_spec Hheap true false (used_bits nr idx) ba idx b cnt (x mod FB_BLOCK_BITS) n 0)
      as (b' & cnt' & E & Hb' & G); try done; try apply used_bits_range; try lia;
      try (rewrite fb_bits in *; dlia).
    destruct b; [eexists _, _, _; split; [exact E|done]| |eexists _, _, _; split; [exact E|done]].
    exists FbOnes, cnt, 0. rewrite (upd_same _ _ _ _ Hs). split; [done|]. split; [done|].
    intros k _. cbn [bbit]. by destruct (x mod FB_BLOCK_BITS <=? k), (k <? x mod FB_BLOCK_BITS + Z.of_nat n). }
  cbn [mbind res_bind].
  assert (marked nr ba (upd ba idx b' cnt') x (x + Z.of_nat n) true) as M1.
  { assert (FB_BLOCK_BITS * idx + x mod FB_BLOCK_BITS = x) as Ex by (rewrite fb_bits in *; dlia).
    rewrite <- Ex at 1. rewrite <- Ex at 2.
    apply (marked_upd _ _ _ b cnt); try done; rewrite ?fb_bits in *; dlia. }
  destruct (Z.leb_spec (remain - Z.of_nat n) 0).
  - exists (upd ba idx b' cnt'). by assert (remain = Z.of_nat n) as -> by lia.
  - destruct (IH (upd ba idx b' cnt') (x + Z.of_nat n) (idx + 1) 0 (remain - Z.of_nat n))
      as (ba' & -> & M2); rewrite ?upd_zlen; try lia; [apply M1|apply Hnext; lia| |].
    + replace (x + Z.of_nat n + (remain - Z.of_nat n) - 1) with (x + remain - 1) by lia. lia.
    + exists ba'. split; [done|]. replace (x + remain) with (x + Z.of_nat n + (remain - Z.of_nat n)) by lia.
      eapply marked_trans; [done..|lia].
Qed.

Lemma set_alloc_range_spec nr ba x n :
  blocks_ok nr ba -> 0 <= x -> 0 < n -> x + n < 2 ^ 63 ->
  x + n <= FB_BLOCK_BITS * zlen (blocks ba) ->
  exists ba', ntfs_fsck_set_alloc_lcnbmp_range ba x n = Ok (ba', None) /\ marked nr ba ba' x (x + n) true.
Proof.
  intros Ho Hx Hn Hxn Hend. unfold ntfs_fsck_set_alloc_lcnbmp_range.
  rewrite !block_index, s64_small by lia. zdec.
  apply set_alloc_loop_spec; try done; [|rewrite fb_bits in *; dlia].
  split; [done|]. split; [done|by left].
Qed.

End alloc_marks.

(** ** Looking blocks up *)

Lemma or_bytes_spec src : forall n dst d o,
  0 <= d -> 0 <= o -> d + Z.of_nat n <= zlen dst -> o + Z.of_nat n <= zlen src ->
  exists dst', or_bytes n dst d src o = Ok dst' /\ zlen dst' = zlen dst /\
    forall j, 0 <= j -> gbit dst' j = gbit dst j ||
      ((8 * d <=? j) && (j <? 8 * (d + Z.of_nat n)) && gbit src (j - 8 * d + 8 * o)).
Proof.
  induction n as [|n IH]; intros dst d o Hd Ho Hdl Hol; cbn [or_bytes].
  { exists dst. split_and!; [done..|]. intros j Hj. zcase; rewrite ?orb_false_r; done || lia. }
  destruct (aget_total dst d ltac:(lia)) as [x Ex]. destruct (aget_total src o ltac:(lia)) as [y Ey].
  rewrite Ex, Ey. cbn [mbind res_bind]. rewrite aset_ok by lia. cbn [mbind res_bind].
  destruct (IH (<[Z.to_nat d := Z.lor x y]> dst) (d + 1) (o + 1)) as (dst' & -> & L & G);
    rewrite ?zlen_insert; try lia.
  exists dst'. rewrite zlen_insert in L. split_and!; [done..|]. intros j Hj. rewrite G by done.
  rewrite gbit_insert_byte by lia.
  apply aget_ok in Ex as [_ Ex]. apply aget_ok in Ey as [_ Ey].
  destruct ((8 * d <=? j) && (j <? 8 * d + 8)) eqn:E.
  - apply andb_true_iff in E as [E1%Z.leb_le E2%Z.ltb_lt]. rewrite Z.lor_spec. zdec.
    rewrite (gbit_lookup dst j x), (gbit_lookup src (j - 8 * d + 8 * o) y).
    + rewrite orb_false_r. f_equal; f_equal; dlia.
    + by replace (Z.to_nat ((j - 8 * d + 8 * o) / 8)) with (Z.to_nat o) by dlia.
    + by replace (Z.to_nat (j / 8)) with (Z.to_nat d) by dlia.
  - f_equal. replace (j - 8 * (d + 1) + 8 * (o + 1)) with (j - 8 * d + 8 * o) by lia.
    apply andb_false_iff in E. rewrite Z.leb_gt, Z.ltb_ge in E. f_equal. zcase; cbn [andb]; done || lia.
Qed.

(** The contents of a slot. *)
Definition slot_bytes (b : fblock) : list Z :=
  match b with FbNull => zero_block | FbOnes => ones_block | FbLit bm => bm end.

Lemma slot_bytes_spec lim b cnt :
  block_ok lim b cnt -> zlen (slot_bytes b) = NTFS_BUF_SIZE /\
    forall k, 0 <= k < FB_BLOCK_BITS -> gbit (slot_bytes b) k = bbit b k.
Proof.
  destruct b; cbn; intros H.
  - split; [unfold zlen, zero_block; by rewrite length_replicate|apply zero_block_bits].
  - split; [unfold zlen, ones_block; by rewrite length_replicate|apply ones_block_bits].
  - by destruct H.
Qed.

(** The volume's array has a slot for every cluster. *)
Definition array_of (nr : Z) (ba : block_array) : Prop :=
  blocks_ok nr ba /\ zlen (blocks ba) = max_flb_cnt nr.

Lemma fbit_block ba idx b k :
  aget (blocks ba) idx = Ok b -> 0 <= k < FB_BLOCK_BITS -> fbit ba (FB_BLOCK_BITS * idx + k) = bbit b k.
Proof.
  intros [_ E]%aget_ok Hk. unfold fbit. rewrite fb_bits in *.
  replace ((65536 * idx + k) / 65536) with idx by dlia. rewrite E. f_equal. dlia.
Qed.

Lemma fbit_outside ba idx k :
  zlen (blocks ba) <= idx -> 0 <= k < FB_BLOCK_BITS -> fbit ba (FB_BLOCK_BITS * idx + k) = false.
Proof.
  intros Hi Hk. unfold fbit. rewrite fb_bits in *.
  replace ((65536 * idx + k) / 65536) with idx by dlia. pose proof (zlen_nonneg (blocks ba)).
  by rewrite lookup_ge_None_2 by (unfold zlen in *; lia).
Qed.

Lemma find_alloc_spec nr ba pos :
  array_of nr ba -> 0 <= pos < 2 ^ 45 ->
  exists bm, ntfs_fsck_find_alloc_lcnbmp_block nr ba pos = Ok bm /\ zlen bm = NTFS_BUF_SIZE /\
    forall k, 0 <= k < FB_BLOCK_BITS -> gbit bm k = fbit ba (FB_BLOCK_BITS * (pos / 8192) + k).
Proof.
  intros [Ho Hl] Hp. unfold ntfs_fsck_find_alloc_lcnbmp_block.
  rewrite FB_ROUND_DOWN_spec, u32_small, <- Hl by dlia.
  destruct (Z.leb_spec (zlen (blocks ba)) (pos / 8192)) as [Hi|Hi].
  - exists zero_block. split; [done|]. destruct (slot_bytes_spec 0 FbNull 0 I) as [Z1 Z2].
    split; [exact Z1|]. intros k Hk. rewrite fbit_outside by done. by apply Z2.
  - destruct (slot_total nr ba (pos / 8192) Ho) as (b & cnt & [Hs _] & Hb); [dlia|].
    rewrite Hs. cbn [mbind res_bind]. exists (slot_bytes b). split; [done|].
    destruct (slot_bytes_spec _ _ _ Hb) as [Z1 Z2]. split; [done|]. intros k Hk.
    by rewrite (fbit_block _ _ b) by done; apply Z2.
Qed.

Lemma or_alloc_loop_spec nr ba byte_pos nbytes : forall fuel dst d,
  array_of nr ba -> 0 <= byte_pos -> byte_pos + nbytes <= 2 ^ 45 -> 0 <= d <= nbytes ->
  nbytes - d <= Z.of_nat fuel -> nbytes <= zlen dst ->
  exists dst', or_alloc_loop fuel nr ba byte_pos nbytes d dst = Ok dst' /\ zlen dst' = zlen dst /\
    forall j, 0 <= j -> gbit dst' j = gbit dst j ||
      ((8 * d <=? j) && (j <? 8 * nbytes) && fbit ba (8 * byte_pos + j)).
Proof.
  induction fuel as [|fuel IH]; intros dst d Ha Hp Hmax Hd Hf Hl; cbn [or_alloc_loop];
    (destruct (Z.ltb_spec d nbytes) as [Hlt|Hge];
      [|exists dst; split_and!; [done..|]; intros j Hj; zcase; rewrite ?orb_false_r; done || lia]); [lia|].
  unfold NTFS_BUF_SIZE_BITS, NTFS_BUF_SIZE.
  rewrite Z.shiftr_div_pow2, Z.shiftl_mul_pow2 by lia. change (2 ^ 13) with 8192.
  set (cur := byte_pos + d). set (off := cur - cur / 8192 * 8192).
  set (chunk := if nbytes - d <? 8192 - off then nbytes - d else 8192 - off).
  assert (0 <= off < 8192 /\ 0 < chunk <= nbytes - d /\ off + chunk <= 8192) as (Ho & Hc & Hoc)
    by (unfold chunk, off; zcase; dlia).
  destruct (find_alloc_spec nr ba cur Ha) as (src & -> & Ls & Gs); [unfold cur; lia|].
  cbn [mbind res_bind].
  destruct (or_bytes_spec src (Z.to_nat chunk) dst d off) as (dst1 & -> & L1 & G1);
    try lia; [unfold NTFS_BUF_SIZE in Ls; lia|]. rewrite Z2Nat.id in G1 by lia.
  cbn [mbind res_bind].
  destruct (IH dst1 (d + chunk)) as (dst' & -> & L2 & G2); try done; try lia.
  exists dst'. split; [done|]. split; [lia|]. intros j Hj. rewrite G2, G1 by done. clear G1 G2.
  rewrite <- orb_assoc. f_equal.
  destruct ((8 * d <=? j) && (j <? 8 * (d + chunk))) eqn:E; cbn [andb orb].
  - apply andb_true_iff in E as [E1%Z.leb_le E2%Z.ltb_lt]. zdec. rewrite orb_false_r.
    rewrite Gs by (rewrite fb_bits; lia). f_equal. rewrite fb_bits. unfold off, cur. dlia.
  - apply andb_false_iff in E. rewrite Z.leb_gt, Z.ltb_ge in E. zcase; cbn [andb]; done || lia.
Qed.

(** C16: clusters that fsck has seen in use are hidden from the allocator: after
    marking a range, the bytes of the cluster bitmap that the allocator
    searches have the bits of the range set, whatever blocks they lie in, and
    no bit is set that was neither set before nor marked. *)
Theorem fsck_alloc_barrier `{Heap} nr ba x n byte_pos nbytes dst :
  (forall m, heap_grants m = true) -> array_of nr ba -> 0 <= x -> 0 < n -> x + n <= nr -> nr < 2 ^ 48 ->
  0 <= byte_pos -> 0 <= nbytes -> byte_pos + nbytes <= 2 ^ 45 -> nbytes <= zlen dst ->
  exists ba' dst', ntfs_fsck_set_alloc_lcnbmp_range ba x n = Ok (ba', None) /\ array_of nr ba' /\
    ntfs_fsck_or_alloc_lcnbmp nr ba' byte_pos nbytes dst = Ok dst' /\ zlen dst' = zlen dst /\
    forall j, 0 <= j < 8 * nbytes -> gbit dst' j =
      gbit dst j || fbit ba (8 * byte_pos + j) ||
      ((x <=? 8 * byte_pos + j) && (8 * byte_pos + j <? x + n)).
Proof.
  intros Hh [Ho Hl] Hx Hn Hxn Hnr Hp Hnb Hmax Hdst.
  assert (nr <= FB_BLOCK_BITS * max_flb_cnt nr) as Hcap.
  { unfold max_flb_cnt. rewrite block_index, fb_bits. dlia. }
  destruct (set_alloc_range_spec Hh nr ba x n) as (ba' & E & [M1 M2 M3]); try done; try lia.
  destruct (or_alloc_loop_spec nr ba' byte_pos nbytes (Z.to_nat nbytes) dst 0)
    as (dst' & E' & L & G); try done; try lia; [by split; [|rewrite M2]|].
  exists ba', dst'. split; [done|]. split; [by split; [|congruence]|]. split; [done|]. split; [done|].
  intros j Hj. rewrite G, M3 by lia. zdec. rewrite <- orb_assoc. f_equal.
  destruct (_ && _); [by rewrite orb_true_r|by rewrite orb_false_r].
Qed.

Lemma fsck_alloc_barrier_witness :
  exists ba' dst', @ntfs_fsck_set_alloc_lcnbmp_range ample_heap (blocks_init 140000) 65530 10 = Ok (ba', None) /\
    ntfs_fsck_or_alloc_lcnbmp 140000 ba' 8190 4 [0; 1; 0; 0] = Ok dst' /\
    map (gbit dst') [8; 9; 10; 15; 16; 19; 20] = [true; false; true; true; true; true; false].
Proof.
  destruct (@fsck_alloc_barrier ample_heap 140000 (blocks_init 140000) 65530 10 8190 4 [0; 1; 0; 0])
    as (ba' & dst' & E & _ & E' & _ & G);
    [done|split; [apply blocks_init_ok|by vm_compute]|lia|lia|lia|lia|lia|lia|lia|by vm_compute|].
  exists ba', dst'. split; [exact E|]. split; [exact E'|]. cbn [map].
  rewrite !G, !blocks_init_free by lia. vm_compute. reflexivity.
Defined.

(** ** The block that covers a byte of the cluster bitmap *)

Lemma count_true_mono f g n : forall pos,
  (forall j, pos <= j < pos + Z.of_nat n -> f j = true -> g j = true) ->
  count_true f pos n <= count_true g pos n.
Proof.
  induction n as [|n IH]; intros pos H; cbn [count_true]; [lia|].
  pose proof (IH (pos + 1) ltac:(intros; apply H; lia || done)). pose proof (H pos ltac:(lia)) as Hpos.
  destruct (f pos); [rewrite Hpos by done|destruct (g pos)]; cbn [Z.b2z]; lia.
Qed.

Lemma memset_tail bm q :
  zlen bm = 8192 -> 0 <= q ->
  exists bm', (if q <? 8192 then amemset bm q (8192 - q) 255 else Ok bm) = Ok bm' /\ zlen bm' = 8192 /\
    forall k, 0 <= k < 65536 -> gbit bm' k = gbit bm k || (8 * q <=? k).
Proof.
  intros Hl Hq. destruct (Z.ltb_spec q 8192) as [Hlt|Hge].
  - unfold amemset. set (ones := replicate _ 255).
    assert (zlen ones = 8192 - q) as Lo by (unfold ones, zlen; rewrite length_replicate; dlia).
    destruct (awrite bm q ones) as [bm'| |] eqn:W; cycle 1.
    1, 2: exfalso; revert W; unfold awrite; rewrite Lo, Hl; zcase; cbn; done || lia.
    exists bm'. split; [done|]. split; [by rewrite (proj1 (awrite_lookup _ _ _ _ 0 W))|].
    intros k Hk. rewrite (gbit_awrite _ _ _ _ _ W) by lia. rewrite Lo.
    rewrite (proj2 (Z.ltb_lt k (8 * (q + (8192 - q))))), andb_true_r by lia.
    destruct (Z.leb_spec (8 * q) k); [|by rewrite orb_false_r].
    rewrite orb_true_r. apply (gbit_fill true). lia.
  - exists bm. split; [done|]. split; [done|]. intros k Hk. zdec. by rewrite orb_false_r.
Qed.

Lemma fill_unused_spec nr last_idx bm :
  zlen bm = NTFS_BUF_SIZE -> 0 < nr - FB_BLOCK_BITS * last_idx < FB_BLOCK_BITS ->
  exists bm', ntfs_fsck_fill_unused_lcnbmp nr last_idx bm = Ok bm' /\ zlen bm' = NTFS_BUF_SIZE /\
    forall k, 0 <= k < FB_BLOCK_BITS -> gbit bm' k = gbit bm k || (nr - FB_BLOCK_BITS * last_idx <=? k).
Proof.
  intros Hl Hr. unfold ntfs_fsck_fill_unused_lcnbmp, NTFS_BUF_SIZE in *. rewrite fb_bits in *.
  rewrite shiftl3, shiftr3, shiftl3. replace (nr - 8 * (last_idx * 8192)) with (nr - 65536 * last_idx) by lia.
  set (r := nr - 65536 * last_idx) in *.
  destruct (memset_tail bm (r / 8 + 1)) as (bm1 & -> & L1 & G1); [done|dlia|].
  cbn [mbind res_bind]. destruct (aget_total bm1 (r / 8)) as [x Ex]; [dlia|]. rewrite Ex.
  cbn [mbind res_bind]. rewrite aset_ok by dlia. eexists. split; [done|]. split; [by rewrite zlen_insert|].
  intros k Hk. rewrite gbit_insert_byte by dlia. apply aget_ok in Ex as [_ Ex].
  destruct ((8 * (r / 8) <=? k) && (k <? 8 * (r / 8) + 8)) eqn:E.
  - apply andb_true_iff in E as [E1%Z.leb_le E2%Z.ltb_lt].
    rewrite testbit_u8, Z.lor_spec, Z.shiftl_spec by lia.
    assert (gbit bm k = Z.testbit x (k - 8 * (r / 8))) as ->.
    { rewrite <- (orb_false_r (gbit bm k)). rewrite <- (proj2 (Z.leb_gt (8 * (r / 8 + 1)) k)) by lia.
      rewrite <- G1 by lia. rewrite (gbit_lookup _ _ x);
      [f_equal; dlia|by replace (Z.to_nat (k / 8)) with (Z.to_nat (r / 8)) by dlia]. }
    f_equal. destruct (Z.leb_spec r k); [apply (Z.ones_spec_low 8); dlia|].
    apply Z.testbit_neg_r. dlia.
  - apply andb_false_iff in E. rewrite Z.leb_gt, Z.ltb_ge in E. rewrite G1 by done. f_equal.
    destruct (Z.leb_spec (8 * (r / 8 + 1)) k), (Z.leb_spec r k); done || dlia.
Qed.

(** The last block of the array. *)
Lemma last_index nr : FB_ROUND_DOWN (Z.shiftr (nr - 1) NTFSCK_BYTE_TO_BITS) = max_flb_cnt nr - 1.
Proof. unfold max_flb_cnt. lia. Qed.

Lemma last_block_used nr :
  0 < nr -> nr mod FB_BLOCK_BITS <> 0 ->
  0 < nr - FB_BLOCK_BITS * (max_flb_cnt nr - 1) < FB_BLOCK_BITS /\
  used_bits nr (max_flb_cnt nr - 1) = nr - FB_BLOCK_BITS * (max_flb_cnt nr - 1).
Proof. intros Hn Hm. unfold used_bits, max_flb_cnt. rewrite block_index, fb_bits in *. dlia. Qed.

Lemma set_below_mono bm bm' lim :
  (forall k, 0 <= k < lim -> gbit bm k = true -> gbit bm' k = true) -> set_below bm lim <= set_below bm' lim.
Proof. intros H. apply count_true_mono. intros. apply H; [lia|done]. Qed.

(** Setting the unused bits of the last block keeps its count consistent. *)
Lemma fill_count_ok lim bm bm' cnt :
  0 <= lim <= FB_BLOCK_BITS -> count_ok lim bm cnt -> zlen bm' = NTFS_BUF_SIZE ->
  (forall k, 0 <= k < FB_BLOCK_BITS -> gbit bm' k = gbit bm k || (lim <=? k)) -> count_ok lim bm' cnt.
Proof.
  intros Hl [_ Hc] L G. split; [done|].
  assert (set_below bm' lim = set_below bm lim) as ->.
  { unfold set_below. apply count_true_ext. intros j Hj. rewrite G by lia. zdec. apply orb_false_r. }
  pose proof (set_below_mono bm bm' FB_BLOCK_BITS) as M. split; [apply Hc|].
  transitivity (set_below bm FB_BLOCK_BITS); [apply Hc|]. apply M. intros k Hk Hb. by rewrite G, Hb.
Qed.

(** What reading a byte of the last block gives. *)
Definition last_block_read (nr : Z) (ba : block_array) (r : res (block_array * list Z)) : Prop :=
  let base := FB_BLOCK_BITS * (max_flb_cnt nr - 1) in
  exists ba' bm, r = Ok (ba', bm) /\ array_of nr ba' /\
    (forall z, 0 <= z < nr -> fbit ba' z = fbit ba z) /\ zlen bm = NTFS_BUF_SIZE /\
    forall k, 0 <= k < FB_BLOCK_BITS -> gbit bm k = fbit ba (base + k) || (nr <=? base + k).

Lemma find_last_block nr ba b cnt :
  array_of nr ba -> 0 < nr -> nr mod FB_BLOCK_BITS <> 0 -> slot ba (max_flb_cnt nr - 1) b cnt ->
  block_ok (used_bits nr (max_flb_cnt nr - 1)) b cnt ->
  last_block_read nr ba
    (match b with
     | FbOnes => Ok (ba, ones_block)
     | FbNull => bm ← ntfs_fsck_fill_unused_lcnbmp nr (max_flb_cnt nr - 1) zero_block; Ok (ba, bm)
     | FbLit bm =>
         bm ← ntfs_fsck_fill_unused_lcnbmp nr (max_flb_cnt nr - 1) bm;
         bl ← aset (blocks ba) (max_flb_cnt nr - 1) (FbLit bm); Ok (mk_blocks bl (setcnt ba), bm)
     end).
Proof.
  intros [Ho Hl] Hn Hm Hs Hb. destruct (last_block_used nr Hn Hm) as [Hr Hu].
  destruct (slot_bytes_spec _ _ _ Hb) as [Zb Gb]. unfold last_block_read. cbv zeta.
  destruct (fill_unused_spec nr (max_flb_cnt nr - 1) (slot_bytes b)) as (bm' & E & L & G); [done..|].
  rewrite <- Hu in G.
  assert (forall k, 0 <= k < FB_BLOCK_BITS -> gbit bm' k = fbit ba (FB_BLOCK_BITS * (max_flb_cnt nr - 1) + k)
    || (nr <=? FB_BLOCK_BITS * (max_flb_cnt nr - 1) + k)) as Gz.
  { intros k Hk. rewrite G, Gb, (fbit_block _ _ b) by (done || apply Hs). f_equal. zcase; done || lia. }
  destruct b as [| |bm]; cbn [slot_bytes] in E.
  - rewrite E. cbn [mbind res_bind]. exists ba, bm'. by split_and!.
  - exists ba, ones_block. split_and!; try done. intros k Hk. rewrite (fbit_block _ _ FbOnes) by (done || apply Hs).
    by rewrite ones_block_bits.
  - rewrite E. cbn [mbind res_bind]. destruct (slot_range _ _ _ _ Hs) as [R _].
    rewrite aset_ok by done. cbn [mbind res_bind].
    assert (mk_blocks (<[Z.to_nat (max_flb_cnt nr - 1):=FbLit bm']> (blocks ba)) (setcnt ba) =
      upd ba (max_flb_cnt nr - 1) (FbLit bm') cnt) as ->.
    { unfold upd. destruct Hs as [_ [_ Hs]%aget_ok]. by rewrite (list_insert_id (setcnt ba)). }
    eexists _, bm'. split; [done|]. split; [split; [|by rewrite upd_zlen]|].
    + apply upd_ok; [done..|]. eapply fill_count_ok; try done. apply used_bits_range.
    + split_and!; try done. intros z Hz. rewrite fbit_upd by lia.
      destruct (Z.eqb_spec (z / FB_BLOCK_BITS) (max_flb_cnt nr - 1)) as [Ez|]; [|done].
      cbn [bbit]. assert (FB_BLOCK_BITS * (max_flb_cnt nr - 1) + z mod FB_BLOCK_BITS = z) as Eq
        by (rewrite fb_bits in *; dlia).
      rewrite Gz, Eq by (rewrite fb_bits; dlia). zdec. apply orb_false_r.
Qed.

(** the block read for a byte of the cluster bitmap shows exactly the marked
    clusters, and every position behind the last cluster as in use; reading
    does not change what is marked, unless the number of clusters is a multiple
    of 65536. *)
Theorem fsck_find_block_correct nr ba pos :
  array_of nr ba -> 0 < nr < 2 ^ 47 -> nr mod FB_BLOCK_BITS <> 0 ->
  0 <= pos < NTFS_BUF_SIZE * max_flb_cnt nr ->
  exists ba' bm, ntfs_fsck_find_lcnbmp_block nr ba pos = Ok (ba', bm) /\ array_of nr ba' /\
    (forall z, 0 <= z < nr -> fbit ba' z = fbit ba z) /\ zlen bm = NTFS_BUF_SIZE /\
    forall k, 0 <= k < FB_BLOCK_BITS ->
      let z := FB_BLOCK_BITS * (pos / NTFS_BUF_SIZE) + k in
      gbit bm k = fbit ba z || (nr <=? z).
Proof.
  intros [Ho Hl] Hn Hm Hp. unfold NTFS_BUF_SIZE in Hp. cbv zeta.
  assert (max_flb_cnt nr < 2 ^ 32) as Hmax by (unfold max_flb_cnt; rewrite block_index, fb_bits; dlia).
  assert (0 < max_flb_cnt nr) by lia.
  unfold ntfs_fsck_find_lcnbmp_block. rewrite last_index, FB_ROUND_DOWN_spec.
  change NTFS_BUF_SIZE with 8192. rewrite !u32_small by dlia.
  destruct (slot_total nr ba (pos / 8192) Ho) as (b & cnt & Hs & Hb); [dlia|].
  rewrite (proj2 (Z.ltb_lt (pos / 8192) _)), (proj1 Hs) by dlia. cbn [mbind res_bind].
  destruct (Z.eqb_spec (pos / 8192) (max_flb_cnt nr - 1)) as [El|El].
  - rewrite !El in *. apply (find_last_block nr ba b cnt); [by split|lia|done..].
  - destruct (slot_bytes_spec _ _ _ Hb) as [Zb Gb].
    assert (match b with FbOnes => Ok (ba, ones_block) | FbNull => Ok (ba, zero_block)
            | FbLit bm => Ok (ba, bm) end = Ok (ba, slot_bytes b)) as -> by by destruct b.
    exists ba, (slot_bytes b). split_and!; try done. intros k Hk.
    rewrite Gb, (fbit_block _ _ b) by (done || apply Hs).
    rewrite (proj2 (Z.leb_gt _ _)); [by rewrite orb_false_r|].
    rewrite fb_bits in *. unfold max_flb_cnt in *. rewrite block_index, fb_bits in *. dlia.
Qed.

(** A volume of 70000 clusters whose second block is all marked. *)
Lemma fsck_find_block_correct_witness :
  let ba := mk_blocks [FbNull; FbOnes] [0; 65536] in
  exists ba' bm, ntfs_fsck_find_lcnbmp_block 70000 ba 8191 = Ok (ba', bm) /\ array_of 70000 ba' /\
    zlen bm = 8192 /\ gbit bm 65535 = false.
Proof.
  cbv zeta.
  destruct (fsck_find_block_correct 70000 (mk_blocks [FbNull; FbOnes] [0; 65536]) 8191)
    as (ba' & bm & E & Ha & _ & L & G).
  - split; [|done]. apply shared_blocks_ok; [done|]. apply Forall_cons; [by left|].
    apply Forall_singleton. by right.
  - lia.
  - vm_compute. discriminate.
  - vm_compute. split; [discriminate|done].
  - exists ba', bm. split; [exact E|]. split; [exact Ha|]. split; [exact L|].
    rewrite G by (rewrite fb_bits; lia). vm_compute. reflexivity.
Defined.

(** When the number of clusters is a multiple of 65536, reading the last
    block while it is not all in use accesses the byte behind its 8 KiB
    buffer. *)
Theorem fsck_fill_unused_overrun nr ba b :
  array_of nr ba -> 0 < nr < 2 ^ 47 -> nr mod FB_BLOCK_BITS = 0 ->
  aget (blocks ba) (max_flb_cnt nr - 1) = Ok b -> b <> FbOnes ->
  ntfs_fsck_find_lcnbmp_block nr ba (NTFS_BUF_SIZE * (max_flb_cnt nr - 1)) = Undef.
Proof.
  intros [Ho Hl] Hn Hm E Hb. destruct (slot_total nr ba (max_flb_cnt nr - 1) Ho) as (b' & cnt & Hs & Hbo).
  { apply aget_range in E. lia. }
  assert (b' = b) as -> by (destruct Hs; congruence). apply slot_bytes_spec in Hbo as [Zb _].
  assert (nr = FB_BLOCK_BITS * max_flb_cnt nr) as Hnr
    by (unfold max_flb_cnt; rewrite block_index, fb_bits in *; dlia).
  assert (ntfs_fsck_fill_unused_lcnbmp nr (max_flb_cnt nr - 1) (slot_bytes b) = Undef) as F.
  { unfold ntfs_fsck_fill_unused_lcnbmp, NTFS_BUF_SIZE in *. rewrite fb_bits in *.
    rewrite !shiftl3, shiftr3. replace ((nr - 8 * ((max_flb_cnt nr - 1) * 8192)) / 8) with 8192 by dlia.
    change (8192 + 1 <? 8192) with false. cbn [mbind res_bind]. by rewrite aget_outside by lia. }
  assert (max_flb_cnt nr < 2 ^ 32) as Hmax by (rewrite fb_bits in *; lia).
  assert (0 < max_flb_cnt nr) by (rewrite fb_bits in *; lia).
  unfold ntfs_fsck_find_lcnbmp_block. rewrite last_index, FB_ROUND_DOWN_spec.
  change NTFS_BUF_SIZE with 8192. rewrite (Z.mul_comm 8192), Z.div_mul, !u32_small by lia. zdec.
  rewrite E. cbn [mbind res_bind]. destruct b as [| |bm]; [|done|]; cbn [slot_bytes] in F; by rewrite F.
Qed.

Lemma fsck_fill_unused_overrun_witness :
  ntfs_fsck_find_lcnbmp_block 65536 (mk_blocks [FbNull] [0]) 0 = Undef.
Proof.
  apply (fsck_fill_unused_overrun 65536 (mk_blocks [FbNull] [0]) FbNull); try done.
  split; [|done]. apply shared_blocks_ok; [done|]. apply Forall_singleton. by left.
Defined.

(** ** The mft bitmap *)

(** Record [x] is marked. *)
Definition mbit (mb : mft_bitmap) (x : Z) : bool :=
  match mb !! Z.to_nat (x / FB_BLOCK_BITS) with
  | Some (Some bm) => gbit bm (x mod FB_BLOCK_BITS)
  | _ => false
  end.

Definition mft_ok (mb : mft_bitmap) : Prop :=
  Forall (fun b => match b with Some bm => zlen bm = NTFS_BUF_SIZE | None => True end) mb.

(** The block index and the bit in the block of a record number. *)
Lemma mft_index x :
  0 <= x < 2 ^ 48 ->
  u32 (FB_ROUND_DOWN (Z.shiftr x NTFSCK_BYTE_TO_BITS)) = x / FB_BLOCK_BITS /\
  x - Z.shiftl (x / FB_BLOCK_BITS) (NTFS_BUF_SIZE_BITS + NTFSCK_BYTE_TO_BITS) = x mod FB_BLOCK_BITS.
Proof.
  intros Hx. rewrite block_index, fb_bits. split; [apply u32_small; dlia|].
  unfold NTFS_BUF_SIZE_BITS, NTFSCK_BYTE_TO_BITS. rewrite Z.shiftl_mul_pow2 by lia.
  change (2 ^ (13 + 3)) with 65536. dlia.
Qed.

Lemma mftbmp_get_spec mb x :
  mft_ok mb -> 0 <= x < 2 ^ 48 -> ntfs_fsck_mftbmp_get mb x = Ok (Z.b2z (mbit mb x)).
Proof.
  intros Ho Hx. unfold ntfs_fsck_mftbmp_get. destruct (mft_index x Hx) as [-> ->]. unfold mbit.
  destruct (Z.leb_spec (zlen mb) (x / FB_BLOCK_BITS)) as [H|H].
  { by rewrite lookup_ge_None_2 by (unfold zlen in H; lia). }
  destruct (aget_total mb (x / FB_BLOCK_BITS)) as [b E]; [rewrite fb_bits in *; dlia|].
  rewrite E. apply aget_ok in E as [_ E]. rewrite E. cbn [mbind res_bind].
  destruct b as [bm|]; [|done]. apply bit_get_spec.
  rewrite (Forall_lookup_1 _ _ _ _ Ho E), fb_bits. unfold NTFS_BUF_SIZE. dlia.
Qed.

Section mft_marks.
Context {HP : Heap} (Hheap : forall n, heap_grants n = true).

Lemma set_mftbmp_spec mb x (v : bool) :
  mft_ok mb -> 0 <= x < 2 ^ 48 ->
  exists mb' e, ntfs_fsck_set_mftbmp_value mb x (Z.b2z v) = Ok (mb', e) /\ mft_ok mb' /\ zlen mb' = zlen mb /\
    (e = None <-> x < FB_BLOCK_BITS * zlen mb) /\
    forall z, 0 <= z < FB_BLOCK_BITS * zlen mb -> mbit mb' z = if z =? x then v else mbit mb z.
Proof.
  intros Ho Hx. unfold ntfs_fsck_set_mftbmp_value. destruct (mft_index x Hx) as [-> ->].
  replace (u8 (Z.b2z v)) with (Z.b2z v) by by destruct v.
  destruct (Z.leb_spec (zlen mb) (x / FB_BLOCK_BITS)) as [H|H].
  { exists mb, (Some EINVAL). split_and!; [done..| |]; rewrite fb_bits in *.
    - split; [done|]. intros ?. exfalso. dlia.
    - intros z Hz. destruct (Z.eqb_spec z x); [exfalso; dlia|done]. }
  destruct (aget_total mb (x / FB_BLOCK_BITS)) as [b E]; [rewrite fb_bits in *; dlia|].
  rewrite E, Hheap. pose proof (aget_range _ _ _ E) as R. apply aget_ok in E as [_ E].
  cbn [mbind res_bind].
  replace (match b with Some bm => Some bm | None => Some zero_block end) with (Some (default zero_block b))
    by by destruct b.
  assert (zlen (default zero_block b) = NTFS_BUF_SIZE) as Lb.
  { pose proof (Forall_lookup_1 _ _ _ _ Ho E) as Lb. destruct b; [done|].
    unfold zlen, zero_block. cbn [default]. by rewrite length_replicate. }
  destruct (bit_set_spec (default zero_block b) (x mod FB_BLOCK_BITS) v) as (bm' & -> & L & G).
  { rewrite Lb, fb_bits. unfold NTFS_BUF_SIZE. dlia. }
  cbn [mbind res_bind]. rewrite aset_ok by done. cbn [mbind res_bind].
  eexists _, None. split; [done|]. split.
  { apply Forall_insert; [done|]. by rewrite L. }
  split; [apply zlen_insert|]. rewrite fb_bits in *. split; [split; [dlia|done]|].
  intros z Hz. unfold mbit. rewrite fb_bits. destruct (Z.eq_dec (z / 65536) (x / 65536)) as [Ez|Ez].
  - rewrite Ez, list_lookup_insert_eq, E by (unfold zlen in R; lia). rewrite G by dlia.
    destruct (Z.eqb_spec (z mod 65536) (x mod 65536)), (Z.eqb_spec z x); try done; try (exfalso; dlia).
    destruct b; [done|]. cbn [default]. apply zero_block_bits. rewrite fb_bits. dlia.
  - rewrite list_lookup_insert_ne by dlia. destruct (Z.eqb_spec z x); [congruence|done].
Qed.

Lemma mirror_loop_spec (v : bool) : forall n mb start,
  mft_ok mb -> 0 <= start -> start + Z.of_nat n <= 2 ^ 48 ->
  exists mb', mirror_loop n mb start (Z.b2z v) = Ok mb' /\ mft_ok mb' /\ zlen mb' = zlen mb /\
    forall z, 0 <= z < FB_BLOCK_BITS * zlen mb ->
      mbit mb' z = if (start <=? z) && (z <? start + Z.of_nat n) then v else mbit mb z.
Proof.
  induction n as [|n IH]; intros mb start Ho Hs Hn; cbn [mirror_loop].
  { exists mb. split_and!; [done..|]. intros z Hz. zcase; cbn; done || lia. }
  rewrite u64_small by lia.
  destruct (set_mftbmp_spec mb start v Ho) as (mb1 & e & -> & Ho1 & L1 & _ & G1); [lia|].
  cbn [mbind res_bind]. destruct (IH mb1 (start + 1)) as (mb' & -> & Ho' & L' & G'); try done; try lia.
  exists mb'. split_and!; [done..|congruence|]. intros z Hz. rewrite G', G1 by (rewrite ?L1; lia).
  zcase; cbn [andb]; done || lia.
Qed.

End mft_marks.

(** setting or clearing a run in the mft bitmap attribute keeps fsck's copy
    of it in step: if the copy agreed with the attribute on the records it
    covers, it does so afterwards, and both have exactly the run changed. *)
Theorem bitmap_run_mirrored `{Heap} {A} `{AttrIOLaws A} (na : A) mb start count (v : bool) :
  (forall n, heap_grants n = true) -> 0 <= start -> 0 <= count < 2 ^ 33 ->
  start + count <= 8 * zlen (attr_value na) -> start + count <= 2 ^ 48 ->
  start < 8 * zlen (attr_value na) \/ start mod 8 = 0 ->
  mft_ok mb -> (forall z, 0 <= z < FB_BLOCK_BITS * zlen mb -> mbit mb z = gbit (attr_value na) z) ->
  exists na' mb', bitmap_run na (Some mb) start count v = Ok (na', Some mb') /\
    mft_ok mb' /\ zlen mb' = zlen mb /\
    (forall z, 0 <= z -> gbit (attr_value na') z =
       if (start <=? z) && (z <? start + count) then v else gbit (attr_value na) z) /\
    forall z, 0 <= z < FB_BLOCK_BITS * zlen mb -> mbit mb' z = gbit (attr_value na') z.
Proof.
  intros Hh Hs Hc Hl Hmax Hal Ho Hsync. unfold bitmap_run, ntfs_bitmap_mirror_fsck_mftbmp.
  destruct (set_bits_in_run_spec Hh na start count v) as (na' & -> & L & G); [done..|].
  cbn [mbind res_bind].
  destruct (mirror_loop_spec Hh v (Z.to_nat count) mb start) as (mb' & -> & Ho' & L' & G'); [done|done|lia|].
  cbn [mbind res_bind]. exists na', mb'. split_and!; [done..|]. intros z Hz.
  rewrite G', G, Z2Nat.id, Hsync by lia. done.
Qed.

Lemma bitmap_run_mirrored_witness :
  exists na' mb', @bitmap_run ample_heap (list Z) mem_attr (replicate 4 0) (Some [None]) 5 20 true =
      Ok (na', Some mb') /\ mbit mb' 4 = false /\ mbit mb' 24 = true /\ mbit mb' 25 = false.
Proof.
  destruct (@bitmap_run_mirrored ample_heap (list Z) mem_attr mem_attr_laws (replicate 4 0) [None] 5 20 true)
    as (na' & mb' & E & _ & _ & G & S).
  - reflexivity.
  - lia.
  - lia.
  - compute_decide.
  - lia.
  - left. vm_compute. reflexivity.
  - by apply Forall_singleton.
  - intros z Hz. change (zlen [None]) with 1 in Hz. unfold mbit. rewrite fb_bits in *.
    replace (z / 65536) with 0 by dlia. change (false = gbit (replicate 4 0) z). unfold gbit.
    destruct (replicate 4 0 !! _) as [b|] eqn:L; [|done]. apply lookup_replicate in L as [-> _].
    by rewrite Z.testbit_0_l.
  - exists na', mb'. split; [exact E|]. change (zlen [None]) with 1 in S. rewrite !S, !G by (rewrite ?fb_bits; lia). split_and!; reflexivity.
Defined.
