(* ===== verification/LcnAllocThm.v ===== *)
(** Correctness of the cluster allocator (libntfs/lcnalloc.c).

    The invariant [alloc_inv] relates the volume before the call, the volume
    now and the runs allocated so far; [window_inv] does so while a window of
    the bitmap is searched.  Every step of the search keeps it and lowers the
    rank [alloc_rank], so the search ends within its fuel.  [lv_ok] is the
    invariant of the volume that allocation and freeing preserve. *)

From S2P Require Import Prelude Volume AttrIO Runlist Bitmap Fsck LcnAlloc FsckThm FsckRead LcnSearch.

(** ** Specification *)

(** The clusters of runs, in their order. *)
Definition rl_clusters (runs : runlist) : list Z := mjoin (map (fun r => seqZ (lcn r) (len r)) runs).

Section spec.
Context {A : Type} {IO : AttrIO A} (vol : ntfs_volume).

(** The bitmap on the volume, the clusters fsck knows to be in use, and those
    it has marked so far. *)
Definition bm_bit (lv : lcn_vol A) (x : Z) : bool := gbit (attr_value (lv_na lv)) x.
Definition oracle (lv : lcn_vol A) (x : Z) : bool :=
  match lv_fsck lv with Some fk => fbit (fk_alloc fk) x | None => false end.
Definition fsck_bit (lv : lcn_vol A) (x : Z) : bool :=
  match lv_fsck lv with Some fk => fbit (fk_lcn fk) x | None => false end.

Definition zones_ok (z : zones) : Prop :=
  0 <= mft_zone_start z /\ 0 <= mft_zone_end z /\ 0 <= mft_zone_pos z /\ 0 <= data1_zone_pos z /\
  0 <= data2_zone_pos z.

Definition fsck_ok (fk : fsck_maps) : Prop :=
  array_of (nr_clusters vol) (fk_lcn fk) /\ array_of (nr_clusters vol) (fk_alloc fk) /\
  0 <= fk_dup fk < 2 ^ 63.

(** The bitmap has a bit for every cluster, the bits behind them are set, and what fsck has marked is in
    use on the volume or known to be in use. *)
Record lv_ok (lv : lcn_vol A) : Prop := {
  lo_zones : zones_ok (lv_zones lv);
  lo_cover : nr_clusters vol <= 8 * zlen (attr_value (lv_na lv)) <= 2 ^ 40;
  lo_pad : forall x, nr_clusters vol <= x < 8 * zlen (attr_value (lv_na lv)) -> bm_bit lv x = true;
  lo_fsck : match lv_fsck lv with Some fk => fsck_ok fk | None => True end;
  lo_marked : forall x, 0 <= x -> fsck_bit lv x = true -> bm_bit lv x = true \/ oracle lv x = true
}.

(** A cluster that may be handed out. *)
Definition available (lv : lcn_vol A) (x : Z) : Prop :=
  0 <= x < nr_clusters vol /\ bm_bit lv x = false /\ oracle lv x = false.

End spec.

(** * Proofs *)

Lemma rl_clusters_app a b : rl_clusters (a ++ b) = rl_clusters a ++ rl_clusters b.
Proof. unfold rl_clusters. by rewrite map_app, join_app. Qed.

Lemma rl_clusters_one r : rl_clusters [r] = seqZ (lcn r) (len r).
Proof. unfold rl_clusters. cbn. apply app_nil_r. Qed.

Lemma seqZ_snoc l n : 0 <= n -> seqZ l (n + 1) = seqZ l n ++ [l + n].
Proof. intros. rewrite seqZ_app by lia. done. Qed.

Lemma elem_snoc (l : list Z) x y : y ∈ l ++ [x] <-> y ∈ l \/ y = x.
Proof. by rewrite elem_of_app, list_elem_of_singleton. Qed.

(** ** The runs *)

(** The memory block holds [runs] at its start. *)
Record acc_ok (start_vcn count : Z) (acc : alloc_acc) (runs : runlist) : Prop := {
  ao_mem : exists tail, a_rl acc = runs ++ tail;
  ao_pos : rlpos acc = zlen runs;
  ao_size : 0 <= rlsize acc /\ zlen (a_rl acc) = rl_capacity (rlsize acc);
  ao_contig : contig start_vcn runs;
  ao_last : runs = [] \/ exists R v, runs = R ++ [mk_rle v (prev_lcn acc) (prev_run_len acc)];
  ao_lcn : Forall (fun r => 0 <= lcn r) runs;
  ao_count : clusters acc = count - zlen (rl_clusters runs)
}.

(** There is room for the terminator, or no block at all. *)
Definition acc_closed (acc : alloc_acc) (runs : runlist) : Prop :=
  runs = [] /\ a_rl acc = [] \/ runs <> [] /\ zlen runs < zlen (a_rl acc).

Lemma acc_ok_init start_vcn count : acc_ok start_vcn count (mk_acc [] 0 0 0 0 count) [].
Proof. split; cbn; try done; [by exists []|by left|rewrite zlen_nil; lia]. Qed.

Lemma runs_end_clusters v runs : contig v runs -> runs_end v runs = v + zlen (rl_clusters runs).
Proof.
  revert v. induction runs as [|r runs IH]; intros v; cbn [contig runs_end]; [rewrite zlen_nil; lia|].
  intros (_ & P & C). rewrite (IH _ C). change (r :: runs) with ([r] ++ runs).
  rewrite rl_clusters_app, zlen_app, rl_clusters_one. unfold zlen at 2. rewrite length_seqZ. lia.
Qed.

(** Memory for one more run and the terminator. *)
Lemma grow_rl_spec {HP : Heap} start_vcn count acc runs :
  (forall n, heap_grants n = true) -> acc_ok start_vcn count acc runs ->
  exists acc', grow_rl acc = Ok (Some acc') /\ acc_ok start_vcn count acc' runs /\
    zlen runs + 1 < zlen (a_rl acc') /\ clusters acc' = clusters acc.
Proof.
  intros Hh Hacc. pose proof Hacc as [(tail & Em) Ep [Es Ec] Cg La Lc Cn]. unfold grow_rl.
  pose proof (zlen_nonneg runs). pose proof (zlen_nonneg tail).
  destruct (Z.leb_spec (rlsize acc) ((rlpos acc + 2) * sizeof_rle)) as [H1|H1].
  - assert (rlsize acc + 4096 > (zlen runs + 3) * 24) as Hcap.
    { rewrite Em, zlen_app in Ec. unfold rl_capacity, sizeof_rle in *. dlia. }
    destruct (rl_resize (a_rl acc) (rlsize acc + 4096)) as [rl| |] eqn:E;
      [|unfold rl_resize in E; rewrite Hh in E; done..].
    rewrite Em in E. apply rl_resize_grow in E as (junk & -> & L); [|unfold rl_capacity, sizeof_rle; dlia].
    eexists. split; [done|]. unfold rl_capacity, sizeof_rle in *. split; [|cbn; rewrite L; split; dlia].
    split; cbn; try done; [by exists junk|]. rewrite L. unfold rl_capacity, sizeof_rle. split; dlia.
  - exists acc. split; [done|]. split; [done|]. unfold rl_capacity, sizeof_rle in *.
    rewrite Ec. split; [dlia|done].
Qed.

(** The accumulator after a run has been stored at the end of [R]. *)
Lemma acc_ok_store start_vcn count acc R r x tail old :
  acc_ok start_vcn count acc (R ++ old) -> contig start_vcn R -> Forall (fun r => 0 <= lcn r) R ->
  zlen (R ++ r :: tail) = zlen (a_rl acc) -> tail <> [] -> vcn r = runs_end start_vcn R -> 0 < len r -> 0 <= lcn r ->
  rl_clusters (R ++ [r]) = rl_clusters (R ++ old) ++ [x] ->
  let acc' := mk_acc (R ++ r :: tail) (zlen R + 1) (rlsize acc) (lcn r) (len r) (clusters acc - 1) in
  acc_ok start_vcn count acc' (R ++ [r]) /\ acc_closed acc' (R ++ [r]).
Proof.
  intros [_ _ Sz _ _ _ Cn] C F L Ht Ev Hl Hlcn Ex. cbn zeta. split.
  - split; cbn [a_rl rlpos rlsize prev_lcn prev_run_len clusters].
    + exists tail. by rewrite <- app_assoc.
    + zlen_solve.
    + split; [apply Sz|]. rewrite L. apply Sz.
    + apply contig_app. by cbn.
    + right. exists R, (vcn r). by destruct r.
    + apply Forall_app. split; [done|by constructor].
    + rewrite Ex, zlen_app, Cn. change (zlen [x]) with 1. lia.
  - right. split; [by destruct R|]. cbn [a_rl]. destruct tail; [done|]. zlen_solve.
Qed.

(** A cluster is added to the last run or as a new run. *)
Lemma add_cluster_spec start_vcn count acc runs x :
  acc_ok start_vcn count acc runs -> zlen runs + 1 < zlen (a_rl acc) -> 0 < clusters acc ->
  0 <= x -> 0 <= start_vcn -> start_vcn + count < 2 ^ 63 ->
  exists acc' runs', add_cluster acc start_vcn x = Ok acc' /\ acc_ok start_vcn count acc' runs' /\
    acc_closed acc' runs' /\ rl_clusters runs' = rl_clusters runs ++ [x] /\ clusters acc' = clusters acc - 1.
Proof.
  intros Hacc Hroom Hc Hx Hv Hvc. pose proof Hacc as [(tail & Em) Ep Sz Cg La Lc Cn]. unfold add_cluster.
  rewrite Em, zlen_app in Hroom.
  destruct tail as [|t [|t' tail]]; [rewrite ?zlen_cons, zlen_nil in Hroom; lia..|].
  pose proof (runs_end_clusters _ _ Cg) as Hend. pose proof (zlen_nonneg (rl_clusters runs)).
  assert (forall R r, runs = R -> vcn r = runs_end start_vcn R -> lcn r = x -> len r = 1 ->
    exists runs', let acc' := mk_acc (R ++ r :: t' :: tail) (zlen R + 1) (rlsize acc) (lcn r) (len r) (clusters acc - 1) in
      acc_ok start_vcn count acc' runs' /\ acc_closed acc' runs' /\
      rl_clusters runs' = rl_clusters runs ++ [x] /\ clusters acc' = clusters acc - 1) as Push.
  { intros R r <- Ev El1 El2. exists (runs ++ [r]). cbn zeta.
    assert (rl_clusters (runs ++ [r]) = rl_clusters runs ++ [x]) as Ex
      by (rewrite rl_clusters_app, rl_clusters_one, El1, El2; done).
    destruct (acc_ok_store start_vcn count acc runs r x (t' :: tail) []) as [P1 P2];
      rewrite ?app_nil_r; try done; try lia.
    rewrite Em. zlen_solve. }
  destruct La as [E|(R & v & E)].
  { subst runs. rewrite Ep, zlen_nil. cbn [Z.eqb negb]. rewrite andb_false_r. cbn [mbind res_bind].
    rewrite Em, (aset_mid [] t _) by done. cbn [mbind res_bind].
    destruct (Push [] (mk_rle start_vcn x 1)) as (runs' & P); [done..|]. eexists _, runs'. by split. }
  assert ((rlpos acc =? 0) = false) as -> by (apply Z.eqb_neq; subst runs; zlen_solve). rewrite andb_true_r.
  assert (rlpos acc - 1 = zlen R) as -> by (subst runs; zlen_solve).
  set (r := mk_rle v (prev_lcn acc) (prev_run_len acc)) in *.
  assert (a_rl acc = R ++ r :: t :: t' :: tail) as Em' by (rewrite Em, E, <- app_assoc; done).
  pose proof Cg as C'. rewrite E in C'. apply contig_app in C' as [C1 C2]. destruct C2 as (Ev & Pl & _).
  rewrite Em', (aget_mid R r _ (zlen R)) by done. cbn [mbind res_bind negb].
  destruct (Z.eqb_spec (prev_lcn acc) (x - prev_run_len acc)) as [Hl|Hl]; cbn [mbind res_bind].
  - rewrite (aset_mid R r _ (zlen R)) by done. cbn [mbind res_bind].
    eexists _, (R ++ [set_len r (prev_run_len acc + 1)]). split; [done|].
    assert (rl_clusters (R ++ [set_len r (prev_run_len acc + 1)]) = rl_clusters runs ++ [x]) as Ex.
    { rewrite E, !rl_clusters_app, !rl_clusters_one. cbn [lcn len set_len r]. cbn in Pl.
      rewrite seqZ_snoc, app_assoc by lia. do 2 f_equal. lia. }
    rewrite E in Lc, Hacc, Ex. apply Forall_app in Lc as [L1 L2].
    destruct (acc_ok_store start_vcn count acc R (set_len r (prev_run_len acc + 1)) x (t :: t' :: tail) [r]) as [P1 P2];
      try done; try (cbn in *; lia).
    + by rewrite Em', !zlen_app, !zlen_cons.
    + by inversion L2.
    + cbn [lcn len set_len r] in P1, P2. rewrite E. replace (rlpos acc) with (zlen R + 1) by (subst runs; zlen_solve). done.
  - rewrite Ep, <- Em', Em, (aset_mid runs t _ (zlen runs)) by done.
    rewrite E in Hend. rewrite runs_end_app in Hend. cbn [runs_end len r] in Hend.
    rewrite <- E in Hend. cbn in Ev.
    rewrite s64_small by (cbn [vcn r] in *; lia). cbn [mbind res_bind].
    destruct (Push runs (mk_rle (v + prev_run_len acc) x 1)) as (runs' & P); try done.
    { cbn [vcn]. rewrite E, runs_end_app. cbn. lia. }
    eexists _, runs'. by split.
Qed.

(** ** Marking clusters in fsck's bitmap *)

Definition has_fsck {A} (lv : lcn_vol A) : bool :=
  match lv_fsck lv with Some _ => true | None => false end.

Section alloc_proof.
Context {HP : Heap} (Hheap : forall n, heap_grants n = true).
Context {A : Type} {IO : AttrIO A} {LAWS : AttrIOLaws A} (vol : ntfs_volume).
Implicit Types lv : lcn_vol A.
Abbreviation nr := (nr_clusters vol).
Context (Hnr : 0 <= nr <= 2 ^ 32).

Definition fsck_state_ok lv : Prop := match lv_fsck lv with Some fk => fsck_ok vol fk | None => True end.

(** The fsck state of [lv'] is that of [lv] with the clusters from [x] up to
    [y] set to [v]. *)
Record fsck_marked lv lv' (x y : Z) (v : bool) : Prop := {
  fm_na : lv_na lv' = lv_na lv;
  fm_zones : lv_zones lv' = lv_zones lv;
  fm_has : has_fsck lv' = has_fsck lv;
  fm_ok : fsck_state_ok lv';
  fm_oracle : forall z, oracle lv' z = oracle lv z;
  fm_bits : forall z, 0 <= z -> fsck_bit lv' z =
    if (x <=? z) && (z <? y) then v && has_fsck lv else fsck_bit lv z
}.

Lemma array_capacity ba : array_of nr ba -> nr <= FB_BLOCK_BITS * zlen (blocks ba).
Proof. intros [_ ->]. unfold max_flb_cnt. rewrite block_index, fb_bits. dlia. Qed.

Lemma fsck_mark_spec lv x n (v : bool) :
  fsck_state_ok lv -> 0 <= x -> 0 < n -> x + n <= nr ->
  (v = true -> forall z, x <= z < x + n -> fsck_bit lv z = false) ->
  exists lv', fsck_mark lv x n (Z.b2z v) = Ok lv' /\ fsck_marked lv lv' x (x + n) v.
Proof.
  intros Hok Hx Hn Hxn Hfree. unfold fsck_mark, fsck_state_ok in *. destruct (lv_fsck lv) as [fk|] eqn:E.
  - destruct Hok as (Ha & Hal & Hd). pose proof (array_capacity _ Ha).
    destruct (set_range_spec Hheap nr (fk_arena fk) (fk_lcn fk) (fk_dup fk) x n v)
      as (ba & -> & [M1 M2 M3]); try lia; [apply Ha|]. cbn [mbind res_bind].
    assert ((if v then count_true (fbit (fk_lcn fk)) x (Z.to_nat n) else 0) = 0) as ->.
    { destruct v; [|done]. rewrite (count_true_const _ _ false); [done|]. intros j Hj.
      specialize (Hfree eq_refl j). unfold fsck_bit in Hfree. rewrite E in Hfree. apply Hfree. lia. }
    eexists. split; [done|]. split; cbn [lv_na lv_zones lv_fsck fk_alloc fk_lcn]; try done.
    + unfold has_fsck. by rewrite E.
    + unfold fsck_state_ok, fsck_ok. cbn. split; [by split; [|rewrite M2; apply Ha]|]. split; [done|lia].
    + unfold oracle. by rewrite E.
    + intros z Hz. unfold fsck_bit, has_fsck. rewrite E. cbn. rewrite M3 by done. by rewrite andb_true_r.
  - exists lv. split; [done|]. split; try done.
    + unfold fsck_state_ok. by rewrite E.
    + intros z Hz. unfold fsck_bit, has_fsck. rewrite E, andb_false_r. by destruct (_ && _).
Qed.

(** ** The invariant *)

(** [g] is the bitmap of [lv0] with the clusters of [runs] set; bits of
    clusters that fsck knows to be in use may be set as well. *)
Definition bits_inv lv0 (g : Z -> bool) (runs : runlist) : Prop := forall x, 0 <= x ->
  (bm_bit lv0 x = true -> g x = true) /\ (x ∈ rl_clusters runs -> g x = true) /\
  (g x = true -> bm_bit lv0 x = true \/ oracle lv0 x = true \/ x ∈ rl_clusters runs).

Definition free_inv (z0 z : zones) (k : Z) : Prop :=
  NVolFreeSpaceKnown z = NVolFreeSpaceKnown z0 /\
  (NVolFreeSpaceKnown z0 = true -> k <= free_clusters z0 -> free_clusters z = free_clusters z0 - k).

(** The counter is no less than the number of clusters that can be taken. *)
Definition free_covers (count : Z) (lv : lcn_vol A) : Prop :=
  forall l, NoDup l -> Forall (available vol lv) l -> zlen l <= count -> zlen l <= free_clusters (lv_zones lv).

Record runs_inv (count : Z) lv0 lv (runs : runlist) : Prop := {
  rv_nodup : NoDup (rl_clusters runs);
  rv_available : Forall (available vol lv0) (rl_clusters runs);
  rv_zones : zones_ok (lv_zones lv);
  rv_free : free_inv (lv_zones lv0) (lv_zones lv) (zlen (rl_clusters runs));
  rv_has : has_fsck lv = has_fsck lv0;
  rv_fsck : fsck_state_ok lv;
  rv_oracle : forall x, oracle lv x = oracle lv0 x;
  rv_bits : forall x, 0 <= x ->
    fsck_bit lv x = fsck_bit lv0 x || bool_decide (x ∈ rl_clusters runs) && has_fsck lv0
}.

(** The bitmap as it is when the window [buf] at bit [base] is written back. *)
Definition eff (base : Z) (buf V : list Z) (x : Z) : bool :=
  if (base <=? x) && (x <? base + 8 * zlen buf) then gbit buf (x - base) else gbit V x.

(** [runs0] are the runs when the window was read. *)
Record window_inv (start_vcn count : Z) lv0 (na : A) (base n : Z) (runs0 : runlist)
    (w : window) (runs : runlist) : Prop := {
  wi_na : lv_na (w_lv w) = na;
  wi_len : zlen (w_buf w) = n;
  wi_bits : bits_inv lv0 (eff base (w_buf w) (attr_value na)) runs;
  wi_oracle : forall j, 0 <= j < 8 * n -> oracle lv0 (base + j) = true -> gbit (w_buf w) j = true;
  wi_runs : runs_inv count lv0 (w_lv w) runs;
  wi_acc : acc_ok start_vcn count (w_acc w) runs;
  wi_closed : acc_closed (w_acc w) runs;
  wi_wb : w_writeback w = false -> runs = runs0
}.

(** ** A window *)

Lemma runs_inv_snoc count lv0 lv lv' runs runs' x :
  runs_inv count lv0 lv runs -> lv_ok vol lv0 -> available vol lv0 x -> x ∉ rl_clusters runs ->
  zlen (rl_clusters runs) < count ->
  fsck_marked lv lv' x (x + 1) true -> rl_clusters runs' = rl_clusters runs ++ [x] ->
  runs_inv count lv0 (lv_set_zones lv' (take_free (lv_zones lv'))) runs'.
Proof.
  intros [I1 I2 I3 [I4 I4'] I5 I6 I7 I8] Hok Hav Hnin Hlt [M1 M2 M3 M4 M5 M6] ER.
  assert (take_free (lv_zones lv') = lv_zones lv \/
    take_free (lv_zones lv') = set_free (lv_zones lv) (free_clusters (lv_zones lv) - 1)) as Ez.
  { unfold take_free. rewrite M2. destruct (NVolFreeSpaceKnown _ && _); [by right|by left]. }
  split; try done; cbn [lv_set_zones lv_zones lv_na lv_fsck].
  - rewrite ER. apply list.NoDup_app. split_and!; [done| |apply list.NoDup_singleton].
    intros y Hy ->%list_elem_of_singleton. done.
  - rewrite ER. apply Forall_app. by split; [|constructor].
  - destruct Ez as [->| ->]; done.
  - split; [destruct Ez as [->| ->]; done|]. intros Hk Hc. rewrite ER, zlen_app. change (zlen [x]) with 1.
    rewrite ER, zlen_app in Hc. change (zlen [x]) with 1 in Hc. specialize (I4' Hk ltac:(lia)). unfold take_free. rewrite M2, I4, Hk. cbn [andb].
    rewrite (proj2 (Z.leb_gt _ _)) by lia. cbn. lia.
  - change (has_fsck lv' = has_fsck lv0). congruence.
  - intros y. change (oracle lv' y = oracle lv0 y). by rewrite M5.
  - intros y Hy. change (fsck_bit lv' y = fsck_bit lv0 y || bool_decide (y ∈ rl_clusters runs') && has_fsck lv0).
    rewrite (M6 y Hy), ER, I5.
    destruct (Z.leb_spec x y); destruct (Z.ltb_spec y (x + 1)); cbn [andb].
    1:{ assert (y = x) as -> by lia. rewrite bool_decide_eq_true_2 by (apply elem_snoc; by right).
      cbn. destruct (fsck_bit lv0 x) eqn:Ef; [|done]. exfalso.
      destruct (lo_marked _ _ Hok x) as [?|?]; [lia|done| |]; destruct Hav as (_ & ? & ?); congruence. }
    all: rewrite (I8 y Hy); do 2 f_equal; apply bool_decide_ext;
      rewrite elem_snoc; split; [by left|intros [?|?]; [done|lia]].
Qed.

(** ** Zones *)

(** Positions and full marks may change, the counters do not. *)
Record zones_moved (z z' : zones) : Prop := {
  zm_ok : zones_ok z -> zones_ok z';
  zm_free : free_clusters z' = free_clusters z;
  zm_known : NVolFreeSpaceKnown z' = NVolFreeSpaceKnown z
}.

Lemma zones_moved_refl z : zones_moved z z.
Proof. done. Qed.

Lemma zones_moved_trans z1 z2 z3 : zones_moved z1 z2 -> zones_moved z2 z3 -> zones_moved z1 z3.
Proof. intros [H1 H2 H3] [H4 H5 H6]. split; [auto|congruence..]. Qed.

Lemma set_full_moved z f : zones_moved z (set_full z f).
Proof. done. Qed.

Context (Hmft : 0 <= mft_lcn vol).

Lemma update_zone_pos_moved z zone tc : zones_moved z (ntfs_cluster_update_zone_pos vol z zone tc).
Proof.
  assert (forall s e p, 0 <= s -> 0 <= p -> 0 <= ntfs_cluster_set_zone_pos s e p tc) as Hp
    by (intros; unfold ntfs_cluster_set_zone_pos; zcase; lia).
  split; [|unfold ntfs_cluster_update_zone_pos; by zcase..].
  intros (Z1 & Z2 & Z3 & Z4 & Z5). unfold ntfs_cluster_update_zone_pos, zones_ok.
  zcase; cbn; split_and!; done || (apply Hp; done).
Qed.

Lemma unmark_full_moved z zone x : zones_moved z (unmark_full vol z zone x).
Proof.
  unfold unmark_full. destruct (_ =? 0); [apply zones_moved_refl|].
  eapply zones_moved_trans; [apply update_zone_pos_moved|apply set_full_moved].
Qed.

Lemma update_full_status_moved z x : zones_moved z (update_full_status vol z x).
Proof. unfold update_full_status. zcase; apply unmark_full_moved. Qed.

(** ** Freeing *)

(** [lv'] is [lv] without the clusters [xs]. *)
Record lv_freed lv lv' (xs : list Z) : Prop := {
  lf_zones : zones_moved (lv_zones lv) (lv_zones lv');
  lf_len : zlen (attr_value (lv_na lv')) = zlen (attr_value (lv_na lv));
  lf_has : has_fsck lv' = has_fsck lv;
  lf_ok : fsck_state_ok lv';
  lf_oracle : forall z, oracle lv' z = oracle lv z;
  lf_bm : forall z, 0 <= z -> bm_bit lv' z = bm_bit lv z && negb (bool_decide (z ∈ xs));
  lf_fsck : forall z, 0 <= z -> fsck_bit lv' z = fsck_bit lv z && negb (bool_decide (z ∈ xs))
}.

Lemma lv_freed_nil lv : fsck_state_ok lv -> lv_freed lv lv [].
Proof.
  intros Hf. split; try done; intros z Hz; rewrite bool_decide_eq_false_2, andb_true_r; try done; apply not_elem_of_nil.
Qed.

Lemma lv_freed_app lv lv1 lv2 xs ys : lv_freed lv lv1 xs -> lv_freed lv1 lv2 ys -> lv_freed lv lv2 (xs ++ ys).
Proof.
  intros [F1 F2 F3 F4 F5 F6 F7] [G1 G2 G3 G4 G5 G6 G7].
  assert (forall z, bool_decide (z ∈ xs ++ ys) = bool_decide (z ∈ xs) || bool_decide (z ∈ ys)) as E.
  { intros z. rewrite <- bool_decide_or. apply bool_decide_ext, elem_of_app. }
  split; [by eapply zones_moved_trans|congruence..| | |].
  - intros z. by rewrite G5, F5.
  - intros z Hz. by rewrite G6, F6, E, negb_orb, andb_assoc.
  - intros z Hz. by rewrite G7, F7, E, negb_orb, andb_assoc.
Qed.

Lemma range_elem x n z : (x <=? z) && (z <? x + n) = bool_decide (z ∈ seqZ x n).
Proof.
  destruct (decide (z ∈ seqZ x n)) as [H|H].
  - rewrite bool_decide_eq_true_2 by done. apply elem_of_seqZ in H. by zdec.
  - rewrite bool_decide_eq_false_2 by done. rewrite elem_of_seqZ in H.
    apply andb_false_iff. rewrite Z.leb_gt, Z.ltb_ge. lia.
Qed.

Lemma free_run_spec lv x n :
  fsck_state_ok lv -> 0 <= x -> 0 < n -> x + n <= nr -> nr <= 8 * zlen (attr_value (lv_na lv)) ->
  exists lv', free_run vol lv x n = Ok lv' /\ lv_freed lv lv' (seqZ x n).
Proof.
  intros Hf Hx Hn Hxn Hcov. unfold free_run, ntfs_bitmap_clear_run, bitmap_run.
  cbn [lv_set_zones lv_na lv_zones ntfs_bitmap_mirror_fsck_mftbmp].
  destruct (set_bits_in_run_spec Hheap (lv_na lv) x n false) as (na' & -> & L & G); [lia..|]. cbn [mbind res_bind].
  set (lv1 := lv_set_na (lv_set_zones lv (update_full_status vol (lv_zones lv) x)) na').
  destruct (fsck_mark_spec lv1 x n false) as (lv' & E & [F1 F2 F3 F4 F5 F6]); try done; try lia.
  exists lv'. split; [exact E|]. split; try done.
  - rewrite F2. apply update_full_status_moved.
  - by rewrite F1.
  - intros z Hz. unfold bm_bit. rewrite F1. cbn [lv1 lv_na lv_set_na]. rewrite (G z Hz), range_elem.
    destruct (bool_decide _); cbn; [by rewrite andb_false_r|by rewrite andb_true_r].
  - intros z Hz. rewrite (F6 z Hz), range_elem. change (fsck_bit lv1 z) with (fsck_bit lv z).
    destruct (bool_decide _); cbn; [by rewrite andb_false_r|by rewrite andb_true_r].
Qed.

(** A list of runs on the volume, ended by an element of length 0. *)
Lemma free_loop_spec term tail : forall runs lv k,
  fsck_state_ok lv -> nr <= 8 * zlen (attr_value (lv_na lv)) -> len term = 0 ->
  Forall (fun r => 0 <= lcn r /\ 0 < len r /\ lcn r + len r <= nr) runs ->
  0 <= k -> k + zlen (rl_clusters runs) < 2 ^ 63 ->
  exists lv', free_loop vol (runs ++ term :: tail) lv k = Ok (lv', k + zlen (rl_clusters runs)) /\
    lv_freed lv lv' (rl_clusters runs).
Proof.
  induction runs as [|r runs IH]; intros lv k Hf Hcov Ht Hr Hk Hk'; cbn [free_loop app].
  { rewrite Ht. exists lv. rewrite zlen_nil, Z.add_0_r. split; [done|by apply lv_freed_nil]. }
  apply Forall_cons_1 in Hr as [(R1 & R2 & R3) Hr].
  change (r :: runs) with ([r] ++ runs) in *. rewrite rl_clusters_app, rl_clusters_one, zlen_app in *.
  assert (zlen (seqZ (lcn r) (len r)) = len r) as Ez by (unfold zlen; rewrite length_seqZ; lia).
  pose proof (zlen_nonneg (rl_clusters runs)). rewrite Ez in *. zdec.
  destruct (free_run_spec lv (lcn r) (len r)) as (lv1 & -> & F1); [done..|]. cbn [mbind res_bind].
  rewrite s64_small by lia.
  destruct (IH lv1 (k + len r)) as (lv2 & -> & F2); try done; try lia; [apply F1|rewrite (lf_len _ _ _ F1); done|].
  exists lv2. split; [by rewrite Z.add_assoc|]. by eapply lv_freed_app.
Qed.

Section search.
Context (start_vcn count : Z) (lv0 : lcn_vol A).
Context (Hok : lv_ok vol lv0) (Hvcn : 0 <= start_vcn) (Hend : start_vcn + count < 2 ^ 63).
Abbreviation M := (8 * zlen (attr_value (lv_na lv0))).

Section in_window.
Context (na : A) (base n : Z) (runs0 : runlist) (Hbase : 0 <= base) (Hwin : base + 8 * n <= M).
Abbreviation win := (window_inv start_vcn count lv0 na base n runs0).

(** A free bit of the window is a cluster that may be handed out. *)
Lemma window_free w runs x :
  win w runs -> 0 <= x < 8 * n -> gbit (w_buf w) x = false ->
  available vol lv0 (x + base) /\ x + base ∉ rl_clusters runs.
Proof.
  intros [W1 W2 W3 W4 W5 W6 W7 W8] Hx Hg.
  assert (eff base (w_buf w) (attr_value na) (x + base) = false) as He.
  { unfold eff. rewrite W2. zdec. by replace (x + base - base) with x by lia. }
  destruct (W3 (x + base)) as (B1 & B2 & _); [lia|].
  assert (bm_bit lv0 (x + base) = false) as Hb by (destruct (bm_bit lv0 (x + base)); [by rewrite B1 in He|done]).
  split; [|intros Hin; by rewrite B2 in He]. split; [|split; [done|]].
  - split; [lia|]. destruct (Z_lt_ge_dec (x + base) nr); [done|].
    rewrite (lo_pad _ _ Hok) in Hb by lia. done.
  - destruct (oracle lv0 (x + base)) eqn:Eo; [|done]. rewrite W4 in Hg; [done|done|by rewrite Z.add_comm].
Qed.

(** The bit is taken. *)
Lemma window_take w runs x :
  win w runs -> 0 <= x < 8 * n -> gbit (w_buf w) x = false -> 0 < clusters (w_acc w) ->
  exists b acc1 buf' lv' acc' runs', aget (w_buf w) (Z.shiftr x 3) = Ok b /\
    (Z.land b (Z.shiftl 1 (Z.land x 7)) =? 0) = true /\ grow_rl (w_acc w) = Ok (Some acc1) /\
    aset (w_buf w) (Z.shiftr x 3) (Z.lor b (Z.shiftl 1 (Z.land x 7))) = Ok buf' /\
    fsck_mark (w_lv w) (x + base) 1 1 = Ok lv' /\ add_cluster acc1 start_vcn (x + base) = Ok acc' /\
    clusters acc' = clusters (w_acc w) - 1 /\
    forall l, win (mk_window (lv_set_zones lv' (take_free (lv_zones lv'))) acc' buf' l true true) runs'.
Proof.
  intros Hw Hx Hg Hc. destruct (window_free w runs x Hw Hx Hg) as [Hav Hnin].
  destruct Hw as [W1 W2 W3 W4 W5 W6 W7 W8].
  destruct (byte_of_bit (w_buf w) x) as (b & Eb & Gb & Rb); [lia|]. rewrite shiftr3, land7.
  destruct (grow_rl_spec start_vcn count (w_acc w) runs Hheap W6) as (acc1 & Eg & A1 & A2 & A3).
  assert (forall z, x + base <= z < x + base + 1 -> fsck_bit (w_lv w) z = false) as Hff.
  { intros z Hz. assert (z = x + base) as -> by lia. rewrite (rv_bits _ _ _ _ W5) by lia.
    rewrite bool_decide_eq_false_2 by done. rewrite orb_false_r. destruct (fsck_bit lv0 (x + base)) eqn:E; [|done].
    destruct Hav as (? & ? & ?). destruct (lo_marked _ _ Hok (x + base)); [lia|done| |]; congruence. }
  destruct (fsck_mark_spec (w_lv w) (x + base) 1 true) as (lv' & Em & Fm);
    [apply W5|lia|lia|destruct Hav; lia|done|].
  destruct (add_cluster_spec start_vcn count acc1 runs (x + base) A1 A2) as (acc' & runs' & Ea & A4 & A5 & A6 & A7);
    [lia..|].
  eexists b, acc1, _, lv', acc', runs'. split; [done|].
  split; [rewrite land_bit by dlia; by rewrite <- Gb, Hg|]. split; [done|]. split; [by rewrite aset_ok|].
  split; [done|]. split; [done|]. split; [lia|]. intros l.
  assert (forall j, 0 <= j -> gbit (<[Z.to_nat (x / 8) := Z.lor b (Z.shiftl 1 (x mod 8))]> (w_buf w)) j =
    if j =? x then true else gbit (w_buf w) j) as Gn.
  { intros j Hj. apply (gbit_insert _ _ _ b); [done| |lia|done]. intros k Hk.
    rewrite Z.lor_spec, testbit_one by dlia. destruct (k =? x mod 8); [apply orb_true_r|apply orb_false_r]. }
  split; cbn [w_lv w_acc w_buf w_lcn w_guess w_writeback]; try done.
  - cbn. by rewrite (fm_na _ _ _ _ _ Fm).
  - by rewrite zlen_insert.
  - intros y Hy. destruct (W3 y Hy) as (B1 & B2 & B3). unfold eff in *. rewrite zlen_insert, W2 in *. rewrite A6, elem_snoc.
    destruct ((base <=? y) && (y <? base + 8 * n)) eqn:Ein.
    + rewrite Gn by (apply andb_true_iff in Ein as [?%Z.leb_le _]; lia).
      destruct (Z.eqb_spec (y - base) x) as [Hyx|Hyx].
      * split; [done|]. split; [done|]. intros _. right. right. right. lia.
      * split; [done|]. split; [intros [?|?]; [by apply B2|lia]|]. intros H. destruct (B3 H) as [?|[?|?]]; tauto.
    + split; [done|]. split; [|intros H; destruct (B3 H) as [?|[?|?]]; tauto].
      intros [?|?]; [by apply B2|]. subst y. exfalso. revert Ein. by zdec.
  - intros j Hj Ho. rewrite Gn by lia. destruct (j =? x); [done|]. by apply W4.
  - eapply runs_inv_snoc; try done. rewrite (ao_count _ _ _ _ W6) in Hc. lia.
Qed.

Definition window_rank (w : window (A := A)) : Z := if w_guess w then 8 * n - w_lcn w else 8 * n + 1.

Lemma win_same w runs l g :
  win w runs -> win (mk_window (w_lv w) (w_acc w) (w_buf w) l g (w_writeback w)) runs.
Proof. intros [W1 W2 W3 W4 W5 W6 W7 W8]. by split. Qed.

Lemma window_loop_spec : forall fuel w runs,
  win w runs -> 0 <= w_lcn w -> 0 < clusters (w_acc w) -> window_rank w < Z.of_nat fuel ->
  exists w' e runs', window_loop fuel start_vcn base w = Ok (w', e) /\ win w' runs' /\
    match e with
    | WDone => clusters (w_acc w') = 0 /\ 0 <= w_lcn w' < 8 * n
    | WEnd => 0 < clusters (w_acc w')
    | WNoMem => False
    end.
Proof.
  induction fuel as [|fuel IH]; intros w runs Hw Hl Hc Hf; cbn [window_loop];
    rewrite (wi_len _ _ _ _ _ _ _ _ _ Hw); destruct (Z.leb_spec (n * 8) (w_lcn w)) as [Hge|Hlt];
    [by exists w, WEnd, runs|unfold window_rank in Hf; destruct (w_guess w); lia|by exists w, WEnd, runs|].
  destruct (byte_of_bit (w_buf w) (w_lcn w)) as (b & Eb & Gb & Rb);
    [rewrite (wi_len _ _ _ _ _ _ _ _ _ Hw); lia|].
  cbn zeta. rewrite shiftr3, Eb. cbn [mbind res_bind]. rewrite land7, land_bit, <- Gb by dlia. unfold window_rank in *.
  destruct (w_guess w) eqn:Eguess; cbn [negb].
  2:{ destruct (max_empty_spec (w_buf w)) as [[-> _]|(m & Hm & Hr & Hrm & F & _)].
    - eexists _, WEnd, runs. split; [done|]. split; [by apply win_same|done].
    - rewrite (wi_len _ _ _ _ _ _ _ _ _ Hw) in Hrm. zdec. apply (IH _ runs); cbn; try done; [by apply win_same|lia]. }
  rewrite negb_involutive. destruct (gbit (w_buf w) (w_lcn w)) eqn:Eg.
  { eexists _, WEnd, runs. split; [done|]. split; [by apply win_same|done]. }
  destruct (window_take w runs (w_lcn w)) as (b' & acc1 & buf' & lv' & acc' & runs' & T1 & T2 & T3 & T4 & T5 & T6 & T7 & T8);
    [done|lia|done|done|].
  rewrite shiftr3, land7 in *. rewrite Eb in T1. injection T1 as <-.
  rewrite T3. cbn [mbind res_bind]. rewrite T4. cbn [mbind res_bind].
  rewrite T5. cbn [mbind res_bind]. rewrite T6. cbn [mbind res_bind].
  destruct (Z.eqb_spec (clusters acc') 0) as [Hz|Hz].
  - eexists _, WDone, runs'. split; [done|]. split; [apply T8|]. cbn. split; [done|lia].
  - apply (IH _ runs'); cbn; [apply T8|lia..].
Qed.
End in_window.

(** ** Between windows *)

Context (Hcount : 0 < count).

Record alloc_inv lv (acc : alloc_acc) (runs : runlist) : Prop := {
  ai_len : zlen (attr_value (lv_na lv)) = zlen (attr_value (lv_na lv0));
  ai_bits : bits_inv lv0 (bm_bit lv) runs;
  ai_runs : runs_inv count lv0 lv runs;
  ai_acc : acc_ok start_vcn count acc runs;
  ai_closed : acc_closed acc runs
}.

Lemma alloc_inv_init : alloc_inv lv0 (mk_acc [] 0 0 0 0 count) [].
Proof.
  split; [done| | |apply acc_ok_init|by left].
  - intros x Hx. split; [done|]. split; [by intros ?%not_elem_of_nil|by left].
  - split; try done; [constructor|apply Hok| |apply Hok|].
    + split; [done|]. intros _ _. rewrite zlen_nil. lia.
    + intros x Hx. rewrite bool_decide_eq_false_2, orb_false_r by apply not_elem_of_nil. done.
Qed.

Lemma alloc_inv_zones lv acc runs z :
  alloc_inv lv acc runs -> zones_moved (lv_zones lv) z -> alloc_inv (lv_set_zones lv z) acc runs.
Proof.
  intros [I1 I2 [J1 J2 J3 [J4 J4'] J5 J6 J7 J8] I4 I5] [Z1 Z2 Z3]. split; try done. split; try done; [by apply Z1|].
  cbn [lv_zones lv_set_zones]. split; [congruence|]. intros. rewrite Z2. by apply J4'.
Qed.

(** What the search of a window starts with. *)
Lemma window_entry lv acc runs p buf l g :
  alloc_inv lv acc runs -> 0 <= p ->
  ntfs_attr_pread (lv_na lv) p LCNBMP_ALLOC_SIZE = Ok buf ->
  exists buf', (match lv_fsck lv with
      | Some fk => ntfs_fsck_or_alloc_lcnbmp (nr_clusters vol) (fk_alloc fk) p (zlen buf) buf
      | None => Ok buf end) = Ok buf' /\ zlen buf' = zlen buf /\ 8 * p + 8 * zlen buf <= Z.max M (8 * p) /\
    window_inv start_vcn count lv0 (lv_na lv) (8 * p) (zlen buf) runs (mk_window lv acc buf' l g false) runs.
Proof.
  intros [I1 I2 I3 I4 I5] Hp E. rewrite pread_value in E by (unfold LCNBMP_ALLOC_SIZE; lia).
  injection E as E. set (V := attr_value (lv_na lv)) in *.
  assert (8 * p + 8 * zlen buf <= Z.max M (8 * p)) as Hlen.
  { rewrite <- I1, <- E. unfold zlen. rewrite length_take, length_drop. lia. }
  assert (forall j, 0 <= j < 8 * zlen buf -> gbit buf j = gbit V (8 * p + j)) as Gb.
  { intros j Hj. unfold gbit. rewrite <- E. rewrite lookup_take_lt, lookup_drop.
    - replace (Z.to_nat p + Z.to_nat (j / 8))%nat with (Z.to_nat ((8 * p + j) / 8)) by dlia.
      by replace ((8 * p + j) mod 8) with (j mod 8) by dlia.
    - rewrite <- E in Hj. unfold zlen in Hj. rewrite length_take in Hj. dlia. }
  assert (exists buf', (match lv_fsck lv with
      | Some fk => ntfs_fsck_or_alloc_lcnbmp (nr_clusters vol) (fk_alloc fk) p (zlen buf) buf
      | None => Ok buf end) = Ok buf' /\ zlen buf' = zlen buf /\
    forall j, 0 <= j < 8 * zlen buf -> gbit buf' j = gbit buf j || oracle lv (8 * p + j)) as (buf' & E' & L' & G').
  { pose proof (rv_fsck _ _ _ _ I3) as Hf. unfold fsck_state_ok, oracle in *. destruct (lv_fsck lv) as [fk|].
    - destruct Hf as (_ & Hal & _). destruct (Z_le_gt_dec (zlen V) p) as [Hpast|Hin].
      { assert (zlen buf = 0) as Ez.
        { rewrite <- E. unfold zlen. rewrite length_take, length_drop. unfold zlen in Hpast. lia. }
        exists buf. rewrite Ez. split; [done|]. split; [done|]. intros; lia. }
      destruct (or_alloc_loop_spec nr (fk_alloc fk) p (zlen buf) (Z.to_nat (zlen buf)) buf 0) as (buf' & E' & L' & G');
        try done; try lia; [|pose proof (lo_cover _ _ Hok); pose proof (zlen_nonneg buf); lia..|].
      + pose proof (lo_cover _ _ Hok). lia.
      + exists buf'. split; [done|]. split; [done|]. intros j Hj. rewrite G' by lia. by zdec.
    - exists buf. split; [done|]. split; [done|]. intros. by rewrite orb_false_r. }
  exists buf'. split; [done|]. split; [done|]. split; [done|].
  split; cbn [w_lv w_acc w_buf w_lcn w_guess w_writeback]; try done.
  - intros x Hx. destruct (I2 x Hx) as (B1 & B2 & B3). unfold eff. rewrite L'.
    destruct ((8 * p <=? x) && (x <? 8 * p + 8 * zlen buf)) eqn:Ein; [|done].
    apply andb_true_iff in Ein as [Ex1%Z.leb_le Ex2%Z.ltb_lt].
    rewrite G', Gb by lia. replace (8 * p + (x - 8 * p)) with x by lia. rewrite (rv_oracle _ _ _ _ I3).
    change (gbit V x) with (bm_bit lv x). split; [intros; by rewrite B1|]. split; [intros; by rewrite B2|].
    intros [?|?]%orb_true_iff; [by apply B3|by right; left].
  - intros j Hj Ho. rewrite G', (rv_oracle _ _ _ _ I3), Ho by done. apply orb_true_r.
Qed.

Lemma writeback_spec lv acc runs0 p n w runs :
  alloc_inv lv acc runs0 -> 0 <= p -> 8 * p + 8 * n <= M ->
  window_inv start_vcn count lv0 (lv_na lv) (8 * p) n runs0 w runs ->
  exists na', bitmap_writeback (lv_na (w_lv w)) p (w_buf w) (w_writeback w) = Ok (na', true) /\
    alloc_inv (lv_set_na (w_lv w) na') (w_acc w) runs.
Proof.
  intros [I1 I2 I3 I4 I5] Hp Hn [W1 W2 W3 W4 W5 W6 W7 W8]. unfold bitmap_writeback. rewrite W1.
  destruct W5 as [J1 J2 J3 J4 J5 J6 J7 J8].
  destruct (w_writeback w); cbn [negb].
  - destruct (write_window (lv_na lv) p (w_buf w)) as (na' & -> & L & G); [done|lia|].
    exists na'. rewrite Z.eqb_refl. split; [done|]. split; try done; [cbn; lia|].
    intros x Hx. destruct (W3 x Hx) as (B1 & B2 & B3). unfold bm_bit at 2 3 4. cbn [lv_na lv_set_na].
    rewrite (G x Hx), Z.mul_add_distr_l. done.
  - exists (lv_na lv). specialize (W8 eq_refl) as ->. split; [done|]. split; try done.
Qed.

(** ** How the call ends *)

Definition alloc_success lv (rl : runlist) : Prop := exists runs tail,
  rl = runs ++ mk_rle (start_vcn + count) LCN_RL_NOT_MAPPED 0 :: tail /\ contig start_vcn runs /\
  Forall (fun r => 0 <= lcn r) runs /\ zlen (rl_clusters runs) = count /\
  zlen (attr_value (lv_na lv)) = zlen (attr_value (lv_na lv0)) /\
  bits_inv lv0 (bm_bit lv) runs /\ runs_inv count lv0 lv runs.

(** The volume is as before, but for bits of clusters that fsck knows to be in
    use. *)
Record alloc_undone lv : Prop := {
  au_zones : zones_ok (lv_zones lv);
  au_free : NVolFreeSpaceKnown (lv_zones lv0) = true -> free_covers count lv0 -> free_clusters (lv_zones lv0) < 2 ^ 63 ->
    free_clusters (lv_zones lv) = free_clusters (lv_zones lv0);
  au_len : zlen (attr_value (lv_na lv)) = zlen (attr_value (lv_na lv0));
  au_has : has_fsck lv = has_fsck lv0;
  au_ok : fsck_state_ok lv;
  au_oracle : forall x, oracle lv x = oracle lv0 x;
  au_bm : forall x, 0 <= x -> (bm_bit lv0 x = true -> bm_bit lv x = true) /\
    (bm_bit lv x = true -> bm_bit lv0 x = true \/ oracle lv0 x = true);
  au_fsck : forall x, 0 <= x -> fsck_bit lv x = fsck_bit lv0 x
}.

Lemma terminate_rl_spec acc runs :
  acc_ok start_vcn count acc runs -> acc_closed acc runs -> runs <> [] -> 0 <= clusters acc ->
  exists tail, terminate_rl acc = Ok (runs ++ mk_rle (runs_end start_vcn runs) LCN_RL_NOT_MAPPED 0 :: tail).
Proof.
  intros [(tail & Em) Ep Sz Cg La Lc Cn] Hcl Hne Hcls. destruct Hcl as [[? _]|[_ Hr]]; [done|].
  destruct La as [?|(R & v & E)]; [done|]. rewrite Em, zlen_app in Hr.
  destruct tail as [|t tail]; [rewrite zlen_nil in Hr; lia|]. exists tail. unfold terminate_rl.
  assert (rlpos acc - 1 = zlen R) as -> by (subst runs; zlen_solve).
  rewrite Em, Ep. rewrite E at 1. rewrite <- app_assoc. cbn [app].
  rewrite (aget_mid R _ _ (zlen R)) by done. cbn [mbind res_bind vcn len].
  rewrite (aset_mid runs t tail (zlen runs)) by done. do 4 f_equal.
  pose proof (runs_end_clusters _ _ Cg) as He. rewrite E in He, Cg. apply contig_app in Cg as [C1 C2].
  cbn [contig vcn len] in C2. destruct C2 as (Ev & P & _). rewrite E, runs_end_app in *. cbn [runs_end len] in *.
  pose proof (contig_end_ge _ _ C1). rewrite Ev. apply s64_small. lia.
Qed.

Lemma runs_bounds runs : contig start_vcn runs -> Forall (fun r => 0 <= lcn r) runs ->
  Forall (available vol lv0) (rl_clusters runs) ->
  Forall (fun r => 0 <= lcn r /\ 0 < len r /\ lcn r + len r <= nr) runs.
Proof.
  generalize start_vcn as v. induction runs as [|r runs IH]; intros v; [constructor|].
  cbn [contig]. intros (_ & P & C) [L1 L2]%Forall_cons_1. change (r :: runs) with ([r] ++ runs).
  rewrite rl_clusters_app, rl_clusters_one. intros [F1 F2]%Forall_app. cbn [app].
  constructor; [|by apply (IH (v + len r))]. rewrite list.Forall_forall in F1.
  destruct (F1 (lcn r + len r - 1)) as [? _]; [apply elem_of_seqZ; lia|]. lia.
Qed.

Lemma err_ret_spec lv acc runs err :
  alloc_inv lv acc runs -> 0 <= clusters acc ->
  exists lv', err_ret vol lv acc err = Ok (Return lv' (inr err)) /\ alloc_undone lv'.
Proof.
  intros [I1 I2 [J1 J2 J3 [J4 J4'] J5 J6 J7 J8] I4 I5] Hc. unfold err_ret.
  pose proof I5 as [[-> Ea]|[Hne _]].
  - rewrite Ea. exists lv. split; [done|]. split; try done.
    + intros Hk Hcov _. pose proof (Hcov [] ltac:(constructor) ltac:(constructor) ltac:(rewrite zlen_nil; lia)) as H0. rewrite J4', zlen_nil by done. lia.
    + intros x Hx. destruct (I2 x Hx) as (B1 & B2 & B3). split; [done|]. intros H.
      destruct (B3 H) as [?|[?|?%not_elem_of_nil]]; tauto.
    + intros x Hx. rewrite (J8 x Hx), bool_decide_eq_false_2, orb_false_r by apply not_elem_of_nil. done.
  - destruct (terminate_rl_spec acc runs I4 I5 Hne Hc) as (tail & ->).
    assert (exists a l, a_rl acc = a :: l) as (a & l & ->).
    { destruct (ao_mem _ _ _ _ I4) as (t & ->). destruct runs; [done|]. by eexists _, _. }
    cbn [mbind res_bind]. unfold ntfs_cluster_free_from_rl.
    assert (zlen (rl_clusters runs) <= count) by (rewrite (ao_count _ _ _ _ I4) in Hc; lia).
    destruct (free_loop_spec (mk_rle (runs_end start_vcn runs) LCN_RL_NOT_MAPPED 0) tail runs lv 0)
      as (lv' & -> & [F1 F2 F3 F4 F5 F6 F7]); try done; try lia.
    + pose proof (lo_cover _ _ Hok). lia.
    + apply runs_bounds; [apply I4..|done].
    + cbn [mbind res_bind]. eexists. split; [done|]. destruct F1 as [Z1 Z2 Z3].
      rewrite list.Forall_forall in J2. unfold add_free.
      split; cbn [lv_zones lv_set_zones lv_na]; try done.
      * by apply Z1.
      * intros Hk Hcov Hfree. pose proof (Hcov _ J1 ltac:(by apply list.Forall_forall) ltac:(lia)) as H0. pose proof (zlen_nonneg (rl_clusters runs)).
        cbn. rewrite Z2, J4' by done. rewrite s64_small; lia.
      * congruence.
      * change (has_fsck lv' = has_fsck lv0). congruence.
      * intros x. change (oracle lv' x = oracle lv0 x). by rewrite F5.
      * intros x Hx. change (bm_bit (lv_set_zones lv' _) x) with (bm_bit lv' x). rewrite (F6 x Hx).
        destruct (I2 x Hx) as (B1 & B2 & B3). destruct (bool_decide (x ∈ rl_clusters runs)) eqn:Ex; cbn.
        -- apply bool_decide_eq_true_1 in Ex. destruct (J2 x Ex) as (_ & ? & _). rewrite andb_false_r.
           split; [congruence|done].
        -- apply bool_decide_eq_false_1 in Ex. rewrite andb_true_r. split; [done|]. intros Hb.
           destruct (B3 Hb) as [?|[?|?]]; tauto.
      * intros x Hx. change (fsck_bit (lv_set_zones lv' _) x) with (fsck_bit lv' x). rewrite (F7 x Hx), (J8 x Hx).
        destruct (bool_decide (x ∈ rl_clusters runs)) eqn:Ex; cbn; [|by rewrite orb_false_r, andb_true_r].
        apply bool_decide_eq_true_1 in Ex. destruct (J2 x Ex) as (_ & ? & ?). rewrite andb_false_r.
        destruct (fsck_bit lv0 x) eqn:Ef; [|done]. destruct (lo_marked _ _ Hok x Hx Ef); congruence.
Qed.

(** ** The search *)

(** The zone searched, the zones finished, and how many zones may follow. *)
Inductive zone_state : Z -> Z -> Z -> Prop :=
  | zs_data2 : zone_state ZONE_DATA2 0 3
  | zs_data2_data1 : zone_state ZONE_DATA1 4 2
  | zs_data2_again : zone_state ZONE_DATA2 6 1
  | zs_last_mft : zone_state ZONE_MFT 6 0
  | zs_data1 : zone_state ZONE_DATA1 0 2
  | zs_data1_data2 : zone_state ZONE_DATA2 2 1
  | zs_mft : zone_state ZONE_MFT 0 2
  | zs_mft_data1 : zone_state ZONE_DATA1 1 1
  | zs_last_data2 : zone_state ZONE_DATA2 3 0.

Record search_ok (s : search) (k : Z) : Prop := {
  so_zone : zone_state (search_zone s) (done_zones s) k;
  so_pass : pass s = 1 \/ pass s = 2;
  so_pos : 0 <= bmp_pos s /\ 0 <= zone_start s
}.

(** The remaining steps: zones, passes, a hint, and positions. *)
Definition alloc_rank (s : search) (k : Z) : Z :=
  ((k * 2 + Z.b2z (pass s =? 1)) * 2 + Z.b2z (negb (used_zone_pos s))) * (M + 1) + Z.max 0 (M - bmp_pos s).

Lemma zone_state_nonneg zone done k : zone_state zone done k -> 0 <= k <= 3.
Proof. destruct 1; lia. Qed.

(** Either the zone was the last, or the zone that follows has a smaller rank. *)
Lemma zone_state_next z zone done k :
  zone_state zone done k -> zones_ok z ->
  let done' := Z.lor done zone in
  (done' <? 7) = false \/ (done' <? 7) = true /\ exists k' zone' e first, next_zone vol z zone done' = (zone', e, first) /\
    zone_state zone' done' k' /\ k' < k.
Proof.
  intros H _. destruct H; cbn zeta; try (left; reflexivity); right; (split; [reflexivity|]).
  - exists 2, ZONE_DATA1. do 2 eexists. split; [reflexivity|]. split; [constructor|lia].
  - exists 1, ZONE_DATA2. do 2 eexists. split; [reflexivity|]. split; [constructor|lia].
  - exists 0, ZONE_MFT. do 2 eexists. split; [reflexivity|]. split; [constructor|lia].
  - exists 1, ZONE_DATA2. do 2 eexists. split; [reflexivity|]. split; [constructor|lia].
  - exists 0, ZONE_MFT. do 2 eexists. split; [reflexivity|]. split; [constructor|lia].
  - exists 1, ZONE_DATA1. do 2 eexists. split; [reflexivity|]. split; [constructor|lia].
  - exists 0, ZONE_DATA2. do 2 eexists. split; [reflexivity|]. split; [constructor|lia].
Qed.

Lemma zone_pos_nonneg z zone : zones_ok z -> 0 <= zone_pos z zone /\ 0 <= zone_first z zone.
Proof. intros (Z1 & Z2 & Z3 & Z4 & Z5). unfold zone_pos, zone_first. by zcase. Qed.

Lemma last_run acc runs : acc_ok start_vcn count acc runs -> (rlpos acc =? 0) = false ->
  exists r, aget (a_rl acc) (rlpos acc - 1) = Ok r.
Proof.
  intros [(tail & ->) -> _ _ _ _ _] Hne%Z.eqb_neq. apply aget_total. rewrite zlen_app.
  pose proof (zlen_nonneg tail). pose proof (zlen_nonneg runs). lia.
Qed.

Lemma done_zones_spec acc runs : acc_ok start_vcn count acc runs -> forall fuel z s k,
  zones_ok z -> search_ok s k -> k < Z.of_nat fuel ->
  exists z' next, done_zones_check vol fuel z acc s = Ok (z', next) /\ zones_moved z z' /\
    match next with Some s' => exists k', search_ok s' k' /\ k' < k | None => True end.
Proof.
  intros Hacc. induction fuel as [|fuel IH]; intros z s k Hz [Hs Hp Hb] Hf.
  { pose proof (zone_state_nonneg _ _ _ Hs). lia. }
  cbn [done_zones_check]. set (z1 := set_full z _). assert (zones_moved z z1) as M1 by apply set_full_moved.
  destruct (zone_state_next z1 _ _ _ Hs (zm_ok _ _ M1 Hz)) as [Hend'|[Hgo _]];
    change (ZONE_MFT + ZONE_DATA1 + ZONE_DATA2) with 7; cbn zeta in *.
  { rewrite Hend'. exists z1, None. done. }
  rewrite Hgo.
  assert (exists z2, (if negb (rlpos acc =? 0) then
     p ← aget (a_rl acc) (rlpos acc - 1);
     Ok (if used_zone_pos s
         then ntfs_cluster_update_zone_pos vol z1 (search_zone s) (s64 (lcn p + len p + NTFS_LCNALLOC_SKIP))
         else z1) else Ok z1) = Ok z2 /\ zones_moved z1 z2) as (z2 & -> & M2).
  { destruct (rlpos acc =? 0) eqn:Er; cbn [negb]; [exists z1; by split|].
    destruct (last_run acc runs Hacc Er) as (r & ->). cbn [mbind res_bind]. eexists. split; [done|].
    destruct (used_zone_pos s); [apply update_zone_pos_moved|apply zones_moved_refl]. }
  cbn [mbind res_bind]. assert (zones_moved z z2) as M12 by (by eapply zones_moved_trans).
  pose proof (zm_ok _ _ M12 Hz) as Hz2.
  destruct (zone_state_next z2 _ _ _ Hs Hz2) as [Hend'|(_ & k' & zone' & e & first & -> & Hs' & Hk')];
    [cbn zeta in *; congruence|].
  destruct (zone_pos_nonneg z2 zone' Hz2) as [Hpos _].
  assert (search_ok (mk_search (zone_pos z2 zone') e (zone_pos z2 zone') (if first then 2 else 1) zone'
    (Z.lor (done_zones s) (search_zone s)) (has_guess s) (used_zone_pos s)) k') as Hso.
  { split; cbn; [done| |done]. destruct first; [by right|by left]. }
  destruct (_ =? e).
  - destruct (IH z2 _ k' Hz2 Hso) as (z3 & next & -> & M3 & Hn); [lia|].
    exists z3, next. split; [done|]. split; [by eapply zones_moved_trans|].
    destruct next; [|done]. destruct Hn as (k'' & ? & ?). exists k''. split; [done|lia].
  - exists z2. eexists. split; [done|]. split; [done|]. exists k'. done.
Qed.

(** What a step of the search may do when fewer than [bound] steps remain. *)
Definition step_post (bound : Z) (r : alloc_result (A := A)) : Prop :=
  match r with
  | Go lv s acc => exists runs k, alloc_inv lv acc runs /\ 0 < clusters acc /\ search_ok s k /\ alloc_rank s k < bound
  | Return lv (inl rl) => alloc_success lv rl
  | Return lv (inr e) => e = ENOSPC /\ alloc_undone lv
  end.

Lemma pass_done_spec lv s acc runs k :
  alloc_inv lv acc runs -> 0 < clusters acc -> search_ok s k ->
  exists r, pass_done vol lv s acc = Ok r /\ step_post ((k * 2 + Z.b2z (pass s =? 1)) * 2 * (M + 1)) r.
Proof.
  intros Hi Hc Hs. pose proof (rv_zones _ _ _ _ (ai_runs _ _ _ Hi)) as Hz.
  pose proof (zlen_nonneg (attr_value (lv_na lv0))) as HM.
  assert (exists z next, zone_pass_done vol (lv_zones lv) acc s = Ok (z, next) /\ zones_moved (lv_zones lv) z /\
    match next with
    | Some s' => exists k', search_ok s' k' /\ alloc_rank s' k' < (k * 2 + Z.b2z (pass s =? 1)) * 2 * (M + 1)
    | None => True end) as (z & next & E & Mz & Hn).
  { unfold zone_pass_done. pose proof (zone_state_nonneg _ _ _ (so_zone _ _ Hs)). destruct (Z.eqb_spec (pass s) 1) as [Hp|Hp].
    - eexists _, _. split; [done|]. split; [apply zones_moved_refl|]. exists k.
      destruct (zone_pos_nonneg _ (search_zone s) Hz) as [_ Hfirst]. split.
      + split; cbn; [apply Hs|by right|done].
      + unfold alloc_rank. cbn [pass used_zone_pos bmp_pos]. change (2 =? 1) with false. cbn [Z.b2z].
        destruct (used_zone_pos s); cbn [negb Z.b2z]; nia.
    - destruct (done_zones_spec acc runs (ai_acc _ _ _ Hi) 8 (lv_zones lv) s k) as (z & next & E & Mz & Hn); [done..|lia|].
      exists z, next. split; [done|]. split; [done|]. destruct next as [s'|]; [|done]. destruct Hn as (k' & Hs' & Hk').
      exists k'. split; [done|]. pose proof (zone_state_nonneg _ _ _ (so_zone _ _ Hs')).
      destruct (so_pos _ _ Hs'). unfold alloc_rank. cbn [Z.b2z].
      destruct (pass s' =? 1), (used_zone_pos s'); cbn [negb Z.b2z]; nia. }
  unfold pass_done. rewrite E. cbn [mbind res_bind]. pose proof (alloc_inv_zones _ _ _ z Hi Mz) as Hi'.
  destruct next as [s'|].
  - eexists. split; [done|]. destruct Hn as (k' & Hs' & Hr). exists runs, k'. done.
  - destruct (err_ret_spec _ _ _ ENOSPC Hi') as (lv' & -> & Hu); [lia|]. eexists. split; [done|]. by split.
Qed.

Lemma step_post_mono b1 b2 r : b1 <= b2 -> step_post b1 r -> step_post b2 r.
Proof.
  intros Hb. destruct r as [lv s acc|lv [rl|e]]; cbn; [|done..].
  intros (runs & k & H1 & H2 & H3 & H4). exists runs, k. split_and!; done || lia.
Qed.

(** All clusters are found. *)
Lemma alloc_finish lv acc runs z rl :
  alloc_inv lv acc runs -> clusters acc = 0 -> zones_moved (lv_zones lv) z -> terminate_rl acc = Ok rl ->
  alloc_success (lv_set_zones lv z) rl.
Proof.
  intros Hi Hc Hm E. pose proof (alloc_inv_zones _ _ _ _ Hi Hm) as [I1 I2 I3 I4 I5].
  assert (zlen (rl_clusters runs) = count) as Hlen by (pose proof (ao_count _ _ _ _ I4); lia).
  assert (runs <> []) as Hne by (intros ->; rewrite zlen_nil in Hlen; lia).
  destruct (terminate_rl_spec acc runs I4 I5 Hne) as (tail & E'); [lia|].
  rewrite E in E'. injection E' as ->. exists runs, tail.
  rewrite (runs_end_clusters _ _ (ao_contig _ _ _ _ I4)), Hlen. split; [done|]. split; [apply I4|]. split; [apply I4|].
  done.
Qed.

(** The position after a window. *)
Lemma next_window_ok z s k n g :
  zones_ok z -> search_ok s k -> 0 < n -> bmp_pos s < M ->
  let s' := next_window z s (8 * (bmp_pos s / 8)) (n * 8) g in
  search_ok s' k /\ alloc_rank s' k < alloc_rank s k /\ Z.b2z (pass s' =? 1) <= Z.b2z (pass s =? 1).
Proof.
  intros Hz [S1 S2 [S3 S3']] Hn Hpos. pose proof (zone_state_nonneg _ _ _ S1). cbn zeta. unfold next_window.
  destruct (zone_pos_nonneg z (search_zone s) Hz) as [Hzp _].
  destruct (used_zone_pos s) eqn:Eu; cbn [negb].
  - split; [split; cbn; done || dlia|]. split; [|cbn; lia]. unfold alloc_rank. cbn [pass used_zone_pos bmp_pos]. rewrite Eu.
    apply Z.add_lt_mono_l. dlia.
  - set (p := if _ || _ || _ then 2 else pass s). assert (p = 2 \/ p = pass s) as Hp by (unfold p; destruct (_ || _); auto).
    split; [split; cbn; [done| |done]; destruct Hp as [->| ->]; auto|].
    assert (Z.b2z (p =? 1) <= Z.b2z (pass s =? 1)) as Hle by (destruct Hp as [->| ->]; [by destruct (pass s =? 1)|lia]).
    split; [|done]. unfold alloc_rank. cbn [pass used_zone_pos bmp_pos negb Z.b2z]. rewrite Eu. cbn [negb Z.b2z]. nia.
Qed.

Lemma rank_ge_pass s k : (k * 2 + Z.b2z (pass s =? 1)) * 2 * (M + 1) <= alloc_rank s k.
Proof.
  pose proof (zlen_nonneg (attr_value (lv_na lv0))). unfold alloc_rank.
  destruct (used_zone_pos s); cbn [negb Z.b2z]; lia.
Qed.

Lemma alloc_step_spec lv s acc runs k :
  alloc_inv lv acc runs -> 0 < clusters acc -> search_ok s k ->
  exists r, alloc_step vol start_vcn lv s acc = Ok r /\ step_post (alloc_rank s k) r.
Proof.
  intros Hi Hc Hs. unfold alloc_step.
  assert (forall lv' acc' runs' s', alloc_inv lv' acc' runs' -> 0 < clusters acc' -> search_ok s' k ->
    Z.b2z (pass s' =? 1) <= Z.b2z (pass s =? 1) ->
    exists r, pass_done vol lv' s' acc' = Ok r /\ step_post (alloc_rank s k) r) as Pass.
  { intros lv' acc' runs' s' Hi' Hc' Hs' Hle. destruct (pass_done_spec lv' s' acc' runs' k Hi' Hc' Hs') as (r & E & P).
    exists r. split; [done|]. eapply step_post_mono; [|exact P]. pose proof (rank_ge_pass s k).
    pose proof (zlen_nonneg (attr_value (lv_na lv0))). nia. }
  destruct (_ =? 0); cbn [negb]; [|by apply (Pass _ _ runs)].
  destruct (so_pos _ _ Hs) as [Hb _]. rewrite shiftr3, land7, land_not7. set (p := bmp_pos s / 8).
  assert (0 <= p) as Hp by (unfold p; dlia).
  destruct (ntfs_attr_pread (lv_na lv) p LCNBMP_ALLOC_SIZE) as [buf| |] eqn:Er;
    [|rewrite pread_value in Er by (unfold LCNBMP_ALLOC_SIZE; lia); done..].
  destruct buf as [|b0 bs]; [by apply (Pass _ _ runs)|]. set (buf := b0 :: bs) in *.
  assert (1 <= zlen buf) as Hbuf by (unfold buf; rewrite zlen_cons; pose proof (zlen_nonneg bs); lia).
  destruct (window_entry lv acc runs p buf (bmp_pos s mod 8) (has_guess s) Hi Hp Er) as (buf' & -> & Lb & Hlen & Hw).
  cbn [mbind res_bind]. assert (8 * p + 8 * zlen buf <= M) as HlenM by lia.
  destruct (window_loop_spec (lv_na lv) (8 * p) (zlen buf) runs ltac:(lia) HlenM (length buf' * 8 + 2) _ runs Hw)
    as (w & e & runs' & -> & Hw' & He); [cbn; dlia|done| |].
  { unfold window_rank. cbn [w_guess w_lcn]. unfold zlen in Lb. unfold zlen. destruct (has_guess s); dlia. }
  cbn [mbind res_bind].
  destruct (writeback_spec lv acc runs p (zlen buf) w runs' Hi Hp HlenM Hw') as (na' & Ewb & Hi').
  destruct e.
  - destruct He as [Hc0 Hl].
    destruct (terminate_rl_spec (w_acc w) runs') as (tail & Et); [apply Hw'|apply Hw'| |lia|].
    { intros ->. pose proof (ao_count _ _ _ _ (wi_acc _ _ _ _ _ _ _ _ _ Hw')) as Hcnt. rewrite zlen_nil in Hcnt. lia. }
    rewrite Et. cbn [mbind res_bind]. rewrite Ewb. cbn [mbind res_bind]. eexists. split; [done|].
    change (lv_set_na (lv_set_zones (w_lv w) ?z) na') with (lv_set_zones (lv_set_na (w_lv w) na') z).
    apply (alloc_finish _ (w_acc w) runs'); [done|done| |done].
    destruct (used_zone_pos s); [apply update_zone_pos_moved|apply zones_moved_refl].
  - rewrite Ewb. cbn [mbind res_bind negb]. rewrite Lb.
    assert (bmp_pos s < M) as HbM by (unfold p in *; dlia).
    destruct (next_window_ok (lv_zones (lv_set_na (w_lv w) na')) s k (zlen buf) (w_guess w)) as (N1 & N2 & N3);
      [apply Hi'|done|lia|done|]. fold p in N1, N2, N3.
    set (s' := next_window _ _ _ _ _) in *. destruct (_ <? _).
    + eexists. split; [done|]. exists runs', k. done.
    + by apply (Pass _ _ runs').
  - done.
Qed.

Lemma alloc_loop_spec : forall fuel lv s acc runs k,
  alloc_inv lv acc runs -> 0 < clusters acc -> search_ok s k -> alloc_rank s k < Z.of_nat fuel ->
  exists lv' r, alloc_loop vol fuel start_vcn lv s acc = Ok (lv', r) /\
    match r with inl rl => alloc_success lv' rl | inr e => e = ENOSPC /\ alloc_undone lv' end.
Proof.
  induction fuel as [|fuel IH]; intros lv s acc runs k Hi Hc Hs Hf.
  { pose proof (rank_ge_pass s k). pose proof (zone_state_nonneg _ _ _ (so_zone _ _ Hs)).
    pose proof (zlen_nonneg (attr_value (lv_na lv0))). destruct (pass s =? 1); cbn [Z.b2z] in *; nia. }
  cbn [alloc_loop]. destruct (alloc_step_spec lv s acc runs k Hi Hc Hs) as (r & -> & Hr). cbn [mbind res_bind].
  destruct r as [lv1 s1 acc1|lv1 r]; cbn [step_post] in Hr.
  - destruct Hr as (runs1 & k1 & H1 & H2 & H3 & H4). apply (IH _ _ _ runs1 k1); try done. lia.
  - exists lv1, r. split; [done|]. by destruct r.
Qed.

Lemma cluster_alloc_spec start_lcn zone : -1 <= start_lcn ->
  exists lv' r, ntfs_cluster_alloc vol lv0 start_vcn count start_lcn zone = Ok (lv', r) /\
    match r with inl rl => alloc_success lv' rl | inr e => e = ENOSPC /\ alloc_undone lv' end.
Proof.
  intros Hl. unfold ntfs_cluster_alloc. rewrite !Hheap. zdec.
  assert (exists k, search_ok (alloc_init vol (lv_zones lv0) start_lcn zone) k /\
    alloc_rank (alloc_init vol (lv_zones lv0) start_lcn zone) k < 16 * (M + 1)) as (k & Hs & Hr).
  { destruct (lo_zones _ _ Hok) as (Z1 & Z2 & Z3 & Z4 & Z5). unfold alloc_init.
    set (start := if 0 <=? start_lcn then _ else _).
    assert (0 <= start) as H0 by (unfold start; destruct (Z.leb_spec 0 start_lcn); [done|by destruct zone]).
    set (p := if _ || _ || _ then 2 else 1). assert (p = 1 \/ p = 2) as Hp by (unfold p; destruct (_ || _); auto).
    pose proof (zlen_nonneg (attr_value (lv_na lv0))).
    destruct (start <? mft_zone_start (lv_zones lv0)); [exists 3|destruct (start <? mft_zone_end (lv_zones lv0)); exists 2];
      (split; [by split; cbn; [constructor| |]|]); unfold alloc_rank; cbn [pass used_zone_pos bmp_pos];
      destruct (p =? 1), (negb _); cbn [Z.b2z]; lia. }
  apply (alloc_loop_spec _ _ _ _ [] k); [apply alloc_inv_init|done|done|].
  unfold alloc_fuel. lia.
Qed.

End search.
End alloc_proof.
