(* ===== verification/LcnAllocProps.v ===== *)
(** What the cluster allocator guarantees (libntfs/lcnalloc.c): the clusters it
    hands out, its errors, its termination, the invariant of the volume, and
    that freeing takes an allocation back.  The proofs apply the lemmas of
    LcnAllocThm.v. *)

From S2P Require Import Prelude Volume AttrIO Runlist Bitmap Fsck LcnAlloc FsckThm FsckRead LcnSearch LcnAllocThm.

Section props.
Context {HP : Heap} (Hheap : forall n, heap_grants n = true).
Context {A : Type} {IO : AttrIO A} {LAWS : AttrIOLaws A} (vol : ntfs_volume).
Context (Hnr : 0 <= nr_clusters vol <= 2 ^ 32) (Hmft : 0 <= mft_lcn vol).
Implicit Types lv : lcn_vol A.

(** The invariant after an allocation. *)
Lemma success_lv_ok start_vcn count lv lv' rl :
  lv_ok vol lv -> alloc_success vol start_vcn count lv lv' rl -> lv_ok vol lv'.
Proof.
  intros Hok (runs & tail & _ & _ & _ & _ & Hlen & Hb & [J1 J2 J3 J4 J5 J6 J7 J8]).
  split; [done|rewrite Hlen; apply Hok| |done|].
  - intros x Hx. destruct (Hb x) as (B1 & _); [lia|]. apply B1, (lo_pad _ _ Hok). by rewrite <- Hlen.
  - intros x Hx. rewrite (J8 x Hx). destruct (Hb x Hx) as (B1 & B2 & _).
    intros [Hf|[Hin%bool_decide_eq_true_1 _]%andb_true_iff]%orb_true_iff; [|left; auto].
    rewrite J7. destruct (lo_marked _ _ Hok x Hx Hf); [left; auto|by right].
Qed.

Lemma undone_lv_ok count lv lv' : lv_ok vol lv -> alloc_undone vol count lv lv' -> lv_ok vol lv'.
Proof.
  intros Hok [U1 U2 U3 U4 U5 U6 U7 U8]. split; [done|rewrite U3; apply Hok| |done|].
  - intros x Hx. destruct (U7 x) as [B1 _]; [lia|]. apply B1, (lo_pad _ _ Hok). by rewrite <- U3.
  - intros x Hx. rewrite (U8 x Hx), U6. intros Hf. destruct (U7 x Hx).
    destruct (lo_marked _ _ Hok x Hx Hf); [left; auto|by right].
Qed.

(** Freeing a runlist of clusters of the volume. *)
Definition on_volume (runs : runlist) : Prop :=
  Forall (fun r => 0 <= lcn r /\ 0 < len r /\ lcn r + len r <= nr_clusters vol) runs.

Lemma free_rl_spec lv runs term tail :
  lv_ok vol lv -> on_volume runs -> len term = 0 -> zlen (rl_clusters runs) < 2 ^ 63 ->
  exists lv', ntfs_cluster_free_from_rl vol lv (runs ++ term :: tail) = Ok lv' /\
    lv_freed vol lv (lv_set_zones lv' (set_free (lv_zones lv') (free_clusters (lv_zones lv)))) (rl_clusters runs) /\
    free_clusters (lv_zones lv') = s64 (free_clusters (lv_zones lv) + zlen (rl_clusters runs)).
Proof.
  intros Hok Hv Ht Hl. unfold ntfs_cluster_free_from_rl.
  destruct (free_loop_spec Hheap vol Hnr Hmft term tail runs lv 0) as (lv1 & -> & F);
    try done; try lia; [apply Hok|apply (lo_cover _ _ Hok)|].
  cbn [mbind res_bind]. eexists. split; [done|]. destruct F as [[Z1 Z2 Z3] F2 F3 F4 F5 F6 F7].
  split; [split; [split; cbn; done|done..]|]. cbn. by rewrite Z2.
Qed.

Lemma freed_lv_ok lv lv' xs :
  lv_ok vol lv -> lv_freed vol lv lv' xs -> Forall (fun x => x < nr_clusters vol) xs -> lv_ok vol lv'.
Proof.
  intros Hok [[Z1 _ _] F2 F3 F4 F5 F6 F7] Hxs. rewrite list.Forall_forall in Hxs.
  split; [apply Z1, Hok|rewrite F2; apply Hok| |done|].
  - intros x Hx. rewrite F6 by lia. rewrite (lo_pad _ _ Hok) by (by rewrite <- F2).
    rewrite bool_decide_eq_false_2; [done|]. intros Hin%Hxs. lia.
  - intros x Hx. rewrite (F7 x Hx), (F6 x Hx), F5. intros [Hf Hn]%andb_true_iff. rewrite Hn, andb_true_r.
    by apply (lo_marked _ _ Hok).
Qed.

Lemma on_volume_below runs : on_volume runs -> Forall (fun x => x < nr_clusters vol) (rl_clusters runs).
Proof.
  induction 1 as [|r runs (R1 & R2 & R3) _ IH]; [constructor|].
  change (r :: runs) with ([r] ++ runs). rewrite rl_clusters_app, rl_clusters_one. apply Forall_app. split; [|done].
  apply Forall_seqZ. intros; lia.
Qed.

End props.

(** ** Samples *)

(** A volume of 124 clusters, the last four bits of its bitmap are padding; a
    cluster in every second position of the first 32 is in use. *)
Definition small_vol : ntfs_volume := mk_volume 3 512 9 4096 12 1024 10 4096 12 124 992 4 60 4 false false.
Definition small_lv : lcn_vol (list Z) :=
  mk_lv (list Z) ([0x55; 0x55; 0x55; 0x55] ++ replicate 11 0 ++ [0xf0]) (mk_zones 4 20 4 20 0 0 108 true) None.

Lemma small_lv_ok : lv_ok small_vol small_lv.
Proof.
  split; try done.
  intros x Hx. assert (x = 124 \/ x = 125 \/ x = 126 \/ x = 127) as Hx' by (cbn in Hx; unfold zlen in Hx; cbn in Hx; lia).
  by destruct Hx' as [->|[->|[->| ->]]].
Qed.

(** A volume on fsck with two blocks, the second known to be in use. *)
Definition fsck_vol : ntfs_volume := mk_volume 3 512 9 4096 12 1024 10 4096 12 65664 525312 4 60 4 true false.
Definition fsck_lv : lcn_vol (list Z) :=
  mk_lv (list Z) (replicate (Z.to_nat 8208) 0) (mk_zones 4 8200 4 8200 0 0 65664 true)
    (Some (mk_fsck false (blocks_init 65664) 0 (mk_blocks [FbNull; FbOnes] [0; 0]))).

Lemma fsck_lv_ok : lv_ok fsck_vol fsck_lv.
Proof.
  split; try (by split_and!).
  - intros x Hx. exfalso. revert Hx. cbn [attr_value mem_attr lv_na fsck_lv]. unfold zlen. rewrite length_replicate. cbn. lia.
  - split; [|split; [|done]].
    + split; [apply blocks_init_ok|]. done.
    + split; [|done]. apply shared_blocks_ok; [done|]. by repeat constructor; auto.
  - intros x Hx. unfold fsck_bit. cbn [lv_fsck fsck_lv fk_lcn]. by rewrite blocks_init_free.
Qed.

Lemma oracle_none {A} (lv : lcn_vol A) x : has_fsck lv = false -> oracle lv x = false.
Proof. unfold has_fsck, oracle. by destruct (lv_fsck lv). Qed.

(** C9: the clusters that are handed out were free, are pairwise different, lie
    on the volume and belong to no inode that fsck knows of; the runlist maps
    [count] vcns from [start_vcn] on to them and has its terminator.  Without
    fsck the bitmap on the volume has exactly their bits set in addition; on
    fsck it has them set, and beyond them at most bits of clusters that fsck
    knows to be in use, which the code merges into what it writes back.  fsck's
    own bitmap has exactly them marked in addition. *)
Theorem cluster_alloc_correct `{Heap} {A} `{AttrIOLaws A} vol (lv lv' : lcn_vol A) start_vcn count start_lcn zone rl :
  (forall n, heap_grants n = true) -> 0 <= nr_clusters vol <= 2 ^ 32 -> 0 <= mft_lcn vol -> lv_ok vol lv ->
  0 <= start_vcn -> 0 < count -> start_vcn + count < 2 ^ 63 -> -1 <= start_lcn ->
  ntfs_cluster_alloc vol lv start_vcn count start_lcn zone = Ok (lv', inl rl) ->
  exists runs tail, rl = runs ++ mk_rle (start_vcn + count) LCN_RL_NOT_MAPPED 0 :: tail /\
    contig start_vcn runs /\ runs_end start_vcn runs = start_vcn + count /\ Forall (fun r => 0 <= lcn r) runs /\
    NoDup (rl_clusters runs) /\ Forall (available vol lv) (rl_clusters runs) /\
    forall x, 0 <= x ->
      (bm_bit lv x = true \/ x ∈ rl_clusters runs -> bm_bit lv' x = true) /\
      (bm_bit lv' x = true -> bm_bit lv x = true \/ oracle lv x = true \/ x ∈ rl_clusters runs) /\
      (has_fsck lv = false -> bm_bit lv' x = bm_bit lv x || bool_decide (x ∈ rl_clusters runs)) /\
      fsck_bit lv' x = fsck_bit lv x || bool_decide (x ∈ rl_clusters runs) && has_fsck lv.
Proof.
  intros Hh Hnr Hmft Hok Hv Hc Hvc Hl E.
  destruct (cluster_alloc_spec Hh vol Hnr Hmft start_vcn count lv Hok Hv Hvc Hc start_lcn zone Hl) as (lv1 & r & E1 & P).
  rewrite E in E1. injection E1 as <- <-. destruct P as (runs & tail & -> & C & L & Hn & Hlen & Hb & [J1 J2 _ _ _ _ _ J8]).
  exists runs, tail. split; [done|]. split; [done|]. split; [by rewrite runs_end_clusters, Hn|]. split_and!; [done..|].
  intros x Hx. destruct (Hb x Hx) as (B1 & B2 & B3). split; [intros [?|?]; auto|]. split; [done|]. split; [|by apply J8].
  intros Hf. apply eq_true_iff_eq. rewrite orb_true_iff, bool_decide_eq_true. split; [|intros [?|?]; auto]. intros [?|[Ho|?]]%B3; auto.
  by rewrite oracle_none in Ho.
Qed.

Lemma cluster_alloc_correct_witness :
  exists lv' runs tail,
    @ntfs_cluster_alloc ample_heap (list Z) mem_attr small_vol small_lv 10 7 3 DATA_ZONE =
      Ok (lv', inl (runs ++ mk_rle 17 LCN_RL_NOT_MAPPED 0 :: tail)) /\
    contig 10 runs /\ runs_end 10 runs = 17 /\ NoDup (rl_clusters runs) /\
    Forall (available small_vol small_lv) (rl_clusters runs) /\ bm_bit lv' 2 = true.
Proof.
  destruct (@ntfs_cluster_alloc ample_heap (list Z) mem_attr small_vol small_lv 10 7 3 DATA_ZONE)
    as [[lv' [rl|]]| |] eqn:E; [|vm_compute in E; discriminate..].
  destruct (@cluster_alloc_correct ample_heap (list Z) mem_attr mem_attr_laws small_vol small_lv lv' 10 7 3 DATA_ZONE rl)
    as (runs & tail & Er & C & Ce & L & N & Av & Hb);
    [done|cbn; lia|cbn; lia|apply small_lv_ok|lia|lia|lia|lia|exact E|].
  exists lv', runs, tail. split; [rewrite Er; reflexivity|]. split; [exact C|]. split; [exact Ce|].
  split; [exact N|]. split; [exact Av|]. destruct (Hb 2) as (H1 & _); [lia|]. apply H1. left. reflexivity.
Defined.

(** C20: the search through windows, passes and zones always ends, and the call
    returns a runlist or ENOSPC, from every state of the zones and with every
    hint. *)
Theorem cluster_alloc_terminates `{Heap} {A} `{AttrIOLaws A} vol (lv : lcn_vol A) start_vcn count start_lcn zone :
  (forall n, heap_grants n = true) -> 0 <= nr_clusters vol <= 2 ^ 32 -> 0 <= mft_lcn vol -> lv_ok vol lv ->
  0 <= start_vcn -> 0 < count -> start_vcn + count < 2 ^ 63 -> -1 <= start_lcn ->
  exists lv' r, ntfs_cluster_alloc vol lv start_vcn count start_lcn zone = Ok (lv', r) /\
    (r = inr ENOSPC \/ exists rl, r = inl rl).
Proof.
  intros Hh Hnr Hmft Hok Hv Hc Hvc Hl.
  destruct (cluster_alloc_spec Hh vol Hnr Hmft start_vcn count lv Hok Hv Hvc Hc start_lcn zone Hl) as (lv' & r & E & P).
  exists lv', r. split; [done|]. destruct r as [rl|e]; [right; by exists rl|left]. by destruct P as [-> _].
Qed.

Lemma cluster_alloc_terminates_witness :
  exists lv' r, @ntfs_cluster_alloc ample_heap (list Z) mem_attr fsck_vol fsck_lv 0 1000 (-1) MFT_ZONE = Ok (lv', r) /\
    (r = inr ENOSPC \/ exists rl, r = inl rl).
Proof.
  apply (@cluster_alloc_terminates ample_heap (list Z) mem_attr mem_attr_laws fsck_vol fsck_lv 0 1000 (-1) MFT_ZONE).
  - done.
  - cbn. lia.
  - cbn. lia.
  - apply fsck_lv_ok.
  - lia.
  - lia.
  - lia.
  - lia.
Defined.

(** C10: when the call fails, for whatever number of clusters, it returns ENOSPC
    and has freed everything it had taken: the bitmap on the volume is as before,
    up to clusters fsck knows to be in use, and fsck's bitmap is as before.  So is
    the count of free clusters, when it is known and not smaller than what can be
    taken ([free_covers]). *)
Theorem cluster_alloc_failure_undone `{Heap} {A} `{AttrIOLaws A} vol (lv lv' : lcn_vol A) start_vcn count start_lcn zone e :
  (forall n, heap_grants n = true) -> 0 <= nr_clusters vol <= 2 ^ 32 -> 0 <= mft_lcn vol -> lv_ok vol lv ->
  0 <= start_vcn -> 0 < count -> start_vcn + count < 2 ^ 63 -> -1 <= start_lcn ->
  ntfs_cluster_alloc vol lv start_vcn count start_lcn zone = Ok (lv', inr e) ->
  e = ENOSPC /\
  (NVolFreeSpaceKnown (lv_zones lv) = true -> free_covers vol count lv -> free_clusters (lv_zones lv) < 2 ^ 63 ->
     free_clusters (lv_zones lv') = free_clusters (lv_zones lv)) /\
  forall x, 0 <= x -> fsck_bit lv' x = fsck_bit lv x /\
    (bm_bit lv x = true -> bm_bit lv' x = true) /\
    (bm_bit lv' x = true -> bm_bit lv x = true \/ oracle lv x = true).
Proof.
  intros Hh Hnr Hmft Hok Hv Hc Hvc Hl E.
  destruct (cluster_alloc_spec Hh vol Hnr Hmft start_vcn count lv Hok Hv Hvc Hc start_lcn zone Hl) as (lv1 & r & E1 & P).
  rewrite E in E1. injection E1 as <- <-. destruct P as [-> [U1 U2 U3 U4 U5 U6 U7 U8]].
  split; [done|]. split; [by apply U2|]. intros x Hx. split; [by apply U8|]. by apply U7.
Qed.

(** The counter of the small volume is the number of its free clusters. *)
Lemma small_lv_covers count : free_covers small_vol count small_lv.
Proof.
  intros l Hnd Hav _. change (free_clusters (lv_zones small_lv)) with 108.
  assert (l ⊆+ filter (fun x => bm_bit small_lv x = false) (seqZ 0 (nr_clusters small_vol))) as Hsub%submseteq_length.
  { apply NoDup_submseteq; [done|]. intros x Hx. rewrite list.Forall_forall in Hav. destruct (Hav x Hx) as (Hr & Hb & _).
    apply list_elem_of_filter. split; [done|]. apply elem_of_seqZ. lia. }
  unfold zlen. etransitivity; [apply inj_le, Hsub|]. vm_compute. discriminate.
Qed.

(** A request for more than the 108 free clusters fails. *)
Lemma cluster_alloc_failure_undone_witness :
  exists lv', @ntfs_cluster_alloc ample_heap (list Z) mem_attr small_vol small_lv 0 1000 (-1) DATA_ZONE = Ok (lv', inr ENOSPC) /\
    free_clusters (lv_zones lv') = 108 /\ bm_bit lv' 33 = false /\ bm_bit lv' 2 = true.
Proof.
  destruct (@ntfs_cluster_alloc ample_heap (list Z) mem_attr small_vol small_lv 0 1000 (-1) DATA_ZONE)
    as [[lv' [rl|e]]| |] eqn:E; [vm_compute in E; discriminate| |vm_compute in E; discriminate..].
  destruct (@cluster_alloc_failure_undone ample_heap (list Z) mem_attr mem_attr_laws small_vol small_lv lv' 0 1000 (-1) DATA_ZONE e)
    as (He & Hf & Hb); [done|cbn; lia|cbn; lia|apply small_lv_ok|lia|lia|lia|lia|exact E|].
  exists lv'. subst e. split; [reflexivity|]. split; [apply Hf; [reflexivity|apply small_lv_covers|cbn; lia]|]. split.
  - destruct (bm_bit lv' 33) eqn:Eb; [|reflexivity]. destruct (Hb 33) as (_ & _ & H); [lia|]. destruct (H Eb); discriminate.
  - apply (Hb 2); [lia|reflexivity].
Defined.

(** C19: allocation, whatever it returns, and freeing of clusters of the volume
    preserve the invariant of the volume: the bits behind the last cluster
    stay set, fsck's bitmaps stay well-formed, and every cluster fsck has
    marked is in use on the volume or known to be in use. *)
Theorem lcn_volume_invariant `{Heap} {A} `{AttrIOLaws A} vol (lv : lcn_vol A) :
  (forall n, heap_grants n = true) -> 0 <= nr_clusters vol <= 2 ^ 32 -> 0 <= mft_lcn vol -> lv_ok vol lv ->
  (forall start_vcn count start_lcn zone, 0 <= start_vcn -> start_vcn + count < 2 ^ 63 ->
    exists lv' r, ntfs_cluster_alloc vol lv start_vcn count start_lcn zone = Ok (lv', r) /\ lv_ok vol lv') /\
  (forall runs term tail, on_volume vol runs -> len term = 0 -> zlen (rl_clusters runs) < 2 ^ 63 ->
    exists lv', ntfs_cluster_free_from_rl vol lv (runs ++ term :: tail) = Ok lv' /\ lv_ok vol lv').
Proof.
  intros Hh Hnr Hmft Hok. split.
  - intros start_vcn count start_lcn zone Hv Hvc.
    destruct (decide (0 < count /\ -1 <= start_lcn)) as [[Hc Hl]|Hn].
    + destruct (cluster_alloc_spec Hh vol Hnr Hmft start_vcn count lv Hok Hv Hvc Hc start_lcn zone Hl) as (lv' & r & E & P).
      exists lv', r. split; [done|]. destruct r; [by eapply success_lv_ok|]. destruct P as [_ P]. by eapply undone_lv_ok.
    + unfold ntfs_cluster_alloc. rewrite !Hh. exists lv. destruct ((count <? 0) || (start_lcn <? -1)) eqn:Ea; [by eexists|].
      apply orb_false_iff in Ea as [Ea%Z.ltb_ge Eb%Z.ltb_ge]. assert (count = 0) as -> by lia. by eexists.
  - intros runs term tail Hr Ht Hl. destruct (free_rl_spec Hh vol Hnr Hmft lv runs term tail) as (lv' & E & F & _); [done..|].
    exists lv'. split; [done|]. eapply freed_lv_ok in F as [O1 O2 O3 O4 O5]; [by split|done..|].
    by apply on_volume_below.
Qed.

Lemma lcn_volume_invariant_witness :
  exists lv' r, @ntfs_cluster_alloc ample_heap (list Z) mem_attr fsck_vol fsck_lv 5 300 70 DATA_ZONE = Ok (lv', r) /\
    lv_ok fsck_vol lv'.
Proof.
  apply (@lcn_volume_invariant ample_heap (list Z) mem_attr mem_attr_laws fsck_vol fsck_lv).
  - done.
  - cbn. lia.
  - cbn. lia.
  - apply fsck_lv_ok.
  - lia.
  - lia.
Defined.

(** freeing the runlist of an allocation takes it back: the bitmap on the
    volume is as before, up to clusters fsck knows to be in use, and fsck's
    bitmap and the count of free clusters are as before. *)
Theorem alloc_free_roundtrip `{Heap} {A} `{AttrIOLaws A} vol (lv lv1 : lcn_vol A) start_vcn count start_lcn zone rl :
  (forall n, heap_grants n = true) -> 0 <= nr_clusters vol <= 2 ^ 32 -> 0 <= mft_lcn vol -> lv_ok vol lv ->
  0 <= start_vcn -> 0 < count -> start_vcn + count < 2 ^ 63 -> -1 <= start_lcn ->
  NVolFreeSpaceKnown (lv_zones lv) = true -> count <= free_clusters (lv_zones lv) < 2 ^ 63 ->
  ntfs_cluster_alloc vol lv start_vcn count start_lcn zone = Ok (lv1, inl rl) ->
  exists lv2, ntfs_cluster_free_from_rl vol lv1 rl = Ok lv2 /\
    free_clusters (lv_zones lv2) = free_clusters (lv_zones lv) /\
    forall x, 0 <= x -> fsck_bit lv2 x = fsck_bit lv x /\
      (bm_bit lv x = true -> bm_bit lv2 x = true) /\
      (bm_bit lv2 x = true -> bm_bit lv x = true \/ oracle lv x = true).
Proof.
  intros Hh Hnr Hmft Hok Hv Hc Hvc Hl Hk Hf E.
  destruct (cluster_alloc_spec Hh vol Hnr Hmft start_vcn count lv Hok Hv Hvc Hc start_lcn zone Hl) as (lv' & r & E1 & P).
  rewrite E in E1. injection E1 as <- <-. assert (lv_ok vol lv1) as Hok1 by (by eapply success_lv_ok).
  destruct P as (runs & tail & -> & C & L & Hn & Hlen & Hb & [J1 J2 J3 [J4 J4'] J5 J6 J7 J8]).
  destruct (free_rl_spec Hh vol Hnr Hmft lv1 runs (mk_rle (start_vcn + count) LCN_RL_NOT_MAPPED 0) tail)
    as (lv2 & E2 & [F1 F2 F3 F4 F5 F6 F7] & Ef); [done|by eapply runs_bounds|done|lia|].
  exists lv2. split; [done|]. split.
  { rewrite Ef, J4', Hn by (done || lia). rewrite s64_small by lia. lia. }
  rewrite list.Forall_forall in J2. intros x Hx. destruct (Hb x Hx) as (B1 & B2 & B3).
  specialize (F6 x Hx). specialize (F7 x Hx). change (bm_bit (lv_set_zones lv2 _) x) with (bm_bit lv2 x) in F6.
  change (fsck_bit (lv_set_zones lv2 _) x) with (fsck_bit lv2 x) in F7. rewrite F6, F7, (J8 x Hx).
  destruct (decide (x ∈ rl_clusters runs)) as [Hin|Hin].
  - rewrite bool_decide_eq_true_2 by done. cbn. rewrite !andb_false_r. destruct (J2 x Hin) as (_ & Hb0 & Ho).
    destruct (fsck_bit lv x) eqn:Eb; [destruct (lo_marked _ _ Hok x Hx Eb); congruence|]. split_and!; [done|congruence|done].
  - rewrite bool_decide_eq_false_2 by done. cbn. rewrite !andb_true_r, orb_false_r. split; [done|]. split; [done|].
    intros Hb1. destruct (B3 Hb1) as [?|[?|?]]; tauto.
Qed.

Lemma alloc_free_roundtrip_witness :
  exists lv1 rl lv2, @ntfs_cluster_alloc ample_heap (list Z) mem_attr small_vol small_lv 0 20 (-1) DATA_ZONE = Ok (lv1, inl rl) /\
    @ntfs_cluster_free_from_rl ample_heap (list Z) mem_attr small_vol lv1 rl = Ok lv2 /\ free_clusters (lv_zones lv2) = 108 /\ bm_bit lv2 2 = true.
Proof.
  destruct (@ntfs_cluster_alloc ample_heap (list Z) mem_attr small_vol small_lv 0 20 (-1) DATA_ZONE)
    as [[lv1 [rl|]]| |] eqn:E; [|vm_compute in E; discriminate..].
  destruct (@alloc_free_roundtrip ample_heap (list Z) mem_attr mem_attr_laws small_vol small_lv lv1 0 20 (-1) DATA_ZONE rl)
    as (lv2 & E2 & Hf & Hb); [done|cbn; lia|cbn; lia|apply small_lv_ok|lia|lia|lia|lia|reflexivity|cbn; lia|exact E|].
  exists lv1, rl, lv2. split; [reflexivity|]. split; [exact E2|]. split; [exact Hf|]. apply (Hb 2); [lia|reflexivity].
Defined.

(** A volume of 128 clusters of which every second one is free. *)
Definition frag_vol : ntfs_volume := mk_volume 3 512 9 4096 12 1024 10 4096 12 128 1024 4 60 4 false false.
Definition frag_lv : lcn_vol (list Z) :=
  mk_lv (list Z) (replicate 16 0x55) (mk_zones 4 20 4 20 0 0 64 true) None.

(** Free space in pieces is not used: only one range of free bits is taken
    from a window of 4 KiB in each pass, after which the zone counts as full,
    so a request of 10 clusters fails with ENOSPC although 64 of the 128
    clusters are free. *)
Theorem alloc_enospc_with_free_space :
  count_true (fun x => negb (bm_bit frag_lv x)) 0 128 = 64 /\
  match @ntfs_cluster_alloc ample_heap (list Z) mem_attr frag_vol frag_lv 0 10 (-1) DATA_ZONE with
  | Ok (lv', inr ENOSPC) => lv_na lv' = lv_na frag_lv /\ free_clusters (lv_zones lv') = 64
  | _ => False
  end.
Proof. vm_compute. auto. Qed.

(** A volume of 12 clusters, all in use, whose bitmap has the four bits behind
    them clear. *)
Definition unpadded_vol : ntfs_volume := mk_volume 3 512 9 4096 12 1024 10 4096 12 12 96 4 8 4 true false.
Definition unpadded_lv : lcn_vol (list Z) :=
  mk_lv (list Z) [0xff; 0x0f] (mk_zones 4 8 4 8 0 0 0 true)
    (Some (mk_fsck false (blocks_init 12) 0 (blocks_init 12))).

(** The search is bounded by the bytes of the bitmap, not by the number of
    clusters: when padding bits are clear, clusters behind the end of the
    volume are handed out, also on fsck. *)
Theorem alloc_behind_volume :
  match @ntfs_cluster_alloc ample_heap (list Z) mem_attr unpadded_vol unpadded_lv 0 1 (-1) DATA_ZONE with
  | Ok (_, inl (r :: _)) => lcn r = 12 /\ nr_clusters unpadded_vol = 12
  | _ => False
  end.
Proof. vm_compute. done. Qed.
