(* ===== verification/Device.v ===== *)
(** Access to the device (libntfs/device.c) and to clusters through runlists
    (libntfs/runlist.c, [ntfs_rl_pread], [ntfs_rl_pwrite] and
    [ntfs_copy_rl_clusters]).

    The operations of [struct ntfs_device_operations] are the class
    [DeviceOps]; a call may transfer fewer bytes than asked for.  A read is the
    list of the bytes it delivers, so its length is the return value of the C
    function, and a write is given the bytes of its buffer. *)

From S2P Require Import Prelude Volume Runlist.

Class DeviceOps (D : Type) := {
  (** [dops->pread(dev, buf, count, offset)]: the bytes read. *)
  d_pread : D -> Z -> Z -> res (list Z);
  (** [dops->pwrite(dev, buf, count, offset)]: the number of bytes written. *)
  d_pwrite : D -> list Z -> Z -> res (D * Z);
  (** [dops->sync(dev)]: its error. *)
  d_sync : D -> option errno;
  (** What the device stores. *)
  d_contents : D -> list Z
}.

(** A call inside the device transfers at least one byte. *)
Class DeviceLaws (D : Type) `{DeviceOps D} := {
  d_pread_some : forall d n pos, 0 < n -> 0 <= pos -> pos + n <= zlen (d_contents d) ->
    exists k, 0 < k <= n /\ d_pread d n pos = Ok (take (Z.to_nat k) (drop (Z.to_nat pos) (d_contents d)));
  d_pwrite_some : forall d bs pos, bs <> [] -> 0 <= pos -> pos + zlen bs <= zlen (d_contents d) ->
    exists k d', 0 < k <= zlen bs /\ d_pwrite d bs pos = Ok (d', k) /\
      awrite (d_contents d) pos (take (Z.to_nat k) bs) = Ok (d_contents d');
  d_sync_ok : forall d, d_sync d = None
}.

Section device.
Context {D : Type} {OPS : DeviceOps D}.

Record ntfs_device := mk_device {
  d_private : D;
  NDevReadOnly : bool;
  NDevSync : bool;
  NDevDirty : bool
}.

Definition set_private (dev : ntfs_device) (d : D) : ntfs_device :=
  mk_device d (NDevReadOnly dev) (NDevSync dev) (NDevDirty dev).
Definition NDevSetDirty (dev : ntfs_device) : ntfs_device :=
  mk_device (d_private dev) (NDevReadOnly dev) (NDevSync dev) true.

(** [for (total = 0; count; count -= br, total += br)]; every round but the
    last delivers a byte, so [count] rounds are enough. *)
Fixpoint pread_loop (fuel : nat) (d : D) (pos count : Z) (total : list Z) : res (list Z) :=
  if count =? 0 then Ok total else
  match fuel with
  | O => Undef
  | S fuel =>
      match d_pread d count (pos + zlen total) with
      | Ok [] => Ok total
      | Ok bs => pread_loop fuel d pos (count - zlen bs) (total ++ bs)
      | Err e => match total with [] => Err e | _ => Ok total end
      | Undef => Undef
      end
  end.

Definition ntfs_pread (dev : ntfs_device) (pos count : Z) : res (list Z) :=
  if (count <? 0) || (pos <? 0) then Err EINVAL else
  if count =? 0 then Ok [] else
  pread_loop (Z.to_nat count) (d_private dev) pos count [].

(** The result of a write: the device, the value returned, and errno when
    that is negative. *)
Abbreviation write_result := (ntfs_device * Z * option errno)%type.

Fixpoint pwrite_loop (fuel : nat) (d : D) (pos : Z) (b : list Z) (total : Z)
    : res (D * Z * option errno) :=
  match b with
  | [] => Ok (d, total, None)
  | _ =>
      match fuel with
      | O => Undef
      | S fuel =>
          match d_pwrite d b (pos + total) with
          | Ok (d, written) =>
              if written =? 0 then Ok (d, total, None)
              else pwrite_loop fuel d pos (drop (Z.to_nat written) b) (total + written)
          | Err e => if total =? 0 then Ok (d, -1, Some e) else Ok (d, total, None)
          | Undef => Undef
          end
      end
  end.

(** A failed sync takes one off the result, also off an error's -1. *)
Definition ntfs_pwrite (dev : ntfs_device) (pos count : Z) (b : list Z) : res write_result :=
  if (count <? 0) || (pos <? 0) then Ok (dev, -1, Some EINVAL) else
  if count =? 0 then Ok (dev, 0, None) else
  if NDevReadOnly dev then Ok (dev, -1, Some EROFS) else
  b ← aslice b 0 count;
  let dev := NDevSetDirty dev in
  '(d, total, e) ← pwrite_loop (Z.to_nat count) (d_private dev) pos b 0;
  let dev := set_private dev d in
  if NDevSync dev && negb (total =? 0) then
    match d_sync d with
    | Some e' => Ok (dev, total - 1, Some e')
    | None => Ok (dev, total, e)
    end
  else Ok (dev, total, e).

(** ** Clusters *)

Section clusters.
Context (vol : ntfs_volume).

Definition ntfs_cluster_read (dev : ntfs_device) (lcn count : Z) : res (list Z * Z) :=
  if (lcn <? 0) || (count <? 0) then Err EINVAL else
  if nr_clusters vol <? s64 (lcn + count) then Err ESPIPE else
  bs ← ntfs_pread dev (s64 (Z.shiftl lcn (cluster_size_bits vol)))
         (s64 (Z.shiftl count (cluster_size_bits vol)));
  Ok (bs, Z.shiftr (zlen bs) (cluster_size_bits vol)).

Definition ntfs_cluster_write (dev : ntfs_device) (lcn count : Z) (b : list Z) : res write_result :=
  if (lcn <? 0) || (count <? 0) then Ok (dev, -1, Some EINVAL) else
  if nr_clusters vol <? s64 (lcn + count) then Ok (dev, -1, Some ESPIPE) else
  let bytes := s64 (Z.shiftl count (cluster_size_bits vol)) in
  '(dev, bw, e) ← (if negb (read_only vol)
                   then ntfs_pwrite dev (s64 (Z.shiftl lcn (cluster_size_bits vol))) bytes b
                   else Ok (dev, bytes, None));
  if bw <? 0 then Ok (dev, bw, e)
  else Ok (dev, Z.shiftr bw (cluster_size_bits vol), None).

(** ** Reading and writing through a runlist *)

Definition run_bytes (r : runlist_element) : Z := s64 (Z.shiftl (len r) (cluster_size_bits vol)).

(** Seeks to the run that contains [pos]: the rest of the list from it on and
    the byte position of the run. *)
Fixpoint rl_seek (rl : runlist) (ofs pos : Z) : res (runlist * Z) :=
  match rl with
  | [] => Undef
  | r :: rl' =>
      if negb (len r =? 0) && (s64 (ofs + run_bytes r) <=? pos)
      then rl_seek rl' (s64 (ofs + run_bytes r)) pos
      else Ok (rl, ofs)
  end.

(** [rl_err_out]: what was read so far, or the error. *)
Definition read_err (total : list Z) (err : errno) : res (list Z) :=
  match total with [] => Err err | _ => Ok total end.

(** [for (total = 0LL; count; rl++, ofs = 0)].  A read interrupted by a signal
    is repeated; [d_pread] does not change the device, so the repetition would
    not end. *)
Fixpoint rl_read_loop (rl : runlist) (dev : ntfs_device) (ofs count : Z) (total : list Z)
    : res (list Z) :=
  if count =? 0 then Ok total else
  match rl with
  | [] => Undef
  | r :: rl =>
      if len r =? 0 then read_err total EIO else
      let to_read := Z.min count (run_bytes r - ofs) in
      if lcn r <? 0 then
        if negb (lcn r =? LCN_HOLE) then read_err total EIO
        else rl_read_loop rl dev 0 (count - to_read) (total ++ replicate (Z.to_nat to_read) 0)
      else
        match ntfs_pread dev (s64 (Z.shiftl (lcn r) (cluster_size_bits vol) + ofs)) to_read with
        | Ok [] => read_err total EIO
        | Ok bs => rl_read_loop rl dev 0 (count - zlen bs) (total ++ bs)
        | Err EINTR => Undef
        | Err e => read_err total e
        | Undef => Undef
        end
  end.

Definition ntfs_rl_pread (dev : ntfs_device) (rl : runlist) (pos count : Z) : res (list Z) :=
  if (pos <? 0) || (count <? 0) then Err EINVAL else
  if count =? 0 then Ok [] else
  '(rl, ofs) ← rl_seek rl 0 pos;
  rl_read_loop rl dev (pos - ofs) count [].

Definition write_err (dev : ntfs_device) (total : Z) (err : option errno) : res write_result :=
  if total =? 0 then Ok (dev, -1, err) else Ok (dev, total, None).

Fixpoint rl_write_loop (rl : runlist) (dev : ntfs_device) (ofs count : Z) (b : list Z) (total : Z)
    : res write_result :=
  if count =? 0 then Ok (dev, total, None) else
  match rl with
  | [] => Undef
  | r :: rl =>
      if len r =? 0 then write_err dev total (Some EIO) else
      let to_write := Z.min count (run_bytes r - ofs) in
      if lcn r <? 0 then
        if negb (lcn r =? LCN_HOLE) then write_err dev total (Some EIO)
        else rl_write_loop rl dev 0 (count - to_write) (drop (Z.to_nat to_write) b) (total + to_write)
      else
        '(dev, written, e) ←
          (if negb (read_only vol)
           then ntfs_pwrite dev (s64 (Z.shiftl (lcn r) (cluster_size_bits vol) + ofs)) to_write b
           else Ok (dev, to_write, None));
        if 0 <? written
        then rl_write_loop rl dev 0 (count - written) (drop (Z.to_nat written) b) (total + written)
        else if negb (written =? -1) then write_err dev total (Some EIO)
        else match e with
             | Some EINTR => Undef
             | _ => write_err dev total e
             end
  end.

(** [start] is the offset in the file of the first element of [rl]. *)
Definition ntfs_rl_pwrite (dev : ntfs_device) (rl : runlist) (start pos count : Z) (b : list Z)
    : res write_result :=
  if (pos <? 0) || (count <? 0) then Ok (dev, -1, Some EINVAL) else
  if count =? 0 then Ok (dev, 0, None) else
  '(rl, ofs) ← rl_seek rl start pos;
  rl_write_loop rl dev (pos - ofs) count b 0.

(** ** Copying clusters *)

Definition MAX_CLUSTER_COPY_SIZE : Z := u32 (cluster_size vol * 4).

(** [while (rcnt)]: the device and the position reached, [None] for an error.
    Every write that does not fail takes at least one byte. *)
Fixpoint copy_write (fuel : nat) (dev : ntfs_device) (new_rl : runlist) (wpos_offset : Z) (buf : list Z)
    : res (ntfs_device * option Z) :=
  match buf with
  | [] => Ok (dev, Some wpos_offset)
  | _ =>
      match fuel with
      | O => Undef
      | S fuel =>
          '(dev, wcnt, _) ← ntfs_rl_pwrite dev new_rl 0 wpos_offset (zlen buf) buf;
          if wcnt <? 0 then Ok (dev, None)
          else copy_write fuel dev new_rl (wpos_offset + wcnt) (drop (Z.to_nat wcnt) buf)
      end
  end.

(** [for (;;)]: ends when a read delivers nothing or fails. *)
Fixpoint copy_loop (fuel : nat) (dev : ntfs_device) (new_rl orig_rl : runlist) (rpos wpos_offset : Z)
    : res (ntfs_device * bool) :=
  match fuel with
  | O => Undef
  | S fuel =>
      match ntfs_rl_pread dev orig_rl rpos MAX_CLUSTER_COPY_SIZE with
      | Undef => Undef
      | Err _ | Ok [] => Ok (dev, true)
      | Ok bs =>
          '(dev, w) ← copy_write (length bs) dev new_rl wpos_offset bs;
          match w with
          | None => Ok (dev, false)
          | Some wpos_offset => copy_loop fuel dev new_rl orig_rl (rpos + zlen bs) wpos_offset
          end
      end
  end.

(** The bytes of a runlist; the copy ends within one round more. *)
Fixpoint rl_bytes (rl : runlist) : Z :=
  match rl with
  | [] => 0
  | r :: rl => if len r =? 0 then 0 else Z.max 0 (run_bytes r) + rl_bytes rl
  end.

(** The result is [new_rl], or NULL ([None]). *)
Definition ntfs_copy_rl_clusters `{Heap} (dev : ntfs_device) (new_rl orig_rl : runlist)
    : res (ntfs_device * option runlist) :=
  if negb (heap_grants MAX_CLUSTER_COPY_SIZE) then Ok (dev, None) else
  '(dev, done) ← copy_loop (Z.to_nat (rl_bytes orig_rl) + 1) dev new_rl orig_rl 0 0;
  Ok (dev, if (done : bool) then Some new_rl else None).

End clusters.
End device.

Arguments ntfs_device : clear implicits.
