(* ===== verification/DeviceThm.v ===== *)
(** Correctness of device access: a read or write inside the device is carried
    out completely however the device splits it up, and access through a
    runlist goes to exactly the bytes the runs name.  The specification is the
    list of the byte addresses of a runlist, [rl_addrs]. *)

From S2P Require Import Prelude Volume Runlist Device.

(** ** Specification *)

(** The address of every byte of a run, [None] in a hole. *)
Definition run_addrs (bits : Z) (r : runlist_element) : list (option Z) :=
  map (fun i => if 0 <=? lcn r then Some (lcn r * 2 ^ bits + i) else None) (seqZ 0 (len r * 2 ^ bits)).

Fixpoint rl_addrs (bits : Z) (runs : runlist) : list (option Z) :=
  match runs with
  | [] => []
  | r :: runs => run_addrs bits r ++ rl_addrs bits runs
  end.

(** What an address reads as; a hole reads as zeroes. *)
Definition byte_at (c : list Z) (a : option Z) : Z :=
  match a with
  | Some x => default 0 (c !! Z.to_nat x)
  | None => 0
  end.

(** The bytes [b] written to addresses one by one. *)
Fixpoint write_addrs (c : list Z) (al : list (option Z)) (b : list Z) : list Z :=
  match al, b with
  | a :: al, x :: b =>
      write_addrs (match a with Some p => <[Z.to_nat p := x]> c | None => c end) al b
  | _, _ => c
  end.

(** A run that is mapped inside a device of [size] bytes, or a hole. *)
Definition run_inside (bits size : Z) (r : runlist_element) : Prop :=
  0 < len r /\ (0 <= lcn r \/ lcn r = LCN_HOLE) /\ len r * 2 ^ bits < 2 ^ 63 /\
  (0 <= lcn r -> (lcn r + len r) * 2 ^ bits <= size).

(** * Proofs *)

Lemma awrite_app (c xs ys c1 c2 : list Z) p :
  awrite c p xs = Ok c1 -> awrite c1 (p + zlen xs) ys = Ok c2 -> awrite c p (xs ++ ys) = Ok c2.
Proof.
  intros W1 W2. unfold awrite in W1, W2 |- *. rewrite zlen_app.
  pose proof (zlen_nonneg xs). pose proof (zlen_nonneg ys).
  destruct (Z.ltb_spec p 0); [done|]. destruct (Z.ltb_spec (zlen c) (p + zlen xs)); [done|].
  cbn [orb] in W1. injection W1 as <-. rewrite !zlen_app in W2.
  assert (zlen (take (Z.to_nat p) c) = p) as Hp by (unfold zlen in *; rewrite length_take; lia).
  assert (zlen (drop (Z.to_nat p + length xs) c) = zlen c - p - zlen xs) as Hd
    by (unfold zlen in *; rewrite length_drop; lia).
  rewrite Hp, Hd in W2. revert W2. zcase; cbn [orb]; try done; try lia. intros [= <-]. f_equal.
  replace (Z.to_nat (p + zlen xs)) with (length (take (Z.to_nat p) c ++ xs))
    by (rewrite length_app; unfold zlen in *; lia).
  rewrite (app_assoc _ xs), take_app_length, <- !app_assoc. do 3 f_equal.
  rewrite app_assoc, <- (drop_drop ((take (Z.to_nat p) c ++ xs) ++ _)), drop_app_length, drop_drop, length_app. f_equal. lia.
Qed.

Lemma awrite_nil (c : list Z) p : 0 <= p <= zlen c -> awrite c p [] = Ok c.
Proof.
  intros. unfold awrite. rewrite zlen_nil. zdec. cbn [length]. by rewrite app_nil_l, Nat.add_0_r, take_drop.
Qed.

(** ** Addresses *)

Lemma run_addrs_length bits r : 0 <= len r -> 0 <= bits -> zlen (run_addrs bits r) = len r * 2 ^ bits.
Proof. intros. unfold run_addrs, zlen. rewrite length_map, length_seqZ. lia. Qed.

Lemma run_addrs_lookup bits r i :
  0 <= bits -> (Z.of_nat i < len r * 2 ^ bits) ->
  run_addrs bits r !! i = Some (if 0 <=? lcn r then Some (lcn r * 2 ^ bits + Z.of_nat i) else None).
Proof. intros Hb Hi. unfold run_addrs. rewrite list_lookup_fmap, lookup_seqZ_lt by lia. done. Qed.

(** The bytes of a part of a mapped run are the bytes at its position. *)
Lemma run_addrs_read bits r c ofs n :
  0 <= bits -> 0 <= lcn r -> 0 <= ofs -> 0 <= n -> ofs + n <= len r * 2 ^ bits ->
  (lcn r + len r) * 2 ^ bits <= zlen c ->
  map (byte_at c) (take (Z.to_nat n) (drop (Z.to_nat ofs) (run_addrs bits r))) =
    take (Z.to_nat n) (drop (Z.to_nat (lcn r * 2 ^ bits + ofs)) c).
Proof.
  intros Hb Hl Ho Hn Hin Hc. apply list_eq. intros i. rewrite list_lookup_fmap.
  destruct (decide (i < Z.to_nat n)%nat) as [Hi|Hi].
  - rewrite !lookup_take_lt, !lookup_drop, run_addrs_lookup by lia. cbn [fmap option_fmap option_map].
    zdec. cbn [byte_at].
    destruct (lookup_lt_is_Some_2 c (Z.to_nat (lcn r * 2 ^ bits + ofs) + i)) as [x Hx];
      [unfold zlen in Hc; lia|]. rewrite Hx.
    replace (Z.to_nat (lcn r * 2 ^ bits + Z.of_nat (Z.to_nat ofs + i)))
      with (Z.to_nat (lcn r * 2 ^ bits + ofs) + i)%nat by lia.
    by rewrite Hx.
  - rewrite !lookup_take_ge by lia. done.
Qed.

Lemma run_addrs_hole bits r c ofs n :
  0 <= bits -> lcn r < 0 -> 0 <= ofs -> 0 <= n -> ofs + n <= len r * 2 ^ bits ->
  map (byte_at c) (take (Z.to_nat n) (drop (Z.to_nat ofs) (run_addrs bits r))) = replicate (Z.to_nat n) 0.
Proof.
  intros Hb Hl Ho Hn Hin. apply list_eq. intros i. rewrite list_lookup_fmap.
  destruct (decide (i < Z.to_nat n)%nat) as [Hi|Hi].
  - rewrite !lookup_take_lt, !lookup_drop, run_addrs_lookup, lookup_replicate_2 by lia. zdec. done.
  - rewrite lookup_take_ge by lia. symmetry. apply lookup_replicate_None. lia.
Qed.

Lemma run_addrs_slice bits r ofs n :
  0 <= bits -> 0 <= ofs -> 0 <= n -> ofs + n <= len r * 2 ^ bits ->
  take (Z.to_nat n) (drop (Z.to_nat ofs) (run_addrs bits r)) =
    if 0 <=? lcn r then map Some (seqZ (lcn r * 2 ^ bits + ofs) n) else replicate (Z.to_nat n) None.
Proof.
  intros Hb Ho Hn Hin. apply list_eq. intros i.
  destruct (decide (i < Z.to_nat n)%nat) as [Hi|Hi].
  - rewrite lookup_take_lt, lookup_drop, run_addrs_lookup by lia. destruct (Z.leb_spec 0 (lcn r)).
    + rewrite list_lookup_fmap, lookup_seqZ_lt by lia. cbn. do 2 f_equal. lia.
    + by rewrite lookup_replicate_2.
  - rewrite lookup_take_ge by lia. destruct (0 <=? lcn r).
    + rewrite list_lookup_fmap, lookup_seqZ_ge by lia. done.
    + symmetry. apply lookup_replicate_None. lia.
Qed.

(** A window that starts in the first run: the part in the run and the rest. *)
Lemma addrs_window bits r runs ofs count :
  0 <= bits -> 0 <= len r -> 0 <= ofs <= len r * 2 ^ bits -> 0 <= count ->
  let n := Z.min count (len r * 2 ^ bits - ofs) in
  take (Z.to_nat count) (drop (Z.to_nat ofs) (rl_addrs bits (r :: runs))) =
    take (Z.to_nat n) (drop (Z.to_nat ofs) (run_addrs bits r)) ++
    take (Z.to_nat (count - n)) (rl_addrs bits runs).
Proof.
  intros Hb Hl Ho Hc n. cbn [rl_addrs].
  pose proof (run_addrs_length bits r Hl Hb) as L. unfold zlen in L.
  rewrite drop_app_le by lia.
  destruct (Z.le_ge_cases count (len r * 2 ^ bits - ofs)) as [H|H].
  - assert (n = count) as -> by (unfold n; lia). rewrite Z.sub_diag, take_0, app_nil_r.
    apply take_app_le. rewrite length_drop. lia.
  - assert (n = len r * 2 ^ bits - ofs) as -> by (unfold n; lia).
    rewrite take_app_ge by (rewrite length_drop; lia). f_equal.
    + symmetry. apply take_ge. rewrite length_drop. lia.
    + f_equal. rewrite length_drop. lia.
Qed.

(** ** Writing to addresses *)

Lemma write_addrs_length al : forall c b, length (write_addrs c al b) = length c.
Proof.
  induction al as [|a al IH]; intros c b; [done|]. destruct b as [|x b]; [done|]. cbn.
  rewrite IH. destruct a; [apply length_insert|done].
Qed.

Lemma write_addrs_app al1 al2 : forall c b,
  (length al1 <= length b)%nat ->
  write_addrs c (al1 ++ al2) b = write_addrs (write_addrs c al1 b) al2 (drop (length al1) b).
Proof.
  induction al1 as [|a al1 IH]; intros c b Hb; [done|].
  destruct b as [|x b]; cbn [length] in Hb; [lia|]. cbn. apply IH. lia.
Qed.

Lemma write_addrs_take al : forall c b, write_addrs c al b = write_addrs c al (take (length al) b).
Proof. induction al as [|a al IH]; intros c b; [done|]. destruct b as [|x b]; [done|]. cbn. apply IH. Qed.

Lemma write_addrs_holes n : forall c b, write_addrs c (replicate n None) b = c.
Proof. induction n as [|n IH]; intros c b; [done|]. destruct b as [|x b]; [done|]. cbn. apply IH. Qed.

(** Addresses that are not written keep their contents. *)
Lemma write_addrs_other al p : forall c b,
  0 <= p -> Forall (fun a => match a with Some q => 0 <= q | None => True end) al ->
  Some p ∉ al -> write_addrs c al b !! Z.to_nat p = c !! Z.to_nat p.
Proof.
  induction al as [|a al IH]; intros c b Hp Hal Hni; [done|]. destruct b as [|x b]; [done|]. cbn.
  apply Forall_cons_1 in Hal as [Ha Hal]. apply not_elem_of_cons in Hni as [Hne Hni].
  rewrite IH by done. destruct a as [q|]; [|done]. apply list_lookup_insert_ne. intros E.
  apply Hne. f_equal. lia.
Qed.

(** Consecutive addresses are written like a block. *)
Lemma write_addrs_block n : forall c p b,
  0 <= p -> p + Z.of_nat n <= zlen c -> (n <= length b)%nat ->
  awrite c p (take n b) = Ok (write_addrs c (map Some (seqZ p (Z.of_nat n))) b).
Proof.
  induction n as [|n IH]; intros c p b Hp Hin Hb.
  { rewrite take_0. rewrite awrite_nil by lia. done. }
  destruct b as [|x b]; cbn [length] in Hb; [lia|]. rewrite firstn_cons, seqZ_cons by lia. cbn [map write_addrs].
  replace (Z.pred (Z.of_nat (S n))) with (Z.of_nat n) by lia.
  apply (awrite_app _ [x] _ (<[Z.to_nat p := x]> c)).
  - unfold awrite. rewrite zlen_cons, zlen_nil. zdec. f_equal.
    rewrite insert_take_drop by (unfold zlen in Hin; lia). cbn [app length]. do 3 f_equal. lia.
  - rewrite zlen_cons, zlen_nil. replace (p + (1 + 0)) with (Z.succ p) by lia.
    apply IH; [lia|rewrite zlen_insert; lia|lia].
Qed.

Section device.
Context {D : Type} {OPS : DeviceOps D} {LAWS : DeviceLaws D}.
Implicit Types (d : D) (dev : ntfs_device D) (b : list Z).

Lemma pread_loop_spec d pos : forall fuel count (total : list Z),
  0 <= count <= Z.of_nat fuel -> 0 <= pos -> pos + zlen total + count <= zlen (d_contents d) ->
  pread_loop fuel d pos count total =
    Ok (total ++ take (Z.to_nat count) (drop (Z.to_nat (pos + zlen total)) (d_contents d))).
Proof.
  induction fuel as [|fuel IH]; intros count total Hc Hp Hin; cbn [pread_loop].
  { assert (count = 0) as -> by lia. by rewrite take_0, app_nil_r. }
  destruct (Z.eqb_spec count 0) as [->|Hne]; [by rewrite take_0, app_nil_r|].
  pose proof (zlen_nonneg total).
  destruct (d_pread_some d count (pos + zlen total)) as (k & Hk & ->); [lia..|].
  set (c := drop (Z.to_nat (pos + zlen total)) (d_contents d)).
  assert (zlen (take (Z.to_nat k) c) = k) as Lk.
  { unfold c, zlen in *. rewrite length_take, length_drop. lia. }
  destruct (take (Z.to_nat k) c) as [|x bs] eqn:E; [rewrite zlen_nil in Lk; lia|]. rewrite Lk.
  rewrite IH by (rewrite ?zlen_app, ?Lk; lia). rewrite zlen_app, Lk, <- E, <- app_assoc. do 2 f_equal.
  replace (Z.to_nat (pos + (zlen total + k))) with (Z.to_nat (pos + zlen total) + Z.to_nat k)%nat by lia.
  rewrite <- drop_drop. fold c. rewrite take_take_drop. f_equal. lia.
Qed.

Lemma ntfs_pread_spec dev pos count :
  0 <= count -> 0 <= pos -> pos + count <= zlen (d_contents (d_private dev)) ->
  ntfs_pread dev pos count = Ok (take (Z.to_nat count) (drop (Z.to_nat pos) (d_contents (d_private dev)))).
Proof.
  intros Hc Hp Hin. unfold ntfs_pread. zdec. destruct (Z.eqb_spec count 0) as [->|]; [by rewrite take_0|].
  rewrite pread_loop_spec by (rewrite ?zlen_nil; lia). by rewrite zlen_nil, Z.add_0_r.
Qed.

Lemma pwrite_loop_spec pos : forall fuel d b total,
  zlen b <= Z.of_nat fuel -> 0 <= pos -> 0 <= total -> pos + total + zlen b <= zlen (d_contents d) ->
  exists d', pwrite_loop fuel d pos b total = Ok (d', total + zlen b, None) /\
    awrite (d_contents d) (pos + total) b = Ok (d_contents d').
Proof.
  induction fuel as [|fuel IH]; intros d b total Hf Hp Ht Hin; destruct b as [|x b'] eqn:Eb; cbn [pwrite_loop].
  - exists d. rewrite zlen_nil in *. rewrite awrite_nil by lia. by rewrite Z.add_0_r.
  - rewrite zlen_cons in Hf. pose proof (zlen_nonneg b'). lia.
  - exists d. rewrite zlen_nil in *. rewrite awrite_nil by lia. by rewrite Z.add_0_r.
  - rewrite <- Eb in *.
    destruct (d_pwrite_some d b (pos + total)) as (k & d1 & Hk & -> & W1); [by rewrite Eb|lia..|]. zdec.
    assert (zlen (drop (Z.to_nat k) b) = zlen b - k) as Ld by (unfold zlen in *; rewrite length_drop; lia).
    assert (zlen (take (Z.to_nat k) b) = k) as Lt by (unfold zlen in *; rewrite length_take; lia).
    pose proof (proj1 (awrite_lookup _ _ _ _ 0 W1)) as Lc.
    destruct (IH d1 (drop (Z.to_nat k) b) (total + k)) as (d' & -> & W2); [lia..|].
    exists d'. split; [do 3 f_equal; lia|]. rewrite <- (take_drop (Z.to_nat k) b).
    eapply awrite_app; [done|]. rewrite Lt. by replace (pos + total + k) with (pos + (total + k)) by lia.
Qed.

(** A device that may be written to. *)
Definition writable dev : Prop := NDevReadOnly dev = false.

Lemma ntfs_pwrite_spec dev pos count b :
  writable dev -> 0 < count <= zlen b -> 0 <= pos -> pos + count <= zlen (d_contents (d_private dev)) ->
  exists dev', ntfs_pwrite dev pos count b = Ok (dev', count, None) /\ writable dev' /\
    awrite (d_contents (d_private dev)) pos (take (Z.to_nat count) b) = Ok (d_contents (d_private dev')).
Proof.
  intros Hw Hc Hp Hin. unfold ntfs_pwrite. rewrite Hw. zdec.
  unfold aslice. zdec. cbn [mbind res_bind]. change (Z.to_nat 0) with 0%nat. rewrite drop_0.
  assert (zlen (take (Z.to_nat count) b) = count) as Lt by (unfold zlen in *; rewrite length_take; lia).
  destruct (pwrite_loop_spec pos (Z.to_nat count) (d_private dev) (take (Z.to_nat count) b) 0)
    as (d' & E & W); [lia..|]. rewrite Lt, Z.add_0_l in E. rewrite Z.add_0_r in W.
  cbn [NDevSetDirty d_private]. rewrite E. cbn [mbind res_bind].
  rewrite d_sync_ok. destruct (_ && _); eexists; done.
Qed.

(** ** Access through a runlist *)

Section runs.
Context (vol : ntfs_volume) (Hbits : 0 <= cluster_size_bits vol <= 31).
Implicit Types (runs : runlist).
Abbreviation bits := (cluster_size_bits vol).
Abbreviation addrs := (rl_addrs bits).

Lemma run_bytes_spec size r : run_inside bits size r -> run_bytes vol r = len r * 2 ^ bits.
Proof.
  intros (Hl & _ & Hm & _). unfold run_bytes. rewrite Z.shiftl_mul_pow2 by lia.
  apply s64_small. assert (0 < 2 ^ bits) by lia. nia.
Qed.

Lemma run_inside_bounds size r :
  run_inside bits size r -> 0 <= lcn r ->
  0 <= lcn r * 2 ^ bits /\ lcn r * 2 ^ bits + len r * 2 ^ bits <= size.
Proof. intros (Hl & _ & _ & H) Hr. specialize (H Hr). nia. Qed.

Lemma addrs_cons_length size r runs :
  run_inside bits size r -> zlen (addrs (r :: runs)) = len r * 2 ^ bits + zlen (addrs runs).
Proof. intros (Hl & _). cbn [rl_addrs]. rewrite zlen_app, run_addrs_length by lia. done. Qed.

Lemma rl_seek_spec size term tail : forall runs start pos,
  Forall (run_inside bits size) runs -> len term = 0 -> 0 <= start <= pos ->
  start + zlen (addrs runs) < 2 ^ 63 ->
  exists runs1 runs2, runs = runs1 ++ runs2 /\
    rl_seek vol (runs ++ term :: tail) start pos =
      Ok (runs2 ++ term :: tail, start + zlen (addrs runs1)) /\
    start + zlen (addrs runs1) <= pos /\
    match runs2 with [] => True | r :: _ => pos < start + zlen (addrs runs1) + len r * 2 ^ bits end.
Proof.
  induction runs as [|r runs IH]; intros start pos Hin Ht Hs Hmax; cbn [app rl_seek].
  { exists [], []. rewrite Ht. cbn. rewrite zlen_nil, Z.add_0_r. split_and!; done || lia. }
  apply Forall_cons_1 in Hin as [Hr Hin]. rewrite (run_bytes_spec size) by done.
  rewrite (addrs_cons_length size) in Hmax by done. pose proof (zlen_nonneg (addrs runs)).
  pose proof Hr as (Hl & _). assert (0 < len r * 2 ^ bits) by nia.
  rewrite s64_small by lia. rewrite (proj2 (Z.eqb_neq (len r) 0)) by lia. cbn [negb andb].
  destruct (Z.leb_spec (start + len r * 2 ^ bits) pos).
  - destruct (IH (start + len r * 2 ^ bits) pos) as (r1 & r2 & -> & -> & Hp1 & Hp2); [done|done|lia|lia|].
    exists (r :: r1), r2. rewrite (addrs_cons_length size), Z.add_assoc by done. split_and!; done.
  - exists [], (r :: runs). cbn [app rl_addrs]. rewrite zlen_nil, Z.add_0_r. split_and!; done || lia.
Qed.

(** What a read delivers: an error if there is nothing. *)
Definition read_result (bs : list Z) : res (list Z) :=
  match bs with [] => Err EIO | _ => Ok bs end.

(** The head of a runlist and an offset into it. *)
Definition head_ofs runs (ofs : Z) : Prop :=
  match runs with [] => True | r :: _ => 0 <= ofs < len r * 2 ^ bits end.

Lemma head_ofs_0 size runs : Forall (run_inside bits size) runs -> head_ofs runs 0.
Proof. destruct runs as [|r runs]; [done|]. intros [(? & _) _]%Forall_cons_1. cbn. nia. Qed.

Lemma rl_read_loop_spec dev term tail : forall runs ofs count total,
  let c := d_contents (d_private dev) in
  Forall (run_inside bits (zlen c)) runs -> len term = 0 -> head_ofs runs ofs -> 0 <= count ->
  zlen c < 2 ^ 63 ->
  rl_read_loop vol (runs ++ term :: tail) dev ofs count total =
    let bs := total ++ map (byte_at c) (take (Z.to_nat count) (drop (Z.to_nat ofs) (addrs runs))) in
    if count =? 0 then Ok bs else read_result bs.
Proof.
  induction runs as [|r runs IH]; intros ofs count total c Hin Ht Ho Hc Hmax; cbn [app rl_read_loop];
    cbv zeta; (destruct (Z.eqb_spec count 0) as [->|Hne]; [by rewrite take_0, app_nil_r|]).
  { rewrite Ht. cbn [rl_addrs Z.eqb]. rewrite drop_nil, take_nil, app_nil_r. by destruct total. }
  apply Forall_cons_1 in Hin as [Hr Hin]. rewrite (run_bytes_spec (zlen c)) by done.
  pose proof Hr as (Hl & Hlcn & _ & Hdev). cbn in Ho.
  rewrite (proj2 (Z.eqb_neq (len r) 0)) by lia. rewrite addrs_window by lia. cbv zeta.
  set (n := Z.min count (len r * 2 ^ bits - ofs)). assert (0 < n) by lia.
  rewrite map_app, app_assoc.
  assert (forall bs, zlen bs = n -> rl_read_loop vol (runs ++ term :: tail) dev 0 (count - n) (total ++ bs) =
    read_result ((total ++ bs) ++ map (byte_at c) (take (Z.to_nat (count - n)) (addrs runs)))) as Hnext.
  { intros bs Lb. rewrite IH by (lia || done || by eapply head_ofs_0).
    cbv zeta. rewrite drop_0. destruct (_ =? 0); [|done].
    destruct bs; [rewrite zlen_nil in Lb; lia|]. by destruct total. }
  destruct (Z.ltb_spec (lcn r) 0).
  - rewrite (proj2 (Z.eqb_eq (lcn r) LCN_HOLE)) by (unfold LCN_HOLE in *; lia). cbn [negb].
    rewrite run_addrs_hole by lia. apply Hnext. unfold zlen. rewrite length_replicate. lia.
  - destruct (run_inside_bounds (zlen c) r Hr) as [Hp0 Hp1]; [lia|].
    rewrite Z.shiftl_mul_pow2 by lia. rewrite s64_small by lia.
    rewrite ntfs_pread_spec by (fold c; lia). fold c. rewrite run_addrs_read by lia.
    set (bs := take _ _). assert (zlen bs = n) as Lb.
    { unfold bs, zlen in *. rewrite length_take, length_drop. lia. }
    rewrite <- Hnext by done. rewrite Lb. by destruct bs; [rewrite zlen_nil in Lb; lia|].
Qed.

Lemma addrs_app runs1 runs2 : addrs (runs1 ++ runs2) = addrs runs1 ++ addrs runs2.
Proof. induction runs1 as [|r runs1 IH]; cbn; [done|]. by rewrite IH, app_assoc. Qed.

Lemma addrs_app_drop runs1 runs2 pos :
  zlen (addrs runs1) <= pos ->
  drop (Z.to_nat pos) (addrs (runs1 ++ runs2)) = drop (Z.to_nat (pos - zlen (addrs runs1))) (addrs runs2).
Proof.
  intros Hp. rewrite addrs_app, drop_app_ge by (unfold zlen in Hp; lia). f_equal. unfold zlen in *. lia.
Qed.

Lemma rl_pread_spec dev runs term tail pos count :
  let c := d_contents (d_private dev) in
  Forall (run_inside bits (zlen c)) runs -> len term = 0 -> 0 <= pos -> 0 < count ->
  zlen c < 2 ^ 63 -> zlen (addrs runs) < 2 ^ 63 ->
  ntfs_rl_pread vol dev (runs ++ term :: tail) pos count =
    read_result (map (byte_at c) (take (Z.to_nat count) (drop (Z.to_nat pos) (addrs runs)))).
Proof.
  intros c Hin Ht Hp Hc Hmax Hmax'. unfold ntfs_rl_pread. zdec.
  destruct (rl_seek_spec (zlen c) term tail runs 0 pos) as (r1 & r2 & -> & -> & H1 & H2); [done|done|lia|lia|].
  cbn [mbind res_bind]. apply Forall_app in Hin as [_ Hin].
  rewrite rl_read_loop_spec; try done; try lia; [|destruct r2; [done|cbn in *; lia]].
  cbv zeta. zdec. rewrite app_nil_l, Z.add_0_l in *. by rewrite addrs_app_drop.
Qed.

Lemma rl_write_loop_spec term tail : forall runs dev ofs count b total,
  let c := d_contents (d_private dev) in
  Forall (run_inside bits (zlen c)) runs -> len term = 0 -> head_ofs runs ofs ->
  read_only vol = false -> writable dev -> 0 <= ofs -> 0 <= count -> ofs + count <= zlen (addrs runs) \/ count = 0 ->
  count <= zlen b -> zlen c < 2 ^ 63 ->
  exists dev', rl_write_loop vol (runs ++ term :: tail) dev ofs count b total = Ok (dev', total + count, None) /\
    writable dev' /\
    d_contents (d_private dev') = write_addrs c (take (Z.to_nat count) (drop (Z.to_nat ofs) (addrs runs))) b.
Proof.
  induction runs as [|r runs IH]; intros dev ofs count b total c Hin Ht Ho Hro Hw Ho0 Hc Hav Hb Hmax;
    cbn [app rl_write_loop]; (destruct (Z.eqb_spec count 0) as [->|Hne];
      [exists dev; rewrite take_0, Z.add_0_r; by destruct b|]).
  { exfalso. cbn [rl_addrs] in Hav. rewrite zlen_nil in Hav. lia. }
  apply Forall_cons_1 in Hin as [Hr Hin]. rewrite (run_bytes_spec (zlen c)) by done.
  pose proof Hr as (Hl & Hlcn & _ & _). cbn in Ho. rewrite (addrs_cons_length (zlen c)) in Hav by done.
  rewrite (proj2 (Z.eqb_neq (len r) 0)) by lia. rewrite addrs_window by lia. cbv zeta.
  set (n := Z.min count (len r * 2 ^ bits - ofs)). assert (0 < n <= count) as Hn by lia.
  rewrite run_addrs_slice by lia. rewrite Hro. cbn [negb].
  assert (forall dev1 al, length al = Z.to_nat n -> writable dev1 ->
    d_contents (d_private dev1) = write_addrs c al b ->
    exists dev', rl_write_loop vol (runs ++ term :: tail) dev1 0 (count - n) (drop (Z.to_nat n) b) (total + n) =
        Ok (dev', total + count, None) /\ writable dev' /\
      d_contents (d_private dev') =
        write_addrs c (al ++ take (Z.to_nat (count - n)) (addrs runs)) b) as Hnext.
  { intros dev1 al La Hw1 Ec. assert (zlen (d_contents (d_private dev1)) = zlen c) as Lc.
    { rewrite Ec. unfold zlen. by rewrite write_addrs_length. }
    destruct (IH dev1 0 (count - n) (drop (Z.to_nat n) b) (total + n)) as (dev' & -> & Hw' & Ec');
      rewrite ?Lc; try done; try lia; [by eapply head_ofs_0|unfold zlen in *; rewrite length_drop; lia|].
    exists dev'. split; [do 3 f_equal; lia|]. split; [done|]. rewrite Ec', Ec, drop_0.
    rewrite write_addrs_app by (unfold zlen in *; lia). by rewrite La. }
  destruct (Z.ltb_spec (lcn r) 0) as [Hneg|Hpos].
  - rewrite (proj2 (Z.eqb_eq (lcn r) LCN_HOLE)) by (unfold LCN_HOLE in *; lia). cbn [negb]. zdec.
    apply Hnext; [apply length_replicate|done|]. by rewrite write_addrs_holes.
  - destruct (run_inside_bounds (zlen c) r Hr) as [Hp0 Hp1]; [lia|].
    rewrite Z.shiftl_mul_pow2 by lia. rewrite s64_small by lia.
    destruct (ntfs_pwrite_spec dev (lcn r * 2 ^ bits + ofs) n b) as (dev1 & -> & Hw1 & W);
      [done|lia|lia|fold c; lia|]. cbn [mbind res_bind]. zdec.
    apply Hnext; [by rewrite length_map, length_seqZ|done|]. fold c in W.
    rewrite (write_addrs_block (Z.to_nat n)) in W by (unfold zlen in *; lia).
    injection W as <-. by rewrite Z2Nat.id by lia.
Qed.

Lemma rl_pwrite_spec dev runs term tail pos count b :
  let c := d_contents (d_private dev) in
  Forall (run_inside bits (zlen c)) runs -> len term = 0 -> read_only vol = false -> writable dev ->
  0 <= pos -> 0 < count -> pos + count <= zlen (addrs runs) -> count <= zlen b ->
  zlen c < 2 ^ 63 -> zlen (addrs runs) < 2 ^ 63 ->
  exists dev', ntfs_rl_pwrite vol dev (runs ++ term :: tail) 0 pos count b = Ok (dev', count, None) /\
    writable dev' /\
    d_contents (d_private dev') = write_addrs c (take (Z.to_nat count) (drop (Z.to_nat pos) (addrs runs))) b.
Proof.
  intros c Hin Ht Hro Hw Hp Hc Hav Hb Hmax Hmax'. unfold ntfs_rl_pwrite. zdec.
  destruct (rl_seek_spec (zlen c) term tail runs 0 pos) as (r1 & r2 & -> & -> & Hp1 & Hp2); [done|done|lia|lia|].
  cbn [mbind res_bind]. apply Forall_app in Hin as [_ Hin]. rewrite Z.add_0_l in *.
  rewrite addrs_app_drop by lia. rewrite addrs_app, zlen_app in Hav.
  apply (rl_write_loop_spec term tail r2 dev (pos - zlen (addrs r1)) count b 0);
    try done; try lia. destruct r2; [done|cbn; lia].
Qed.

Lemma addrs_nonneg size runs :
  Forall (run_inside bits size) runs ->
  Forall (fun a => match a with Some q => 0 <= q | None => True end) (addrs runs).
Proof.
  induction 1 as [|r runs (Hl & _ & _ & _) _ IH]; cbn [rl_addrs]; [done|]. apply Forall_app. split; [|done].
  unfold run_addrs. apply Forall_fmap, Forall_seqZ. intros i Hi. cbn. destruct (Z.leb_spec 0 (lcn r)); [nia|done].
Qed.

(** ** Copying *)

Section copying.
Context (dst src : runlist) (tdst tsrc : runlist_element) (rdst rsrc : runlist) (c0 : list Z).
Context (Hdst : Forall (run_inside bits (zlen c0)) dst) (Hsrc : Forall (run_inside bits (zlen c0)) src).
Context (Htd : len tdst = 0) (Hts : len tsrc = 0) (Hsame : zlen (addrs dst) = zlen (addrs src)).
Context (Hdisj : forall p, Some p ∈ addrs src -> Some p ∉ addrs dst).
Context (Hro : read_only vol = false) (Hc0 : zlen c0 < 2 ^ 63) (Hs : zlen (addrs src) < 2 ^ 63).
Context (Hmax : 0 < MAX_CLUSTER_COPY_SIZE vol).
Abbreviation value := (map (byte_at c0) (addrs src)).

(** The first [k] bytes are copied. *)
Definition copied (k : Z) (c : list Z) : Prop := c = write_addrs c0 (take (Z.to_nat k) (addrs dst)) value.

Lemma copied_length k c : copied k c -> zlen c = zlen c0.
Proof. intros ->. unfold zlen. by rewrite write_addrs_length. Qed.

(** The source still has its original value. *)
Lemma copied_source k c : copied k c -> map (byte_at c) (addrs src) = value.
Proof.
  intros ->. apply list_eq. intros i. rewrite !list_lookup_fmap.
  destruct (addrs src !! i) as [[p|]|] eqn:E; [|done..]. cbn. do 2 f_equal. rewrite write_addrs_other.
  - done.
  - pose proof (addrs_nonneg _ _ Hsrc) as H. apply (Forall_lookup_1 _ _ _ _ H E).
  - apply Forall_take. by eapply addrs_nonneg.
  - intros Hin. apply (Hdisj p); [by eapply list_elem_of_lookup_2|].
    apply elem_of_take in Hin as (j & Hj & _). by eapply list_elem_of_lookup_2.
Qed.

Lemma copy_step dev k n :
  copied k (d_contents (d_private dev)) -> writable dev -> 0 <= k -> 0 < n -> k + n <= zlen (addrs src) ->
  exists dev', ntfs_rl_pwrite vol dev (dst ++ tdst :: rdst) 0 k n (take (Z.to_nat n) (drop (Z.to_nat k) value)) =
      Ok (dev', n, None) /\ writable dev' /\ copied (k + n) (d_contents (d_private dev')).
Proof.
  intros Hk Hw Hk0 Hn Hin. pose proof (copied_length _ _ Hk) as L.
  assert (length value = length (addrs src)) as Lv by apply length_map.
  destruct (rl_pwrite_spec dev dst tdst rdst k n (take (Z.to_nat n) (drop (Z.to_nat k) value)))
    as (dev' & E & Hw' & Ec); rewrite ?L; try done; try lia.
  { unfold zlen in *. rewrite length_take, length_drop. lia. }
  exists dev'. split; [done|]. split; [done|]. unfold copied. rewrite Ec, Hk, Z2Nat.inj_add by lia.
  rewrite <- take_take_drop, write_addrs_app by (rewrite length_take; unfold zlen in *; lia).
  rewrite (write_addrs_take (take (Z.to_nat n) (drop (Z.to_nat k) (addrs dst))) _ (drop (length _) value)).
  rewrite !length_take, length_drop. unfold zlen in *. do 3 f_equal; lia.
Qed.

Lemma copy_loop_spec : forall fuel dev k,
  copied k (d_contents (d_private dev)) -> writable dev -> 0 <= k <= zlen (addrs src) ->
  zlen (addrs src) - k < Z.of_nat fuel ->
  exists dev', copy_loop vol fuel dev (dst ++ tdst :: rdst) (src ++ tsrc :: rsrc) k k = Ok (dev', true) /\
    copied (zlen (addrs src)) (d_contents (d_private dev')) /\ writable dev'.
Proof.
  induction fuel as [|fuel IH]; intros dev k Hk Hw Hk0 Hf; [lia|]. cbn [copy_loop].
  pose proof (copied_length _ _ Hk) as L.
  rewrite rl_pread_spec by (rewrite ?L; done || lia).
  rewrite <- firstn_map, <- skipn_map, (copied_source _ _ Hk).
  assert (length value = length (addrs src)) as Lv by apply length_map.
  set (n := Z.min (MAX_CLUSTER_COPY_SIZE vol) (zlen (addrs src) - k)).
  assert (take (Z.to_nat (MAX_CLUSTER_COPY_SIZE vol)) (drop (Z.to_nat k) value) =
    take (Z.to_nat n) (drop (Z.to_nat k) value)) as ->.
  { destruct (Z.le_ge_cases (MAX_CLUSTER_COPY_SIZE vol) (zlen (addrs src) - k)).
    - by replace n with (MAX_CLUSTER_COPY_SIZE vol) by lia.
    - rewrite !take_ge; [done|rewrite length_drop; unfold zlen in *; lia..]. }
  set (bs := take (Z.to_nat n) (drop (Z.to_nat k) value)).
  assert (zlen bs = n) as Lb by (unfold bs, zlen in *; rewrite length_take, length_drop; lia).
  destruct (Z.eq_dec k (zlen (addrs src))) as [Ek|Ek].
  { exists dev. subst k. assert (bs = []) as -> by (apply length_zero_iff_nil; unfold zlen in *; lia). done. }
  destruct (copy_step dev k n Hk Hw) as (dev1 & E & Hw1 & Hk1); [lia..|]. fold bs in E.
  assert (copy_write vol (length bs) dev (dst ++ tdst :: rdst) k bs = Ok (dev1, Some (k + n))) as Ew.
  { destruct bs as [|x bs'] eqn:Eb; [rewrite zlen_nil in Lb; lia|]. rewrite <- Eb in *. cbn [length].
    replace (length bs) with (S (length bs')) by by rewrite Eb. cbn [copy_write]. rewrite Eb at 1.
    rewrite Lb, E. cbn [mbind res_bind]. zdec.
    rewrite drop_ge by (unfold zlen in Lb; lia). by destruct (length bs'). }
  unfold read_result. destruct bs as [|x bs'] eqn:Eb; [rewrite zlen_nil in Lb; lia|].
  rewrite Ew, Lb. cbn [mbind res_bind]. apply IH; [done|done|lia|lia].
Qed.

End copying.

End runs.
End device.

Lemma rl_bytes_addrs vol size term tail runs :
  0 <= cluster_size_bits vol <= 31 -> Forall (run_inside (cluster_size_bits vol) size) runs -> len term = 0 ->
  rl_bytes vol (runs ++ term :: tail) = zlen (rl_addrs (cluster_size_bits vol) runs).
Proof.
  intros Hb Hin Ht. induction Hin as [|r runs Hr _ IH]; cbn [app rl_bytes].
  { by rewrite Ht. }
  rewrite (addrs_cons_length vol Hb size), IH, (run_bytes_spec vol Hb size) by done.
  destruct Hr as (Hl & _). zdec. nia.
Qed.

(** Distinct addresses read back what was written to them. *)
Lemma write_addrs_read al : forall c b,
  NoDup al -> Forall (fun a => match a with Some p => 0 <= p < zlen c | None => False end) al ->
  length b = length al -> map (byte_at (write_addrs c al b)) al = b.
Proof.
  induction al as [|a al IH]; intros c b Hnd Hal Hl; [by destruct b|].
  destruct b as [|x b]; [done|]. apply list.NoDup_cons in Hnd as [Hni Hnd].
  apply Forall_cons_1 in Hal as [Ha Hal]. destruct a as [p|]; [|done]. cbn [map write_addrs]. f_equal.
  - cbn. rewrite write_addrs_other; [|lia| |done].
    + rewrite list_lookup_insert_eq by (unfold zlen in Ha; lia). done.
    + eapply Forall_impl; [|exact Hal]. intros [q|]; [lia|done].
  - apply IH; [done| |by injection Hl]. by rewrite zlen_insert.
Qed.

Lemma addrs_mapped bits size runs :
  0 <= bits -> Forall (fun r => run_inside bits size r /\ 0 <= lcn r) runs ->
  Forall (fun a => match a with Some p => 0 <= p < size | None => False end) (rl_addrs bits runs).
Proof.
  intros Hb. induction 1 as [|r runs [(Hl & _ & _ & Hd) Hlcn] _ IH]; cbn [rl_addrs]; [done|].
  apply Forall_app. split; [|done]. unfold run_addrs. apply Forall_fmap, Forall_seqZ. intros i Hi. cbn.
  specialize (Hd Hlcn). zdec. nia.
Qed.

(** ** A device of bytes that transfers at most [md_chunk] bytes in a call *)

Record mem_dev := mk_mem_dev { md_bytes : list Z; md_chunk : positive }.

#[export] Instance mem_dev_ops : DeviceOps mem_dev := {
  d_pread d n pos :=
    if (pos <? 0) || (n <? 0) then Err EINVAL
    else Ok (take (Z.to_nat (Z.min n (Z.pos (md_chunk d)))) (drop (Z.to_nat pos) (md_bytes d)));
  d_pwrite d bs pos :=
    let k := Z.min (zlen bs) (Z.pos (md_chunk d)) in
    match awrite (md_bytes d) pos (take (Z.to_nat k) bs) with
    | Ok c => Ok (mk_mem_dev c (md_chunk d), k)
    | _ => Err ENOSPC
    end;
  d_sync _ := None;
  d_contents := md_bytes
}.

#[export] Instance mem_dev_laws : DeviceLaws mem_dev.
Proof.
  split; [| |done].
  - intros d n pos Hn Hp Hin. exists (Z.min n (Z.pos (md_chunk d))). split; [lia|]. cbn. zdec. done.
  - intros d bs pos Hb Hp Hin. cbn. cbn in Hin. set (k := Z.min (zlen bs) (Z.pos (md_chunk d))).
    assert (0 < zlen bs) by (destruct bs; [done|rewrite zlen_cons; pose proof (zlen_nonneg bs); lia]).
    assert (zlen (take (Z.to_nat k) bs) = k) as L by (unfold zlen in *; rewrite length_take; lia).
    destruct (awrite (md_bytes d) pos (take (Z.to_nat k) bs)) as [c'| |] eqn:W.
    2, 3: exfalso; revert W; unfold awrite; rewrite L; zcase; cbn; done || lia.
    exists k, (mk_mem_dev c' (md_chunk d)). split; [lia|]. by split.
Defined.

(** The copy buffer is not empty: four clusters below 2 GiB. *)
Lemma max_copy_pos vol : volume_ok vol -> cluster_size_bits vol <= 29 -> 0 < MAX_CLUSTER_COPY_SIZE vol.
Proof.
  intros [Hb Hcs _] H29. unfold MAX_CLUSTER_COPY_SIZE. rewrite Hcs. change 4 with (2 ^ 2).
  rewrite <- Z.pow_add_r by lia. assert (2 ^ (cluster_size_bits vol + 2) <= 2 ^ 31) by (apply Z.pow_le_mono_r; lia).
  rewrite u32_small; [|split]; lia.
Qed.

(** ** The properties *)

(** reading through a runlist delivers the bytes of the runs from the
    position on, zeroes in holes, however the device splits the transfers up;
    a read that crosses the end of the list is cut off there, and one behind
    it fails with EIO. *)
Theorem rl_pread_correct {D} `{DeviceLaws D} vol (dev : ntfs_device D) runs term tail pos count :
  let c := d_contents (d_private dev) in
  let al := rl_addrs (cluster_size_bits vol) runs in
  volume_ok vol -> Forall (run_inside (cluster_size_bits vol) (zlen c)) runs -> len term = 0 ->
  0 <= pos -> 0 < count -> zlen c < 2 ^ 63 -> zlen al < 2 ^ 63 ->
  ntfs_rl_pread vol dev (runs ++ term :: tail) pos count =
    if pos <? zlen al
    then Ok (map (byte_at c) (take (Z.to_nat count) (drop (Z.to_nat pos) al)))
    else Err EIO.
Proof.
  intros c al [Hb _ _] Hin Ht Hp Hc Hm Hm'. rewrite rl_pread_spec by done. fold c al. unfold read_result.
  destruct (Z.ltb_spec pos (zlen al)) as [Hlt|Hge].
  - destruct (map _ _) eqn:E; [|done]. apply (f_equal length) in E. revert E.
    rewrite length_map, length_take, length_drop. cbn [length]. unfold zlen in Hlt. lia.
  - rewrite drop_ge by (unfold zlen in Hge; lia). by rewrite take_nil.
Qed.

(** C38: bytes written through a runlist whose runs are mapped and do not overlap
    are read back, and every byte of the device at another place than those that
    the runlist maps the written range to is unchanged, in its own clusters and
    in all others. *)
Theorem rl_write_read_roundtrip {D} `{DeviceLaws D} vol (dev : ntfs_device D) runs term tail pos b :
  let c := d_contents (d_private dev) in
  let al := rl_addrs (cluster_size_bits vol) runs in
  volume_ok vol -> read_only vol = false -> writable dev ->
  Forall (fun r => run_inside (cluster_size_bits vol) (zlen c) r /\ 0 <= lcn r) runs -> len term = 0 -> NoDup al ->
  0 <= pos -> b <> [] -> pos + zlen b <= zlen al -> zlen c < 2 ^ 63 -> zlen al < 2 ^ 63 ->
  exists dev', ntfs_rl_pwrite vol dev (runs ++ term :: tail) 0 pos (zlen b) b = Ok (dev', zlen b, None) /\
    ntfs_rl_pread vol dev' (runs ++ term :: tail) pos (zlen b) = Ok b /\
    forall p, 0 <= p -> Some p ∉ take (Z.to_nat (zlen b)) (drop (Z.to_nat pos) al) ->
      d_contents (d_private dev') !! Z.to_nat p = c !! Z.to_nat p.
Proof.
  intros c al [Hbits _ _] Hro Hw Hin Ht Hnd Hp Hb Hl Hm Hm'.
  assert (0 < zlen b) as Hb0 by (destruct b; [done|rewrite zlen_cons; pose proof (zlen_nonneg b); lia]).
  assert (Forall (run_inside (cluster_size_bits vol) (zlen c)) runs) as Hin'
    by (eapply Forall_impl; [|exact Hin]; by intros r [? _]).
  destruct (rl_pwrite_spec vol Hbits dev runs term tail pos (zlen b) b) as (dev' & E & Hw' & Ec);
    try done; try lia. fold c al in Ec. set (win := take (Z.to_nat (zlen b)) (drop (Z.to_nat pos) al)) in Ec.
  assert (length b = length win) as Lw.
  { unfold win. rewrite length_take, length_drop. unfold zlen in *. lia. }
  pose proof (addrs_mapped _ _ _ (proj1 Hbits) Hin) as Hmap. fold al in Hmap.
  exists dev'. split; [done|]. split.
  - assert (zlen (d_contents (d_private dev')) = zlen c) as Lc.
    { rewrite Ec. unfold zlen. by rewrite write_addrs_length. }
    rewrite rl_pread_spec by (rewrite ?Lc; done || lia). fold al win. rewrite Ec, write_addrs_read.
    + by destruct b.
    + eapply sublist_NoDup; [exact Hnd|]. unfold win. etrans; [apply sublist_take|apply sublist_drop].
    + unfold win. by apply Forall_take, Forall_drop.
    + done.
  - intros p Hp0 Hni. rewrite Ec. apply write_addrs_other; [done| |].
    + unfold win. apply Forall_take, Forall_drop. eapply Forall_impl; [|exact Hmap]. intros [q|]; [lia|done].
    + done.
Qed.

Lemma copy_clusters_spec {D} `{DeviceLaws D} `{Heap} vol (dev : ntfs_device D) dst src tdst tsrc rdst rsrc :
  let c := d_contents (d_private dev) in
  let bits := cluster_size_bits vol in
  (forall n, heap_grants n = true) -> volume_ok vol -> bits <= 29 -> read_only vol = false -> writable dev ->
  Forall (fun r => run_inside bits (zlen c) r /\ 0 <= lcn r) dst -> Forall (run_inside bits (zlen c)) src ->
  len tdst = 0 -> len tsrc = 0 -> zlen (rl_addrs bits dst) = zlen (rl_addrs bits src) ->
  (forall p, Some p ∈ rl_addrs bits src -> Some p ∉ rl_addrs bits dst) -> NoDup (rl_addrs bits dst) ->
  zlen c < 2 ^ 63 -> zlen (rl_addrs bits src) < 2 ^ 63 ->
  exists dev', ntfs_copy_rl_clusters vol dev (dst ++ tdst :: rdst) (src ++ tsrc :: rsrc) =
      Ok (dev', Some (dst ++ tdst :: rdst)) /\
    let c' := d_contents (d_private dev') in
    writable dev' /\ zlen c' = zlen c /\
    map (byte_at c') (rl_addrs bits dst) = map (byte_at c) (rl_addrs bits src) /\
    forall p, 0 <= p -> Some p ∉ rl_addrs bits dst -> c' !! Z.to_nat p = c !! Z.to_nat p.
Proof.
  intros c bits Hh [Hb Hcs Hnr] Hb29 Hro Hw Hdst Hsrc Htd Hts Hsame Hdisj Hnd Hm Hm'.
  assert (Forall (run_inside bits (zlen c)) dst) as Hdst'
    by (eapply Forall_impl; [|exact Hdst]; by intros r [? _]).
  pose proof (max_copy_pos vol (Build_volume_ok vol Hb Hcs Hnr) Hb29) as Hmax.
  unfold ntfs_copy_rl_clusters. rewrite Hh. cbn [negb].
  destruct (copy_loop_spec vol Hb dst src tdst tsrc rdst rsrc c Hdst' Hsrc Htd Hts Hsame Hdisj Hro Hm Hm' Hmax
    (Z.to_nat (rl_bytes vol (src ++ tsrc :: rsrc)) + 1) dev 0) as (dev' & -> & Hc & Hw'); try done.
  - pose proof (zlen_nonneg (rl_addrs (cluster_size_bits vol) src)). lia.
  - rewrite (rl_bytes_addrs vol (zlen c)) by done. lia.
  - cbn [mbind res_bind]. exists dev'. split; [done|]. cbv zeta. fold bits in Hc. unfold copied in Hc. fold bits in Hc.
    rewrite <- Hsame, zlen_to_nat, firstn_all in Hc. rewrite Hc.
    split; [done|]. split; [unfold zlen; by rewrite write_addrs_length|]. split.
    + apply write_addrs_read; [done|apply addrs_mapped; [apply Hb|done]|]. rewrite length_map. unfold zlen in Hsame. lia.
    + intros p Hp Hni. apply write_addrs_other; [done| |done]. by apply (addrs_nonneg vol Hb (zlen c)).
Qed.

(** C39: copying the clusters of one runlist to another of the same size and
    without a cluster in common succeeds; afterwards the new runlist reads as
    the old one did, and nothing but the clusters of the new one has changed. *)
Theorem copy_clusters_correct {D} `{DeviceLaws D} `{Heap} vol (dev : ntfs_device D) dst src tdst tsrc rdst rsrc :
  let c := d_contents (d_private dev) in
  let bits := cluster_size_bits vol in
  (forall n, heap_grants n = true) -> volume_ok vol -> bits <= 29 -> read_only vol = false -> writable dev ->
  Forall (fun r => run_inside bits (zlen c) r /\ 0 <= lcn r) dst -> Forall (run_inside bits (zlen c)) src ->
  len tdst = 0 -> len tsrc = 0 -> zlen (rl_addrs bits dst) = zlen (rl_addrs bits src) ->
  (forall p, Some p ∈ rl_addrs bits src -> Some p ∉ rl_addrs bits dst) -> NoDup (rl_addrs bits dst) ->
  zlen c < 2 ^ 63 -> zlen (rl_addrs bits src) < 2 ^ 63 ->
  exists dev', ntfs_copy_rl_clusters vol dev (dst ++ tdst :: rdst) (src ++ tsrc :: rsrc) =
      Ok (dev', Some (dst ++ tdst :: rdst)) /\
    let c' := d_contents (d_private dev') in
    map (byte_at c') (rl_addrs bits dst) = map (byte_at c) (rl_addrs bits src) /\
    forall p, 0 <= p -> Some p ∉ rl_addrs bits dst -> c' !! Z.to_nat p = c !! Z.to_nat p.
Proof.
  intros c bits Hh Hv Hb29 Hro Hw Hdst Hsrc Htd Hts Hsame Hdisj Hnd Hm Hm'.
  destruct (copy_clusters_spec vol dev dst src tdst tsrc rdst rsrc) as (dev' & E & _ & _ & P); try done.
  by exists dev'.
Qed.

(** When the device cannot be read at all, copying clusters reports success
    although nothing was copied: a failed read ends the loop like the end of
    the runlist does. *)
Theorem copy_ignores_read_errors {D} `{DeviceOps D} `{Heap} vol (dev : ntfs_device D) new_rl r rl :
  (forall n, heap_grants n = true) -> volume_ok vol -> cluster_size_bits vol <= 29 ->
  (forall n pos, d_pread (d_private dev) n pos = Err EIO) ->
  0 < len r -> 0 <= lcn r -> len r * 2 ^ cluster_size_bits vol < 2 ^ 63 ->
  lcn r * 2 ^ cluster_size_bits vol < 2 ^ 63 ->
  ntfs_copy_rl_clusters vol dev new_rl (r :: rl) = Ok (dev, Some new_rl).
Proof.
  intros Hh [Hb Hcs Hnr] Hb29 Hbad Hl Hlcn Hm Hm'. unfold ntfs_copy_rl_clusters. rewrite Hh. cbn [negb].
  pose proof (max_copy_pos vol (Build_volume_ok vol Hb Hcs Hnr) Hb29) as Hmax.
  assert (0 < len r * 2 ^ cluster_size_bits vol) by nia.
  assert (0 <= lcn r * 2 ^ cluster_size_bits vol) by nia.
  assert (ntfs_rl_pread vol dev (r :: rl) 0 (MAX_CLUSTER_COPY_SIZE vol) = Err EIO) as E.
  { assert (run_bytes vol r = len r * 2 ^ cluster_size_bits vol) as Er.
    { unfold run_bytes. rewrite Z.shiftl_mul_pow2 by lia. apply s64_small. lia. }
    unfold ntfs_rl_pread. zdec. cbn [rl_seek]. rewrite Er, Z.add_0_l, s64_small by lia. zdec.
    cbn [mbind res_bind rl_read_loop]. zdec. rewrite Er, Z.shiftl_mul_pow2, s64_small by lia.
    set (n := Z.min _ _). assert (0 < n) by lia. unfold ntfs_pread. zdec.
    destruct (Z.to_nat n) as [|k] eqn:En; [lia|]. cbn [pread_loop]. zdec. by rewrite Hbad. }
  rewrite Nat.add_1_r. cbn [copy_loop]. rewrite E. done.
Qed.

(** ** Witnesses: a device of sixteen clusters of four bytes that transfers
    three bytes in a call *)

Definition tiny_volume : ntfs_volume := mk_volume 3 512 9 4 2 1024 10 4096 12 16 16 4 8 4 false false.

Lemma tiny_volume_ok : volume_ok tiny_volume.
Proof. split; cbn; lia. Qed.

Definition tiny_device : ntfs_device mem_dev :=
  mk_device (mk_mem_dev (seqZ 100 64) 3) false true false.

Definition tiny_src : runlist := [mk_rle 0 2 1; mk_rle 1 LCN_HOLE 1; mk_rle 2 9 2].
Definition tiny_dst : runlist := [mk_rle 0 12 4].
Definition tiny_end : runlist_element := mk_rle 4 LCN_ENOENT 0.

Lemma tiny_inside : Forall (run_inside 2 64) tiny_src /\ Forall (fun r => run_inside 2 64 r /\ 0 <= lcn r) tiny_dst.
Proof.
  split; repeat apply Forall_cons; try apply Forall_nil; unfold run_inside, LCN_HOLE; cbn; lia.
Qed.

Lemma rl_pread_correct_witness :
  ntfs_rl_pread tiny_volume tiny_device (tiny_src ++ [tiny_end]) 2 9 = Ok [110; 111; 0; 0; 0; 0; 136; 137; 138].
Proof.
  rewrite (rl_pread_correct tiny_volume tiny_device tiny_src tiny_end []); try done; try lia.
  apply tiny_inside.
Defined.

Lemma rl_write_read_roundtrip_witness :
  exists dev', ntfs_rl_pwrite tiny_volume tiny_device (tiny_dst ++ [tiny_end]) 0 3 5 [1; 2; 3; 4; 5] = Ok (dev', 5, None) /\
    ntfs_rl_pread tiny_volume dev' (tiny_dst ++ [tiny_end]) 3 5 = Ok [1; 2; 3; 4; 5].
Proof.
  destruct (rl_write_read_roundtrip tiny_volume tiny_device tiny_dst tiny_end [] 3 [1; 2; 3; 4; 5])
    as (dev' & E & R & _);
    [apply tiny_volume_ok|reflexivity|by split|apply tiny_inside|reflexivity|compute_decide|lia|done|compute_decide|compute_decide|compute_decide|].
  exists dev'. split; [exact E|exact R].
Defined.

Lemma copy_clusters_correct_witness :
  exists dev', @ntfs_copy_rl_clusters _ _ tiny_volume ample_heap tiny_device (tiny_dst ++ [tiny_end]) (tiny_src ++ [tiny_end]) =
      Ok (dev', Some (tiny_dst ++ [tiny_end])) /\
    map (byte_at (d_contents (d_private dev'))) (rl_addrs 2 tiny_dst) =
      [108; 109; 110; 111; 0; 0; 0; 0; 136; 137; 138; 139; 140; 141; 142; 143].
Proof.
  destruct (@copy_clusters_correct _ _ _ ample_heap tiny_volume tiny_device tiny_dst tiny_src tiny_end tiny_end [] [])
    as (dev' & E & R & _);
    [done|apply tiny_volume_ok|cbn; lia|done|done|apply tiny_inside|apply tiny_inside|done|done|done| | |done|done|].
  - assert (Forall (fun a => a = None \/ a ∉ rl_addrs 2 tiny_dst) (rl_addrs 2 tiny_src)) as F by compute_decide.
    intros p Hs. by destruct (proj1 (list.Forall_forall _ _) F _ Hs).
  - compute_decide.
  - exists dev'. split; [exact E|exact R].
Defined.

(** A device that fails every read. *)
Definition broken_ops : DeviceOps unit := {|
  d_pread _ _ _ := Err EIO; d_pwrite d bs _ := Ok (d, zlen bs); d_sync _ := None; d_contents _ := []
|}.

Lemma copy_ignores_read_errors_witness :
  @ntfs_copy_rl_clusters unit broken_ops tiny_volume ample_heap (mk_device tt false false false)
    (tiny_dst ++ [tiny_end]) (tiny_src ++ [tiny_end]) = Ok (mk_device tt false false false, Some (tiny_dst ++ [tiny_end])).
Proof.
  apply (@copy_ignores_read_errors unit broken_ops ample_heap tiny_volume (mk_device tt false false false)
    (tiny_dst ++ [tiny_end]) (mk_rle 0 2 1)); try done; cbn; lia.
Defined.
