(* ===== verification/FsckRepair.v ===== *)
(** Repair of duplicated clusters (libntfs/fsck.c,
    [ntfs_fsck_repair_cluster_dup]): clusters that another attribute owns as
    well are replaced by fresh ones with the same contents.

    The function composes the cluster allocator, the punching of a hole into
    the attribute's runlist, the copying of the clusters and the merging of
    runlists; its state is made of theirs. *)

From S2P Require Import Prelude Volume AttrIO Runlist RunlistPunch RunlistMerge Bitmap Fsck LcnAlloc Device.

(** [na->rl] after the call: a runlist (or NULL), or a pointer to memory that
    has been freed. *)
Inductive na_runlist := NaRl (rl : option runlist) | NaDangling.

Section repair.
Context {HP : Heap} {A : Type} {IO : AttrIO A} {D : Type} {OPS : DeviceOps D} (vol : ntfs_volume).

Record repair_state := mk_repair {
  rs_lv : lcn_vol A;
  rs_dev : ntfs_device D;
  rs_rl : option runlist
}.

(** What the call leaves: the volume and the device, [na->rl], whether the
    runlist is marked dirty, and the error. *)
Record repair_outcome := mk_outcome {
  ro_lv : lcn_vol A;
  ro_dev : ntfs_device D;
  ro_rl : na_runlist;
  ro_dirty : bool;
  ro_status : option errno
}.

(** One duplicated run; [None] for the runlist when the allocation fails.  The
    result of the punching is used without a check: when there is none,
    [punch_rl] is an uninitialised pointer. *)
Definition repair_run (st : repair_state) (rl : runlist) (d : runlist_element)
    : res (lcn_vol A * option repair_state) :=
  last ← rl_last rl 0;
  let rl_size := last + 1 in
  '(lv, a) ← ntfs_cluster_alloc vol (rs_lv st) (vcn d) (len d) (s64 (lcn d + len d)) DATA_ZONE;
  match a with
  | inr _ => Ok (lv, None)
  | inl alloc_rl =>
      _ ← rl_last alloc_rl 0;
      h ← ntfs_rl_punch_hole rl rl_size (vcn d) (len d) true;
      match h with
      | Some (rl, Some punch_rl) =>
          _ ← rl_last punch_rl 0;
          '(dev, alloc_rl) ← ntfs_copy_rl_clusters vol (rs_dev st) alloc_rl punch_rl;
          match ntfs_runlists_merge (Some rl) alloc_rl with
          | Ok rl => Ok (lv, Some (mk_repair lv dev rl))
          | Err _ => Ok (lv, Some (mk_repair lv dev None))
          | Undef => Undef
          end
      | _ => Undef
      end
  end.

(** [for (i = 0; dup_rl[i].length; i++)]; [freed]: the runlist [na->rl] points
    to has been freed by the punching. *)
Fixpoint repair_loop (dup_rl : runlist) (na_rl : runlist) (freed : bool) (st : repair_state) : res repair_outcome :=
  match dup_rl with
  | [] => Undef
  | d :: dup_rl =>
      if len d =? 0 then Ok (mk_outcome (rs_lv st) (rs_dev st) (NaRl (rs_rl st)) true None) else
      match rs_rl st with
      | None => Undef
      | Some rl =>
          '(lv, st') ← repair_run st rl d;
          match st' with
          | None => Ok (mk_outcome lv (rs_dev st) (if freed then NaDangling else NaRl (Some na_rl)) false (Some ENOMEM))
          | Some st => repair_loop dup_rl na_rl true st
          end
      end
  end.

Definition ntfs_fsck_repair_cluster_dup (lv : lcn_vol A) (dev : ntfs_device D) (na_rl dup_rl : runlist)
    : res repair_outcome :=
  repair_loop dup_rl na_rl false (mk_repair lv dev (Some na_rl)).

End repair.
