(* ===== verification/FsckRepairThm.v ===== *)
(** Correctness of the repair of duplicated clusters (libntfs/fsck.c,
    [ntfs_fsck_repair_cluster_dup]), proved from the specifications of the
    components it calls: the allocator, the hole punching, the copying and the
    merging.  The attribute keeps its contents, its duplicated clusters are
    replaced by clusters that were free, and nothing that was in use changes
    on the device. *)

From S2P Require Import Prelude Volume AttrIO Runlist RunlistPunch RunlistMerge RunlistMergeThm Bitmap Fsck LcnAlloc.
From S2P Require Import FsckThm FsckRead LcnAllocThm LcnAllocProps Device DeviceThm FsckRepair.

(** ** Specification *)

(** Where byte [i] of vcn [v] is on the device, [None] in a hole. *)
Definition vcn_addr (bits : Z) (runs : runlist) (v i : Z) : option Z :=
  match rl_den runs v with
  | Some l => if 0 <=? l then Some (l * 2 ^ bits + i) else None
  | None => None
  end.

(** The byte an attribute with these runs has there. *)
Definition vcn_byte (c : list Z) (bits : Z) (runs : runlist) (v i : Z) : Z := byte_at c (vcn_addr bits runs v i).

(** * Proofs *)

Lemma rl_last_at runs term tail : forall v i,
  contig v runs -> len term = 0 -> rl_last (runs ++ term :: tail) i = Ok (i + zlen runs).
Proof.
  induction runs as [|r runs IH]; intros v i; cbn [contig app rl_last].
  - intros _ ->. by rewrite zlen_nil, Z.add_0_r.
  - intros (_ & P & C) Ht. zdec. rewrite (IH _ _ C Ht), zlen_cons. f_equal. lia.
Qed.

(** A run and the mapping of its vcns. *)
Lemma rl_den_run v0 runs r w :
  contig v0 runs -> r ∈ runs -> vcn r <= w < vcn r + len r -> rl_den runs w = Some (lcn_at r w).
Proof.
  revert v0. induction runs as [|x runs IH]; intros v0; cbn [contig rl_den]; [by intros _ ?%not_elem_of_nil|].
  intros (E & P & C) [->|Hin]%elem_of_cons Hw; [by zdec|].
  rewrite (IH _ C Hin Hw). destruct (Z.ltb_spec w (vcn x + len x)); [|by rewrite andb_false_r].
  exfalso. assert (rl_den runs w = None) as En by (apply (rl_den_before (v0 + len x)); [done|lia]).
  by rewrite (IH _ C Hin Hw) in En.
Qed.

(** The n-th address of a runlist. *)
Lemma addrs_lookup bits runs : 0 <= bits -> forall v0 v i,
  contig v0 runs -> v0 <= v < runs_end v0 runs -> 0 <= i < 2 ^ bits ->
  rl_addrs bits runs !! Z.to_nat ((v - v0) * 2 ^ bits + i) = Some (vcn_addr bits runs v i).
Proof.
  intros Hb. induction runs as [|r runs IH]; intros v0 v i; cbn [contig runs_end rl_addrs]; [lia|].
  intros (E & P & C) Hv Hi. assert (0 < 2 ^ bits) by lia.
  assert (length (run_addrs bits r) = Z.to_nat (len r * 2 ^ bits)) as Lr
    by (unfold run_addrs; rewrite length_map, length_seqZ; done).
  unfold vcn_addr. cbn [rl_den]. destruct (Z.ltb_spec v (vcn r + len r)) as [Hlt|Hge].
  - zdec. rewrite lookup_app_l by (rewrite Lr; nia). unfold run_addrs.
    rewrite list_lookup_fmap, lookup_seqZ_lt by nia. cbn. f_equal. unfold lcn_at.
    destruct (Z.leb_spec 0 (lcn r)); zdec; [|done]. f_equal. rewrite Z2Nat.id by nia. rewrite E. lia.
  - rewrite andb_false_r. rewrite lookup_app_r, Lr by (rewrite Lr; nia).
    fold (vcn_addr bits runs v i). rewrite <- (IH (v0 + len r)) by (done || lia). f_equal. nia.
Qed.

Lemma addrs_length bits runs : 0 <= bits -> forall v0,
  contig v0 runs -> zlen (rl_addrs bits runs) = (runs_end v0 runs - v0) * 2 ^ bits.
Proof.
  intros Hb. induction runs as [|r runs IH]; intros v0; cbn [contig runs_end rl_addrs]; [rewrite zlen_nil; lia|].
  intros (_ & P & C). rewrite zlen_app, (IH _ C). unfold zlen, run_addrs. rewrite length_map, length_seqZ. nia.
Qed.

(** An address belongs to a byte of a vcn. *)
Lemma addrs_elem bits runs v0 k a : 0 <= bits -> contig v0 runs -> rl_addrs bits runs !! k = Some a ->
  exists v i, v0 <= v < runs_end v0 runs /\ 0 <= i < 2 ^ bits /\ a = vcn_addr bits runs v i /\
    Z.of_nat k = (v - v0) * 2 ^ bits + i.
Proof.
  intros Hb C Hk. pose proof (lookup_lt_Some _ _ _ Hk) as Hlt. pose proof (addrs_length bits runs Hb v0 C) as L.
  unfold zlen in L. assert (0 < 2 ^ bits) by lia.
  set (v := v0 + Z.of_nat k / 2 ^ bits). set (i := Z.of_nat k mod 2 ^ bits).
  assert (0 <= i < 2 ^ bits) as Hi by (apply Z.mod_pos_bound; lia).
  assert (Z.of_nat k = (v - v0) * 2 ^ bits + i) as Ek by (unfold v, i; rewrite (Z.div_mod (Z.of_nat k) (2 ^ bits)) at 1 by lia; lia).
  assert (v0 <= v < runs_end v0 runs) as Hv by (split; [unfold v; pose proof (Z.div_pos (Z.of_nat k) (2 ^ bits)); lia|nia]).
  exists v, i. split; [done|]. split; [done|]. split; [|done].
  pose proof (addrs_lookup bits runs Hb v0 v i C Hv Hi) as E. rewrite <- Ek, Nat2Z.id, Hk in E. by injection E.
Qed.

(** The clusters of mapped runs are their mapping. *)
Lemma clusters_lookup runs : forall v0 v, contig v0 runs -> Forall (fun r => 0 <= lcn r) runs -> v0 <= v ->
  rl_clusters runs !! Z.to_nat (v - v0) = rl_den runs v.
Proof.
  induction runs as [|r runs IH]; intros v0 v; cbn [contig rl_den]; [done|].
  intros (E & P & C) [L1 L2]%Forall_cons_1 Hv. change (r :: runs) with ([r] ++ runs).
  rewrite rl_clusters_app, rl_clusters_one.
  assert (length (seqZ (lcn r) (len r)) = Z.to_nat (len r)) as Lr by apply length_seqZ.
  destruct (Z.ltb_spec v (vcn r + len r)) as [Hlt|Hge].
  - zdec. rewrite lookup_app_l by lia. rewrite lookup_seqZ_lt by lia. f_equal. unfold lcn_at. zdec. lia.
  - rewrite andb_false_r, lookup_app_r, Lr by lia. rewrite <- (IH (v0 + len r)) by (done || lia). f_equal. lia.
Qed.

Definition in_use {A} `{AttrIO A} (lv : lcn_vol A) (x : Z) : Prop := bm_bit lv x = true \/ oracle lv x = true.

Lemma available_not_in_use {A} `{AttrIO A} vol (lv : lcn_vol A) x : available vol lv x -> in_use lv x -> False.
Proof. intros (_ & H1 & H2) [H3|H3]; congruence. Qed.

(** A duplicated run inside an attribute of [De] clusters. *)
Definition dup_ok (De : Z) (d : runlist_element) : Prop :=
  0 < len d /\ 0 <= vcn d /\ vcn d + len d <= De /\ 0 <= lcn d /\ lcn d + len d < 2 ^ 63.

Section repair_proof.
Context {HP : Heap} (Hheap : forall n, heap_grants n = true).
Context {A : Type} {IO : AttrIO A} {LAWS : AttrIOLaws A} {D : Type} {OPS : DeviceOps D} {DLAWS : DeviceLaws D}.
Context (vol : ntfs_volume) (Hvol : volume_ok vol) (Hnr : 0 <= nr_clusters vol <= 2 ^ 32) (Hmft : 0 <= mft_lcn vol).
Context (Hro : read_only vol = false) (Hb29 : cluster_size_bits vol <= 29).
Abbreviation bits := (cluster_size_bits vol).
Abbreviation nr := (nr_clusters vol).
Implicit Types (lv : lcn_vol A) (dev : ntfs_device D).
Abbreviation contents dev := (d_contents (d_private dev)).

Lemma Hbits : 0 <= bits <= 29.
Proof. destruct Hvol. lia. Qed.

Lemma Hpow : 0 < 2 ^ bits.
Proof. pose proof Hbits. apply Z.pow_pos_nonneg; lia. Qed.

Lemma addr_cluster l l' i i' : 0 <= i < 2 ^ bits -> 0 <= i' < 2 ^ bits -> l * 2 ^ bits + i = l' * 2 ^ bits + i' -> l = l' /\ i = i'.
Proof.
  pose proof Hpow. intros. assert (l = l') as ->; [|lia].
  apply (f_equal (fun x => x / 2 ^ bits)) in H2. by rewrite !Z.div_add_l, !(Z.div_small i), !(Z.div_small i'), !Z.add_0_r in H2 by lia.
Qed.

(** The volume, the device and the runlist, before and after the vcns in [P]
    have been repaired. *)
Section inv.
Context (lv0 : lcn_vol A) (c0 : list Z) (runs0 : runlist) (term : runlist_element) (De : Z).
Context (Hterm : lcn term = LCN_ENOENT) (Hsize : nr * 2 ^ bits <= zlen c0 < 2 ^ 63) (HDe : De * 2 ^ bits < 2 ^ 63).

Record repair_inv (P : Z -> Prop) lv dev (rl runs : runlist) : Prop := {
  ri_list : dst_list rl runs term De;
  ri_mapped : forall v l, rl_den runs v = Some l -> LCN_HOLE <= l < nr /\ (0 <= l -> in_use lv l);
  ri_lv : lv_ok vol lv;
  ri_grow : forall x, 0 <= x -> in_use lv0 x -> in_use lv x;
  ri_dev : writable dev /\ zlen (contents dev) = zlen c0;
  ri_contents : forall v i, 0 <= v < De -> 0 <= i < 2 ^ bits -> vcn_byte (contents dev) bits runs v i = vcn_byte c0 bits runs0 v i;
  ri_kept : forall l i, 0 <= l -> 0 <= i < 2 ^ bits -> in_use lv0 l ->
    contents dev !! Z.to_nat (l * 2 ^ bits + i) = c0 !! Z.to_nat (l * 2 ^ bits + i);
  ri_same : forall v, ~ P v -> rl_den runs v = rl_den runs0 v;
  ri_new : forall v, P v -> exists l, rl_den runs v = Some l /\ available vol lv0 l;
  ri_inj : forall v w l, P v -> rl_den runs v = Some l -> rl_den runs w = Some l -> v = w
}.

(** Runs whose clusters are on the volume. *)
Lemma runs_inside runs v0 :
  contig v0 runs -> 0 <= v0 -> runs_end v0 runs <= De ->
  (forall v l, rl_den runs v = Some l -> LCN_HOLE <= l < nr) -> forall c : list Z, zlen c = zlen c0 ->
  Forall (run_inside bits (zlen c)) runs /\ Forall (fun r => LCN_HOLE <= lcn r) runs /\ Forall run_ok runs.
Proof.
  intros C H0 He Hd c Hc. pose proof Hbits. pose proof Hpow.
  assert (forall r, r ∈ runs -> v0 <= vcn r /\ 0 < len r /\ vcn r + len r <= De /\
    LCN_HOLE <= lcn r /\ (0 <= lcn r -> lcn r + len r <= nr)) as Hr.
  { intros r Hin. pose proof Hin as (P & Q & ->)%list_elem_of_split. pose proof C as [C1 C2]%contig_app.
    cbn [contig] in C2. destruct C2 as (Ev & Pl & C3). pose proof (contig_end_ge _ _ C1). pose proof (contig_end_ge _ _ C3).
    rewrite runs_end_app in He. cbn [runs_end] in He. split; [lia|]. split; [done|]. split; [lia|].
    pose proof (rl_den_run v0 _ r (vcn r) C Hin ltac:(lia)) as E1. pose proof (rl_den_run v0 _ r (vcn r + len r - 1) C Hin ltac:(lia)) as E2.
    apply Hd in E1, E2. unfold lcn_at in E1, E2. destruct (Z.leb_spec 0 (lcn r)); lia. }
  rewrite !list.Forall_forall. split; [|split]; intros r Hin; destruct (Hr r Hin) as (R1 & R2 & R3 & R4 & R5).
  - unfold run_inside. split; [done|]. unfold LCN_HOLE in *. split; [lia|]. split; [nia|]. rewrite Hc. nia.
  - done.
  - unfold run_ok, LCN_HOLE in *. split_and!; try lia; nia.
Qed.

(** The address of a byte in mapped runs. *)
Lemma fresh_addr lv runs v0 a : contig v0 runs -> Forall (fun r => 0 <= lcn r) runs -> 0 <= v0 ->
  Forall (available vol lv) (rl_clusters runs) -> a ∈ rl_addrs bits runs ->
  exists v i l, v0 <= v < runs_end v0 runs /\ 0 <= i < 2 ^ bits /\ rl_den runs v = Some l /\ available vol lv l /\
    a = Some (l * 2 ^ bits + i).
Proof.
  intros C L H0 Av (k & Hk)%list_elem_of_lookup_1. pose proof Hbits.
  destruct (addrs_elem bits runs v0 k a) as (v & i & Hv & Hi & -> & _); [lia|done|done|].
  destruct (rl_den runs v) as [l|] eqn:E; [|apply (rl_den_None v0) in E; [lia|done]].
  assert (available vol lv l) as Hl.
  { rewrite list.Forall_forall in Av. apply Av. rewrite <- (clusters_lookup runs v0 v) in E by (done || lia).
    by eapply list_elem_of_lookup_2. }
  exists v, i, l. split; [done|]. split; [done|]. split; [done|]. split; [done|]. unfold vcn_addr. rewrite E.
  destruct Hl as ([Hl _] & _). by zdec.
Qed.

Lemma fresh_nodup lv runs v0 : contig v0 runs -> Forall (fun r => 0 <= lcn r) runs -> 0 <= v0 ->
  Forall (available vol lv) (rl_clusters runs) -> NoDup (rl_clusters runs) -> NoDup (rl_addrs bits runs).
Proof.
  intros C L H0 Av Nd. pose proof Hbits. apply list.NoDup_alt. intros k1 k2 a H1 H2.
  destruct (addrs_elem bits runs v0 k1 a) as (v1 & i1 & Hv1 & Hi1 & E1 & K1); [lia|done|done|].
  destruct (addrs_elem bits runs v0 k2 a) as (v2 & i2 & Hv2 & Hi2 & E2 & K2); [lia|done|done|].
  assert (forall v, v0 <= v < runs_end v0 runs -> exists l, rl_den runs v = Some l /\ 0 <= l) as Hm.
  { intros v Hv. destruct (rl_den runs v) as [l|] eqn:E; [|apply (rl_den_None v0) in E; [lia|done]].
    exists l. split; [done|]. rewrite <- (clusters_lookup runs v0 v) in E by (done || lia).
    rewrite list.Forall_forall in Av. destruct (Av l) as ([? _] & _); [by eapply list_elem_of_lookup_2|done]. }
  destruct (Hm v1 Hv1) as (l1 & D1 & P1). destruct (Hm v2 Hv2) as (l2 & D2 & P2).
  unfold vcn_addr in E1, E2. rewrite D1 in E1. rewrite D2 in E2. revert E1 E2. zdec. intros -> E2. injection E2 as E2.
  apply addr_cluster in E2 as [-> ->]; [|done|done].
  rewrite <- (clusters_lookup runs v0) in D1, D2 by (done || lia).
  pose proof (list.NoDup_lookup _ _ _ _ Nd D1 D2). nia.
Qed.

Lemma copy_fresh lv dev aruns pruns ta tp ja jp s n :
  contig s aruns -> runs_end s aruns = s + n -> Forall (fun r => 0 <= lcn r) aruns ->
  NoDup (rl_clusters aruns) -> Forall (available vol lv) (rl_clusters aruns) ->
  contig s pruns -> runs_end s pruns = s + n -> 0 <= s -> s + n <= De -> len ta = 0 -> len tp = 0 ->
  (forall v l, rl_den pruns v = Some l -> LCN_HOLE <= l < nr /\ (0 <= l -> in_use lv l)) ->
  writable dev -> zlen (contents dev) = zlen c0 ->
  exists dev', ntfs_copy_rl_clusters vol dev (aruns ++ ta :: ja) (pruns ++ tp :: jp) = Ok (dev', Some (aruns ++ ta :: ja)) /\
    (writable dev' /\ zlen (contents dev') = zlen c0) /\
    (forall v i, s <= v < s + n -> 0 <= i < 2 ^ bits ->
      byte_at (contents dev') (vcn_addr bits aruns v i) = byte_at (contents dev) (vcn_addr bits pruns v i)) /\
    (forall l i, 0 <= l -> 0 <= i < 2 ^ bits -> in_use lv l ->
      contents dev' !! Z.to_nat (l * 2 ^ bits + i) = contents dev !! Z.to_nat (l * 2 ^ bits + i)).
Proof.
  intros CA EA LA NA Av CP EP Hs Hn Hta Htp Hpd Hw Hc. pose proof Hbits. pose proof Hpow.
  assert (forall v l, rl_den aruns v = Some l -> LCN_HOLE <= l < nr) as Had.
  { intros v l E. destruct (Z_lt_ge_dec v s); [by rewrite (rl_den_before s) in E|].
    rewrite <- (clusters_lookup aruns s v) in E by (done || lia). rewrite list.Forall_forall in Av.
    destruct (Av l) as (? & _); [by eapply list_elem_of_lookup_2|]. unfold LCN_HOLE. lia. }
  destruct (runs_inside aruns s CA Hs ltac:(lia) Had (contents dev) Hc) as (IA & _ & _).
  destruct (runs_inside pruns s CP Hs ltac:(lia) (fun v l E => proj1 (Hpd v l E)) (contents dev) Hc) as (IP & _ & _).
  pose proof (addrs_length bits aruns ltac:(lia) s CA) as LenA. pose proof (addrs_length bits pruns ltac:(lia) s CP) as LenP.
  rewrite EA in LenA. rewrite EP in LenP.
  destruct (copy_clusters_spec vol dev aruns pruns ta tp ja jp) as (dev' & E & Hw' & Hz & Hcopy & Hother); try done; try lia.
  - rewrite list.Forall_forall in *. intros r Hr. split; [by apply IA|by apply LA].
  - intros p Hsrc Hdst. apply (fresh_addr lv aruns s) in Hdst as (v & i & l & Hv & Hi & Hd & Hl & [= ->]); try done.
    apply list_elem_of_lookup_1 in Hsrc as (k & Hk).
    destruct (addrs_elem bits pruns s k _ ltac:(lia) CP Hk) as (v' & i' & Hv' & Hi' & E' & _).
    unfold vcn_addr in E'. destruct (rl_den pruns v') as [l'|] eqn:Ed; [|done]. destruct (Z.leb_spec 0 l'); [|done].
    injection E' as E'. apply addr_cluster in E' as [-> ->]; [|done|done].
    apply (available_not_in_use vol lv l'); [done|]. by apply (Hpd v' l').
  - by apply (fresh_nodup lv aruns s).
  - nia.
  - exists dev'. split; [done|]. split; [split; [done|congruence]|]. split.
    + intros v i Hv Hi. apply (f_equal (fun x => x !! Z.to_nat ((v - s) * 2 ^ bits + i))) in Hcopy.
      rewrite !list_lookup_fmap, !(addrs_lookup bits) in Hcopy by (done || lia). by injection Hcopy.
    + intros l i Hl Hi Hu. apply Hother; [nia|]. intros Hin.
      apply (fresh_addr lv aruns s) in Hin as (v & i' & l' & _ & Hi' & _ & Hl' & [= E']); try done.
      apply addr_cluster in E' as [-> ->]; [|done|done]. by apply (available_not_in_use vol lv l').
Qed.

Lemma dst_holds rl runs : dst_list rl runs term De -> rl_holds rl 0 runs term.
Proof. intros [(J & E) [C Ee O] [T1 T2] _ _ _]. split; [by exists J|done|done|by rewrite Ee|lia]. Qed.

Lemma all_holes runs : contig 0 runs -> (forall v l, rl_den runs v = Some l -> LCN_HOLE <= l) ->
  Forall (fun r => LCN_HOLE <= lcn r) runs.
Proof.
  intros C Hd. apply list.Forall_forall. intros r Hin. pose proof Hin as (P & Q & E)%list_elem_of_split.
  assert (0 < len r) as Pl by (rewrite E in C; apply contig_app in C as [_ C]; by destruct C as (_ & ? & _)).
  apply (Hd (vcn r)). rewrite (rl_den_run 0 runs r (vcn r)) by (done || lia). unfold lcn_at.
  destruct (Z.leb_spec 0 (lcn r)); f_equal; lia.
Qed.

(** The duplicated run [d] is cut out and the fresh clusters are put in. *)
Lemma punch_and_fill rl runs d aruns tail :
  dst_list rl runs term De -> (forall v l, rl_den runs v = Some l -> LCN_HOLE <= l) -> dup_ok De d ->
  contig (vcn d) aruns -> runs_end (vcn d) aruns = vcn d + len d ->
  Forall run_ok aruns -> Forall (fun r => 0 <= lcn r) aruns ->
  exists new p pruns pj merged R, ntfs_rl_punch_hole rl (zlen runs + 1) (vcn d) (len d) true = Ok (Some (new, Some p)) /\
    p = pruns ++ mk_rle (vcn d + len d) LCN_ENOENT 0 :: pj /\ contig (vcn d) pruns /\ runs_end (vcn d) pruns = vcn d + len d /\
    (forall v, rl_den pruns v = if (vcn d <=? v) && (v <? vcn d + len d) then rl_den runs v else None) /\
    ntfs_runlists_merge (Some new) (Some (aruns ++ mk_rle (vcn d + len d) LCN_RL_NOT_MAPPED 0 :: tail)) = Ok (Some merged) /\
    dst_list merged R term De /\
    (forall v, rl_den R v = if (vcn d <=? v) && (v <? vcn d + len d) then rl_den aruns v else rl_den runs v).
Proof.
  intros Hd Hh (D1 & D2 & D3 & _) CA EA OA LA. pose proof (dst_holds _ _ Hd) as Hr.
  pose proof Hd as [_ [C Ee O] [T1 T2] _ _ Hb].
  destruct (punch_hole_spec rl 0 runs term (vcn d) (len d) Hheap Hr) as
    (new & p & runs' & pruns & E & [Nm NC NO [NT1 NT2] _] & [(pj & Ep) PC PO [PT1 _] _] & (P & h & Q & -> & Hl & Hv & He) & Cap & Den);
    [by rewrite Hterm|by apply all_holes|lia|done|lia|lia|].
  cbn [vcn] in PT1.
  assert (dst_list new (P ++ h :: Q) term De) as Hn.
  { split; [done|split; [done|lia|done]|done|by left|exact Cap|done]. }
  destruct (merge_fills_hole new (aruns ++ mk_rle (vcn d + len d) LCN_RL_NOT_MAPPED 0 :: tail) P h Q term De aruns
    (mk_rle (vcn d + len d) LCN_RL_NOT_MAPPED 0) (vcn d) (vcn d + len d)) as (merged & R & Em & Hm & Dm); try done.
  - split; try done.
    + by exists [], tail.
    + intros ->. cbn in EA. lia.
    + unfold all_mapped. eapply Forall_impl; [|exact LA]. cbn beta. unfold LCN_HOLE. intros; lia.
    + by right.
  - by left.
  - by left.
  - exists new, p, pruns, pj, merged, R. split; [done|]. split; [done|]. split; [done|]. split; [lia|].
    split; [intros v; apply Den|]. split; [done|]. split; [done|]. intros v. rewrite Dm. unfold merged_den.
    destruct ((vcn d <=? v) && (v <? vcn d + len d)) eqn:Er; [done|].
    pose proof (proj1 (Den v)) as Dv. rewrite Er in Dv. rewrite Dv.
    destruct (Z.ltb_spec v De) as [|Hge]; [done|]. rewrite (rl_den_after 0 runs v) by (done || lia).
    destruct (Z.leb_spec De v), (Z.ltb_spec v (vcn d)); cbn [andb]; done || lia.
Qed.

Lemma repair_inv_step P lv dev rl runs lv' dev' rl' R aruns d :
  repair_inv P lv dev rl runs -> dup_ok De d -> lv_ok vol lv' ->
  (forall x, 0 <= x -> in_use lv x \/ x ∈ rl_clusters aruns -> in_use lv' x) ->
  contig (vcn d) aruns -> runs_end (vcn d) aruns = vcn d + len d -> Forall (fun r => 0 <= lcn r) aruns ->
  NoDup (rl_clusters aruns) -> (forall v l, rl_den aruns v = Some l -> l ∈ rl_clusters aruns /\ available vol lv l) ->
  (writable dev' /\ zlen (contents dev') = zlen c0) ->
  (forall v i, vcn d <= v < vcn d + len d -> 0 <= i < 2 ^ bits ->
    byte_at (contents dev') (vcn_addr bits aruns v i) = byte_at (contents dev) (vcn_addr bits runs v i)) ->
  (forall l i, 0 <= l -> 0 <= i < 2 ^ bits -> in_use lv l ->
    contents dev' !! Z.to_nat (l * 2 ^ bits + i) = contents dev !! Z.to_nat (l * 2 ^ bits + i)) ->
  dst_list rl' R term De ->
  (forall v, rl_den R v = if (vcn d <=? v) && (v <? vcn d + len d) then rl_den aruns v else rl_den runs v) ->
  repair_inv (fun v => P v \/ vcn d <= v < vcn d + len d) lv' dev' rl' R.
Proof.
  intros [I1 I2 I3 I4 [I5 I5'] I6 I7 I8 I9 I10] Hd Hlv Hgrow CA EA LA NA Hal Hdev Hcp Hkeep HR DR.
  assert (forall v, vcn d <= v < vcn d + len d -> rl_den R v = rl_den aruns v) as Din by (intros; rewrite DR; by zdec).
  assert (forall v, ~ vcn d <= v < vcn d + len d -> rl_den R v = rl_den runs v) as Dout.
  { intros v Hv. rewrite DR. destruct (Z.leb_spec (vcn d) v), (Z.ltb_spec v (vcn d + len d)); cbn [andb]; done || lia. }
  assert (forall v, vcn d <= v < vcn d + len d \/ ~ vcn d <= v < vcn d + len d) as Dec by (intros; lia).
  assert (forall l, available vol lv l -> available vol lv0 l) as Hav.
  { intros l Hl. pose proof Hl as (Hr & _). split; [done|].
    assert (~ in_use lv0 l) as Hn by (intros Hu; apply (available_not_in_use vol lv l Hl), I4; [lia|done]).
    unfold in_use in Hn. split; [destruct (bm_bit lv0 l)|destruct (oracle lv0 l)]; tauto. }
  split; try done.
  - intros v l E. destruct (Dec v) as [Hv|Hv].
    + rewrite (Din v Hv) in E. destruct (Hal v l E) as [Hin (? & _)]. unfold LCN_HOLE. split; [lia|].
      intros. apply Hgrow; [done|by right].
    + rewrite (Dout v Hv) in E. destruct (I2 v l E) as [? Hu]. split; [done|]. intros. apply Hgrow; [done|left; auto].
  - intros x Hx Hu. apply Hgrow; [done|left; auto].
  - intros v i Hv Hi. rewrite <- (I6 v i Hv Hi). unfold vcn_byte. destruct (Dec v) as [Hr|Hr].
    + replace (vcn_addr bits R v i) with (vcn_addr bits aruns v i) by (unfold vcn_addr; by rewrite (Din v Hr)). by apply Hcp.
    + replace (vcn_addr bits R v i) with (vcn_addr bits runs v i) by (unfold vcn_addr; by rewrite (Dout v Hr)).
      unfold vcn_addr. destruct (rl_den runs v) as [l|] eqn:E; [|done]. destruct (Z.leb_spec 0 l); [|done].
      cbn. rewrite Hkeep; [done|done|done|]. by apply (I2 v l).
  - intros l i Hl Hi Hu. rewrite Hkeep; [by apply I7|done|done|by apply I4].
  - intros v Hn. rewrite Dout by tauto. apply I8. tauto.
  - intros v HPv. destruct (Dec v) as [Hv|Hv].
    + rewrite (Din v Hv). destruct (rl_den aruns v) as [l|] eqn:E; [|apply (rl_den_None (vcn d)) in E; [lia|done]].
      exists l. split; [done|]. apply Hav. by apply (Hal v l).
    + rewrite (Dout v Hv). apply I9. tauto.
  - intros v w l HPv. destruct (Dec v) as [Hv|Hv], (Dec w) as [Hw|Hw];
      rewrite ?(Din v Hv), ?(Dout v Hv), ?(Din w Hw), ?(Dout w Hw).
    + rewrite <- !(clusters_lookup aruns (vcn d)) by (done || lia). intros E1 E2.
      pose proof (list.NoDup_lookup _ _ _ _ NA E1 E2). lia.
    + intros E1 E2. exfalso. destruct (Hal v l E1) as [_ Ha]. apply (available_not_in_use vol lv l Ha).
      apply (I2 w l E2). destruct Ha. lia.
    + intros E1 E2. exfalso. destruct (Hal w l E2) as [_ Ha]. apply (available_not_in_use vol lv l Ha).
      apply (I2 v l E1). destruct Ha. lia.
    + apply I10. tauto.
Qed.

Lemma repair_run_spec P st rl runs d :
  repair_inv P (rs_lv st) (rs_dev st) rl runs -> dup_ok De d ->
  exists lv o, repair_run vol st rl d = Ok (lv, o) /\
    match o with
    | None => True
    | Some st' => exists rl' runs', rs_rl st' = Some rl' /\
        repair_inv (fun v => P v \/ vcn d <= v < vcn d + len d) (rs_lv st') (rs_dev st') rl' runs'
    end.
Proof.
  intros Hi Hd. pose proof Hi as [I1 I2 I3 I4 [I5 I5'] I6 I7 I8 I9 I10]. pose proof Hd as (D1 & D2 & D3 & D4 & D5).
  pose proof I1 as [(J & EJ) [C Ee _] [_ T2] _ _ Hb]. pose proof Hbits. pose proof Hpow.
  unfold repair_run. rewrite EJ, (rl_last_at runs term J 0 0 C T2). cbn [mbind res_bind]. rewrite <- EJ.
  rewrite s64_small by lia.
  destruct (cluster_alloc_spec Hheap vol Hnr Hmft (vcn d) (len d) (rs_lv st) I3 D2 ltac:(lia) D1 (lcn d + len d) DATA_ZONE)
    as (lv & a & -> & Ha); [lia|]. cbn [mbind res_bind].
  destruct a as [al|e]; [|exists lv, None; done].
  assert (lv_ok vol lv) as Hlv by (by eapply success_lv_ok).
  destruct Ha as (aruns & tail & -> & CA & LA & NA & _ & HB & [J1 J2 _ _ _ _ J7 _]).
  assert (runs_end (vcn d) aruns = vcn d + len d) as EA by (rewrite runs_end_clusters by done; lia).
  rewrite (rl_last_at aruns _ tail (vcn d) 0 CA) by done. cbn [mbind res_bind].
  assert (forall v l, rl_den aruns v = Some l -> l ∈ rl_clusters aruns /\ available vol (rs_lv st) l) as Hal.
  { intros v l E. destruct (Z_lt_ge_dec v (vcn d)); [by rewrite (rl_den_before (vcn d)) in E|].
    rewrite <- (clusters_lookup aruns (vcn d) v) in E by (done || lia). rewrite list.Forall_forall in J2.
    assert (l ∈ rl_clusters aruns) as Hin by (by eapply list_elem_of_lookup_2). auto. }
  destruct (runs_inside aruns (vcn d) CA D2 ltac:(lia)) with (c := c0) as (_ & _ & OA); [|done|].
  { intros v l E. destruct (Hal v l E) as [_ (? & _)]. unfold LCN_HOLE. lia. }
  destruct (punch_and_fill rl runs d aruns tail) as (new & p & pruns & pj & merged & R & E1 & -> & PC & PE & PD & E2 & HR & DR);
    try done.
  { intros v l E. by apply I2 in E as [[? _] _]. }
  rewrite Z.add_0_l, E1. cbn [mbind res_bind]. rewrite (rl_last_at pruns _ pj (vcn d) 0 PC) by done. cbn [mbind res_bind].
  destruct (copy_fresh (rs_lv st) (rs_dev st) aruns pruns (mk_rle (vcn d + len d) LCN_RL_NOT_MAPPED 0)
    (mk_rle (vcn d + len d) LCN_ENOENT 0) tail pj (vcn d) (len d)) as (dev' & -> & Hdev & Hcp & Hkeep); try done.
  { intros v l. rewrite PD. destruct (_ && _); [|done]. apply I2. }
  cbn [mbind res_bind]. rewrite E2. eexists _, _. split; [done|]. exists merged, R. split; [done|]. cbn [rs_lv rs_dev].
  eapply (repair_inv_step P (rs_lv st) (rs_dev st) rl runs _ _ _ _ aruns d); try done.
  - intros x Hx Hu. destruct (HB x Hx) as (B1 & B2 & _). unfold in_use in *. rewrite J7. tauto.
  - intros v i Hv Hiv. rewrite (Hcp v i Hv Hiv). f_equal. unfold vcn_addr. rewrite PD. by zdec.
Qed.

Lemma repair_loop_spec na_rl term_d tail : len term_d = 0 -> forall dups P freed st rl runs,
  rs_rl st = Some rl -> repair_inv P (rs_lv st) (rs_dev st) rl runs -> Forall (dup_ok De) dups ->
  exists o, repair_loop vol (dups ++ term_d :: tail) na_rl freed st = Ok o /\
    match ro_status o with
    | None => ro_dirty o = true /\ exists rl' runs', ro_rl o = NaRl (Some rl') /\
        repair_inv (fun v => P v \/ Exists (fun d => vcn d <= v < vcn d + len d) dups) (ro_lv o) (ro_dev o) rl' runs'
    | Some e => e = ENOMEM
    end.
Proof.
  intros Ht. induction dups as [|d dups IH]; intros P freed st rl runs Hrl Hi Hd; cbn [app repair_loop].
  { rewrite Ht. eexists. split; [done|]. cbn. split; [done|]. exists rl, runs. rewrite Hrl. split; [done|].
    destruct Hi as [I1 I2 I3 I4 I5 I6 I7 I8 I9 I10]. split; try done.
    - intros v Hn. apply I8. tauto.
    - intros v [HPv|HE]; [by apply I9|by inversion HE].
    - intros v w l [HPv|HE]; [by apply I10|by inversion HE]. }
  apply Forall_cons_1 in Hd as [Hd Hds]. pose proof Hd as (D1 & _). zdec. rewrite Hrl.
  destruct (repair_run_spec P st rl runs d Hi Hd) as (lv & o & -> & Ho). cbn [mbind res_bind].
  destruct o as [st'|]; [|eexists; split; [done|done]].
  destruct Ho as (rl' & runs' & Hrl' & Hi'). destruct (IH _ true st' rl' runs' Hrl' Hi' Hds) as (o & -> & P2).
  exists o. split; [done|]. destruct (ro_status o); [done|]. destruct P2 as (Pd & rl2 & runs2 & E2 & [K1 K2 K3 K4 K5 K6 K7 K8 K9 K10]).
  split; [done|]. exists rl2, runs2. split; [done|].
  split; try done.
  - intros v Hn. apply K8. intros H'. apply Hn. rewrite Exists_cons. tauto.
  - intros v Hn. apply K9. rewrite Exists_cons in Hn. tauto.
  - intros v w l Hn. apply K10. rewrite Exists_cons in Hn. tauto.
Qed.

End inv.
End repair_proof.

(** C2: when the repair of an attribute succeeds, the attribute has the
    contents it had, every vcn of a duplicated run is on a cluster that was
    free before and that no other vcn of the attribute uses, every other vcn
    is where it was, and on the device no cluster that was in use has
    changed.  It fails only with ENOMEM. *)
Theorem repair_cluster_dup_correct `{Heap} {A} `{AttrIOLaws A} {D} `{DeviceLaws D} vol (lv : lcn_vol A) (dev : ntfs_device D)
    rl runs term De dups term_d tail :
  let bits := cluster_size_bits vol in
  let c := d_contents (d_private dev) in
  (forall n, heap_grants n = true) -> volume_ok vol -> 0 <= nr_clusters vol <= 2 ^ 32 -> 0 <= mft_lcn vol ->
  read_only vol = false -> bits <= 29 -> nr_clusters vol * 2 ^ bits <= zlen c < 2 ^ 63 -> writable dev -> lv_ok vol lv ->
  dst_list rl runs term De -> lcn term = LCN_ENOENT -> De * 2 ^ bits < 2 ^ 63 ->
  (forall v l, rl_den runs v = Some l -> LCN_HOLE <= l < nr_clusters vol /\ (0 <= l -> in_use lv l)) ->
  Forall (dup_ok De) dups -> len term_d = 0 ->
  exists o, ntfs_fsck_repair_cluster_dup vol lv dev rl (dups ++ term_d :: tail) = Ok o /\
    match ro_status o with
    | Some e => e = ENOMEM
    | None => exists rl' runs', ro_rl o = NaRl (Some rl') /\ ro_dirty o = true /\ dst_list rl' runs' term De /\
        lv_ok vol (ro_lv o) /\
        (forall v i, 0 <= v < De -> 0 <= i < 2 ^ bits ->
          vcn_byte (d_contents (d_private (ro_dev o))) bits runs' v i = vcn_byte c bits runs v i) /\
        (forall v, let dup := Exists (fun d => vcn d <= v < vcn d + len d) dups in
          (~ dup -> rl_den runs' v = rl_den runs v) /\
          (dup -> exists l, rl_den runs' v = Some l /\ available vol lv l /\ forall w, rl_den runs' w = Some l -> w = v)) /\
        (forall l i, 0 <= l -> 0 <= i < 2 ^ bits -> in_use lv l ->
          d_contents (d_private (ro_dev o)) !! Z.to_nat (l * 2 ^ bits + i) = c !! Z.to_nat (l * 2 ^ bits + i))
    end.
Proof.
  intros bits c Hh Hv Hnr Hmft Hro Hb Hs Hw Hok Hl Ht HDe Hm Hd Htd. unfold ntfs_fsck_repair_cluster_dup.
  destruct (repair_loop_spec Hh vol Hv Hnr Hmft Hro Hb lv c runs term De Ht Hs HDe rl term_d tail Htd dups (fun _ => False) false
    (mk_repair lv dev (Some rl)) rl runs) as (o & E & P); [done| |done|].
  { split; try done; cbn [rs_lv rs_dev]. }
  exists o. split; [done|]. destruct (ro_status o); [done|]. destruct P as (Pd & rl' & runs' & Er & [K1 K2 K3 K4 K5 K6 K7 K8 K9 K10]).
  exists rl', runs'. split; [exact Er|]. split; [exact Pd|]. split; [exact K1|]. split; [exact K3|]. split; [exact K6|].
  split; [|exact K7]. intros v. cbv zeta. split.
  - intros Hn. apply K8. tauto.
  - intros Hdup. destruct (K9 v (or_intror Hdup)) as (l & El & Hl'). exists l. split; [done|]. split; [done|].
    intros w Ew. symmetry. by apply (K10 v w l (or_intror Hdup)).
Qed.

(** A volume of 16 clusters of two bytes; [free] is the second byte of its
    bitmap, the first eight clusters are in use.  An attribute owns clusters 4
    and 5, and another one owns them as well. *)
Definition rep_vol : ntfs_volume := mk_volume 3 512 9 2 1 1024 10 4096 12 16 1 4 8 4 true false.
Definition rep_lv (free : Z) : lcn_vol (list Z) := mk_lv (list Z) [0xff; free] (mk_zones 4 8 4 8 0 0 2 true) None.
Definition rep_dev : ntfs_device mem_dev := mk_device (mk_mem_dev (seqZ 100 32) 3) false false false.
Definition rep_runs : runlist := [mk_rle 0 4 2].
Definition rep_rl : runlist := in_block 170 (rep_runs ++ [mk_rle 2 LCN_ENOENT 0]).
Definition rep_dups : runlist := [mk_rle 0 4 1; mk_rle 1 5 1].

Lemma rep_lv_ok free : lv_ok rep_vol (rep_lv free).
Proof. split; try done. intros x Hx. cbn in Hx. unfold zlen in Hx. cbn in Hx. lia. Qed.

Lemma rep_dst : dst_list rep_rl rep_runs (mk_rle 2 LCN_ENOENT 0) 2.
Proof.
  split; try done; [by eexists| |by left].
  split; [done|done|]. repeat constructor; cbn; lia.
Qed.

(** Two free clusters: both duplicated clusters move. *)
Lemma repair_cluster_dup_correct_witness :
  exists o rl' runs', @ntfs_fsck_repair_cluster_dup ample_heap _ mem_attr _ mem_dev_ops rep_vol (rep_lv 0x3f) rep_dev rep_rl
      (rep_dups ++ [mk_rle 2 LCN_ENOENT 0]) = Ok o /\
    ro_rl o = NaRl (Some rl') /\ dst_list rl' runs' (mk_rle 2 LCN_ENOENT 0) 2 /\
    vcn_byte (d_contents (d_private (ro_dev o))) 1 runs' 1 0 = 110 /\
    exists l, rl_den runs' 0 = Some l /\ available rep_vol (rep_lv 0x3f) l.
Proof.
  destruct (@repair_cluster_dup_correct ample_heap _ mem_attr mem_attr_laws _ mem_dev_ops mem_dev_laws rep_vol (rep_lv 0x3f)
    rep_dev rep_rl rep_runs (mk_rle 2 LCN_ENOENT 0) 2 rep_dups (mk_rle 2 LCN_ENOENT 0) []) as (o & E & P).
  - done.
  - split; cbn; lia.
  - cbn. lia.
  - cbn. lia.
  - reflexivity.
  - cbn. lia.
  - split; [vm_compute; discriminate|vm_compute; reflexivity].
  - reflexivity.
  - apply rep_lv_ok.
  - apply rep_dst.
  - reflexivity.
  - cbn. lia.
  - intros v l. cbn [rl_den rep_runs vcn len]. destruct ((0 <=? v) && (v <? 0 + 2)) eqn:Ev; [|discriminate].
    apply andb_true_iff in Ev as [Ev1%Z.leb_le Ev2%Z.ltb_lt]. intros El. injection El as El. cbn in El.
    assert (v = 0 \/ v = 1) as [Hv|Hv] by lia; subst v; cbn in El; subst l; (split; [unfold LCN_HOLE; cbn; lia|left; reflexivity]).
  - repeat constructor; cbn; lia.
  - reflexivity.
  - assert (ro_status o = None) as Hs.
    { transitivity (match @ntfs_fsck_repair_cluster_dup ample_heap _ mem_attr _ mem_dev_ops rep_vol (rep_lv 0x3f) rep_dev rep_rl
        (rep_dups ++ [mk_rle 2 LCN_ENOENT 0]) with Ok o => ro_status o | _ => Some EIO end);
        [rewrite E; reflexivity|vm_compute; reflexivity]. }
    rewrite Hs in P. destruct P as (rl' & runs' & E1 & _ & Hd & _ & Hc & Hm & _).
    exists o, rl', runs'. split; [exact E|]. split; [exact E1|]. split; [exact Hd|]. split.
    + apply (Hc 1 0); cbn; lia.
    + destruct (proj2 (Hm 0)) as (l & El & Ha & _); [left; cbn; lia|]. exists l. split; [exact El|exact Ha].
Defined.

(** When clusters run out after the first duplicated run, the call fails
    with ENOMEM after the runlist of the attribute has been freed, and the
    attribute keeps the pointer to it. *)
Theorem repair_failure_leaves_dangling :
  match @ntfs_fsck_repair_cluster_dup ample_heap _ mem_attr _ mem_dev_ops rep_vol (rep_lv 0x7f) rep_dev rep_rl
      (rep_dups ++ [mk_rle 2 LCN_ENOENT 0]) with
  | Ok o => ro_status o = Some ENOMEM /\ ro_rl o = NaDangling
  | _ => False
  end.
Proof. vm_compute. done. Qed.
