(* ===== verification/Compress.v ===== *)
(** Compression of file data (libntfs/compress.c): the compressor of one
    sub-block of at most 4096 bytes, a lazy parser over hash chains, and the
    decompressor of a compression block.  Buffers are byte arrays, pointers
    into them are indices. *)

From S2P Require Import Prelude Bytes.

Module Compress.

Definition NTFS_SYMBOL_TOKEN : Z := 0.
Definition NTFS_TOKEN_MASK : Z := 1.
Definition NTFS_SB_SIZE_MASK : Z := 4095.
Definition NTFS_SB_SIZE : Z := 4096.
Definition NTFS_SB_IS_COMPRESSED : Z := 32768.
Definition NICE_MATCH_LEN : Z := 18.
Definition MAX_SEARCH_DEPTH : nat := 24.
Definition HASH_SHIFT : Z := 14.
Definition HASH_MULTIPLIER : Z := 506832829.

(** ** The compressor *)

(** [struct COMPRESS_CONTEXT], without the input buffer and its size, which
    do not change. *)
Record comp_context := mkContext {
  cc_size : Z;
  cc_rel : Z;
  cc_mxsz : Z;
  cc_head : list Z;
  cc_prev : list Z
}.

Definition set_match (c : comp_context) (size rel : Z) : comp_context :=
  mkContext size rel (cc_mxsz c) (cc_head c) (cc_prev c).
Definition set_mxsz (c : comp_context) (mxsz : Z) : comp_context :=
  mkContext (cc_size c) (cc_rel c) mxsz (cc_head c) (cc_prev c).
Definition set_chains (c : comp_context) (head prev : list Z) : comp_context :=
  mkContext (cc_size c) (cc_rel c) (cc_mxsz c) head prev.

(** The hash of the three bytes at [p], read as four on x86. *)
Definition ntfs_hash (inbuf : list Z) (p : Z) : res Z :=
  w ← get_le 4 inbuf p;
  let str := Z.land w 16777215 in
  Ok (Z.shiftr (u32 (str * HASH_MULTIPLIER)) (32 - HASH_SHIFT)).

(** [matchptr[k] != strptr[k]] *)
Definition byte_differs (inbuf : list Z) (m s k : Z) : res bool :=
  a ← aget inbuf (m + k);
  b ← aget inbuf (s + k);
  Ok (negb (a =? b)).

(** [for (len = 1; len < best_len - 1; len++) if (...) goto next_match;] *)
Fixpoint prefix_differs (fuel : nat) (inbuf : list Z) (m s len lim : Z) : res bool :=
  if lim <=? len then Ok false else
  match fuel with
  | O => Undef
  | S fuel =>
      d ← byte_differs inbuf m s len;
      if d : bool then Ok true else prefix_differs fuel inbuf m s (len + 1) lim
  end.

(** Is the match at [m] no longer than [best]? *)
Definition not_longer (inbuf : list Z) (m s best : Z) : res bool :=
  d ← byte_differs inbuf m s best;
  if d : bool then Ok true else
  d ← byte_differs inbuf m s (best - 1);
  if d : bool then Ok true else
  d ← byte_differs inbuf m s 0;
  if d : bool then Ok true else
  prefix_differs (Z.to_nat best) inbuf m s 1 (best - 1).

(** [while (best_len < max_len && (...)) best_len++;] *)
Fixpoint extend_to_max (fuel : nat) (inbuf : list Z) (m s best max : Z) : res Z :=
  if max <=? best then Ok best else
  match fuel with
  | O => Undef
  | S fuel =>
      d ← byte_differs inbuf m s best;
      if d : bool then Ok best else extend_to_max fuel inbuf m s (best + 1) max
  end.

(** The [do ... while] that extends a match; [true] when the length is good
    enough to stop the search. *)
Fixpoint extend_match (fuel : nat) (inbuf : list Z) (m s best nice max : Z) : res (Z * bool) :=
  match fuel with
  | O => Undef
  | S fuel =>
      let best := best + 1 in
      if nice <=? best then
        best ← extend_to_max (Z.to_nat max) inbuf m s best max;
        Ok (best, true)
      else
        d ← byte_differs inbuf m s best;
        if d : bool then Ok (best, false) else extend_match fuel inbuf m s best nice max
  end.

(** The search through a hash chain: the length of the best match and where
    it starts. *)
Fixpoint search_chain (depth : nat) (inbuf prev : list Z) (cur s best bestptr nice max : Z) : res (Z * Z) :=
  if cur <? 0 then Ok (best, bestptr) else
  match depth with
  | O => Ok (best, bestptr)
  | S depth =>
      no ← not_longer inbuf cur s best;
      if no : bool then
        next ← aget prev cur;
        search_chain depth inbuf prev next s best bestptr nice max
      else
        r ← extend_match (Z.to_nat max) inbuf cur s best nice max;
        let '(best, reached) := r in
        if reached : bool then Ok (best, cur) else
        next ← aget prev cur;
        search_chain depth inbuf prev next s best cur nice max
  end.

Definition ntfs_best_match (inbuf : list Z) (bufsize : Z) (c : comp_context) (i best_len : Z) : res comp_context :=
  let max_len := Z.min (bufsize - i) (cc_mxsz c) in
  let nice_len := Z.min NICE_MATCH_LEN max_len in
  if max_len <? 4 then Ok (set_match c best_len 0) else
  hash ← ntfs_hash inbuf i;
  cur_match ← aget (cc_head c) hash;
  prev ← aset (cc_prev c) i cur_match;
  head ← aset (cc_head c) hash (s16 i);
  let c := set_chains c head prev in
  if max_len <=? best_len then Ok (set_match c best_len 0) else
  r ← search_chain MAX_SEARCH_DEPTH inbuf prev cur_match i best_len i nice_len max_len;
  let '(best, bestptr) := r in
  Ok (set_match c best (bestptr - i)).

Definition ntfs_skip_position (inbuf : list Z) (bufsize : Z) (c : comp_context) (i : Z) : res comp_context :=
  if bufsize - i <? 4 then Ok c else
  hash ← ntfs_hash inbuf i;
  h ← aget (cc_head c) hash;
  prev ← aset (cc_prev c) i h;
  head ← aset (cc_head c) hash (s16 i);
  Ok (set_chains c head prev).

(** [do { ntfs_skip_position(pctx, i); } while (++i != j);] *)
Fixpoint skip_positions (fuel : nat) (inbuf : list Z) (bufsize : Z) (c : comp_context) (i j : Z) : res comp_context :=
  match fuel with
  | O => Undef
  | S fuel =>
      c ← ntfs_skip_position inbuf bufsize c i;
      if i + 1 =? j then Ok c else skip_positions fuel inbuf bufsize c (i + 1) j
  end.

(** The local variables of [ntfs_compress_block]. *)
Record comp_state := mkState {
  cs_ctx : comp_context;
  cs_out : list Z;
  cs_i : Z;
  cs_bp : Z;
  cs_mxoff : Z;
  cs_have : bool;
  cs_xout : Z;
  cs_ptag : Z;
  cs_tag : Z;
  cs_ntag : Z
}.

(** One more bit for offsets, one fewer for lengths. *)
Definition widen (st : comp_state) : comp_state :=
  mkState (set_mxsz (cs_ctx st) (Z.shiftr (cc_mxsz (cs_ctx st) + 2) 1)) (cs_out st) (cs_i st)
    (cs_bp st + 1) (Z.shiftl (cs_mxoff st) 1) (cs_have st) (cs_xout st) (cs_ptag st) (cs_tag st) (cs_ntag st).

(** [while (mxoff < i) { bp++; ... }] *)
Fixpoint widen_to (fuel : nat) (st : comp_state) : res comp_state :=
  if cs_mxoff st <? cs_i st then
    match fuel with
    | O => Undef
    | S fuel => widen_to fuel (widen st)
    end
  else Ok st.

Definition with_ctx (st : comp_state) (c : comp_context) : comp_state :=
  mkState c (cs_out st) (cs_i st) (cs_bp st) (cs_mxoff st) (cs_have st) (cs_xout st) (cs_ptag st) (cs_tag st) (cs_ntag st).

(** [outbuf[xout++] = inbuf[i++]; have_match = have;] *)
Definition put_literal (inbuf : list Z) (st : comp_state) (have : bool) : res comp_state :=
  b ← aget inbuf (cs_i st);
  out ← aset (cs_out st) (cs_xout st) b;
  Ok (mkState (cs_ctx st) out (cs_i st + 1) (cs_bp st) (cs_mxoff st) have (cs_xout st + 1) (cs_ptag st) (cs_tag st) (cs_ntag st)).

(** The two bytes of a phrase at offset [offs], up to position [j], and its
    bit in the tag. *)
Definition put_phrase (st : comp_state) (offs bp_cur j : Z) : res comp_state :=
  let q := u32 (Z.shiftl (Z.lnot offs) (16 - bp_cur) + (j - cs_i st - 3)) in
  out ← aset (cs_out st) (cs_xout st) (Z.land q 255);
  out ← aset out (cs_xout st + 1) (Z.land (Z.shiftr q 8) 255);
  Ok (mkState (cs_ctx st) out (cs_i st) (cs_bp st) (cs_mxoff st) (cs_have st) (cs_xout st + 2) (cs_ptag st)
    (Z.lor (cs_tag st) (Z.shiftl 1 (8 - cs_ntag st))) (cs_ntag st)).

(** Passes the positions from [i] up to [j] to the match finder. *)
Definition skip_to (inbuf : list Z) (bufsize : Z) (st : comp_state) (i j : Z) : res comp_state :=
  c ← skip_positions (Z.to_nat (j - i)) inbuf bufsize (cs_ctx st) i j;
  Ok (mkState c (cs_out st) j (cs_bp st) (cs_mxoff st) false (cs_xout st) (cs_ptag st) (cs_tag st) (cs_ntag st)).

(** The end of an iteration: the tag is stored when it is full. *)
Definition end_token (st : comp_state) : res comp_state :=
  let ntag := cs_ntag st - 1 in
  if ntag =? 0 then
    out ← aset (cs_out st) (cs_ptag st) (cs_tag st);
    Ok (mkState (cs_ctx st) out (cs_i st) (cs_bp st) (cs_mxoff st) (cs_have st) (cs_xout st + 1) (cs_xout st) 0 8)
  else
    Ok (mkState (cs_ctx st) (cs_out st) (cs_i st) (cs_bp st) (cs_mxoff st) (cs_have st) (cs_xout st) (cs_ptag st) (cs_tag st) ntag).

(** The lazy choice at a position with a match of less than [NICE_MATCH_LEN]
    bytes: the match, or a literal when the match at the next position is
    longer. *)
Definition lazy_token (inbuf : list Z) (bufsize : Z) (st : comp_state) (j bp_cur offs : Z) : res comp_state :=
  let i := cs_i st in
  let st := if cs_mxoff st <? i + 1 then widen st else st in
  c ← ntfs_best_match inbuf bufsize (cs_ctx st) (i + 1) (cc_size (cs_ctx st));
  let st := with_ctx st c in
  let k := i + 1 + cc_size c in
  if j + 1 <? k then put_literal inbuf st true
  else
    st ← put_phrase st offs bp_cur j;
    skip_to inbuf bufsize st (i + 2) j.

(** The body of the loop; [true] for its [break]. *)
Definition compress_step (inbuf : list Z) (bufsize : Z) (st : comp_state) : res (comp_state * bool) :=
  st ← (if cs_have st then Ok st else
        st ← widen_to 16 st;
        c ← ntfs_best_match inbuf bufsize (cs_ctx st) (cs_i st) 2;
        Ok (with_ctx st c));
  let size := cc_size (cs_ctx st) in
  if 3 <=? size then
    let j := cs_i st + size in
    let bp_cur := cs_bp st in
    let offs := cc_rel (cs_ctx st) in
    if NICE_MATCH_LEN <=? size then
      st ← put_phrase st offs bp_cur j;
      if j =? bufsize then
        Ok (mkState (cs_ctx st) (cs_out st) j (cs_bp st) (cs_mxoff st) (cs_have st) (cs_xout st) (cs_ptag st) (cs_tag st)
              (cs_ntag st - 1), true)
      else
        st ← skip_to inbuf bufsize st (cs_i st + 1) j;
        st ← end_token st;
        Ok (st, false)
    else
      st ← lazy_token inbuf bufsize st j bp_cur offs;
      st ← end_token st;
      Ok (st, false)
  else
    st ← put_literal inbuf st false;
    st ← end_token st;
    Ok (st, false).

Fixpoint compress_loop (fuel : nat) (inbuf : list Z) (bufsize : Z) (st : comp_state) : res comp_state :=
  if (cs_i st <? bufsize) && (cs_xout st <? NTFS_SB_SIZE + 2) then
    match fuel with
    | O => Undef
    | S fuel =>
        r ← compress_step inbuf bufsize st;
        let '(st, stop) := r in
        if stop : bool then Ok st else compress_loop fuel inbuf bufsize st
    end
  else Ok st.

(** The state before the loop: the chains are empty, [prev] holds what the
    allocator left there. *)
Definition comp_init `{Heap} (outbuf : list Z) : comp_state :=
  mkState (mkContext (heap_junk 0) (heap_junk 1) (Z.shiftl 1 (16 - 4) + 2) (replicate (Z.to_nat 16384) (-1))
             (map (fun k => s16 (heap_junk k)) (seq 0 (Z.to_nat 4096))))
    outbuf 0 4 (Z.shiftl 1 4) false 3 2 0 8.

(** [sizeof(struct COMPRESS_CONTEXT)] *)
Definition comp_context_size : Z := 24 + 2 * 16384 + 2 * 4096.

(** The size of the sub-block with its header, and the output buffer; the size
    0 is the error return. *)
Definition ntfs_compress_block `{Heap} (inbuf : list Z) (bufsize : Z) (outbuf : list Z) : res (Z * list Z) :=
  if negb (heap_grants comp_context_size) then Ok (0, outbuf) else
  st ← compress_loop (Z.to_nat bufsize) inbuf bufsize (comp_init outbuf);
  r ← (if cs_ntag st =? 8 then Ok (cs_xout st - 1, cs_out st)
       else out ← aset (cs_out st) (cs_ptag st) (cs_tag st); Ok (cs_xout st, out));
  let '(xout, out) := r in
  if (bufsize <=? cs_i st) && (xout <? NTFS_SB_SIZE + 2) then
    out ← aset out 0 (Z.land (xout - 3) 255);
    out ← aset out 1 (176 + Z.land (Z.shiftr (xout - 3) 8) 15);
    Ok (xout, out)
  else
    data ← aslice inbuf 0 bufsize;
    out ← awrite out 2 data;
    out ← (if bufsize <? NTFS_SB_SIZE
           then awrite out (bufsize + 2) (replicate (Z.to_nat (NTFS_SB_SIZE - bufsize)) 0) else Ok out);
    out ← aset out 0 255;
    out ← aset out 1 63;
    Ok (NTFS_SB_SIZE + 2, out).

(** ** The decompressor *)

(** [lg = 0; for (i = ...; i >= 0x10; i >>= 1) lg++;] *)
Fixpoint log_pos (fuel : nat) (i lg : Z) : Z :=
  match fuel with
  | O => lg
  | S fuel => if 16 <=? i then log_pos fuel (Z.shiftr i 1) (lg + 1) else lg
  end.

(** [while (length--) *dest++ = *dest_back_addr++;] *)
Fixpoint copy_bytes (n : nat) (dest : list Z) (d back : Z) : res (list Z) :=
  match n with
  | O => Ok dest
  | S n =>
      b ← aget dest back;
      dest ← aset dest d b;
      copy_bytes n dest (d + 1) (back + 1)
  end.

(** The copy of a phrase: the part that does not overlap at once, the rest
    byte by byte. *)
Definition copy_phrase (dest : list Z) (d back length : Z) : res (list Z) :=
  let max_non_overlap := d - back in
  if length <=? max_non_overlap then
    bs ← aslice dest back length;
    awrite dest d bs
  else
    bs ← aslice dest back max_non_overlap;
    dest ← awrite dest d bs;
    copy_bytes (Z.to_nat (length - max_non_overlap)) dest (d + max_non_overlap) (back + max_non_overlap).

(** One token of the sub-block that starts at [sb_start] in [dest]: the next
    position in [cb], [dest], and the next position in it. *)
Definition do_token (cbuf : list Z) (sb_start : Z) (tag cb : Z) (dest : list Z) (d : Z) : res (Z * list Z * Z) :=
  if Z.land tag NTFS_TOKEN_MASK =? NTFS_SYMBOL_TOKEN then
    b ← aget cbuf cb;
    dest ← aset dest d b;
    Ok (cb + 1, dest, d + 1)
  else if d =? sb_start then Err EOVERFLOW
  else
    let lg := log_pos 16 (u16 (d - sb_start - 1)) 0 in
    pt ← get_le 2 cbuf cb;
    let back := d - Z.shiftr pt (12 - lg) - 1 in
    if back <? sb_start then Err EOVERFLOW else
    let length := Z.land pt (Z.shiftr 4095 lg) + 3 in
    if sb_start + NTFS_SB_SIZE <? d + length then Err EOVERFLOW else
    dest ← copy_phrase dest d back length;
    Ok (cb + 2, dest, d + length).

(** [for (token = 0; token < 8; token++, tag >>= 1)] *)
Fixpoint do_tokens (n : nat) (cbuf : list Z) (cb_sb_end sb_start tag cb : Z) (dest : list Z) (d : Z) : res (Z * list Z * Z) :=
  match n with
  | O => Ok (cb, dest, d)
  | S n =>
      if (cb_sb_end <=? cb) || (sb_start + NTFS_SB_SIZE <? d) then Ok (cb, dest, d) else
      r ← do_token cbuf sb_start tag cb dest d;
      let '(cb, dest, d) := r in
      do_tokens n cbuf cb_sb_end sb_start (Z.shiftr tag 1) cb dest d
  end.

(** [do_next_tag]: until the end of the sub-block. *)
Fixpoint do_tags (fuel : nat) (cbuf : list Z) (cb_sb_end sb_start cb : Z) (dest : list Z) (d : Z) : res (Z * list Z * Z) :=
  if cb =? cb_sb_end then
    if d <? sb_start + NTFS_SB_SIZE then
      dest ← awrite dest d (replicate (Z.to_nat (sb_start + NTFS_SB_SIZE - d)) 0);
      Ok (cb, dest, sb_start + NTFS_SB_SIZE)
    else Ok (cb, dest, d)
  else if (cb_sb_end <? cb) || (sb_start + NTFS_SB_SIZE <? d) then Err EOVERFLOW else
  match fuel with
  | O => Undef
  | S fuel =>
      tag ← aget cbuf cb;
      r ← do_tokens 8 cbuf cb_sb_end sb_start tag (cb + 1) dest d;
      let '(cb, dest, d) := r in
      do_tags fuel cbuf cb_sb_end sb_start cb dest d
  end.

(** Is the end of [cb] or of [dest] reached, or does a null header come next? *)
Definition cb_done (cbuf : list Z) (cb_size cb d dest_size : Z) : res bool :=
  if cb =? cb_size then Ok true else
  w ← get_le 2 cbuf cb;
  Ok ((w =? 0) || (d =? dest_size)).

(** [do_next_sb]: the sub-blocks from [cb] on; the contents of [dest] at the
    successful return. *)
Fixpoint do_sbs (fuel : nat) (cbuf : list Z) (cb_size dest_size cb : Z) (dest : list Z) (d : Z) : res (list Z) :=
  fin ← cb_done cbuf cb_size cb d dest_size;
  if fin : bool then
    if d <? dest_size then awrite dest d (replicate (Z.to_nat (dest_size - d)) 0) else Ok dest
  else if dest_size <? d + NTFS_SB_SIZE then Err EOVERFLOW
  else if cb_size <? cb + 6 then Err EOVERFLOW
  else
    w ← get_le 2 cbuf cb;
    let cb_sb_end := cb + Z.land w NTFS_SB_SIZE_MASK + 3 in
    if cb_size <? cb_sb_end then Err EOVERFLOW else
    match fuel with
    | O => Undef
    | S fuel =>
        if Z.land w NTFS_SB_IS_COMPRESSED =? 0 then
          if negb (cb_sb_end - (cb + 2) =? NTFS_SB_SIZE) then Err EOVERFLOW else
          bs ← aslice cbuf (cb + 2) NTFS_SB_SIZE;
          dest ← awrite dest d bs;
          do_sbs fuel cbuf cb_size dest_size (cb + 2 + NTFS_SB_SIZE) dest (d + NTFS_SB_SIZE)
        else
          r ← do_tags (Z.to_nat (cb_sb_end - cb)) cbuf cb_sb_end d (cb + 2) dest d;
          let '(cb, dest, d) := r in
          do_sbs fuel cbuf cb_size dest_size cb dest d
    end.

Definition ntfs_decompress (dest : list Z) (dest_size : Z) (cbuf : list Z) (cb_size : Z) : res (list Z) :=
  do_sbs (Z.to_nat cb_size) cbuf cb_size dest_size 0 dest 0.

End Compress.
