(* ===== verification/CompressTok.v ===== *)
(** The format of a compressed sub-block: the tokens, what they expand to and
    how they are written, and that the decompressor expands them. *)

From S2P Require Import Prelude Bytes Compress.
Import Compress.

(** ** Tokens *)

Inductive token := Lit (b : Z) | Phr (dist len : Z).

(** [n] bytes more, each a copy of the one [dist] before it. *)
Fixpoint copy_back (n : nat) (dist : Z) (out : list Z) : list Z :=
  match n with
  | O => out
  | S n => copy_back n dist (out ++ [nth (Z.to_nat (zlen out - dist)) out 0])
  end.

Definition expand_token (out : list Z) (t : token) : list Z :=
  match t with
  | Lit b => out ++ [b]
  | Phr dist len => copy_back (Z.to_nat len) dist out
  end.

Definition expand (out : list Z) (ts : list token) : list Z := fold_left expand_token ts out.

(** The number of bits of an offset at position [pos]. *)
Definition offset_bits (pos : Z) : Z := 4 + log_pos 16 (pos - 1) 0.

Definition token_len (t : token) : Z := match t with Lit _ => 1 | Phr _ len => len end.

Definition token_bytes (pos : Z) (t : token) : list Z :=
  match t with
  | Lit b => [b]
  | Phr dist len => le_bytes 2 ((dist - 1) * 2 ^ (16 - offset_bits pos) + (len - 3))
  end.

(** What may stand at position [pos]. *)
Definition token_ok (pos : Z) (t : token) : Prop :=
  match t with
  | Lit b => 0 <= b < 256
  | Phr dist len => 1 <= dist <= pos /\ 3 <= len <= 2 ^ (16 - offset_bits pos) + 2
  end.

Fixpoint tokens_len (ts : list token) : Z :=
  match ts with [] => 0 | t :: ts => token_len t + tokens_len ts end.

Fixpoint tokens_bytes (pos : Z) (ts : list token) : list Z :=
  match ts with [] => [] | t :: ts => token_bytes pos t ++ tokens_bytes (pos + token_len t) ts end.

Fixpoint tokens_ok (pos : Z) (ts : list token) : Prop :=
  match ts with [] => True | t :: ts => token_ok pos t /\ tokens_ok (pos + token_len t) ts end.

(** The tag of a group of tokens: bit [k] says whether token [k] is a phrase. *)
Fixpoint tag_of (ts : list token) : Z :=
  match ts with
  | [] => 0
  | Lit _ :: ts => 2 * tag_of ts
  | Phr _ _ :: ts => 1 + 2 * tag_of ts
  end.

(** Groups of tokens: all have eight but the last. *)
Fixpoint groups_bytes (pos : Z) (gs : list (list token)) : list Z :=
  match gs with
  | [] => []
  | g :: gs => tag_of g :: tokens_bytes pos g ++ groups_bytes (pos + tokens_len g) gs
  end.

Fixpoint groups_ok (gs : list (list token)) : Prop :=
  match gs with
  | [] => True
  | [g] => (1 <= length g <= 8)%nat
  | g :: gs => length g = 8%nat /\ groups_ok gs
  end.

(** ** Lemmas on tokens *)

Lemma copy_back_zlen n dist : forall out, zlen (copy_back n dist out) = zlen out + Z.of_nat n.
Proof. induction n as [|n IH]; intros out; cbn [copy_back]; [lia|]. rewrite IH. zlen_solve. Qed.

Lemma copy_back_add a b dist : forall out, copy_back (a + b) dist out = copy_back b dist (copy_back a dist out).
Proof. induction a as [|a IH]; intros out; [done|]. apply IH. Qed.

(** The part of a phrase that does not overlap is a slice. *)
Lemma copy_back_slice n dist out : (n <= Z.to_nat dist)%nat -> 0 <= dist <= zlen out ->
  copy_back n dist out = out ++ take n (drop (Z.to_nat (zlen out - dist)) out).
Proof.
  revert out. induction n as [|n IH]; intros out Hn Hd; [by rewrite take_0, app_nil_r|].
  replace (S n) with (n + 1)%nat by lia. rewrite copy_back_add, IH by lia. cbn [copy_back].
  set (k := Z.to_nat (zlen out - dist)).
  assert (length (take n (drop k out)) = n) as El by (unfold zlen in *; rewrite length_take, length_drop; lia).
  assert (k + n < length out)%nat as Hk by (unfold zlen in *; lia).
  rewrite <- app_assoc. f_equal. replace (Z.to_nat _) with (k + n)%nat by (unfold zlen in *; rewrite length_app, El; lia).
  rewrite app_nth1 by done. destruct (lookup_lt_is_Some_2 out (k + n) Hk) as [x Hx].
  erewrite nth_lookup_Some by done. rewrite Nat.add_1_r. symmetry. apply take_S_r. by rewrite lookup_drop.
Qed.

Lemma expand_token_zlen out t : 0 <= token_len t -> zlen (expand_token out t) = zlen out + token_len t.
Proof. destruct t; cbn; intros; [zlen_solve|]. rewrite copy_back_zlen. lia. Qed.

Lemma token_ok_len pos t : token_ok pos t -> 1 <= token_len t.
Proof. destruct t; cbn; lia. Qed.

Lemma token_bytes_len pos t : 1 <= zlen (token_bytes pos t) <= 2.
Proof. destruct t; cbn [token_bytes]; [done|]. rewrite le_bytes_zlen. lia. Qed.

Lemma tokens_len_nonneg ts pos : tokens_ok pos ts -> 0 <= tokens_len ts.
Proof. revert pos. induction ts as [|t ts IH]; intros pos; cbn; [done|]. intros [?%token_ok_len ?%IH]. lia. Qed.

Lemma expand_zlen ts : forall out pos, tokens_ok pos ts -> zlen (expand out ts) = zlen out + tokens_len ts.
Proof.
  induction ts as [|t ts IH]; intros out pos; cbn [tokens_ok tokens_len]; [cbn; lia|]. intros [Ht Hts].
  pose proof (token_ok_len _ _ Ht). change (expand out (t :: ts)) with (expand (expand_token out t) ts). erewrite IH by done. rewrite expand_token_zlen by lia. lia.
Qed.

Lemma expand_app out a b : expand out (a ++ b) = expand (expand out a) b.
Proof. apply fold_left_app. Qed.

Lemma tokens_len_app a b : tokens_len (a ++ b) = tokens_len a + tokens_len b.
Proof. induction a as [|t a IH]; cbn; [done|]. rewrite IH. lia. Qed.

Lemma tokens_bytes_app a b : forall pos,
  tokens_bytes pos (a ++ b) = tokens_bytes pos a ++ tokens_bytes (pos + tokens_len a) b.
Proof.
  induction a as [|t a IH]; intros pos; cbn; [by rewrite Z.add_0_r|]. rewrite IH, <- app_assoc. do 3 f_equal. lia.
Qed.

Lemma tokens_ok_app a b : forall pos, tokens_ok pos (a ++ b) <-> tokens_ok pos a /\ tokens_ok (pos + tokens_len a) b.
Proof.
  induction a as [|t a IH]; intros pos; cbn; [rewrite Z.add_0_r; tauto|]. rewrite IH.
  replace (pos + (token_len t + tokens_len a)) with (pos + token_len t + tokens_len a) by lia. tauto.
Qed.

Lemma groups_bytes_app a b : forall pos,
  groups_bytes pos (a ++ b) = groups_bytes pos a ++ groups_bytes (pos + tokens_len (concat a)) b.
Proof.
  induction a as [|g a IH]; intros pos; cbn; [by rewrite Z.add_0_r|]. rewrite IH, <- app_assoc, tokens_len_app. do 4 f_equal. lia.
Qed.

Lemma tag_of_range ts : 0 <= tag_of ts < 2 ^ zlen ts.
Proof.
  induction ts as [|[b|d l] ts IH]; [done|..]; cbn [tag_of]; rewrite zlen_cons, Z.pow_add_r by (done || apply zlen_nonneg); lia.
Qed.

Lemma tag_of_snoc ts t : tag_of (ts ++ [t]) = tag_of ts + match t with Lit _ => 0 | Phr _ _ => 2 ^ zlen ts end.
Proof.
  induction ts as [|t' ts IH]; [by destruct t|]. destruct t'; cbn [tag_of app]; rewrite IH; destruct t;
    rewrite ?zlen_cons, ?Z.pow_add_r by (done || apply zlen_nonneg); lia.
Qed.

Lemma zlen_groups_bytes gs : forall pos, zlen gs <= zlen (groups_bytes pos gs).
Proof. induction gs as [|g gs IH]; intros pos; [done|]. cbn [groups_bytes]. specialize (IH (pos + tokens_len g)). pose proof (zlen_nonneg (tokens_bytes pos g)). zlen_solve. Qed.

(** ** Offset bits *)

Lemma log_pos_spec fuel : forall i lg, 0 <= i < 2 ^ (4 + Z.of_nat fuel) ->
  let r := log_pos fuel i lg in
  lg <= r <= lg + Z.of_nat fuel /\ i < 2 ^ (4 + (r - lg)) /\ (r = lg \/ 2 ^ (3 + (r - lg)) <= i).
Proof.
  induction fuel as [|fuel IH]; intros i lg Hi; cbn [log_pos].
  - cbn zeta. rewrite Z.sub_diag. lia.
  - destruct (Z.leb_spec 16 i) as [H16|H16]; cbn zeta; [|rewrite Z.sub_diag; change (2 ^ (4 + 0)) with 16; lia].
    rewrite Z.shiftr_div_pow2 by lia. change (2 ^ 1) with 2. destruct (IH (i / 2) (lg + 1)) as (A & B & C).
    { split; [apply Z.div_pos; lia|]. apply Z.div_lt_upper_bound; [lia|].
      replace (4 + Z.of_nat (S fuel)) with (1 + (4 + Z.of_nat fuel)) in Hi by lia. rewrite Z.pow_add_r in Hi by lia. lia. }
    set (r := log_pos fuel (i / 2) (lg + 1)) in *. split; [lia|].
    replace (4 + (r - lg)) with (1 + (4 + (r - (lg + 1)))) by lia.
    rewrite Z.pow_add_r by lia. split; [dlia|]. right.
    destruct C as [->|C]; [replace (3 + (lg + 1 - lg)) with 4 by lia; change (2 ^ 4) with 16; lia|].
    replace (3 + (r - lg)) with (1 + (3 + (r - (lg + 1)))) by lia. rewrite Z.pow_add_r by lia. dlia.
Qed.

(** The bits at [pos]: the fewest, four at least, that can hold [pos - 1]. *)
Lemma offset_bits_spec pos : 1 <= pos <= 4096 ->
  4 <= offset_bits pos <= 12 /\ pos <= 2 ^ offset_bits pos /\ (offset_bits pos = 4 \/ 2 ^ (offset_bits pos - 1) < pos).
Proof.
  intros Hp. unfold offset_bits. destruct (log_pos_spec 16 (pos - 1) 0) as (A & B & C); [change (2 ^ (4 + Z.of_nat 16)) with 1048576; lia|].
  set (r := log_pos 16 (pos - 1) 0) in *. rewrite !Z.sub_0_r in *.
  assert (r <= 8) as Hr.
  { destruct C as [->|C]; [lia|]. destruct (Z.le_gt_cases r 8); [done|]. exfalso.
    pose proof (Z.pow_le_mono_r 2 12 (3 + r)). change (2 ^ 12) with 4096 in *. lia. }
  split; [lia|]. split; [lia|]. destruct C as [->|C]; [by left|right]. replace (4 + r - 1) with (3 + r) by lia. lia.
Qed.

Lemma offset_bits_unique pos b : 1 <= pos <= 4096 -> 4 <= b -> pos <= 2 ^ b -> b = 4 \/ 2 ^ (b - 1) < pos -> b = offset_bits pos.
Proof.
  intros Hp Hb H1 H2. destruct (offset_bits_spec pos Hp) as (A & B & C). set (o := offset_bits pos) in *.
  destruct (Z.lt_trichotomy b o) as [L|[E|L]]; [|done|]; exfalso.
  - destruct C as [C|C]; [lia|]. pose proof (Z.pow_le_mono_r 2 b (o - 1)). lia.
  - destruct H2 as [H2|H2]; [lia|]. pose proof (Z.pow_le_mono_r 2 o (b - 1)). lia.
Qed.

(** ** The decompressor on tokens *)

Lemma aget_nth l i : 0 <= i < zlen l -> aget l i = Ok (nth (Z.to_nat i) l 0).
Proof.
  intros Hi. destruct (aget_total l i Hi) as [x Hx]. rewrite Hx. apply aget_ok in Hx as [_ Hx].
  by erewrite nth_lookup_Some by done.
Qed.

Lemma copy_bytes_spec n : forall pre out rest dist, 1 <= dist <= zlen out -> Z.of_nat n <= zlen rest ->
  copy_bytes n (pre ++ out ++ rest) (zlen pre + zlen out) (zlen pre + zlen out - dist)
  = Ok (pre ++ copy_back n dist out ++ drop n rest).
Proof.
  induction n as [|n IH]; intros pre out rest dist Hd Hn; [done|].
  destruct rest as [|x rest]; [unfold zlen in Hn; cbn in Hn; lia|]. cbn [copy_bytes copy_back drop].
  rewrite (aget_app_r pre) by lia. rewrite aget_app_l by lia. rewrite aget_nth by lia. cbn [mbind res_bind].
  rewrite app_assoc. rewrite aset_mid by zlen_solve. cbn [mbind res_bind].
  replace (zlen pre + zlen out - dist - zlen pre) with (zlen out - dist) by lia. set (b := nth _ _ _).
  specialize (IH pre (out ++ [b]) rest dist). rewrite <- !app_assoc in *. cbn [app] in *.
  replace (zlen pre + zlen out + 1) with (zlen pre + zlen (out ++ [b])) by zlen_solve.
  replace (zlen pre + zlen out - dist + 1) with (zlen pre + zlen (out ++ [b]) - dist) by zlen_solve.
  rewrite IH by zlen_solve. done.
Qed.

(** The [memcpy] of a phrase, or of its first part. *)
Lemma copy_slice_spec pre out rest dist n : 0 <= n <= dist -> dist <= zlen out -> n <= zlen rest ->
  (bs ← aslice (pre ++ out ++ rest) (zlen pre + zlen out - dist) n; awrite (pre ++ out ++ rest) (zlen pre + zlen out) bs)
  = Ok (pre ++ copy_back (Z.to_nat n) dist out ++ drop (Z.to_nat n) rest).
Proof.
  intros Hn Hd Hr. rewrite copy_back_slice by lia. set (k := Z.to_nat (zlen out - dist)).
  assert (zlen (take k out) = zlen out - dist) as E1 by (unfold zlen in *; rewrite length_take; lia).
  assert (zlen (take (Z.to_nat n) (drop k out)) = n) as E2 by (unfold zlen in *; rewrite length_take, length_drop; lia).
  assert (pre ++ out ++ rest = (pre ++ take k out) ++ take (Z.to_nat n) (drop k out) ++ (drop (Z.to_nat n) (drop k out) ++ rest)) as E.
  { rewrite (app_assoc (take (Z.to_nat n) _)), take_drop, <- app_assoc. f_equal. by rewrite app_assoc, take_drop. }
  rewrite E at 1. rewrite aslice_mid by (rewrite ?zlen_app; lia). cbn [mbind res_bind].
  rewrite app_assoc. rewrite <- (take_drop (Z.to_nat n) rest) at 1.
  rewrite awrite_mid by (rewrite ?zlen_app; unfold zlen in *; rewrite ?length_take in *; lia).
  by rewrite <- !app_assoc.
Qed.

Lemma copy_phrase_spec pre out rest dist len : 1 <= dist <= zlen out -> 3 <= len <= zlen rest ->
  copy_phrase (pre ++ out ++ rest) (zlen pre + zlen out) (zlen pre + zlen out - dist) len
  = Ok (pre ++ copy_back (Z.to_nat len) dist out ++ drop (Z.to_nat len) rest).
Proof.
  intros Hd Hl. unfold copy_phrase. cbn zeta. replace (zlen pre + zlen out - (zlen pre + zlen out - dist)) with dist by lia.
  destruct (Z.leb_spec len dist) as [H|H].
  - by apply copy_slice_spec; lia.
  - pose proof (copy_slice_spec pre out rest dist dist) as E. destruct (aslice _ _ dist) as [bs| |]; cbn [mbind res_bind] in *;
      [|discriminate E; lia..]. rewrite E by lia. cbn [mbind res_bind]. set (out' := copy_back (Z.to_nat dist) dist out).
    assert (zlen out' = zlen out + dist) as Eo by (unfold out'; rewrite copy_back_zlen; lia).
    replace (zlen pre + zlen out + dist) with (zlen pre + zlen out') by lia.
    replace (zlen pre + zlen out - dist + dist) with (zlen pre + zlen out' - dist) by lia.
    rewrite copy_bytes_spec by (unfold zlen in *; rewrite ?length_drop; lia). rewrite drop_drop. unfold out'.
    rewrite <- copy_back_add. do 4 f_equal; lia.
Qed.

(** The two fields of a phrase. *)
Lemma phrase_fields pos dist len : 1 <= pos <= 4096 -> token_ok pos (Phr dist len) ->
  let q := (dist - 1) * 2 ^ (16 - offset_bits pos) + (len - 3) in
  0 <= q < 65536 /\ q / 2 ^ (16 - offset_bits pos) = dist - 1 /\ q mod 2 ^ (16 - offset_bits pos) = len - 3.
Proof.
  intros Hp [Hd Hl]. destruct (offset_bits_spec pos Hp) as (A & B & _). set (o := offset_bits pos) in *.
  pose proof (Z.pow_pos_nonneg 2 (16 - o)). assert (2 ^ o * 2 ^ (16 - o) = 65536) as E by (rewrite <- Z.pow_add_r by lia; by replace (o + (16 - o)) with 16 by lia).
  cbn zeta. set (p := 2 ^ (16 - o)) in *. split; [nia|]. split.
  - rewrite Z.div_add_l by lia. rewrite Z.div_small by lia. lia.
  - rewrite Z.add_comm, Z.mod_add by lia. apply Z.mod_small. lia.
Qed.

Lemma length_mask lg q : 0 <= lg <= 8 -> Z.land q (Z.shiftr 4095 lg) = q mod 2 ^ (12 - lg).
Proof.
  intros. rewrite <- Z.land_ones by lia. f_equal. change 4095 with (Z.ones 12).
  assert (lg = 0 \/ lg = 1 \/ lg = 2 \/ lg = 3 \/ lg = 4 \/ lg = 5 \/ lg = 6 \/ lg = 7 \/ lg = 8) as C by lia.
  by repeat destruct C as [->|C]; subst.
Qed.

(** One token is expanded. *)
Lemma do_token_spec l r pre out rest tag t :
  let pos := zlen out in
  token_ok pos t -> pos + token_len t <= NTFS_SB_SIZE -> token_len t <= zlen rest ->
  Z.land tag 1 = match t with Lit _ => 0 | Phr _ _ => 1 end ->
  do_token (l ++ token_bytes pos t ++ r) (zlen pre) tag (zlen l) (pre ++ out ++ rest) (zlen pre + pos)
  = Ok (zlen l + zlen (token_bytes pos t), pre ++ expand_token out t ++ drop (Z.to_nat (token_len t)) rest, zlen pre + pos + token_len t).
Proof.
  intros pos Ht Hp Hr Htag. unfold do_token, NTFS_TOKEN_MASK, NTFS_SYMBOL_TOKEN. rewrite Htag. destruct t as [b|dist len]; cbn [token_len token_bytes expand_token] in *.
  - destruct rest as [|x rest]; [unfold zlen in Hr; cbn in Hr; lia|]. cbn [Z.eqb app]. rewrite aget_mid by done. cbn [mbind res_bind].
    rewrite app_assoc. rewrite aset_mid by (unfold pos; zlen_solve). cbn. by rewrite <- !app_assoc.
  - cbn [Z.eqb]. unfold NTFS_SB_SIZE in *. assert (1 <= pos <= 4096) as Hpos by (cbn in Ht; lia). zdec.
    destruct (phrase_fields pos dist len Hpos Ht) as (Hq & E1 & E2). destruct (offset_bits_spec pos Hpos) as (A & B & _).
    replace (zlen pre + pos - zlen pre - 1) with (pos - 1) by lia. rewrite u16_small by lia.
    unfold offset_bits in *. set (lg := log_pos 16 (pos - 1) 0) in *. replace (16 - (4 + lg)) with (12 - lg) in * by lia.
    set (q := (dist - 1) * 2 ^ (12 - lg) + (len - 3)) in *.
    rewrite get_le_mid by done. cbn [mbind res_bind]. rewrite le_le_bytes_small by done.
    rewrite length_mask, E2 by lia. rewrite Z.shiftr_div_pow2, E1 by lia. destruct Ht as [Hd Hl]. zdec.
    replace (zlen pre + pos - (dist - 1) - 1) with (zlen pre + pos - dist) by lia. replace (len - 3 + 3) with len by lia. zdec.
    unfold pos. rewrite copy_phrase_spec by (fold pos; lia). done.
Qed.

Lemma tag_of_cons t ts :
  Z.land (tag_of (t :: ts)) 1 = match t with Lit _ => 0 | Phr _ _ => 1 end /\ Z.shiftr (tag_of (t :: ts)) 1 = tag_of ts.
Proof.
  rewrite (Z.land_ones _ 1), Z.shiftr_div_pow2 by lia. change (2 ^ 1) with 2. destruct t; cbn [tag_of]; split; dlia.
Qed.

(** The tokens of a group are expanded. *)
Lemma do_tokens_spec ts : forall n l r pre out rest e,
  let pos := zlen out in let bs := tokens_bytes pos ts in
  (length ts <= n)%nat -> zlen l + zlen bs <= e -> length ts = n \/ e = zlen l + zlen bs ->
  tokens_ok pos ts -> pos + tokens_len ts <= NTFS_SB_SIZE -> tokens_len ts <= zlen rest ->
  do_tokens n (l ++ bs ++ r) e (zlen pre) (tag_of ts) (zlen l) (pre ++ out ++ rest) (zlen pre + pos)
  = Ok (zlen l + zlen bs, pre ++ expand out ts ++ drop (Z.to_nat (tokens_len ts)) rest, zlen pre + pos + tokens_len ts).
Proof.
  induction ts as [|t ts IH]; intros n l r pre out rest e pos bs Hn He Hend Hok Hp Hr.
  - cbn in *. change (zlen []) with 0. rewrite !Z.add_0_r. destruct Hend as [<- | ->]; [done|]. destruct n; [done|].
    cbn [do_tokens]. change (zlen []) with 0. rewrite Z.add_0_r, Z.leb_refl. done.
  - destruct n as [|n]; [cbn in Hn; lia|]. destruct Hok as [Ht Hts]. cbn [tokens_bytes tokens_len] in *. cbn zeta in *.
    unfold bs in *. set (tb := token_bytes pos t) in *. set (bs' := tokens_bytes (pos + token_len t) ts) in *.
    rewrite zlen_app in He, Hend. rewrite zlen_app. pose proof (token_bytes_len pos t). fold tb in H. pose proof (zlen_nonneg bs').
    pose proof (token_ok_len _ _ Ht). pose proof (tokens_len_nonneg _ _ Hts). cbn [do_tokens]. zdec. cbn [orb].
    destruct (tag_of_cons t ts) as [E1 E2]. rewrite E2. rewrite <- app_assoc. unfold tb, pos.
    rewrite do_token_spec by (fold pos; done || lia). fold pos tb. cbn [mbind res_bind].
    pose proof (expand_token_zlen out t ltac:(lia)) as Ez. fold pos in Ez. unfold bs' in *. rewrite <- Ez in *.
    replace (zlen pre + pos + token_len t) with (zlen pre + zlen (expand_token out t)) by lia.
    rewrite (app_assoc l tb). replace (zlen l + zlen tb) with (zlen (l ++ tb)) by (by rewrite zlen_app).
    assert (zlen (drop (Z.to_nat (token_len t)) rest) = zlen rest - token_len t) as El by (unfold zlen in *; rewrite length_drop; lia).
    rewrite IH by (first [done | cbn in Hn, Hend; rewrite ?zlen_app; lia]). rewrite zlen_app, drop_drop.
    rewrite Z2Nat.inj_add by lia. f_equal. f_equal; [|lia]. f_equal. lia.
Qed.

(** At the end of the sub-block the rest of it is zeroed. *)
Lemma do_tags_end fuel cbuf e pre out rest : zlen out <= NTFS_SB_SIZE -> NTFS_SB_SIZE - zlen out <= zlen rest ->
  do_tags fuel cbuf e (zlen pre) e (pre ++ out ++ rest) (zlen pre + zlen out)
  = Ok (e, pre ++ (out ++ replicate (Z.to_nat (NTFS_SB_SIZE - zlen out)) 0) ++ drop (Z.to_nat (NTFS_SB_SIZE - zlen out)) rest,
        zlen pre + NTFS_SB_SIZE).
Proof.
  intros Hp Hr. unfold NTFS_SB_SIZE in *. set (pos := zlen out) in *.
  assert (do_tags fuel cbuf e (zlen pre) e (pre ++ out ++ rest) (zlen pre + pos)
    = (if pos <? 4096 then dest ← awrite (pre ++ out ++ rest) (zlen pre + pos) (replicate (Z.to_nat (4096 - pos)) 0);
         Ok (e, dest, zlen pre + 4096) else Ok (e, pre ++ out ++ rest, zlen pre + pos))) as ->.
  { destruct fuel; cbn [do_tags]; unfold NTFS_SB_SIZE; rewrite Z.eqb_refl;
      (replace (zlen pre + 4096 - (zlen pre + pos)) with (4096 - pos) by lia);
      (destruct (Z.ltb_spec pos 4096); [rewrite (proj2 (Z.ltb_lt _ _)) by lia|rewrite (proj2 (Z.ltb_ge _ _)) by lia]); done. }
  destruct (Z.ltb_spec pos 4096) as [H|H].
  - rewrite app_assoc. rewrite <- (take_drop (Z.to_nat (4096 - pos)) rest) at 1.
    rewrite awrite_mid by (rewrite ?zlen_app; unfold zlen in *; rewrite ?length_take, ?length_replicate; lia). cbn [mbind res_bind].
    by rewrite <- !app_assoc.
  - replace (Z.to_nat (4096 - pos)) with 0%nat by lia. cbn [replicate drop]. rewrite app_nil_r. do 2 f_equal. lia.
Qed.

(** The groups up to the end of the sub-block are expanded. *)
Lemma do_tags_spec gs : forall fuel l r pre out rest,
  let pos := zlen out in let bs := groups_bytes pos gs in let data := expand out (concat gs) in
  (length gs <= fuel)%nat -> groups_ok gs -> tokens_ok pos (concat gs) ->
  pos + tokens_len (concat gs) <= NTFS_SB_SIZE -> NTFS_SB_SIZE - pos <= zlen rest ->
  do_tags fuel (l ++ bs ++ r) (zlen l + zlen bs) (zlen pre) (zlen l) (pre ++ out ++ rest) (zlen pre + pos)
  = Ok (zlen l + zlen bs, pre ++ (data ++ replicate (Z.to_nat (NTFS_SB_SIZE - zlen data)) 0) ++ drop (Z.to_nat (NTFS_SB_SIZE - pos)) rest,
        zlen pre + NTFS_SB_SIZE).
Proof.
  induction gs as [|g gs IH]; intros fuel l r pre out rest pos bs data Hf Hg Hok Hp Hr.
  - cbn [groups_bytes] in bs. subst bs. cbn in data. subst data. change (zlen []) with 0. cbn [concat tokens_len] in Hp. rewrite !Z.add_0_r in *.
    by apply do_tags_end.
  - cbn [concat] in *. rewrite tokens_ok_app in Hok. destruct Hok as [Hok1 Hok2]. rewrite tokens_len_app in Hp.
    pose proof (tokens_len_nonneg _ _ Hok1). pose proof (tokens_len_nonneg _ _ Hok2).
    destruct fuel as [|fuel]; [cbn in Hf; lia|]. cbn [groups_bytes] in bs. subst bs.
    set (tb := tokens_bytes pos g). set (bs' := groups_bytes (pos + tokens_len g) gs).
    pose proof (zlen_nonneg tb). pose proof (zlen_nonneg bs'). rewrite zlen_cons, zlen_app. cbn [do_tags]. zdec. cbn [orb app].
    rewrite aget_mid by done. cbn [mbind res_bind].
    assert (length g = 8%nat \/ gs = [] /\ (length g <= 8)%nat) as Hg8 by (destruct gs; cbn in Hg; [right; split; [done|lia]|left; apply Hg]).
    assert (groups_ok gs) as Hg' by (destruct gs; cbn in Hg; [done|apply Hg]).
    replace (l ++ tag_of g :: (tb ++ bs') ++ r) with ((l ++ [tag_of g]) ++ tb ++ (bs' ++ r)) by (by rewrite <- !app_assoc).
    assert (zlen (l ++ [tag_of g]) = zlen l + 1) as El by (by rewrite zlen_app).
    set (e := zlen l + (1 + (zlen tb + zlen bs'))). rewrite <- El. set (l' := l ++ [tag_of g]) in *.
    pose proof (do_tokens_spec g 8 l' (bs' ++ r) pre out rest e) as E. cbn zeta in E. fold pos tb in E.
    rewrite E by (first [done | lia | destruct Hg8 as [?|[-> ?]]; [by left|right]; unfold e, bs'; cbn; change (zlen []) with 0; lia]).
    cbn [mbind res_bind]. clear E. pose proof (expand_zlen g out pos Hok1) as Ez. fold pos in Ez. subst bs'. rewrite <- Ez in *.
    set (out' := expand out g) in *. set (rest' := drop _ rest).
    replace (zlen pre + pos + tokens_len g) with (zlen pre + zlen out') by lia.
    rewrite (app_assoc l' tb). replace (zlen l' + zlen tb) with (zlen (l' ++ tb)) by (by rewrite zlen_app).
    replace e with (zlen (l' ++ tb) + zlen (groups_bytes (zlen out') gs)) by (rewrite zlen_app; unfold e; rewrite <- Ez; lia).
    assert (zlen rest' = zlen rest - tokens_len g) as Er by (unfold rest', zlen in *; rewrite length_drop; lia).
    rewrite IH by (first [done | cbn in Hf; lia]).
    unfold rest', data. rewrite drop_drop, expand_app. fold out'. do 6 f_equal. lia.
Qed.

(** ** Sub-blocks *)

Definition pad_block (data : list Z) : list Z := data ++ replicate (Z.to_nat (NTFS_SB_SIZE - zlen data)) 0.

(** The format of a sub-block that holds [data]. *)
Inductive sub_block (data : list Z) : list Z -> Prop :=
  | sb_raw : zlen data <= NTFS_SB_SIZE -> sub_block data ([255; 63] ++ pad_block data)
  | sb_packed gs :
      gs <> [] -> groups_ok gs -> tokens_ok 0 (concat gs) -> expand [] (concat gs) = data -> zlen data <= NTFS_SB_SIZE ->
      zlen (groups_bytes 0 gs) <= NTFS_SB_SIZE ->
      sub_block data (le_bytes 2 (45056 + (zlen (groups_bytes 0 gs) - 1)) ++ groups_bytes 0 gs).

Lemma pad_block_zlen data : zlen data <= NTFS_SB_SIZE -> zlen (pad_block data) = NTFS_SB_SIZE.
Proof. intros. unfold pad_block. rewrite zlen_app. unfold zlen in *. rewrite length_replicate. lia. Qed.

Lemma pad_block_full data : zlen data = NTFS_SB_SIZE -> pad_block data = data.
Proof. intros H. unfold pad_block. rewrite H, Z.sub_diag. apply app_nil_r. Qed.

Lemma groups_bytes_min gs pos : gs <> [] -> groups_ok gs -> 2 <= zlen (groups_bytes pos gs).
Proof.
  destruct gs as [|[|t g] gs]; [done|..]; intros _ Hg; [destruct gs; cbn in Hg; lia|].
  cbn [groups_bytes tokens_bytes]. pose proof (token_bytes_len pos t). rewrite zlen_cons, !zlen_app.
  pose proof (zlen_nonneg (tokens_bytes (pos + token_len t) g)). pose proof (zlen_nonneg (groups_bytes (pos + tokens_len (t :: g)) gs)). lia.
Qed.

Lemma sub_block_zlen data blk : sub_block data blk -> 4 <= zlen blk <= NTFS_SB_SIZE + 2.
Proof.
  destruct 1 as [H|gs Hn Hg]; rewrite zlen_app.
  - rewrite pad_block_zlen by done. done.
  - rewrite le_bytes_zlen. pose proof (groups_bytes_min gs 0 Hn Hg). lia.
Qed.

(** The header of a compressed sub-block. *)
Lemma packed_header n : 0 <= n < 4096 ->
  Z.land (45056 + n) NTFS_SB_SIZE_MASK = n /\ Z.land (45056 + n) NTFS_SB_IS_COMPRESSED <> 0.
Proof.
  intros Hn. change NTFS_SB_SIZE_MASK with (Z.ones 12). rewrite Z.land_ones by lia. change (2 ^ 12) with 4096. split; [dlia|].
  intros E. assert (Z.testbit (Z.land (45056 + n) NTFS_SB_IS_COMPRESSED) 15 = true) as T; [|by rewrite E in T].
  rewrite Z.land_spec. change (Z.testbit NTFS_SB_IS_COMPRESSED 15) with true. rewrite andb_true_r.
  apply Z.testbit_true; [lia|]. change (2 ^ 15) with 32768. dlia.
Qed.

(** A sub-block is expanded to the data it holds. *)
Lemma do_sbs_block data blk fuel l r pre rest cb_size dest_size :
  sub_block data blk -> zlen l + zlen blk <= cb_size -> zlen l + 6 <= cb_size -> cb_size <= zlen l + zlen blk + zlen r ->
  zlen pre + NTFS_SB_SIZE <= dest_size -> dest_size <= zlen pre + zlen rest ->
  do_sbs (S fuel) (l ++ blk ++ r) cb_size dest_size (zlen l) (pre ++ rest) (zlen pre)
  = do_sbs fuel (l ++ blk ++ r) cb_size dest_size (zlen l + zlen blk)
      (pre ++ pad_block data ++ drop (Z.to_nat NTFS_SB_SIZE) rest) (zlen pre + NTFS_SB_SIZE).
Proof.
  intros Hb Hc1 Hc2 Hc3 Hd1 Hd2. cbn [do_sbs]. pose proof (sub_block_zlen _ _ Hb) as Hz. unfold cb_done, NTFS_SB_SIZE in *.
  rewrite (proj2 (Z.eqb_neq (zlen l) cb_size)) by lia. destruct Hb as [H|gs Hn Hg Hok Hex Hd Hl].
  - rewrite <- (app_assoc [255; 63]). rewrite get_le_mid by done. change (le [255; 63]) with 16383. cbn [mbind res_bind Z.eqb]. zdec.
    pose proof (pad_block_zlen data H) as Ep. unfold NTFS_SB_SIZE in *.
    change (Z.land 16383 NTFS_SB_SIZE_MASK) with 4095. change (Z.land 16383 NTFS_SB_IS_COMPRESSED) with 0.
    rewrite !zlen_app in *. change (zlen [255; 63]) with 2 in *. zdec. cbn [Z.eqb].
    replace (l ++ [255; 63] ++ pad_block data ++ r) with ((l ++ [255; 63]) ++ pad_block data ++ r) by (by rewrite <- app_assoc).
    rewrite aslice_mid by (rewrite ?zlen_app; change (zlen [255; 63]) with 2; lia). cbn [mbind res_bind].
    rewrite <- (take_drop (Z.to_nat 4096) rest) at 1.
    rewrite awrite_mid by (unfold zlen in *; rewrite ?length_take; lia). cbn [mbind res_bind]. rewrite Ep. f_equal; lia.
  - set (bs := groups_bytes 0 gs) in *. set (w := 45056 + (zlen bs - 1)). rewrite <- (app_assoc (le_bytes 2 w)).
    pose proof (groups_bytes_min gs 0 Hn Hg) as Hmin. fold bs in Hmin.
    unfold NTFS_SB_SIZE in *. rewrite get_le_mid by (by rewrite ?le_bytes_zlen). rewrite le_le_bytes_small by (change (256 ^ Z.of_nat 2) with 65536; unfold w; lia).
    cbn [mbind res_bind]. destruct (packed_header (zlen bs - 1)) as [E1 E2]; [lia|]. fold w in E1, E2.
    rewrite (proj2 (Z.eqb_neq w 0)) by (unfold w; lia). rewrite !zlen_app, le_bytes_zlen in *. change (Z.of_nat 2) with 2 in *. zdec. rewrite E1. zdec.
    replace (l ++ le_bytes 2 w ++ bs ++ r) with ((l ++ le_bytes 2 w) ++ bs ++ r) by (by rewrite <- app_assoc).
    pose proof (do_tags_spec gs (Z.to_nat (zlen l + (zlen bs - 1) + 3 - zlen l)) (l ++ le_bytes 2 w) r pre [] rest) as E.
    cbn zeta in E. cbn [app] in E. change (zlen []) with 0 in E. fold bs in E. rewrite Hex in E.
    rewrite zlen_app, le_bytes_zlen in E. change (Z.of_nat 2) with 2 in E. rewrite !Z.add_0_r in E.
    replace (zlen l + (zlen bs - 1) + 3) with (zlen l + 2 + zlen bs) in * by lia.
    pose proof (expand_zlen (concat gs) [] 0 Hok) as Ez. rewrite Hex in Ez. change (zlen []) with 0 in Ez.
    pose proof (zlen_groups_bytes gs 0) as Hgl. fold bs in Hgl. unfold NTFS_SB_SIZE in E.
    rewrite E; [|unfold zlen in *; lia|done|done|lia|lia]. cbn [mbind res_bind]. rewrite Z.sub_0_r. fold (pad_block data).
    f_equal. lia.
Qed.

(** A sequence of sub-blocks, up to the two null bytes that end it. *)
Fixpoint blocks (datas : list (list Z)) (bs : list Z) : Prop :=
  match datas with
  | [] => bs = []
  | data :: datas => exists blk bs', bs = blk ++ bs' /\ sub_block data blk /\ blocks datas bs'
  end.

Lemma blocks_app a b : forall bs cs, blocks a bs -> blocks b cs -> blocks (a ++ b) (bs ++ cs).
Proof.
  induction a as [|d a IH]; intros bs cs; cbn [blocks app]; [by intros ->|].
  intros (blk & bs' & -> & Hb & Hr) Hc. exists blk, (bs' ++ cs). rewrite app_assoc. eauto.
Qed.

Lemma blocks_zlen datas : forall bs, blocks datas bs -> zlen datas <= zlen bs.
Proof.
  induction datas as [|d datas IH]; intros bs; cbn [blocks]; [by intros ->|].
  intros (blk & bs' & -> & Hb%sub_block_zlen & Hr%IH). rewrite zlen_cons, zlen_app. lia.
Qed.

Lemma do_sbs_blocks datas : forall fuel l bs r pre rest cb_size dest_size,
  blocks datas bs -> (length datas < fuel)%nat -> zlen l + zlen bs + 2 + zlen r = cb_size ->
  zlen pre + NTFS_SB_SIZE * zlen datas <= dest_size -> dest_size <= zlen pre + zlen rest ->
  do_sbs fuel (l ++ bs ++ [0; 0] ++ r) cb_size dest_size (zlen l) (pre ++ rest) (zlen pre)
  = Ok (pre ++ concat (map pad_block datas) ++ replicate (Z.to_nat (dest_size - zlen pre - NTFS_SB_SIZE * zlen datas)) 0
        ++ drop (Z.to_nat (dest_size - zlen pre)) rest).
Proof.
  unfold NTFS_SB_SIZE. induction datas as [|d datas IH]; intros fuel l bs r pre rest cb_size dest_size Hb Hf Hc Hd1 Hd2.
  - cbn in Hb. subst bs. destruct fuel as [|fuel]; [cbn in Hf; lia|]. cbn [do_sbs]. unfold cb_done.
    change (zlen []) with 0 in *. rewrite Z.mul_0_r, Z.sub_0_r in *. cbn [map concat]. change ([] ++ [0; 0] ++ r) with ([0; 0] ++ r).
    pose proof (zlen_nonneg r). rewrite (proj2 (Z.eqb_neq (zlen l) cb_size)) by lia. rewrite get_le_mid by done. change (le [0; 0]) with 0. cbn [mbind res_bind Z.eqb orb].
    change ([] ++ ?x) with x. destruct (Z.ltb_spec (zlen pre) dest_size).
    + rewrite <- (take_drop (Z.to_nat (dest_size - zlen pre)) rest) at 1.
      apply awrite_mid; [done|]. unfold zlen in *. rewrite length_take, length_replicate. lia.
    + replace (dest_size - zlen pre) with 0 by lia. done.
  - cbn [blocks] in Hb. destruct Hb as (blk & bs' & -> & Hb & Hbs). destruct fuel as [|fuel]; [lia|].
    pose proof (sub_block_zlen _ _ Hb). pose proof (zlen_nonneg bs'). pose proof (zlen_nonneg r). pose proof (zlen_nonneg datas).
    rewrite zlen_cons in *. rewrite zlen_app in Hc.
    assert (zlen d <= 4096) as Hd by (by destruct Hb).
    replace (l ++ (blk ++ bs') ++ [0; 0] ++ r) with (l ++ blk ++ (bs' ++ [0; 0] ++ r)) by (by rewrite <- !app_assoc).
    rewrite (do_sbs_block d) by (first [done | unfold NTFS_SB_SIZE; rewrite ?zlen_app; change (zlen [0; 0]) with 2; lia]).
    rewrite (app_assoc l), (app_assoc pre), <- zlen_app.
    replace (zlen pre + NTFS_SB_SIZE) with (zlen (pre ++ pad_block d)) by (rewrite zlen_app, pad_block_zlen; done).
    assert (zlen (pre ++ pad_block d) = zlen pre + 4096) as Ep by (rewrite zlen_app, pad_block_zlen; done).
    assert (zlen (drop (Z.to_nat NTFS_SB_SIZE) rest) = zlen rest - 4096) as Er by (unfold NTFS_SB_SIZE, zlen in *; rewrite length_drop; lia).
    rewrite IH by (first [done | rewrite ?zlen_app in *; cbn in Hf; lia]). cbn [map concat]. rewrite Ep, drop_drop, <- !app_assoc.
    unfold NTFS_SB_SIZE. do 5 f_equal; [f_equal; lia|f_equal; lia].
Qed.

(** The decompressor expands a sequence of sub-blocks to the data they hold,
    and zeroes the rest of the destination. *)
Lemma decompress_blocks datas bs r dest dest_size :
  blocks datas bs -> NTFS_SB_SIZE * zlen datas <= dest_size -> dest_size <= zlen dest ->
  ntfs_decompress dest dest_size (bs ++ [0; 0] ++ r) (zlen bs + 2 + zlen r)
  = Ok (concat (map pad_block datas) ++ replicate (Z.to_nat (dest_size - NTFS_SB_SIZE * zlen datas)) 0 ++ drop (Z.to_nat dest_size) dest).
Proof.
  intros Hb Hd1 Hd2. unfold ntfs_decompress. pose proof (blocks_zlen _ _ Hb). pose proof (zlen_nonneg r).
  pose proof (do_sbs_blocks datas (Z.to_nat (zlen bs + 2 + zlen r)) [] bs r [] dest (zlen bs + 2 + zlen r) dest_size) as E.
  cbn [app] in E. change (zlen []) with 0 in E. rewrite !Z.sub_0_r in E. apply E; [done|unfold zlen in *; lia|lia..].
Qed.
