(* ===== verification/CompressMatch.v ===== *)
(** The match finder of the compressor: it stays inside its buffers, and the
    matches it returns are matches. *)

From S2P Require Import Prelude Bytes Compress CompressTok.
Import Compress.

Section match_finder.
Context (inbuf : list Z) (bufsize : Z).
Hypothesis Hsize : 0 <= bufsize <= zlen inbuf.
Hypothesis Hblock : bufsize <= NTFS_SB_SIZE.

(** [n] bytes from [m] on are those from [s] on. *)
Definition matches (m s n : Z) : Prop := forall k, 0 <= k < n -> aget inbuf (m + k) = aget inbuf (s + k).

Lemma byte_differs_spec m s k : 0 <= m + k < zlen inbuf -> 0 <= s + k < zlen inbuf ->
  exists b, byte_differs inbuf m s k = Ok b /\ (b = false -> aget inbuf (m + k) = aget inbuf (s + k)).
Proof.
  intros Hm Hs. destruct (aget_total inbuf _ Hm) as [x Hx], (aget_total inbuf _ Hs) as [y Hy].
  unfold byte_differs. rewrite Hx, Hy. cbn. eexists. split; [done|]. intros E%negb_false_iff%Z.eqb_eq. by subst.
Qed.

Section candidate.
Context (m s max : Z).
Hypothesis Hm : 0 <= m < s.
Hypothesis Hmax : s + max <= bufsize.

Lemma prefix_differs_spec fuel : forall len lim, 0 <= len -> lim <= max -> (Z.to_nat (lim - len) <= fuel)%nat ->
  exists b, prefix_differs fuel inbuf m s len lim = Ok b /\
    (b = false -> forall k, len <= k < lim -> aget inbuf (m + k) = aget inbuf (s + k)).
Proof.
  induction fuel as [|fuel IH]; intros len lim Hl Hlim Hf; cbn [prefix_differs].
  - zdec. exists false. split; [done|]. lia.
  - destruct (Z.leb_spec lim len); [exists false; split; [done|lia]|].
    destruct (byte_differs_spec m s len) as (d & -> & Hd); [lia..|]. cbn [mbind res_bind].
    destruct d; [by exists true|]. destruct (IH (len + 1) lim) as (b & -> & Hb); [lia..|].
    exists b. split; [done|]. intros E k Hk. destruct (Z.eq_dec k len) as [->|]; [auto|]. apply Hb; [done|lia].
Qed.

Lemma not_longer_spec best : 2 <= best < max ->
  exists b, not_longer inbuf m s best = Ok b /\ (b = false -> matches m s (best + 1)).
Proof.
  intros Hb. unfold not_longer.
  destruct (byte_differs_spec m s best) as (d1 & -> & H1); [lia..|]. cbn [mbind res_bind]. destruct d1; [by exists true|].
  destruct (byte_differs_spec m s (best - 1)) as (d2 & -> & H2); [lia..|]. cbn [mbind res_bind]. destruct d2; [by exists true|].
  destruct (byte_differs_spec m s 0) as (d3 & -> & H3); [lia..|]. cbn [mbind res_bind]. destruct d3; [by exists true|].
  destruct (prefix_differs_spec (Z.to_nat best) 1 (best - 1)) as (d4 & -> & H4); [lia..|]. exists d4. split; [done|].
  intros E k Hk. destruct (Z.eq_dec k best) as [->|]; [auto|]. destruct (Z.eq_dec k (best - 1)) as [->|]; [auto|].
  destruct (Z.eq_dec k 0) as [->|]; [auto|]. apply H4; [done|lia].
Qed.

Lemma matches_more best : matches m s best -> aget inbuf (m + best) = aget inbuf (s + best) -> matches m s (best + 1).
Proof. intros H E k Hk. destruct (Z.eq_dec k best) as [->|]; [done|]. apply H. lia. Qed.

Lemma extend_to_max_spec fuel : forall best, 0 <= best <= max -> (Z.to_nat (max - best) <= fuel)%nat -> matches m s best ->
  exists b, extend_to_max fuel inbuf m s best max = Ok b /\ best <= b <= max /\ matches m s b.
Proof.
  induction fuel as [|fuel IH]; intros best Hb Hf Hmat; cbn [extend_to_max].
  - zdec. eauto with lia.
  - destruct (Z.leb_spec max best); [eauto with lia|].
    destruct (byte_differs_spec m s best) as (d & -> & Hd); [lia..|]. cbn [mbind res_bind]. destruct d; [eauto with lia|].
    destruct (IH (best + 1)) as (b & -> & ? & ?); [lia..|by apply matches_more; [|apply Hd]|]. eauto with lia.
Qed.

Lemma extend_match_spec nice fuel : forall best, nice <= max -> 0 <= best < max -> (Z.to_nat (max - best) <= fuel)%nat -> matches m s (best + 1) ->
  exists b reached, extend_match fuel inbuf m s best nice max = Ok (b, reached) /\ best < b <= max /\ matches m s b
    /\ (reached = false -> b < nice).
Proof.
  induction fuel as [|fuel IH]; intros best Hn Hb Hf Hmat; cbn [extend_match]; [lia|]. cbn zeta.
  destruct (Z.leb_spec nice (best + 1)).
  - destruct (extend_to_max_spec (Z.to_nat max) (best + 1)) as (b & -> & ? & ?); [lia..|done|]. exists b, true. cbn. split; [done|]. split; [lia|]. done.
  - destruct (byte_differs_spec m s (best + 1)) as (d & -> & Hd); [lia..|]. cbn [mbind res_bind].
    destruct d; [exists (best + 1), false; split; [done|]; split; [lia|]; split; [done|lia]|].
    destruct (IH (best + 1)) as (b & r & -> & ? & ? & ?); [lia..|by apply matches_more; [|apply Hd]|].
    exists b, r. split; [done|]. split; [lia|done].
Qed.

End candidate.

(** The hash chains link each of the first [n] positions to an earlier one. *)
Definition chains_ok (n : Z) (head prev : list Z) : Prop :=
  zlen head = 16384 /\ zlen prev = 4096 /\ Forall (fun v => v < n) head /\
  forall p v, 0 <= p < n -> aget prev p = Ok v -> v < p.

Lemma search_chain_spec s max nice prev : 0 <= s -> s + max <= bufsize -> nice <= max -> zlen prev = 4096 ->
  (forall p v, 0 <= p < s -> aget prev p = Ok v -> v < p) ->
  forall depth cur best bestptr, cur < s -> 2 <= best < max ->
  exists b ptr, search_chain depth inbuf prev cur s best bestptr nice max = Ok (b, ptr) /\
    (b = best /\ ptr = bestptr \/ best < b <= max /\ 0 <= ptr < s /\ matches ptr s b).
Proof.
  intros Hs Hmax Hnice Hp Hprev. unfold NTFS_SB_SIZE in *. induction depth as [|depth IH]; intros cur best bestptr Hcur Hbest; cbn [search_chain].
  - exists best, bestptr. split; [by destruct (cur <? 0)|by left].
  - destruct (Z.ltb_spec cur 0) as [|H0]; [by exists best, bestptr; auto|].
    destruct (not_longer_spec cur s max ltac:(lia) Hmax best Hbest) as (no & -> & Hno). cbn [mbind res_bind].
    destruct (aget_total prev cur) as [next Hnext]; [lia|]. pose proof (Hprev cur next ltac:(lia) Hnext).
    destruct no.
    + rewrite Hnext. cbn [mbind res_bind]. apply IH; [lia|done].
    + destruct (extend_match_spec cur s max ltac:(lia) Hmax nice (Z.to_nat max) best) as (b & r & -> & Hb & Hmat & Hr); [lia..|auto|]. cbn [mbind res_bind].
      destruct r; [exists b, cur; split; [done|right; split; [lia|]; split; [lia|done]]|]. rewrite Hnext. cbn [mbind res_bind].
      destruct (IH next b cur) as (b' & ptr & -> & [[-> ->]|(? & ? & ?)]); [lia..|specialize (Hr eq_refl); lia| |].
      * exists b, cur. split; [done|]. right. split; [lia|]. split; [lia|done].
      * exists b', ptr. split; [done|]. right. split; [lia|]. split; [lia|done].
Qed.

Lemma ntfs_hash_spec i : 0 <= i -> i + 4 <= bufsize -> exists h, ntfs_hash inbuf i = Ok h /\ 0 <= h < 16384.
Proof.
  intros Hi Hb. unfold ntfs_hash, get_le, aslice. rewrite (proj2 (Z.ltb_ge i 0)), (proj2 (Z.ltb_ge (zlen inbuf) (i + 4))) by lia. cbn [orb Z.ltb Z.compare mbind res_bind].
  eexists. split; [done|]. unfold HASH_SHIFT. rewrite Z.shiftr_div_pow2 by lia. set (x := Z.land _ _ * _).
  pose proof (wrapu_range 32 x). change (2 ^ (32 - 14)) with 262144. change (2 ^ 32) with 4294967296 in *.
  split; [apply Z.div_pos; lia|]. apply Z.div_lt_upper_bound; lia.
Qed.

(** A position is entered into the chains. *)
Lemma chains_insert i head prev h hash :
  0 <= i < 4096 -> chains_ok i head prev -> 0 <= hash < 16384 -> aget head hash = Ok h ->
  exists prev' head', aset prev i h = Ok prev' /\ aset head hash (s16 i) = Ok head' /\ chains_ok (i + 1) head' prev' /\ h < i.
Proof.
  intros Hi (Hh & Hp & Hf & Hv) Hhash Hg. rewrite !aset_ok by lia. do 2 eexists. split; [done|]. split; [done|].
  assert (h < i) as Hlt. { apply aget_ok in Hg as [_ Hg]. by apply (Forall_lookup_1 _ _ _ _ Hf) in Hg. }
  split; [|done]. repeat split; [by rewrite zlen_insert|by rewrite zlen_insert|..].
  - apply Forall_insert; [eapply List.Forall_impl; [|exact Hf]; cbn; lia|]. rewrite wraps_small by (change (2 ^ (16 - 1)) with 32768; lia). lia.
  - intros p v Hr. destruct (Z.eq_dec p i) as [->|].
    + rewrite aget_insert_eq by lia. intros [= <-]. done.
    + rewrite aget_insert_ne by lia. apply Hv. lia.
Qed.

(** The positions that have been entered when the search is at [i]. *)
Definition entered (i : Z) : Z := Z.min i (Z.max 0 (bufsize - 3)).

Definition context_ok (n : Z) (c : comp_context) : Prop := chains_ok (entered n) (cc_head c) (cc_prev c).

Lemma skip_position_spec c i : 0 <= i < bufsize -> context_ok i c ->
  exists c', ntfs_skip_position inbuf bufsize c i = Ok c' /\ context_ok (i + 1) c' /\ cc_mxsz c' = cc_mxsz c.
Proof.
  intros Hi Hc. unfold ntfs_skip_position, NTFS_SB_SIZE in *. destruct (Z.ltb_spec (bufsize - i) 4).
  - exists c. split; [done|]. split; [|done]. unfold context_ok, entered in *. replace (Z.min (i + 1) _) with (Z.min i (Z.max 0 (bufsize - 3))) by lia. done.
  - destruct (ntfs_hash_spec i) as (hash & -> & Hh); [lia..|]. cbn [mbind res_bind].
    assert (entered i = i /\ entered (i + 1) = i + 1) as [E1 E2] by (unfold entered; lia). unfold context_ok in *. rewrite E1 in Hc.
    destruct (aget_total (cc_head c) hash) as [h Hg]; [destruct Hc; lia|]. rewrite Hg. cbn [mbind res_bind].
    destruct (chains_insert i _ _ h hash ltac:(lia) Hc Hh Hg) as (prev' & head' & -> & -> & Hc' & _). cbn [mbind res_bind].
    eexists. split; [done|]. rewrite E2. done.
Qed.

Lemma skip_positions_spec j : forall fuel c i, 0 <= i < j -> j <= bufsize -> (Z.to_nat (j - i) <= fuel)%nat -> context_ok i c ->
  exists c', skip_positions fuel inbuf bufsize c i j = Ok c' /\ context_ok j c' /\ cc_mxsz c' = cc_mxsz c.
Proof.
  induction fuel as [|fuel IH]; intros c i Hi Hj Hf Hc; cbn [skip_positions]; [lia|].
  destruct (skip_position_spec c i) as (c1 & -> & H1 & H2); [lia|done|]. cbn [mbind res_bind].
  destruct (Z.eqb_spec (i + 1) j) as [<-|]; [eauto|].
  destruct (IH c1 (i + 1)) as (c' & -> & ? & ?); [lia..|done|]. exists c'. split; [done|]. split; [done|lia].
Qed.

(** What [ntfs_best_match] leaves in the context: the length is that of a
    match, or is what it was told to beat. *)
Lemma best_match_spec c i best : 0 <= i < bufsize -> 2 <= best -> 4 <= cc_mxsz c -> context_ok i c ->
  exists c', ntfs_best_match inbuf bufsize c i best = Ok c' /\ context_ok (i + 1) c' /\ cc_mxsz c' = cc_mxsz c /\
    (cc_size c' = best \/
     best < cc_size c' /\ cc_size c' <= Z.min (bufsize - i) (cc_mxsz c) /\ - i <= cc_rel c' < 0 /\ matches (i + cc_rel c') i (cc_size c')).
Proof.
  intros Hi Hb Hmx Hc. unfold ntfs_best_match, NTFS_SB_SIZE in *. cbn zeta. set (max := Z.min (bufsize - i) (cc_mxsz c)).
  destruct (Z.ltb_spec max 4).
  - eexists. split; [done|]. split; [|cbn; auto].
    unfold context_ok, entered in *. cbn. replace (Z.min (i + 1) _) with (Z.min i (Z.max 0 (bufsize - 3))) by lia. done.
  - destruct (ntfs_hash_spec i) as (hash & -> & Hh); [lia..|]. cbn [mbind res_bind].
    assert (entered i = i /\ entered (i + 1) = i + 1) as [E1 E2] by (unfold entered; lia). unfold context_ok in *. rewrite E1 in Hc.
    destruct (aget_total (cc_head c) hash) as [h Hg]; [destruct Hc; lia|]. rewrite Hg. cbn [mbind res_bind].
    destruct (chains_insert i _ _ h hash ltac:(lia) Hc Hh Hg) as (prev' & head' & -> & -> & Hc' & Hlt). cbn [mbind res_bind].
    rewrite <- E2 in Hc'. destruct (Z.leb_spec max best); [eexists; split; [done|]; cbn; auto|].
    pose proof Hc' as (_ & Hp & _ & Hv). rewrite E2 in Hv.
    destruct (search_chain_spec i max (Z.min NICE_MATCH_LEN max) prev' ltac:(lia) ltac:(lia) ltac:(lia) Hp (fun p v R => Hv p v ltac:(lia))
      MAX_SEARCH_DEPTH h best i Hlt ltac:(lia)) as (b & ptr & -> & Hr). cbn [mbind res_bind].
    eexists. split; [done|]. split; [done|]. split; [done|]. cbn [cc_size cc_rel set_match].
    destruct Hr as [[-> _]|(H1 & H2 & H3)]; [by left|right]. replace (i + (ptr - i)) with ptr by lia. split; [lia|]. split; [lia|]. split; [lia|done].
Qed.

(** A match is what the copy of a phrase needs. *)
Lemma copy_back_match n : forall i dist, 1 <= dist <= i -> i + Z.of_nat n <= bufsize -> matches (i - dist) i (Z.of_nat n) ->
  copy_back n dist (take (Z.to_nat i) inbuf) = take (Z.to_nat (i + Z.of_nat n)) inbuf.
Proof.
  induction n as [|n IH]; intros i dist Hd Hb Hm; cbn [copy_back]; [by rewrite Z.add_0_r|].
  assert (zlen (take (Z.to_nat i) inbuf) = i) as El by (unfold zlen in *; rewrite length_take; lia). rewrite El.
  pose proof (Hm 0 ltac:(lia)) as E. rewrite !Z.add_0_r in E. rewrite (aget_nth inbuf (i - dist)) in E by lia.
  symmetry in E. apply aget_ok in E as [_ E].
  replace (nth (Z.to_nat (i - dist)) (take (Z.to_nat i) inbuf) 0) with (nth (Z.to_nat (i - dist)) inbuf 0).
  2:{ rewrite <- (take_drop (Z.to_nat i) inbuf) at 1. rewrite app_nth1; [done|]. unfold zlen in *. lia. }
  rewrite <- (take_S_r _ _ _ E). replace (S (Z.to_nat i)) with (Z.to_nat (i + 1)) by lia. rewrite IH; [f_equal; lia|lia..|].
  intros k Hk. replace (i + 1 - dist + k) with (i - dist + (k + 1)) by lia. rewrite Hm by lia. f_equal. lia.
Qed.

End match_finder.
