(* ===== verification/CompressThm.v ===== *)
(** The compressor writes sub-blocks that hold its input, and the round trip
    of compression. *)

From S2P Require Import Prelude Bytes Compress CompressTok CompressMatch.
Import Compress.

Section compressor.
Context (inbuf : list Z) (bufsize : Z).
Hypothesis Hbytes : bytes inbuf.
Hypothesis Hsize : 0 < bufsize <= zlen inbuf.
Hypothesis Hblock : bufsize <= NTFS_SB_SIZE.

(** The output buffer holds the groups [full] and, behind the place of its
    tag, the tokens [part] of a group that is not complete. *)
Definition written (out : list Z) (ptag xout : Z) (full : list (list token)) (part : list token) : Prop :=
  exists hdr x rest,
    out = hdr ++ groups_bytes 0 full ++ x :: tokens_bytes (tokens_len (concat full)) part ++ rest /\ zlen hdr = 2 /\
    ptag = 2 + zlen (groups_bytes 0 full) /\ xout = ptag + 1 + zlen (tokens_bytes (tokens_len (concat full)) part).

(** The tokens are those of the first [i] bytes of the input. *)
Definition parsed (i : Z) (full : list (list token)) (part : list token) : Prop :=
  0 <= i <= bufsize /\ Forall (fun g => length g = 8%nat) full /\ tokens_ok 0 (concat full ++ part) /\
  expand [] (concat full ++ part) = take (Z.to_nat i) inbuf.

Lemma parsed_pos i full part : parsed i full part -> tokens_len (concat full) + tokens_len part = i.
Proof.
  intros (Hi & _ & Hok & E). pose proof (expand_zlen _ [] 0 Hok) as Ez. rewrite E, tokens_len_app in Ez.
  unfold zlen in Ez. rewrite length_take in Ez. unfold zlen in Hsize. cbn in Ez. lia.
Qed.

(** One more token, written at the end. *)
Lemma written_snoc out ptag xout i full part t out1 : parsed i full part -> written out ptag xout full part ->
  awrite out xout (token_bytes i t) = Ok out1 ->
  zlen out1 = zlen out /\ written out1 ptag (xout + zlen (token_bytes i t)) full (part ++ [t]).
Proof.
  intros Hp (hdr & x & rest & -> & Hh & -> & ->) Hw. set (tb := token_bytes i t) in *. pose proof (parsed_pos _ _ _ Hp) as Ei.
  assert (zlen tb <= zlen rest) as Hl.
  { unfold awrite in Hw. destruct (_ <? 0); [done|]. destruct (Z.ltb_spec (zlen (hdr ++ groups_bytes 0 full ++ x :: tokens_bytes (tokens_len (concat full)) part ++ rest))
      (2 + zlen (groups_bytes 0 full) + 1 + zlen (tokens_bytes (tokens_len (concat full)) part) + zlen tb)); [done|].
    rewrite !zlen_app, zlen_cons, zlen_app in *. lia. }
  set (full_b := groups_bytes 0 full) in *. set (part_b := tokens_bytes (tokens_len (concat full)) part) in *.
  replace (hdr ++ full_b ++ x :: part_b ++ rest) with ((hdr ++ full_b ++ x :: part_b) ++ take (length tb) rest ++ drop (length tb) rest) in Hw
    by (rewrite take_drop, <- !app_assoc; done).
  assert (length (take (length tb) rest) = length tb) as E by (unfold zlen in *; rewrite length_take; lia).
  rewrite awrite_mid in Hw by (rewrite ?zlen_app, ?zlen_cons; lia || done). injection Hw as <-.
  split.
  - rewrite !zlen_app, !zlen_cons, !zlen_app. unfold zlen in *. rewrite length_drop. lia.
  - exists hdr, x, (drop (length tb) rest). unfold written. fold full_b. rewrite tokens_bytes_app, Ei. cbn [tokens_bytes]. rewrite app_nil_r. fold part_b tb.
    split; [by rewrite <- !app_assoc|]. split; [done|]. split; [done|]. rewrite zlen_app. lia.
Qed.

Lemma parsed_snoc i full part t : parsed i full part -> token_ok i t -> i + token_len t <= bufsize ->
  expand_token (take (Z.to_nat i) inbuf) t = take (Z.to_nat (i + token_len t)) inbuf ->
  parsed (i + token_len t) full (part ++ [t]).
Proof.
  intros Hp Ht Hl E. pose proof (parsed_pos _ _ _ Hp) as Ei. destruct Hp as (Hi & Hf & Hok & Hex). pose proof (token_ok_len _ _ Ht).
  split; [lia|]. split; [done|]. rewrite app_assoc. split.
  - apply tokens_ok_app. split; [done|]. rewrite tokens_len_app. cbn. by rewrite Ei.
  - rewrite expand_app, Hex. done.
Qed.

Lemma put_literal_spec st have full part :
  parsed (cs_i st) full part -> written (cs_out st) (cs_ptag st) (cs_xout st) full part ->
  cs_i st < bufsize -> cs_xout st < zlen (cs_out st) ->
  exists out' b, put_literal inbuf st have
    = Ok (mkState (cs_ctx st) out' (cs_i st + 1) (cs_bp st) (cs_mxoff st) have (cs_xout st + 1) (cs_ptag st) (cs_tag st) (cs_ntag st)) /\
    zlen out' = zlen (cs_out st) /\ written out' (cs_ptag st) (cs_xout st + 1) full (part ++ [Lit b]) /\ parsed (cs_i st + 1) full (part ++ [Lit b]).
Proof.
  intros Hp Hw Hi Hx. pose proof Hp as (Hr & _). destruct (aget_total inbuf (cs_i st)) as [b Hb]; [lia|]. unfold put_literal. rewrite Hb. cbn [mbind res_bind].
  assert (0 <= cs_xout st) as Hx0 by (destruct Hw as (? & ? & ? & _ & _ & -> & ->); pose proof (zlen_nonneg (groups_bytes 0 full));
    pose proof (zlen_nonneg (tokens_bytes (tokens_len (concat full)) part)); lia).
  assert (awrite (cs_out st) (cs_xout st) (token_bytes (cs_i st) (Lit b)) = aset (cs_out st) (cs_xout st) b) as E.
  { cbn [token_bytes]. rewrite aset_ok by lia. unfold awrite. change (zlen [b]) with 1. zdec. cbn [orb]. f_equal. cbn [length].
    rewrite insert_take_drop by (unfold zlen in *; lia). cbn. do 2 f_equal. f_equal. lia. }
  rewrite aset_ok by lia. rewrite aset_ok in E by lia. destruct (written_snoc _ _ _ _ _ _ _ _ Hp Hw E) as [Hz Hw'].
  cbn [mbind res_bind]. exists (<[Z.to_nat (cs_xout st) := b]> (cs_out st)), b. split; [done|]. split; [done|]. split; [done|].
  apply aget_ok in Hb as [_ Hb]. apply (parsed_snoc _ _ _ (Lit b)); [done|..|cbn; lia|].
  - by apply (Forall_lookup_1 _ _ _ _ Hbytes) in Hb.
  - cbn. rewrite <- (take_S_r _ _ _ Hb). f_equal. lia.
Qed.

(** The match found at position [i] may be coded there. *)
Definition good_match (i size rel : Z) : Prop :=
  3 <= size <= 2 ^ (16 - offset_bits i) + 2 /\ i + size <= bufsize /\ - i <= rel < 0 /\ matches inbuf (i + rel) i size.

Lemma put_phrase_spec st offs size full part :
  parsed (cs_i st) full part -> written (cs_out st) (cs_ptag st) (cs_xout st) full part ->
  good_match (cs_i st) size offs -> cs_xout st + 2 <= zlen (cs_out st) -> cs_tag st = tag_of part -> cs_ntag st = 8 - zlen part ->
  exists out', let t := Phr (- offs) size in
    put_phrase st offs (offset_bits (cs_i st)) (cs_i st + size)
    = Ok (mkState (cs_ctx st) out' (cs_i st) (cs_bp st) (cs_mxoff st) (cs_have st) (cs_xout st + 2) (cs_ptag st) (tag_of (part ++ [t])) (cs_ntag st)) /\
    zlen out' = zlen (cs_out st) /\ written out' (cs_ptag st) (cs_xout st + 2) full (part ++ [t]) /\ parsed (cs_i st + size) full (part ++ [t]).
Proof.
  intros Hp Hw (Hs & Hj & Ho & Hm) Hx Ht Hn. unfold NTFS_SB_SIZE in *. set (i := cs_i st) in *. set (t := Phr (- offs) size).
  assert (token_ok i t) as Hok by (cbn; lia). assert (1 <= i <= 4096) as Hi by lia. pose proof (phrase_fields i (- offs) size ltac:(lia) Hok) as (Hq & _ & _).
  destruct (offset_bits_spec i ltac:(lia)) as (A & _ & _).
  unfold put_phrase. fold i. cbn zeta. rewrite (Z.shiftl_mul_pow2 (Z.lnot offs)) by lia. replace (Z.lnot offs) with (- offs - 1) by (unfold Z.lnot; lia).
  replace (i + size - i - 3) with (size - 3) by lia. set (q := (- offs - 1) * 2 ^ (16 - offset_bits i) + (size - 3)) in *.
  rewrite u32_small by lia. change 255 with (Z.ones 8). rewrite !Z.land_ones, Z.shiftr_div_pow2 by lia. change (2 ^ 8) with 256.
  assert (0 <= cs_xout st) as Hx0 by (destruct Hw as (? & ? & ? & _ & _ & -> & ->); pose proof (zlen_nonneg (groups_bytes 0 full));
    pose proof (zlen_nonneg (tokens_bytes (tokens_len (concat full)) part)); lia).
  set (o := cs_out st) in *. set (x := cs_xout st) in *.
  assert (awrite o x (token_bytes i t) = Ok (<[Z.to_nat (x + 1) := q / 256 mod 256]> (<[Z.to_nat x := q mod 256]> o))) as E.
  { unfold t, awrite. cbn [token_bytes]. fold q. cbn [le_bytes]. change (zlen [q mod 256; q / 256 mod 256]) with 2. zdec. cbn [orb length]. f_equal.
    destruct (drop (Z.to_nat x) o) as [|a [|b r]] eqn:Ed; [apply (f_equal length) in Ed; rewrite length_drop in Ed; cbn in Ed; unfold zlen in *; lia..|].
    rewrite <- drop_drop, Ed. cbn [drop]. rewrite <- (take_drop (Z.to_nat x) o) at 2. rewrite Ed.
    assert (length (take (Z.to_nat x) o) = Z.to_nat x) as El by (unfold zlen in *; rewrite length_take; lia).
    rewrite insert_app_r_alt by lia. rewrite insert_app_r_alt by lia. rewrite El, Nat.sub_diag.
    replace (Z.to_nat (x + 1) - Z.to_nat x)%nat with 1%nat by lia. done. }
  rewrite !aset_ok by (rewrite ?zlen_insert; lia). cbn [mbind res_bind]. rewrite aset_ok by (rewrite ?zlen_insert; lia). cbn [mbind res_bind].
  destruct (written_snoc _ _ _ _ _ _ _ _ Hp Hw E) as [Hz Hw']. eexists. split; [|split; [exact Hz|split; [exact Hw'|]]].
  - rewrite Ht, Hn, tag_of_snoc. replace (8 - (8 - zlen part)) with (zlen part) by lia. pose proof (zlen_nonneg part).
    rewrite Z.shiftl_mul_pow2, Z.mul_1_l, Z.lor_comm by lia. pose proof (tag_of_range part).
    pose proof (lor_high (zlen part) 1 (tag_of part)) as El. rewrite Z.mul_1_r in El. rewrite El, (Z.add_comm (2 ^ zlen part)) by lia. done.
  - apply (parsed_snoc i full part t); [done..|]. cbn [expand_token t]. rewrite copy_back_match with (bufsize := bufsize); [f_equal; cbn; lia|lia..|].
    rewrite Z2Nat.id by lia. replace (i - - offs) with (i + offs) by lia. done.
Qed.

(** The field widths are those of a position up to [i]; [bits_at]: exactly
    those of [i]. *)
Definition bits_upto (i bp mxoff mxsz : Z) : Prop :=
  4 <= bp <= 12 /\ mxoff = 2 ^ bp /\ mxsz = 2 ^ (16 - bp) + 2 /\ (bp = 4 \/ 2 ^ (bp - 1) < i).
Definition bits_at (i bp mxoff mxsz : Z) : Prop := bits_upto i bp mxoff mxsz /\ i <= mxoff.

Lemma bits_at_offset i bp mxoff mxsz : 1 <= i <= 4096 -> bits_at i bp mxoff mxsz -> bp = offset_bits i /\ mxsz = 2 ^ (16 - offset_bits i) + 2.
Proof.
  intros Hi ((Hb & -> & -> & Hc) & Hl). assert (bp = offset_bits i) as -> by (apply offset_bits_unique; [lia..|done]). done.
Qed.

Lemma bits_mxsz i bp mxoff mxsz : bits_upto i bp mxoff mxsz -> 18 <= mxsz.
Proof. intros (Hb & _ & -> & _). pose proof (Z.pow_le_mono_r 2 4 (16 - bp)). change (2 ^ 4) with 16 in *. lia. Qed.

Lemma bits_widen i bp mxoff mxsz : i <= 4096 -> bits_upto i bp mxoff mxsz -> mxoff < i ->
  bits_upto i (bp + 1) (Z.shiftl mxoff 1) (Z.shiftr (mxsz + 2) 1).
Proof.
  intros Hi (Hb & -> & -> & Hc) Hl. rewrite Z.shiftl_mul_pow2, Z.shiftr_div_pow2 by lia. change (2 ^ 1) with 2.
  assert (bp < 12) as Hlt. { destruct (Z.le_gt_cases 12 bp) as [H|]; [|lia]. pose proof (Z.pow_le_mono_r 2 12 bp). change (2 ^ 12) with 4096 in *. lia. }
  split; [lia|]. split; [by rewrite Z.pow_add_r by lia|]. split.
  - replace (16 - bp) with (1 + (16 - (bp + 1))) by lia. rewrite Z.pow_add_r by lia. change (2 ^ 1) with 2. dlia.
  - right. replace (bp + 1 - 1) with bp by lia. done.
Qed.

Lemma bits_upto_mono i i' bp mxoff mxsz : i <= i' -> bits_upto i bp mxoff mxsz -> bits_upto i' bp mxoff mxsz.
Proof. intros Hi (? & ? & ? & ?). split; [done|]. split; [done|]. split; [done|]. lia. Qed.

Lemma widen_to_spec fuel : forall st, cs_i st <= 4096 -> (Z.to_nat (12 - cs_bp st) <= fuel)%nat ->
  bits_upto (cs_i st) (cs_bp st) (cs_mxoff st) (cc_mxsz (cs_ctx st)) ->
  exists bp mxoff mxsz, widen_to fuel st = Ok (mkState (set_mxsz (cs_ctx st) mxsz) (cs_out st) (cs_i st) bp mxoff (cs_have st)
      (cs_xout st) (cs_ptag st) (cs_tag st) (cs_ntag st)) /\ bits_at (cs_i st) bp mxoff mxsz.
Proof.
  induction fuel as [|fuel IH]; intros st Hi Hf Hb.
  - cbn [widen_to]. assert (cs_bp st = 12) as E by (destruct Hb; lia). assert (cs_i st <= cs_mxoff st) as Hle.
    { destruct Hb as (_ & -> & _). rewrite E. exact Hi. }
    rewrite (proj2 (Z.ltb_ge _ _)) by lia. exists (cs_bp st), (cs_mxoff st), (cc_mxsz (cs_ctx st)). split; [|by split]. by destruct st as [[]].
  - cbn [widen_to]. destruct (Z.ltb_spec (cs_mxoff st) (cs_i st)) as [H|H].
    + pose proof (bits_widen _ _ _ _ Hi Hb H) as Hb'. destruct (IH (widen st)) as (bp & mxoff & mxsz & E & Hat); [done|cbn; lia|done|].
      exists bp, mxoff, mxsz. split; [by rewrite E|done].
    + exists (cs_bp st), (cs_mxoff st), (cc_mxsz (cs_ctx st)). split; [|by split]. by destruct st as [[]].
Qed.

(** What holds at the head of the loop. *)
Definition loop_inv (st : comp_state) (full : list (list token)) (part : list token) : Prop :=
  parsed (cs_i st) full part /\ written (cs_out st) (cs_ptag st) (cs_xout st) full part /\
  cs_tag st = tag_of part /\ cs_ntag st = 8 - zlen part /\ zlen part < 8 /\
  if cs_have st then
    bits_at (cs_i st) (cs_bp st) (cs_mxoff st) (cc_mxsz (cs_ctx st)) /\ context_ok bufsize (cs_i st + 1) (cs_ctx st) /\
    good_match (cs_i st) (cc_size (cs_ctx st)) (cc_rel (cs_ctx st))
  else
    bits_upto (cs_i st) (cs_bp st) (cs_mxoff st) (cc_mxsz (cs_ctx st)) /\ context_ok bufsize (cs_i st) (cs_ctx st).

(** The end of an iteration, when the token is out: [part] includes it. *)
Lemma end_token_spec st full part :
  parsed (cs_i st) full part -> written (cs_out st) (cs_ptag st) (cs_xout st) full part ->
  cs_tag st = tag_of part -> cs_ntag st = 9 - zlen part -> 1 <= zlen part <= 8 -> cs_xout st < zlen (cs_out st) ->
  (if cs_have st then
    bits_at (cs_i st) (cs_bp st) (cs_mxoff st) (cc_mxsz (cs_ctx st)) /\ context_ok bufsize (cs_i st + 1) (cs_ctx st) /\
    good_match (cs_i st) (cc_size (cs_ctx st)) (cc_rel (cs_ctx st))
   else
    bits_upto (cs_i st) (cs_bp st) (cs_mxoff st) (cc_mxsz (cs_ctx st)) /\ context_ok bufsize (cs_i st) (cs_ctx st)) ->
  exists st' full' part', end_token st = Ok st' /\ loop_inv st' full' part' /\
    cs_i st' = cs_i st /\ cs_xout st' <= cs_xout st + 1 /\ zlen (cs_out st') = zlen (cs_out st).
Proof.
  intros Hp Hw Ht Hn Hl Hx Hrest. unfold end_token. cbn zeta. destruct (Z.eqb_spec (cs_ntag st - 1) 0) as [E|E].
  - assert (zlen part = 8) as E8 by lia. destruct Hw as (hdr & x & rest & Eo & Hh & Ep & Ex). set (tb := tokens_bytes _ part) in *. set (fb := groups_bytes 0 full) in *.
    pose proof (zlen_nonneg fb). rewrite Eo in *. destruct rest as [|y rest].
    { exfalso. revert Hx. rewrite app_nil_r, !zlen_app, zlen_cons. lia. }
    replace (hdr ++ fb ++ x :: tb ++ y :: rest) with ((hdr ++ fb) ++ x :: tb ++ y :: rest) in * by (by rewrite app_assoc).
    rewrite aset_mid by (rewrite zlen_app; lia). cbn [mbind res_bind]. do 2 eexists. exists []. split; [done|].
    split; [|split; [done|split; [cbn; lia|]]]; [|cbn [cs_out]; by rewrite !zlen_app, !zlen_cons].
    unfold loop_inv. cbn [cs_i cs_out cs_ptag cs_xout cs_tag cs_ntag cs_have cs_bp cs_mxoff cs_ctx].
    split; [instantiate (1 := full ++ [part])|split; [|done]].
    + destruct Hp as (Hi & Hf & Hok & Hex). unfold parsed. rewrite concat_app. cbn [concat]. rewrite !app_nil_r. split; [done|]. split; [|done].
      apply Forall_app. split; [done|]. constructor; [unfold zlen in E8; lia|done].
    + exists hdr, y, rest. rewrite groups_bytes_app. cbn [groups_bytes tokens_bytes]. fold fb. rewrite app_nil_r, Z.add_0_l.
      fold tb. rewrite Ht. split; [by rewrite <- !app_assoc|]. split; [done|]. split; [rewrite zlen_app, zlen_cons; lia|]. change (zlen []) with 0. lia.
  - do 3 eexists. split; [done|]. split; [|split; [done|split; [cbn; lia|done]]]. unfold loop_inv.
    cbn [cs_i cs_out cs_ptag cs_xout cs_tag cs_ntag cs_have cs_bp cs_mxoff cs_ctx]. split; [done|]. split; [done|]. split; [done|]. split; [lia|]. split; [lia|done].
Qed.

(** After the search: there is no match at the position, or one that may be
    coded. *)
Definition searched (st : comp_state) : Prop :=
  bits_at (cs_i st) (cs_bp st) (cs_mxoff st) (cc_mxsz (cs_ctx st)) /\ context_ok bufsize (cs_i st + 1) (cs_ctx st) /\
  (cc_size (cs_ctx st) = 2 \/ good_match (cs_i st) (cc_size (cs_ctx st)) (cc_rel (cs_ctx st))).

(** The states that have written the same and are at the same position. *)
Definition same_output (st st' : comp_state) : Prop :=
  cs_out st' = cs_out st /\ cs_i st' = cs_i st /\ cs_xout st' = cs_xout st /\ cs_ptag st' = cs_ptag st /\
  cs_tag st' = cs_tag st /\ cs_ntag st' = cs_ntag st.

(** A match found with the widths of its position may be coded there. *)
Lemma best_match_good c i best bp mxoff : 0 <= i < bufsize -> 2 <= best -> bits_at i bp mxoff (cc_mxsz c) -> context_ok bufsize i c ->
  exists c', ntfs_best_match inbuf bufsize c i best = Ok c' /\ context_ok bufsize (i + 1) c' /\ cc_mxsz c' = cc_mxsz c /\
    (cc_size c' = best \/ best < cc_size c' /\ good_match i (cc_size c') (cc_rel c')).
Proof.
  intros Hi Hb Hat Hc. pose proof Hat as [Hup _]. apply bits_mxsz in Hup as H18. unfold NTFS_SB_SIZE in *.
  destruct (best_match_spec inbuf bufsize ltac:(lia) Hblock c i best Hi Hb ltac:(lia) Hc) as (c' & E & Hc' & Hm & Hs).
  exists c'. split; [done|]. split; [done|]. split; [done|]. destruct Hs as [->|(H1 & H2 & H3 & H4)]; [by left|right].
  destruct (bits_at_offset i _ _ _ ltac:(lia) Hat) as [_ E18]. split; [done|]. split; [lia|]. split; [lia|]. split; [lia|done].
Qed.

Lemma search_spec st full part : loop_inv st full part -> cs_i st < bufsize ->
  exists st', (if cs_have st then Ok st else
        st ← widen_to 16 st;
        c ← ntfs_best_match inbuf bufsize (cs_ctx st) (cs_i st) 2;
        Ok (with_ctx st c)) = Ok st' /\ same_output st st' /\ searched st'.
Proof.
  intros (Hp & _ & _ & _ & _ & Hm) Hi. unfold NTFS_SB_SIZE in *. assert (0 <= cs_i st) as H0 by (destruct Hp; lia). destruct (cs_have st).
  - destruct Hm as (H1 & H2 & H3). exists st. split; [done|]. split; [done|]. split; [done|]. split; [done|by right].
  - destruct Hm as [Hb Hc]. destruct (widen_to_spec 16 st) as (bp & mxoff & mxsz & -> & Hat); [lia|destruct Hb; lia|done|]. cbn [mbind res_bind cs_ctx cs_i].
    destruct (best_match_good (set_mxsz (cs_ctx st) mxsz) (cs_i st) 2 bp mxoff) as (c' & -> & Hc' & Emx & Hs); [lia|lia|done|done|]. cbn [mbind res_bind].
    eexists. split; [done|]. split; [done|]. unfold searched, with_ctx. cbn [cs_i cs_bp cs_mxoff cs_ctx]. rewrite Emx. split; [done|]. split; [done|].
    destruct Hs as [?|[_ ?]]; auto.
Qed.

(** What an iteration achieves: it stops with all of the input coded, or the
    invariant holds again, further on. *)
Definition step_done (st st' : comp_state) (stop : bool) : Prop :=
  zlen (cs_out st') = zlen (cs_out st) /\ cs_i st < cs_i st' /\
  exists full part, if stop then
    cs_i st' = bufsize /\ parsed (cs_i st') full part /\ written (cs_out st') (cs_ptag st') (cs_xout st') full part /\
    cs_tag st' = tag_of part /\ cs_ntag st' = 8 - zlen part /\ 1 <= zlen part <= 8
  else loop_inv st' full part.

(** What the iteration starts from, when the search is done. *)
Definition step_pre (st : comp_state) (full : list (list token)) (part : list token) : Prop :=
  parsed (cs_i st) full part /\ written (cs_out st) (cs_ptag st) (cs_xout st) full part /\
  cs_tag st = tag_of part /\ cs_ntag st = 8 - zlen part /\ zlen part < 8 /\
  cs_i st < bufsize /\ cs_xout st < 4098 /\ 4100 <= zlen (cs_out st).

(** A phrase that is followed by a skip to its end. *)
Lemma phrase_then_skip st c bp mxoff full part size offs n :
  step_pre st full part -> good_match (cs_i st) size offs -> 1 <= n < size -> context_ok bufsize (cs_i st + n) c ->
  bits_upto (cs_i st + 1) bp mxoff (cc_mxsz c) ->
  exists st1 st', put_phrase (mkState c (cs_out st) (cs_i st) bp mxoff (cs_have st) (cs_xout st) (cs_ptag st) (cs_tag st) (cs_ntag st))
        offs (offset_bits (cs_i st)) (cs_i st + size) = Ok st1 /\ cs_i st1 = cs_i st /\
    (st2 ← skip_to inbuf bufsize st1 (cs_i st + n) (cs_i st + size); end_token st2) = Ok st' /\ step_done st st' false.
Proof.
  intros (Hp & Hw & Ht & Hn & Hl & Hi & Hx & Ho) Hg Hns Hc Hb. pose proof (zlen_nonneg part). unfold NTFS_SB_SIZE in *.
  set (st0 := mkState _ _ _ _ _ _ _ _ _ _).
  destruct (put_phrase_spec st0 offs size full part Hp Hw Hg ltac:(cbn; lia) Ht Hn) as (out' & E & Hz & Hw' & Hp'). cbn zeta in *.
  cbn [st0 cs_ctx cs_out cs_i cs_bp cs_mxoff cs_have cs_xout cs_ptag cs_tag cs_ntag] in *. rewrite E. set (t := Phr _ _) in *.
  eexists. unfold skip_to. cbn [cs_ctx cs_out cs_i cs_bp cs_mxoff cs_have cs_xout cs_ptag cs_tag cs_ntag].
  destruct Hp as (Hi0 & _). destruct Hg as (Hsz & Hend & _).
  destruct (skip_positions_spec inbuf bufsize ltac:(lia) Hblock (cs_i st + size) (Z.to_nat (cs_i st + size - (cs_i st + n))) c (cs_i st + n))
    as (c' & Emxs & Hc' & Emx); [lia..|done|].
  assert (zlen (part ++ [t]) = zlen part + 1) as Hpl by zlen_solve.
  destruct (end_token_spec (mkState c' out' (cs_i st + size) bp mxoff false (cs_xout st + 2) (cs_ptag st) (tag_of (part ++ [t])) (cs_ntag st)) full (part ++ [t]))
    as (st' & full' & part' & E' & Hinv & Ei & Hx' & Hz');
    cbn [cs_ctx cs_out cs_i cs_bp cs_mxoff cs_have cs_xout cs_ptag cs_tag cs_ntag] in *; [done|done|done|lia|lia|lia| |].
  - rewrite Emx. split; [|done]. eapply bits_upto_mono; [|done]. lia.
  - exists st'. split; [done|]. split; [done|]. split; [by cbn [cs_ctx]; rewrite Emxs|]. split; [lia|]. split; [lia|]. by exists full', part'.
Qed.

(** A literal, after which the state is as [have] says. *)
Lemma literal_step st c bp mxoff (have : bool) full part :
  step_pre st full part ->
  (if have then bits_at (cs_i st + 1) bp mxoff (cc_mxsz c) /\ context_ok bufsize (cs_i st + 1 + 1) c /\ good_match (cs_i st + 1) (cc_size c) (cc_rel c)
   else bits_upto (cs_i st + 1) bp mxoff (cc_mxsz c) /\ context_ok bufsize (cs_i st + 1) c) ->
  exists st', (st1 ← put_literal inbuf (mkState c (cs_out st) (cs_i st) bp mxoff (cs_have st) (cs_xout st) (cs_ptag st) (cs_tag st) (cs_ntag st)) have;
      end_token st1) = Ok st' /\ step_done st st' false.
Proof.
  intros (Hp & Hw & Ht & Hn & Hl & Hi & Hx & Ho) Hm. pose proof (zlen_nonneg part).
  set (st0 := mkState _ _ _ _ _ _ _ _ _ _).
  destruct (put_literal_spec st0 have full part Hp Hw Hi ltac:(cbn; lia)) as (out' & b & -> & Hz & Hw' & Hp'). cbn [mbind res_bind]. subst st0.
  cbn [cs_ctx cs_out cs_i cs_bp cs_mxoff cs_have cs_xout cs_ptag cs_tag cs_ntag] in *.
  assert (zlen (part ++ [Lit b]) = zlen part + 1) as Hpl by zlen_solve.
  match goal with |- context [end_token ?s] => destruct (end_token_spec s full (part ++ [Lit b])) as (st' & full' & part' & E' & Hinv & Ei & Hx' & Hz') end;
    cbn [cs_ctx cs_out cs_i cs_bp cs_mxoff cs_have cs_xout cs_ptag cs_tag cs_ntag] in *; [done|done| |lia|lia|lia|done|].
  - rewrite Ht, tag_of_snoc. lia.
  - exists st'. split; [done|]. split; [lia|]. split; [lia|]. by exists full', part'.
Qed.

Lemma bits_next st : cs_i st < bufsize -> 1 <= cs_i st -> bits_at (cs_i st) (cs_bp st) (cs_mxoff st) (cc_mxsz (cs_ctx st)) ->
  let st' := if cs_mxoff st <? cs_i st + 1 then widen st else st in
  bits_at (cs_i st + 1) (cs_bp st') (cs_mxoff st') (cc_mxsz (cs_ctx st')).
Proof.
  intros Hi H1 [Hup Hle]. unfold NTFS_SB_SIZE in *. cbn zeta. assert (bits_upto (cs_i st + 1) (cs_bp st) (cs_mxoff st) (cc_mxsz (cs_ctx st))) as Hup'
    by (eapply bits_upto_mono; [|done]; lia).
  destruct (Z.ltb_spec (cs_mxoff st) (cs_i st + 1)); [|by split]. split; [apply bits_widen; [lia|done..]|]. cbn [widen cs_mxoff]. rewrite Z.shiftl_mul_pow2 by lia. lia.
Qed.

Lemma lazy_step st full part : step_pre st full part -> searched st -> 3 <= cc_size (cs_ctx st) ->
  exists st', (st1 ← lazy_token inbuf bufsize st (cs_i st + cc_size (cs_ctx st)) (cs_bp st) (cc_rel (cs_ctx st)); end_token st1) = Ok st' /\ step_done st st' false.
Proof.
  intros Hpre (Hat & Hc & Hs) H3. unfold NTFS_SB_SIZE in *. destruct Hs as [Hs|Hg]; [lia|]. pose proof Hg as (Hsz & Hend & Hrel & _).
  pose proof Hpre as (_ & _ & _ & _ & _ & Hi & _). destruct (bits_at_offset (cs_i st) _ _ _ ltac:(lia) Hat) as [Ebp _].
  pose proof (bits_next st Hi ltac:(lia) Hat) as Hnext. unfold lazy_token. cbn zeta in *. set (st1 := if cs_mxoff st <? cs_i st + 1 then widen st else st) in *.
  assert (same_output st st1 /\ cs_have st1 = cs_have st /\ cc_size (cs_ctx st1) = cc_size (cs_ctx st) /\ context_ok bufsize (cs_i st + 1) (cs_ctx st1)) as ((E1 & E2 & E3 & E4 & E5 & E6) & E7 & E8 & Hc1)
    by (unfold st1; destruct (_ <? _); done).
  destruct (best_match_good (cs_ctx st1) (cs_i st + 1) (cc_size (cs_ctx st1)) (cs_bp st1) (cs_mxoff st1)) as (c' & -> & Hc' & Emx & Hr); [lia|lia|done|done|].
  cbn [mbind res_bind]. rewrite E8 in Hr. unfold with_ctx. rewrite E1, E2, E3, E4, E5, E6, E7.
  destruct Hr as [Hr|[Hr Hg']].
  - rewrite (proj2 (Z.ltb_ge _ _)) by lia. rewrite Ebp.
    destruct (phrase_then_skip st c' (cs_bp st1) (cs_mxoff st1) full part (cc_size (cs_ctx st)) (cc_rel (cs_ctx st)) 2) as (st2 & st' & -> & Ei & E & Hd);
      [done|done|lia|by replace (cs_i st + 2) with (cs_i st + 1 + 1) by lia|rewrite Emx; apply Hnext|].
    exists st'. split; [exact E|done].
  - rewrite (proj2 (Z.ltb_lt _ _)) by lia. apply literal_step with (full := full) (part := part); [done|]. rewrite Emx. split; [done|]. split; [done|done].
Qed.

Lemma compress_step_spec st full part : loop_inv st full part -> cs_i st < bufsize -> cs_xout st < 4098 -> 4100 <= zlen (cs_out st) ->
  exists st' stop, compress_step inbuf bufsize st = Ok (st', stop) /\ step_done st st' stop.
Proof.
  intros Hinv Hi Hx Ho. unfold compress_step. destruct (search_spec _ _ _ Hinv Hi) as (st1 & -> & (E1 & E2 & E3 & E4 & E5 & E6) & Hs). cbn [mbind res_bind].
  assert (step_pre st1 full part) as Hpre.
  { destruct Hinv as (Hp & Hw & Ht & Hn & Hl & _). unfold step_pre. rewrite E1, E2, E3, E4, E5, E6. repeat (split; [done|]). done. }
  assert (forall st' stop, step_done st1 st' stop -> step_done st st' stop) as Htrans by (intros st' stop; unfold step_done; by rewrite E1, E2).
  clear Hinv. destruct (Z.leb_spec 3 (cc_size (cs_ctx st1))) as [H3|H3].
  - destruct (Z.leb_spec NICE_MATCH_LEN (cc_size (cs_ctx st1))) as [Hnice|Hnice].
    + pose proof Hs as (Hat & Hc & [Hg|Hg]); [lia|]. pose proof Hg as (Hsz & Hend & Hrel & _). unfold NTFS_SB_SIZE in *.
      destruct (bits_at_offset (cs_i st1) _ _ _ ltac:(lia) Hat) as [Ebp _]. rewrite Ebp.
      destruct (Z.eqb_spec (cs_i st1 + cc_size (cs_ctx st1)) bufsize) as [Ej|Ej].
      * destruct Hpre as (Hp & Hw & Ht & Hn & Hl & _ & Hx1 & Ho1). pose proof (zlen_nonneg part).
        destruct (put_phrase_spec st1 _ _ full part Hp Hw Hg ltac:(lia) Ht Hn) as (out' & -> & Hz & Hw' & Hp'). cbn [mbind res_bind].
        do 2 eexists. split; [done|]. apply Htrans. split; [done|]. split; [cbn; lia|]. eexists full, _.
        cbn [cs_ctx cs_out cs_i cs_bp cs_mxoff cs_have cs_xout cs_ptag cs_tag cs_ntag]. split; [done|]. split; [exact Hp'|]. split; [done|]. split; [done|].
        rewrite zlen_app. change (zlen [_]) with 1. lia.
      * pose proof Hat as [Hup _]. destruct (phrase_then_skip st1 (cs_ctx st1) (cs_bp st1) (cs_mxoff st1) full part _ _ 1 Hpre Hg) as (st2 & st' & E & Ei & E' & Hd);
          [unfold NICE_MATCH_LEN in *; lia|done|eapply bits_upto_mono; [|done]; lia|].
        replace (mkState _ _ _ _ _ _ _ _ _ _) with st1 in E by (by destruct st1). rewrite E. cbn [mbind res_bind]. rewrite Ei.
        destruct (skip_to _ _ _ _ _) as [st3| |]; cbn [mbind res_bind] in *; try done. rewrite E'. exists st', false. split; [done|]. by apply Htrans.
    + destruct (lazy_step st1 full part Hpre Hs H3) as (st' & E & Hd). destruct (lazy_token _ _ _ _ _ _) as [st2| |]; cbn [mbind res_bind] in *; try done.
      rewrite E. exists st', false. split; [done|]. by apply Htrans.
  - destruct Hs as (Hat & Hc & _). destruct (literal_step st1 (cs_ctx st1) (cs_bp st1) (cs_mxoff st1) false full part Hpre) as (st' & E & Hd).
    { split; [|done]. eapply bits_upto_mono; [|apply Hat]. lia. }
    replace (mkState _ _ _ _ _ _ _ _ _ _) with st1 in E by (by destruct st1). destruct (put_literal _ _ _) as [st2| |]; cbn [mbind res_bind] in *; try done.
    rewrite E. exists st', false. split; [done|]. by apply Htrans.
Qed.

(** What the loop ends with: it stopped at the end of the input, or the
    output has become too long. *)
Definition loop_done (st : comp_state) (full : list (list token)) (part : list token) : Prop :=
  parsed (cs_i st) full part /\ written (cs_out st) (cs_ptag st) (cs_xout st) full part /\
  cs_tag st = tag_of part /\ cs_ntag st = 8 - zlen part /\ zlen part <= 8.

Lemma compress_loop_spec fuel : forall st full part, loop_inv st full part -> 4100 <= zlen (cs_out st) -> (Z.to_nat (bufsize - cs_i st) <= fuel)%nat ->
  exists st' full' part', compress_loop fuel inbuf bufsize st = Ok st' /\ loop_done st' full' part' /\ zlen (cs_out st') = zlen (cs_out st).
Proof.
  assert (forall st full part, loop_inv st full part -> loop_done st full part) as Hexit.
  { intros st full part (? & ? & ? & ? & ? & _). split; [done|]. split; [done|]. split; [done|]. split; [done|lia]. }
  induction fuel as [|fuel IH]; intros st full part Hinv Ho Hf; cbn [compress_loop].
  - rewrite (proj2 (Z.ltb_ge (cs_i st) bufsize)) by lia. cbn [andb]. exists st, full, part. auto.
  - destruct (Z.ltb_spec (cs_i st) bufsize) as [Hi|Hi]; cbn [andb]; [|by exists st, full, part; auto].
    destruct (Z.ltb_spec (cs_xout st) (NTFS_SB_SIZE + 2)) as [Hx|Hx]; [|by exists st, full, part; auto].
    destruct (compress_step_spec st full part Hinv Hi Hx Ho) as (st' & stop & -> & Hz & Hlt & full' & part' & Hd). cbn [mbind res_bind]. destruct stop.
    + destruct Hd as (_ & ? & ? & ? & ? & ?). exists st', full', part'. split; [done|]. split; [|done]. split; [done|]. split; [done|]. split; [done|]. split; [done|lia].
    + destruct (IH st' full' part') as (st2 & f2 & p2 & -> & Hd2 & Hz2); [done|lia|lia|]. exists st2, f2, p2. split; [done|]. split; [done|lia].
Qed.

Lemma init_inv `{Heap} outbuf : 4100 <= zlen outbuf -> loop_inv (comp_init outbuf) [] [].
Proof.
  intros Ho. unfold loop_inv, comp_init. cbn [cs_ctx cs_out cs_i cs_bp cs_mxoff cs_have cs_xout cs_ptag cs_tag cs_ntag cc_mxsz].
  split; [|split; [|split; [done|split; [done|split; [done|split]]]]].
  - split; [lia|]. split; [constructor|]. done.
  - destruct outbuf as [|a [|b [|x rest]]]; [unfold zlen in Ho; cbn in Ho; lia..|]. by exists [a; b], x, rest.
  - split; [lia|]. split; [done|]. split; [done|]. by left.
  - assert (entered bufsize 0 = 0) as E by (unfold entered; lia). unfold context_ok. cbn [cc_head cc_prev]. rewrite E. split; [|split; [|split]].
    + unfold zlen. rewrite length_replicate. done.
    + unfold zlen. rewrite length_map, length_seq. done.
    + apply Forall_replicate. lia.
    + lia.
Qed.

(** The groups as they are when the last tag is stored. *)
Lemma finish_tag st full part : loop_done st full part -> 0 < cs_i st -> cs_xout st <= zlen (cs_out st) ->
  exists gs hdr rest xout, (if cs_ntag st =? 8 then Ok (cs_xout st - 1, cs_out st)
       else out ← aset (cs_out st) (cs_ptag st) (cs_tag st); Ok (cs_xout st, out)) = Ok (xout, hdr ++ groups_bytes 0 gs ++ rest) /\
    zlen hdr = 2 /\ xout = 2 + zlen (groups_bytes 0 gs) /\ gs <> [] /\ groups_ok gs /\ tokens_ok 0 (concat gs) /\
    expand [] (concat gs) = take (Z.to_nat (cs_i st)) inbuf /\ zlen (hdr ++ groups_bytes 0 gs ++ rest) = zlen (cs_out st).
Proof.
  intros (Hp & Hw & Ht & Hn & Hl) Hi Hx. pose proof (parsed_pos _ _ _ Hp) as Epos. destruct Hp as (_ & Hf & Hok & Hex). destruct Hw as (hdr & x & rest & Eo & Hh & Ep & Ex).
  assert (forall g, (1 <= length g <= 8)%nat -> groups_ok (full ++ [g])) as Hgo.
  { intros g Hg. clear -Hf Hg. induction Hf as [|a l Ha Hf IH]; [done|]. destruct l; cbn [app groups_ok] in *; auto. }
  assert (full <> [] -> groups_ok full) as Hgf.
  { clear -Hf. intros _. induction Hf as [|a l Ha Hf IH]; [done|]. destruct l; cbn [groups_ok] in *; [lia|auto]. }
  destruct part as [|t part].
  - cbn in Hn. rewrite Hn. cbn [Z.eqb Z.sub Pos.eqb]. cbn [tokens_len] in Epos. rewrite app_nil_r in *. cbn [tokens_bytes app] in Eo, Ex.
    assert (full <> []) as Hne by (intros ->; cbn in Epos; lia).
    exists full, hdr, (x :: rest), (cs_xout st - 1). rewrite <- Eo. change (zlen []) with 0 in Ex. split; [done|]. split; [done|]. split; [lia|].
    split; [done|]. split; [auto|]. done.
  - set (p := t :: part) in *. assert (1 <= zlen p) by (unfold p; zlen_solve). rewrite (proj2 (Z.eqb_neq _ _)) by lia.
    rewrite Eo, app_assoc. rewrite aset_mid by (rewrite zlen_app; lia). cbn [mbind res_bind].
    exists (full ++ [p]), hdr, rest, (cs_xout st). rewrite groups_bytes_app. cbn [groups_bytes]. rewrite app_nil_r, Z.add_0_l, Ht.
    rewrite concat_app. cbn [concat]. rewrite app_nil_r. split; [by rewrite <- !app_assoc|]. split; [done|].
    split; [rewrite zlen_app, zlen_cons; lia|]. split; [by destruct full|]. split; [apply Hgo; unfold zlen in *; lia|]. split; [done|]. split; [done|].
    rewrite !zlen_app, !zlen_cons, !zlen_app. lia.
Qed.

Lemma packed_header_bytes n : 0 <= n < 4096 -> [Z.land n 255; 176 + Z.land (Z.shiftr n 8) 15] = le_bytes 2 (45056 + n).
Proof.
  intros Hn. change 255 with (Z.ones 8). change 15 with (Z.ones 4). rewrite !Z.land_ones, Z.shiftr_div_pow2 by lia.
  change (2 ^ 8) with 256. change (2 ^ 4) with 16. cbn [le_bytes]. f_equal; [dlia|f_equal; dlia].
Qed.

(** The data stored as they are. *)
Lemma raw_block_spec out : 4100 <= zlen out -> exists blk rest,
  (data ← aslice inbuf 0 bufsize;
   out ← awrite out 2 data;
   out ← (if bufsize <? NTFS_SB_SIZE then awrite out (bufsize + 2) (replicate (Z.to_nat (NTFS_SB_SIZE - bufsize)) 0) else Ok out);
   out ← aset out 0 255;
   out ← aset out 1 63;
   Ok (NTFS_SB_SIZE + 2, out)) = Ok (zlen blk, blk ++ rest) /\
  sub_block (take (Z.to_nat bufsize) inbuf) blk /\ zlen (blk ++ rest) = zlen out.
Proof.
  intros Ho. unfold NTFS_SB_SIZE in *. set (data := take (Z.to_nat bufsize) inbuf).
  assert (zlen data = bufsize) as Ed by (unfold data, zlen in *; rewrite length_take; lia).
  assert (aslice inbuf 0 bufsize = Ok data) as ->.
  { rewrite <- (take_drop (Z.to_nat bufsize) inbuf). exact (aslice_mid [] data _ 0 bufsize eq_refl (eq_sym Ed)). }
  destruct out as [|a [|b out]]; [unfold zlen in Ho; cbn in Ho; lia..|]. rewrite !zlen_cons in Ho. cbn [mbind res_bind].
  set (z := replicate (Z.to_nat (4096 - bufsize)) 0). assert (zlen z = 4096 - bufsize) as Ez by (unfold z, zlen; rewrite length_replicate; lia).
  set (o1 := take (length data) out). set (o2 := take (length z) (drop (length data) out)). set (o3 := drop (length z) (drop (length data) out)).
  assert (out = o1 ++ o2 ++ o3) as Eo by (unfold o2, o3; rewrite take_drop; unfold o1; by rewrite take_drop).
  assert (length o1 = length data /\ length o2 = length z) as [E1 E2] by (unfold o1, o2; unfold zlen in *; rewrite !length_take, length_drop; lia).
  replace (a :: b :: out) with ([a; b] ++ o1 ++ (o2 ++ o3)) by (by rewrite Eo).
  rewrite (awrite_mid [a; b] o1 _ data 2) by done. cbn [mbind res_bind].
  assert ((if bufsize <? 4096 then awrite ([a; b] ++ data ++ o2 ++ o3) (bufsize + 2) z else Ok ([a; b] ++ data ++ o2 ++ o3)) = Ok ([a; b] ++ data ++ z ++ o3)) as ->.
  { destruct (Z.ltb_spec bufsize 4096).
    - replace ([a; b] ++ data ++ o2 ++ o3) with (([a; b] ++ data) ++ o2 ++ o3) by (by rewrite <- app_assoc).
      rewrite awrite_mid by (rewrite ?zlen_app; change (zlen [a; b]) with 2; lia || done). by rewrite <- app_assoc.
    - destruct z; [|unfold zlen in Ez; cbn in Ez; lia]. by destruct o2. }
  cbn [mbind res_bind]. change ([a; b] ++ ?l) with ([] ++ a :: b :: l). rewrite aset_mid by done. cbn [mbind res_bind].
  change ([] ++ 255 :: b :: ?l) with ([255] ++ b :: l). rewrite aset_mid by done. cbn [mbind res_bind].
  exists ([255; 63] ++ pad_block data), o3.
  assert (pad_block data = data ++ z) as Epad by (unfold pad_block, z, NTFS_SB_SIZE; by rewrite Ed).
  assert (zlen ([255; 63] ++ pad_block data) = 4098) as El by (rewrite zlen_app, pad_block_zlen by (unfold NTFS_SB_SIZE; lia); done).
  rewrite El. rewrite Epad. split; [by rewrite <- !app_assoc|]. split; [rewrite <- Epad; constructor; unfold NTFS_SB_SIZE; lia|].
  rewrite ?zlen_app, ?zlen_cons, ?zlen_app. unfold zlen in *. lia.
Qed.

(** The compressor puts a sub-block that holds the input at the start of the
    output buffer. *)
Lemma compress_block_spec `{Heap} outbuf : heap_grants comp_context_size = true -> 4100 <= zlen outbuf ->
  exists blk rest, ntfs_compress_block inbuf bufsize outbuf = Ok (zlen blk, blk ++ rest) /\
    sub_block (take (Z.to_nat bufsize) inbuf) blk /\ zlen (blk ++ rest) = zlen outbuf.
Proof.
  intros Hh Ho. unfold ntfs_compress_block. rewrite Hh. cbn [negb].
  destruct (compress_loop_spec (Z.to_nat bufsize) (comp_init outbuf) [] []) as (st & full & part & -> & Hd & Hz); [by apply init_inv|done|cbn; lia|].
  cbn [mbind res_bind]. change (cs_out (comp_init outbuf)) with outbuf in Hz.
  assert (cs_xout st <= zlen (cs_out st)) as Hx.
  { destruct Hd as (_ & (h & x & r & -> & Hh2 & -> & ->) & _). rewrite !zlen_app, zlen_cons, zlen_app. pose proof (zlen_nonneg r). lia. }
  assert (0 <= cs_i st <= bufsize) as Hi by (by destruct Hd as ((? & _) & _)). destruct (Z.eq_dec (cs_i st) 0) as [E0|E0].
  - rewrite (proj2 (Z.leb_gt bufsize (cs_i st))) by lia.
    destruct Hd as (_ & Hw & _ & Hn & _). destruct (cs_ntag st =? 8); cbn [mbind res_bind andb]; [rewrite <- Hz in *; by apply raw_block_spec|].
    assert (0 <= cs_ptag st < zlen (cs_out st)) as Hpt.
    { destruct Hw as (h & x & r & -> & Hh2 & -> & _). rewrite !zlen_app, zlen_cons. pose proof (zlen_nonneg (groups_bytes 0 full)).
      match goal with |- context [zlen (?a ++ r)] => pose proof (zlen_nonneg (a ++ r)) end. lia. }
    rewrite aset_ok by done. cbn [mbind res_bind]. rewrite <- Hz in *. rewrite <- (zlen_insert (cs_out st) (Z.to_nat (cs_ptag st)) (cs_tag st)) in *. by apply raw_block_spec.
  - destruct (finish_tag st full part Hd ltac:(lia) Hx) as (gs & hdr & rest & xout & -> & Hh2 & Exo & Hne & Hgo & Hok & Hex & Hzo). cbn [mbind res_bind].
    destruct (Z.leb_spec bufsize (cs_i st)) as [Hle|Hle]; cbn [andb]; [|rewrite <- Hz, <- Hzo in *; by apply raw_block_spec].
    destruct (Z.ltb_spec xout (NTFS_SB_SIZE + 2)) as [Hlx|Hlx]; [|rewrite <- Hz, <- Hzo in *; by apply raw_block_spec].
    replace (cs_i st) with bufsize in Hex by lia. set (bs := groups_bytes 0 gs) in *. unfold NTFS_SB_SIZE in *.
    pose proof (groups_bytes_min gs 0 Hne Hgo) as Hmin. fold bs in Hmin.
    destruct hdr as [|a [|b [|y hdr]]]; [done|done| |rewrite !zlen_cons in Hh2; pose proof (zlen_nonneg hdr); lia].
    change ([a; b] ++ ?l) with ([] ++ a :: b :: l). rewrite aset_mid by done. cbn [mbind res_bind].
    change ([] ++ ?x :: b :: ?l) with ([x] ++ b :: l). rewrite aset_mid by done. cbn [mbind res_bind].
    pose proof (packed_header_bytes (xout - 3) ltac:(lia)) as Ehd.
    exists (le_bytes 2 (45056 + (zlen bs - 1)) ++ bs), rest. replace (zlen bs - 1) with (xout - 3) by lia. rewrite <- Ehd.
    split; [f_equal; f_equal; rewrite zlen_app; change (zlen [_; _]) with 2; lia|]. split.
    + rewrite Ehd. replace (xout - 3) with (zlen bs - 1) by lia. apply sb_packed; [done|done|done|done| |unfold NTFS_SB_SIZE; fold bs; lia]. unfold NTFS_SB_SIZE, zlen. rewrite length_take. lia.
    + rewrite <- Hz, <- Hzo, <- app_assoc, !zlen_app. done.
Qed.

End compressor.
