(* ===== verification/CompressSet.v ===== *)
(** Compression blocks on the volume (libntfs/compress.c): the transfer of the
    clusters of a set, the compression and writing of a set of sub-blocks, and
    the reading back of a set to append to it or to overwrite a part of it. *)

From S2P Require Import Prelude Bytes Volume Runlist Device Compress.
Import Compress.

Module CompressSet.

Section sets.
Context {D : Type} {OPS : DeviceOps D} (vol : ntfs_volume).

(** The [do ... while] of [read_clusters] from the run [xrl] on; [offs] is 0
    but for the first run.  The bytes got so far; a short read ends it and is
    not counted.  (A count of -1 as an [int] is not told from the error -1.) *)
Fixpoint read_clusters_loop (xrl : runlist) (dev : ntfs_device D) (offs to_read : Z) (got : list Z) : res (list Z) :=
  match xrl with
  | [] => Undef
  | r :: xrl =>
      let count := u32 (Z.shiftl (len r) (cluster_size_bits vol)) in
      let xpos := s64 (Z.shiftl (lcn r) (cluster_size_bits vol)) in
      let count := u32 (count - offs) in
      let xpos := s64 (xpos + offs) in
      let count := if u32 (to_read - zlen got) <? count then u32 (to_read - zlen got) else count in
      match ntfs_pread dev xpos count with
      | Undef => Undef
      | Err _ => if s32 count =? -1 then Undef else Ok got
      | Ok bs =>
          if s32 (zlen bs) =? s32 count then
            if zlen (got ++ bs) <? to_read then read_clusters_loop xrl dev 0 to_read (got ++ bs)
            else Ok (got ++ bs)
          else Ok got
      end
  end.

Definition read_clusters (rl : runlist) (dev : ntfs_device D) (offs to_read : Z) : res (list Z) :=
  read_clusters_loop rl dev offs to_read [].

(** The same for [write_clusters]: the device and the number of bytes put. *)
Fixpoint write_clusters_loop (xrl : runlist) (dev : ntfs_device D) (offs to_write : Z) (xoutbuf : list Z) (put : Z)
    : res (ntfs_device D * Z) :=
  match xrl with
  | [] => Undef
  | r :: xrl =>
      let count := s32 (Z.shiftl (len r) (cluster_size_bits vol)) in
      let xpos := s64 (Z.shiftl (lcn r) (cluster_size_bits vol)) in
      let count := s32 (count - offs) in
      let xpos := s64 (xpos + offs) in
      let count := if to_write - put <? count then to_write - put else count in
      '(dev, xput, _) ← ntfs_pwrite dev xpos count xoutbuf;
      if s32 xput =? count then
        if count <? 0 then Undef else
        let put := put + count in
        if put <? to_write then write_clusters_loop xrl dev 0 to_write (drop (Z.to_nat count) xoutbuf) put
        else Ok (dev, put)
      else Ok (dev, put)
  end.

Definition write_clusters (rl : runlist) (dev : ntfs_device D) (offs to_write : Z) (outbuf : list Z) : res (ntfs_device D * Z) :=
  write_clusters_loop rl dev offs to_write outbuf 0.

(** A single compressed zero, a couple of them, and more, to be followed by
    some count. *)
Definition onezero : list Z := [1; 176; 0; 0].
Definition twozeroes : list Z := [2; 176; 0; 0; 0].
Definition morezeroes : list Z := [3; 176; 2; 0].

(** [!memcmp(pbuf, pattern, n)] *)
Definition starts_with (pbuf pattern : list Z) : res bool :=
  bs ← aslice pbuf 0 (zlen pattern);
  Ok (bool_decide (bs = pattern)).

(** Is the sub-block of [sz] bytes at [pbuf] one of zeroes? *)
Definition zero_block (pbuf : list Z) (sz : Z) : res bool :=
  if sz =? 4 then starts_with pbuf onezero
  else if sz =? 5 then starts_with pbuf twozeroes
  else if sz =? 6 then starts_with pbuf morezeroes
  else Ok false.

(** [for (p=0; (p<insz) && !fail; p+=NTFS_SB_SIZE)]: the output buffer, its
    use [compsz], [allzeroes] and [fail]. *)
Fixpoint comp_blocks `{Heap} (fuel : nat) (block_size clsz insz : Z) (inbuf : list Z) (p : Z) (outbuf : list Z) (compsz : Z) (allzeroes : bool)
    : res (list Z * Z * bool * bool) :=
  if negb (p <? insz) then Ok (outbuf, compsz, allzeroes, false) else
  match fuel with
  | O => Undef
  | S fuel =>
      let bsz := if p + NTFS_SB_SIZE <? insz then NTFS_SB_SIZE else insz - p in
      '(sz, pbuf) ← ntfs_compress_block (drop (Z.to_nat p) inbuf) bsz (drop (Z.to_nat compsz) outbuf);
      let outbuf := take (Z.to_nat compsz) outbuf ++ pbuf in
      if (sz =? 0) || (block_size <? compsz + sz + clsz + 2) then Ok (outbuf, compsz, allzeroes, true)
      else
        allzeroes ← (if allzeroes then zero_block pbuf sz else Ok false);
        comp_blocks fuel block_size clsz insz inbuf (p + NTFS_SB_SIZE) outbuf (compsz + sz) allzeroes
  end.

(** The size actually written, 0 if all zeroes, -1 if the set could not be
    compressed, -2 for an error. *)
Definition ntfs_comp_set `{Heap} (block_size : Z) (rl : runlist) (dev : ntfs_device D) (offs insz : Z) (inbuf : list Z)
    : res (ntfs_device D * Z) :=
  let clsz := Z.shiftl 1 (cluster_size_bits vol) in
  let size := block_size + 2 * (block_size / NTFS_SB_SIZE) + 2 in
  if negb (heap_grants size) then Ok (dev, -1) else
  '(outbuf, compsz, allzeroes, fail) ←
    comp_blocks (Z.to_nat insz) block_size clsz insz inbuf 0 (map (fun k => u8 (heap_junk k)) (seq 0 (Z.to_nat size))) 0 true;
  if negb fail && negb allzeroes then
    outbuf ← aset outbuf compsz 0;
    outbuf ← aset outbuf (compsz + 1) 0;
    let compsz := compsz + 2 in
    let rounded := Z.lor (compsz - 1) (clsz - 1) + 1 in
    outbuf ← awrite outbuf compsz (replicate (Z.to_nat (rounded - compsz)) 0);
    '(dev, written) ← write_clusters rl dev offs rounded outbuf;
    if negb (written =? rounded) then Ok (dev, -2) else Ok (dev, written)
  else if negb fail then Ok (dev, 0)
  else Ok (dev, -1).

(** The buffer with the set decompressed and [b] put at [pos]; [None] when
    something failed. *)
Definition ntfs_read_append `{Heap} (block_size : Z) (rl : runlist) (dev : ntfs_device D) (offs compsz pos : Z) (appending : bool)
    (outbuf b : list Z) : res (option (list Z)) :=
  if compsz =? block_size then
    outbuf ← awrite outbuf 0 (replicate (Z.to_nat compsz) 0);
    outbuf ← awrite outbuf pos b;
    Ok (Some outbuf)
  else if negb (heap_grants compsz) then Ok None
  else
    let decompsz := if appending then Z.lor (pos - 1) (NTFS_SB_SIZE - 1) + 1 else block_size in
    compbuf ← read_clusters rl dev offs compsz;
    if zlen compbuf =? compsz then
      match ntfs_decompress outbuf decompsz compbuf compsz with
      | Ok outbuf => outbuf ← awrite outbuf pos b; Ok (Some outbuf)
      | Err _ => Ok None
      | Undef => Undef
      end
    else Ok None.

End sets.

End CompressSet.
