(* ===== verification/CompressSetThm.v ===== *)
(** Correctness of compressed sets: what is written decompresses to what was
    to be written, and a set of zeroes is recognised only when it is one. *)

From S2P Require Import Prelude Bytes Volume Runlist Device DeviceThm Compress CompressTok CompressMatch CompressThm CompressSet.
Import Compress CompressSet.

(** ** Zeroes *)

Definition zeroes (l : list Z) : Prop := Forall (fun x => x = 0) l.

Lemma zeroes_app a b : zeroes a -> zeroes b -> zeroes (a ++ b).
Proof. intros. by apply Forall_app. Qed.

Lemma tokens_zeroes ts : forall pos out, tag_of ts = 0 -> zeroes (tokens_bytes pos ts) -> zeroes out -> zeroes (expand out ts).
Proof.
  induction ts as [|t ts IH]; intros pos out Ht Hz Ho; [done|]. destruct t as [b|d l]; cbn [tag_of] in Ht.
  - cbn [tokens_bytes token_bytes app] in Hz. apply Forall_cons_1 in Hz as [-> Hz].
    change (zeroes (expand (out ++ [0]) ts)). eapply IH; [lia|done|]. apply Forall_app. split; [done|by repeat constructor].
  - pose proof (tag_of_range ts). lia.
Qed.

Lemma groups_zeroes gs : forall pos out, zeroes (groups_bytes pos gs) -> zeroes out -> zeroes (expand out (concat gs)).
Proof.
  induction gs as [|g gs IH]; intros pos out Hz Ho; [done|]. cbn [groups_bytes concat] in *.
  apply Forall_cons_1 in Hz as [Ht Hz]. apply Forall_app in Hz as [Hz1 Hz2]. rewrite expand_app. eapply IH; [done|]. by eapply tokens_zeroes.
Qed.

Lemma copy_back_zeroes n dist : forall out, zeroes out -> zeroes (copy_back n dist out).
Proof.
  induction n as [|n IH]; intros out Ho; [done|]. cbn [copy_back]. apply IH, Forall_app. split; [done|]. constructor; [|done].
  destruct (nth_in_or_default (Z.to_nat (zlen out - dist)) out 0) as [Hi|]; [|done]. by apply (proj1 (List.Forall_forall _ _) Ho).
Qed.

(** A literal zero and a phrase. *)
Lemma morezeroes_data gs x y : groups_bytes 0 gs = [2; 0; x; y] -> groups_ok gs -> zeroes (expand [] (concat gs)).
Proof.
  destruct gs as [|g gs]; [done|]. cbn [groups_bytes]. intros [= Ht Hb] Hg. destruct g as [|[b|d l] g]; cbn [tag_of] in Ht; [done| |pose proof (tag_of_range g); lia].
  destruct g as [|[b'|d l] g]; cbn [tag_of] in Ht; [done|lia|]. cbn [tokens_bytes token_bytes token_len] in Hb.
  change ([b] ++ ?x) with (b :: x) in Hb. apply (inj2 cons) in Hb as [-> Hb].
  assert (g = [] /\ gs = []) as [-> ->].
  { apply (f_equal length) in Hb. rewrite !length_app, le_bytes_length in Hb. cbn [length] in Hb.
    destruct g as [|t g]; [|cbn [tokens_bytes] in Hb; rewrite length_app in Hb; pose proof (token_bytes_len (0 + 1 + l) t) as Hl; unfold zlen in Hl; lia].
    destruct gs; [done|]. cbn in Hb. lia. }
  cbn. apply copy_back_zeroes. by repeat constructor.
Qed.

Lemma starts_with_spec blk rest pat : zlen pat <= zlen blk ->
  starts_with (blk ++ rest) pat = Ok (bool_decide (take (length pat) blk = pat)).
Proof.
  intros Hl. unfold starts_with, aslice. rewrite zlen_app. pose proof (zlen_nonneg pat). pose proof (zlen_nonneg rest). zdec. cbn [orb mbind res_bind].
  rewrite zlen_to_nat. change (drop (Z.to_nat 0) ?l) with l. rewrite take_app_le by (unfold zlen in *; lia). done.
Qed.

(** A sub-block that looks like zeroes holds zeroes. *)
Lemma zero_block_spec data blk rest : sub_block data blk ->
  exists b, zero_block (blk ++ rest) (zlen blk) = Ok b /\ (b = true -> zeroes data).
Proof.
  intros Hb. unfold zero_block.
  destruct Hb as [H|gs Hn Hg Hok Hex Hd Hl].
  { rewrite zlen_app, pad_block_zlen by done. by exists false. }
  set (w := le_bytes 2 _). assert (zlen w = 2) as Ew by apply le_bytes_zlen.
  assert (forall pat, take (length pat) (w ++ groups_bytes 0 gs) = pat -> (2 <= length pat)%nat ->
    take (length pat - 2) (groups_bytes 0 gs) = drop 2 pat) as Htk.
  { intros pat E H2. rewrite <- E at 2. rewrite take_app_ge by (unfold zlen in Ew; lia). rewrite drop_app_ge by (unfold zlen in Ew; lia).
    replace (length w) with 2%nat by (unfold zlen in Ew; lia). done. }
  assert (zlen (w ++ groups_bytes 0 gs) = 2 + zlen (groups_bytes 0 gs)) as El by (rewrite zlen_app; lia).
  destruct (Z.eqb_spec (zlen (w ++ groups_bytes 0 gs)) 4) as [E4|N4]; [|destruct (Z.eqb_spec (zlen (w ++ groups_bytes 0 gs)) 5) as [E5|N5];
    [|destruct (Z.eqb_spec (zlen (w ++ groups_bytes 0 gs)) 6) as [E6|N6]; [|by exists false]]].
  1-3: rewrite starts_with_spec by (rewrite ?E4, ?E5, ?E6; done); eexists; (split; [done|]); intros E%bool_decide_eq_true; rewrite <- Hex.
  - apply (Htk onezero) in E; [|cbn; lia]. cbn in E. rewrite take_ge in E by (unfold zlen in *; lia).
    eapply groups_zeroes; [|constructor]. rewrite E. by repeat constructor.
  - apply (Htk twozeroes) in E; [|cbn; lia]. cbn in E. rewrite take_ge in E by (unfold zlen in *; lia).
    eapply groups_zeroes; [|constructor]. rewrite E. by repeat constructor.
  - apply (Htk morezeroes) in E; [|cbn; lia]. change (drop 2 morezeroes) with [2; 0] in E. cbn [length morezeroes Nat.sub] in E.
    destruct (groups_bytes 0 gs) as [|a [|b [|x [|y [|? ?]]]]] eqn:Eg; try (unfold zlen in *; cbn in *; lia). cbn in E. injection E as -> ->.
    by eapply morezeroes_data.
Qed.

(** ** The blocks of a set *)

Section set_blocks.
Context `{Heap} (block_size m clsz insz : Z) (inbuf : list Z).
Hypothesis Hbytes : bytes inbuf.
Hypothesis Hblock : block_size = NTFS_SB_SIZE * m.
Hypothesis Hins : 0 < insz <= block_size.
Hypothesis Hin : insz <= zlen inbuf.
Hypothesis Hcl : 0 < clsz.

(** The first [p] bytes of the data of the set, followed by zeroes. *)
Definition set_upto (p : Z) : list Z := take (Z.to_nat p) (take (Z.to_nat insz) inbuf) ++ replicate (Z.to_nat (p - insz)) 0.

Lemma set_upto_step p : 0 <= p < insz ->
  let bsz := if p + NTFS_SB_SIZE <? insz then NTFS_SB_SIZE else insz - p in
  0 < bsz <= NTFS_SB_SIZE /\ bsz <= zlen (drop (Z.to_nat p) inbuf) /\
  set_upto (p + NTFS_SB_SIZE) = set_upto p ++ pad_block (take (Z.to_nat bsz) (drop (Z.to_nat p) inbuf)).
Proof.
  intros Hp. unfold NTFS_SB_SIZE in *. cbn zeta. set (bsz := if p + 4096 <? insz then 4096 else insz - p).
  assert (0 < bsz <= 4096 /\ p + bsz <= insz /\ (bsz = 4096 \/ p + bsz = insz)) as (Hb & Hle & Hor) by (unfold bsz; destruct (Z.ltb_spec (p + 4096) insz); lia).
  split; [done|]. split; [unfold zlen in *; rewrite length_drop; lia|].
  assert (zlen (take (Z.to_nat bsz) (drop (Z.to_nat p) inbuf)) = bsz) as El by (unfold zlen in *; rewrite length_take, length_drop; lia).
  unfold set_upto, pad_block, NTFS_SB_SIZE. rewrite El. replace (Z.to_nat (p - insz)) with 0%nat by lia. cbn [replicate]. rewrite app_nil_r.
  rewrite !take_take. replace (Nat.min (Z.to_nat p) (Z.to_nat insz)) with (Z.to_nat p) by lia.
  replace (Nat.min (Z.to_nat (p + 4096)) (Z.to_nat insz)) with (Z.to_nat p + Z.to_nat bsz)%nat by lia.
  replace (Z.to_nat (p + 4096 - insz)) with (Z.to_nat (4096 - bsz)) by lia. rewrite <- take_take_drop. by rewrite <- app_assoc.
Qed.

Lemma comp_blocks_spec fuel : forall p datas bs rest allz,
  p = NTFS_SB_SIZE * zlen datas -> p < insz + NTFS_SB_SIZE -> (Z.to_nat (insz - p) <= fuel)%nat ->
  blocks datas bs -> concat (map pad_block datas) = set_upto p -> zlen (bs ++ rest) = block_size + 2 * m + 2 ->
  (datas = [] \/ zlen bs + clsz + 2 <= block_size) -> (allz = true -> zeroes (set_upto p)) ->
  exists out compsz allz' fail, comp_blocks fuel block_size clsz insz inbuf p (bs ++ rest) (zlen bs) allz = Ok (out, compsz, allz', fail) /\
    (fail = true \/ fail = false /\ exists datas' bs' rest', out = bs' ++ rest' /\ compsz = zlen bs' /\ blocks datas' bs' /\
      insz <= NTFS_SB_SIZE * zlen datas' < insz + NTFS_SB_SIZE /\ concat (map pad_block datas') = set_upto (NTFS_SB_SIZE * zlen datas') /\
      zlen (bs' ++ rest') = block_size + 2 * m + 2 /\ zlen bs' + clsz + 2 <= block_size /\ (allz' = true -> zeroes (set_upto (NTFS_SB_SIZE * zlen datas')))).
Proof.
  induction fuel as [|fuel IH]; intros p datas bs rest allz Hp Hlt Hf Hb Hc Hz Hr Ha; pose proof (zlen_nonneg datas) as Hd0; unfold NTFS_SB_SIZE in *; cbn [comp_blocks].
  all: destruct (Z.ltb_spec p insz) as [Hpi|Hpi]; cbn [negb]; [try lia|].
  1, 3: do 4 eexists; (split; [done|]); right; (split; [done|]); exists datas, bs, rest; rewrite <- Hp;
    (split; [done|]); (split; [done|]); (split; [done|]); (split; [lia|]); (split; [done|]); (split; [done|]); (split; [|done]);
    destruct Hr as [->|]; [change (zlen []) with 0 in Hp; lia|done].
  destruct (set_upto_step p ltac:(lia)) as (Hbsz & Hbl & Hstep). unfold NTFS_SB_SIZE in *. set (bsz := if p + 4096 <? insz then 4096 else insz - p) in *.
  pose proof (zlen_nonneg rest). rewrite zlen_to_nat, drop_app_length, take_app_length. rewrite zlen_app in Hz.
  assert (zlen bs <= 4098 * zlen datas) as Hbs.
  { clear -Hb. revert bs Hb. induction datas as [|d datas IH]; intros bs; cbn [blocks]; [by intros ->|].
    intros (blk & bs' & -> & Hb%sub_block_zlen & Hr%IH). unfold NTFS_SB_SIZE in *. rewrite zlen_cons, zlen_app. lia. }
  destruct (heap_grants comp_context_size) eqn:Hgrant.
  2:{ unfold ntfs_compress_block. rewrite Hgrant. cbn [negb mbind res_bind Z.eqb orb]. do 4 eexists. split; [done|]. by left. }
  destruct (compress_block_spec (drop (Z.to_nat p) inbuf) bsz ltac:(by apply Forall_drop) ltac:(lia) ltac:(unfold NTFS_SB_SIZE; lia) rest Hgrant) as (blk & rest1 & -> & Hsub & Hz1); [lia|].
  cbn [mbind res_bind]. pose proof (sub_block_zlen _ _ Hsub) as Hbk. rewrite (proj2 (Z.eqb_neq (zlen blk) 0)) by lia. cbn [orb].
  destruct (Z.ltb_spec block_size (zlen bs + zlen blk + clsz + 2)) as [|Hfit]; [do 4 eexists; split; [done|]; by left|].
  destruct (zero_block_spec _ _ rest1 Hsub) as (zb & Ezb & Hzb).
  assert (exists az, (if allz then zero_block (blk ++ rest1) (zlen blk) else Ok false) = Ok az /\ (az = true -> allz = true /\ zb = true)) as (az & -> & Haz).
  { destruct allz; [rewrite Ezb; by exists zb; auto|by exists false]. }
  cbn [mbind res_bind]. rewrite app_assoc, <- zlen_app. set (data := take (Z.to_nat bsz) (drop (Z.to_nat p) inbuf)) in *.
  destruct (IH (p + 4096) (datas ++ [data]) (bs ++ blk) rest1 az) as (out & cs & az' & fl & E & Hres).
  - rewrite zlen_app. change (zlen [data]) with 1. lia.
  - lia.
  - lia.
  - apply blocks_app; [done|]. exists blk, []. by rewrite app_nil_r.
  - rewrite map_app, concat_app, Hc. cbn [map concat]. by rewrite app_nil_r, Hstep.
  - rewrite <- app_assoc, zlen_app, Hz1. lia.
  - right. rewrite zlen_app. lia.
  - intros (Hz0 & Hz2)%Haz. rewrite Hstep. apply zeroes_app; [by apply Ha|]. unfold pad_block. apply zeroes_app; [by apply Hzb|]. by apply Forall_replicate.
  - exists out, cs, az', fl. split; [exact E|done].
Qed.

End set_blocks.

(** ** The clusters of a set *)

(** A mapped run of less than 2 GiB inside the device. *)
Definition short_run (bits size : Z) (r : runlist_element) : Prop :=
  run_inside bits size r /\ 0 <= lcn r /\ len r * 2 ^ bits < 2 ^ 31.

Section clusters.
Context {D : Type} {OPS : DeviceOps D} {LAWS : DeviceLaws D} (vol : ntfs_volume) (Hbits : 0 <= cluster_size_bits vol <= 31).
Abbreviation bits := (cluster_size_bits vol).
Abbreviation addrs := (rl_addrs bits).

Lemma write_clusters_loop_spec tail to_write : forall runs (dev : ntfs_device D) offs b put,
  let c := d_contents (d_private dev) in let count := to_write - put in
  Forall (short_run bits (zlen c)) runs -> head_ofs vol runs offs -> writable dev -> 0 <= put -> to_write < 2 ^ 31 ->
  0 < count -> offs + count <= zlen (addrs runs) -> 0 <= offs -> count <= zlen b -> zlen c < 2 ^ 63 ->
  exists dev', write_clusters_loop vol (runs ++ tail) dev offs to_write b put = Ok (dev', to_write) /\ writable dev' /\
    d_contents (d_private dev') = write_addrs c (take (Z.to_nat count) (drop (Z.to_nat offs) (addrs runs))) b.
Proof.
  induction runs as [|r runs IH]; intros dev offs b put c count Hin Ho Hw Hp Htw Hc Hav Ho0 Hb Hmax.
  { exfalso. cbn [rl_addrs] in Hav. change (zlen []) with 0 in Hav. lia. }
  apply Forall_cons_1 in Hin as [Hr Hin]. pose proof Hr as (Hri & Hlcn & H31). pose proof Hri as (Hl & _ & _ & _). cbn in Ho.
  rewrite (addrs_cons_length vol Hbits (zlen c)) in Hav by done. destruct (run_inside_bounds vol Hbits (zlen c) r Hri Hlcn) as [Hp0 Hp1].
  cbn [app write_clusters_loop]. rewrite !Z.shiftl_mul_pow2 by lia. rewrite (wraps_small 32 (len r * 2 ^ bits)) by (change (32 - 1) with 31; lia).
  rewrite (wraps_small 32 (len r * 2 ^ bits - offs)) by (change (32 - 1) with 31; lia). rewrite (s64_small (lcn r * 2 ^ bits)), (s64_small (lcn r * 2 ^ bits + offs)) by lia.
  fold count. replace (if count <? len r * 2 ^ bits - offs then count else len r * 2 ^ bits - offs) with (Z.min count (len r * 2 ^ bits - offs)) by (zcase; lia).
  rewrite addrs_window by lia. cbv zeta. set (n := Z.min count (len r * 2 ^ bits - offs)). assert (0 < n <= count) as Hn by lia.
  rewrite run_addrs_slice by lia. rewrite (proj2 (Z.leb_le 0 (lcn r))) by lia.
  destruct (ntfs_pwrite_spec dev (lcn r * 2 ^ bits + offs) n b) as (dev1 & -> & Hw1 & W); [done|lia|lia|fold c; lia|]. cbn [mbind res_bind].
  rewrite (wraps_small 32 n), Z.eqb_refl by (change (32 - 1) with 31; lia). rewrite (proj2 (Z.ltb_ge n 0)) by lia. fold c in W.
  rewrite (write_addrs_block (Z.to_nat n)) in W by (unfold zlen in *; lia). injection W as Ec. rewrite Z2Nat.id in Ec by lia.
  assert (length (map Some (seqZ (lcn r * 2 ^ bits + offs) n)) = Z.to_nat n) as La by (by rewrite length_map, length_seqZ).
  rewrite write_addrs_app by (unfold zlen in *; lia). rewrite Ec, La.
  destruct (Z.ltb_spec (put + n) to_write) as [Hlt|Hge].
  - destruct (IH dev1 0 (drop (Z.to_nat n) b) (put + n)) as (dev' & -> & Hw' & Ec'); [..|by exists dev'; split; [done|]; split; [done|]; rewrite Ec', drop_0; do 3 f_equal; lia].
    all: assert (zlen (d_contents (d_private dev1)) = zlen c) as Lc by (rewrite <- Ec; unfold zlen; by rewrite write_addrs_length).
    all: rewrite ?Lc; try done; try lia.
    + apply (head_ofs_0 vol Hbits (zlen c)). eapply List.Forall_impl; [|exact Hin]. by intros ? [? _].
    + unfold zlen in *. rewrite length_drop. lia.
  - exists dev1. replace (put + n) with to_write by lia. split; [done|]. split; [done|]. replace (Z.to_nat (count - n)) with 0%nat by lia. by rewrite take_0.
Qed.

Lemma read_clusters_loop_spec (dev : ntfs_device D) tail to_read : forall runs offs got,
  let c := d_contents (d_private dev) in let count := to_read - zlen got in
  Forall (short_run bits (zlen c)) runs -> head_ofs vol runs offs -> to_read < 2 ^ 31 ->
  0 < count -> offs + count <= zlen (addrs runs) -> 0 <= offs -> zlen c < 2 ^ 63 ->
  read_clusters_loop vol (runs ++ tail) dev offs to_read got
  = Ok (got ++ map (byte_at c) (take (Z.to_nat count) (drop (Z.to_nat offs) (addrs runs)))).
Proof.
  induction runs as [|r runs IH]; intros offs got c count Hin Ho Htr Hc Hav Ho0 Hmax.
  { exfalso. cbn [rl_addrs] in Hav. change (zlen []) with 0 in Hav. lia. }
  apply Forall_cons_1 in Hin as [Hr Hin]. pose proof Hr as (Hri & Hlcn & H31). pose proof Hri as (Hl & _ & _ & _). cbn in Ho. pose proof (zlen_nonneg got).
  rewrite (addrs_cons_length vol Hbits (zlen c)) in Hav by done. destruct (run_inside_bounds vol Hbits (zlen c) r Hri Hlcn) as [Hp0 Hp1].
  cbn [app read_clusters_loop]. rewrite !Z.shiftl_mul_pow2 by lia. rewrite (u32_small (len r * 2 ^ bits)) by lia. fold count.
  rewrite (u32_small (len r * 2 ^ bits - offs)), (u32_small count), (s64_small (lcn r * 2 ^ bits)), (s64_small (lcn r * 2 ^ bits + offs)) by lia.
  replace (if count <? len r * 2 ^ bits - offs then count else len r * 2 ^ bits - offs) with (Z.min count (len r * 2 ^ bits - offs)) by (zcase; lia).
  rewrite addrs_window by lia. cbv zeta. set (n := Z.min count (len r * 2 ^ bits - offs)). assert (0 < n <= count) as Hn by lia.
  rewrite ntfs_pread_spec by (fold c; lia). fold c. rewrite map_app, run_addrs_read by lia. rewrite app_assoc. set (bs := take _ _).
  assert (zlen bs = n) as Lb by (unfold bs, zlen in *; rewrite length_take, length_drop; lia).
  rewrite Lb, Z.eqb_refl, zlen_app, Lb. destruct (Z.ltb_spec (zlen got + n) to_read) as [Hlt|Hge].
  - rewrite IH; [..|done]; rewrite ?zlen_app, ?Lb; try done; try lia.
    + rewrite drop_0. do 4 f_equal. lia.
    + apply (head_ofs_0 vol Hbits (zlen c)). eapply List.Forall_impl; [|exact Hin]. by intros ? [? _].
  - replace (Z.to_nat (count - n)) with 0%nat by lia. by rewrite take_0, app_nil_r.
Qed.

End clusters.


(** ** A set *)

(** What is asked of a set: blocks of whole sub-blocks and clusters, runs that
    are mapped, shorter than 2 GiB, apart from each other and long enough. *)
Record set_ok {D} `{DeviceOps D} (vol : ntfs_volume) (dev : ntfs_device D) (block_size : Z) (runs : runlist) (offs insz : Z) (inbuf : list Z) : Prop := {
  so_bits : 0 <= cluster_size_bits vol <= 31;
  so_blocks : block_size mod NTFS_SB_SIZE = 0;
  so_clusters : block_size mod 2 ^ cluster_size_bits vol = 0;
  so_small : block_size < 2 ^ 31;
  so_insz : 0 < insz <= block_size;
  so_inbuf : insz <= zlen inbuf;
  so_bytes : bytes inbuf;
  so_writable : writable dev;
  so_device : zlen (d_contents (d_private dev)) < 2 ^ 63;
  so_runs : Forall (short_run (cluster_size_bits vol) (zlen (d_contents (d_private dev)))) runs;
  so_offs : head_ofs vol runs offs;
  so_offs0 : 0 <= offs;
  so_room : offs + block_size <= zlen (rl_addrs (cluster_size_bits vol) runs);
  so_nodup : NoDup (rl_addrs (cluster_size_bits vol) runs)
}.

(** What a set that was written holds. *)
Definition set_holds {D} `{DeviceOps D} (vol : ntfs_volume) (dev : ntfs_device D) (runs : runlist) (offs w insz : Z) (inbuf : list Z) : Prop :=
  exists datas bs r,
    map (byte_at (d_contents (d_private dev))) (take (Z.to_nat w) (drop (Z.to_nat offs) (rl_addrs (cluster_size_bits vol) runs))) = bs ++ [0; 0] ++ r /\
    zlen (bs ++ [0; 0] ++ r) = w /\ blocks datas bs /\ insz <= NTFS_SB_SIZE * zlen datas < insz + NTFS_SB_SIZE /\
    concat (map pad_block datas) = set_upto insz inbuf (NTFS_SB_SIZE * zlen datas).

(** The null bytes behind the last sub-block, and the zeroes up to the end of
    its cluster. *)
Lemma finish_set bs rest clsz k block_size m :
  clsz = 2 ^ k -> 0 <= k -> 0 < m -> block_size mod clsz = 0 -> zlen bs + clsz + 2 <= block_size -> zlen (bs ++ rest) = block_size + 2 * m + 2 ->
  let compsz := zlen bs + 2 in let rounded := Z.lor (compsz - 1) (clsz - 1) + 1 in
  exists rest', (outbuf ← aset (bs ++ rest) (zlen bs) 0;
     outbuf ← aset outbuf (zlen bs + 1) 0;
     awrite outbuf compsz (replicate (Z.to_nat (rounded - compsz)) 0)) = Ok ((bs ++ [0; 0] ++ replicate (Z.to_nat (rounded - compsz)) 0) ++ rest') /\
    compsz <= rounded /\ rounded mod clsz = 0 /\ rounded + clsz <= block_size.
Proof.
  intros -> Hk Hm Hmod Hfit Hz compsz rounded. pose proof (Z.pow_pos_nonneg 2 k). pose proof (zlen_nonneg bs).
  assert (rounded = ((compsz - 1) / 2 ^ k + 1) * 2 ^ k) as Er by (by apply round_up).
  assert (compsz <= rounded) as Hle by (pose proof (Z.mod_pos_bound (compsz - 1) (2 ^ k)); pose proof (Z.div_mod (compsz - 1) (2 ^ k)); lia).
  assert (rounded mod 2 ^ k = 0) as Hrm by (rewrite Er; apply Z.mod_mul; lia).
  assert (rounded + 2 ^ k <= block_size) as Hr.
  { rewrite Er. apply Z.div_exact in Hmod; [|lia]. rewrite Hmod in Hfit |- *. assert ((compsz - 1) / 2 ^ k < block_size / 2 ^ k - 1); [|nia].
    apply Z.div_lt_upper_bound; [lia|]. unfold compsz. lia. }
  rewrite zlen_app in Hz. destruct rest as [|a [|b rest]]; [unfold zlen in *; cbn in *; lia..|]. rewrite !zlen_cons in Hz.
  rewrite aset_mid by done. cbn [mbind res_bind]. replace (bs ++ 0 :: b :: rest) with ((bs ++ [0]) ++ b :: rest) by (by rewrite <- app_assoc).
  rewrite aset_mid by (rewrite zlen_app; done). cbn [mbind res_bind]. set (z := replicate _ 0). assert (zlen z = rounded - compsz) as Ez by (unfold z, zlen; rewrite length_replicate; lia).
  exists (drop (length z) rest). split; [|done].
  replace ((bs ++ [0]) ++ 0 :: rest) with ((bs ++ [0; 0]) ++ take (length z) rest ++ drop (length z) rest) by (rewrite take_drop, <- !app_assoc; done).
  rewrite awrite_mid; [by rewrite <- !app_assoc|rewrite zlen_app; done|]. unfold zlen in *. rewrite length_take. unfold compsz in *. lia.
Qed.

Lemma comp_set_spec {D} `{DeviceLaws D} `{Heap} vol (dev : ntfs_device D) block_size runs tail offs insz inbuf :
  set_ok vol dev block_size runs offs insz inbuf ->
  exists dev' w, ntfs_comp_set vol block_size (runs ++ tail) dev offs insz inbuf = Ok (dev', w) /\
    (w = -1 /\ dev' = dev \/
     w = 0 /\ dev' = dev /\ zeroes (take (Z.to_nat insz) inbuf) \/
     0 < w /\ w mod 2 ^ cluster_size_bits vol = 0 /\ w + 2 ^ cluster_size_bits vol <= block_size /\
     zlen (d_contents (d_private dev')) = zlen (d_contents (d_private dev)) /\ set_holds vol dev' runs offs w insz inbuf).
Proof.
  intros [Hb Hbl Hcl Hsm Hins Hin Hby Hw Hdv Hru Ho Ho0 Hroom Hnd]. unfold ntfs_comp_set. rewrite Z.shiftl_mul_pow2, Z.mul_1_l by lia.
  set (k := cluster_size_bits vol) in *. pose proof (Z.pow_pos_nonneg 2 k). unfold NTFS_SB_SIZE in *. set (m := block_size / 4096).
  assert (block_size = 4096 * m) as Em by (unfold m; dlia).
  destruct (heap_grants _); cbn [negb]; [|by exists dev, (-1); auto]. set (junk := map _ _).
  assert (zlen junk = block_size + 2 * m + 2) as Ej by (unfold junk, zlen; rewrite length_map, length_seq; lia).
  assert (set_upto insz inbuf 0 = []) as E0 by (unfold set_upto; by replace (Z.to_nat (0 - insz)) with 0%nat by lia).
  destruct (comp_blocks_spec block_size m (2 ^ k) insz inbuf Hby Em Hins Hin (Z.to_nat insz) 0 [] [] junk true)
    as (out & cs & az & fl & E & Hres); [done|unfold NTFS_SB_SIZE; lia|lia|done|by rewrite E0|done|by left|by rewrite E0; constructor|].
  change ([] ++ junk) with junk in E. change (zlen []) with 0 in E. rewrite E. cbn [mbind res_bind].
  destruct Hres as [->|(-> & datas & bs & rest & -> & -> & Hblk & Hd & Hc & Hz & Hfit & Haz)]; cbn [negb andb]; [by exists dev, (-1); auto|].
  destruct az; cbn [negb].
  { exists dev, 0. split; [done|]. right. left. split; [done|]. split; [done|]. specialize (Haz eq_refl). apply Forall_app in Haz as [Haz _].
    rewrite take_ge in Haz; [done|]. rewrite length_take. unfold NTFS_SB_SIZE in *. lia. }
  destruct (finish_set bs rest (2 ^ k) k block_size m) as (rest' & Ef & Hge & Hrm & Hre); [done|lia|lia|done|done|done|].
  set (z := replicate _ 0) in *. set (rounded := Z.lor _ _ + 1) in *. pose proof (zlen_nonneg bs).
  destruct (aset (bs ++ rest) (zlen bs) 0) as [o1| |]; cbn [mbind res_bind] in Ef |- *; try done.
  destruct (aset o1 (zlen bs + 1) 0) as [o2| |]; cbn [mbind res_bind] in Ef |- *; try done. rewrite Ef. cbn [mbind res_bind].
  assert (zlen (bs ++ [0; 0] ++ z) = rounded) as Ez by (rewrite !zlen_app; change (zlen [0; 0]) with 2; unfold z, zlen; rewrite length_replicate; unfold zlen in *; lia).
  set (buf := bs ++ [0; 0] ++ z) in *. pose proof (zlen_nonneg rest').
  destruct (write_clusters_loop_spec vol Hb tail rounded runs dev offs (buf ++ rest') 0) as (dev' & Ewr & Hw' & Ec); rewrite ?Z.sub_0_r; try done; try lia; [fold k; lia|rewrite zlen_app; lia|].
  unfold write_clusters. rewrite Ewr. cbn [mbind res_bind]. rewrite Z.eqb_refl. cbn [negb]. rewrite Z.sub_0_r in Ec.
  exists dev', rounded. split; [done|]. right. right. split; [lia|]. split; [done|]. split; [lia|]. fold k in Ec. set (win := take (Z.to_nat rounded) _) in *.
  assert (length win = length buf) as Lw by (unfold win, zlen in *; rewrite length_take, length_drop; lia).
  split; [rewrite Ec; unfold zlen; by rewrite write_addrs_length|]. exists datas, bs, z. fold k win buf. rewrite Ec, write_addrs_take, Lw, take_app_length.
  split; [|done]. apply write_addrs_read; [|by apply Forall_take, Forall_drop, addrs_mapped; [lia|]; eapply List.Forall_impl; [|exact Hru]; intros r (? & ? & _)|done].
  eapply sublist_NoDup; [exact Hnd|]. unfold win. etrans; [apply sublist_take|apply sublist_drop].
Qed.

Lemma read_append_spec {D} `{DeviceLaws D} `{Heap} vol (dev dev' : ntfs_device D) block_size runs tail offs insz inbuf w outbuf pos b :
  set_ok vol dev block_size runs offs insz inbuf -> zlen (d_contents (d_private dev')) = zlen (d_contents (d_private dev)) ->
  0 < w < block_size -> set_holds vol dev' runs offs w insz inbuf ->
  zlen outbuf = block_size -> 0 <= pos -> pos + zlen b <= block_size -> heap_grants w = true ->
  exists out, awrite (take (Z.to_nat insz) inbuf ++ replicate (Z.to_nat (block_size - insz)) 0) pos b = Ok out /\
    ntfs_read_append vol block_size (runs ++ tail) dev' offs w pos false outbuf b = Ok (Some out).
Proof.
  intros [Hb Hbl _ Hsm Hins Hin _ _ Hdv Hru Ho Ho0 Hroom _] Hzc Hw (datas & bs & r & Eb & Ez & Hblk & Hd & Hc) Hzo Hp Hpb Hg.
  unfold ntfs_read_append. rewrite (proj2 (Z.eqb_neq w block_size)), Hg by lia. cbn [negb]. unfold read_clusters, NTFS_SB_SIZE in *.
  rewrite (read_clusters_loop_spec vol Hb dev' tail w runs offs []); rewrite ?Hzc, ?zlen_nil, ?Z.sub_0_r; try done; try lia.
  change ([] ++ ?l) with l. rewrite Eb. cbn [mbind res_bind]. rewrite Ez, Z.eqb_refl. rewrite !zlen_app in Ez. change (zlen [0; 0]) with 2 in Ez.
  assert (4096 * zlen datas <= block_size) as Hdb by (assert (block_size = 4096 * (block_size / 4096)) by dlia; lia).
  replace w with (zlen bs + 2 + zlen r) by lia. rewrite (decompress_blocks datas) by (unfold NTFS_SB_SIZE; lia || done).
  rewrite Hc, drop_ge, app_nil_r by (unfold zlen in *; lia). unfold NTFS_SB_SIZE. set (n := 4096 * zlen datas) in *.
  replace (set_upto insz inbuf n ++ replicate (Z.to_nat (block_size - n)) 0)
    with (take (Z.to_nat insz) inbuf ++ replicate (Z.to_nat (block_size - insz)) 0).
  2:{ unfold set_upto. rewrite <- app_assoc, <- replicate_add. rewrite (take_ge (take (Z.to_nat insz) inbuf)) by (rewrite length_take; lia). do 2 f_equal. lia. }
  set (a := take _ _ ++ _). assert (zlen a = block_size) as Ea by (unfold a; rewrite zlen_app; unfold zlen in *; rewrite length_take, length_replicate; lia).
  assert (exists out, awrite a pos b = Ok out) as (out & E) by (unfold awrite; pose proof (zlen_nonneg b); zdec; by eexists).
  exists out. rewrite E. done.
Qed.

(** C26: the decompressor restores what the compressor was given, whatever it is:
    a block of up to 4096 bytes gives a sub-block of 4 to 4098 bytes, and
    decompressing it gives the block back, filled up with zeroes.  The
    compressor stays inside its buffers, an output buffer of 4100 bytes
    included. *)
Theorem compress_block_roundtrip `{Heap} inbuf outbuf dest :
  heap_grants comp_context_size = true -> bytes inbuf -> 0 < zlen inbuf <= NTFS_SB_SIZE -> 4100 <= zlen outbuf -> NTFS_SB_SIZE <= zlen dest ->
  exists sz out, ntfs_compress_block inbuf (zlen inbuf) outbuf = Ok (sz, out) /\ 4 <= sz <= NTFS_SB_SIZE + 2 /\ zlen out = zlen outbuf /\
    ntfs_decompress dest NTFS_SB_SIZE (take (Z.to_nat sz) out ++ [0; 0]) (sz + 2)
    = Ok (inbuf ++ replicate (Z.to_nat (NTFS_SB_SIZE - zlen inbuf)) 0 ++ drop (Z.to_nat NTFS_SB_SIZE) dest).
Proof.
  intros Hg Hb Hl Ho Hd. destruct (compress_block_spec inbuf (zlen inbuf) Hb ltac:(lia) ltac:(lia) outbuf Hg Ho) as (blk & rest & -> & Hs & Hz).
  exists (zlen blk), (blk ++ rest). split; [done|]. split; [by eapply sub_block_zlen|]. split; [done|]. rewrite zlen_to_nat, take_app_length.
  pose proof (decompress_blocks [take (Z.to_nat (zlen inbuf)) inbuf] blk [] dest NTFS_SB_SIZE) as E. change (zlen [_]) with 1 in E. change (zlen []) with 0 in E.
  change ([0; 0] ++ []) with [0; 0] in E. rewrite Z.mul_1_r, Z.add_0_r, Z.sub_diag in E. rewrite E; [|by exists blk, []; rewrite app_nil_r|lia|done]. cbn [map concat].
  rewrite zlen_to_nat, take_ge, app_nil_r by done. cbn [Z.to_nat replicate app]. unfold pad_block. by rewrite <- app_assoc.
Qed.

(** C27: compressing a set and writing it to its clusters leaves the volume as it
    was when the set cannot be compressed or is all zeroes, which is reported
    only when it is; otherwise it takes a whole number of clusters, at least
    one fewer than the set, and reading the set back to overwrite a part of it
    gives what was compressed, with that part overwritten. *)
Theorem comp_set_roundtrip {D} `{DeviceLaws D} `{Heap} vol (dev : ntfs_device D) block_size runs tail offs insz inbuf :
  set_ok vol dev block_size runs offs insz inbuf ->
  exists dev' w, ntfs_comp_set vol block_size (runs ++ tail) dev offs insz inbuf = Ok (dev', w) /\
    (w = -1 /\ dev' = dev \/
     w = 0 /\ dev' = dev /\ Forall (fun x => x = 0) (take (Z.to_nat insz) inbuf) \/
     0 < w /\ w mod 2 ^ cluster_size_bits vol = 0 /\ w + 2 ^ cluster_size_bits vol <= block_size /\
     forall outbuf pos b, zlen outbuf = block_size -> 0 <= pos -> pos + zlen b <= block_size -> heap_grants w = true ->
       exists out, awrite (take (Z.to_nat insz) inbuf ++ replicate (Z.to_nat (block_size - insz)) 0) pos b = Ok out /\
         ntfs_read_append vol block_size (runs ++ tail) dev' offs w pos false outbuf b = Ok (Some out)).
Proof.
  intros Hs. destruct (comp_set_spec vol dev block_size runs tail offs insz inbuf Hs) as (dev' & w & E & Hcase). exists dev', w. split; [done|].
  destruct Hcase as [?|[?|(Hw & Hm & Hf & Hz & Hh)]]; [by left|by right; left|]. right. right. split; [done|]. split; [done|]. split; [done|].
  intros outbuf pos b Ho Hp Hpb Hg. pose proof (Z.pow_pos_nonneg 2 (cluster_size_bits vol)). pose proof (so_bits _ _ _ _ _ _ _ Hs).
  eapply read_append_spec; [done|done|lia|done..].
Qed.

(** a run of 2 GiB overflows the 32-bit byte count of [write_clusters]: nothing
    is written to it, and the set fails. *)
Theorem write_clusters_long_run {D} `{DeviceOps D} vol (dev : ntfs_device D) r tail to_write outbuf :
  0 <= cluster_size_bits vol <= 31 -> len r * 2 ^ cluster_size_bits vol = 2 ^ 31 -> 0 <= to_write < 2 ^ 31 ->
  write_clusters vol (r :: tail) dev 0 to_write outbuf = Ok (dev, 0).
Proof.
  intros Hb Hl Ht. unfold write_clusters. cbn [write_clusters_loop]. rewrite !Z.shiftl_mul_pow2, Hl by lia.
  change (s32 (s32 (2 ^ 31) - 0)) with (- 2 ^ 31). rewrite Z.sub_0_r. rewrite (proj2 (Z.ltb_ge to_write (- 2 ^ 31))) by lia. unfold ntfs_pwrite. cbn [Z.ltb orb].
  change (- 2 ^ 31 <? 0) with true. cbn [orb mbind res_bind]. done.
Qed.

Lemma write_clusters_long_run_witness :
  write_clusters (sample_volume 3 false) (mk_rle 0 100 524288 :: []) (mk_device (mk_mem_dev [] 1) false false false) 0 4096 (replicate (Z.to_nat 4096) 7) =
  Ok (mk_device (mk_mem_dev [] 1) false false false, 0).
Proof. apply write_clusters_long_run; [cbn; lia|reflexivity|lia]. Defined.

(** ** Witnesses: a block of eight clusters of 512 bytes *)

Definition set_volume : ntfs_volume := mk_volume 3 512 9 512 9 1024 10 4096 12 16 16 4 8 4 false false.
Definition set_device : ntfs_device mem_dev := mk_device (mk_mem_dev (replicate (Z.to_nat 8192) 9) 4096) false true false.
Definition set_runs : runlist := [mk_rle 0 2 9].
Definition set_input : list Z := concat (replicate 50 [1; 2; 3; 4; 5; 6; 7]).

Lemma set_addrs_nodup : NoDup (rl_addrs 9 set_runs).
Proof. unfold set_runs. cbn [rl_addrs]. rewrite app_nil_r. apply NoDup_fmap_2_strong; [|apply NoDup_seqZ]. intros x y _ _ E. cbn in E. injection E as E. lia. Qed.

Lemma set_witness_ok : set_ok set_volume set_device 4096 set_runs 3 350 set_input.
Proof.
  assert (zlen (d_contents (d_private set_device)) = 8192) as E by (cbn; unfold zlen; rewrite length_replicate; lia).
  assert (zlen (rl_addrs 9 set_runs) = 4608) as Ea by (unfold set_runs; cbn [rl_addrs]; rewrite app_nil_r, run_addrs_length by (cbn; lia); reflexivity).
  split; rewrite ?E.
  - cbn. lia.
  - reflexivity.
  - reflexivity.
  - lia.
  - lia.
  - compute_decide.
  - compute_decide.
  - split; reflexivity.
  - lia.
  - constructor; [|constructor]. unfold short_run, run_inside. cbn. lia.
  - unfold head_ofs. cbn. lia.
  - lia.
  - change (3 + 4096 <= zlen (rl_addrs 9 set_runs)). lia.
  - apply set_addrs_nodup.
Qed.

Lemma comp_set_roundtrip_witness :
  exists dev' w, @ntfs_comp_set _ _ set_volume ample_heap 4096 (set_runs ++ [mk_rle 9 LCN_ENOENT 0]) set_device 3 350 set_input = Ok (dev', w) /\ w < 4096.
Proof.
  destruct (@comp_set_roundtrip _ _ _ ample_heap set_volume set_device 4096 set_runs [mk_rle 9 LCN_ENOENT 0] 3 350 set_input set_witness_ok) as (dev' & w & E & H).
  exists dev', w. split; [exact E|]. destruct H as [[-> _]|[[-> _]|(_ & _ & H & _)]]; [lia|lia|]. change (2 ^ cluster_size_bits set_volume) with 512 in H. lia.
Defined.

Lemma compress_block_roundtrip_witness :
  exists sz out, @ntfs_compress_block ample_heap set_input 350 (replicate (Z.to_nat 4100) 7) = Ok (sz, out) /\
    ntfs_decompress (replicate (Z.to_nat 4096) 9) NTFS_SB_SIZE (take (Z.to_nat sz) out ++ [0; 0]) (sz + 2) = Ok (set_input ++ replicate (Z.to_nat 3746) 0).
Proof.
  destruct (@compress_block_roundtrip ample_heap set_input (replicate (Z.to_nat 4100) 7) (replicate (Z.to_nat 4096) 9)) as (sz & out & E1 & _ & _ & E2);
    [done|apply (bool_decide_unpack _); vm_compute; exact I|vm_compute; split; congruence|vm_compute; congruence|vm_compute; congruence|].
  exists sz, out. split; [exact E1|]. rewrite E2, drop_ge, app_nil_r by (rewrite length_replicate; done). done.
Defined.
