(* ===== verification/CompressSafe.v ===== *)
(** The decompressor on arbitrary bytes: it always ends, with EOVERFLOW or
    with the destination filled by bytes that only the compression block
    determines, and it stays within one byte of its buffers; that byte is
    needed. *)

From S2P Require Import Prelude Bytes Compress CompressTok.
Import Compress.

Lemma aslice_some (a : list Z) i n : 0 <= i -> 0 <= n -> i + n <= zlen a -> exists bs, aslice a i n = Ok bs /\ zlen bs = n.
Proof.
  intros Hi Hn Hl. unfold aslice. zdec. cbn [orb]. eexists. split; [done|]. unfold zlen in *. rewrite length_take, length_drop. lia.
Qed.

Lemma get_le_some n (a : list Z) p : bytes a -> 0 <= p -> 0 <= n -> p + n <= zlen a -> exists v, get_le n a p = Ok v /\ 0 <= v < 256 ^ n.
Proof.
  intros Hb Hp Hn Hl. destruct (aslice_some a p n Hp Hn Hl) as (bs & E & El). assert (get_le n a p = Ok (le bs)) as Eg by (unfold get_le; by rewrite E).
  exists (le bs). split; [done|]. by eapply get_le_range.
Qed.

(** The destination [out ++ rest] after [new] was written behind [out]. *)
Definition filled (out new rest : list Z) : list Z := (out ++ new) ++ drop (length new) rest.

Lemma filled_nil out rest : filled out [] rest = out ++ rest.
Proof. unfold filled. by rewrite app_nil_r. Qed.

Lemma filled_app out a b rest : filled (out ++ a) b (drop (length a) rest) = filled out (a ++ b) rest.
Proof. unfold filled. by rewrite drop_drop, length_app, (app_assoc out a b). Qed.

Lemma filled_zlen out new rest : zlen new <= zlen rest -> zlen (filled out new rest) = zlen (out ++ rest).
Proof. intros H. unfold filled, zlen in *. rewrite !length_app, length_drop. lia. Qed.

Lemma awrite_filled out new rest : zlen new <= zlen rest -> awrite (out ++ rest) (zlen out) new = Ok (filled out new rest).
Proof.
  intros H. rewrite <- (take_drop (length new) rest) at 1. rewrite awrite_mid; [by unfold filled; rewrite <- app_assoc|done|].
  rewrite length_take. unfold zlen in H. lia.
Qed.

Lemma aset_filled out x rest : 1 <= zlen rest -> aset (out ++ rest) (zlen out) x = Ok (filled out [x] rest).
Proof. intros H. destruct rest as [|y rest]; [done|]. rewrite aset_mid by done. unfold filled. by rewrite <- app_assoc. Qed.

Lemma copy_back_extends n dist : forall out, exists new, zlen new = Z.of_nat n /\ copy_back n dist out = out ++ new.
Proof.
  induction n as [|n IH]; intros out; cbn [copy_back]; [exists []; by rewrite app_nil_r|].
  destruct (IH (out ++ [nth (Z.to_nat (zlen out - dist)) out 0])) as (new & El & ->). eexists (_ :: new). rewrite <- app_assoc. split; [|done].
  rewrite zlen_cons. lia.
Qed.

Lemma copy_phrase_filled out dist len : 1 <= dist <= zlen out -> 3 <= len ->
  exists new, zlen new = len /\ forall rest, len <= zlen rest -> copy_phrase (out ++ rest) (zlen out) (zlen out - dist) len = Ok (filled out new rest).
Proof.
  intros Hd Hl. destruct (copy_back_extends (Z.to_nat len) dist out) as (new & En & E). exists new. split; [lia|]. intros rest Hr.
  pose proof (copy_phrase_spec [] out rest dist len Hd ltac:(lia)) as Hp. rewrite E in Hp. cbn [app] in Hp. change (zlen (@nil Z)) with 0 in Hp. rewrite !Z.add_0_l in Hp.
  rewrite Hp. unfold filled. by replace (length new) with (Z.to_nat len) by (unfold zlen in En; lia).
Qed.

Section safety.
Context (cbuf : list Z) (cb_size dest_size : Z).
Hypothesis Hbytes : bytes cbuf.
Hypothesis Hcb : cb_size + 1 <= zlen cbuf.

(** A step from the destination position behind [out]: whatever the
    destination holds from there on, it fails with EOVERFLOW, or it appends
    the same bytes and comes to the same position of the block; [P] holds of
    that position and of the position in the destination. *)
Definition gives_safe {A} (mk : Z -> list Z -> Z -> A) (out : list Z) (f : list Z -> res A) (P : Z -> Z -> Prop) : Prop :=
  (forall rest, dest_size + 1 <= zlen (out ++ rest) -> f (out ++ rest) = Err EOVERFLOW) \/
  exists cb new, P cb (zlen (out ++ new)) /\
    forall rest, dest_size + 1 <= zlen (out ++ rest) -> f (out ++ rest) = Ok (mk cb (filled out new rest) (zlen (out ++ new))).

(** A step gives both positions and the destination, the decompressor the
    destination only. *)
Definition step_safe : list Z -> (list Z -> res (Z * list Z * Z)) -> (Z -> Z -> Prop) -> Prop := gives_safe (fun cb dest d => (cb, dest, d)).
Definition result_safe (out : list Z) (f : list Z -> res (list Z)) : Prop :=
  gives_safe (fun _ dest _ => dest) out f (fun _ d => dest_size <= d <= dest_size + 1).

Lemma step_stay out cb f (P : Z -> Z -> Prop) : P cb (zlen out) -> (forall dest, f dest = Ok (cb, dest, zlen out)) -> step_safe out f P.
Proof. intros HP Hf. right. exists cb, []. rewrite app_nil_r. split; [done|]. intros rest _. by rewrite filled_nil. Qed.

(** Steps after each other. *)
Lemma step_bind {A} (mk : Z -> list Z -> Z -> A) out f g h (P Q : Z -> Z -> Prop) : step_safe out f P -> (forall cb d, P cb d -> d <= dest_size + 1) ->
  (forall dest, h dest = (r ← f dest; let '(cb, dest, d) := r in g cb dest d)) ->
  (forall cb new, P cb (zlen (out ++ new)) -> gives_safe mk (out ++ new) (fun dest => g cb dest (zlen (out ++ new))) Q) ->
  gives_safe mk out h Q.
Proof.
  intros [Hf|(cb & new & HP & Hf)] HPd Hh Hg.
  { left. intros rest Hr. by rewrite Hh, Hf. }
  pose proof (HPd _ _ HP) as Hd. rewrite zlen_app in Hd.
  assert (forall rest, dest_size + 1 <= zlen (out ++ rest) -> dest_size + 1 <= zlen ((out ++ new) ++ drop (length new) rest)) as Hz.
  { intros rest Hr. pose proof (filled_zlen out new rest) as E. unfold filled in E. rewrite E; [done|]. rewrite zlen_app in Hr. lia. }
  destruct (Hg cb new HP) as [He|(cb2 & new2 & HQ & He)].
  - left. intros rest Hr. rewrite Hh, Hf by done. cbn [mbind res_bind]. unfold filled. by apply He, Hz.
  - right. exists cb2, (new ++ new2). rewrite app_assoc. split; [done|]. intros rest Hr. rewrite Hh, Hf by done. cbn [mbind res_bind].
    unfold filled at 1. rewrite He by (by apply Hz). by rewrite filled_app.
Qed.

Definition token_post (cb sb : Z) : Z -> Z -> Prop := fun cb' d' => cb < cb' <= cb + 2 /\ sb <= d' <= sb + NTFS_SB_SIZE + 1.

Lemma do_token_safe sb tag cb out : 0 <= sb -> sb + NTFS_SB_SIZE <= dest_size ->
  0 <= cb < cb_size -> sb <= zlen out <= sb + NTFS_SB_SIZE -> step_safe out (fun dest => do_token cbuf sb tag cb dest (zlen out)) (token_post cb sb).
Proof.
  intros Hs Hsd Hc Hd. unfold do_token, token_post, NTFS_SB_SIZE in *. destruct (_ =? NTFS_SYMBOL_TOKEN).
  { destruct (aget_total cbuf cb) as [b ->]; [lia|]. right. exists (cb + 1), [b]. rewrite zlen_app. change (zlen [b]) with 1. split; [lia|].
    intros rest Hr. rewrite zlen_app in Hr. cbn [mbind res_bind]. by rewrite aset_filled by lia. }
  destruct (Z.eqb_spec (zlen out) sb); [by left|]. destruct (get_le_some 2 cbuf cb Hbytes) as (pt & -> & Hpt); [lia..|]. cbn [mbind res_bind].
  rewrite u16_small by lia. pose proof (offset_bits_spec (zlen out - sb) ltac:(lia)) as (Ho & _). unfold offset_bits in Ho. set (lg := log_pos 16 (zlen out - sb - 1) 0) in *.
  rewrite length_mask by lia. pose proof (Z.mod_pos_bound pt (2 ^ (12 - lg))). rewrite Z.shiftr_div_pow2 by lia.
  assert (0 <= pt / 2 ^ (12 - lg)) by (apply Z.div_pos; lia).
  destruct (Z.ltb_spec (zlen out - pt / 2 ^ (12 - lg) - 1) sb); [by left|].
  destruct (Z.ltb_spec (sb + 4096) (zlen out + (pt mod 2 ^ (12 - lg) + 3))); [by left|].
  destruct (copy_phrase_filled out (pt / 2 ^ (12 - lg) + 1) (pt mod 2 ^ (12 - lg) + 3)) as (new & En & Hn); [lia..|].
  right. exists (cb + 2), new. rewrite zlen_app, En. split; [lia|]. intros rest Hr. rewrite zlen_app in Hr.
  replace (zlen out - pt / 2 ^ (12 - lg) - 1) with (zlen out - (pt / 2 ^ (12 - lg) + 1)) by lia. rewrite Hn by lia. done.
Qed.

Definition tokens_post (e sb : Z) : Z -> Z -> Prop := fun cb' d' => cb' <= e + 1 /\ sb <= d' <= sb + NTFS_SB_SIZE + 1.

Lemma do_tokens_safe e sb n : forall tag cb out, 0 <= sb -> sb + NTFS_SB_SIZE <= dest_size -> e <= cb_size ->
  0 <= cb <= e + 1 -> sb <= zlen out <= sb + NTFS_SB_SIZE + 1 ->
  step_safe out (fun dest => do_tokens n cbuf e sb tag cb dest (zlen out)) (fun cb' d' => cb <= cb' /\ tokens_post e sb cb' d').
Proof.
  unfold tokens_post. induction n as [|n IH]; intros tag cb out Hs Hsd He Hc Hd; cbn [do_tokens].
  { apply (step_stay out cb); [lia|done]. }
  destruct (Z.leb_spec e cb) as [Hec|Hec]; cbn [orb]; [apply (step_stay out cb); [lia|done]|].
  destruct (Z.ltb_spec (sb + NTFS_SB_SIZE) (zlen out)); [apply (step_stay out cb); [lia|done]|].
  eapply step_bind; [apply (do_token_safe sb tag cb out Hs Hsd); lia| |intros dest; reflexivity|].
  - intros cb' d' [_ Hd']. lia.
  - intros cb' new [Hc' Hd']. cbn beta iota.
    destruct (IH (Z.shiftr tag 1) cb' (out ++ new)) as [E|(cb2 & new2 & HP & E)]; [lia..|by left|right]. exists cb2, new2. split; [lia|done].
Qed.

(** The end of the sub-block [e] is reached with at least its 4096 bytes. *)
Definition tags_post (e sb : Z) : Z -> Z -> Prop := fun cb' d' => cb' = e /\ sb + NTFS_SB_SIZE <= d' <= sb + NTFS_SB_SIZE + 1.

Lemma do_tags_safe e sb fuel : forall cb out, 0 <= sb -> sb + NTFS_SB_SIZE <= dest_size -> e <= cb_size ->
  (Z.to_nat (e - cb) <= fuel)%nat -> 0 <= cb <= e + 1 -> sb <= zlen out <= sb + NTFS_SB_SIZE + 1 ->
  step_safe out (fun dest => do_tags fuel cbuf e sb cb dest (zlen out)) (tags_post e sb).
Proof.
  assert (forall out, 0 <= sb -> sb + NTFS_SB_SIZE <= dest_size -> sb <= zlen out <= sb + NTFS_SB_SIZE + 1 ->
    step_safe out (fun dest => if zlen out <? sb + NTFS_SB_SIZE then
      dest ← awrite dest (zlen out) (replicate (Z.to_nat (sb + NTFS_SB_SIZE - zlen out)) 0); Ok (e, dest, sb + NTFS_SB_SIZE)
      else Ok (e, dest, zlen out)) (tags_post e sb)) as Hend.
  { intros out Hs Hsd Hd. unfold tags_post, NTFS_SB_SIZE in *. destruct (Z.ltb_spec (zlen out) (sb + 4096)); [|apply (step_stay out e); [lia|done]].
    right. exists e, (replicate (Z.to_nat (sb + 4096 - zlen out)) 0).
    assert (zlen (replicate (Z.to_nat (sb + 4096 - zlen out)) 0) = sb + 4096 - zlen out) as El by (unfold zlen at 1; rewrite length_replicate; lia).
    rewrite zlen_app, El. split; [lia|]. intros rest Hr. rewrite zlen_app in Hr. rewrite awrite_filled by lia. cbn [mbind res_bind].
    by replace (zlen out + (sb + 4096 - zlen out)) with (sb + 4096) by lia. }
  induction fuel as [|fuel IH]; intros cb out Hs Hsd He Hf Hc Hd; cbn [do_tags].
  all: destruct (Z.eqb_spec cb e) as [->|Hne]; [by apply Hend|].
  all: destruct (Z.ltb_spec e cb); cbn [orb]; [by left|]; destruct (Z.ltb_spec (sb + NTFS_SB_SIZE) (zlen out)); [by left|]; try lia.
  destruct (aget_total cbuf cb) as [tag ->]; [lia|]. cbn [mbind res_bind].
  eapply step_bind; [apply (do_tokens_safe e sb 8 tag (cb + 1) out); lia| |intros dest; reflexivity|].
  - intros cb' d' (_ & _ & Hd'). lia.
  - intros cb' new (Hc1 & Hc' & Hd'). apply IH; lia.
Qed.

Lemma do_sbs_safe fuel : forall cb out, (Z.to_nat (cb_size - cb) <= fuel)%nat -> 0 <= cb <= cb_size -> zlen out <= dest_size + 1 ->
  result_safe out (fun dest => do_sbs fuel cbuf cb_size dest_size cb dest (zlen out)).
Proof.
  assert (forall (cb : Z) out, zlen out <= dest_size + 1 ->
    result_safe out (fun dest => if zlen out <? dest_size then awrite dest (zlen out) (replicate (Z.to_nat (dest_size - zlen out)) 0) else Ok dest)) as Hend.
  { intros cb out Hd. destruct (Z.ltb_spec (zlen out) dest_size).
    - right. exists cb, (replicate (Z.to_nat (dest_size - zlen out)) 0).
      assert (zlen (replicate (Z.to_nat (dest_size - zlen out)) 0) = dest_size - zlen out) as El by (unfold zlen at 1; rewrite length_replicate; lia).
      rewrite zlen_app, El. split; [lia|]. intros rest Hr. rewrite zlen_app in Hr. by rewrite awrite_filled by lia.
    - right. exists cb, []. rewrite app_nil_r. split; [lia|]. intros rest _. by rewrite filled_nil. }
  induction fuel as [|fuel IH]; intros cb out Hf Hc Hd; cbn [do_sbs].
  all: assert (exists fin, cb_done cbuf cb_size cb (zlen out) dest_size = Ok fin /\ (cb = cb_size -> fin = true)) as (fin & -> & Hfin) by
    (unfold cb_done; destruct (Z.eqb_spec cb cb_size); [by eexists|];
     destruct (get_le_some 2 cbuf cb Hbytes) as (w & -> & _); [lia..|]; cbn [mbind res_bind]; eexists; split; [done|done]); cbn [mbind res_bind].
  all: destruct fin; [by apply (Hend cb)|].
  all: assert (cb <> cb_size) by (intros ->; by specialize (Hfin eq_refl)); try lia.
  destruct (Z.ltb_spec dest_size (zlen out + NTFS_SB_SIZE)); [by left|]. destruct (Z.ltb_spec cb_size (cb + 6)); [by left|].
  destruct (get_le_some 2 cbuf cb Hbytes) as (w & -> & Hw); [lia..|]. cbn [mbind res_bind].
  assert (0 <= Z.land w NTFS_SB_SIZE_MASK < 4096) as Hm by (change NTFS_SB_SIZE_MASK with (Z.ones 12); rewrite Z.land_ones by lia; apply Z.mod_pos_bound; lia).
  set (e := cb + Z.land w NTFS_SB_SIZE_MASK + 3) in *. destruct (Z.ltb_spec cb_size e); [by left|]. pose proof (zlen_nonneg out). unfold NTFS_SB_SIZE in *. destruct (_ =? 0).
  - destruct (Z.eqb_spec (e - (cb + 2)) 4096) as [E|]; cbn [negb]; [|by left].
    destruct (aslice_some cbuf (cb + 2) 4096) as (bs & -> & El); [lia..|]. cbn [mbind res_bind].
    eapply (step_bind _ out (fun dest => dest ← awrite dest (zlen out) bs; Ok (cb + 2 + 4096, dest, zlen out + 4096)) _ _
      (fun cb' d' => cb' = cb + 2 + 4096 /\ d' = zlen out + 4096)).
    + right. exists (cb + 2 + 4096), bs. rewrite zlen_app, El. split; [done|]. intros rest Hr. rewrite zlen_app in Hr. by rewrite awrite_filled by lia.
    + intros cb' d' [_ ->]. lia.
    + intros dest. destruct (awrite dest (zlen out) bs); reflexivity.
    + intros cb' new [-> Hd']. apply IH; lia.
  - eapply step_bind; [apply (do_tags_safe e (zlen out) (Z.to_nat (e - cb)) (cb + 2) out); unfold NTFS_SB_SIZE; lia| |intros dest; reflexivity|].
    + intros cb' d' [_ Hd']. unfold NTFS_SB_SIZE in Hd'. lia.
    + intros cb' new [-> Hd']. unfold NTFS_SB_SIZE in Hd'. apply IH; lia.
Qed.

End safety.

(** C28: whatever bytes a compression block consists of, the decompressor ends:
    it reports EOVERFLOW, or it fills the destination completely.  The bytes
    it writes, [dest_size] of them or one more, are the same on every
    destination, so none of the old contents is left in them; everything
    behind them is unchanged.  It reads no further than one byte behind the
    block and writes no further than one byte behind the destination. *)
Theorem decompress_safe dest_size cbuf cb_size :
  bytes cbuf -> 0 <= cb_size -> cb_size + 1 <= zlen cbuf -> 0 <= dest_size ->
  (forall dest, dest_size + 1 <= zlen dest -> ntfs_decompress dest dest_size cbuf cb_size = Err EOVERFLOW) \/
  exists full, dest_size <= zlen full <= dest_size + 1 /\
    forall dest, dest_size + 1 <= zlen dest -> ntfs_decompress dest dest_size cbuf cb_size = Ok (full ++ drop (length full) dest).
Proof.
  intros Hb Hc Hcz Hd. destruct (do_sbs_safe cbuf cb_size dest_size Hb Hcz (Z.to_nat cb_size) 0 []) as [E|(_ & full & Hl & E)]; [lia|lia|change (zlen (@nil Z)) with 0; lia|by left|].
  right. by exists full.
Qed.

(** A sub-block that goes on, after 4096 bytes, with a literal. *)
Definition long_block : list Z := [4; 176; 2; 0; 252; 15; 7; 0; 0].

Lemma decompress_safe_witness :
  (forall dest, 4097 <= zlen dest -> ntfs_decompress dest 4096 (long_block ++ [1]) 9 = Err EOVERFLOW) \/
  exists full, 4096 <= zlen full <= 4097 /\
    forall dest, 4097 <= zlen dest -> ntfs_decompress dest 4096 (long_block ++ [1]) 9 = Ok (full ++ drop (length full) dest).
Proof. apply (decompress_safe 4096 (long_block ++ [1]) 9); [by repeat constructor|lia|done|lia]. Defined.

(** the byte behind the destination is written: a sub-block whose tokens
    give 4096 bytes and one more makes the decompressor write behind a
    destination of 4096 bytes, and return success. *)
Theorem decompress_write_behind_end :
  ntfs_decompress (replicate 4096 9) 4096 long_block 9 = Undef /\
  exists dest', ntfs_decompress (replicate 4097 9) 4096 long_block 9 = Ok dest' /\ aget dest' 4096 = Ok 7.
Proof. split; [vm_compute; reflexivity|]. eexists. split; [vm_compute; reflexivity|]. vm_compute. reflexivity. Qed.

(** A block that ends within a phrase. *)
Definition cut_block : list Z := [5; 176; 16; 1; 2; 3; 4; 5].

(** the byte behind the block is read, when the block ends in the middle of
    a phrase. *)
Theorem decompress_read_behind_end : ntfs_decompress (replicate 4096 9) 4096 cut_block 8 = Undef.
Proof. vm_compute. reflexivity. Qed.
