(* ===== verification/Fields.v ===== *)
(** Fields at fixed places of a structure that lies within an array: reading,
    writing, and what a write leaves as it was. *)

From S2P Require Import Prelude Bytes.

(** The field of [n] bytes at [k]. *)
Definition fld (n k : nat) (b : list Z) : Z := le (take n (drop k b)).

Lemma fld_at n k pre b post : (k + n <= length b)%nat -> get_le (Z.of_nat n) (pre ++ b ++ post) (zlen pre + Z.of_nat k) = Ok (fld n k b).
Proof.
  intros Hl. rewrite get_le_app by (unfold zlen; lia). unfold get_le, aslice.
  rewrite (proj2 (Z.ltb_ge (Z.of_nat k) 0)), (proj2 (Z.ltb_ge (Z.of_nat n) 0)), (proj2 (Z.ltb_ge (zlen b) (Z.of_nat k + Z.of_nat n))) by (unfold zlen; lia).
  cbn [orb mbind res_bind]. rewrite !Nat2Z.id. done.
Qed.

Lemma fld_range n k b : bytes b -> 0 <= fld n k b < 256 ^ Z.of_nat n.
Proof.
  intros Hb. unfold fld. assert (bytes (take n (drop k b))) as H by (by apply Forall_take, Forall_drop). pose proof (le_range _ H) as Hr.
  pose proof (Z.pow_le_mono_r 256 (zlen (take n (drop k b))) (Z.of_nat n)) as Hm. unfold zlen in Hm at 1. rewrite length_take in Hm. lia.
Qed.

(** The structure with [l] written at [k]. *)
Definition upd (k : nat) (l b : list Z) : list Z := take k b ++ l ++ drop (k + length l) b.

Lemma upd_length k l b : (k + length l <= length b)%nat -> length (upd k l b) = length b.
Proof. intros H. unfold upd. rewrite !length_app, length_take, length_drop. lia. Qed.

Lemma upd_field_zlen k l b : (k + length l <= length b)%nat -> zlen (upd k l b) = zlen b.
Proof. intros H. unfold zlen. by rewrite upd_length. Qed.

Lemma upd_bytes k l b : bytes l -> bytes b -> bytes (upd k l b).
Proof. intros Hl Hb. unfold upd. repeat apply Forall_app_2; [by apply Forall_take|done|by apply Forall_drop]. Qed.

Lemma awrite_at k l pre b post : (k + length l <= length b)%nat ->
  awrite (pre ++ b ++ post) (zlen pre + Z.of_nat k) l = Ok (pre ++ upd k l b ++ post).
Proof.
  intros H. assert (b = take k b ++ take (length l) (drop k b) ++ drop (length l) (drop k b)) as E by (by rewrite !take_drop).
  rewrite E at 1. rewrite <- !app_assoc, (app_assoc pre), awrite_mid.
  - unfold upd. by rewrite drop_drop, <- !app_assoc.
  - rewrite zlen_app. unfold zlen. rewrite length_take. lia.
  - rewrite length_take, length_drop. lia.
Qed.

Lemma put_at n k v pre b post : (k + n <= length b)%nat ->
  put_le n (pre ++ b ++ post) (zlen pre + Z.of_nat k) v = Ok (pre ++ upd k (le_bytes n v) b ++ post).
Proof. intros H. apply awrite_at. by rewrite le_bytes_length. Qed.

Lemma upd_lookup_out k l b i : (k + length l <= length b)%nat -> (i < k \/ k + length l <= i)%nat -> upd k l b !! i = b !! i.
Proof.
  intros Hb [Hi|Hi]; unfold upd.
  - rewrite lookup_app_l by (rewrite length_take; lia). by rewrite lookup_take_lt.
  - rewrite lookup_app_r by (rewrite length_take; lia). rewrite length_take, lookup_app_r by lia. rewrite lookup_drop. f_equal. lia.
Qed.

(** Parts that the write does not touch, and the part written. *)
Lemma seg_upd_other n k k' l b : (k' + length l <= length b)%nat -> (k + n <= k' \/ k' + length l <= k)%nat ->
  take n (drop k (upd k' l b)) = take n (drop k b).
Proof.
  intros Hb Hd. apply list_eq. intros i. destruct (decide (i < n)%nat) as [Hi|Hi].
  - rewrite !lookup_take_lt, !lookup_drop by done. apply upd_lookup_out; [done|lia].
  - by rewrite !lookup_take_ge by lia.
Qed.

Lemma seg_upd_same k l b : (k + length l <= length b)%nat -> take (length l) (drop k (upd k l b)) = l.
Proof.
  intros Hb. unfold upd. rewrite drop_app_ge by (rewrite length_take; lia). rewrite length_take. replace (k - k `min` length b)%nat with 0%nat by lia.
  by rewrite drop_0, take_app_length.
Qed.

Lemma fld_upd_other n k k' l b : (k' + length l <= length b)%nat -> (k + n <= k' \/ k' + length l <= k)%nat -> fld n k (upd k' l b) = fld n k b.
Proof. intros. unfold fld. by rewrite seg_upd_other. Qed.

Lemma fld_upd_same n k v b : (k + n <= length b)%nat -> 0 <= v < 256 ^ Z.of_nat n -> fld n k (upd k (le_bytes n v) b) = v.
Proof.
  intros Hb Hv. unfold fld. pose proof (seg_upd_same k (le_bytes n v) b) as E. rewrite le_bytes_length in E. rewrite E by done. by apply le_le_bytes_small.
Qed.

(** A field of the first bytes. *)
Lemma fld_take n k m b : (k + n <= m)%nat -> fld n k (take m b) = fld n k b.
Proof. intros H. unfold fld. rewrite !take_drop_commute, take_take. by replace ((k + n) `min` m)%nat with (k + n)%nat by lia. Qed.

Lemma fld_app n k b c : (k + n <= length b)%nat -> fld n k (b ++ c) = fld n k b.
Proof. intros H. rewrite <- (fld_take n k (length b) (b ++ c)) by done. by rewrite take_app_length. Qed.

(** ** Sequences of writes *)

(** A write: the place and the bytes. *)
Definition writes (ws : list (nat * list Z)) (b : list Z) : list Z := fold_left (fun b w => upd (fst w) (snd w) b) ws b.

Definition fits (n : nat) (ws : list (nat * list Z)) : Prop := Forall (fun w => fst w + length (snd w) <= n)%nat ws.
Definition apart (n k : nat) (ws : list (nat * list Z)) : Prop := Forall (fun w => k + n <= fst w \/ fst w + length (snd w) <= k)%nat ws.

Lemma writes_app ws1 ws2 b : writes (ws1 ++ ws2) b = writes ws2 (writes ws1 b).
Proof. apply fold_left_app. Qed.

Lemma writes_length ws : forall b, fits (length b) ws -> length (writes ws b) = length b.
Proof.
  induction ws as [|w ws IH]; intros b Hf; [done|]. apply Forall_cons_1 in Hf as [Hw Hf]. cbn [writes fold_left]. fold (writes ws (upd (fst w) (snd w) b)).
  rewrite IH; rewrite upd_length; done.
Qed.

Lemma writes_bytes ws : forall b, Forall (fun w => bytes (snd w)) ws -> bytes b -> bytes (writes ws b).
Proof. induction ws as [|w ws IH]; intros b Hf Hb; [done|]. apply Forall_cons_1 in Hf as [Hw Hf]. apply IH; [done|]. by apply upd_bytes. Qed.

Lemma seg_writes_other n k ws : forall b, fits (length b) ws -> apart n k ws -> take n (drop k (writes ws b)) = take n (drop k b).
Proof.
  induction ws as [|w ws IH]; intros b Hf Ha; [done|]. apply Forall_cons_1 in Hf as [Hw Hf]. apply Forall_cons_1 in Ha as [Haw Ha].
  cbn [writes fold_left]. fold (writes ws (upd (fst w) (snd w) b)). rewrite IH; [by apply seg_upd_other|by rewrite upd_length|done].
Qed.

Lemma seg_writes k l ws1 ws2 b : fits (length b) (ws1 ++ (k, l) :: ws2) -> apart (length l) k ws2 ->
  take (length l) (drop k (writes (ws1 ++ (k, l) :: ws2) b)) = l.
Proof.
  intros Hf Ha. apply Forall_app in Hf as [Hf1 Hf2]. apply Forall_cons_1 in Hf2 as [Hk Hf2]. cbn [fst snd] in Hk.
  pose proof (writes_length ws1 b Hf1) as E1. assert (length (upd k l (writes ws1 b)) = length b) as E2 by (rewrite upd_length; lia).
  rewrite writes_app. cbn [writes fold_left fst snd]. fold (writes ws1 b) (writes ws2 (upd k l (writes ws1 b))).
  rewrite seg_writes_other by (done || by rewrite E2). apply seg_upd_same. lia.
Qed.

(** The value of the field written last at [k]. *)
Lemma fld_writes n k v ws1 ws2 b : fits (length b) (ws1 ++ (k, le_bytes n v) :: ws2) -> apart n k ws2 -> 0 <= v < 256 ^ Z.of_nat n ->
  fld n k (writes (ws1 ++ (k, le_bytes n v) :: ws2) b) = v.
Proof.
  intros Hf Ha Hv. unfold fld. pose proof (seg_writes k (le_bytes n v) ws1 ws2 b Hf) as E. rewrite le_bytes_length in E. rewrite E by done. by apply le_le_bytes_small.
Qed.

Lemma write_step l k ws pre b post : fits (length b) (ws ++ [(k, l)]) ->
  awrite (pre ++ writes ws b ++ post) (zlen pre + Z.of_nat k) l = Ok (pre ++ writes (ws ++ [(k, l)]) b ++ post).
Proof.
  intros [Hf Hw]%Forall_app. apply Forall_cons_1 in Hw as [Hw _]. cbn [fst snd] in Hw. rewrite awrite_at by (rewrite writes_length; done). by rewrite writes_app.
Qed.

Lemma put_step n v k ws pre b post : fits (length b) (ws ++ [(k, le_bytes n v)]) ->
  put_le n (pre ++ writes ws b ++ post) (zlen pre + Z.of_nat k) v = Ok (pre ++ writes (ws ++ [(k, le_bytes n v)]) b ++ post).
Proof. apply write_step. Qed.

(** Proves [Forall] on a list of writes, element by element. *)
Ltac each tac :=
  lazymatch goal with
  | |- Forall _ [] => apply Forall_nil_2
  | |- Forall _ (_ :: _) => apply Forall_cons_2; [tac | each tac]
  end.
