(* ===== verification/AttrDef.v ===== *)
(** The attribute definition table $AttrDef: its check at mount
    (libntfs/volume.c) and the checks of an attribute against it
    (libntfs/attrib.c).  The table is the array of its bytes; a definition is
    the offset of its ATTR_DEF. *)

From S2P Require Import Prelude Bytes Unistr.

Definition AT_UNUSED : Z := 0.
Definition AT_STANDARD_INFORMATION : Z := 0x10.
Definition AT_ATTRIBUTE_LIST : Z := 0x20.
Definition AT_FILE_NAME : Z := 0x30.
Definition AT_VOLUME_NAME : Z := 0x60.
Definition AT_DATA : Z := 0x80.
Definition AT_INDEX_ROOT : Z := 0x90.
Definition AT_INDEX_ALLOCATION : Z := 0xa0.
Definition AT_LOGGED_UTILITY_STREAM : Z := 0x100.
Definition AT_END : Z := 0xffffffff.

Definition ATTR_DEF_RESIDENT : Z := 0x40.
Definition sizeof_ATTR_DEF : Z := 160.

Definition TXF_DATA : list Z := [36; 84; 88; 70; 95; 68; 65; 84; 65; 0].

Definition ad_type (b : list Z) (ad : Z) : res Z := get_le 4 b (ad + 0x80).
Definition ad_flags (b : list Z) (ad : Z) : res Z := get_le 4 b (ad + 0x8c).
Definition ad_min_size (b : list Z) (ad : Z) : res Z := v ← get_le 8 b (ad + 0x90); Ok (s64 v).
Definition ad_max_size (b : list Z) (ad : Z) : res Z := v ← get_le 8 b (ad + 0x98); Ok (s64 v).

(** ** Lookup and checks *)

(** The loop: the definition found, if any. *)
Fixpoint find_in_attrdef (fuel : nat) (b : list Z) (len type ad : Z) : res (option Z) :=
  match fuel with
  | O => Undef
  | S fuel =>
      if ad + sizeof_ATTR_DEF <=? len then
        t ← ad_type b ad;
        if t =? 0 then Ok None else
        if t <? type then find_in_attrdef fuel b len type (ad + sizeof_ATTR_DEF) else
        if t =? type then Ok (Some ad) else Ok None
      else Ok None
  end.

(** [vol->attrdef] may be NULL.  Every step takes a definition of the table. *)
Definition ntfs_attr_find_in_attrdef (attrdef : option (list Z)) (len type : Z) : res Z :=
  match attrdef with
  | None => Err EINVAL
  | Some b =>
      if type =? 0 then Err EINVAL else
      r ← find_in_attrdef (S (length b)) b len type 0;
      match r with Some ad => Ok ad | None => Err ENOENT end
  end.

(** The error is that of [errno]; [Ok tt] is the return value 0. *)
Definition ntfs_attr_size_bounds_check (attrdef : option (list Z)) (len type size : Z) : res unit :=
  if size <? 0 then Err EINVAL else
  if (type =? AT_ATTRIBUTE_LIST) && (0x40000 <? size) then Err ERANGE else
  ad ← ntfs_attr_find_in_attrdef attrdef len type;
  let b := default [] attrdef in
  min_size ← ad_min_size b ad;
  max_size ← ad_max_size b ad;
  let min_size := if type =? AT_VOLUME_NAME then 0 else min_size in
  if (negb (min_size =? 0) && (size <? min_size)) || ((0 <? max_size) && (max_size <? size)) then Err ERANGE else Ok tt.

(** [name] may be NULL. *)
Definition ntfs_attr_can_be_non_resident (attrdef : option (list Z)) (len type : Z) (name : option (list Z)) (name_len : Z)
    (upcase : list Z) (upcase_len : Z) : res unit :=
  txf ← (if negb (type =? AT_LOGGED_UTILITY_STREAM) then Ok false else
         match name with
         | None => Ok false
         | Some n => ntfs_names_are_equal TXF_DATA 9 n name_len CASE_SENSITIVE upcase upcase_len
         end);
  allowed ← (if txf : bool then Ok false else
             ad ← ntfs_attr_find_in_attrdef attrdef len type;
             f ← ad_flags (default [] attrdef) ad;
             Ok (Z.land f ATTR_DEF_RESIDENT =? 0));
  if allowed : bool then Ok tt else Err EPERM.

Definition ntfs_attr_can_be_resident (attrdef : option (list Z)) (type : Z) : res unit :=
  match attrdef with
  | None => Err EINVAL
  | Some _ =>
      if type =? 0 then Err EINVAL else
      if negb (type =? AT_INDEX_ALLOCATION) then Ok tt else Err EPERM
  end.

(** ** The check at mount *)

(** The bytes of an ATTR_DEF: its name is filled up with NULs. *)
Definition attr_def (name : list Z) (type display_rule collation_rule flags min_size max_size : Z) : list Z :=
  concat (map (le_bytes 2) name) ++ replicate (0x80 - 2 * length name) 0 ++
  le_bytes 4 type ++ le_bytes 4 display_rule ++ le_bytes 4 collation_rule ++ le_bytes 4 flags ++ le_bytes 8 min_size ++ le_bytes 8 max_size.

(** The canonical table, definition by definition; the last one is empty. *)
Definition ntfs_attrdef_default : list Z :=
  Eval cbv in concat [
    (* $STANDARD_INFORMATION *)
    attr_def [36; 83; 84; 65; 78; 68; 65; 82; 68; 95; 73; 78; 70; 79; 82; 77; 65; 84; 73; 79; 78] 0x10 0 0 0x40 0x30 0x48;
    (* $ATTRIBUTE_LIST *)
    attr_def [36; 65; 84; 84; 82; 73; 66; 85; 84; 69; 95; 76; 73; 83; 84] 0x20 0 0 0x80 0 (-1);
    (* $FILE_NAME *)
    attr_def [36; 70; 73; 76; 69; 95; 78; 65; 77; 69] 0x30 0 0 0x42 0x44 0x242;
    (* $OBJECT_ID *)
    attr_def [36; 79; 66; 74; 69; 67; 84; 95; 73; 68] 0x40 0 0 0x40 0 0x100;
    (* $SECURITY_DESCRIPTOR *)
    attr_def [36; 83; 69; 67; 85; 82; 73; 84; 89; 95; 68; 69; 83; 67; 82; 73; 80; 84; 79; 82] 0x50 0 0 0x80 0 (-1);
    (* $VOLUME_NAME *)
    attr_def [36; 86; 79; 76; 85; 77; 69; 95; 78; 65; 77; 69] 0x60 0 0 0x40 2 0x100;
    (* $VOLUME_INFORMATION *)
    attr_def [36; 86; 79; 76; 85; 77; 69; 95; 73; 78; 70; 79; 82; 77; 65; 84; 73; 79; 78] 0x70 0 0 0x40 0xc 0xc;
    (* $DATA *)
    attr_def [36; 68; 65; 84; 65] 0x80 0 0 0 0 (-1);
    (* $INDEX_ROOT *)
    attr_def [36; 73; 78; 68; 69; 88; 95; 82; 79; 79; 84] 0x90 0 0 0x40 0 (-1);
    (* $INDEX_ALLOCATION *)
    attr_def [36; 73; 78; 68; 69; 88; 95; 65; 76; 76; 79; 67; 65; 84; 73; 79; 78] 0xa0 0 0 0x80 0 (-1);
    (* $BITMAP *)
    attr_def [36; 66; 73; 84; 77; 65; 80] 0xb0 0 0 0x80 0 (-1);
    (* $REPARSE_POINT *)
    attr_def [36; 82; 69; 80; 65; 82; 83; 69; 95; 80; 79; 73; 78; 84] 0xc0 0 0 0x80 0 0x4000;
    (* $EA_INFORMATION *)
    attr_def [36; 69; 65; 95; 73; 78; 70; 79; 82; 77; 65; 84; 73; 79; 78] 0xd0 0 0 0x40 8 8;
    (* $EA *)
    attr_def [36; 69; 65] 0xe0 0 0 0 0 0x10000;
    (* $LOGGED_UTILITY_STREAM *)
    attr_def [36; 76; 79; 71; 71; 69; 68; 95; 85; 84; 73; 76; 73; 84; 89; 95; 83; 84; 82; 69; 65; 77] 0x100 0 0 0x80 0 0x10000;
    attr_def [] 0 0 0 0 0 0].

(** The loop of [ntfs_attrdef_default_flags]. *)
Fixpoint default_flags (fuel : nat) (type ad : Z) : res Z :=
  match fuel with
  | O => Undef
  | S fuel =>
      if ad + sizeof_ATTR_DEF <=? zlen ntfs_attrdef_default then
        t ← ad_type ntfs_attrdef_default ad;
        if t =? 0 then Ok (u32 (Z.lnot 0)) else
        if t =? type then ad_flags ntfs_attrdef_default ad else
        default_flags fuel type (ad + sizeof_ATTR_DEF)
      else Ok (u32 (Z.lnot 0))
  end.

(** The table has 16 entries. *)
Definition ntfs_attrdef_default_flags (type : Z) : res Z := default_flags 17 type 0.

(** The loop of [ntfs_attrdef_check]. *)
Fixpoint attrdef_loop (fuel : nat) (b : list Z) (len ad prev_type : Z) (have_si have_fn have_data : bool) : res bool :=
  match fuel with
  | O => Undef
  | S fuel =>
      t ← (if ad + sizeof_ATTR_DEF <=? len then ad_type b ad else Ok 0);
      if t =? 0 then Ok (have_si && have_fn && have_data) else
      min_size ← ad_min_size b ad;
      max_size ← ad_max_size b ad;
      def_flags ← ntfs_attrdef_default_flags t;
      if t <=? prev_type then Ok false else
      if min_size <? 0 then Ok false else
      if (0 <=? max_size) && (max_size <? min_size) then Ok false else
      flags ← ad_flags b ad;
      if negb (def_flags =? u32 (Z.lnot 0)) && negb (flags =? def_flags) then Ok false else
      attrdef_loop fuel b len (ad + sizeof_ATTR_DEF) t
        (if t =? AT_STANDARD_INFORMATION then true else have_si)
        (if t =? AT_STANDARD_INFORMATION then have_fn else if t =? AT_FILE_NAME then true else have_fn)
        (if t =? AT_STANDARD_INFORMATION then have_data else if t =? AT_FILE_NAME then have_data else
         if t =? AT_DATA then true else have_data)
  end.

Definition ntfs_attrdef_check (attrdef : option (list Z)) (len : Z) : res bool :=
  match attrdef with
  | None => Ok false
  | Some b => if len <? sizeof_ATTR_DEF then Ok false else attrdef_loop (S (length b)) b len 0 0 false false false
  end.

(** What [ntfs_attrdef_repair] leaves in core once $DATA is open and memory is
    there. *)
Definition repaired_attrdef : option (list Z) * Z := (Some ntfs_attrdef_default, zlen ntfs_attrdef_default).

Example attrdef_default_accepted : ntfs_attrdef_check (fst repaired_attrdef) (snd repaired_attrdef) = Ok true.
Proof. vm_compute. reflexivity. Qed.

