(* ===== verification/AttrDefThm.v ===== *)
(** A table that passes the check at mount drives the lookup, the bounds check
    and the residency check: they answer what the list of its definitions says. *)

From Stdlib Require Import Sorting.Sorted.
From S2P Require Import Prelude Bytes Fields Unistr AttrDef.

(** * Specification *)

Record def_entry := mk_def { de_type : Z; de_flags : Z; de_min : Z; de_max : Z }.

Definition entry_of (b : list Z) : def_entry :=
  {| de_type := fld 4 128 b; de_flags := fld 4 140 b; de_min := s64 (fld 8 144 b); de_max := s64 (fld 8 152 b) |}.

(** The definitions: up to the first of type 0, or as many as there is room for. *)
Fixpoint entries (n : nat) (b : list Z) : list def_entry :=
  match n with
  | O => []
  | S n => if de_type (entry_of b) =? 0 then [] else entry_of b :: entries n (drop 160 b)
  end.

Definition defs (b : list Z) (len : Z) : list def_entry := entries (Z.to_nat (len / 160)) b.

(** The flags that the canonical table has for a type. *)
Definition canonical_flags (type : Z) : option Z :=
  de_flags <$> find (fun e => de_type e =? type) (defs ntfs_attrdef_default 2560).

Definition entry_sane (e : def_entry) : Prop :=
  0 <= de_min e /\ (de_max e < 0 \/ de_min e <= de_max e) /\ (forall f, canonical_flags (de_type e) = Some f -> de_flags e = f).

(** What the rest of the code relies on. *)
Record usable (es : list def_entry) : Prop := {
  us_sorted : StronglySorted (fun x y => de_type x < de_type y) es;
  us_sane : Forall entry_sane es;
  us_std : exists e, e ∈ es /\ de_type e = AT_STANDARD_INFORMATION;
  us_fn : exists e, e ∈ es /\ de_type e = AT_FILE_NAME;
  us_data : exists e, e ∈ es /\ de_type e = AT_DATA
}.

(** The sizes that a definition allows. *)
Definition size_allowed (type size : Z) (e : def_entry) : Prop :=
  (type = AT_VOLUME_NAME \/ de_min e <= size) /\ (de_max e <= 0 \/ size <= de_max e) /\ (type = AT_ATTRIBUTE_LIST -> size <= 0x40000).

(** * The loops on the list of definitions *)

(** The search of the sorted list, from offset [o]. *)
Fixpoint search (type o : Z) (es : list def_entry) : option Z :=
  match es with
  | [] => None
  | e :: es => if de_type e <? type then search type (o + 160) es else if de_type e =? type then Some o else None
  end.

Definition sane_b (e : def_entry) : bool :=
  negb (de_min e <? 0) && negb ((0 <=? de_max e) && (de_max e <? de_min e)) &&
  match canonical_flags (de_type e) with Some f => de_flags e =? f | None => true end.

Fixpoint chk (prev : Z) (si fn data : bool) (es : list def_entry) : bool :=
  match es with
  | [] => si && fn && data
  | e :: es => negb (de_type e <=? prev) && sane_b e &&
      chk (de_type e) (si || (de_type e =? AT_STANDARD_INFORMATION)) (fn || (de_type e =? AT_FILE_NAME)) (data || (de_type e =? AT_DATA)) es
  end.

Section table.
Context (b : list Z) (len : Z) (Hlen : len <= zlen b).

Definition ent (k : nat) : def_entry := entry_of (drop (160 * k) b).

Lemma field_in n f k : (160 * k + 160 <= length b)%nat -> (f + n <= 160)%nat ->
  get_le (Z.of_nat n) b (160 * Z.of_nat k + Z.of_nat f) = Ok (fld n f (drop (160 * k) b)).
Proof.
  intros Hk Hf. pose proof (fld_at n f (take (160 * k) b) (drop (160 * k) b) []) as E. rewrite app_nil_r, take_drop in E.
  rewrite <- E by (rewrite length_drop; lia). f_equal. unfold zlen. rewrite length_take. lia.
Qed.

Section entry.
Context (k : nat) (Hk : (160 * k + 160 <= length b)%nat).
Lemma ad_type_at : ad_type b (160 * Z.of_nat k) = Ok (de_type (ent k)).
Proof. apply (field_in 4 128); [done|lia]. Qed.
Lemma ad_flags_at : ad_flags b (160 * Z.of_nat k) = Ok (de_flags (ent k)).
Proof. apply (field_in 4 140); [done|lia]. Qed.
Lemma ad_min_at : ad_min_size b (160 * Z.of_nat k) = Ok (de_min (ent k)).
Proof. unfold ad_min_size. pose proof (field_in 8 144 k Hk ltac:(lia)) as E. change (Z.of_nat 144) with 0x90 in E. change (Z.of_nat 8) with 8 in E. by rewrite E. Qed.
Lemma ad_max_at : ad_max_size b (160 * Z.of_nat k) = Ok (de_max (ent k)).
Proof. unfold ad_max_size. pose proof (field_in 8 152 k Hk ltac:(lia)) as E. change (Z.of_nat 152) with 0x98 in E. change (Z.of_nat 8) with 8 in E. by rewrite E. Qed.
End entry.

Lemma entries_S n k : entries (S n) (drop (160 * k) b) = if de_type (ent k) =? 0 then [] else ent k :: entries n (drop (160 * S k) b).
Proof. cbn [entries]. rewrite drop_drop. by replace (160 * k + 160)%nat with (160 * S k)%nat by lia. Qed.

Lemma next_ad k : 160 * Z.of_nat k + sizeof_ATTR_DEF = 160 * Z.of_nat (S k).
Proof. unfold sizeof_ATTR_DEF. lia. Qed.

(** Is there a definition at [160 * k], [n] being left? *)
Lemma room_end k : Z.to_nat (len / 160) = k -> (160 * Z.of_nat k + sizeof_ATTR_DEF <=? len) = false.
Proof. intros E. unfold sizeof_ATTR_DEF. apply Z.leb_gt. dlia. Qed.
Lemma room_more k n : Z.to_nat (len / 160) = (k + S n)%nat -> (160 * Z.of_nat k + sizeof_ATTR_DEF <=? len) = true /\ (160 * k + 160 <= length b)%nat.
Proof. intros E. unfold sizeof_ATTR_DEF, zlen in *. assert (160 * Z.of_nat k + 160 <= len) by dlia. split; [by apply Z.leb_le|lia]. Qed.

Lemma find_loop_attrdef type n : forall k fuel, Z.to_nat (len / 160) = (k + n)%nat -> (n < fuel)%nat ->
  find_in_attrdef fuel b len type (160 * Z.of_nat k) = Ok (search type (160 * Z.of_nat k) (entries n (drop (160 * k) b))).
Proof.
  induction n as [|n IH]; intros k [|fuel] E Hf; try lia; cbn [find_in_attrdef].
  - rewrite room_end by lia. done.
  - destruct (room_more k n E) as [-> Hk]. rewrite ad_type_at by done. cbn [mbind res_bind]. rewrite entries_S.
    destruct (de_type (ent k) =? 0); [done|]. cbn [search]. rewrite next_ad. replace (160 * Z.of_nat k + 160) with (160 * Z.of_nat (S k)) by lia.
    destruct (de_type (ent k) <? type); [apply IH; lia|]. by destruct (_ =? type).
Qed.

Lemma find_defs type : type <> 0 ->
  ntfs_attr_find_in_attrdef (Some b) len type = match search type 0 (defs b len) with Some ad => Ok ad | None => Err ENOENT end.
Proof.
  intros Hz. unfold ntfs_attr_find_in_attrdef. rewrite (proj2 (Z.eqb_neq type 0)) by done.
  assert (Z.to_nat (len / 160) < S (length b))%nat by (unfold zlen in Hlen; dlia).
  pose proof (find_loop_attrdef type (Z.to_nat (len / 160)) 0 (S (length b))) as E. change (160 * Z.of_nat 0) with 0 in E. rewrite E by done. done.
Qed.

End table.

(** ** The canonical flags *)

Lemma default_len : zlen ntfs_attrdef_default = 2560.
Proof. vm_compute. reflexivity. Qed.

Definition no_flags : Z := u32 (Z.lnot 0).

Lemma default_flags_loop type n : forall k fuel, 16%nat = (k + n)%nat -> (n < fuel)%nat ->
  default_flags fuel type (160 * Z.of_nat k)
  = Ok (default no_flags (de_flags <$> find (fun e => de_type e =? type) (entries n (drop (160 * k) ntfs_attrdef_default)))).
Proof.
  induction n as [|n IH]; intros k [|fuel] E Hf; try lia; cbn [default_flags]; rewrite default_len.
  - rewrite (room_end 2560) by (change (Z.to_nat (2560 / 160)) with 16%nat; lia). done.
  - destruct (room_more ntfs_attrdef_default 2560 ltac:(by rewrite default_len) k n) as [-> Hk]; [rewrite <- E; reflexivity|].
    rewrite ad_type_at by done. cbn [mbind res_bind]. rewrite entries_S.
    destruct (de_type (ent _ k) =? 0); [done|]. cbn [find]. destruct (_ =? type); [by rewrite ad_flags_at|].
    rewrite next_ad. apply IH; lia.
Qed.

Lemma default_flags_spec type : ntfs_attrdef_default_flags type = Ok (default no_flags (canonical_flags type)).
Proof. apply (default_flags_loop type 16 0 17); lia. Qed.

Lemma canonical_flags_range type f : canonical_flags type = Some f -> f <> no_flags.
Proof.
  unfold canonical_flags. destruct (find _ _) as [e|] eqn:E; [|done]. intros [= <-]. apply find_some in E as [E _].
  assert (forallb (fun e => negb (de_flags e =? no_flags)) (defs ntfs_attrdef_default 2560) = true) as H by (vm_compute; reflexivity).
  rewrite forallb_forall in H. specialize (H e E). cbn beta in H. apply negb_true_iff, Z.eqb_neq in H. done.
Qed.

Lemma flags_test e : negb (default no_flags (canonical_flags (de_type e)) =? no_flags) && negb (de_flags e =? default no_flags (canonical_flags (de_type e)))
  = negb (match canonical_flags (de_type e) with Some f => de_flags e =? f | None => true end).
Proof.
  destruct (canonical_flags _) as [f|] eqn:E; cbn [default from_option id]; [|by rewrite Z.eqb_refl].
  by rewrite (proj2 (Z.eqb_neq f no_flags)) by by eapply canonical_flags_range.
Qed.

(** ** The check *)

Lemma seen_flag t (si fn data : bool) :
  (if t =? AT_STANDARD_INFORMATION then true else si) = si || (t =? AT_STANDARD_INFORMATION) /\
  (if t =? AT_STANDARD_INFORMATION then fn else if t =? AT_FILE_NAME then true else fn) = fn || (t =? AT_FILE_NAME) /\
  (if t =? AT_STANDARD_INFORMATION then data else if t =? AT_FILE_NAME then data else if t =? AT_DATA then true else data) = data || (t =? AT_DATA).
Proof.
  destruct (Z.eqb_spec t AT_STANDARD_INFORMATION) as [->|]; [by rewrite orb_true_r, !orb_false_r|].
  destruct (Z.eqb_spec t AT_FILE_NAME) as [->|]; [by rewrite orb_true_r, !orb_false_r|].
  destruct (t =? AT_DATA); by rewrite ?orb_true_r, ?orb_false_r.
Qed.

Lemma check_loop b len n : len <= zlen b -> forall k fuel prev si fn data, Z.to_nat (len / 160) = (k + n)%nat -> (n < fuel)%nat ->
  attrdef_loop fuel b len (160 * Z.of_nat k) prev si fn data = Ok (chk prev si fn data (entries n (drop (160 * k) b))).
Proof.
  intros Hlen. induction n as [|n IH]; intros k [|fuel] prev si fn data E Hf; try lia; cbn [attrdef_loop].
  - rewrite (room_end len) by lia. done.
  - destruct (room_more b len Hlen k n E) as [-> Hk]. rewrite ad_type_at, ad_min_at, ad_max_at, ad_flags_at by done. cbn [mbind res_bind].
    rewrite default_flags_spec. cbn [mbind res_bind]. rewrite entries_S. destruct (de_type (ent b k) =? 0); [done|]. cbn [chk]. unfold sane_b.
    destruct (_ <=? prev); [done|]. destruct (de_min _ <? 0); [done|]. destruct (_ && _); [done|].
    change (u32 (Z.lnot 0)) with no_flags. rewrite flags_test. destruct (match canonical_flags _ with Some _ => _ | None => _ end); [|done]. cbn [negb andb].
    rewrite next_ad, IH by lia. destruct (seen_flag (de_type (ent b k)) si fn data) as (-> & -> & ->). done.
Qed.

Definition has (t : Z) (es : list def_entry) : Prop := exists e, e ∈ es /\ de_type e = t.

Lemma has_cons t e es (seen : bool) : (seen || (de_type e =? t) = true \/ has t es) <-> (seen = true \/ has t (e :: es)).
Proof.
  rewrite orb_true_iff, Z.eqb_eq. unfold has. split.
  - intros [[?|?]|(x & ? & ?)]; [by left|right; exists e; split; [left|done]|right; exists x; split; [by right|done]].
  - intros [?|(x & [->|?]%elem_of_cons & ?)]; [by left; left|by left; right|right; by exists x].
Qed.

Lemma sane_spec e : sane_b e = true <-> entry_sane e.
Proof.
  unfold sane_b, entry_sane. rewrite !andb_true_iff, !negb_true_iff, Z.ltb_ge, andb_false_iff, Z.leb_gt, Z.ltb_ge.
  destruct (canonical_flags _) as [f|]; [rewrite Z.eqb_eq|]; (split; [intros [[? ?] ?]; split_and!; [done|lia|by intros ? [= <-] || done]|intros (? & ? & Hf); split_and!; [done|lia|by try apply Hf]]).
Qed.

Lemma chk_spec es : forall prev si fn data, chk prev si fn data es = true <->
  Forall (fun e => prev < de_type e) es /\ StronglySorted (fun x y => de_type x < de_type y) es /\ Forall entry_sane es /\
  (si = true \/ has AT_STANDARD_INFORMATION es) /\ (fn = true \/ has AT_FILE_NAME es) /\ (data = true \/ has AT_DATA es).
Proof.
  induction es as [|e es IH]; intros prev si fn data; cbn [chk].
  - rewrite !andb_true_iff. split; [intros [[-> ->] ->]; repeat split; try constructor; done|].
    assert (forall t, ~ has t []) as Hn by (intros t (x & H & _); by apply elem_of_nil in H).
    intros (_ & _ & _ & [->|H1] & [->|H2] & [->|H3]); try (by destruct (Hn _ H1)); try (by destruct (Hn _ H2)); try (by destruct (Hn _ H3)). done.
  - rewrite !andb_true_iff, negb_true_iff, Z.leb_gt, sane_spec, IH, !has_cons. split.
    + intros [[Hp Hs] (Hf & Hss & Hsa & H)]. repeat split; try apply H; constructor; try done. eapply List.Forall_impl; [|exact Hf]. cbn beta. intros; lia.
    + intros (Hf & Hss & Hsa & H). apply Forall_cons_1 in Hf as [? ?]. apply StronglySorted_inv in Hss as [? ?]. apply Forall_cons_1 in Hsa as [? ?]. done.
Qed.

Lemma entries_types n b : bytes b -> Forall (fun e => 0 < de_type e) (entries n b).
Proof.
  revert b. induction n as [|n IH]; intros b Hb; cbn [entries]; [constructor|]. destruct (Z.eqb_spec (de_type (entry_of b)) 0); constructor.
  - pose proof (fld_range 4 128 b Hb). cbn [de_type entry_of] in *. lia.
  - by apply IH, Forall_drop.
Qed.

Lemma usable_spec b len : bytes b -> len <= zlen b -> exists ok, ntfs_attrdef_check (Some b) len = Ok ok /\ (ok = true <-> usable (defs b len)).
Proof.
  intros Hb Hlen. unfold ntfs_attrdef_check, sizeof_ATTR_DEF. destruct (Z.ltb_spec len 160) as [Hs|Hs].
  { exists false. split; [done|]. split; [done|]. intros [_ _ (e & He & _)]. unfold defs in He. replace (Z.to_nat (len / 160)) with 0%nat in He by dlia.
    by apply elem_of_nil in He. }
  pose proof (check_loop b len (Z.to_nat (len / 160)) Hlen 0 (S (length b)) 0 false false false eq_refl) as E. change (160 * Z.of_nat 0) with 0 in E.
  rewrite E by (unfold zlen in Hlen; dlia). eexists. split; [done|]. rewrite chk_spec. change (entries _ (drop _ b)) with (defs b len).
  pose proof (entries_types (Z.to_nat (len / 160)) b Hb) as Ht. fold (defs b len) in Ht. split.
  - intros (_ & ? & ? & ? & ? & ?). split; try done; by destruct_or?.
  - intros []. split_and!; try done; by right.
Qed.

(** ** The lookup in a sorted table *)

Lemma search_found type es : forall o i e, StronglySorted (fun x y => de_type x < de_type y) es -> es !! i = Some e -> de_type e = type ->
  search type o es = Some (o + 160 * Z.of_nat i).
Proof.
  induction es as [|x es IH]; intros o i e Hs Hi He; [done|]. apply StronglySorted_inv in Hs as [Hs Hx]. cbn [search]. destruct i as [|i].
  - injection Hi as ->. rewrite (proj2 (Z.ltb_ge _ _)), (proj2 (Z.eqb_eq _ _)) by lia. f_equal. lia.
  - cbn in Hi. pose proof (Forall_lookup_1 _ _ _ _ Hx Hi) as Hlt. cbn beta in Hlt. rewrite (proj2 (Z.ltb_lt _ _)) by lia. rewrite (IH _ i e) by done. f_equal. lia.
Qed.

Lemma search_absent type es : forall o, (forall e, e ∈ es -> de_type e <> type) -> search type o es = None.
Proof.
  induction es as [|x es IH]; intros o Ha; [done|]. cbn [search]. destruct (_ <? _); [apply IH; intros e He; apply Ha; by right|].
  rewrite (proj2 (Z.eqb_neq _ _)); [done|]. apply Ha. left.
Qed.

Lemma entries_lookup b n : forall k i e, entries n (drop (160 * k) b) !! i = Some e -> e = ent b (k + i) /\ (i < n)%nat.
Proof.
  induction n as [|n IH]; intros k i e; [done|]. rewrite entries_S. destruct (_ =? 0); [done|]. destruct i as [|i].
  - intros [= <-]. split; [f_equal; lia|lia].
  - rewrite lookup_cons_ne_0 by done. cbn [pred]. intros [-> Hi]%IH. split; [f_equal; lia|lia].
Qed.

(** ** The checks of an attribute *)

Section checks.
Context (b : list Z) (len : Z) (Hlen : len <= zlen b) (Hu : usable (defs b len)).

Lemma find_def type i e : type <> 0 -> defs b len !! i = Some e -> de_type e = type ->
  ntfs_attr_find_in_attrdef (Some b) len type = Ok (160 * Z.of_nat i) /\ e = ent b i /\ (160 * i + 160 <= length b)%nat.
Proof.
  intros Hz Hi He. rewrite find_defs by done. rewrite (search_found type _ 0 i e) by (done || apply Hu). split; [done|].
  apply (entries_lookup b _ 0) in Hi as [-> Hi]. split; [done|]. unfold zlen in Hlen. dlia.
Qed.

Lemma bounds_spec type size i e : type <> 0 -> 0 <= size -> defs b len !! i = Some e -> de_type e = type ->
  exists r, ntfs_attr_size_bounds_check (Some b) len type size = r /\ (r = Ok tt \/ r = Err ERANGE) /\ (r = Ok tt <-> size_allowed type size e).
Proof.
  intros Hz Hs Hi He. pose proof (Forall_lookup_1 _ _ _ _ (us_sane _ Hu) Hi) as (Hmin & _). destruct (find_def type i e Hz Hi He) as (Ef & -> & Hk).
  eexists. split; [done|]. unfold ntfs_attr_size_bounds_check, size_allowed. rewrite (proj2 (Z.ltb_ge size 0)) by lia.
  destruct (Z.eqb_spec type AT_ATTRIBUTE_LIST) as [Hal|Hal]; cbn [andb].
  1: destruct (Z.ltb_spec 0x40000 size); [split; [by right|]; split; [done|lia]|].
  all: rewrite Ef; cbn [mbind res_bind default from_option id]; rewrite ad_min_at, ad_max_at by done; cbn [mbind res_bind].
  all: destruct (Z.eqb_spec type AT_VOLUME_NAME) as [Hv|Hv]; cbn [negb andb orb Z.eqb].
  all: destruct (Z.ltb_spec 0 (de_max (ent b i))), (Z.ltb_spec (de_max (ent b i)) size); cbn [andb orb].
  all: try destruct (Z.eqb_spec (de_min (ent b i)) 0), (Z.ltb_spec size (de_min (ent b i))); cbn [andb orb negb].
  all: (split; [by (left + right)|]); (split; [intros Hr; try done; clear Hr; lia|]); intros Hr; try done; exfalso; lia.
Qed.

Lemma residency_spec type i e upcase upcase_len : type <> 0 -> defs b len !! i = Some e -> de_type e = type ->
  ntfs_attr_can_be_non_resident (Some b) len type None 0 upcase upcase_len = (if Z.land (de_flags e) ATTR_DEF_RESIDENT =? 0 then Ok tt else Err EPERM).
Proof.
  intros Hz Hi He. destruct (find_def type i e Hz Hi He) as (Ef & -> & Hk). unfold ntfs_attr_can_be_non_resident.
  assert ((if negb (type =? AT_LOGGED_UTILITY_STREAM) then Ok false else Ok false) = Ok false) as -> by (by destruct (negb _)).
  cbn [mbind res_bind]. rewrite Ef. cbn [mbind res_bind default from_option id]. by rewrite ad_flags_at.
Qed.

End checks.

(** [ntfs_attrdef_check] always answers on a table that is in memory, and it accepts the table exactly when
    its definitions are strictly sorted by type, have sane bounds and the canonical flags, and include the three
    fundamental types.  On an accepted table, for every type: [ntfs_attr_find_in_attrdef] returns the offset of
    its definition, or ENOENT exactly when there is none; [ntfs_attr_size_bounds_check] accepts exactly the
    allowed sizes and answers ERANGE otherwise; [ntfs_attr_can_be_non_resident] follows the residency flag. *)
Theorem attrdef_check_correct b len : bytes b -> len <= zlen b ->
  exists ok, ntfs_attrdef_check (Some b) len = Ok ok /\ (ok = true <-> usable (defs b len)) /\
  (ok = true -> forall type, type <> 0 ->
    ((forall e, e ∈ defs b len -> de_type e <> type) <-> ntfs_attr_find_in_attrdef (Some b) len type = Err ENOENT) /\
    (forall i e, defs b len !! i = Some e -> de_type e = type ->
       ntfs_attr_find_in_attrdef (Some b) len type = Ok (160 * Z.of_nat i) /\
       (forall size, 0 <= size -> exists r, ntfs_attr_size_bounds_check (Some b) len type size = r /\
          (r = Ok tt \/ r = Err ERANGE) /\ (r = Ok tt <-> size_allowed type size e)) /\
       (forall upcase n, ntfs_attr_can_be_non_resident (Some b) len type None 0 upcase n
          = if Z.land (de_flags e) ATTR_DEF_RESIDENT =? 0 then Ok tt else Err EPERM))).
Proof.
  intros Hb Hlen. destruct (usable_spec b len Hb Hlen) as (ok & E & Hok). exists ok. split; [done|]. split; [done|]. intros Ho type Hz. apply Hok in Ho. split; [split|].
  - intros Ha. rewrite find_defs by done. by rewrite search_absent.
  - intros Hf e [i Hi]%list_elem_of_lookup He. destruct (find_def b len Hlen Ho type i e) as [Ef _]; [done..|]. by rewrite Ef in Hf.
  - intros i e Hi He. split; [by apply (find_def b len Hlen Ho type i e)|]. split; [intros size Hs; by apply (bounds_spec b len Hlen Ho type size i e)|].
    intros upcase n. by apply (residency_spec b len Hlen Ho type i e).
Qed.

(** The default table: accepted, and $DATA may have any size. *)
Lemma attrdef_check_correct_witness : ntfs_attrdef_check (Some ntfs_attrdef_default) 2560 = Ok true /\
  (exists r, ntfs_attr_size_bounds_check (Some ntfs_attrdef_default) 2560 AT_DATA 5 = r /\ (r = Ok tt \/ r = Err ERANGE) /\
     (r = Ok tt <-> size_allowed AT_DATA 5 (mk_def 0x80 0 0 (-1)))).
Proof.
  destruct (attrdef_check_correct ntfs_attrdef_default 2560) as (ok & E & _ & H); [compute_decide|compute_decide|].
  assert (ok = true) as -> by (vm_compute in E; by injection E).
  split; [done|]. destruct (H eq_refl AT_DATA) as [_ Hd]; [done|]. destruct (Hd 7%nat (mk_def 0x80 0 0 (-1))) as (_ & Hs & _); [by vm_compute|done|]. by apply Hs.
Defined.
