(* ===== verification/AttrRec.v ===== *)
(** Attributes in an mft record (libntfs/attrib.c): the search for an
    attribute, making room, resizing, adding and removing.  A record is the
    array of its bytes; an attribute is the offset of its ATTR_RECORD. *)

From S2P Require Import Prelude Bytes Unistr Collate IndexNode AttrDef.

Definition RESIDENT_ATTR_IS_INDEXED : Z := 1.
Definition ATTR_IS_COMPRESSED : Z := 1.
Definition ATTR_IS_SPARSE : Z := 0x8000.
Definition STANDARD_COMPRESSION_UNIT : Z := 4.
Definition STATUS_RESIDENT_ATTRIBUTE_FILLED_MFT : Z := -2.

(** [offsetof(ATTR_RECORD, resident_end)], [offsetof(ATTR_RECORD, compressed_size)] *)
Definition resident_end : Z := 24.
Definition compressed_size_ofs : Z := 64.

(** ** Fields of MFT_RECORD *)

Definition m_attrs_offset (m : list Z) : res Z := get_le 2 m 20.
Definition m_bytes_in_use (m : list Z) : res Z := get_le 4 m 24.
Definition m_bytes_allocated (m : list Z) : res Z := get_le 4 m 28.
Definition m_next_attr_instance (m : list Z) : res Z := get_le 2 m 40.

(** ** Fields of ATTR_RECORD *)

Definition a_type (m : list Z) (a : Z) : res Z := get_le 4 m a.
Definition a_length (m : list Z) (a : Z) : res Z := get_le 4 m (a + 4).
Definition a_non_resident (m : list Z) (a : Z) : res Z := get_le 1 m (a + 8).
Definition a_name_length (m : list Z) (a : Z) : res Z := get_le 1 m (a + 9).
Definition a_name_offset (m : list Z) (a : Z) : res Z := get_le 2 m (a + 10).
Definition a_value_length (m : list Z) (a : Z) : res Z := get_le 4 m (a + 16).
Definition a_value_offset (m : list Z) (a : Z) : res Z := get_le 2 m (a + 20).

(** ** The search *)

(** The name to find: NULL, [AT_UNNAMED], or a name. *)
Inductive attr_name := AnyName | AtUnnamed | Name (s : list Z).

(** The parts of [ntfs_attr_search_ctx] that are about one record. *)
Record search_ctx := mk_ctx { ctx_attr : Z; is_first : bool }.

Section find.
Context (memcmp : list Z -> list Z -> Z) (upcase : list Z) (upcase_len : Z).

(** What a comparison decides: go on, found, or the search is over. *)
Inductive verdict := Continue | Match | Over (e : errno).

(** The test of the name. *)
Definition check_name (m : list Z) (name : attr_name) (name_len : Z) (ic : IGNORE_CASE_BOOL) (a : Z) : res verdict :=
  nl ← a_name_length m a;
  match name with
  | AtUnnamed => Ok (if nl =? 0 then Match else Over ENOENT)
  | _ =>
      bad ← (if nl =? 0 then Ok false else
             o ← a_name_offset m a;
             l ← a_length m a;
             Ok (l <? o + nl * 2));
      if bad : bool then Ok (Over EIO) else
      match name with
      | Name s =>
          o ← a_name_offset m a;
          rc ← ntfs_names_full_collate s name_len (ntfschars (drop (Z.to_nat (a + o)) m)) nl ic upcase upcase_len;
          Ok (if rc =? 0 then Match else if rc <? 0 then Over ENOENT else Continue)
      | _ => Ok Match
      end
  end.

(** The test of the value. *)
Definition check_value (m : list Z) (val : option (list Z)) (val_len a : Z) : res verdict :=
  match val with
  | None => Ok Match
  | Some v =>
      o ← a_value_offset m a;
      avl ← a_value_length m a;
      let n := Z.min val_len avl in
      v1 ← aslice v 0 n;
      v2 ← aslice m (a + o) n;
      let rc := memcmp v1 v2 in
      Ok (if rc =? 0 then (if val_len =? avl then Match else if val_len <? avl then Over ENOENT else Continue)
          else if rc <? 0 then Over ENOENT else Continue)
  end.

(** Does the attribute not lie within the used part of the record, so that its
    minimal fields cannot be accessed? *)
Definition attr_outside (m : list Z) (biu a : Z) : res bool :=
  let space := biu - a in
  if a <? 0 then Ok true else
  small ← (if space <? resident_end then Ok true else l ← a_length m a; Ok (space <? l));
  if small : bool then
    if space <? 4 then Ok true else ty ← a_type m a; Ok (negb (ty =? AT_END))
  else Ok false.

(** [for (;; a = (char* )a + le32_to_cpu(a->length))]: the attribute where the
    search ends and the error. *)
Fixpoint find_loop (fuel : nat) (m : list Z) (type : Z) (name : attr_name) (name_len : Z) (ic : IGNORE_CASE_BOOL)
    (val : option (list Z)) (val_len attr a : Z) : res (Z * option errno) :=
  match fuel with
  | O => Undef
  | S fuel =>
      biu ← m_bytes_in_use m;
      out ← attr_outside m biu a;
      if out : bool then Ok (attr, Some EIO) else
      ty ← a_type m a;
      if (negb (type =? AT_UNUSED) && (type <? ty)) || (ty =? AT_END) then Ok (a, Some ENOENT) else
      l ← a_length m a;
      if l =? 0 then Ok (a, Some EIO) else
      if type =? AT_UNUSED then Ok (a, None) else
      if negb (ty =? type) then find_loop fuel m type name name_len ic val val_len a (a + l) else
      v ← check_name m name name_len ic a;
      match v with
      | Over e => Ok (a, Some e)
      | Continue => find_loop fuel m type name name_len ic val val_len a (a + l)
      | Match =>
          v ← check_value m val val_len a;
          match v with
          | Match => Ok (a, None)
          | Over e => Ok (a, Some e)
          | Continue => find_loop fuel m type name name_len ic val val_len a (a + l)
          end
      end
  end.

(** Every attribute the loop passes takes a byte of the record. *)
Definition ntfs_attr_find (m : list Z) (type : Z) (name : attr_name) (name_len : Z) (ic : IGNORE_CASE_BOOL)
    (val : option (list Z)) (val_len : Z) (ctx : search_ctx) : res (search_ctx * option errno) :=
  a ← (if is_first ctx then Ok (ctx_attr ctx) else l ← a_length m (ctx_attr ctx); Ok (ctx_attr ctx + l));
  '(a, e) ← find_loop (S (length m)) m type name name_len ic val val_len (ctx_attr ctx) a;
  Ok (mk_ctx a false, e).

End find.

Definition ntfs_attr_init_search_ctx (m : list Z) : res search_ctx :=
  o ← m_attrs_offset m;
  Ok (mk_ctx o true).

(** ** Changes *)

Definition align8 (n : Z) : Z := Z.land (n + 7) (Z.lnot 7).

Definition ntfs_make_room_for_attr (m : list Z) (pos size : Z) : res (list Z) :=
  let size := u32 (align8 size) in
  if pos <? 0 then Err EINVAL else
  biu ← m_bytes_in_use m;
  if s32 biu - 8 <? pos then Err EINVAL else
  if size =? 0 then Ok m else
  ba ← m_bytes_allocated m;
  if (ba <? u32 (biu + size)) || (ba <? pos + size) then Err ENOSPC else
  m ← memmove m (pos + size) pos (biu - pos);
  put_le 4 m 24 (u32 (biu + size)).

(** The value returned is 0, -1 or [STATUS_RESIDENT_ATTRIBUTE_FILLED_MFT]; an
    index root that would fill the record is refused with the latter. *)
Inductive resize_result := Resized | Filled | ResizeErr (e : errno).

Definition ntfs_attr_record_resize (m : list Z) (a new_size : Z) : res (list Z * resize_result) :=
  old_size ← m_bytes_in_use m;
  alloc_size ← m_bytes_allocated m;
  attr_size ← a_length m a;
  let new_size := u32 (align8 new_size) in
  if new_size =? attr_size then Ok (m, Resized) else
  let new_muse := u32 (old_size - attr_size + new_size) in
  if alloc_size <? new_muse then Ok (m, ResizeErr ENOSPC) else
  ty ← a_type m a;
  if (ty =? AT_INDEX_ROOT) && (attr_size <? new_size) && (alloc_size <? u32 (new_muse + 120)) && (u32 (old_size + 120) <=? alloc_size)
  then Ok (m, Filled) else
  if old_size <? a + attr_size then Ok (m, ResizeErr EIO) else
  m ← memmove m (a + new_size) (a + attr_size) (old_size - a - attr_size);
  m ← put_le 4 m 24 new_muse;
  m ← (if 8 <=? new_size then put_le 4 m (a + 4) new_size else Ok m);
  Ok (m, Resized).

(** The offset is unsafe when there is no value, so it is set anew. *)
Definition set_value_offset (m : list Z) (a : Z) : res (list Z) :=
  vl ← a_value_length m a;
  if vl =? 0 then
    nl ← a_name_length m a;
    put_le 2 m (a + 20) (Z.lor (resident_end + nl * 2 - 1) 7 + 1)
  else Ok m.

(** After the record is resized: the new part of the value is cleared. *)
Definition clear_value (m : list Z) (a new_size : Z) : res (list Z) :=
  vl ← a_value_length m a;
  if vl <? new_size then
    vo ← a_value_offset m a;
    awrite m (a + vo + vl) (replicate (Z.to_nat (new_size - vl)) 0)
  else Ok m.

Definition ntfs_resident_attr_value_resize (m : list Z) (a new_size : Z) : res (list Z * resize_result) :=
  m ← set_value_offset m a;
  vo ← a_value_offset m a;
  '(m, r) ← ntfs_attr_record_resize m a (u32 (align8 (vo + new_size)));
  match r with
  | Resized =>
      m ← clear_value m a new_size;
      m ← put_le 4 m (a + 16) new_size;
      Ok (m, Resized)
  | _ => Ok (m, r)
  end.

(** The fields of the record set up at [a] in [ntfs_resident_attr_record_add]. *)
Definition setup_resident (m : list Z) (a type : Z) (name : list Z) (name_len : Z) (val : option (list Z)) (size data_flags length : Z) : res (list Z) :=
  m ← put_le 4 m a type;
  m ← put_le 4 m (a + 4) length;
  m ← put_le 1 m (a + 8) 0;
  m ← put_le 1 m (a + 9) name_len;
  m ← put_le 2 m (a + 10) (if name_len =? 0 then 0 else resident_end);
  m ← put_le 2 m (a + 12) data_flags;
  inst ← m_next_attr_instance m;
  m ← put_le 2 m (a + 14) inst;
  m ← put_le 4 m (a + 16) size;
  m ← put_le 2 m (a + 20) (u32 (length - align8 size));
  vo ← a_value_offset m a;
  v ← match val with Some v => aslice v 0 size | None => Ok (replicate (Z.to_nat size) 0) end;
  m ← awrite m (a + vo) v;
  m ← put_le 1 m (a + 22) (if type =? AT_FILE_NAME then RESIDENT_ATTR_IS_INDEXED else 0);
  m ← (if name_len =? 0 then Ok m else
       o ← a_name_offset m a;
       s ← aslice name 0 name_len;
       awrite m (a + o) (concat (map (le_bytes 2) s)));
  inst ← m_next_attr_instance m;
  put_le 2 m 40 (Z.land (inst + 1) 0xffff).

(** The name an attribute gets: [name] is NULL or [AT_UNNAMED] for none. *)
Definition name_chars (name : attr_name) : list Z := match name with Name s => s | _ => [] end.

Section add.
Context (memcmp : list Z -> list Z -> Z) (upcase : list Z) (upcase_len : Z).

(** [ntfs_resident_attr_record_add] for an inode without attribute list: the
    offset of the attribute and the record. *)
Definition ntfs_resident_attr_record_add (attrdef : option (list Z)) (m : list Z) (type : Z) (name : attr_name) (name_len : Z)
    (val : option (list Z)) (size data_flags : Z) : res (Z * list Z) :=
  if match name with AnyName => negb (name_len =? 0) | _ => false end then Err EINVAL else
  _ ← ntfs_attr_can_be_resident attrdef type;
  ctx ← ntfs_attr_init_search_ctx m;
  '(ctx, e) ← ntfs_attr_find memcmp upcase upcase_len m type name name_len CASE_SENSITIVE val size ctx;
  match e with
  | None => Err EEXIST
  | Some ENOENT =>
      let a := ctx_attr ctx in
      let length := u32 (resident_end + align8 (name_len * 2) + align8 size) in
      m ← ntfs_make_room_for_attr m a length;
      m ← setup_resident m a type (name_chars name) name_len val size data_flags length;
      Ok (a, m)
  | Some _ => Err EIO
  end.

(** The fields of the record set up at [a] in [ntfs_non_resident_attr_record_add]. *)
Definition setup_non_resident (m : list Z) (a type : Z) (name : list Z) (name_len lowest_vcn dataruns_size flags length : Z) : res (list Z) :=
  let packed := negb (Z.land flags (Z.lor ATTR_IS_COMPRESSED ATTR_IS_SPARSE) =? 0) in
  m ← put_le 4 m a type;
  m ← put_le 4 m (a + 4) length;
  m ← put_le 1 m (a + 8) 1;
  m ← put_le 1 m (a + 9) name_len;
  m ← put_le 2 m (a + 10) (compressed_size_ofs + if packed then 8 else 0);
  m ← put_le 2 m (a + 12) flags;
  inst ← m_next_attr_instance m;
  m ← put_le 2 m (a + 14) inst;
  m ← put_le 8 m (a + 16) lowest_vcn;
  m ← put_le 2 m (a + 32) (u32 (length - dataruns_size));
  m ← put_le 1 m (a + 34) (if Z.land flags ATTR_IS_COMPRESSED =? 0 then 0 else STANDARD_COMPRESSION_UNIT);
  m ← (if lowest_vcn =? 0 then
         m ← put_le 8 m (a + 24) (-1);
         m ← put_le 8 m (a + 40) 0;
         m ← put_le 8 m (a + 48) 0;
         m ← put_le 8 m (a + 56) 0;
         o ← get_le 2 m (a + 32);
         put_le 1 m (a + o) 0
       else Ok m);
  m ← (if name_len =? 0 then Ok m else
       o ← a_name_offset m a;
       s ← aslice name 0 name_len;
       awrite m (a + o) (concat (map (le_bytes 2) s)));
  inst ← m_next_attr_instance m;
  put_le 2 m 40 (Z.land (inst + 1) 0xffff).

(** [ntfs_non_resident_attr_record_add] for an inode without attribute list, in
    which [ntfs_attr_lookup] is [ntfs_attr_find]. *)
Definition ntfs_non_resident_attr_record_add (attrdef : option (list Z)) (attrdef_len : Z) (m : list Z) (type : Z) (name : attr_name) (name_len : Z)
    (lowest_vcn dataruns_size flags : Z) : res (Z * list Z) :=
  if (dataruns_size <=? 0) || match name with AnyName => negb (name_len =? 0) | _ => false end then Err EINVAL else
  _ ← ntfs_attr_can_be_non_resident attrdef attrdef_len type (match name with AnyName => None | n => Some (name_chars n) end) name_len upcase upcase_len;
  ctx ← ntfs_attr_init_search_ctx m;
  '(ctx, e) ← ntfs_attr_find memcmp upcase upcase_len m type name name_len CASE_SENSITIVE None 0 ctx;
  match e with
  | None => Err EEXIST
  | Some ENOENT =>
      let a := ctx_attr ctx in
      let dataruns_size := align8 dataruns_size in
      let packed := negb (Z.land flags (Z.lor ATTR_IS_COMPRESSED ATTR_IS_SPARSE) =? 0) in
      let length := u32 (compressed_size_ofs + align8 (2 * name_len) + dataruns_size + if packed then 8 else 0) in
      m ← ntfs_make_room_for_attr m a length;
      m ← setup_non_resident m a type (name_chars name) name_len lowest_vcn dataruns_size flags length;
      ctx ← ntfs_attr_init_search_ctx m;
      '(ctx, e) ← ntfs_attr_find memcmp upcase upcase_len m type name name_len CASE_SENSITIVE None 0 ctx;
      match e with Some e => Err e | None => Ok (ctx_attr ctx, m) end
  | Some _ => Err EIO
  end.

(** The attribute record part of [ntfs_attr_record_rm]; the flag says that the
    record holds no attribute any more. *)
Definition attr_record_remove (m : list Z) (a : Z) : res (list Z * bool) :=
  '(m, r) ← ntfs_attr_record_resize m a 0;
  match r with
  | Resized =>
      biu ← m_bytes_in_use m;
      o ← m_attrs_offset m;
      Ok (m, u32 (biu - o) =? 8)
  | _ => Err EIO
  end.

End add.
