(* ===== verification/AttrFind.v ===== *)
(** The search for an attribute, on the list of the attributes of a record. *)

From S2P Require Import Prelude Bytes Fields Unistr Collate IndexNode AttrDef AttrRec.

(** * Specification *)

Definition at_type (b : list Z) : Z := fld 4 0 b.
Definition at_length (b : list Z) : Z := fld 4 4 b.
Definition at_non_resident (b : list Z) : Z := fld 1 8 b.
Definition at_name_length (b : list Z) : Z := fld 1 9 b.
Definition at_name_offset (b : list Z) : Z := fld 2 10 b.
Definition at_value_length (b : list Z) : Z := fld 4 16 b.
Definition at_value_offset (b : list Z) : Z := fld 2 20 b.

Definition at_name (b : list Z) : list Z :=
  ntfschars (take (2 * Z.to_nat (at_name_length b)) (drop (Z.to_nat (at_name_offset b)) b)).
Definition at_value (b : list Z) : list Z :=
  take (Z.to_nat (at_value_length b)) (drop (Z.to_nat (at_value_offset b)) b).

(** The bytes of an attribute: its length is right, and its name and its value
    are inside. *)
Record attr_ok (b : list Z) : Prop := {
  ao_bytes : bytes b;
  ao_size : resident_end <= zlen b;
  ao_align : zlen b mod 8 = 0;
  ao_length : at_length b = zlen b;
  ao_type : at_type b <> AT_END;
  ao_name : at_name_length b = 0 \/ at_name_offset b + 2 * at_name_length b <= zlen b;
  ao_value : at_non_resident b = 0 -> at_value_offset b + at_value_length b <= zlen b
}.

(** The bytes of a record: [h0] up to the bytes in use, [h1] up to the instance
    of the next attribute, [h2] up to the first attribute, the attributes, the
    end marker, and the unused rest. *)
Definition rec_used (h2 : list Z) (attrs : list (list Z)) : Z := 42 + zlen h2 + zlen (concat attrs) + 8.
Definition rec_head (h0 h1 : list Z) (inst : Z) (h2 : list Z) (used : Z) : list Z :=
  h0 ++ le_bytes 4 used ++ h1 ++ le_bytes 2 inst ++ h2.
Definition rec_of (h0 h1 : list Z) (inst : Z) (h2 : list Z) (attrs : list (list Z)) (eb slack : list Z) : list Z :=
  rec_head h0 h1 inst h2 (rec_used h2 attrs) ++ concat attrs ++ eb ++ slack.

Record rec_wf (h0 h1 : list Z) (inst : Z) (h2 : list Z) (attrs : list (list Z)) (eb slack : list Z) : Prop := {
  rw_h0 : zlen h0 = 24;
  rw_h1 : zlen h1 = 12;
  rw_h2 : 6 <= zlen h2;
  rw_attrs_offset : fld 2 20 h0 = 42 + zlen h2;
  rw_alloc : fld 4 0 h1 = rec_used h2 attrs + zlen slack;
  rw_inst : 0 <= inst < 65536;
  rw_attrs : Forall attr_ok attrs;
  rw_eb : zlen eb = 8;
  rw_end : fld 4 0 eb = AT_END;
  rw_bytes : bytes eb /\ bytes slack;
  rw_size : rec_used h2 attrs + zlen slack < 2 ^ 31 - 8
}.

(** Where the attributes begin. *)
Definition first_ofs (h2 : list Z) : Z := 42 + zlen h2.

(** How the attribute that is wanted compares to one of the record. *)
Definition name_cmp (upcase : list Z) (ic : IGNORE_CASE_BOOL) (name : attr_name) (b : list Z) : comparison :=
  match name with
  | AnyName => Eq
  | AtUnnamed => match at_name b with [] => Eq | _ => Lt end
  | Name n =>
      match ic with
      | CASE_SENSITIVE => names_compare upcase n (at_name b)
      | IGNORE_CASE => lex (map (toup upcase) n) (map (toup upcase) (at_name b))
      end
  end.

Definition value_cmp (val : option (list Z)) (b : list Z) : comparison :=
  match val with None => Eq | Some v => lex v (at_value b) end.

Definition want_cmp (upcase : list Z) (type : Z) (name : attr_name) (ic : IGNORE_CASE_BOOL) (val : option (list Z)) (b : list Z) : comparison :=
  if type =? AT_UNUSED then Eq else
  match type ?= at_type b with
  | Eq => match name_cmp upcase ic name b with Eq => value_cmp val b | c => c end
  | c => c
  end.

(** The search in a list: it passes what comes before the wanted one. *)
Fixpoint scan (cmp : list Z -> comparison) (o : Z) (attrs : list (list Z)) : Z * option errno :=
  match attrs with
  | [] => (o, Some ENOENT)
  | b :: attrs =>
      match cmp b with
      | Eq => (o, None)
      | Lt => (o, Some ENOENT)
      | Gt => scan cmp (o + zlen b) attrs
      end
  end.

(** What may be asked for: a name of 16-bit characters; a value only of a type
    whose attributes are resident. *)
Record want_ok (type : Z) (name : attr_name) (name_len : Z) (val : option (list Z)) (val_len : Z) (attrs : list (list Z)) : Prop := {
  wo_type : 0 <= type < AT_END;
  wo_name : match name with Name n => is_name n /\ name_len = zlen n | _ => True end;
  wo_val : match val with
           | Some v => val_len = zlen v /\ Forall (fun b => at_type b = type -> at_non_resident b = 0) attrs
           | None => True
           end
}.

(** * Proofs *)

Section fields.
Context (pre b post : list Z) (Hb : attr_ok b).

Lemma attr_length_nat : (24 <= length b)%nat.
Proof. destruct Hb as [_ H]. unfold resident_end, zlen in H. lia. Qed.

Lemma type_at : a_type (pre ++ b ++ post) (zlen pre) = Ok (at_type b).
Proof. pose proof attr_length_nat. rewrite <- (Z.add_0_r (zlen pre)). apply (fld_at 4 0). lia. Qed.
Lemma attr_length_at : a_length (pre ++ b ++ post) (zlen pre) = Ok (zlen b).
Proof. pose proof attr_length_nat. rewrite <- (ao_length b Hb). apply (fld_at 4 4). lia. Qed.
Lemma name_length_at : a_name_length (pre ++ b ++ post) (zlen pre) = Ok (at_name_length b).
Proof. pose proof attr_length_nat. apply (fld_at 1 9). lia. Qed.
Lemma name_offset_at : a_name_offset (pre ++ b ++ post) (zlen pre) = Ok (at_name_offset b).
Proof. pose proof attr_length_nat. apply (fld_at 2 10). lia. Qed.
Lemma value_length_at : a_value_length (pre ++ b ++ post) (zlen pre) = Ok (at_value_length b).
Proof. pose proof attr_length_nat. apply (fld_at 4 16). lia. Qed.
Lemma value_offset_at : a_value_offset (pre ++ b ++ post) (zlen pre) = Ok (at_value_offset b).
Proof. pose proof attr_length_nat. apply (fld_at 2 20). lia. Qed.

Lemma name_length_range : 0 <= at_name_length b < 256.
Proof. apply (fld_range 1 9), Hb. Qed.
Lemma name_offset_range : 0 <= at_name_offset b < 65536.
Proof. apply (fld_range 2 10), Hb. Qed.
Lemma value_length_range : 0 <= at_value_length b < 2 ^ 32.
Proof. apply (fld_range 4 16), Hb. Qed.
Lemma value_offset_range : 0 <= at_value_offset b < 65536.
Proof. apply (fld_range 2 20), Hb. Qed.

Lemma at_name_zlen : zlen (at_name b) = at_name_length b.
Proof.
  pose proof name_length_range. pose proof name_offset_range. unfold at_name, zlen. rewrite ntfschars_length.
  destruct (ao_name b Hb) as [->|Hn]; [done|]. rewrite length_take_le by (rewrite length_drop; unfold zlen in Hn; lia).
  replace (2 * Z.to_nat (at_name_length b))%nat with (Z.to_nat (at_name_length b) * 2)%nat by lia. rewrite Nat.div_mul by lia. lia.
Qed.

Lemma at_name_is_name : is_name (at_name b).
Proof. apply ntfschars_name, Forall_take, Forall_drop, Hb. Qed.

(** The characters from the name on. *)
Lemma name_chars_at : exists r, ntfschars (drop (Z.to_nat (zlen pre + at_name_offset b)) (pre ++ b ++ post)) = at_name b ++ r.
Proof.
  pose proof name_length_range. pose proof name_offset_range. destruct (ao_name b Hb) as [E0|Hn].
  { unfold at_name. rewrite E0. by eexists. }
  rewrite drop_app_ge by (unfold zlen; lia). replace (Z.to_nat (zlen pre + at_name_offset b) - length pre)%nat with (Z.to_nat (at_name_offset b)) by (unfold zlen; lia).
  rewrite drop_app_le by (unfold zlen in Hn; lia). rewrite <- (take_drop (2 * Z.to_nat (at_name_length b)) (drop _ b)), <- app_assoc. apply ntfschars_app.
Qed.

End fields.

(** The verdict of a comparison. *)
Definition verdict_of (c : comparison) : verdict := match c with Eq => Match | Lt => Over ENOENT | Gt => Continue end.

Lemma sgn_verdict c : (if sgn c =? 0 then Match else if sgn c <? 0 then Over ENOENT else Continue) = verdict_of c.
Proof. by destruct c. Qed.

Section find_proofs.
Context (memcmp : list Z -> list Z -> Z) (upcase : list Z) (Hmemcmp : memcmp_law memcmp).

Lemma check_name_spec pre b post name name_len ic : attr_ok b ->
  match name with Name n => is_name n /\ name_len = zlen n | _ => True end ->
  check_name upcase (zlen upcase) (pre ++ b ++ post) name name_len ic (zlen pre) = Ok (verdict_of (name_cmp upcase ic name b)).
Proof.
  intros Hb Hw. pose proof (name_length_range b Hb). pose proof (name_offset_range b Hb). pose proof (at_name_zlen b Hb) as En.
  unfold check_name. rewrite name_length_at by done. cbn [mbind res_bind].
  assert ((if at_name_length b =? 0 then Ok false else o ← a_name_offset (pre ++ b ++ post) (zlen pre); l ← a_length (pre ++ b ++ post) (zlen pre); Ok (l <? o + at_name_length b * 2)) = Ok false) as Hbad.
  { destruct (Z.eqb_spec (at_name_length b) 0) as [|Hnz]; [done|]. rewrite name_offset_at, attr_length_at by done. cbn [mbind res_bind].
    f_equal. apply Z.ltb_ge. destruct (ao_name b Hb); lia. }
  destruct name as [| |n]; [by rewrite Hbad| |].
  - cbn [name_cmp]. destruct (at_name b) as [|c l] eqn:E; [rewrite <- En; done|]. rewrite zlen_cons in En. pose proof (zlen_nonneg l). rewrite (proj2 (Z.eqb_neq _ 0)) by lia. done.
  - rewrite Hbad. cbn [mbind res_bind]. rewrite name_offset_at by done. cbn [mbind res_bind]. destruct (name_chars_at pre b post Hb) as [r ->]. destruct Hw as [Hn ->].
    rewrite <- En. pose proof (at_name_is_name b Hb). destruct ic.
    + pose proof (full_collate_case upcase n [] (at_name b) r Hn) as E. rewrite app_nil_r in E. rewrite E by done. cbn [mbind res_bind]. by rewrite sgn_verdict.
    + pose proof (full_collate_nocase upcase n [] (at_name b) r Hn) as E. rewrite app_nil_r in E. rewrite E by done. cbn [mbind res_bind]. by rewrite sgn_verdict.
Qed.

(** [memcmp] of the common length, then the lengths, is the order of the values. *)
Lemma memcmp_lex v av : let n := Z.min (zlen v) (zlen av) in
  let rc := memcmp (take (Z.to_nat n) v) (take (Z.to_nat n) av) in
  (if rc =? 0 then (if zlen v =? zlen av then Match else if zlen v <? zlen av then Over ENOENT else Continue)
   else if rc <? 0 then Over ENOENT else Continue) = verdict_of (lex v av).
Proof.
  cbn zeta. destruct (split_common v av) as (l1 & l2 & d1 & d2 & -> & -> & Hl & Hd & En). rewrite En.
  replace (take (length l1) (l2 ++ d2)) with l2 by (by rewrite Hl, take_app_length). rewrite take_app_length, lex_app_length, (lex_lengths l1 l2 d1 d2) by done.
  specialize (Hmemcmp l1 l2 ltac:(unfold zlen; lia)). destruct (lex l1 l2); cbn [sgn] in Hmemcmp; cbn [verdict_of].
  - rewrite (proj2 (Z.eqb_eq _ 0)) by lia. destruct (Z.compare_spec (zlen (l1 ++ d1)) (zlen (l2 ++ d2))) as [Ez|Hlt|Hgt]; zdec; done.
  - rewrite (proj2 (Z.eqb_neq _ 0)), (proj2 (Z.ltb_lt _ 0)) by lia. done.
  - rewrite (proj2 (Z.eqb_neq _ 0)), (proj2 (Z.ltb_ge _ 0)) by lia. done.
Qed.

Lemma check_value_spec pre b post val val_len : attr_ok b ->
  match val with Some v => val_len = zlen v /\ at_non_resident b = 0 | None => True end ->
  check_value memcmp (pre ++ b ++ post) val val_len (zlen pre) = Ok (verdict_of (value_cmp val b)).
Proof.
  intros Hb Hv. unfold check_value. destruct val as [v|]; [|done]. destruct Hv as [-> Hres].
  pose proof (value_length_range b Hb). pose proof (value_offset_range b Hb). pose proof (ao_value b Hb Hres) as Hin.
  rewrite value_offset_at, value_length_at by done. cbn [mbind res_bind]. pose proof (zlen_nonneg v).
  assert (zlen (at_value b) = at_value_length b) as Ea by (unfold at_value, zlen in *; rewrite length_take, length_drop; lia).
  set (n := Z.min (zlen v) (at_value_length b)). assert (aslice v 0 n = Ok (take (Z.to_nat n) v)) as ->
    by (unfold aslice; rewrite (proj2 (Z.ltb_ge n 0)), (proj2 (Z.ltb_ge (zlen v) (0 + n))) by lia; done).
  cbn [mbind res_bind]. assert (aslice (pre ++ b ++ post) (zlen pre + at_value_offset b) n = Ok (take (Z.to_nat n) (at_value b))) as ->.
  { unfold aslice. rewrite !zlen_app. pose proof (zlen_nonneg pre). pose proof (zlen_nonneg post).
    rewrite (proj2 (Z.ltb_ge (zlen pre + _) 0)), (proj2 (Z.ltb_ge n 0)), (proj2 (Z.ltb_ge (zlen pre + (zlen b + zlen post)) _)) by lia. cbn [orb]. f_equal.
    rewrite drop_app_ge by (unfold zlen; lia). replace (Z.to_nat (zlen pre + at_value_offset b) - length pre)%nat with (Z.to_nat (at_value_offset b)) by (unfold zlen; lia).
    rewrite drop_app_le by (unfold zlen in Hin; lia). unfold at_value. rewrite take_take. rewrite take_app_le by (rewrite length_drop; unfold zlen in *; lia). f_equal. lia. }
  cbn [mbind res_bind]. f_equal. cbn [value_cmp]. rewrite <- (memcmp_lex v (at_value b)). cbn zeta. by rewrite Ea.
Qed.

(** The end marker. *)
Lemma end_type_at pre eb slack : zlen eb = 8 -> fld 4 0 eb = AT_END -> a_type (pre ++ eb ++ slack) (zlen pre) = Ok AT_END.
Proof. intros Hl E. rewrite <- E, <- (Z.add_0_r (zlen pre)). apply (fld_at 4 0). unfold zlen in Hl. lia. Qed.

Lemma find_loop_spec type name name_len ic val val_len m biu eb slack :
  m_bytes_in_use m = Ok biu -> zlen eb = 8 -> fld 4 0 eb = AT_END ->
  forall rest fuel pre attr, m = pre ++ concat rest ++ eb ++ slack -> biu = zlen pre + zlen (concat rest) + 8 -> (length rest < fuel)%nat ->
  Forall attr_ok rest -> want_ok type name name_len val val_len rest ->
  find_loop memcmp upcase (zlen upcase) fuel m type name name_len ic val val_len attr (zlen pre) = Ok (scan (want_cmp upcase type name ic val) (zlen pre) rest).
Proof.
  intros Hbiu He Het. induction rest as [|b rest IH]; intros fuel pre attr Em Eb Hf Hok Hw; (destruct fuel as [|fuel]; [cbn in Hf; lia|]); pose proof (zlen_nonneg pre).
  - cbn [concat app] in *. change (zlen []) with 0 in Eb. cbn [find_loop scan]. rewrite Hbiu. cbn [mbind res_bind]. unfold attr_outside, resident_end. zdec.
    cbn [mbind res_bind]. assert (a_type m (zlen pre) = Ok AT_END) as Et by (subst m; by apply end_type_at). rewrite Et. cbn [mbind res_bind]. rewrite Z.eqb_refl. cbn [negb].
    cbn [mbind res_bind]. by rewrite orb_true_r.
  - apply Forall_cons_1 in Hok as [Hb Hok]. pose proof Hw as [Htype Hname Hval]. cbn [concat] in *. rewrite <- app_assoc in Em. rewrite zlen_app in Eb.
    set (post := concat rest ++ eb ++ slack) in *. pose proof (zlen_nonneg (concat rest)). pose proof (ao_size b Hb) as Hs. unfold resident_end in Hs.
    assert (type_eq : a_type m (zlen pre) = Ok (at_type b)) by (subst m; by apply type_at).
    assert (length_eq : a_length m (zlen pre) = Ok (zlen b)) by (subst m; by apply attr_length_at).
    assert (Hnext : forall attr, find_loop memcmp upcase (zlen upcase) fuel m type name name_len ic val val_len attr (zlen pre + zlen b)
      = Ok (scan (want_cmp upcase type name ic val) (zlen pre + zlen b) rest)).
    { intros attr'. rewrite <- zlen_app. apply IH; [by rewrite Em, <- app_assoc|rewrite zlen_app; lia|cbn in Hf; lia|done|].
      split; [done|done|]. destruct val; [|done]. destruct Hval as [? Hv]. split; [done|]. by apply Forall_cons_1 in Hv as [_ ?]. }
    cbn [find_loop scan]. rewrite Hbiu. cbn [mbind res_bind]. unfold attr_outside, resident_end. zdec. rewrite length_eq. cbn [mbind res_bind]. zdec. cbn [mbind res_bind].
    rewrite type_eq. cbn [mbind res_bind]. rewrite (proj2 (Z.eqb_neq (at_type b) AT_END)) by apply Hb. rewrite orb_false_r. cbn [mbind res_bind].
    unfold want_cmp at 1.
    destruct (Z.eqb_spec type AT_UNUSED) as [->|Hnz]; [done|]. cbn [negb andb].
    destruct (Z.compare_spec type (at_type b)) as [Et|Et|Et].
    + rewrite (proj2 (Z.ltb_ge type (at_type b))), (proj2 (Z.eqb_eq (at_type b) type)) by lia. cbn [negb]. subst m. rewrite check_name_spec by done. cbn [mbind res_bind].
      destruct (name_cmp upcase ic name b); cbn [verdict_of]; [|done|apply Hnext]. rewrite check_value_spec; [|done|].
      2:{ destruct val; [|done]. destruct Hval as [? Hv]. split; [done|]. apply Forall_cons_1 in Hv as [Hv _]. by apply Hv. }
      cbn [mbind res_bind]. destruct (value_cmp val b); cbn [verdict_of]; [done|done|apply Hnext].
    + rewrite (proj2 (Z.ltb_lt type (at_type b))) by lia. done.
    + rewrite (proj2 (Z.ltb_ge type (at_type b))), (proj2 (Z.eqb_neq (at_type b) type)) by lia. cbn [negb]. apply Hnext.
Qed.

End find_proofs.

(** ** Records *)

Section records.
Context (h0 h1 : list Z) (inst : Z) (h2 : list Z) (attrs : list (list Z)) (eb slack : list Z).
Hypothesis Hwf : rec_wf h0 h1 inst h2 attrs eb slack.

Lemma rec_head_zlen used : zlen (rec_head h0 h1 inst h2 used) = first_ofs h2.
Proof. destruct Hwf. unfold rec_head, first_ofs. rewrite !zlen_app, !le_bytes_zlen. lia. Qed.

Lemma rec_zlen : zlen (rec_of h0 h1 inst h2 attrs eb slack) = rec_used h2 attrs + zlen slack.
Proof. unfold rec_of. rewrite !zlen_app, rec_head_zlen. destruct Hwf. unfold first_ofs, rec_used. lia. Qed.

Lemma rec_used_range : 0 <= rec_used h2 attrs < 2 ^ 31 - 8.
Proof. destruct Hwf. unfold rec_used in *. pose proof (zlen_nonneg (concat attrs)). pose proof (zlen_nonneg slack). lia. Qed.

Lemma in_use_at : m_bytes_in_use (rec_of h0 h1 inst h2 attrs eb slack) = Ok (rec_used h2 attrs).
Proof.
  pose proof rec_used_range. destruct Hwf. unfold m_bytes_in_use, rec_of, rec_head. rewrite <- !app_assoc. rewrite get_le_mid by (by rewrite ?le_bytes_zlen).
  by rewrite le_le_bytes_small by (change (256 ^ Z.of_nat 4) with 4294967296; lia).
Qed.

Lemma attrs_offset_at : m_attrs_offset (rec_of h0 h1 inst h2 attrs eb slack) = Ok (first_ofs h2).
Proof.
  destruct Hwf. unfold m_attrs_offset, rec_of, rec_head, first_ofs. rewrite <- rw_attrs_offset0, <- !app_assoc.
  apply (fld_at 2 20 [] h0). unfold zlen in *. lia.
Qed.

Lemma allocated_at : m_bytes_allocated (rec_of h0 h1 inst h2 attrs eb slack) = Ok (rec_used h2 attrs + zlen slack).
Proof.
  destruct Hwf. unfold m_bytes_allocated, rec_of, rec_head. rewrite <- rw_alloc0. set (l := le_bytes 4 _). set (r := le_bytes 2 inst).
  replace (((h0 ++ l ++ h1 ++ r ++ h2) ++ concat attrs ++ eb ++ slack)) with ((h0 ++ l) ++ h1 ++ (r ++ h2 ++ concat attrs ++ eb ++ slack)) by (by rewrite <- !app_assoc).
  replace 28 with (zlen (h0 ++ l) + Z.of_nat 0) by (rewrite zlen_app; unfold l; rewrite le_bytes_zlen; lia). apply (fld_at 4 0). unfold zlen in *. lia.
Qed.

Lemma instance_at : m_next_attr_instance (rec_of h0 h1 inst h2 attrs eb slack) = Ok inst.
Proof.
  destruct Hwf. unfold m_next_attr_instance, rec_of, rec_head. set (l := le_bytes 4 _).
  replace (((h0 ++ l ++ h1 ++ le_bytes 2 inst ++ h2) ++ concat attrs ++ eb ++ slack)) with ((h0 ++ l ++ h1) ++ le_bytes 2 inst ++ (h2 ++ concat attrs ++ eb ++ slack)) by (by rewrite <- !app_assoc).
  rewrite get_le_mid by (rewrite ?zlen_app; unfold l; rewrite ?le_bytes_zlen; lia). by rewrite le_le_bytes_small by (change (256 ^ Z.of_nat 2) with 65536; lia).
Qed.

(** The record around the attributes from [a1] on. *)
Definition rec_pre (a1 : list (list Z)) : list Z := rec_head h0 h1 inst h2 (rec_used h2 attrs) ++ concat a1.

Lemma rec_pre_zlen a1 : zlen (rec_pre a1) = first_ofs h2 + zlen (concat a1).
Proof. unfold rec_pre. rewrite zlen_app, rec_head_zlen. lia. Qed.

Lemma rec_split a1 a2 : attrs = a1 ++ a2 -> rec_of h0 h1 inst h2 attrs eb slack = rec_pre a1 ++ concat a2 ++ eb ++ slack.
Proof. intros E. unfold rec_of, rec_pre. rewrite E at 2. by rewrite concat_app, <- !app_assoc. Qed.

Section search_in.
Context (memcmp : list Z -> list Z -> Z) (upcase : list Z) (type : Z) (name : attr_name) (name_len : Z) (ic : IGNORE_CASE_BOOL) (val : option (list Z)) (val_len : Z).
Hypothesis Hm : memcmp_law memcmp.

Lemma loop_in_rec a1 a2 attr : attrs = a1 ++ a2 -> want_ok type name name_len val val_len a2 ->
  find_loop memcmp upcase (zlen upcase) (S (length (rec_of h0 h1 inst h2 attrs eb slack))) (rec_of h0 h1 inst h2 attrs eb slack) type name name_len ic val val_len
    attr (first_ofs h2 + zlen (concat a1)) = Ok (scan (want_cmp upcase type name ic val) (first_ofs h2 + zlen (concat a1)) a2).
Proof.
  intros E Hw. pose proof Hwf as [? ? ? ? ? ? Hat Heb Het ? ?]. rewrite <- rec_pre_zlen.
  apply (find_loop_spec memcmp upcase Hm type name name_len ic val val_len _ (rec_used h2 attrs) eb slack in_use_at Heb Het a2); [..|done].
  - by apply rec_split.
  - rewrite rec_pre_zlen. unfold rec_used, first_ofs. rewrite E, concat_app, zlen_app. lia.
  - assert (length a2 <= length (concat a2))%nat as Hle.
    { rewrite E in Hat. apply Forall_app in Hat as [_ Hat]. clear -Hat. induction Hat as [|b l Hb _ IH]; [done|]. cbn [concat length]. rewrite length_app.
      pose proof (attr_length_nat b Hb). lia. }
    rewrite (rec_split a1 a2 E), !length_app. lia.
  - rewrite E in Hat. by apply Forall_app in Hat as [_ Hat].
Qed.

(** The search from the first attribute. *)
Lemma find_spec : want_ok type name name_len val val_len attrs ->
  (ctx ← ntfs_attr_init_search_ctx (rec_of h0 h1 inst h2 attrs eb slack);
   ntfs_attr_find memcmp upcase (zlen upcase) (rec_of h0 h1 inst h2 attrs eb slack) type name name_len ic val val_len ctx)
  = Ok (let '(a, e) := scan (want_cmp upcase type name ic val) (first_ofs h2) attrs in (mk_ctx a false, e)).
Proof.
  intros Hw. unfold ntfs_attr_init_search_ctx. rewrite attrs_offset_at. cbn [mbind res_bind]. unfold ntfs_attr_find. cbn [is_first ctx_attr mbind res_bind].
  pose proof (loop_in_rec [] attrs (first_ofs h2) eq_refl Hw) as E. change (zlen (concat [])) with 0 in E. rewrite Z.add_0_r in E. rewrite E.
  cbn [mbind res_bind]. by destruct (scan _ _ _).
Qed.

(** The search goes on behind the attribute found before. *)
Lemma find_next_spec a1 b a2 : attrs = a1 ++ b :: a2 -> want_ok type name name_len val val_len a2 ->
  ntfs_attr_find memcmp upcase (zlen upcase) (rec_of h0 h1 inst h2 attrs eb slack) type name name_len ic val val_len (mk_ctx (first_ofs h2 + zlen (concat a1)) false)
  = Ok (let '(a, e) := scan (want_cmp upcase type name ic val) (first_ofs h2 + zlen (concat (a1 ++ [b]))) a2 in (mk_ctx a false, e)).
Proof.
  intros E Hw. unfold ntfs_attr_find. cbn [is_first ctx_attr]. assert (attr_ok b) as Hb.
  { pose proof (rw_attrs _ _ _ _ _ _ _ Hwf) as H. rewrite E in H. apply Forall_app in H as [_ H]. by apply Forall_cons_1 in H as [H _]. }
  assert (a_length (rec_of h0 h1 inst h2 attrs eb slack) (first_ofs h2 + zlen (concat a1)) = Ok (zlen b)) as ->.
  { rewrite <- rec_pre_zlen, (rec_split a1 (b :: a2) E). cbn [concat]. rewrite <- app_assoc. by apply attr_length_at. }
  cbn [mbind res_bind]. replace (first_ofs h2 + zlen (concat a1) + zlen b) with (first_ofs h2 + zlen (concat (a1 ++ [b])))
    by (rewrite concat_app, zlen_app; cbn [concat]; rewrite app_nil_r; lia).
  rewrite (loop_in_rec (a1 ++ [b]) a2) by (rewrite <- ?app_assoc; done). cbn [mbind res_bind]. by destruct (scan _ _ _).
Qed.

End search_in.
End records.

(** C29: on every well-formed record the search answers what the list of its attributes says: it passes the
    attributes that come before the wanted one (by type, then name, then value), stops at the first that does
    not, and reports whether that one matches; the search goes on behind the attribute found before.  It ends
    on every such record and reads only within it. *)
Theorem attr_find_correct h0 h1 inst h2 attrs eb slack memcmp upcase type name name_len ic val val_len :
  rec_wf h0 h1 inst h2 attrs eb slack -> memcmp_law memcmp -> want_ok type name name_len val val_len attrs ->
  let m := rec_of h0 h1 inst h2 attrs eb slack in
  let answer '(a, e) := Ok (mk_ctx a false, e) in
  (ctx ← ntfs_attr_init_search_ctx m; ntfs_attr_find memcmp upcase (zlen upcase) m type name name_len ic val val_len ctx)
  = answer (scan (want_cmp upcase type name ic val) (first_ofs h2) attrs) /\
  (forall a1 b a2, attrs = a1 ++ b :: a2 ->
    ntfs_attr_find memcmp upcase (zlen upcase) m type name name_len ic val val_len (mk_ctx (first_ofs h2 + zlen (concat a1)) false)
    = answer (scan (want_cmp upcase type name ic val) (first_ofs h2 + zlen (concat (a1 ++ [b]))) a2)).
Proof.
  intros Hwf Hm Hw. cbn zeta. split.
  - rewrite find_spec by done. by destruct (scan _ _ _).
  - intros a1 b a2 E. erewrite find_next_spec; [|done|done|exact E|]; [by destruct (scan _ _ _)|].
    destruct Hw as [? ? Hv]. split; [done|done|]. destruct val; [|done]. destruct Hv as [? Hv]. split; [done|]. rewrite E in Hv. apply Forall_app in Hv as [_ Hv].
    by apply Forall_cons_1 in Hv as [_ Hv].
Qed.

(** A record of 128 bytes with an unnamed attribute of type $DATA and value [1; 2; 3]. *)
Definition ex_attr : list Z := [0x80; 0; 0; 0; 32; 0; 0; 0; 0; 0; 0; 0; 0; 0; 0; 0; 3; 0; 0; 0; 24; 0; 0; 0; 1; 2; 3; 0; 0; 0; 0; 0].
Definition ex_h0 : list Z := replicate 20 0 ++ [48; 0; 0; 0].
Definition ex_h1 : list Z := [128; 0; 0; 0] ++ replicate 8 0.
Definition ex_end : list Z := [255; 255; 255; 255; 0; 0; 0; 0].

Lemma ex_attr_ok : attr_ok ex_attr.
Proof. split; try done; try (by right); try (by left); compute_decide. Qed.

Lemma ex_wf : rec_wf ex_h0 ex_h1 1 (replicate 6 0) [ex_attr] ex_end (replicate 40 0).
Proof. split; try done; [by repeat constructor; try apply ex_attr_ok|split; compute_decide]. Qed.

Lemma attr_find_correct_witness :
  let m := rec_of ex_h0 ex_h1 1 (replicate 6 0) [ex_attr] ex_end (replicate 40 0) in
  (ctx ← ntfs_attr_init_search_ctx m; ntfs_attr_find memcmp_diff [] 0 m 0x80 AtUnnamed 0 CASE_SENSITIVE (Some [1; 2; 3]) 3 ctx) = Ok (mk_ctx 48 false, None).
Proof.
  cbn zeta. destruct (attr_find_correct ex_h0 ex_h1 1 (replicate 6 0) [ex_attr] ex_end (replicate 40 0) memcmp_diff [] 0x80 AtUnnamed 0 CASE_SENSITIVE (Some [1; 2; 3]) 3)
    as [H _]; [apply ex_wf|apply memcmp_diff_law| |].
  { split; [done|done|]. split; [done|]. constructor; [done|constructor]. }
  etransitivity; [exact H|]. vm_compute. reflexivity.
Defined.

(** The value of an attribute is read without a test that it is within the
    attribute or the record: in a record of 128 bytes whose only attribute has
    the value length 200, a search for a value of 200 bytes reads behind the
    end of the record. *)
Theorem attr_find_reads_value_outside :
  let bad := [0x80; 0; 0; 0; 32; 0; 0; 0; 0; 0; 0; 0; 0; 0; 0; 0; 200; 0; 0; 0; 24; 0; 0; 0; 1; 2; 3; 0; 0; 0; 0; 0] in
  let m := rec_of ex_h0 ex_h1 1 (replicate 6 0) [bad] ex_end (replicate 40 0) in
  zlen m = 128 /\
  (ctx ← ntfs_attr_init_search_ctx m; ntfs_attr_find memcmp_diff [] 0 m 0x80 AtUnnamed 0 CASE_SENSITIVE (Some (replicate 200 0)) 200 ctx) = Undef.
Proof. split; vm_compute; reflexivity. Qed.
