(* ===== verification/AttrRecThm.v ===== *)
(** What adding, resizing and removing an attribute make of a record: the other
    attributes stay as they are, in their order, and the record well-formed. *)

From S2P Require Import Prelude Bytes Fields Unistr Collate IndexNode AttrDef AttrRec AttrFind.

Lemma align8_div n : align8 n = 8 * ((n + 7) / 8).
Proof. unfold align8. change 7 with (Z.ones 3) at 2. rewrite land_lnot_ones by lia. done. Qed.

Lemma align8_spec n : n <= align8 n < n + 8 /\ align8 n mod 8 = 0.
Proof. rewrite align8_div. dlia. Qed.

Lemma align8_id n : n mod 8 = 0 -> align8 n = n.
Proof. intros H. rewrite align8_div. dlia. Qed.

(** Writing [t] over what lies from [n] bytes behind [pre] on. *)
Lemma overwrite (pre x t s : list Z) n : 0 <= n -> n + zlen t <= zlen (x ++ t ++ s) ->
  awrite (pre ++ x ++ t ++ s) (zlen pre + n) t
  = Ok (pre ++ take (Z.to_nat n) (x ++ t ++ s) ++ t ++ drop (Z.to_nat (n + zlen t)) (x ++ t ++ s)).
Proof.
  intros Hn Hl. set (y := x ++ t ++ s) in *. unfold zlen in Hl.
  assert (y = take (Z.to_nat n) y ++ take (length t) (drop (Z.to_nat n) y) ++ drop (length t) (drop (Z.to_nat n) y)) as E by (by rewrite !take_drop).
  rewrite E at 1. rewrite (app_assoc pre), awrite_mid.
  - rewrite drop_drop, <- app_assoc. by replace (Z.to_nat (n + zlen t)) with (Z.to_nat n + length t)%nat by (unfold zlen; lia).
  - rewrite zlen_app. unfold zlen. rewrite length_take. lia.
  - rewrite length_take, length_drop. lia.
Qed.

Lemma concat_bytes attrs : Forall attr_ok attrs -> bytes (concat attrs).
Proof. induction 1 as [|b l Hb _ IH]; [constructor|]. cbn [concat]. apply Forall_app_2; [apply Hb|done]. Qed.

Lemma concat_aligned attrs : Forall attr_ok attrs -> zlen (concat attrs) mod 8 = 0.
Proof. induction 1 as [|b l Hb _ IH]; [done|]. cbn [concat]. rewrite zlen_app. pose proof (ao_align b Hb). dlia. Qed.

Section record.
Context (h0 h1 : list Z) (inst : Z) (h2 : list Z) (eb : list Z).

(** The record with [mid] between the attributes [a1] and [a2], [used] bytes in use. *)
Definition rec_with (inst used : Z) (a1 : list (list Z)) (mid : list Z) (a2 : list (list Z)) (slack : list Z) : list Z :=
  rec_head h0 h1 inst h2 used ++ concat a1 ++ mid ++ concat a2 ++ eb ++ slack.

Lemma rec_with_attr used a1 b a2 slack : used = rec_used h2 (a1 ++ b :: a2) -> rec_with inst used a1 b a2 slack = rec_of h0 h1 inst h2 (a1 ++ b :: a2) eb slack.
Proof. intros ->. unfold rec_with, rec_of. rewrite concat_app. cbn [concat]. by rewrite <- !app_assoc. Qed.

Lemma rec_with_nil used a1 a2 slack : used = rec_used h2 (a1 ++ a2) -> rec_with inst used a1 [] a2 slack = rec_of h0 h1 inst h2 (a1 ++ a2) eb slack.
Proof. intros ->. unfold rec_with, rec_of. rewrite concat_app. cbn [app]. by rewrite <- !app_assoc. Qed.

Context (Hh0 : zlen h0 = 24) (Hh1 : zlen h1 = 12).

Lemma put_in_use used v rest : put_le 4 (rec_head h0 h1 inst h2 used ++ rest) 24 v = Ok (rec_head h0 h1 inst h2 v ++ rest).
Proof. unfold rec_head, put_le. rewrite <- !app_assoc, awrite_mid; [done|lia|by rewrite !le_bytes_length]. Qed.

Lemma get_instance used rest : 0 <= inst < 65536 -> m_next_attr_instance (rec_head h0 h1 inst h2 used ++ rest) = Ok inst.
Proof.
  intros Hi. unfold m_next_attr_instance, rec_head. set (l := le_bytes 4 used).
  replace ((h0 ++ l ++ h1 ++ le_bytes 2 inst ++ h2) ++ rest) with ((h0 ++ l ++ h1) ++ le_bytes 2 inst ++ (h2 ++ rest)) by (by rewrite <- !app_assoc).
  rewrite get_le_mid by (rewrite ?zlen_app; unfold l; rewrite ?le_bytes_zlen; lia). by rewrite le_le_bytes_small by (change (256 ^ Z.of_nat 2) with 65536; lia).
Qed.

Lemma put_instance used v rest : put_le 2 (rec_head h0 h1 inst h2 used ++ rest) 40 v = Ok (rec_head h0 h1 v h2 used ++ rest).
Proof.
  unfold rec_head, put_le. set (l := le_bytes 4 used).
  replace ((h0 ++ l ++ h1 ++ le_bytes 2 inst ++ h2) ++ rest) with ((h0 ++ l ++ h1) ++ le_bytes 2 inst ++ (h2 ++ rest)) by (by rewrite <- !app_assoc).
  rewrite awrite_mid; [by rewrite <- !app_assoc|rewrite !zlen_app; unfold l; rewrite le_bytes_zlen; lia|by rewrite !le_bytes_length].
Qed.

End record.

(** Where the attribute behind [a1] is. *)
Definition attr_ofs (h2 : list Z) (a1 : list (list Z)) : Z := first_ofs h2 + zlen (concat a1).

(** ** Room for an attribute and the size of an attribute *)

Section ops.
Context (h0 h1 : list Z) (inst : Z) (h2 : list Z) (attrs : list (list Z)) (eb slack : list Z).
Hypothesis Hwf : rec_wf h0 h1 inst h2 attrs eb slack.

Lemma rec_is a1 mid a2 : attrs = a1 ++ mid ++ a2 -> rec_of h0 h1 inst h2 attrs eb slack = rec_with h0 h1 h2 eb inst (rec_used h2 attrs) a1 (concat mid) a2 slack.
Proof. intros E. unfold rec_of, rec_with. rewrite E at 2. by rewrite !concat_app, <- !app_assoc. Qed.

Lemma used_split a1 mid a2 : attrs = a1 ++ mid ++ a2 -> rec_used h2 attrs = attr_ofs h2 a1 + zlen (concat mid) + zlen (concat a2) + 8.
Proof. intros ->. unfold rec_used, attr_ofs, first_ofs. rewrite !concat_app, !zlen_app. lia. Qed.

Lemma ofs_range a1 mid a2 : attrs = a1 ++ mid ++ a2 -> 48 <= attr_ofs h2 a1.
Proof. intros _. destruct Hwf. unfold attr_ofs, first_ofs. pose proof (zlen_nonneg (concat a1)). lia. Qed.

Lemma make_room_spec a1 a2 size : attrs = a1 ++ a2 -> size mod 8 = 0 -> 0 < size < 2 ^ 31 ->
  ntfs_make_room_for_attr (rec_of h0 h1 inst h2 attrs eb slack) (attr_ofs h2 a1) size
  = if zlen slack <? size then Err ENOSPC
    else Ok (rec_with h0 h1 h2 eb inst (rec_used h2 attrs + size) a1 (take (Z.to_nat size) (concat a2 ++ eb ++ slack)) a2 (drop (Z.to_nat size) slack)).
Proof.
  intros E Hs8 Hs. pose proof (rec_used_range _ _ _ _ _ _ _ Hwf) as Hu. pose proof (used_split a1 [] a2 E) as Eu. change (zlen (concat [])) with 0 in Eu.
  pose proof (ofs_range a1 [] a2 E) as Ho. pose proof (zlen_nonneg (concat a2)). pose proof (zlen_nonneg slack). pose proof Hwf as [? ? ? ? ? ? ? Heb ? ? ?].
  unfold ntfs_make_room_for_attr. rewrite align8_id, u32_small by (done || lia). rewrite (in_use_at _ _ _ _ _ _ _ Hwf), (allocated_at _ _ _ _ _ _ _ Hwf). cbn [mbind res_bind].
  rewrite (wraps_small 32), (u32_small (rec_used h2 attrs + size)) by (simpl; lia). rewrite (proj2 (Z.ltb_ge (attr_ofs h2 a1) 0)), (proj2 (Z.ltb_ge (rec_used h2 attrs - 8) _)), (proj2 (Z.eqb_neq size 0)) by lia.
  destruct (Z.ltb_spec (zlen slack) size) as [Hn|Hn]; [by rewrite (proj2 (Z.ltb_lt _ (rec_used h2 attrs + size))) by lia|].
  rewrite (proj2 (Z.ltb_ge _ (rec_used h2 attrs + size))), (proj2 (Z.ltb_ge _ (attr_ofs h2 a1 + size))) by lia. cbn [orb].
  rewrite (rec_is a1 [] a2 E). cbn [concat]. unfold rec_with, memmove. cbn [app].
  set (pre := rec_head h0 h1 inst h2 (rec_used h2 attrs) ++ concat a1).
  assert (zlen pre = attr_ofs h2 a1) as Ep by (unfold pre, attr_ofs; rewrite zlen_app, (rec_head_zlen _ _ _ _ _ _ _ Hwf); lia).
  set (t := concat a2 ++ eb). assert (rec_used h2 attrs - attr_ofs h2 a1 = zlen t) as -> by (unfold t; rewrite zlen_app; lia).
  rewrite (app_assoc (concat a2)), (app_assoc _ (concat a1)). fold t pre. rewrite <- Ep, (aslice_mid pre t slack) by done. cbn [mbind res_bind].
  pose proof (overwrite pre [] t slack size) as Ew. cbn [app] in Ew. rewrite Ew by (rewrite ?zlen_app; lia). cbn [mbind res_bind].
  rewrite drop_app_ge by (unfold zlen; lia). replace (Z.to_nat (size + zlen t) - length t)%nat with (Z.to_nat size) by (unfold zlen; lia).
  unfold pre. rewrite <- (app_assoc _ (concat a1)), put_in_use by lia. unfold t. by rewrite <- !app_assoc.
Qed.
(** The attribute [b] with [n] bytes, and the unused part behind the record then. *)
Definition resized (n : Z) (b t : list Z) : list Z := take (Z.to_nat n) (b ++ t ++ slack).
Definition slack_after (n : Z) (b t : list Z) : list Z := drop (Z.to_nat (n + zlen t)) (b ++ t ++ slack).
Definition set_length (n : Z) (b : list Z) : list Z := if 8 <=? n then upd 4 (le_bytes 4 n) b else b.

Definition too_big_root (b : list Z) (n : Z) : bool :=
  (at_type b =? AT_INDEX_ROOT) && (zlen b <? n) && (rec_used h2 attrs + zlen slack <? rec_used h2 attrs - zlen b + n + 120)
  && (rec_used h2 attrs + 120 <=? rec_used h2 attrs + zlen slack).

Lemma resize_spec a1 b a2 n : attrs = a1 ++ b :: a2 -> n mod 8 = 0 -> 0 <= n < 2 ^ 30 ->
  ntfs_attr_record_resize (rec_of h0 h1 inst h2 attrs eb slack) (attr_ofs h2 a1) n
  = if n =? zlen b then Ok (rec_of h0 h1 inst h2 attrs eb slack, Resized)
    else if zlen b + zlen slack <? n then Ok (rec_of h0 h1 inst h2 attrs eb slack, ResizeErr ENOSPC)
    else if too_big_root b n then Ok (rec_of h0 h1 inst h2 attrs eb slack, Filled)
    else Ok (rec_with h0 h1 h2 eb inst (rec_used h2 attrs - zlen b + n) a1
               (set_length n (resized n b (concat a2 ++ eb))) a2 (slack_after n b (concat a2 ++ eb)), Resized).
Proof.
  intros E Hn8 Hn. pose proof (rec_used_range _ _ _ _ _ _ _ Hwf) as Hu. pose proof (used_split a1 [b] a2 E) as Eu. cbn [concat] in Eu. rewrite app_nil_r in Eu.
  pose proof (ofs_range a1 [b] a2 E) as Ho. pose proof (zlen_nonneg (concat a2)). pose proof (zlen_nonneg slack). pose proof Hwf as [? ? ? ? ? ? Hat Heb ? ? ?].
  assert (attr_ok b) as Hb by (rewrite E in Hat; apply Forall_app in Hat as [_ Hat]; by apply Forall_cons_1 in Hat as [Hat _]).
  pose proof (rec_is a1 [b] a2 E) as Er. cbn [concat] in Er. rewrite app_nil_r in Er. unfold rec_with in Er.
  set (pre := rec_head h0 h1 inst h2 (rec_used h2 attrs) ++ concat a1). rewrite (app_assoc _ (concat a1)) in Er. fold pre in Er.
  assert (zlen pre = attr_ofs h2 a1) as Ep by (unfold pre, attr_ofs; rewrite zlen_app, (rec_head_zlen _ _ _ _ _ _ _ Hwf); lia).
  unfold ntfs_attr_record_resize. rewrite (in_use_at _ _ _ _ _ _ _ Hwf), (allocated_at _ _ _ _ _ _ _ Hwf), <- Ep. cbn [mbind res_bind].
  assert (a_length (rec_of h0 h1 inst h2 attrs eb slack) (zlen pre) = Ok (zlen b)) as -> by (rewrite Er; by apply attr_length_at).
  assert (a_type (rec_of h0 h1 inst h2 attrs eb slack) (zlen pre) = Ok (at_type b)) as -> by (rewrite Er; by apply type_at).
  cbn [mbind res_bind]. rewrite align8_id, (u32_small n) by (done || lia). destruct (Z.eqb_spec n (zlen b)) as [|Hne]; [done|].
  pose proof (ao_size b Hb) as Hbs. unfold resident_end in Hbs. rewrite !(u32_small (rec_used h2 attrs - zlen b + n)), !u32_small by lia.
  replace (rec_used h2 attrs + zlen slack <? rec_used h2 attrs - zlen b + n) with (zlen b + zlen slack <? n) by (destruct (Z.ltb_spec (zlen b + zlen slack) n); symmetry; [apply Z.ltb_lt|apply Z.ltb_ge]; lia).
  destruct (Z.ltb_spec (zlen b + zlen slack) n) as [|Hfit]; [done|]. cbn [mbind res_bind]. fold (too_big_root b n). destruct (too_big_root b n); [done|].
  rewrite (proj2 (Z.ltb_ge (rec_used h2 attrs) _)) by lia. unfold memmove.
  set (t := concat a2 ++ eb). assert (rec_used h2 attrs - zlen pre - zlen b = zlen t) as -> by (unfold t; rewrite zlen_app; lia).
  rewrite (app_assoc (concat a2)) in Er. fold t in Er. rewrite Er at 1. rewrite (app_assoc pre b), (aslice_mid (pre ++ b) t slack) by (rewrite ?zlen_app; lia).
  cbn [mbind res_bind]. rewrite Er, overwrite by (rewrite ?zlen_app; lia). fold (resized n b t) (slack_after n b t). cbn [mbind res_bind].
  unfold pre. rewrite <- (app_assoc _ (concat a1)), put_in_use by lia. cbn [mbind res_bind].
  rewrite (app_assoc _ (concat a1)). set (pre' := rec_head h0 h1 inst h2 _ ++ concat a1).
  assert (zlen pre = zlen pre') as Ep' by (unfold pre, pre'; rewrite !zlen_app, !(rec_head_zlen _ _ _ _ _ _ _ Hwf); done).
  unfold set_length. destruct (Z.leb_spec 8 n).
  - fold pre. rewrite Ep', (put_at 4 4).
    + cbn [mbind res_bind]. unfold pre', rec_with, t. by rewrite <- !app_assoc.
    + unfold resized. rewrite length_take, !length_app. unfold zlen in *. lia.
  - cbn [mbind res_bind]. unfold pre', rec_with, t. by rewrite <- !app_assoc.
Qed.
Lemma rec_wf_change inst' attrs' slack' : 0 <= inst' < 65536 -> Forall attr_ok attrs' -> bytes slack' ->
  zlen (concat attrs') + zlen slack' = zlen (concat attrs) + zlen slack -> rec_wf h0 h1 inst' h2 attrs' eb slack'.
Proof. intros. destruct Hwf as [? ? ? ? Hal ? ? ? ? [? ?] Hsz]. unfold rec_used in *. split; try done; unfold rec_used; [rewrite Hal|]; lia. Qed.

Lemma slack_after_zlen n b t : 0 <= n <= zlen b + zlen slack -> zlen (slack_after n b t) = zlen b + zlen slack - n.
Proof. intros Hn. unfold slack_after. unfold zlen in *. rewrite length_drop, !length_app. lia. Qed.

Lemma tail_bytes a1 b a2 : attrs = a1 ++ b :: a2 -> bytes (b ++ (concat a2 ++ eb) ++ slack) /\ attr_ok b /\ Forall attr_ok a1 /\ Forall attr_ok a2.
Proof.
  intros E. destruct Hwf as [? ? ? ? ? ? Hat ? ? [? ?] ?]. rewrite E in Hat. apply Forall_app in Hat as [? Hat]. apply Forall_cons_1 in Hat as [Hb Ha2].
  split; [|done]. repeat apply Forall_app_2; try done; [apply Hb|by apply concat_bytes].
Qed.

(** ** Removal *)

Lemma remove_spec a1 b a2 : attrs = a1 ++ b :: a2 ->
  exists slack', attr_record_remove (rec_of h0 h1 inst h2 attrs eb slack) (attr_ofs h2 a1)
    = Ok (rec_of h0 h1 inst h2 (a1 ++ a2) eb slack', bool_decide (a1 ++ a2 = [])) /\
    rec_wf h0 h1 inst h2 (a1 ++ a2) eb slack'.
Proof.
  intros E. exists (slack_after 0 b (concat a2 ++ eb)). destruct (tail_bytes a1 b a2 E) as (Hbt & Hb & Ha1 & Ha2). pose proof (zlen_nonneg slack).
  assert (rec_wf h0 h1 inst h2 (a1 ++ a2) eb (slack_after 0 b (concat a2 ++ eb))) as Hwf'.
  { apply rec_wf_change; [apply Hwf|by apply Forall_app_2|by apply Forall_drop|]. pose proof (zlen_nonneg b). rewrite slack_after_zlen by lia.
    rewrite E, !concat_app, !zlen_app. cbn [concat]. rewrite zlen_app. lia. }
  split; [|done]. unfold attr_record_remove. rewrite (resize_spec a1 b a2 0) by done. pose proof (ao_size b Hb) as Hs. unfold resident_end in Hs. unfold too_big_root.
  rewrite (proj2 (Z.eqb_neq 0 (zlen b))), (proj2 (Z.ltb_ge (zlen b + _) 0)), (proj2 (Z.ltb_ge (zlen b) 0)) by lia. rewrite andb_false_r. cbn [andb mbind res_bind].
  change (set_length 0 (resized 0 b (concat a2 ++ eb))) with (@nil Z). rewrite rec_with_nil.
  2:{ rewrite E. unfold rec_used. rewrite !concat_app, !zlen_app. cbn [concat]. rewrite zlen_app. lia. }
  rewrite (in_use_at _ _ _ _ _ _ _ Hwf'), (attrs_offset_at _ _ _ _ _ _ _ Hwf'). cbn [mbind res_bind].
  pose proof (rec_used_range _ _ _ _ _ _ _ Hwf') as Hu. pose proof (zlen_nonneg (concat (a1 ++ a2))). pose proof (zlen_nonneg h2). unfold rec_used, first_ofs in *. rewrite u32_small by lia. do 2 f_equal.
  destruct (a1 ++ a2) as [|c l]; [rewrite bool_decide_eq_true_2 by done; apply Z.eqb_eq; change (zlen (concat [])) with 0; lia|]. rewrite bool_decide_eq_false_2 by done. apply Z.eqb_neq.
  pose proof (rw_attrs _ _ _ _ _ _ _ Hwf') as Hc. apply Forall_cons_1 in Hc as [Hc _]. pose proof (ao_size c Hc) as Hcs. unfold resident_end in Hcs.
  cbn [concat]. rewrite zlen_app. pose proof (zlen_nonneg (concat l)). lia.
Qed.
End ops.
