(* ===== verification/AttrValueThm.v ===== *)
(** Resizing the value of a resident attribute: the value is cut or extended
    with zeros, and nothing else of the record changes. *)

From S2P Require Import Prelude Bytes Fields Unistr Collate IndexNode AttrDef AttrRec AttrFind AttrRecThm.

(** Where the value is: an attribute without value gets it behind its name. *)
Definition value_start (b : list Z) : Z :=
  if at_value_length b =? 0 then Z.lor (resident_end + at_name_length b * 2 - 1) 7 + 1 else at_value_offset b.

(** A resident attribute: first the header, then the name, then the value. *)
Record resident_ok (b : list Z) : Prop := {
  rs_ok : attr_ok b;
  rs_resident : at_non_resident b = 0;
  rs_start : resident_end <= value_start b;
  rs_name : at_name_length b = 0 \/ (at_name_offset b = resident_end /\ resident_end + 2 * at_name_length b <= value_start b)
}.

(** What the resized attribute has in common with [b]. *)
Record same_attr (b b' : list Z) : Prop := {
  sa_type : at_type b' = at_type b;
  sa_name : at_name b' = at_name b;
  sa_name_length : at_name_length b' = at_name_length b;
  sa_flags : fld 4 12 b' = fld 4 12 b;
  sa_resident : at_non_resident b' = at_non_resident b
}.

(** * Proofs *)

(** Two attributes with the same bytes but for the length, the place and length
    of the value, and the bytes from [k] on. *)
Definition agree (k : nat) (b b' : list Z) : Prop :=
  forall n f, (f + n <= k)%nat -> (f + n <= 4 \/ (8 <= f /\ f + n <= 16) \/ 24 <= f)%nat -> take n (drop f b') = take n (drop f b).

Lemma agree_trans k b1 b2 b3 : agree k b1 b2 -> agree k b2 b3 -> agree k b1 b3.
Proof. intros H1 H2 n f Hk Hf. by rewrite H2, H1. Qed.

Lemma agree_le k k' b b' : (k' <= k)%nat -> agree k b b' -> agree k' b b'.
Proof. intros Hk H n f Hf Hd. apply H; [lia|done]. Qed.

Lemma agree_fld k b b' n f : agree k b b' -> (f + n <= k)%nat -> (f + n <= 4 \/ (8 <= f /\ f + n <= 16) \/ 24 <= f)%nat -> fld n f b' = fld n f b.
Proof. intros H ? ?. unfold fld. by rewrite H. Qed.

Lemma agree_upd k f l b : (f + length l <= length b)%nat -> (4 <= f /\ f + length l <= 8 \/ 16 <= f /\ f + length l <= 24 \/ k <= f)%nat -> (24 <= k)%nat -> agree k b (upd f l b).
Proof. intros Hb Hf Hk n g Hg Hd. apply seg_upd_other; [done|lia]. Qed.

Lemma agree_take k b c : (k <= length b)%nat -> agree k b (take k (b ++ c)).
Proof.
  intros Hk n f Hf _. rewrite !take_drop_commute, take_take, take_app_le by lia. by replace ((f + n) `min` k)%nat with (f + n)%nat by lia.
Qed.

Lemma agree_same k b b' : resident_ok b -> agree k b b' -> (Z.to_nat (value_start b) <= k)%nat -> (24 <= k)%nat -> same_attr b b'.
Proof.
  intros Hr Ha Hk H24. assert (at_name_length b' = at_name_length b) as En by (apply (agree_fld k); [done|lia..]).
  assert (at_name_offset b' = at_name_offset b) as Eo by (apply (agree_fld k); [done|lia..]).
  split; [apply (agree_fld k); [done|lia..]| |done|apply (agree_fld k); [done|lia..]|apply (agree_fld k); [done|lia..]].
  unfold at_name. rewrite En, Eo. pose proof (name_length_range b (rs_ok b Hr)). pose proof (name_offset_range b (rs_ok b Hr)).
  destruct (rs_name b Hr) as [->|[Hn1 Hn2]]; [done|]. unfold resident_end in *. rewrite Ha; [done|lia|lia].
Qed.

Lemma value_start_range b : resident_ok b -> 24 <= value_start b <= zlen b /\ value_start b < 65536 /\ value_start b + at_value_length b <= zlen b.
Proof.
  intros Hr. pose proof (rs_ok b Hr) as Hb. pose proof (rs_start b Hr). unfold value_start in *. unfold resident_end in *.
  pose proof (name_length_range b Hb). pose proof (value_offset_range b Hb). pose proof (value_length_range b Hb). pose proof (ao_value b Hb (rs_resident b Hr)).
  pose proof (ao_align b Hb). pose proof (ao_size b Hb) as Hs. unfold resident_end in Hs.
  destruct (Z.eqb_spec (at_value_length b) 0) as [E|]; [|lia]. pose proof (round_up (24 + at_name_length b * 2) 3 ltac:(lia)) as Er. change (2 ^ 3 - 1) with 7 in Er. change (2 ^ 3) with 8 in Er. rewrite Er in *.
  assert (24 + at_name_length b * 2 <= zlen b) by (pose proof (rs_name b Hr); pose proof (ao_name b Hb); unfold resident_end in *; lia).
  rewrite E. clear -H0 H H4 H5. dlia.
Qed.

Lemma name_end_range b : attr_ok b -> resident_end + 2 * at_name_length b <= Z.lor (resident_end + at_name_length b * 2 - 1) 7 + 1.
Proof.
  intros Hb. pose proof (name_length_range b Hb). unfold resident_end. pose proof (round_up (24 + at_name_length b * 2) 3 ltac:(lia)) as Er.
  change (2 ^ 3 - 1) with 7 in Er. change (2 ^ 3) with 8 in Er. rewrite Er. dlia.
Qed.

(** ** The attribute with the offset of the value set, and with its new value *)

Definition start_set (b : list Z) : list Z := if at_value_length b =? 0 then upd 20 (le_bytes 2 (value_start b)) b else b.

Definition with_value (new_size : Z) (b : list Z) : list Z :=
  upd 16 (le_bytes 4 new_size)
    (if at_value_length b <? new_size
     then upd (Z.to_nat (at_value_offset b + at_value_length b)) (replicate (Z.to_nat (new_size - at_value_length b)) 0) b else b).

Lemma start_set_spec b : resident_ok b -> zlen (start_set b) = zlen b /\ attr_ok (start_set b) /\ (forall k, (24 <= k)%nat -> agree k b (start_set b)) /\
  at_value_offset (start_set b) = value_start b /\ at_value_length (start_set b) = at_value_length b.
Proof.
  intros Hr. destruct (value_start_range b Hr) as (Hv & Hv' & Hv2). pose proof (rs_ok b Hr) as Hb. pose proof (attr_length_nat b Hb) as Hl. unfold start_set.
  assert (at_value_length b <> 0 -> at_value_offset b = value_start b) as Hvo by (intros; unfold value_start; by rewrite (proj2 (Z.eqb_neq (at_value_length b) 0))).
  destruct (Z.eqb_spec (at_value_length b) 0) as [E|E].
  2:{ split; [done|]. split; [done|]. split; [done|]. split; [by apply Hvo|done]. }
  set (b' := upd _ _ b). assert (zlen b' = zlen b) as Ez by (apply upd_field_zlen; rewrite le_bytes_length; lia).
  assert (forall n f, (f + n <= 20 \/ 22 <= f)%nat -> fld n f b' = fld n f b) as Hf by (intros; apply fld_upd_other; rewrite le_bytes_length; lia).
  assert (at_value_offset b' = value_start b) as Evo by (apply fld_upd_same; [lia|change (256 ^ Z.of_nat 2) with 65536; lia]).
  split; [done|]. split; [|split; [|split; [done|apply Hf; lia]]].
  - destruct Hb. split; rewrite ?Ez; try done; [by apply upd_bytes; [apply le_bytes_bytes|]|rewrite <- ao_length; apply Hf; lia|unfold at_type; rewrite Hf by lia; done| |].
    + unfold at_name_length, at_name_offset. rewrite !Hf by lia. done.
    + intros _. rewrite Evo. unfold at_value_length. rewrite Hf by lia. fold (at_value_length b). lia.
  - intros k Hk. apply agree_upd; rewrite ?le_bytes_length; lia.
Qed.

Section grow.
Context (b b2 : list Z) (new_size : Z) (Hr : resident_ok b) (Hnew : 0 <= new_size < 2 ^ 32).
Context (Hbytes : bytes b2) (Halign : zlen b2 mod 8 = 0) (Hlength : at_length b2 = zlen b2) (Hfit : value_start b + new_size <= zlen b2).
Context (Hagree : agree (length b `min` length b2) b b2) (Hvo : at_value_offset b2 = value_start b) (Hvl : at_value_length b2 = at_value_length b).

Lemma grow_zlen : zlen (with_value new_size b2) = zlen b2.
Proof.
  destruct (value_start_range b Hr) as (Hv & _). pose proof (value_length_range b (rs_ok b Hr)). unfold with_value. rewrite Hvl, Hvo.
  destruct (Z.ltb_spec (at_value_length b) new_size).
  - rewrite !upd_field_zlen; [done|rewrite length_replicate; unfold zlen in *; lia|]. rewrite upd_length, le_bytes_length; [unfold zlen in *; lia|]. rewrite length_replicate. unfold zlen in *. lia.
  - rewrite upd_field_zlen; [done|]. rewrite le_bytes_length. unfold zlen in *. lia.
Qed.

(** The part of the value that stays. *)
Definition kept : Z := Z.min (at_value_length b) new_size.

Lemma grow_agree : agree (Z.to_nat (value_start b + kept)) b (with_value new_size b2).
Proof.
  destruct (value_start_range b Hr) as (Hv & _ & Hv2). pose proof (value_length_range b (rs_ok b Hr)). unfold zlen, kept in *.
  eapply agree_trans; [eapply agree_le; [|exact Hagree]; lia|]. unfold with_value. rewrite Hvl, Hvo. destruct (Z.ltb_spec (at_value_length b) new_size).
  - eapply agree_trans; [|apply agree_upd]; [apply agree_upd|..]; rewrite ?le_bytes_length; rewrite ?upd_length; rewrite ?length_replicate; lia.
  - apply agree_upd; rewrite ?le_bytes_length; lia.
Qed.

Lemma with_value_fld n f : (f + n <= 16 \/ (20 <= f /\ f + n <= 24))%nat -> fld n f (with_value new_size b2) = fld n f b2.
Proof.
  intros Hf. destruct (value_start_range b Hr) as (Hv & _). pose proof (value_length_range b (rs_ok b Hr)). unfold with_value. rewrite Hvl, Hvo. unfold zlen in *.
  destruct (Z.ltb_spec (at_value_length b) new_size); rewrite !fld_upd_other; rewrite ?upd_length; rewrite ?le_bytes_length; rewrite ?length_replicate; try done; lia.
Qed.

Lemma with_value_length : at_value_length (with_value new_size b2) = new_size.
Proof.
  destruct (value_start_range b Hr) as (Hv & _). pose proof (value_length_range b (rs_ok b Hr)). unfold with_value. rewrite Hvl, Hvo. unfold zlen in *.
  apply fld_upd_same; [|done]. destruct (Z.ltb_spec (at_value_length b) new_size); rewrite ?upd_length; rewrite ?length_replicate; lia.
Qed.

(** The new part is clear. *)
Lemma grow_clear : at_value_length b < new_size ->
  take (Z.to_nat (new_size - at_value_length b)) (drop (Z.to_nat (value_start b + at_value_length b)) (with_value new_size b2))
  = replicate (Z.to_nat (new_size - at_value_length b)) 0.
Proof.
  intros Hlt. destruct (value_start_range b Hr) as (Hv & _). pose proof (value_length_range b (rs_ok b Hr)). unfold with_value. rewrite Hvl, Hvo. unfold zlen in *.
  rewrite (proj2 (Z.ltb_lt _ _)) by done. rewrite seg_upd_other by (rewrite ?upd_length; rewrite ?le_bytes_length; rewrite ?length_replicate; lia).
  set (z := replicate _ 0). replace (Z.to_nat (new_size - at_value_length b)) with (length z) at 1 by (unfold z; by rewrite length_replicate).
  apply seg_upd_same. unfold z. rewrite length_replicate. lia.
Qed.

Lemma grow_value : at_value (with_value new_size b2) = take (Z.to_nat new_size) (at_value b ++ replicate (Z.to_nat new_size) 0).
Proof.
  destruct (value_start_range b Hr) as (Hv & _ & Hv2). pose proof (value_length_range b (rs_ok b Hr)) as Hl.
  assert (at_value b = take (Z.to_nat (at_value_length b)) (drop (Z.to_nat (value_start b)) b)) as Eb.
  { unfold at_value, value_start. destruct (Z.eqb_spec (at_value_length b) 0) as [->|]; done. }
  assert (length (at_value b) = Z.to_nat (at_value_length b)) as El by (rewrite Eb, length_take, length_drop; unfold zlen in *; lia).
  unfold at_value at 1. rewrite with_value_length. unfold at_value_offset at 1. rewrite with_value_fld by lia. fold (at_value_offset b2). rewrite Hvo.
  pose proof (grow_agree (Z.to_nat kept) (Z.to_nat (value_start b))) as Ha. unfold kept in Ha.
  destruct (Z_le_gt_dec new_size (at_value_length b)) as [Hle|Hgt].
  - replace (at_value_length b `min` new_size) with new_size in Ha by lia. rewrite Ha by lia. rewrite take_app_le by lia. rewrite Eb, take_take. f_equal. lia.
  - replace (at_value_length b `min` new_size) with (at_value_length b) in Ha by lia.
    replace (Z.to_nat new_size) with (Z.to_nat (at_value_length b) + Z.to_nat (new_size - at_value_length b))%nat by lia.
    rewrite <- take_take_drop, Ha by lia. rewrite drop_drop. replace (Z.to_nat (value_start b) + Z.to_nat (at_value_length b))%nat with (Z.to_nat (value_start b + at_value_length b)) by lia.
    rewrite grow_clear, <- Eb by lia. rewrite take_app_ge by lia. f_equal. rewrite take_replicate. f_equal. lia.
Qed.

Lemma with_value_bytes : bytes (with_value new_size b2).
Proof.
  unfold with_value. apply upd_bytes; [apply le_bytes_bytes|]. destruct (_ <? _); [|done]. apply upd_bytes; [|done]. apply Forall_replicate. lia.
Qed.
Lemma grow_same : same_attr b (with_value new_size b2).
Proof.
  destruct (value_start_range b Hr) as (Hv & _ & Hv2). pose proof (value_length_range b (rs_ok b Hr)).
  apply (agree_same (Z.to_nat (value_start b + kept))); [done|apply grow_agree|unfold kept; lia..].
Qed.

Lemma grow_ok : resident_ok (with_value new_size b2).
Proof.
  destruct (value_start_range b Hr) as (Hv & _ & Hv2). pose proof (rs_ok b Hr) as Hb. pose proof (value_length_range b Hb). destruct grow_same as [Et _ En _ Ers].
  assert (at_name_offset (with_value new_size b2) = at_name_offset b) as Eo.
  { apply (agree_fld (Z.to_nat (value_start b + kept))); [apply grow_agree|unfold kept; lia..]. }
  assert (at_value_offset (with_value new_size b2) = value_start b) as Evo by (unfold at_value_offset; by rewrite with_value_fld by lia).
  assert (attr_ok (with_value new_size b2)) as Hok.
  { split; rewrite ?grow_zlen, ?Et, ?En, ?Eo, ?Evo, ?with_value_length; try done; [apply with_value_bytes|unfold resident_end; lia|unfold at_length; rewrite with_value_fld by lia; done|apply Hb|].
    destruct (rs_name b Hr) as [?|[-> ?]]; [by left|right; lia]. }
  pose proof (name_end_range _ Hok) as Hn. pose proof (rs_name b Hr) as Hbn. split; [done|by rewrite Ers; apply Hr|..]; unfold value_start at 1; rewrite with_value_length, Evo.
  - destruct (new_size =? 0); [|by apply Hr]. pose proof (name_length_range _ Hok). lia.
  - rewrite Eo, En in *. destruct Hbn as [?|[? ?]]; [by left|right]. split; [done|]. destruct (new_size =? 0); lia.
Qed.
End grow.

(** ** The record *)

Section value_resize.
Context (h0 h1 : list Z) (inst : Z) (h2 : list Z) (a1 : list (list Z)) (a2 : list (list Z)) (eb : list Z).

Lemma in_place (b slack : list Z) : zlen h0 = 24 -> zlen h1 = 12 -> exists pre post : list Z, zlen pre = attr_ofs h2 a1 /\
  forall b' : list Z, zlen b' = zlen b -> rec_of h0 h1 inst h2 (a1 ++ b' :: a2) eb slack = pre ++ b' ++ post.
Proof.
  intros H0 H1. exists (rec_head h0 h1 inst h2 (rec_used h2 (a1 ++ b :: a2)) ++ concat a1), (concat a2 ++ eb ++ slack). split.
  - unfold attr_ofs, first_ofs, rec_head. rewrite !zlen_app, !le_bytes_zlen. lia.
  - intros b' El. unfold rec_of. assert (rec_used h2 (a1 ++ b' :: a2) = rec_used h2 (a1 ++ b :: a2)) as ->.
    { unfold rec_used. rewrite !concat_app. cbn [concat]. rewrite !zlen_app. lia. }
    rewrite concat_app. cbn [concat]. by rewrite <- !app_assoc.
Qed.

Lemma set_value_offset_spec b slack : zlen h0 = 24 -> zlen h1 = 12 -> resident_ok b ->
  set_value_offset (rec_of h0 h1 inst h2 (a1 ++ b :: a2) eb slack) (attr_ofs h2 a1) = Ok (rec_of h0 h1 inst h2 (a1 ++ start_set b :: a2) eb slack).
Proof.
  intros H0 H1 Hr. destruct (in_place b slack H0 H1) as (pre & post & Ep & Eb). pose proof (rs_ok b Hr) as Hb. pose proof (attr_length_nat b Hb).
  destruct (start_set_spec b Hr) as (Ez & _). rewrite (Eb b eq_refl), (Eb _ Ez), <- Ep. unfold set_value_offset, start_set. rewrite value_length_at, name_length_at by done.
  cbn [mbind res_bind]. unfold value_start. destruct (Z.eqb_spec (at_value_length b) 0) as [E|E]; [|done]. apply (put_at 2 20). lia.
Qed.

Lemma finish_spec b b2 new_size slack : zlen h0 = 24 -> zlen h1 = 12 -> resident_ok b -> 0 <= new_size < 2 ^ 32 -> value_start b + new_size <= zlen b2 ->
  at_value_offset b2 = value_start b -> at_value_length b2 = at_value_length b ->
  (m ← clear_value (rec_of h0 h1 inst h2 (a1 ++ b2 :: a2) eb slack) (attr_ofs h2 a1) new_size; m ← put_le 4 m (attr_ofs h2 a1 + 16) new_size; Ok (m, Resized))
  = Ok (rec_of h0 h1 inst h2 (a1 ++ with_value new_size b2 :: a2) eb slack, Resized).
Proof.
  intros H0 H1 Hr Hn Hfit Hvo Hvl. destruct (in_place b2 slack H0 H1) as (pre & post & Ep & Eb).
  destruct (value_start_range b Hr) as (Hv & _). pose proof (value_length_range b (rs_ok b Hr)).
  assert (24 <= length b2)%nat by (unfold zlen in *; lia). rewrite (Eb b2 eq_refl), <- Ep. unfold clear_value, a_value_length, a_value_offset.
  pose proof (fld_at 4 16 pre b2 post ltac:(lia)) as E1. change (Z.of_nat 16) with 16 in E1. change (Z.of_nat 4) with 4 in E1. rewrite E1. fold (at_value_length b2). rewrite Hvl.
  pose proof (fld_at 2 20 pre b2 post ltac:(lia)) as E2. change (Z.of_nat 20) with 20 in E2. change (Z.of_nat 2) with 2 in E2. rewrite E2. fold (at_value_offset b2). rewrite Hvo.
  cbn [mbind res_bind].
  assert (forall x, zlen x = zlen b2 -> (m ← Ok (pre ++ x ++ post); m ← put_le 4 m (zlen pre + 16) new_size; Ok (m, Resized)) = Ok (pre ++ upd 16 (le_bytes 4 new_size) x ++ post, Resized)) as Hput.
  { intros x Ex. cbn [mbind res_bind]. pose proof (put_at 4 16 new_size pre x post) as E. change (Z.of_nat 16) with 16 in E. rewrite E by (unfold zlen in *; lia). done. }
  rewrite Eb by (eapply grow_zlen; done). unfold with_value. rewrite Hvl, Hvo. destruct (Z.ltb_spec (at_value_length b) new_size); [|by apply Hput].
  replace (zlen pre + value_start b + at_value_length b) with (zlen pre + Z.of_nat (Z.to_nat (value_start b + at_value_length b))) by lia.
  rewrite awrite_at by (rewrite length_replicate; unfold zlen in *; lia). apply Hput. apply upd_field_zlen. rewrite length_replicate. unfold zlen in *. lia.
Qed.

(** The attribute resized to [n] bytes. *)
Lemma resized_attr (b1 b t slack : list Z) n : attr_ok b1 -> bytes (b1 ++ t ++ slack) -> zlen b1 = zlen b -> 24 <= n <= zlen (b1 ++ t ++ slack) -> n mod 8 = 0 -> n < 2 ^ 30 ->
  let b2 := set_length n (resized slack n b1 t) in
  zlen b2 = n /\ bytes b2 /\ at_length b2 = n /\ agree (length b `min` length b2) b1 b2 /\ (forall k f, (8 <= f /\ f + k <= 24)%nat -> fld k f b2 = fld k f b1).
Proof.
  intros Hb1 Hbytes Ez Hn Hn8 Hn30. cbn zeta. unfold set_length, resized. rewrite (proj2 (Z.leb_le 8 n)) by lia. set (y := take _ _).
  assert (length y = Z.to_nat n) as Ely by (unfold y; rewrite length_take; unfold zlen in *; lia). pose proof (attr_length_nat b1 Hb1).
  assert (length (upd 4 (le_bytes 4 n) y) = Z.to_nat n) as El by (rewrite upd_length; rewrite ?le_bytes_length; lia).
  split; [unfold zlen; lia|]. split; [apply upd_bytes; [apply le_bytes_bytes|by apply Forall_take]|].
  split; [apply fld_upd_same; [lia|change (256 ^ Z.of_nat 4) with 4294967296; lia]|]. unfold zlen in *. split.
  - rewrite El. eapply agree_trans; [|apply agree_upd; rewrite ?le_bytes_length; lia].
    intros k f Hk Hf. unfold y. rewrite !take_drop_commute, take_take. replace ((f + k) `min` Z.to_nat n)%nat with (f + k)%nat by lia. by rewrite take_app_le by lia.
  - intros k f Hf. rewrite fld_upd_other by (rewrite ?le_bytes_length; lia). unfold y. rewrite fld_take by lia. by rewrite fld_app by lia.
Qed.
Lemma swap_wf b b1 slack : rec_wf h0 h1 inst h2 (a1 ++ b :: a2) eb slack -> attr_ok b1 -> zlen b1 = zlen b -> rec_wf h0 h1 inst h2 (a1 ++ b1 :: a2) eb slack.
Proof.
  intros Hwf Hb1 Ez. pose proof Hwf as [? ? ? ? ? ? Hat ? ? [? ?] ?]. apply Forall_app in Hat as [? Hat]. apply Forall_cons_1 in Hat as [_ ?].
  apply (rec_wf_change _ _ _ _ _ _ _ Hwf); [done|by apply Forall_app_2; [|constructor]|done|]. rewrite !concat_app. cbn [concat]. rewrite !zlen_app. lia.
Qed.

(** The record with [b] resized to [n] bytes. *)
Lemma resize_record b1 slack n : rec_wf h0 h1 inst h2 (a1 ++ b1 :: a2) eb slack -> n mod 8 = 0 -> 24 <= n < 2 ^ 30 -> n <= zlen b1 + zlen slack ->
  exists b2 slack', (n = zlen b1 \/ too_big_root h2 (a1 ++ b1 :: a2) slack b1 n = false ->
    ntfs_attr_record_resize (rec_of h0 h1 inst h2 (a1 ++ b1 :: a2) eb slack) (attr_ofs h2 a1) n = Ok (rec_of h0 h1 inst h2 (a1 ++ b2 :: a2) eb slack', Resized)) /\
  zlen b2 = n /\ bytes b2 /\ at_length b2 = n /\ agree (length b1 `min` length b2) b1 b2 /\ (forall k f, (8 <= f /\ f + k <= 24)%nat -> fld k f b2 = fld k f b1) /\
  bytes slack' /\ n + zlen slack' = zlen b1 + zlen slack.
Proof.
  intros Hwf Hn8 Hn Hfit. destruct (tail_bytes _ _ _ _ _ _ _ Hwf a1 b1 a2 eq_refl) as (Hbt & Hb & _ & _). pose proof (zlen_nonneg slack).
  pose proof (resize_spec _ _ _ _ _ _ _ Hwf a1 b1 a2 n eq_refl Hn8 ltac:(lia)) as Er. destruct (Z.eqb_spec n (zlen b1)) as [->|Hne].
  - exists b1, slack. split; [done|]. split_and!; try done; [apply Hb|apply Hb|apply Hwf].
  - exists (set_length n (resized slack n b1 (concat a2 ++ eb))), (slack_after slack n b1 (concat a2 ++ eb)).
    assert (n <= zlen (b1 ++ (concat a2 ++ eb) ++ slack)) as Hn' by (rewrite !zlen_app; pose proof (zlen_nonneg (concat a2)); pose proof (zlen_nonneg eb); lia).
    destruct (resized_attr b1 b1 (concat a2 ++ eb) slack n Hb Hbt eq_refl ltac:(lia) Hn8 ltac:(lia)) as (Ez & ? & ? & ? & ?). split.
    + intros [?|Hroot]; [done|]. rewrite Er, (proj2 (Z.ltb_ge _ n)), Hroot by lia. rewrite rec_with_attr; [done|].
      unfold rec_used. rewrite !concat_app. cbn [concat]. rewrite !zlen_app, Ez. lia.
    + split_and!; try done; [by apply Forall_drop|]. rewrite slack_after_zlen by lia. lia.
Qed.
End value_resize.

(** The bytes that the attribute takes with a value of [new_size] bytes. *)
Definition size_with (b : list Z) (new_size : Z) : Z := align8 (value_start b + new_size).

Lemma too_big_start h2 a1 b a2 slack n : resident_ok b -> too_big_root h2 (a1 ++ start_set b :: a2) slack (start_set b) n = too_big_root h2 (a1 ++ b :: a2) slack b n.
Proof.
  intros Hr. destruct (start_set_spec b Hr) as (Ez & _ & Ha & _). unfold too_big_root, rec_used. rewrite !concat_app. cbn [concat]. rewrite !zlen_app, Ez.
  unfold at_type. by rewrite (agree_fld 24 b (start_set b) 4 0) by (lia || (apply Ha; lia)).
Qed.

Section value_resize_thm.
Context (h0 h1 : list Z) (inst : Z) (h2 : list Z) (a1 : list (list Z)) (b : list Z) (a2 : list (list Z)) (eb slack : list Z) (new_size : Z).
Hypothesis Hwf : rec_wf h0 h1 inst h2 (a1 ++ b :: a2) eb slack.
Hypothesis Hr : resident_ok b.
Hypothesis Hnew : 0 <= new_size < 2 ^ 30 - 2 ^ 17.

Lemma size_with_range : size_with b new_size mod 8 = 0 /\ 24 <= size_with b new_size < 2 ^ 30 /\ value_start b + new_size <= size_with b new_size.
Proof. destruct (value_start_range b Hr) as (? & ? & _). destruct (align8_spec (value_start b + new_size)) as [? ?]. unfold size_with. lia. Qed.

Lemma value_resize_ok : size_with b new_size <= zlen b + zlen slack -> size_with b new_size = zlen b \/ too_big_root h2 (a1 ++ b :: a2) slack b (size_with b new_size) = false ->
  exists b' slack', ntfs_resident_attr_value_resize (rec_of h0 h1 inst h2 (a1 ++ b :: a2) eb slack) (attr_ofs h2 a1) new_size
    = Ok (rec_of h0 h1 inst h2 (a1 ++ b' :: a2) eb slack', Resized) /\
  rec_wf h0 h1 inst h2 (a1 ++ b' :: a2) eb slack' /\ resident_ok b' /\ same_attr b b' /\
  at_value b' = take (Z.to_nat new_size) (at_value b ++ replicate (Z.to_nat new_size) 0).
Proof.
  intros Hfit Hroot. destruct size_with_range as (Hn8 & Hn & Hv). destruct (start_set_spec b Hr) as (Ez & Hok1 & Ha1 & Evo & Evl). pose proof Hwf as [E0 E1 ? ? ? ? Hat ? ? ? ?].
  pose proof (swap_wf _ _ _ _ _ _ _ b (start_set b) slack Hwf Hok1 Ez) as Hwf1. rewrite <- Ez in Hfit, Hroot. rewrite <- too_big_start in Hroot by done.
  destruct (resize_record h0 h1 inst h2 a1 a2 eb (start_set b) slack _ Hwf1 Hn8 Hn Hfit) as (b2 & slack' & Er & Ez2 & Hb2 & El2 & Hag & Hf2 & Hs' & Esz). specialize (Er Hroot).
  assert (length (start_set b) = length b) as Elb by (unfold zlen in Ez; lia).
  assert (24 <= length b `min` length b2)%nat by (pose proof (attr_length_nat b (rs_ok b Hr)); unfold zlen in *; lia).
  assert (agree (length b `min` length b2) b b2) as Hagb by (eapply agree_trans; [by apply Ha1|by rewrite <- Elb]).
  assert (at_value_offset b2 = value_start b) as Evo2 by (rewrite <- Evo; apply Hf2; lia). assert (at_value_length b2 = at_value_length b) as Evl2 by (rewrite <- Evl; apply Hf2; lia).
  exists (with_value new_size b2), slack'. destruct (value_start_range b Hr) as (Hvs & _). split; [|split].
  - unfold ntfs_resident_attr_value_resize. rewrite set_value_offset_spec by done. cbn [mbind res_bind].
    assert (a_value_offset (rec_of h0 h1 inst h2 (a1 ++ start_set b :: a2) eb slack) (attr_ofs h2 a1) = Ok (value_start b)) as ->.
    { destruct (in_place h0 h1 inst h2 a1 a2 eb (start_set b) slack E0 E1) as (pre & post & <- & Epl). rewrite (Epl _ eq_refl), value_offset_at by done. by rewrite Evo. }
    cbn [mbind res_bind]. fold (size_with b new_size). rewrite (u32_small (size_with b new_size)) by lia. rewrite Er. cbn [mbind res_bind]. apply (finish_spec _ _ _ _ _ _ _ b); try done; lia.
  - assert (resident_ok (with_value new_size b2)) as [Hok _] by (apply (grow_ok b); (done || lia || by rewrite ?Ez2)). apply Forall_app in Hat as [? Hat]. apply Forall_cons_1 in Hat as [_ ?].
    apply (rec_wf_change _ _ _ _ _ _ _ Hwf); [done|by apply Forall_app_2; [|constructor]|done|].
    assert (zlen (with_value new_size b2) = zlen b2) as Ew by (apply (grow_zlen b); (done || lia)). rewrite !concat_app. cbn [concat]. rewrite !zlen_app, Ew. lia.
  - split_and!; [apply (grow_ok b)|apply (grow_same b)|apply (grow_value b)]; (done || lia || by rewrite ?Ez2).
Qed.
End value_resize_thm.

(** C31: resizing the value of a resident attribute in a well-formed record always returns.  When it succeeds the
    record is well-formed, the other attributes and their order are as before, the attribute keeps its type, name,
    flags and instance, and its value is the old one cut or extended with zeros.  It is refused with ENOSPC exactly
    when the record has no room, and as filled exactly when the attribute is an index root that would leave less
    than 120 bytes of a record that still had them; then at most the offset of an empty value has changed. *)
Theorem value_resize_correct h0 h1 inst h2 a1 b a2 eb slack new_size :
  rec_wf h0 h1 inst h2 (a1 ++ b :: a2) eb slack -> resident_ok b -> 0 <= new_size < 2 ^ 30 - 2 ^ 17 ->
  let m := rec_of h0 h1 inst h2 (a1 ++ b :: a2) eb slack in
  let n := size_with b new_size in
  let root := too_big_root h2 (a1 ++ b :: a2) slack b n in
  exists m' r, ntfs_resident_attr_value_resize m (attr_ofs h2 a1) new_size = Ok (m', r) /\
  match r with
  | Resized => n <= zlen b + zlen slack /\ (n = zlen b \/ root = false) /\ exists b' slack',
      m' = rec_of h0 h1 inst h2 (a1 ++ b' :: a2) eb slack' /\ rec_wf h0 h1 inst h2 (a1 ++ b' :: a2) eb slack' /\ resident_ok b' /\ same_attr b b' /\
      at_value b' = take (Z.to_nat new_size) (at_value b ++ replicate (Z.to_nat new_size) 0)
  | ResizeErr e => e = ENOSPC /\ zlen b + zlen slack < n /\ m' = rec_of h0 h1 inst h2 (a1 ++ start_set b :: a2) eb slack
  | Filled => n <= zlen b + zlen slack /\ root = true /\ m' = rec_of h0 h1 inst h2 (a1 ++ start_set b :: a2) eb slack
  end.
Proof.
  intros Hwf Hr Hnew. cbn zeta. destruct (size_with_range b new_size Hr Hnew) as (Hn8 & Hn & _). set (n := size_with b new_size) in *.
  destruct (decide (n = zlen b \/ n <= zlen b + zlen slack /\ too_big_root h2 (a1 ++ b :: a2) slack b n = false)) as [Hok|Hno].
  { assert (n <= zlen b + zlen slack) as Hfit by (pose proof (zlen_nonneg slack); lia).
    destruct (value_resize_ok h0 h1 inst h2 a1 b a2 eb slack new_size Hwf Hr Hnew) as (b' & slack' & E & ?); [done|fold n; destruct Hok as [?|[? ?]]; [by left|by right]|].
    do 2 eexists. split; [exact E|]. cbn beta iota. split; [done|]. split; [destruct Hok as [?|[? ?]]; [by left|by right]|]. by exists b', slack'. }
  destruct (start_set_spec b Hr) as (Ez & Hok1 & _ & Evo & _). pose proof (swap_wf _ _ _ _ _ _ _ b (start_set b) slack Hwf Hok1 Ez) as Hwf1. pose proof Hwf as [E0 E1 _ _ _ _ _ _ _ _ _].
  unfold ntfs_resident_attr_value_resize. rewrite set_value_offset_spec by done. cbn [mbind res_bind].
  assert (a_value_offset (rec_of h0 h1 inst h2 (a1 ++ start_set b :: a2) eb slack) (attr_ofs h2 a1) = Ok (value_start b)) as ->.
  { destruct (in_place h0 h1 inst h2 a1 a2 eb (start_set b) slack E0 E1) as (pre & post & <- & Epl). rewrite (Epl _ eq_refl), value_offset_at by done. by rewrite Evo. }
  cbn [mbind res_bind]. change (align8 (value_start b + new_size)) with n. rewrite (u32_small n) by lia.
  rewrite (resize_spec _ _ _ _ _ _ _ Hwf1 a1 (start_set b) a2 n eq_refl Hn8) by lia. rewrite Ez, too_big_start by done.
  destruct (Z.eqb_spec n (zlen b)); [by destruct Hno; left|]. destruct (Z.ltb_spec (zlen b + zlen slack) n) as [Hlt|Hge]; cbn [mbind res_bind].
  - do 2 eexists. done.
  - destruct (too_big_root _ _ _ _ _) eqn:Et; [|by destruct Hno; right]. do 2 eexists. done.
Qed.

Lemma ex_resident : resident_ok ex_attr.
Proof. split; [apply ex_attr_ok|done|done|by left]. Qed.

Lemma value_resize_correct_witness :
  let m := rec_of ex_h0 ex_h1 1 (replicate 6 0) [ex_attr] ex_end (replicate 40 0) in
  exists b' slack', ntfs_resident_attr_value_resize m 48 10 = Ok (rec_of ex_h0 ex_h1 1 (replicate 6 0) [b'] ex_end slack', Resized) /\
    at_value b' = [1; 2; 3; 0; 0; 0; 0; 0; 0; 0].
Proof.
  destruct (value_resize_correct ex_h0 ex_h1 1 (replicate 6 0) [] ex_attr [] ex_end (replicate 40 0) 10 ex_wf ex_resident ltac:(lia)) as (m' & r & E & H).
  destruct r as [| |e].
  - destruct H as (_ & _ & b' & slack' & -> & _ & _ & _ & Hv). exists b', slack'. split; [exact E|]. etransitivity; [exact Hv|]. vm_compute. reflexivity.
  - exfalso. destruct H as (_ & Hroot & _). vm_compute in Hroot. discriminate Hroot.
  - exfalso. destruct H as (_ & Hlt & _). vm_compute in Hlt. discriminate Hlt.
Defined.

(** The comment of [ntfs_resident_attr_value_resize] says that on error nothing
    has been modified; the offset of an empty value has. *)
Theorem value_resize_error_modifies :
  let b := [0x80; 0; 0; 0; 24; 0; 0; 0; 0; 0; 0; 0; 0; 0; 0; 0; 0; 0; 0; 0; 0; 0; 0; 0] in
  let m := rec_of ex_h0 ex_h1 1 (replicate 6 0) [b] ex_end (replicate 48 0) in
  exists m', ntfs_resident_attr_value_resize m 48 100 = Ok (m', ResizeErr ENOSPC) /\ m' <> m.
Proof. eexists. split; [vm_compute; reflexivity|]. vm_compute. discriminate. Qed.
