(* ===== verification/AttrAddThm.v ===== *)
(** Adding an attribute to a record: it is put at the place where the search
    ended, and the search then finds it. *)

From S2P Require Import Prelude Bytes Fields Unistr Collate IndexNode AttrDef AttrRec AttrFind AttrRecThm AttrValueThm.

(** The bytes of a name. *)
Definition name_bytes (s : list Z) : list Z := concat (map (le_bytes 2) s).

Lemma name_bytes_cons c s : name_bytes (c :: s) = le_bytes 2 c ++ name_bytes s.
Proof. done. Qed.

Lemma name_bytes_length s : length (name_bytes s) = (2 * length s)%nat.
Proof. induction s as [|c s IH]; [done|]. rewrite name_bytes_cons, length_app, IH, le_bytes_length. cbn [length]. lia. Qed.

Lemma name_bytes_bytes s : bytes (name_bytes s).
Proof. induction s as [|c s IH]; [constructor|]. rewrite name_bytes_cons. apply Forall_app_2; [apply le_bytes_bytes|done]. Qed.

Lemma name_bytes_chars s : is_name s -> ntfschars (name_bytes s) = s.
Proof.
  induction 1 as [|c s Hc _ IH]; [done|]. rewrite name_bytes_cons. cbn [le_bytes app ntfschars]. rewrite IH. unfold in_u in Hc. f_equal. dlia.
Qed.

(** ** Where the search ends *)

Lemma scan_split cmp attrs : forall o a e, scan cmp o attrs = (a, e) -> exists a1 a2,
  attrs = a1 ++ a2 /\ a = o + zlen (concat a1) /\ Forall (fun b => cmp b = Gt) a1 /\
  match e with None => exists b a2', a2 = b :: a2' /\ cmp b = Eq | Some e => e = ENOENT /\ (a2 = [] \/ exists b a2', a2 = b :: a2' /\ cmp b = Lt) end.
Proof.
  induction attrs as [|b attrs IH]; intros o a e; cbn [scan].
  - intros [= <- <-]. exists [], []. change (zlen (concat [])) with 0. split; [done|]. split; [lia|]. split; [constructor|]. by split; [|left].
  - destruct (cmp b) eqn:Ec.
    + intros [= <- <-]. exists [], (b :: attrs). change (zlen (concat [])) with 0. split; [done|]. split; [lia|]. split; [constructor|]. by exists b, attrs.
    + intros [= <- <-]. exists [], (b :: attrs). change (zlen (concat [])) with 0. split; [done|]. split; [lia|]. split; [constructor|]. split; [done|right; by exists b, attrs].
    + intros (a1 & a2 & -> & -> & Hgt & He)%IH. exists (b :: a1), a2. cbn [concat app]. rewrite zlen_app. split; [done|]. split; [lia|]. split; [by constructor|done].
Qed.

Lemma scan_found cmp a1 b a2 : forall o, Forall (fun b => cmp b = Gt) a1 -> cmp b = Eq -> scan cmp o (a1 ++ b :: a2) = (o + zlen (concat a1), None).
Proof.
  induction a1 as [|c a1 IH]; intros o Hg Hb; cbn [app scan].
  - rewrite Hb. change (zlen (concat [])) with 0. f_equal. lia.
  - apply Forall_cons_1 in Hg as [-> Hg]. rewrite IH by done. cbn [concat]. rewrite zlen_app. f_equal. lia.
Qed.

(** ** The new attribute *)

Section new.
Context (type : Z) (s : list Z) (size flags inst : Z) (v gap : list Z).
Context (Htype : 0 < type < AT_END) (Hs : is_name s) (Hs255 : zlen s < 256) (Hv : bytes v) (Hsize : zlen v = size) (Hflags : 0 <= flags < 65536) (Hinst : 0 <= inst < 65536).
Definition new_size : Z := resident_end + align8 (zlen s * 2) + align8 size.
Context (Hgap : bytes gap) (Hlen : zlen gap = new_size) (Hsmall : new_size < 2 ^ 31).

Definition value_at : Z := resident_end + align8 (zlen s * 2).

Definition header_writes : list (nat * list Z) :=
  [(0%nat, le_bytes 4 type); (4%nat, le_bytes 4 new_size); (8%nat, le_bytes 1 0); (9%nat, le_bytes 1 (zlen s));
   (10%nat, le_bytes 2 (if zlen s =? 0 then 0 else resident_end)); (12%nat, le_bytes 2 flags); (14%nat, le_bytes 2 inst);
   (16%nat, le_bytes 4 size); (20%nat, le_bytes 2 value_at)].
Definition body_writes : list (nat * list Z) :=
  [(Z.to_nat value_at, v); (22%nat, le_bytes 1 (if type =? AT_FILE_NAME then RESIDENT_ATTR_IS_INDEXED else 0))].
Definition name_writes : list (nat * list Z) := if zlen s =? 0 then [] else [(24%nat, name_bytes s)].

Definition new_attr : list Z := writes (header_writes ++ body_writes ++ name_writes) gap.

Lemma sizes : 24 + 2 * zlen s <= value_at < 1024 /\ value_at mod 8 = 0 /\ value_at + zlen v <= zlen gap /\ 24 <= zlen gap /\ zlen gap mod 8 = 0 /\ value_at = new_size - align8 size.
Proof.
  rewrite Hlen. unfold value_at, new_size, resident_end. destruct (align8_spec (zlen s * 2)), (align8_spec size). pose proof (zlen_nonneg s). pose proof (zlen_nonneg v). dlia.
Qed.

Lemma new_fits : fits (length gap) (header_writes ++ body_writes ++ name_writes).
Proof.
  destruct sizes as (H1 & _ & H2 & H3 & _). unfold zlen in *. unfold fits, header_writes, body_writes, name_writes, zlen. apply Forall_app_2; [|apply Forall_app_2].
  - each ltac:(cbn [fst snd]; rewrite le_bytes_length; lia).
  - each ltac:(cbn [fst snd]; rewrite ?le_bytes_length; lia).
  - destruct (_ =? 0); [constructor|]. each ltac:(cbn [fst snd]; rewrite name_bytes_length; lia).
Qed.

Lemma new_length : length new_attr = length gap.
Proof. apply writes_length, new_fits. Qed.

(** A field of the header that only its own write touches. *)
Lemma tail_apart n k : (k + n <= 22)%nat -> apart n k (body_writes ++ name_writes).
Proof.
  intros Hk. destruct sizes as (H1 & _). pose proof (zlen_nonneg s). apply Forall_app_2; unfold body_writes, name_writes.
  - each ltac:(cbn [fst snd]; lia).
  - destruct (_ =? 0); [constructor|]. each ltac:(cbn [fst snd]; lia).
Qed.

Lemma header_fld n k w ws1 ws2 : header_writes = ws1 ++ (k, le_bytes n w) :: ws2 -> (k + n <= 22)%nat -> apart n k ws2 -> 0 <= w < 256 ^ Z.of_nat n -> fld n k new_attr = w.
Proof.
  intros E Hk Ha Hw. unfold new_attr. rewrite E, <- app_assoc. cbn [app]. apply fld_writes; [|by apply Forall_app_2; [|apply tail_apart]|done].
  pose proof new_fits as Hf. rewrite E, <- app_assoc in Hf. exact Hf.
Qed.
(** The [i]-th write of the header. *)
Ltac header_field i :=
  eapply (header_fld _ _ _ (take i header_writes) (drop (S i) header_writes)); [reflexivity|lia|
    unfold apart, header_writes; cbn [drop]; each ltac:(cbn [fst snd]; rewrite ?le_bytes_length; lia)|].

Lemma new_type : at_type new_attr = type.
Proof. header_field 0%nat. unfold AT_END in Htype. change (256 ^ Z.of_nat 4) with 4294967296. lia. Qed.
Lemma new_attr_length : at_length new_attr = zlen gap.
Proof. rewrite Hlen. header_field 1%nat. change (256 ^ Z.of_nat 4) with 4294967296. destruct sizes as (_ & _ & _ & H & _). lia. Qed.
Lemma new_resident : at_non_resident new_attr = 0.
Proof. header_field 2%nat. change (256 ^ Z.of_nat 1) with 256. lia. Qed.
Lemma new_name_length : at_name_length new_attr = zlen s.
Proof. header_field 3%nat. change (256 ^ Z.of_nat 1) with 256. pose proof (zlen_nonneg s). lia. Qed.
Lemma new_name_offset : at_name_offset new_attr = if zlen s =? 0 then 0 else resident_end.
Proof. header_field 4%nat. change (256 ^ Z.of_nat 2) with 65536. unfold resident_end. destruct (_ =? 0); lia. Qed.
Lemma new_flags : fld 2 12 new_attr = flags.
Proof. header_field 5%nat. change (256 ^ Z.of_nat 2) with 65536. lia. Qed.
Lemma new_instance : fld 2 14 new_attr = inst.
Proof. header_field 6%nat. change (256 ^ Z.of_nat 2) with 65536. lia. Qed.
Lemma new_value_length : at_value_length new_attr = size.
Proof. header_field 7%nat. change (256 ^ Z.of_nat 4) with 4294967296. destruct sizes as (? & _ & ? & _). pose proof (zlen_nonneg v). pose proof (zlen_nonneg s). lia. Qed.
Lemma new_value_offset : at_value_offset new_attr = value_at.
Proof. header_field 8%nat. change (256 ^ Z.of_nat 2) with 65536. destruct sizes as (? & _). pose proof (zlen_nonneg s). lia. Qed.

Lemma new_bytes : bytes new_attr.
Proof.
  apply writes_bytes; [|done]. unfold header_writes, body_writes, name_writes. apply Forall_app_2; [each ltac:(apply le_bytes_bytes)|apply Forall_app_2].
  - each ltac:(cbn [snd]; first [done|apply le_bytes_bytes]).
  - destruct (_ =? 0); each ltac:(apply name_bytes_bytes).
Qed.

Lemma new_value : at_value new_attr = v.
Proof.
  unfold at_value. rewrite new_value_length, new_value_offset. destruct sizes as (H1 & _ & H2 & _). unfold new_attr, body_writes. rewrite app_assoc. rewrite <- Hsize.
  replace (Z.to_nat (zlen v)) with (length v) by (unfold zlen; lia). rewrite <- app_assoc. cbn [app]. apply seg_writes; [apply new_fits|].
  apply Forall_cons_2; [cbn [fst snd]; rewrite le_bytes_length; pose proof (zlen_nonneg s); lia|]. unfold name_writes. destruct (_ =? 0); each ltac:(cbn [fst snd]; rewrite name_bytes_length; unfold zlen in *; lia).
Qed.

Lemma new_name : at_name new_attr = s.
Proof.
  unfold at_name. rewrite new_name_length, new_name_offset. destruct (Z.eqb_spec (zlen s) 0) as [E|E]; [rewrite E; symmetry; apply nil_length_inv; unfold zlen in E; lia|].
  unfold new_attr, name_writes. rewrite (proj2 (Z.eqb_neq (zlen s) 0)) by done. rewrite app_assoc.
  replace (2 * Z.to_nat (zlen s))%nat with (length (name_bytes s)) by (rewrite name_bytes_length; unfold zlen; lia). change (Z.to_nat resident_end) with 24%nat.
  rewrite seg_writes; [by apply name_bytes_chars| |constructor]. pose proof new_fits as Hf. unfold name_writes in Hf. rewrite (proj2 (Z.eqb_neq (zlen s) 0)), app_assoc in Hf by done. exact Hf.
Qed.

Lemma new_ok : resident_ok new_attr.
Proof.
  destruct sizes as (H1 & H8 & H2 & H3 & H4 & _). assert (zlen new_attr = zlen gap) as Ez by (unfold zlen; by rewrite new_length).
  assert (attr_ok new_attr) as Hok.
  { split; rewrite ?Ez, ?new_type, ?new_name_length, ?new_name_offset, ?new_value_offset, ?new_value_length; try done; [apply new_bytes|apply new_attr_length|lia| |intros _; lia].
    destruct (Z.eqb_spec (zlen s) 0); [by left|right]. unfold resident_end. pose proof (zlen_nonneg v). lia. }
  pose proof (name_end_range _ Hok) as Hn. rewrite new_name_length in Hn. pose proof (zlen_nonneg s). unfold resident_end in *.
  split; [done|apply new_resident|..]; unfold value_start, resident_end; rewrite new_value_length, new_name_length, new_value_offset.
  - destruct (size =? 0); lia.
  - rewrite new_name_offset. destruct (Z.eqb_spec (zlen s) 0); [by left|right]. split; [done|]. destruct (size =? 0); lia.
Qed.
(** ** Its fields are set one after the other *)

Context (pre post : list Z).

Ltac step n k := rewrite (put_step n _ k) by (unfold fits; cbn [app]; each ltac:(cbn [fst snd]; rewrite ?le_bytes_length; lia)); cbn [mbind res_bind app].

(** The value and the flags, behind the header. *)
Lemma body_spec val : aslice v 0 size = Ok v -> val = Some v \/ val = None /\ v = replicate (Z.to_nat size) 0 ->
  (vo ← a_value_offset (pre ++ writes header_writes gap ++ post) (zlen pre);
   w ← match val with Some v => aslice v 0 size | None => Ok (replicate (Z.to_nat size) 0) end;
   m ← awrite (pre ++ writes header_writes gap ++ post) (zlen pre + vo) w;
   m ← put_le 1 m (zlen pre + 22) (if type =? AT_FILE_NAME then RESIDENT_ATTR_IS_INDEXED else 0);
   (if zlen s =? 0 then Ok m else
    o ← a_name_offset m (zlen pre);
    n ← aslice s 0 (zlen s);
    awrite m (zlen pre + o) (concat (map (le_bytes 2) n))))
  = Ok (pre ++ new_attr ++ post).
Proof.
  intros Hsl Hval. destruct sizes as (H1 & _ & H2 & H3 & _). pose proof (zlen_nonneg s). pose proof (zlen_nonneg v).
  pose proof new_fits as Hf. unfold fits in Hf. rewrite !Forall_app in Hf. destruct Hf as (Hf1 & Hf2 & Hf3).
  assert (a_value_offset (pre ++ writes header_writes gap ++ post) (zlen pre) = Ok value_at) as ->.
  { transitivity (Ok (fld 2 20 (writes header_writes gap))); [apply (fld_at 2 20); rewrite writes_length by done; unfold zlen in *; lia|]. f_equal.
    apply (fld_writes 2 20 value_at (take 8 header_writes) []); [done|constructor|change (256 ^ Z.of_nat 2) with 65536; lia]. }
  cbn [mbind res_bind]. assert (match val with Some v0 => aslice v0 0 size | None => Ok (replicate (Z.to_nat size) 0) end = Ok v) as -> by (destruct Hval as [->|[-> <-]]; done).
  cbn [mbind res_bind]. rewrite <- (Z2Nat.id value_at) by lia. rewrite write_step by (apply Forall_app_2; [done|]; apply Forall_cons_1 in Hf2 as [? _]; by constructor).
  cbn [mbind res_bind]. rewrite (put_step 1 _ 22) by (rewrite <- app_assoc; by apply Forall_app_2). cbn [mbind res_bind]. rewrite <- app_assoc. cbn [app]. fold body_writes.
  unfold new_attr. destruct (zlen s =? 0) eqn:E0; [by unfold name_writes; rewrite E0, app_nil_r|].
  assert (a_name_offset (pre ++ writes (header_writes ++ body_writes) gap ++ post) (zlen pre) = Ok resident_end) as ->.
  { transitivity (Ok (fld 2 10 (writes (header_writes ++ body_writes) gap))).
    { apply (fld_at 2 10). rewrite writes_length by (by apply Forall_app_2). unfold zlen in *. lia. }
    f_equal. unfold header_writes. rewrite E0. apply (fld_writes 2 10 resident_end (take 4 header_writes) (drop 5 header_writes ++ body_writes)).
    - pose proof (Forall_app_2 _ _ _ Hf1 Hf2) as Hf. unfold header_writes in Hf. rewrite E0 in Hf. exact Hf.
    - unfold apart, header_writes, body_writes. cbn [drop app]. each ltac:(cbn [fst snd]; rewrite ?le_bytes_length; lia).
    - unfold resident_end. change (256 ^ Z.of_nat 2) with 65536. lia. }
  cbn [mbind res_bind]. pose proof (aslice_mid [] s [] 0 (zlen s) eq_refl eq_refl) as Es. rewrite app_nil_r in Es. cbn [app] in Es. rewrite Es. cbn [mbind res_bind].
  unfold name_writes in *. rewrite E0 in *. rewrite (app_assoc header_writes). apply (write_step (name_bytes s) 24). apply Forall_app_2; [by apply Forall_app_2|done].
Qed.
Lemma setup_spec val next : (forall b, m_next_attr_instance (pre ++ b ++ post) = Ok inst) -> aslice v 0 size = Ok v ->
  val = Some v \/ val = None /\ v = replicate (Z.to_nat size) 0 ->
  (forall b, put_le 2 (pre ++ b ++ post) 40 (Z.land (inst + 1) 0xffff) = Ok (next b)) ->
  setup_resident (pre ++ gap ++ post) (zlen pre) type s (zlen s) val size flags new_size = Ok (next new_attr).
Proof.
  intros Hnext Hsl Hval Hput. destruct sizes as (H1 & _ & H2 & H3 & _ & Evo). unfold zlen in H3. unfold setup_resident.
  change gap with (writes [] gap) at 1. rewrite <- (Z.add_0_r (zlen pre)) at 1. step 4%nat 0%nat. step 4%nat 4%nat. step 1%nat 8%nat. step 1%nat 9%nat. step 2%nat 10%nat. step 2%nat 12%nat.
  rewrite Hnext. cbn [mbind res_bind]. step 2%nat 14%nat. step 4%nat 16%nat.
  rewrite <- Evo, (u32_small value_at) by (pose proof (zlen_nonneg s); lia). step 2%nat 20%nat. fold header_writes.
  pose proof (body_spec val Hsl Hval) as Hb. destruct (a_value_offset _ _) as [vo| |]; cbn [mbind res_bind] in Hb |- *; try done.
  destruct (match val with Some _ => _ | None => _ end) as [w| |]; cbn [mbind res_bind] in Hb |- *; try done.
  destruct (awrite _ (zlen pre + vo) w) as [m1| |]; cbn [mbind res_bind] in Hb |- *; try done.
  destruct (put_le 1 m1 _ _) as [m2| |]; cbn [mbind res_bind] in Hb |- *; try done. rewrite Hb. cbn [mbind res_bind]. rewrite Hnext. cbn [mbind res_bind]. apply Hput.
Qed.
End new.

(** The record with one more attribute. *)
Lemma insert_wf h0 h1 inst h2 a1 new a2 eb slack : rec_wf h0 h1 inst h2 (a1 ++ a2) eb slack -> attr_ok new -> zlen new <= zlen slack ->
  rec_wf h0 h1 (Z.land (inst + 1) 0xffff) h2 (a1 ++ new :: a2) eb (drop (Z.to_nat (zlen new)) slack).
Proof.
  intros Hwf Hok Hn. pose proof Hwf as [_ _ _ _ _ Hi Hat _ _ [_ ?] _]. apply Forall_app in Hat as [? ?].
  apply (rec_wf_change _ _ _ _ _ _ _ Hwf); [change 0xffff with (Z.ones 16); rewrite Z.land_ones by lia; apply Z.mod_pos_bound; lia| |by apply Forall_drop|].
  - apply Forall_app_2; [done|]. by constructor.
  - rewrite !concat_app. cbn [concat]. assert (zlen (drop (Z.to_nat (zlen new)) slack) = zlen slack - zlen new) as Ed by (unfold zlen in *; rewrite length_drop; lia).
    rewrite !zlen_app, Ed. lia.
Qed.

(** * Adding a resident attribute *)

(** The value that the attribute gets. *)
Definition init_value (val : option (list Z)) (size : Z) : list Z := match val with Some v => v | None => replicate (Z.to_nat size) 0 end.

(** The arguments: a type that may be resident; a name of fewer than 256
    characters; a value of [size] bytes, if one is given. *)
Record add_args (type : Z) (name : attr_name) (name_len : Z) (val : option (list Z)) (size flags : Z) : Prop := {
  aa_type : 0 < type < AT_END /\ type <> AT_INDEX_ALLOCATION;
  aa_name : is_name (name_chars name) /\ name_len = zlen (name_chars name) /\ name_len < 256;
  aa_val : match val with Some v => bytes v /\ zlen v = size | None => True end;
  aa_size : 0 <= size < 2 ^ 30;
  aa_flags : 0 <= flags < 65536
}.

Lemma init_value_spec val size : match val with Some v => bytes v /\ zlen v = size | None => True end -> 0 <= size ->
  bytes (init_value val size) /\ zlen (init_value val size) = size /\ aslice (init_value val size) 0 size = Ok (init_value val size) /\
  (val = Some (init_value val size) \/ val = None /\ init_value val size = replicate (Z.to_nat size) 0).
Proof.
  intros Hv Hs. set (v := init_value val size). assert (bytes v /\ zlen v = size /\ (val = Some v \/ val = None /\ v = replicate (Z.to_nat size) 0)) as (? & Ez & ?).
  { unfold v, init_value. destruct val as [w|]; [destruct Hv; by split_and!; try left|]. split_and!; [apply Forall_replicate; lia|unfold zlen; rewrite length_replicate; lia|by right]. }
  split; [done|]. split; [done|]. split; [|done]. pose proof (aslice_mid [] v [] 0 (zlen v) eq_refl eq_refl) as E. rewrite app_nil_r in E. by rewrite <- Ez.
Qed.

Section add_thm.
Context (h0 h1 : list Z) (inst : Z) (h2 : list Z) (attrs : list (list Z)) (eb slack : list Z).
Context (memcmp : list Z -> list Z -> Z) (upcase : list Z) (attrdef : list Z).
Context (type : Z) (name : attr_name) (name_len : Z) (val : option (list Z)) (size flags : Z).
Hypothesis Hwf : rec_wf h0 h1 inst h2 attrs eb slack.
Hypothesis Hm : memcmp_law memcmp.
Hypothesis Hargs : add_args type name name_len val size flags.

(** The record with the attribute behind [a1]; the room there was is [gap]. *)
Lemma place_spec a1 a2 n : attrs = a1 ++ a2 -> n = new_size (name_chars name) size -> n <= zlen slack ->
  exists new, zlen new = n /\ resident_ok new /\ at_type new = type /\ at_name new = name_chars name /\ at_value new = init_value val size /\
    fld 2 12 new = flags /\ fld 2 14 new = inst /\
  (m ← ntfs_make_room_for_attr (rec_of h0 h1 inst h2 attrs eb slack) (attr_ofs h2 a1) n;
   setup_resident m (attr_ofs h2 a1) type (name_chars name) name_len val size flags n)
  = Ok (rec_of h0 h1 (Z.land (inst + 1) 0xffff) h2 (a1 ++ new :: a2) eb (drop (Z.to_nat n) slack)).
Proof.
  intros E -> Hn. set (n := new_size (name_chars name) size) in *. destruct Hargs as [[Ht _] (Hs & -> & Hs255) Hval Hsize Hfl]. destruct (init_value_spec val size Hval ltac:(lia)) as (Hv & Hvz & Hvs & Hvv).
  pose proof Hwf as [H0 H1 _ _ _ Hi Hat Heb _ [? ?] Hsz]. pose proof (zlen_nonneg (name_chars name)). destruct (align8_spec (zlen (name_chars name) * 2)), (align8_spec size).
  assert (0 < n < 2 ^ 31 /\ n mod 8 = 0) as [Hn1 Hn8] by (unfold n, new_size, resident_end; dlia).
  assert (Forall attr_ok a2) as Ha2 by (rewrite E in Hat; by apply Forall_app in Hat as [_ ?]).
  set (gap := take (Z.to_nat n) (concat a2 ++ eb ++ slack)). assert (zlen gap = n) as Hgz by (unfold gap, zlen in *; rewrite length_take, !length_app; lia).
  assert (bytes gap) as Hgb by (apply Forall_take, Forall_app_2; [by apply concat_bytes|by apply Forall_app_2]).
  set (new := new_attr type (name_chars name) size flags inst (init_value val size) gap). exists new.
  assert (zlen new = n) as Hnz by (unfold new, zlen at 1; rewrite new_length by (done || lia); exact Hgz). split; [done|]. unfold new.
  split; [apply new_ok; (done || lia)|]. split; [apply new_type; (done || lia)|]. split; [apply new_name; (done || lia)|]. split; [apply new_value; (done || lia)|].
  split; [apply new_flags; (done || lia)|]. split; [apply new_instance; (done || lia)|]. fold new.
  rewrite (make_room_spec _ _ _ _ _ _ _ Hwf a1 a2 n E Hn8) by lia. rewrite (proj2 (Z.ltb_ge (zlen slack) n)) by lia. cbn [mbind res_bind]. fold gap.
  unfold rec_with. set (post := concat a2 ++ eb ++ drop (Z.to_nat n) slack). rewrite (app_assoc _ (concat a1)). set (pre := rec_head _ _ _ _ _ ++ concat a1).
  assert (zlen pre = attr_ofs h2 a1) as <- by (unfold pre, attr_ofs; rewrite zlen_app, (rec_head_zlen _ _ _ _ _ _ _ Hwf); lia).
  rewrite (setup_spec type (name_chars name) size flags inst (init_value val size) gap) with
    (next := fun b => rec_head h0 h1 (Z.land (inst + 1) 0xffff) h2 (rec_used h2 attrs + n) ++ concat a1 ++ b ++ post); try (done || lia).
  - f_equal. fold new. unfold post, rec_of. rewrite concat_app. cbn [concat]. rewrite <- !app_assoc. do 2 f_equal. rewrite E. unfold rec_used. rewrite !concat_app. cbn [concat]. rewrite !zlen_app. lia.
  - intros b. unfold pre. rewrite <- app_assoc. by apply get_instance.
  - intros b. unfold pre. rewrite <- app_assoc. by apply put_instance.
Qed.
Lemma want_of_args : match val with Some _ => Forall (fun b => at_type b = type -> at_non_resident b = 0) attrs | None => True end ->
  want_ok type name name_len val size attrs.
Proof.
  intros Hres. destruct Hargs as [[? ?] (? & ? & ?) Hv ? ?]. split; [lia|by destruct name|]. destruct val; [|done]. destruct Hv. by split.
Qed.

(** The new attribute is the one wanted. *)
Lemma new_matches new : resident_ok new -> at_type new = type -> at_name new = name_chars name -> at_value new = init_value val size ->
  want_cmp upcase type name CASE_SENSITIVE val new = Eq.
Proof.
  intros _ Et En Ev. destruct Hargs as [[? _] (? & ? & ?) ? ? ?]. unfold want_cmp, AT_UNUSED. rewrite (proj2 (Z.eqb_neq type 0)), Et, Z.compare_refl by lia.
  assert (name_cmp upcase CASE_SENSITIVE name new = Eq) as ->. { unfold name_cmp. rewrite En. destruct name; [done|done|]. apply names_compare_refl. }
  unfold value_cmp. rewrite Ev. destruct val; [|done]. apply lex_refl.
Qed.

End add_thm.

(** C30: adding a resident attribute to a well-formed record of an inode without attribute list, in which, when a value
    is given, the attributes of that type are resident.  It is refused with EEXIST exactly when the search finds an
    attribute of that type, name and, when a value is given, that value, and else with ENOSPC exactly when the record
    has no room for it: an attribute of the same type and name with another value does not prevent it.  Otherwise the record stays well-formed, the other attributes and their order are as before, the new one has
    the given type, name, value and flags and the next instance number, it is at the place where the search ended,
    and the same search now finds it there. *)
Theorem resident_add_correct h0 h1 inst h2 attrs eb slack memcmp upcase attrdef type name name_len val size flags :
  rec_wf h0 h1 inst h2 attrs eb slack -> memcmp_law memcmp -> add_args type name name_len val size flags ->
  match val with Some _ => Forall (fun b => at_type b = type -> at_non_resident b = 0) attrs | None => True end ->
  let m := rec_of h0 h1 inst h2 attrs eb slack in
  let n := new_size (name_chars name) size in
  let add := ntfs_resident_attr_record_add memcmp upcase (zlen upcase) (Some attrdef) m type name name_len val size flags in
  match scan (want_cmp upcase type name CASE_SENSITIVE val) (first_ofs h2) attrs with
  | (_, None) => add = Err EEXIST
  | (a, Some _) =>
      if zlen slack <? n then add = Err ENOSPC else
      exists a1 new a2, attrs = a1 ++ a2 /\ a = attr_ofs h2 a1 /\
        let slack' := drop (Z.to_nat n) slack in
        let m' := rec_of h0 h1 (Z.land (inst + 1) 0xffff) h2 (a1 ++ new :: a2) eb slack' in
        add = Ok (a, m') /\ rec_wf h0 h1 (Z.land (inst + 1) 0xffff) h2 (a1 ++ new :: a2) eb slack' /\
        resident_ok new /\ at_type new = type /\ at_name new = name_chars name /\ at_value new = init_value val size /\
        fld 2 12 new = flags /\ fld 2 14 new = inst /\
        (ctx ← ntfs_attr_init_search_ctx m'; ntfs_attr_find memcmp upcase (zlen upcase) m' type name name_len CASE_SENSITIVE val size ctx) = Ok (mk_ctx a false, None)
  end.
Proof.
  intros Hwf Hm Ha Hres. cbn zeta. pose proof (want_of_args attrs type name name_len val size flags Ha Hres) as Hw.
  pose proof (find_spec _ _ _ _ _ _ _ Hwf memcmp upcase type name name_len CASE_SENSITIVE val size Hm Hw) as Hfind.
  unfold ntfs_resident_attr_record_add. pose proof Ha as [[Ht Hia] (Hs & Enl & Hnl) Hval Hsz Hfl].
  assert (match name with AnyName => negb (name_len =? 0) | _ => false end = false) as -> by (destruct name; [by rewrite Enl|done|done]).
  unfold ntfs_attr_can_be_resident. rewrite (proj2 (Z.eqb_neq type 0)), (proj2 (Z.eqb_neq type AT_INDEX_ALLOCATION)) by lia. cbn [negb mbind res_bind].
  destruct (ntfs_attr_init_search_ctx _) as [ctx| |] eqn:Ec; cbn [mbind res_bind] in Hfind |- *; [|by destruct (scan _ _ _)..]. rewrite Hfind.
  destruct (scan _ _ _) as [a e] eqn:Escan. cbn [mbind res_bind]. destruct (scan_split _ _ _ _ _ Escan) as (a1 & a2 & E & -> & Hgt & He). destruct e as [e|]; [|done]. destruct He as [-> _]. cbn [ctx_attr].
  fold (attr_ofs h2 a1). destruct (align8_spec (zlen (name_chars name) * 2)), (align8_spec size). pose proof (zlen_nonneg (name_chars name)).
  assert (0 < new_size (name_chars name) size < 2 ^ 31) as Hn by (unfold new_size, resident_end; lia).
  assert (u32 (resident_end + align8 (name_len * 2) + align8 size) = new_size (name_chars name) size) as -> by (rewrite Enl; fold (new_size (name_chars name) size); apply u32_small; lia).
  set (n := new_size (name_chars name) size) in *. destruct (Z.ltb_spec (zlen slack) n) as [Hlt|Hge].
  { rewrite (make_room_spec _ _ _ _ _ _ _ Hwf a1 a2 n E); [by rewrite (proj2 (Z.ltb_lt _ _)) by done|unfold n, new_size, resident_end; dlia|lia]. }
  destruct (place_spec _ _ _ _ _ _ _ type name name_len val size flags Hwf Ha a1 a2 n E eq_refl Hge) as (new & Hnz & Hok & Et & En & Ev & Ef & Ei & Hplace).
  exists a1, new, a2. split; [done|]. split; [done|]. split.
  { destruct (ntfs_make_room_for_attr _ _ _) as [m1| |]; cbn [mbind res_bind] in Hplace |- *; try done. by rewrite Hplace. }
  assert (rec_wf h0 h1 (Z.land (inst + 1) 0xffff) h2 (a1 ++ new :: a2) eb (drop (Z.to_nat n) slack)) as Hwf'.
  { rewrite E in Hwf. rewrite <- Hnz. apply insert_wf; [done|apply Hok|lia]. }
  split; [done|]. do 6 (split; [done|]). rewrite (find_spec _ _ _ _ _ _ _ Hwf') by (done || (apply (want_of_args _ _ _ _ _ _ _ Ha); destruct val; [|done];
    rewrite E in Hres; apply Forall_app in Hres as [? ?]; apply Forall_app_2; [done|]; constructor; [intros _; apply Hok|done])).
  rewrite scan_found; [done|done|by apply (new_matches upcase type name name_len val size flags)].
Qed.

Lemma resident_add_correct_witness :
  let m := rec_of ex_h0 ex_h1 1 (replicate 6 0) [ex_attr] ex_end (replicate 40 0) in
  exists new m', ntfs_resident_attr_record_add memcmp_diff [] 0 (Some []) m 0x80 (Name [97]) 1 (Some [7; 8]) 2 0 = Ok (80, m') /\
    m' = rec_of ex_h0 ex_h1 2 (replicate 6 0) [ex_attr; new] ex_end [] /\ at_value new = [7; 8] /\ at_name new = [97].
Proof.
  cbn zeta. assert (add_args 0x80 (Name [97]) 1 (Some [7; 8]) 2 0) as Ha.
  { split; [done|split; [repeat constructor; done|done]|split; [compute_decide|done]|lia|lia]. }
  assert (Forall (fun b => at_type b = 0x80 -> at_non_resident b = 0) [ex_attr]) as Hres by (constructor; [done|constructor]).
  pose proof (resident_add_correct ex_h0 ex_h1 1 (replicate 6 0) [ex_attr] ex_end (replicate 40 0) memcmp_diff [] [] 0x80 (Name [97]) 1 (Some [7; 8]) 2 0 ex_wf memcmp_diff_law Ha Hres) as H.
  cbn zeta in H. change (zlen (@nil Z)) with 0 in H. assert (scan (want_cmp [] 0x80 (Name [97]) CASE_SENSITIVE (Some [7; 8])) (first_ofs (replicate 6 0)) [ex_attr] = (80, Some ENOENT)) as Es by (vm_compute; reflexivity).
  rewrite Es in H. cbv beta iota in H. assert ((zlen (replicate 40 0) <? new_size (name_chars (Name [97])) 2) = false) as El by (vm_compute; reflexivity). rewrite El in H.
  destruct H as (a1 & new & a2 & E & Eo & Hadd & _ & _ & _ & Hn & Hv & _). exists new. eexists. split; [exact Hadd|]. split; [|exact (conj Hv Hn)].
  destruct a1 as [|x a1]; [vm_compute in Eo; discriminate Eo|]. injection E as <- E. destruct a1; [|discriminate E]. destruct a2; [|discriminate E].
  change (drop _ (replicate 40 0)) with (@nil Z). change (Z.land (1 + 1) 0xffff) with 2. reflexivity.
Defined.

(** the comment of [ntfs_resident_attr_record_add] has EEXIST for an attribute of the same type and name; with another
    value it is added: a record with the unnamed $DATA "1, 2, 3" gets a second unnamed $DATA "7, 8". *)
Theorem resident_add_same_name_accepted :
  let m := rec_of ex_h0 ex_h1 1 (replicate 6 0) [ex_attr] ex_end (replicate 40 0) in
  at_type ex_attr = 0x80 /\ at_name ex_attr = [] /\ at_value ex_attr = [1; 2; 3] /\
  exists new slack', at_type new = 0x80 /\ at_name new = [] /\ at_value new = [7; 8] /\
    ntfs_resident_attr_record_add memcmp_diff [] 0 (Some []) m 0x80 AtUnnamed 0 (Some [7; 8]) 2 0
    = Ok (80, rec_of ex_h0 ex_h1 2 (replicate 6 0) [ex_attr; new] ex_end slack').
Proof.
  cbn zeta. do 3 (split; [vm_compute; reflexivity|]).
  exists ([0x80; 0; 0; 0; 32; 0; 0; 0; 0; 0; 0; 0; 0; 0; 1; 0; 2; 0; 0; 0; 24; 0; 0; 0; 7; 8; 0; 0; 0; 0; 0; 0]), (replicate 8 0).
  do 3 (split; [vm_compute; reflexivity|]). vm_compute. reflexivity.
Qed.

(** * Removing an attribute *)

(** removing an attribute of a well-formed record succeeds and leaves a well-formed record with the other
    attributes, in their order and unchanged; the record is reported as free exactly when no attribute is left. *)
Theorem remove_correct h0 h1 inst h2 a1 b a2 eb slack : rec_wf h0 h1 inst h2 (a1 ++ b :: a2) eb slack ->
  exists slack', attr_record_remove (rec_of h0 h1 inst h2 (a1 ++ b :: a2) eb slack) (attr_ofs h2 a1)
    = Ok (rec_of h0 h1 inst h2 (a1 ++ a2) eb slack', bool_decide (a1 ++ a2 = [])) /\
    rec_wf h0 h1 inst h2 (a1 ++ a2) eb slack' /\ zlen slack' = zlen b + zlen slack.
Proof.
  intros Hwf. destruct (remove_spec _ _ _ _ _ _ _ Hwf a1 b a2 eq_refl) as (slack' & E & Hwf'). exists slack'. split; [done|]. split; [done|].
  pose proof (rw_alloc _ _ _ _ _ _ _ Hwf) as E1. pose proof (rw_alloc _ _ _ _ _ _ _ Hwf') as E2. rewrite E1 in E2. unfold rec_used in E2. rewrite !concat_app in E2. cbn [concat] in E2.
  rewrite !zlen_app in E2. lia.
Qed.

Lemma remove_correct_witness : exists slack',
  attr_record_remove (rec_of ex_h0 ex_h1 1 (replicate 6 0) [ex_attr] ex_end (replicate 40 0)) 48 = Ok (rec_of ex_h0 ex_h1 1 (replicate 6 0) [] ex_end slack', true) /\ zlen slack' = 72.
Proof.
  destruct (remove_correct ex_h0 ex_h1 1 (replicate 6 0) [] ex_attr [] ex_end (replicate 40 0) ex_wf) as (slack' & E & _ & Ez). exists slack'. split; [exact E|exact Ez].
Defined.
