(* ===== verification/AttrAddNrThm.v ===== *)
(** Adding an extent of a non-resident attribute to a record. *)

From S2P Require Import Prelude Bytes Fields Unistr Collate IndexNode AttrDef AttrRec AttrFind AttrRecThm AttrValueThm AttrAddThm.

Definition packed (flags : Z) : bool := negb (Z.land flags (Z.lor ATTR_IS_COMPRESSED ATTR_IS_SPARSE) =? 0).

Section new.
Context (type : Z) (s : list Z) (lowest runs flags inst : Z) (gap : list Z).

(** [runs] bytes are for the mapping pairs. *)
Definition extra : Z := if packed flags then 8 else 0.
Definition nr_size : Z := compressed_size_ofs + align8 (2 * zlen s) + runs + extra.
Definition name_at : Z := compressed_size_ofs + extra.
Definition pairs_at : Z := nr_size - runs.

Definition nr_header : list (nat * list Z) :=
  [(0%nat, le_bytes 4 type); (4%nat, le_bytes 4 nr_size); (8%nat, le_bytes 1 1); (9%nat, le_bytes 1 (zlen s)); (10%nat, le_bytes 2 name_at);
   (12%nat, le_bytes 2 flags); (14%nat, le_bytes 2 inst); (16%nat, le_bytes 8 lowest); (32%nat, le_bytes 2 pairs_at);
   (34%nat, le_bytes 1 (if Z.land flags ATTR_IS_COMPRESSED =? 0 then 0 else STANDARD_COMPRESSION_UNIT))].
Definition nr_empty : list (nat * list Z) :=
  if lowest =? 0 then [(24%nat, le_bytes 8 (-1)); (40%nat, le_bytes 8 0); (48%nat, le_bytes 8 0); (56%nat, le_bytes 8 0); (Z.to_nat pairs_at, le_bytes 1 0)] else [].
Definition nr_name : list (nat * list Z) := if zlen s =? 0 then [] else [(Z.to_nat name_at, name_bytes s)].

Definition new_extent : list Z := writes (nr_header ++ nr_empty ++ nr_name) gap.

Context (Htype : 0 < type < AT_END) (Hs : is_name s) (Hs255 : zlen s < 256) (Hlow : 0 <= lowest < 2 ^ 63) (Hruns : 0 < runs < 2 ^ 30) (Hruns8 : runs mod 8 = 0).
Context (Hflags : 0 <= flags < 65536) (Hinst : 0 <= inst < 65536) (Hgap : bytes gap) (Hlen : zlen gap = nr_size).

Lemma nr_sizes : 64 <= name_at <= 72 /\ name_at + 2 * zlen s <= pairs_at < 1024 /\ pairs_at + 1 <= zlen gap < 2 ^ 31 /\ zlen gap mod 8 = 0.
Proof.
  rewrite Hlen. unfold pairs_at, name_at, nr_size, extra, compressed_size_ofs. destruct (align8_spec (2 * zlen s)). pose proof (zlen_nonneg s).
  destruct (packed flags); dlia.
Qed.

Lemma nr_fits_header : fits (length gap) nr_header.
Proof. destruct nr_sizes as (? & ? & ? & _). unfold zlen in *. unfold fits, nr_header. each ltac:(cbn [fst snd]; rewrite le_bytes_length; lia). Qed.
Lemma nr_fits_empty : fits (length gap) nr_empty.
Proof.
  destruct nr_sizes as (? & ? & ? & _). unfold zlen in *. unfold fits, nr_empty. destruct (lowest =? 0); each ltac:(cbn [fst snd]; rewrite le_bytes_length; lia).
Qed.
Lemma nr_fits_name : fits (length gap) nr_name.
Proof.
  destruct nr_sizes as (? & ? & ? & _). unfold zlen in *. unfold fits, nr_name. destruct (zlen s =? 0); each ltac:(cbn [fst snd]; rewrite name_bytes_length; lia).
Qed.
Lemma nr_fits : fits (length gap) (nr_header ++ nr_empty ++ nr_name).
Proof. apply Forall_app_2; [apply nr_fits_header|apply Forall_app_2; [apply nr_fits_empty|apply nr_fits_name]]. Qed.

Lemma nr_length : length new_extent = length gap.
Proof. apply writes_length, nr_fits. Qed.

Lemma nr_name_apart n k : (k + n <= 64 \/ k = Z.to_nat pairs_at)%nat -> apart n k nr_name.
Proof.
  intros Hk. destruct nr_sizes as (? & ? & _). unfold zlen in *. unfold apart, nr_name. destruct (zlen s =? 0); each ltac:(cbn [fst snd]; rewrite name_bytes_length; lia).
Qed.

Lemma nr_empty_apart n k : (k + n <= 24 \/ (32 <= k /\ k + n <= 40))%nat -> apart n k nr_empty.
Proof.
  intros Hk. destruct nr_sizes as (? & ? & _). pose proof (zlen_nonneg s). unfold apart, nr_empty. destruct (lowest =? 0); each ltac:(cbn [fst snd]; rewrite ?le_bytes_length; lia).
Qed.

Lemma nr_header_fld n k w ws1 ws2 : nr_header = ws1 ++ (k, le_bytes n w) :: ws2 -> (k + n <= 24 \/ (32 <= k /\ k + n <= 40))%nat -> apart n k ws2 ->
  0 <= w < 256 ^ Z.of_nat n -> fld n k new_extent = w.
Proof.
  intros E Hk Ha Hw. unfold new_extent. rewrite E, <- app_assoc. cbn [app].
  apply fld_writes; [|apply Forall_app_2; [done|apply Forall_app_2; [by apply nr_empty_apart|apply nr_name_apart; lia]]|done].
  pose proof nr_fits as Hf. rewrite E, <- app_assoc in Hf. exact Hf.
Qed.

Ltac nr_field i :=
  eapply (nr_header_fld _ _ _ (take i nr_header) (drop (S i) nr_header)); [reflexivity|lia|
    unfold apart, nr_header; cbn [drop]; each ltac:(cbn [fst snd]; rewrite ?le_bytes_length; lia)|].

Lemma nr_type : at_type new_extent = type.
Proof. nr_field 0%nat. unfold AT_END in Htype. change (256 ^ Z.of_nat 4) with 4294967296. lia. Qed.
Lemma nr_attr_length : at_length new_extent = zlen gap.
Proof. rewrite Hlen. nr_field 1%nat. change (256 ^ Z.of_nat 4) with 4294967296. destruct nr_sizes as (? & ? & ? & _). pose proof (zlen_nonneg s). lia. Qed.
Lemma nr_non_resident : at_non_resident new_extent = 1.
Proof. nr_field 2%nat. change (256 ^ Z.of_nat 1) with 256. lia. Qed.
Lemma nr_name_length : at_name_length new_extent = zlen s.
Proof. nr_field 3%nat. change (256 ^ Z.of_nat 1) with 256. pose proof (zlen_nonneg s). lia. Qed.
Lemma nr_name_offset : at_name_offset new_extent = name_at.
Proof. nr_field 4%nat. change (256 ^ Z.of_nat 2) with 65536. destruct nr_sizes as (? & _). lia. Qed.
Lemma nr_flags : fld 2 12 new_extent = flags.
Proof. nr_field 5%nat. change (256 ^ Z.of_nat 2) with 65536. lia. Qed.
Lemma nr_instance : fld 2 14 new_extent = inst.
Proof. nr_field 6%nat. change (256 ^ Z.of_nat 2) with 65536. lia. Qed.
Lemma nr_lowest : fld 8 16 new_extent = lowest.
Proof. nr_field 7%nat. change (256 ^ Z.of_nat 8) with (2 ^ 64). lia. Qed.
Lemma nr_pairs_offset : fld 2 32 new_extent = pairs_at.
Proof. nr_field 8%nat. change (256 ^ Z.of_nat 2) with 65536. destruct nr_sizes as (? & ? & _). pose proof (zlen_nonneg s). lia. Qed.

Lemma nr_name_eq : at_name new_extent = s.
Proof.
  unfold at_name. rewrite nr_name_length, nr_name_offset. destruct (Z.eqb_spec (zlen s) 0) as [E|E]; [rewrite E; symmetry; apply nil_length_inv; unfold zlen in E; lia|].
  pose proof nr_fits as Hf. unfold new_extent, nr_name in *. rewrite (proj2 (Z.eqb_neq (zlen s) 0)), app_assoc in * by done.
  replace (2 * Z.to_nat (zlen s))%nat with (length (name_bytes s)) by (rewrite name_bytes_length; unfold zlen; lia).
  rewrite seg_writes; [by apply name_bytes_chars|done|constructor].
Qed.

(** A first extent is empty: no clusters, no mapping pairs. *)
Lemma nr_is_empty : lowest = 0 -> fld 8 24 new_extent = 2 ^ 64 - 1 /\ fld 8 40 new_extent = 0 /\ fld 8 48 new_extent = 0 /\ fld 8 56 new_extent = 0 /\ fld 1 (Z.to_nat pairs_at) new_extent = 0.
Proof.
  intros E. destruct nr_sizes as (? & ? & _). pose proof (zlen_nonneg s). pose proof nr_fits as Hf. unfold new_extent, nr_empty in *. rewrite (proj2 (Z.eqb_eq lowest 0) E), app_assoc in Hf |- *.
  change (le_bytes 8 (-1)) with (le_bytes 8 (2 ^ 64 - 1)) in *. set (e := [_; _; _; _; _]) in *.
  assert (forall i n k w, e = take i e ++ (k, le_bytes n w) :: drop (S i) e -> apart n k (drop (S i) e) -> (k + n <= 64 \/ k = Z.to_nat pairs_at)%nat ->
    0 <= w < 256 ^ Z.of_nat n -> fld n k (writes ((nr_header ++ e) ++ nr_name) gap) = w) as Hw.
  { intros i n k w Ee Ha Hk Hwr. rewrite Ee in Hf |- *. rewrite (app_assoc nr_header), <- (app_assoc _ (_ :: _)) in Hf |- *. cbn [app] in Hf |- *.
    apply fld_writes; [exact Hf|apply Forall_app_2; [done|by apply nr_name_apart]|done]. }
  split_and!; [eapply (Hw 0%nat)|eapply (Hw 1%nat)|eapply (Hw 2%nat)|eapply (Hw 3%nat)|eapply (Hw 4%nat)]; try reflexivity; try lia.
  all: unfold e, apart; cbn [drop]; each ltac:(cbn [fst snd]; rewrite ?le_bytes_length; lia).
Qed.
Lemma nr_bytes : bytes new_extent.
Proof.
  apply writes_bytes; [|done]. unfold nr_header, nr_empty, nr_name. apply Forall_app_2; [each ltac:(apply le_bytes_bytes)|apply Forall_app_2].
  - destruct (_ =? 0); each ltac:(apply le_bytes_bytes).
  - destruct (_ =? 0); each ltac:(apply name_bytes_bytes).
Qed.

Lemma nr_ok : attr_ok new_extent.
Proof.
  destruct nr_sizes as (H1 & H2 & H3 & H4). pose proof (zlen_nonneg s). assert (zlen new_extent = zlen gap) as Ez by (unfold zlen; by rewrite nr_length).
  split; rewrite ?Ez, ?nr_type, ?nr_name_length, ?nr_name_offset, ?nr_non_resident; try done; [apply nr_bytes|unfold resident_end; lia|apply nr_attr_length|lia|right; lia].
Qed.

(** ** Its fields are set one after the other *)

Context (pre post : list Z).

Ltac step n k := rewrite (put_step n _ k) by (unfold fits; cbn [app]; each ltac:(cbn [fst snd]; rewrite ?le_bytes_length; lia)); cbn [mbind res_bind app].

Lemma empty_spec : (if lowest =? 0 then
    m ← put_le 8 (pre ++ writes nr_header gap ++ post) (zlen pre + 24) (-1);
    m ← put_le 8 m (zlen pre + 40) 0; m ← put_le 8 m (zlen pre + 48) 0; m ← put_le 8 m (zlen pre + 56) 0;
    o ← get_le 2 m (zlen pre + 32); put_le 1 m (zlen pre + o) 0
  else Ok (pre ++ writes nr_header gap ++ post)) = Ok (pre ++ writes (nr_header ++ nr_empty) gap ++ post).
Proof.
  destruct nr_sizes as (H1 & H2 & H3 & _). pose proof (zlen_nonneg s). assert (length gap = Z.to_nat (zlen gap)) as El by (unfold zlen; lia).
  pose proof nr_fits_empty as Hf. unfold nr_empty in *. destruct (lowest =? 0); [|by rewrite app_nil_r]. unfold nr_header.
  step 8%nat 24%nat. step 8%nat 40%nat. step 8%nat 48%nat. step 8%nat 56%nat. set (ws := _ :: _). set (x := writes ws gap).
  assert (fits (length gap) ws) as Hws by (unfold fits, ws; each ltac:(cbn [fst snd]; rewrite ?le_bytes_length; lia)).
  assert (get_le 2 (pre ++ x ++ post) (zlen pre + 32) = Ok pairs_at) as ->.
  { transitivity (Ok (fld 2 32 x)); [apply (fld_at 2 32); unfold x; rewrite writes_length by done; lia|]. f_equal.
    apply (fld_writes 2 32 pairs_at (take 8 ws) (drop 9 ws)); [exact Hws| |change (256 ^ Z.of_nat 2) with 65536; lia].
    unfold apart, ws. cbn [drop]. each ltac:(cbn [fst snd]; rewrite ?le_bytes_length; lia). }
  cbn [mbind res_bind]. rewrite <- (Z2Nat.id pairs_at) at 1 by lia. unfold x. rewrite put_step; [done|]. apply Forall_app_2; [done|]. each ltac:(cbn [fst snd]; rewrite ?le_bytes_length; lia).
Qed.

Lemma name_spec : (if zlen s =? 0 then Ok (pre ++ writes (nr_header ++ nr_empty) gap ++ post) else
    o ← a_name_offset (pre ++ writes (nr_header ++ nr_empty) gap ++ post) (zlen pre);
    n ← aslice s 0 (zlen s); awrite (pre ++ writes (nr_header ++ nr_empty) gap ++ post) (zlen pre + o) (concat (map (le_bytes 2) n)))
  = Ok (pre ++ new_extent ++ post).
Proof.
  destruct nr_sizes as (H1 & H2 & H3 & _). pose proof (zlen_nonneg s). pose proof (Forall_app_2 _ _ _ nr_fits_header nr_fits_empty) as Hf. pose proof nr_fits_name as Hn.
  unfold new_extent, nr_name in *. destruct (zlen s =? 0); [by rewrite app_nil_r|].
  assert (a_name_offset (pre ++ writes (nr_header ++ nr_empty) gap ++ post) (zlen pre) = Ok name_at) as ->.
  { transitivity (Ok (fld 2 10 (writes (nr_header ++ nr_empty) gap))); [apply (fld_at 2 10); rewrite writes_length by done; unfold zlen in *; lia|]. f_equal.
    apply (fld_writes 2 10 name_at (take 4 nr_header) (drop 5 nr_header ++ nr_empty)); [exact Hf| |change (256 ^ Z.of_nat 2) with 65536; lia].
    apply Forall_app_2; [unfold nr_header; cbn [drop]; each ltac:(cbn [fst snd]; rewrite ?le_bytes_length; lia)|apply nr_empty_apart; lia]. }
  cbn [mbind res_bind]. pose proof (aslice_mid [] s [] 0 (zlen s) eq_refl eq_refl) as Es. rewrite app_nil_r in Es. cbn [app] in Es. rewrite Es. cbn [mbind res_bind].
  rewrite (app_assoc nr_header), <- (Z2Nat.id name_at) at 1 by lia. apply write_step. by apply Forall_app_2.
Qed.

Lemma nr_setup_spec next : (forall b, m_next_attr_instance (pre ++ b ++ post) = Ok inst) ->
  (forall b, put_le 2 (pre ++ b ++ post) 40 (Z.land (inst + 1) 0xffff) = Ok (next b)) ->
  setup_non_resident (pre ++ gap ++ post) (zlen pre) type s (zlen s) lowest runs flags nr_size = Ok (next new_extent).
Proof.
  intros Hnext Hput. destruct nr_sizes as (H1 & H2 & H3 & _). pose proof (zlen_nonneg s). assert (length gap = Z.to_nat (zlen gap)) as El by (unfold zlen; lia). unfold setup_non_resident.
  change (compressed_size_ofs + (if negb (Z.land flags (Z.lor ATTR_IS_COMPRESSED ATTR_IS_SPARSE) =? 0) then 8 else 0)) with name_at. fold pairs_at. rewrite (u32_small pairs_at) by lia.
  change gap with (writes [] gap) at 1. rewrite <- (Z.add_0_r (zlen pre)) at 1.
  step 4%nat 0%nat. step 4%nat 4%nat. step 1%nat 8%nat. step 1%nat 9%nat. step 2%nat 10%nat. step 2%nat 12%nat. rewrite Hnext. cbn [mbind res_bind].
  step 2%nat 14%nat. step 8%nat 16%nat. step 2%nat 32%nat. step 1%nat 34%nat. fold nr_header. rewrite empty_spec. cbn [mbind res_bind]. rewrite name_spec. cbn [mbind res_bind].
  rewrite Hnext. cbn [mbind res_bind]. apply Hput.
Qed.
End new.

(** * Adding the extent *)

Record nr_args (type : Z) (name : attr_name) (name_len lowest runs flags : Z) : Prop := {
  na_type : 0 < type < AT_END;
  na_name : is_name (name_chars name) /\ name_len = zlen (name_chars name) /\ name_len < 256;
  na_lowest : 0 <= lowest < 2 ^ 63;
  na_runs : 0 < runs < 2 ^ 29;
  na_flags : 0 <= flags < 65536
}.

Section add_thm.
Context (h0 h1 : list Z) (inst : Z) (h2 : list Z) (attrs : list (list Z)) (eb slack : list Z).
Context (type : Z) (name : attr_name) (name_len lowest runs flags : Z).
Hypothesis Hwf : rec_wf h0 h1 inst h2 attrs eb slack.
Hypothesis Hargs : nr_args type name name_len lowest runs flags.

Lemma nr_size_range : 0 < nr_size (name_chars name) (align8 runs) flags < 2 ^ 31 /\ nr_size (name_chars name) (align8 runs) flags mod 8 = 0 /\ 0 < align8 runs < 2 ^ 30.
Proof.
  destruct Hargs as [_ (_ & -> & ?) _ ? _]. destruct (align8_spec runs), (align8_spec (2 * zlen (name_chars name))). pose proof (zlen_nonneg (name_chars name)).
  unfold nr_size, extra, compressed_size_ofs. destruct (packed flags); dlia.
Qed.

Lemma nr_place_spec a1 a2 n : attrs = a1 ++ a2 -> n = nr_size (name_chars name) (align8 runs) flags -> n <= zlen slack ->
  exists new, zlen new = n /\ attr_ok new /\ at_type new = type /\ at_name new = name_chars name /\ at_non_resident new = 1 /\
    fld 8 16 new = lowest /\ fld 2 32 new = n - align8 runs /\ fld 2 12 new = flags /\ fld 2 14 new = inst /\
    (lowest = 0 -> fld 8 24 new = 2 ^ 64 - 1 /\ fld 8 40 new = 0 /\ fld 8 48 new = 0 /\ fld 8 56 new = 0 /\ fld 1 (Z.to_nat (n - align8 runs)) new = 0) /\
  (m ← ntfs_make_room_for_attr (rec_of h0 h1 inst h2 attrs eb slack) (attr_ofs h2 a1) n;
   setup_non_resident m (attr_ofs h2 a1) type (name_chars name) name_len lowest (align8 runs) flags n)
  = Ok (rec_of h0 h1 (Z.land (inst + 1) 0xffff) h2 (a1 ++ new :: a2) eb (drop (Z.to_nat n) slack)).
Proof.
  intros E -> Hn. destruct nr_size_range as (Hn1 & Hn8 & Hr). set (n := nr_size (name_chars name) (align8 runs) flags) in *.
  destruct Hargs as [Ht (Hs & -> & Hs255) Hlow Hruns Hfl]. pose proof Hwf as [H0 H1 _ _ _ Hi Hat Heb _ [? ?] Hsz]. destruct (align8_spec runs) as [_ Hr8].
  assert (Forall attr_ok a2) as Ha2 by (rewrite E in Hat; by apply Forall_app in Hat as [_ ?]).
  set (gap := take (Z.to_nat n) (concat a2 ++ eb ++ slack)). assert (zlen gap = n) as Hgz by (unfold gap, zlen in *; rewrite length_take, !length_app; lia).
  assert (bytes gap) as Hgb by (apply Forall_take, Forall_app_2; [by apply concat_bytes|by apply Forall_app_2]).
  set (new := new_extent type (name_chars name) lowest (align8 runs) flags inst gap). exists new.
  assert (zlen new = n) as Hnz by (unfold new, zlen at 1; rewrite nr_length by done; exact Hgz). split; [done|]. unfold new.
  split; [by apply nr_ok|]. split; [by apply nr_type|]. split; [by apply nr_name_eq|]. split; [by apply nr_non_resident|]. split; [by apply nr_lowest|].
  split; [by apply nr_pairs_offset|]. split; [by apply nr_flags|]. split; [by apply nr_instance|]. split; [by apply nr_is_empty|]. fold new.
  rewrite (make_room_spec _ _ _ _ _ _ _ Hwf a1 a2 n E Hn8) by lia. rewrite (proj2 (Z.ltb_ge (zlen slack) n)) by lia. cbn [mbind res_bind]. fold gap.
  unfold rec_with. set (post := concat a2 ++ eb ++ drop (Z.to_nat n) slack). rewrite (app_assoc _ (concat a1)). set (pre := rec_head _ _ _ _ _ ++ concat a1).
  assert (zlen pre = attr_ofs h2 a1) as <- by (unfold pre, attr_ofs; rewrite zlen_app, (rec_head_zlen _ _ _ _ _ _ _ Hwf); lia).
  rewrite (nr_setup_spec type (name_chars name) lowest (align8 runs) flags inst gap) with
    (next := fun b => rec_head h0 h1 (Z.land (inst + 1) 0xffff) h2 (rec_used h2 attrs + n) ++ concat a1 ++ b ++ post); try done.
  - f_equal. fold new. unfold post, rec_of. rewrite concat_app. cbn [concat]. rewrite <- !app_assoc. do 2 f_equal. rewrite E. unfold rec_used. rewrite !concat_app. cbn [concat]. rewrite !zlen_app. lia.
  - intros b. unfold pre. rewrite <- app_assoc. by apply get_instance.
  - intros b. unfold pre. rewrite <- app_assoc. by apply put_instance.
Qed.
End add_thm.

(** adding an extent of a non-resident attribute to a well-formed record of an inode without attribute list, when
    the definition of its type allows it.  It is refused with EEXIST exactly when the search finds the attribute, and
    else with ENOSPC exactly when the record has no room.  Otherwise the record stays well-formed, the other
    attributes and their order are as before, the new extent has the given type, name, flags and lowest vcn, room for
    the mapping pairs and the next instance number, a first extent is empty, and the offset returned is the place
    where the search ended. *)
Theorem non_resident_add_correct h0 h1 inst h2 attrs eb slack memcmp upcase attrdef attrdef_len type name name_len lowest runs flags :
  rec_wf h0 h1 inst h2 attrs eb slack -> memcmp_law memcmp -> nr_args type name name_len lowest runs flags ->
  ntfs_attr_can_be_non_resident attrdef attrdef_len type (match name with AnyName => None | n => Some (name_chars n) end) name_len upcase (zlen upcase) = Ok tt ->
  let m := rec_of h0 h1 inst h2 attrs eb slack in
  let n := nr_size (name_chars name) (align8 runs) flags in
  let add := ntfs_non_resident_attr_record_add memcmp upcase (zlen upcase) attrdef attrdef_len m type name name_len lowest runs flags in
  match scan (want_cmp upcase type name CASE_SENSITIVE None) (first_ofs h2) attrs with
  | (_, None) => add = Err EEXIST
  | (a, Some _) =>
      if zlen slack <? n then add = Err ENOSPC else
      exists a1 new a2, attrs = a1 ++ a2 /\ a = attr_ofs h2 a1 /\
        let slack' := drop (Z.to_nat n) slack in
        add = Ok (a, rec_of h0 h1 (Z.land (inst + 1) 0xffff) h2 (a1 ++ new :: a2) eb slack') /\
        rec_wf h0 h1 (Z.land (inst + 1) 0xffff) h2 (a1 ++ new :: a2) eb slack' /\
        at_type new = type /\ at_name new = name_chars name /\ at_non_resident new = 1 /\ fld 8 16 new = lowest /\ fld 2 32 new = n - align8 runs /\
        fld 2 12 new = flags /\ fld 2 14 new = inst /\
        (lowest = 0 -> fld 8 24 new = 2 ^ 64 - 1 /\ fld 8 40 new = 0 /\ fld 8 48 new = 0 /\ fld 8 56 new = 0 /\ fld 1 (Z.to_nat (n - align8 runs)) new = 0)
  end.
Proof.
  intros Hwf Hm Ha Hdef. cbn zeta. pose proof Ha as [Ht (Hs & Enl & Hnl) Hlow Hruns Hfl].
  assert (forall l, want_ok type name name_len None 0 l) as Hw by (intros l; split; [lia|by destruct name|done]).
  pose proof (find_spec _ _ _ _ _ _ _ Hwf memcmp upcase type name name_len CASE_SENSITIVE None 0 Hm (Hw _)) as Hfind.
  unfold ntfs_non_resident_attr_record_add. rewrite (proj2 (Z.leb_gt runs 0)) by lia. cbn [orb].
  assert (match name with AnyName => negb (name_len =? 0) | _ => false end = false) as -> by (destruct name; [by rewrite Enl|done|done]).
  rewrite Hdef. cbn [mbind res_bind].
  destruct (ntfs_attr_init_search_ctx _) as [ctx| |] eqn:Ec; cbn [mbind res_bind] in Hfind |- *; [|by destruct (scan _ _ _)..]. rewrite Hfind.
  destruct (scan _ _ _) as [a e] eqn:Escan. cbn [mbind res_bind]. destruct (scan_split _ _ _ _ _ Escan) as (a1 & a2 & E & -> & Hgt & He). destruct e as [e|]; [|done]. destruct He as [-> _]. cbn [ctx_attr].
  fold (attr_ofs h2 a1) (packed flags). change (if packed flags then 8 else 0) with (extra flags). destruct (nr_size_range type name name_len lowest runs flags Ha) as (Hn & Hn8 & _). rewrite Enl. fold (nr_size (name_chars name) (align8 runs) flags).
  set (n := nr_size (name_chars name) (align8 runs) flags) in *. rewrite (u32_small n), <- Enl by lia. destruct (Z.ltb_spec (zlen slack) n) as [Hlt|Hge].
  { rewrite (make_room_spec _ _ _ _ _ _ _ Hwf a1 a2 n E Hn8) by lia. by rewrite (proj2 (Z.ltb_lt _ _)) by done. }
  destruct (nr_place_spec _ _ _ _ _ _ _ type name name_len lowest runs flags Hwf Ha a1 a2 n E eq_refl Hge) as (new & Hnz & Hok & Et & En & Hnr & Hf1 & Hf2 & Hf3 & Hf4 & Hf5 & Hplace).
  exists a1, new, a2. split; [done|]. split; [done|].
  assert (rec_wf h0 h1 (Z.land (inst + 1) 0xffff) h2 (a1 ++ new :: a2) eb (drop (Z.to_nat n) slack)) as Hwf' by (rewrite E in Hwf; rewrite <- Hnz; apply insert_wf; [done|done|lia]).
  split; [|by do 8 (split; [done|])].
  destruct (ntfs_make_room_for_attr _ _ _) as [m1| |]; cbn [mbind res_bind] in Hplace |- *; try done. rewrite Hplace. cbn [mbind res_bind].
  pose proof (find_spec _ _ _ _ _ _ _ Hwf' memcmp upcase type name name_len CASE_SENSITIVE None 0 Hm (Hw _)) as Hfind'. rewrite scan_found in Hfind'; [|done|].
  2:{ unfold want_cmp, AT_UNUSED, name_cmp. rewrite (proj2 (Z.eqb_neq type 0)), Et, Z.compare_refl, En by lia. destruct name; [done|done|]. cbn [name_chars]. by rewrite names_compare_refl. }
  destruct (ntfs_attr_init_search_ctx (rec_of _ _ (Z.land _ _) _ _ _ _)) as [ctx'| |]; cbn [mbind res_bind] in Hfind' |- *; try done. by rewrite Hfind'.
Qed.

Lemma non_resident_add_correct_witness :
  let m := rec_of ex_h0 ([184; 0; 0; 0] ++ replicate 8 0) 1 (replicate 6 0) [ex_attr] ex_end (replicate 96 0) in
  exists m', ntfs_non_resident_attr_record_add memcmp_diff [] 0 (Some ntfs_attrdef_default) 2560 m 0xb0 AtUnnamed 0 0 5 0 = Ok (80, m').
Proof.
  assert (rec_wf ex_h0 ([184; 0; 0; 0] ++ replicate 8 0) 1 (replicate 6 0) [ex_attr] ex_end (replicate 96 0)) as Hwf.
  { split; try done; [by repeat constructor; try apply ex_attr_ok|split; compute_decide]. }
  assert (nr_args 0xb0 AtUnnamed 0 0 5 0) as Ha by (split; [done|split; [constructor|done]|lia|lia|lia]).
  pose proof (non_resident_add_correct ex_h0 ([184; 0; 0; 0] ++ replicate 8 0) 1 (replicate 6 0) [ex_attr] ex_end (replicate 96 0) memcmp_diff [] (Some ntfs_attrdef_default) 2560
    0xb0 AtUnnamed 0 0 5 0 Hwf memcmp_diff_law Ha ltac:(vm_compute; reflexivity)) as H.
  cbn zeta in H. change (zlen (@nil Z)) with 0 in H.
  assert (scan (want_cmp [] 0xb0 AtUnnamed CASE_SENSITIVE None) (first_ofs (replicate 6 0)) [ex_attr] = (80, Some ENOENT)) as Es by (vm_compute; reflexivity). rewrite Es in H. cbv beta iota in H.
  assert ((zlen (replicate 96 0) <? nr_size (name_chars AtUnnamed) (align8 5) 0) = false) as El by (vm_compute; reflexivity). rewrite El in H.
  destruct H as (a1 & new & a2 & _ & _ & Hadd & _). eexists. exact Hadd.
Defined.
