(* ===== verification/Cache.v ===== *)
(** LRU caches (libntfs/cache.c).

    The entries and the hash links of a cache are the arrays allocated with its
    header; a pointer to one is its index, NULL is [None].  What is cached is a
    fixed part of type [P] and a variable part; [compare] says whether two
    differ, [dohash] computes the hash value.  The calls of [dofree] are logged. *)

From S2P Require Import Prelude.

Definition CACHE_FREE : Z := 1.
Definition CACHE_NOHASH : Z := 2.

(** The variable part of an entry: NULL, allocated, or freed memory. *)
Inductive var := VNull | VData (d : list Z) | VFreed.

Definition free_var (v : var) : res unit := match v with VFreed => Undef | _ => Ok tt end.

Section cache.
Context {P : Type}.

(** An item: its payload and its variable part, of size [varsize]. *)
Record content := mk_content { c_payload : P; c_var : list Z }.

Record CACHED_GENERIC := mk_entry { e_next : option nat; e_previous : option nat; e_variable : var; e_varsize : Z; e_payload : P }.

Record HASH_ENTRY := mk_link { h_next : option nat; h_entry : nat }.

Record CACHE_HEADER := mk_cache {
  entries : list CACHED_GENERIC;
  links : list HASH_ENTRY;
  most_recent_entry : option nat;
  oldest_entry : option nat;
  free_entry : option nat;
  free_hash : option nat;
  first_hash : list (option nat);
  hashing : bool;
  freeing : bool;
  reads : Z;
  writes_count : Z;
  hits : Z;
  max_hash : Z;
  freed : list content
}.

Context (dohash : content -> Z).

(** ** Access *)

Definition get_entry (c : CACHE_HEADER) (i : nat) : res CACHED_GENERIC := match entries c !! i with Some e => Ok e | None => Undef end.
Definition get_link (c : CACHE_HEADER) (i : nat) : res HASH_ENTRY := match links c !! i with Some l => Ok l | None => Undef end.

(** What [compare] and [dohash] read of an entry. *)
Definition view (e : CACHED_GENERIC) : res content :=
  match e_variable e with
  | VNull => Ok (mk_content (e_payload e) [])
  | VData d => Ok (mk_content (e_payload e) d)
  | VFreed => Undef
  end.

Definition with_entries (f : list CACHED_GENERIC -> list CACHED_GENERIC) (c : CACHE_HEADER) : CACHE_HEADER :=
  mk_cache (f (entries c)) (links c) (most_recent_entry c) (oldest_entry c) (free_entry c) (free_hash c) (first_hash c) (hashing c) (freeing c) (reads c) (writes_count c) (hits c) (max_hash c) (freed c).
Definition with_links (f : list HASH_ENTRY -> list HASH_ENTRY) (c : CACHE_HEADER) : CACHE_HEADER :=
  mk_cache (entries c) (f (links c)) (most_recent_entry c) (oldest_entry c) (free_entry c) (free_hash c) (first_hash c) (hashing c) (freeing c) (reads c) (writes_count c) (hits c) (max_hash c) (freed c).
Definition set_most_recent (p : option nat) (c : CACHE_HEADER) : CACHE_HEADER :=
  mk_cache (entries c) (links c) p (oldest_entry c) (free_entry c) (free_hash c) (first_hash c) (hashing c) (freeing c) (reads c) (writes_count c) (hits c) (max_hash c) (freed c).
Definition set_oldest (p : option nat) (c : CACHE_HEADER) : CACHE_HEADER :=
  mk_cache (entries c) (links c) (most_recent_entry c) p (free_entry c) (free_hash c) (first_hash c) (hashing c) (freeing c) (reads c) (writes_count c) (hits c) (max_hash c) (freed c).
Definition set_free (p : option nat) (c : CACHE_HEADER) : CACHE_HEADER :=
  mk_cache (entries c) (links c) (most_recent_entry c) (oldest_entry c) p (free_hash c) (first_hash c) (hashing c) (freeing c) (reads c) (writes_count c) (hits c) (max_hash c) (freed c).
Definition set_hash (p : option nat) (first : list (option nat)) (c : CACHE_HEADER) : CACHE_HEADER :=
  mk_cache (entries c) (links c) (most_recent_entry c) (oldest_entry c) (free_entry c) p first (hashing c) (freeing c) (reads c) (writes_count c) (hits c) (max_hash c) (freed c).
Definition drop_hashing (c : CACHE_HEADER) : CACHE_HEADER :=
  mk_cache (entries c) (links c) (most_recent_entry c) (oldest_entry c) (free_entry c) (free_hash c) (first_hash c) false (freeing c) (reads c) (writes_count c) (hits c) (max_hash c) (freed c).
Definition count_up (r w h : Z) (c : CACHE_HEADER) : CACHE_HEADER :=
  mk_cache (entries c) (links c) (most_recent_entry c) (oldest_entry c) (free_entry c) (free_hash c) (first_hash c) (hashing c) (freeing c)
    (u64 (reads c + r)) (u64 (writes_count c + w)) (u64 (hits c + h)) (max_hash c) (freed c).
Definition call_free (x : content) (c : CACHE_HEADER) : CACHE_HEADER :=
  if freeing c then
    mk_cache (entries c) (links c) (most_recent_entry c) (oldest_entry c) (free_entry c) (free_hash c) (first_hash c) (hashing c) (freeing c) (reads c) (writes_count c) (hits c) (max_hash c) (freed c ++ [x])
  else c.

Definition upd_entry (f : CACHED_GENERIC -> CACHED_GENERIC) (i : nat) (c : CACHE_HEADER) : res CACHE_HEADER :=
  match entries c !! i with Some e => Ok (with_entries <[i := f e]> c) | None => Undef end.
Definition set_next (p : option nat) : nat -> CACHE_HEADER -> res CACHE_HEADER :=
  upd_entry (fun e => mk_entry p (e_previous e) (e_variable e) (e_varsize e) (e_payload e)).
Definition set_previous (p : option nat) : nat -> CACHE_HEADER -> res CACHE_HEADER :=
  upd_entry (fun e => mk_entry (e_next e) p (e_variable e) (e_varsize e) (e_payload e)).
Definition set_variable (v : var) (n : Z) : nat -> CACHE_HEADER -> res CACHE_HEADER :=
  upd_entry (fun e => mk_entry (e_next e) (e_previous e) v n (e_payload e)).
Definition set_payload (x : P) : nat -> CACHE_HEADER -> res CACHE_HEADER :=
  upd_entry (fun e => mk_entry (e_next e) (e_previous e) (e_variable e) (e_varsize e) x).

(** ** The hash index *)

Definition in_hash (c : CACHE_HEADER) (h : Z) : bool := (0 <=? h) && (h <? max_hash c).

Definition inserthashindex (c : CACHE_HEADER) (current : nat) : res CACHE_HEADER :=
  if hashing c then
    e ← get_entry c current;
    x ← view e;
    let h := dohash x in
    if in_hash c h then
      match free_hash c with
      | Some link =>
          l ← get_link c link;
          first ← aget (first_hash c) h;
          Ok (with_links <[link := mk_link first current]> (set_hash (h_next l) (<[Z.to_nat h := Some link]> (first_hash c)) c))
      | None => Ok (drop_hashing c)
      end
    else Ok (drop_hashing c)
  else Ok c.

(** [while (link && (link->entry != current))]: the link before and the link. *)
Fixpoint find_link (fuel : nat) (c : CACHE_HEADER) (current : nat) (previous link : option nat) : res (option nat * option nat) :=
  match fuel with
  | O => Undef
  | S fuel =>
      match link with
      | None => Ok (previous, None)
      | Some i =>
          l ← get_link c i;
          if decide (h_entry l = current) then Ok (previous, link) else find_link fuel c current link (h_next l)
      end
  end.

Definition drophashindex (c : CACHE_HEADER) (current : nat) (hash : Z) : res CACHE_HEADER :=
  if hashing c then
    if in_hash c hash then
      first ← aget (first_hash c) hash;
      '(previous, link) ← find_link (S (length (links c))) c current None first;
      match link with
      | Some i =>
          l ← get_link c i;
          c ← match previous with
              | Some p => lp ← get_link c p; Ok (with_links <[p := mk_link (h_next l) (h_entry lp)]> c)
              | None => Ok (set_hash (free_hash c) (<[Z.to_nat hash := h_next l]> (first_hash c)) c)
              end;
          Ok (set_hash (Some i) (first_hash c) (with_links <[i := mk_link (free_hash c) (h_entry l)]> c))
      | None => Ok (drop_hashing c)
      end
    else Ok (drop_hashing c)
  else Ok c.

(** ** Search *)

Context (compare : content -> content -> bool).

(** [while (link && compare(link->entry, wanted))]: the entry found. *)
Fixpoint hash_search (fuel : nat) (c : CACHE_HEADER) (wanted : content) (link : option nat) : res (option nat) :=
  match fuel with
  | O => Undef
  | S fuel =>
      match link with
      | None => Ok None
      | Some i =>
          l ← get_link c i;
          e ← get_entry c (h_entry l);
          x ← view e;
          if compare x wanted then hash_search fuel c wanted (h_next l) else Ok (Some (h_entry l))
      end
  end.

(** [while (current && compare(current, wanted))] *)
Fixpoint lru_search (fuel : nat) (c : CACHE_HEADER) (wanted : content) (current : option nat) : res (option nat) :=
  match fuel with
  | O => Undef
  | S fuel =>
      match current with
      | None => Ok None
      | Some i =>
          e ← get_entry c i;
          x ← view e;
          if compare x wanted then lru_search fuel c wanted (e_next e) else Ok (Some i)
      end
  end.

(** The search by the hash table, or else in the list.  A chain has no more
    links, the list no more entries, than there are. *)
Definition search (c : CACHE_HEADER) (wanted : content) : res (option nat) :=
  if hashing c then
    link ← aget (first_hash c) (dohash wanted);
    hash_search (S (length (links c))) c wanted link
  else lru_search (S (length (entries c))) c wanted (most_recent_entry c).

(** ** Fetching *)

(** An entry that is not at the head is unlinked and relinked there. *)
Definition move_to_head (c : CACHE_HEADER) (current : nat) : res CACHE_HEADER :=
  e ← get_entry c current;
  match e_previous e with
  | None => Ok c
  | Some previous =>
      c ← set_next (e_next e) previous c;
      c ← match e_next e with
          | Some n => set_previous (e_previous e) n c
          | None => Ok (set_oldest (e_previous e) c)
          end;
      c ← set_next (most_recent_entry c) current c;
      c ← set_previous None current c;
      c ← match most_recent_entry c with Some m => set_previous (Some current) m c | None => Undef end;
      Ok (set_most_recent (Some current) c)
  end.

Definition ntfs_fetch_cache (c : CACHE_HEADER) (wanted : content) : res (option nat * CACHE_HEADER) :=
  r ← search c wanted;
  c ← match r with
      | Some current => c ← move_to_head (count_up 0 0 1 c) current; Ok c
      | None => Ok c
      end;
  Ok (r, count_up 1 0 0 c).

(** ** Entering *)

(** Memory for a variable part of [n] bytes, when there is. *)
Definition alloc (mem_ok : bool) (n : Z) : var := if mem_ok then VData (replicate (Z.to_nat n) 0) else VNull.

(** A free entry, or the oldest one: the entry to use. *)
Definition take_entry (c : CACHE_HEADER) (item : content) (mem_ok : bool) : res (nat * CACHE_HEADER) :=
  let varsize := zlen (c_var item) in
  match free_entry c with
  | Some current =>
      e ← get_entry c current;
      let c := set_free (e_next e) c in
      c ← set_variable (if varsize =? 0 then VNull else alloc mem_ok varsize) varsize current c;
      Ok (current, match oldest_entry c with None => set_oldest (Some current) c | Some _ => c end)
  | None =>
      match oldest_entry c with
      | None => Undef
      | Some current =>
          e ← get_entry c current;
          match e_previous e with
          | None => Undef
          | Some before =>
              c ← set_next None before c;
              x ← view e;
              c ← drophashindex c current (dohash x);
              let c := set_oldest (e_previous e) (call_free x c) in
              _ ← (if e_varsize e =? 0 then Ok tt else free_var (e_variable e));
              c ← set_variable (if varsize =? 0 then VNull else alloc mem_ok varsize) varsize current c;
              Ok (current, c)
          end
      end
  end.

(** The entry becomes the head of the list and gets the item; without memory for
    the variable part it is recycled in the free list. *)
Definition attach_entry (c : CACHE_HEADER) (item : content) (current : nat) : res (option nat * CACHE_HEADER) :=
  c ← set_next (most_recent_entry c) current c;
  c ← set_previous None current c;
  c ← match most_recent_entry c with Some m => set_previous (Some current) m c | None => Ok c end;
  let c := set_most_recent (Some current) c in
  c ← set_payload (c_payload item) current c;
  e ← get_entry c current;
  if zlen (c_var item) =? 0 then
    c ← set_variable VNull 0 current c;
    c ← inserthashindex c current;
    Ok (Some current, c)
  else
    match e_variable e with
    | VNull =>
        let c := set_most_recent (e_next e) c in
        c ← set_next (free_entry c) current c;
        Ok (None, set_free (Some current) c)
    | _ =>
        c ← set_variable (VData (c_var item)) (e_varsize e) current c;
        c ← inserthashindex c current;
        Ok (Some current, c)
    end.

Definition ntfs_enter_cache (c : CACHE_HEADER) (item : content) (mem_ok : bool) : res (option nat * CACHE_HEADER) :=
  r ← search c item;
  '(r, c) ← match r with
            | Some current => Ok (Some current, call_free item c)
            | None => '(current, c) ← take_entry c item mem_ok; attach_entry c item current
            end;
  Ok (r, count_up 0 1 0 c).

(** ** Invalidation *)

Definition do_invalidate (c : CACHE_HEADER) (current : nat) (flags : Z) : res CACHE_HEADER :=
  e ← get_entry c current;
  c ← (if negb (Z.land flags CACHE_FREE =? 0) then x ← view e; Ok (call_free x c) else Ok c);
  c ← match e_next e with
      | Some n => set_previous (e_previous e) n c
      | None => Ok (set_oldest (e_previous e) c)
      end;
  c ← match e_previous e with
      | Some p => set_next (e_next e) p c
      | None => Ok (set_most_recent (e_next e) c)
      end;
  c ← set_next (free_entry c) current c;
  let c := set_free (Some current) c in
  _ ← free_var (e_variable e);
  set_variable (match e_variable e with VNull => VNull | _ => VFreed end) 0 current c.

(** [while (link) ...] *)
Fixpoint invalidate_chain (fuel : nat) (c : CACHE_HEADER) (item : content) (h flags : Z) (link : option nat) (count : Z) : res (Z * CACHE_HEADER) :=
  match fuel with
  | O => Undef
  | S fuel =>
      match link with
      | None => Ok (count, c)
      | Some i =>
          l ← get_link c i;
          e ← get_entry c (h_entry l);
          x ← view e;
          if compare x item then invalidate_chain fuel c item h flags (h_next l) count else
          c ← drophashindex c (h_entry l) h;
          c ← do_invalidate c (h_entry l) flags;
          invalidate_chain fuel c item h flags (h_next l) (count + 1)
      end
  end.

(** [while (current) ...] *)
Fixpoint invalidate_list (fuel : nat) (c : CACHE_HEADER) (item : content) (flags : Z) (current : option nat) (count : Z) : res (Z * CACHE_HEADER) :=
  match fuel with
  | O => Undef
  | S fuel =>
      match current with
      | None => Ok (count, c)
      | Some i =>
          e ← get_entry c i;
          x ← view e;
          if compare x item then invalidate_list fuel c item flags (e_next e) count else
          c ← drophashindex c i (dohash x);
          c ← do_invalidate c i flags;
          invalidate_list fuel c item flags (e_next e) (count + 1)
      end
  end.

Definition ntfs_invalidate_cache (c : CACHE_HEADER) (item : content) (flags : Z) : res (Z * CACHE_HEADER) :=
  let nohash := negb (Z.land flags CACHE_NOHASH =? 0) in
  '(count, c) ← (if negb nohash && hashing c then
                   let h := dohash item in
                   link ← aget (first_hash c) h;
                   invalidate_chain (S (length (links c))) c item h flags link 0
                 else Ok (0, c));
  if nohash || negb (hashing c) then invalidate_list (S (length (entries c))) c item flags (most_recent_entry c) count
  else Ok (count, c).

Definition ntfs_remove_cache (c : CACHE_HEADER) (item : nat) (flags : Z) : res (Z * CACHE_HEADER) :=
  e ← get_entry c item;
  x ← view e;
  c ← drophashindex c item (dohash x);
  c ← do_invalidate c item flags;
  Ok (1, c).

(** ** Creation and release *)

(** The entries chained: the last has no next one. *)
Definition chain (n i : nat) : option nat := if (S i <? n)%nat then Some (S i) else None.

(** The header and the arrays; [junk] is what the memory holds.  [hash] says
    whether there is a hash function. *)
Definition ntfs_create_cache (junk : P) (free hash : bool) (item_count max_hash : Z) : CACHE_HEADER :=
  let n := Z.to_nat item_count in
  let h := negb (max_hash =? 0) in
  mk_cache (map (fun i => mk_entry (chain n i) None VNull 0 junk) (seq 0 n))
    (if h then map (fun i => mk_link (chain n i) 0) (seq 0 n) else [])
    None None (Some 0%nat)
    (if h then Some 0%nat else None) (if h then replicate (Z.to_nat max_hash) None else [])
    (hash && h) free 0 0 0 (if hash && h then max_hash else 0) [].

(** The loop of [ntfs_free_cache]: the log when the memory is released. *)
Fixpoint free_loop (fuel : nat) (c : CACHE_HEADER) (entry : option nat) : res (list content) :=
  match fuel with
  | O => Undef
  | S fuel =>
      match entry with
      | None => Ok (freed c)
      | Some i =>
          e ← get_entry c i;
          x ← view e;
          let c := call_free x c in
          _ ← free_var (e_variable e);
          free_loop fuel c (e_next e)
      end
  end.

Definition ntfs_free_cache (c : CACHE_HEADER) : res (list content) := free_loop (S (length (entries c))) c (most_recent_entry c).

End cache.

Arguments content P : clear implicits.
Arguments CACHED_GENERIC P : clear implicits.
Arguments CACHE_HEADER P : clear implicits.
