(* ===== verification/CacheHeap.v ===== *)
(** Linked lists in the arrays of a cache: doubly linked segments, chains, and
    what the updates of a field do to them. *)

From S2P Require Import Prelude Cache.

Section heap.
Context {P : Type}.
Implicit Types (es : list (CACHED_GENERIC P)) (i j : nat) (ids : list nat).

(** ** The fields of an entry *)

Definition nxt es i : option (option nat) := e_next <$> es !! i.
Definition prv es i : option (option nat) := e_previous <$> es !! i.
Definition body es i : option (P * var * Z) := (fun e => (e_payload e, e_variable e, e_varsize e)) <$> es !! i.

Definition put_next (p : option nat) (e : CACHED_GENERIC P) := mk_entry p (e_previous e) (e_variable e) (e_varsize e) (e_payload e).
Definition put_prev (p : option nat) (e : CACHED_GENERIC P) := mk_entry (e_next e) p (e_variable e) (e_varsize e) (e_payload e).
Definition put_var (v : var) (n : Z) (e : CACHED_GENERIC P) := mk_entry (e_next e) (e_previous e) v n (e_payload e).
Definition put_payload (x : P) (e : CACHED_GENERIC P) := mk_entry (e_next e) (e_previous e) (e_variable e) (e_varsize e) x.

Lemma lookup_alter_dec {A} (f : A -> A) (l : list A) i j : alter f i l !! j = if decide (i = j) then f <$> l !! j else l !! j.
Proof. rewrite list_lookup_alter. by destruct (decide (i = j)) as [->|]. Qed.

Lemma insert_alter {A} (f : A -> A) (l : list A) i e : l !! i = Some e -> <[i := f e]> l = alter f i l.
Proof.
  intros He. apply list_eq. intros j. rewrite lookup_alter_dec. destruct (decide (i = j)) as [<-|Hne].
  - rewrite He. apply list_lookup_insert_eq. by eapply lookup_lt_Some.
  - by apply list_lookup_insert_ne.
Qed.

Ltac field_tac := unfold nxt, prv, body; rewrite lookup_alter_dec; destruct (decide _); [|done]; match goal with |- context [?es !! ?j] => by destruct (es !! j) end.

Lemma nxt_next p i es j : nxt (alter (put_next p) i es) j = if decide (i = j) then (fun _ => p) <$> nxt es j else nxt es j.
Proof. field_tac. Qed.
Lemma prv_next p i es j : prv (alter (put_next p) i es) j = prv es j.
Proof. field_tac. Qed.
Lemma body_next p i es j : body (alter (put_next p) i es) j = body es j.
Proof. field_tac. Qed.
Lemma nxt_prev p i es j : nxt (alter (put_prev p) i es) j = nxt es j.
Proof. field_tac. Qed.
Lemma prv_prev p i es j : prv (alter (put_prev p) i es) j = if decide (i = j) then (fun _ => p) <$> prv es j else prv es j.
Proof. field_tac. Qed.
Lemma body_prev p i es j : body (alter (put_prev p) i es) j = body es j.
Proof. field_tac. Qed.
Lemma nxt_var v n i es j : nxt (alter (put_var v n) i es) j = nxt es j.
Proof. field_tac. Qed.
Lemma prv_var v n i es j : prv (alter (put_var v n) i es) j = prv es j.
Proof. field_tac. Qed.
Lemma body_var v n i es j : body (alter (put_var v n) i es) j = if decide (i = j) then (fun b => (b.1.1, v, n)) <$> body es j else body es j.
Proof. field_tac. Qed.
Lemma nxt_payload x i es j : nxt (alter (put_payload x) i es) j = nxt es j.
Proof. field_tac. Qed.
Lemma prv_payload x i es j : prv (alter (put_payload x) i es) j = prv es j.
Proof. field_tac. Qed.
Lemma body_payload x i es j : body (alter (put_payload x) i es) j = if decide (i = j) then (fun b => (x, b.1.2, b.2)) <$> body es j else body es j.
Proof. field_tac. Qed.

Lemma rev_case {A} (l : list A) : l = [] \/ exists l' x, l = l' ++ [x].
Proof. induction l as [|x l _] using rev_ind; [by left|right; by exists l, x]. Qed.

(** ** Doubly linked segments *)

(** The first of a list, or [n]. *)
Definition first ids (n : option nat) : option nat := match ids with [] => n | i :: _ => Some i end.
Fixpoint final ids (p : option nat) : option nat := match ids with [] => p | i :: ids => final ids (Some i) end.

(** [ids] are linked; [p] is before the first, [n] behind the last. *)
Fixpoint dll es (p : option nat) ids (n : option nat) : Prop :=
  match ids with
  | [] => True
  | i :: ids => prv es i = Some p /\ nxt es i = Some (first ids n) /\ dll es (Some i) ids n
  end.

Lemma first_app a b n : first (a ++ b) n = first a (first b n).
Proof. by destruct a. Qed.

Lemma final_app a : forall b p, final (a ++ b) p = final b (final a p).
Proof. induction a as [|i a IH]; intros b p; [done|]. cbn [app final]. apply IH. Qed.

Lemma final_snoc a i p : final (a ++ [i]) p = Some i.
Proof. by rewrite final_app. Qed.

Lemma dll_app es a : forall p b n, dll es p (a ++ b) n <-> dll es p a (first b n) /\ dll es (final a p) b n.
Proof.
  induction a as [|i a IH]; intros p b n; cbn [app dll]; [by split; [|intros []]|]. rewrite IH, first_app. cbn [final]. tauto.
Qed.

(** A segment depends on the links of its entries. *)
Lemma dll_ext es es' ids : forall p n, (forall i, i ∈ ids -> nxt es' i = nxt es i /\ prv es' i = prv es i) -> dll es p ids n -> dll es' p ids n.
Proof.
  induction ids as [|i ids IH]; intros p n Hi; cbn [dll]; [done|]. intros (H1 & H2 & H3). destruct (Hi i) as [E1 E2]; [by left|].
  rewrite E1, E2. split_and!; [done|done|]. apply IH; [|done]. intros j Hj. apply Hi. by right.
Qed.

Lemma dll_next es v k ids p n : k ∉ ids -> dll es p ids n -> dll (alter (put_next v) k es) p ids n.
Proof. intros Hk. apply dll_ext. intros i Hi. rewrite nxt_next, prv_next. rewrite decide_False by (by intros ->). done. Qed.
Lemma dll_prev es v k ids p n : k ∉ ids -> dll es p ids n -> dll (alter (put_prev v) k es) p ids n.
Proof. intros Hk. apply dll_ext. intros i Hi. rewrite nxt_prev, prv_prev. rewrite decide_False by (by intros ->). done. Qed.
Lemma dll_var es v s k ids p n : dll es p ids n -> dll (alter (put_var v s) k es) p ids n.
Proof. apply dll_ext. intros i Hi. by rewrite nxt_var, prv_var. Qed.
Lemma dll_payload es x k ids p n : dll es p ids n -> dll (alter (put_payload x) k es) p ids n.
Proof. apply dll_ext. intros i Hi. by rewrite nxt_payload, prv_payload. Qed.

(** The link behind the last, and the link before the first. *)
Lemma dll_set_last es v k a p n : k ∉ a -> dll es p (a ++ [k]) n -> dll (alter (put_next v) k es) p (a ++ [k]) v.
Proof.
  intros Hk. rewrite !dll_app. cbn [dll first]. intros (H1 & H2 & H3 & _). split; [by apply dll_next|]. rewrite prv_next, nxt_next, decide_True, H3 by done. done.
Qed.
Lemma dll_set_first es v k a p n : k ∉ a -> dll es p (k :: a) n -> dll (alter (put_prev v) k es) v (k :: a) n.
Proof. intros Hk. cbn [dll]. intros (H1 & H2 & H3). rewrite prv_prev, nxt_prev, decide_True, H1 by done. split_and!; [done|done|by apply dll_prev]. Qed.

(** ** Relinking *)

(** What is behind the last of [ids], and before the first of [ids], is [v]. *)
Definition relink_last ids v es := match final ids None with Some k => alter (put_next v) k es | None => es end.
Definition relink_first ids v es := match first ids None with Some k => alter (put_prev v) k es | None => es end.

Lemma final_in ids : forall p k, final ids p = Some k -> p = Some k \/ k ∈ ids.
Proof. induction ids as [|i ids IH]; intros p k; cbn [final]; [by left|]. intros [[= ->]|?]%IH; right; [by left|by right]. Qed.
Lemma first_in ids k : first ids None = Some k -> k ∈ ids.
Proof. destruct ids; [done|]. intros [= ->]. by left. Qed.

Lemma dll_relink_last es ids p n v : NoDup ids -> dll es p ids n -> dll (relink_last ids v es) p ids v.
Proof.
  intros Hnd. unfold relink_last. destruct (rev_case ids) as [->|(a & k & ->)]; [done|]. rewrite final_snoc. apply dll_set_last.
  apply list.NoDup_app in Hnd as (_ & H & _). intros Hk. apply (H k Hk). by left.
Qed.
Lemma dll_relink_first es ids p n v : NoDup ids -> dll es p ids n -> dll (relink_first ids v es) v ids n.
Proof. intros Hnd. unfold relink_first. destruct ids as [|k a]; [done|]. apply dll_set_first. by apply list.NoDup_cons in Hnd as [? _]. Qed.
Lemma dll_frame_last es ids v ids' p n : (forall k, k ∈ ids -> k ∉ ids') -> dll es p ids' n -> dll (relink_last ids v es) p ids' n.
Proof. intros H Hd. unfold relink_last. destruct (final ids None) as [k|] eqn:E; [|done]. apply dll_next; [|done]. apply H. by destruct (final_in ids None k E). Qed.
Lemma dll_frame_first es ids v ids' p n : (forall k, k ∈ ids -> k ∉ ids') -> dll es p ids' n -> dll (relink_first ids v es) p ids' n.
Proof. intros H Hd. unfold relink_first. destruct (first ids None) as [k|] eqn:E; [|done]. apply dll_prev; [|done]. by apply H, first_in. Qed.

Lemma nxt_relink_last ids v es j : j ∉ ids -> nxt (relink_last ids v es) j = nxt es j.
Proof.
  intros Hj. unfold relink_last. destruct (final ids None) as [k|] eqn:E; [|done]. rewrite nxt_next, decide_False; [done|]. intros ->. by destruct (final_in ids None j E).
Qed.
Lemma prv_relink_last ids v es j : prv (relink_last ids v es) j = prv es j.
Proof. unfold relink_last. destruct (final ids None); [|done]. apply prv_next. Qed.
Lemma nxt_relink_first ids v es j : nxt (relink_first ids v es) j = nxt es j.
Proof. unfold relink_first. destruct (first ids None); [|done]. apply nxt_prev. Qed.
Lemma prv_relink_first ids v es j : j ∉ ids -> prv (relink_first ids v es) j = prv es j.
Proof. intros Hj. unfold relink_first. destruct (first ids None) as [k|] eqn:E; [|done]. rewrite prv_prev, decide_False; [done|]. intros ->. by apply Hj, first_in. Qed.
Lemma body_relink_last ids v es j : body (relink_last ids v es) j = body es j.
Proof. unfold relink_last. destruct (final ids None); [|done]. apply body_next. Qed.
Lemma body_relink_first ids v es j : body (relink_first ids v es) j = body es j.
Proof. unfold relink_first. destruct (first ids None); [|done]. apply body_prev. Qed.
Lemma length_relink_last ids v es : length (relink_last ids v es) = length es.
Proof. unfold relink_last. destruct (final ids None); [|done]. apply length_alter. Qed.
Lemma length_relink_first ids v es : length (relink_first ids v es) = length es.
Proof. unfold relink_first. destruct (first ids None); [|done]. apply length_alter. Qed.

(** The list with [i] taken out and put before the others. *)
Definition unlinked ids ids' es := relink_first ids' (final ids None) (relink_last ids (first ids' None) es).
Definition pushed i ids es := relink_first ids (Some i) (alter (put_prev None) i (alter (put_next (first ids None)) i es)).

Lemma nxt_unlinked A B es j : j ∉ A -> nxt (unlinked A B es) j = nxt es j.
Proof. intros. unfold unlinked. by rewrite nxt_relink_first, nxt_relink_last. Qed.
Lemma body_unlinked A B es j : body (unlinked A B es) j = body es j.
Proof. unfold unlinked. by rewrite body_relink_first, body_relink_last. Qed.
Lemma length_unlinked A B es : length (unlinked A B es) = length es.
Proof. unfold unlinked. by rewrite length_relink_first, length_relink_last. Qed.
Lemma nxt_pushed i ids es j : j <> i -> nxt (pushed i ids es) j = nxt es j.
Proof. intros. unfold pushed. by rewrite nxt_relink_first, nxt_prev, nxt_next, decide_False by congruence. Qed.
Lemma body_pushed i ids es j : body (pushed i ids es) j = body es j.
Proof. unfold pushed. by rewrite body_relink_first, body_prev, body_next. Qed.
Lemma length_pushed i ids es : length (pushed i ids es) = length es.
Proof. unfold pushed. by rewrite length_relink_first, !length_alter. Qed.

Lemma relink_comm A B v w es : relink_last A v (relink_first B w es) = relink_first B w (relink_last A v es).
Proof.
  unfold relink_last, relink_first. destruct (final A None) as [p|], (first B None) as [n|]; try done. apply list_eq. intros j. rewrite !lookup_alter_dec.
  destruct (decide (p = j)), (decide (n = j)); try done. by destruct (es !! j).
Qed.

(** Taking [i] out of a list. *)
Lemma dll_unlink es A i B : NoDup (A ++ i :: B) -> dll es None (A ++ i :: B) None ->
  dll (unlinked A B es) None (A ++ B) None.
Proof.
  intros Hnd Hd. apply dll_app in Hd as [D1 (_ & _ & D4)]. apply list.NoDup_app in Hnd as (HA & Hd & HB). apply list.NoDup_cons in HB as [Hi HB].
  unfold unlinked. apply dll_app. split.
  - apply dll_frame_first; [intros k Hk Hk'; apply (Hd k Hk'); by right|]. by eapply dll_relink_last.
  - eapply dll_relink_first; [done|]. apply dll_frame_last; [intros k Hk Hk'; apply (Hd k Hk); by right|]. done.
Qed.

(** Putting [i] before a list. *)
Lemma dll_push es i ids : i ∉ ids -> NoDup ids -> (i < length es)%nat -> dll es None ids None ->
  dll (pushed i ids es) None (i :: ids) None.
Proof.
  intros Hi Hnd Hl Hd. unfold pushed. destruct (lookup_lt_is_Some_2 _ _ Hl) as [e He]. cbn [dll]. rewrite prv_relink_first, nxt_relink_first by done.
  rewrite prv_prev, nxt_prev, prv_next, nxt_next, !decide_True by done. unfold prv, nxt. rewrite He. split_and!; [done|done|].
  eapply dll_relink_first; [done|]. apply dll_prev; [done|]. by apply dll_next.
Qed.

(** ** Chains *)

Fixpoint sll es ids : Prop := match ids with [] => True | i :: ids => nxt es i = Some (first ids None) /\ sll es ids end.

Lemma sll_ext es es' ids : (forall i, i ∈ ids -> nxt es' i = nxt es i) -> sll es ids -> sll es' ids.
Proof.
  induction ids as [|i ids IH]; intros Hi; cbn [sll]; [done|]. intros [H1 H2]. rewrite Hi by by left. split; [done|]. apply IH; [|done]. intros j Hj. apply Hi. by right.
Qed.
Lemma sll_next es v k ids : k ∉ ids -> sll es ids -> sll (alter (put_next v) k es) ids.
Proof. intros Hk. apply sll_ext. intros i Hi. rewrite nxt_next. by rewrite decide_False by (by intros ->). Qed.
Lemma sll_prev es v k ids : sll es ids -> sll (alter (put_prev v) k es) ids.
Proof. apply sll_ext. intros i Hi. by rewrite nxt_prev. Qed.
Lemma sll_var es v s k ids : sll es ids -> sll (alter (put_var v s) k es) ids.
Proof. apply sll_ext. intros i Hi. by rewrite nxt_var. Qed.
Lemma sll_payload es x k ids : sll es ids -> sll (alter (put_payload x) k es) ids.
Proof. apply sll_ext. intros i Hi. by rewrite nxt_payload. Qed.

(** ** The updates *)

Lemma upd_entry_eq f i (c : CACHE_HEADER P) : (i < length (entries c))%nat -> upd_entry f i c = Ok (with_entries (alter f i) c).
Proof. intros [e He]%lookup_lt_is_Some_2. unfold upd_entry. rewrite He. unfold with_entries. by rewrite insert_alter. Qed.

Lemma set_next_eq v i (c : CACHE_HEADER P) : (i < length (entries c))%nat -> set_next v i c = Ok (with_entries (alter (put_next v) i) c).
Proof. apply upd_entry_eq. Qed.
Lemma set_previous_eq v i (c : CACHE_HEADER P) : (i < length (entries c))%nat -> set_previous v i c = Ok (with_entries (alter (put_prev v) i) c).
Proof. apply upd_entry_eq. Qed.
Lemma set_variable_eq v n i (c : CACHE_HEADER P) : (i < length (entries c))%nat -> set_variable v n i c = Ok (with_entries (alter (put_var v n) i) c).
Proof. apply upd_entry_eq. Qed.
Lemma set_payload_eq x i (c : CACHE_HEADER P) : (i < length (entries c))%nat -> set_payload x i c = Ok (with_entries (alter (put_payload x) i) c).
Proof. apply upd_entry_eq. Qed.

End heap.
