(* ===== verification/CacheHash.v ===== *)
(** The hash index of a cache: every cached entry has a link in the chain of its
    hash value, and the other links are free. *)

From S2P Require Import Prelude Cache CacheHeap.

Section hash.
Context {P : Type} (dohash : content P -> Z).
Implicit Types (ls : list HASH_ENTRY) (ch : list (nat * nat)) (L : list (nat * content P)).

(** A chain: the links with their entries, and what is behind. *)
Fixpoint hseg ls ch (n : option nat) : Prop :=
  match ch with
  | [] => True
  | (k, i) :: ch => ls !! k = Some (mk_link (first ch.*1 n) i) /\ hseg ls ch n
  end.

(** The free links. *)
Fixpoint fchain ls (ks : list nat) : Prop :=
  match ks with
  | [] => True
  | k :: ks => h_next <$> ls !! k = Some (first ks None) /\ fchain ls ks
  end.

(** The index of the entries [L]: [chains] by hash value, [fl] the free links. *)
Record hash_rep (c : CACHE_HEADER P) L (chains : list (list (nat * nat))) (fl : list nat) : Prop := {
  hr_max : Z.of_nat (length chains) = max_hash c;
  hr_first : first_hash c = (fun ch => first ch.*1 None) <$> chains;
  hr_chains : Forall (fun ch => hseg (links c) ch None) chains;
  hr_free : fchain (links c) fl;
  hr_free_hash : free_hash c = first fl None;
  hr_links : (concat chains).*1 ++ fl ≡ₚ seq 0 (length (links c));
  hr_entries : (concat chains).*2 ≡ₚ L.*1;
  hr_hash : forall h ch k i, chains !! h = Some ch -> (k, i) ∈ ch -> exists x, (i, x) ∈ L /\ dohash x = Z.of_nat h
}.

Definition hash_ok (c : CACHE_HEADER P) L : Prop := exists chains fl, hash_rep c L chains fl.

(** ** Chains *)

Lemma hseg_app ls a : forall b n, hseg ls (a ++ b) n <-> hseg ls a (first b.*1 n) /\ hseg ls b n.
Proof.
  induction a as [|[k i] a IH]; intros b n; cbn [app hseg]; [tauto|]. rewrite IH, fmap_app, first_app. tauto.
Qed.

Lemma hseg_ext ls ls' ch n : (forall k, k ∈ ch.*1 -> ls' !! k = ls !! k) -> hseg ls ch n -> hseg ls' ch n.
Proof.
  induction ch as [|[k i] ch IH]; intros Hk; cbn [hseg]; [done|]. intros [H1 H2]. rewrite Hk by (cbn; by left). split; [done|]. apply IH; [|done].
  intros j Hj. apply Hk. cbn. by right.
Qed.

Lemma hseg_insert ls j e ch n : j ∉ ch.*1 -> hseg ls ch n -> hseg (<[j := e]> ls) ch n.
Proof. intros Hj. apply hseg_ext. intros k Hk. apply list_lookup_insert_ne. by intros ->. Qed.

Lemma fchain_ext ls ls' ks : (forall k, k ∈ ks -> ls' !! k = ls !! k) -> fchain ls ks -> fchain ls' ks.
Proof.
  induction ks as [|k ks IH]; intros Hk; cbn [fchain]; [done|]. intros [H1 H2]. rewrite Hk by by left. split; [done|]. apply IH; [|done]. intros j Hj. apply Hk. by right.
Qed.

Lemma fchain_insert ls j e ks : j ∉ ks -> fchain ls ks -> fchain (<[j := e]> ls) ks.
Proof.
  induction ks as [|k ks IH]; cbn [fchain]; [done|]. intros Hj [H1 H2]. apply not_elem_of_cons in Hj as [Hj Hj']. rewrite list_lookup_insert_ne by done. split; [done|]. by apply IH.
Qed.

(** Setting the link behind the last. *)
Lemma hseg_set_last ls a k i n v : k ∉ a.*1 -> hseg ls (a ++ [(k, i)]) n -> hseg (<[k := mk_link v i]> ls) (a ++ [(k, i)]) v.
Proof.
  intros Hk. rewrite !hseg_app. cbn. intros (H1 & H2 & _). split; [by apply hseg_insert|]. split; [|done]. apply list_lookup_insert_eq. by eapply lookup_lt_Some.
Qed.

Lemma hseg_lookup ls a k i b n : hseg ls (a ++ (k, i) :: b) n -> ls !! k = Some (mk_link (first b.*1 n) i).
Proof. rewrite hseg_app. cbn. tauto. Qed.

(** The walk to the link of an entry. *)
Lemma find_link_spec (c : CACHE_HEADER P) i k b n a : forall p fuel, hseg (links c) (a ++ (k, i) :: b) n -> i ∉ a.*2 -> (length a < fuel)%nat ->
  find_link fuel c i p (first (a ++ (k, i) :: b).*1 n) = Ok (final a.*1 p, Some k).
Proof.
  induction a as [|[k' i'] a IH]; intros p [|fuel] Hs Hi Hf; cbn in Hf; try lia; cbn [app fmap list_fmap fst first find_link final hseg] in *; destruct Hs as [Hk Hs].
  - unfold get_link. rewrite Hk. cbn [mbind res_bind h_entry]. by rewrite decide_True.
  - unfold get_link. rewrite Hk. cbn [mbind res_bind h_entry h_next]. apply not_elem_of_cons in Hi as [Hi Hi']. rewrite decide_False by done. apply IH; [done|done|lia].
Qed.

(** One chain and the others. *)
Lemma chains_split (chains : list (list (nat * nat))) h ch : chains !! h = Some ch -> exists rest, concat chains ≡ₚ ch ++ rest /\
  (forall ch', concat (<[h := ch']> chains) ≡ₚ ch' ++ rest).
Proof.
  intros Hh. exists (concat (take h chains) ++ concat (drop (S h) chains)). pose proof (lookup_lt_Some _ _ _ Hh) as Hl.
  assert (forall ch', concat (<[h := ch']> chains) ≡ₚ ch' ++ concat (take h chains) ++ concat (drop (S h) chains)) as Hi.
  { intros ch'. rewrite insert_take_drop by done. rewrite concat_app. cbn [concat]. rewrite !(assoc_L (++)). f_equiv. apply Permutation_app_comm. }
  split; [|done]. rewrite <- (Hi ch). by rewrite list_insert_id.
Qed.

Lemma in_concat_chain (chains : list (list (nat * nat))) p : p ∈ concat chains -> exists h ch, chains !! h = Some ch /\ p ∈ ch.
Proof.
  rewrite list_elem_of_In, in_concat. intros (ch & Hch & Hp). apply list_elem_of_In, list_elem_of_lookup in Hch as [h Hh]. apply list_elem_of_In in Hp. by exists h, ch.
Qed.

Lemma chain_in_concat (chains : list (list (nat * nat))) h ch p : chains !! h = Some ch -> p ∈ ch -> p ∈ concat chains.
Proof. intros Hh Hp. destruct (chains_split chains h ch Hh) as (rest & E & _). rewrite E. by apply elem_of_app; left. Qed.

(** An entry has one item. *)
Lemma item_unique L i x y : NoDup L.*1 -> (i, x) ∈ L -> (i, y) ∈ L -> x = y.
Proof.
  intros Hnd [p1 H1]%list_elem_of_lookup [p2 H2]%list_elem_of_lookup.
  assert (p1 = p2) as -> by (eapply (NoDup_lookup L.*1); [done|by rewrite list_lookup_fmap, H1|by rewrite list_lookup_fmap, H2]). rewrite H1 in H2. by injection H2.
Qed.

Section rep.
Context (c : CACHE_HEADER P) (L : list (nat * content P)) (chains : list (list (nat * nat))) (fl : list nat).
Hypothesis Hr : hash_rep c L chains fl.

Lemma links_nodup : NoDup ((concat chains).*1 ++ fl).
Proof. rewrite (hr_links _ _ _ _ Hr). apply NoDup_seq. Qed.

Lemma link_range k : k ∈ (concat chains).*1 ++ fl -> (k < length (links c))%nat.
Proof. rewrite (hr_links _ _ _ _ Hr), elem_of_seq. lia. Qed.

Lemma chain_at h ch : chains !! h = Some ch -> aget (first_hash c) (Z.of_nat h) = Ok (first ch.*1 None).
Proof.
  intros Hh. unfold aget. rewrite (proj2 (Z.ltb_ge _ 0)) by lia. rewrite Nat2Z.id, (hr_first _ _ _ _ Hr), list_lookup_fmap, Hh. done.
Qed.

Lemma chain_hseg h ch : chains !! h = Some ch -> hseg (links c) ch None.
Proof. intros Hh. by apply (Forall_lookup_1 _ _ _ _ (hr_chains _ _ _ _ Hr) Hh). Qed.

Lemma chain_length h ch : chains !! h = Some ch -> (length ch <= length (links c))%nat.
Proof.
  intros Hh. destruct (chains_split chains h ch Hh) as (rest & E & _). pose proof (Permutation_length (hr_links _ _ _ _ Hr)) as El.
  rewrite length_app, length_fmap, length_seq, (Permutation_length E), length_app in El. lia.
Qed.

Lemma chain_nodup h ch : chains !! h = Some ch -> NoDup L.*1 -> NoDup ch.*1 /\ NoDup ch.*2.
Proof.
  intros Hh Hnd. destruct (chains_split chains h ch Hh) as (rest & E & _). pose proof links_nodup as Hl. assert (NoDup (concat chains).*2) as He by (by rewrite (hr_entries _ _ _ _ Hr)).
  rewrite E, fmap_app in Hl, He. apply list.NoDup_app in Hl as [Hl _]. apply list.NoDup_app in Hl as [? _]. by apply list.NoDup_app in He as [? _].
Qed.

(** Every hash value has its chain. *)
Lemma chain_of x : 0 <= dohash x < max_hash c -> exists ch, chains !! Z.to_nat (dohash x) = Some ch.
Proof. intros Hx. apply lookup_lt_is_Some_2. pose proof (hr_max _ _ _ _ Hr). lia. Qed.

Lemma hash_perm L' : L ≡ₚ L' -> hash_rep c L' chains fl.
Proof.
  intros E. destruct Hr. split; try done; [by rewrite <- E|]. intros h ch k i Hh Hk. destruct (hr_hash0 h ch k i Hh Hk) as (x & Hx & Hd). exists x. by rewrite <- E.
Qed.
End rep.

(** ** Entering and dropping *)

Section ops.
Context (c : CACHE_HEADER P) (L : list (nat * content P)).

Lemma insert_spec i x e : hashing c = true -> hash_ok c L -> (length L < length (links c))%nat -> 0 <= dohash x < max_hash c ->
  entries c !! i = Some e -> view e = Ok x ->
  exists ls fh fst_h, inserthashindex dohash c i = Ok (with_links (fun _ => ls) (set_hash fh fst_h c)) /\ length ls = length (links c) /\
    hash_ok (with_links (fun _ => ls) (set_hash fh fst_h c)) ((i, x) :: L).
Proof.
  intros Hon (chains & fl & Hr) Hlen Hx He Hv. pose proof (links_nodup _ _ _ _ Hr) as Hnd. destruct (chain_of _ _ _ _ Hr x Hx) as [ch Hch].
  unfold inserthashindex, get_entry. rewrite Hon, He. cbn [mbind res_bind]. rewrite Hv. cbn [mbind res_bind]. unfold in_hash. rewrite (proj2 (Z.leb_le _ _)), (proj2 (Z.ltb_lt _ _)) by lia. cbn [andb].
  destruct fl as [|k fl].
  { exfalso. pose proof (Permutation_length (hr_links _ _ _ _ Hr)) as E1. pose proof (Permutation_length (hr_entries _ _ _ _ Hr)) as E2.
    rewrite app_nil_r, length_fmap, length_seq in E1. rewrite !length_fmap in E2. lia. }
  rewrite (hr_free_hash _ _ _ _ Hr). cbn [first]. pose proof (hr_free _ _ _ _ Hr) as [Hk Hfl]. unfold get_link. destruct (links c !! k) as [l|] eqn:El; [|done]. injection Hk as Hk. cbn [mbind res_bind].
  pose proof (chain_at _ _ _ _ Hr _ _ Hch) as Hat. rewrite Z2Nat.id in Hat by lia. rewrite Hat. cbn [mbind res_bind]. rewrite Hk.
  eexists _, _, _. split; [reflexivity|]. split; [apply length_insert|]. exists (<[Z.to_nat (dohash x) := (k, i) :: ch]> chains), fl.
  apply list.NoDup_app in Hnd as (Hn1 & Hn2 & Hn3). apply list.NoDup_cons in Hn3 as [Hn3 Hn4]. destruct (chains_split chains _ ch Hch) as (rest & E & Ei).
  assert (forall ch', ch' ∈ chains -> k ∉ ch'.*1) as Hout.
  { intros ch' [h Hh]%list_elem_of_lookup Hk'. apply (Hn2 k); [|by left]. apply list_elem_of_fmap in Hk' as (p & -> & Hp). apply list_elem_of_fmap_2. by eapply chain_in_concat. }
  assert (k < length (links c))%nat as Hlt by (by eapply lookup_lt_Some). split; cbn [max_hash first_hash links free_hash with_links set_hash].
  - rewrite length_insert. apply Hr.
  - rewrite list_fmap_insert. cbn. by rewrite (hr_first _ _ _ _ Hr).
  - apply Forall_insert.
    + apply Forall_lookup_2. intros h ch' Hh. apply hseg_insert; [apply Hout; by eapply list_elem_of_lookup_2|by eapply chain_hseg].
    + split; [by apply list_lookup_insert_eq|]. apply hseg_insert; [apply Hout; by eapply list_elem_of_lookup_2|by eapply chain_hseg].
  - by apply fchain_insert.
  - done.
  - rewrite length_insert, <- (hr_links _ _ _ _ Hr), Ei, E. cbn [app fmap list_fmap fst]. by rewrite <- Permutation_middle.
  - rewrite Ei. cbn [app fmap list_fmap snd]. f_equiv. rewrite <- (hr_entries _ _ _ _ Hr). by rewrite E.
  - intros h ch' k' i' Hh Hp. apply list_lookup_insert_Some in Hh as [(<- & <- & _)|[_ Hh]].
    + apply elem_of_cons in Hp as [[= -> ->]|Hp]; [exists x; split; [by left|lia]|]. destruct (hr_hash _ _ _ _ Hr _ _ _ _ Hch Hp) as (y & Hy & Ey). exists y. split; [by right|done].
    + destruct (hr_hash _ _ _ _ Hr _ _ _ _ Hh Hp) as (y & Hy & Ey). exists y. split; [by right|done].
Qed.
(** The link of an entry: where it is in the chain of its hash value. *)
Lemma link_of chains fl i x : hash_rep c L chains fl -> (i, x) ∈ L -> NoDup L.*1 ->
  exists h ch a k b, dohash x = Z.of_nat h /\ chains !! h = Some ch /\ ch = a ++ ((k, i) :: b) /\ (i ∉ a.*2) /\ (i ∉ b.*2).
Proof.
  intros Hr Hix Hnd. assert (i ∈ (concat chains).*2) as Hi by (rewrite (hr_entries _ _ _ _ Hr); apply list_elem_of_fmap; by exists (i, x)).
  apply list_elem_of_fmap in Hi as ([k i'] & -> & Hp). cbn [snd] in *. destruct (in_concat_chain chains _ Hp) as (h & ch & Hh & Hin).
  destruct (hr_hash _ _ _ _ Hr _ _ _ _ Hh Hin) as (y & Hy & Ey).
  rewrite (item_unique L i' y x) in Ey by done.
  destruct (chains_split chains h ch Hh) as (rest & E & _). assert (NoDup ch.*2) as Hndc.
  { assert (NoDup (concat chains).*2) as Hn by (by rewrite (hr_entries _ _ _ _ Hr)). rewrite E, fmap_app in Hn. by apply list.NoDup_app in Hn as [? _]. }
  apply list_elem_of_split in Hin as (a & b & ->). exists h, (a ++ (k, i') :: b), a, k, b. rewrite fmap_app in Hndc. cbn [fmap list_fmap snd] in Hndc.
  apply list.NoDup_app in Hndc as (_ & Hd & Hc). apply list.NoDup_cons in Hc as [Hc _]. split_and!; try done. intros Ha. apply (Hd i' Ha). by left.
Qed.

(** The index when the chain of [h] has lost the link [k] and it is free. *)
Lemma drop_rep chains fl h a k i b x L' ls1 : hash_rep c L chains fl -> chains !! h = Some (a ++ (k, i) :: b) -> L ≡ₚ ((i, x) :: L') -> NoDup L.*1 ->
  length ls1 = length (links c) -> (forall j, j ∉ a.*1 -> ls1 !! j = links c !! j) -> hseg ls1 (a ++ b) None ->
  hash_ok (with_links (fun _ => <[k := mk_link (free_hash c) i]> ls1) (set_hash (Some k) (<[h := first (a ++ b).*1 None]> (first_hash c)) c)) L'.
Proof.
  intros Hr Hch EL Hnd Hlen Hsame Hseg. exists (<[h := a ++ b]> chains), (k :: fl). pose proof (links_nodup _ _ _ _ Hr) as Hln.
  destruct (chains_split chains h _ Hch) as (rest & E & Ei). assert ((concat chains).*1 ≡ₚ (a ++ b).*1 ++ (k :: rest.*1)) as E1.
  { rewrite E, !fmap_app. cbn [fmap list_fmap fst]. rewrite <- !(assoc_L (++)). f_equiv. cbn [app]. apply Permutation_middle. }
  rewrite E1 in Hln. rewrite <- (assoc_L (++)) in Hln. cbn [app] in Hln. rewrite <- Permutation_middle in Hln. apply list.NoDup_cons in Hln as [Hk Hln].
  assert (k < length ls1)%nat as Hkl.
  { rewrite Hlen. apply (link_range _ _ _ _ Hr). rewrite E1. apply elem_of_app. left. apply elem_of_app. right. by left. }
  split; cbn [max_hash first_hash links free_hash with_links set_hash].
  - rewrite length_insert. apply Hr.
  - rewrite list_fmap_insert. by rewrite (hr_first _ _ _ _ Hr).
  - apply Forall_lookup_2. intros h' ch' Hh'. apply list_lookup_insert_Some in Hh' as [(<- & <- & _)|[Hne Hh']].
    + apply hseg_insert; [|done]. intros Hin. apply Hk. apply elem_of_app. by left.
    + assert (forall q, q ∈ ch'.*1 -> q ∈ rest.*1) as Hrest.
      { intros q (p & -> & Hp)%list_elem_of_fmap. apply list_elem_of_fmap_2. destruct (chains_split (<[h := []]> chains) h' ch') as (r2 & E2 & _); [by rewrite list_lookup_insert_ne|].
        rewrite Ei in E2. cbn [app] in E2. rewrite E2. apply elem_of_app. by left. }
      apply list.NoDup_app in Hln as (_ & Hd & _).
      apply hseg_insert; [intros Hin%Hrest; apply Hk; apply elem_of_app; right; apply elem_of_app; by left|].
      apply (hseg_ext (links c)); [|by eapply chain_hseg]. intros q Hq%Hrest. apply Hsame. intros Ha. apply (Hd q); [rewrite fmap_app; apply elem_of_app; by left|apply elem_of_app; by left].
  - cbn [fchain]. rewrite list_lookup_insert_eq by done. cbn. rewrite (hr_free_hash _ _ _ _ Hr). split; [done|]. apply fchain_insert; [intros Hin; apply Hk; rewrite !elem_of_app; tauto|].
    apply (fchain_ext (links c)); [|apply Hr]. intros q Hq. apply Hsame. intros Ha. apply list.NoDup_app in Hln as (_ & Hd & _). apply (Hd q); [rewrite fmap_app; apply elem_of_app; by left|apply elem_of_app; by right].
  - done.
  - rewrite length_insert, Hlen, <- (hr_links _ _ _ _ Hr), Ei, E1, fmap_app. rewrite <- !(assoc_L (++)). f_equiv. cbn [app]. by rewrite <- Permutation_middle.
  - rewrite Ei. pose proof (hr_entries _ _ _ _ Hr) as He. rewrite E, EL, !fmap_app in He. cbn [fmap list_fmap fst snd] in He. rewrite !fmap_app.
    rewrite <- !(assoc_L (++)) in He. cbn [app] in He. rewrite <- Permutation_middle in He. apply Permutation_cons_inv in He. by rewrite <- !(assoc_L (++)).
  - intros h' ch' k' i' Hh' Hp. assert (exists y, (i', y) ∈ L /\ dohash y = Z.of_nat h' /\ i' <> i) as (y & Hy & Ey & Hne).
    2:{ exists y. split; [|done]. rewrite EL in Hy. apply elem_of_cons in Hy as [[= ? ?]|?]; done. }
    assert (NoDup (concat chains).*2) as Hn2 by (by rewrite (hr_entries _ _ _ _ Hr)). rewrite E, !fmap_app in Hn2. cbn [fmap list_fmap snd] in Hn2.
    rewrite <- !(assoc_L (++)) in Hn2. cbn [app] in Hn2. rewrite <- Permutation_middle in Hn2. apply list.NoDup_cons in Hn2 as [Hi _].
    assert ((k', i') ∈ (a ++ b) ++ rest) as Hin by (rewrite <- Ei; by eapply chain_in_concat).
    assert (i' <> i) as Hne. { intros ->. apply Hi. rewrite (assoc_L (++)), <- !fmap_app. apply list_elem_of_fmap. by exists (k', i). }
    apply list_lookup_insert_Some in Hh' as [(<- & <- & _)|[_ Hh']].
    + destruct (hr_hash _ _ _ _ Hr h _ k' i' Hch) as (y & ? & ?); [|by exists y]. apply elem_of_app in Hp as [?|?]; apply elem_of_app; [by left|right; by right].
    + destruct (hr_hash _ _ _ _ Hr h' _ k' i' Hh' Hp) as (y & ? & ?). by exists y.
Qed.

(** Dropping the link of [i]: it becomes free. *)
Lemma drop_spec i x L' : hashing c = true -> hash_ok c L -> L ≡ₚ ((i, x) :: L') -> NoDup L.*1 ->
  exists ls fh fst_h, drophashindex c i (dohash x) = Ok (with_links (fun _ => ls) (set_hash fh fst_h c)) /\ length ls = length (links c) /\
    hash_ok (with_links (fun _ => ls) (set_hash fh fst_h c)) L'.
Proof.
  intros Hon (chains & fl & Hr) EL Hnd. destruct (link_of chains fl i x Hr) as (h & ch & a & k & b & Eh & Hch & Ech & Hia & Hib); [rewrite EL; by left|done|].
  pose proof (links_nodup _ _ _ _ Hr) as Hln. pose proof (chain_hseg _ _ _ _ Hr _ _ Hch) as Hseg. pose proof (chain_length _ _ _ _ Hr _ _ Hch) as Hlen.
  pose proof (lookup_lt_Some _ _ _ Hch) as Hhl. pose proof (hr_max _ _ _ _ Hr) as Hmax. destruct (chains_split chains h ch Hch) as (rest & E & Ei).
  unfold drophashindex. rewrite Hon. unfold in_hash. rewrite Eh, (proj2 (Z.leb_le 0 _)), (proj2 (Z.ltb_lt _ (max_hash c))) by lia. cbn [andb].
  rewrite (chain_at _ _ _ _ Hr _ _ Hch). cbn [mbind res_bind]. rewrite Ech in Hseg, Hlen |- *. rewrite (find_link_spec c i k b None a) by (done || (rewrite length_app in Hlen; lia)).
  cbn [mbind res_bind]. pose proof (hseg_lookup _ _ _ _ _ _ Hseg) as Hk. unfold get_link. rewrite Hk. cbn [mbind res_bind h_next h_entry].
  rewrite Ech in Hch. destruct (rev_case a) as [->|(a' & [kp ip] & ->)].
  - cbn [fmap list_fmap final app mbind res_bind] in *. rewrite Nat2Z.id.
    exists (<[k := mk_link (free_hash c) i]> (links c)), (Some k), (<[h := first b.*1 None]> (first_hash c)). split; [reflexivity|]. split; [apply length_insert|].
    apply (drop_rep chains fl h [] k i b x L' (links c)); try done. by destruct Hseg.
  - rewrite fmap_app. cbn [fmap list_fmap fst]. rewrite final_snoc. rewrite <- (assoc_L (++)) in Hseg, Hch. cbn [app] in Hseg, Hch.
    pose proof (hseg_lookup _ _ _ _ _ _ Hseg) as Hkp. rewrite Hkp. cbn [mbind res_bind h_entry].
    assert (<[h := first (a' ++ (kp, ip) :: b).*1 None]> (first_hash c) = first_hash c) as Ef.
    { apply list_insert_id. pose proof (chain_at _ _ _ _ Hr _ _ Hch) as Hat. unfold aget in Hat. rewrite (proj2 (Z.ltb_ge _ 0)), Nat2Z.id in Hat by lia.
        destruct (first_hash c !! h); [|done]. injection Hat as ->. by rewrite !fmap_app, !first_app. }
    exists (<[k := mk_link (free_hash c) i]> (<[kp := mk_link (first b.*1 None) ip]> (links c))), (Some k), (<[h := first (a' ++ (kp, ip) :: b).*1 None]> (first_hash c)).
    split; [by rewrite Ef|]. split; [by rewrite !length_insert|]. clear Ef.
    replace (a' ++ ((kp, ip) :: b)) with ((a' ++ [(kp, ip)]) ++ b) by (by rewrite <- (assoc_L (++))).
    eapply (drop_rep chains fl h (a' ++ [(kp, ip)]) k i b x L' _ Hr); [by rewrite <- (assoc_L (++))|done|done|by rewrite length_insert| |].
    + intros j Hj. apply list_lookup_insert_ne. intros <-. apply Hj. rewrite fmap_app. apply elem_of_app. right. by left.
    + assert ((kp ∉ a'.*1) /\ (kp ∉ b.*1)) as [Hka Hkb].
      { rewrite E, Ech, <- (assoc_L (++)), !fmap_app in Hln. cbn [app fmap list_fmap fst] in Hln. rewrite <- !(assoc_L (++)) in Hln. apply list.NoDup_app in Hln as (_ & Hd & Hln).
        cbn [app] in Hln. apply list.NoDup_cons in Hln as [Hln _]. split; [intros Ha; apply (Hd kp Ha); by left|]. intros Hb. apply Hln. rewrite ?elem_of_app, ?elem_of_cons, ?elem_of_app. tauto. }
      replace (a' ++ ((kp, ip) :: (k, i) :: b)) with ((a' ++ [(kp, ip)]) ++ ((k, i) :: b)) in Hseg by (by rewrite <- (assoc_L (++))). rewrite hseg_app in Hseg |- *. destruct Hseg as [H1 [_ H2]].
      split; [by eapply hseg_set_last|by apply hseg_insert].
Qed.
(** Dropping a link leaves what is behind it in its chain. *)
Lemma drop_frame c' i h a k b : hashing c = true -> in_hash c h = true -> aget (first_hash c) h = Ok (first (a ++ (k, i) :: b).*1 None) ->
  hseg (links c) (a ++ (k, i) :: b) None -> i ∉ a.*2 -> NoDup (a ++ (k, i) :: b).*1 -> (length a <= length (links c))%nat ->
  drophashindex c i h = Ok c' -> hseg (links c') b None.
Proof.
  intros Hon Hin Hf Hs Hi Hnd Hlen. unfold drophashindex. rewrite Hon, Hin, Hf. cbn [mbind res_bind]. rewrite (find_link_spec c i k b None a) by (done || lia). cbn [mbind res_bind].
  pose proof (hseg_lookup _ _ _ _ _ _ Hs) as Hk. unfold get_link. rewrite Hk. cbn [mbind res_bind h_next h_entry]. rewrite fmap_app in Hnd. cbn [fmap list_fmap fst] in Hnd.
  apply list.NoDup_app in Hnd as (_ & Hd & Hn). apply list.NoDup_cons in Hn as [Hkb _]. apply hseg_app in Hs as [_ [_ Hb]].
  destruct (final a.*1 None) as [p|] eqn:Ep.
  - destruct (links c !! p) as [lp|]; [|done]. cbn [mbind res_bind]. intros [= <-]. cbn [links with_links set_hash]. apply hseg_insert; [done|]. apply hseg_insert; [|done].
    intros Hp. destruct (final_in _ _ _ Ep) as [?|Hpa]; [done|]. apply (Hd p Hpa). by right.
  - cbn [mbind res_bind]. intros [= <-]. cbn [links with_links set_hash]. by apply hseg_insert.
Qed.
End ops.

End hash.
