(* ===== verification/CacheThm.v ===== *)
(** A cache behaves as a bounded list of items, the most recently used first. *)

From S2P Require Import Prelude Cache CacheHeap CacheHash.

Section thm.
Context {P K : Type} `{EqDecision K} (key : content P -> K) (hashk : K -> Z).

(** Items are compared by key, and the hash value is that of the key. *)
Definition compare (x w : content P) : bool := negb (bool_decide (key x = key w)).
Definition dohash (x : content P) : Z := hashk (key x).

(** * Specification *)

(** The cache as the list of its items. *)
Definition spec_find (k : K) (l : list (content P)) : option (content P) := find (fun x => bool_decide (key x = k)) l.
Definition spec_without (k : K) (l : list (content P)) : list (content P) := List.filter (fun x => negb (bool_decide (key x = k))) l.

Definition spec_fetch (k : K) (l : list (content P)) : list (content P) :=
  match spec_find k l with Some x => x :: spec_without k l | None => l end.

(** An item that is there stays as it is; otherwise the oldest makes room. *)
Definition spec_enter (cap : nat) (x : content P) (l : list (content P)) : list (content P) :=
  match spec_find (key x) l with Some _ => l | None => x :: take (cap - 1) l end.

(** * Representation *)

(** What an entry holds of an item. *)
Definition var_of (d : list Z) : var := match d with [] => VNull | _ => VData d end.
Definition body_of (x : content P) : P * var * Z := (c_payload x, var_of (c_var x), zlen (c_var x)).

(** [L] are the entries with their items, the most recent first, [F] the free
    ones. *)
Record rep (c : CACHE_HEADER P) (L : list (nat * content P)) (F : list nat) : Prop := {
  rp_list : dll (entries c) None L.*1 None;
  rp_recent : most_recent_entry c = first L.*1 None;
  rp_oldest : oldest_entry c = final L.*1 None;
  rp_free : sll (entries c) F;
  rp_free_entry : free_entry c = first F None;
  rp_ids : L.*1 ++ F ≡ₚ seq 0 (length (entries c));
  rp_body : Forall (fun p => body (entries c) p.1 = Some (body_of p.2)) L;
  rp_hash : hashing c = true -> hash_ok dohash c L /\ length (links c) = length (entries c);
  rp_keys : NoDup (key <$> L.*2)
}.

(** What no operation changes. *)
Definition same_shape (c c' : CACHE_HEADER P) : Prop :=
  length (entries c') = length (entries c) /\ hashing c' = hashing c /\ freeing c' = freeing c /\ max_hash c' = max_hash c.

(** * Access *)

Lemma view_body (es : list (CACHED_GENERIC P)) i x : body es i = Some (body_of x) -> exists e, es !! i = Some e /\ view e = Ok x /\ e_variable e = var_of (c_var x) /\ e_varsize e = zlen (c_var x).
Proof.
  unfold body, body_of. destruct (es !! i) as [e|]; [|done]. intros [= Hp Hv Hs]. exists e. split; [done|]. unfold view. rewrite Hv, Hp. destruct x as [p [|d0 d]]; done.
Qed.

Section rep.
Context (c : CACHE_HEADER P) (L : list (nat * content P)) (F : list nat) (Hr : rep c L F).

Lemma ids_nodup : NoDup (L.*1 ++ F).
Proof. rewrite (rp_ids _ _ _ Hr). apply NoDup_seq. Qed.

Lemma list_nodup : NoDup L.*1.
Proof. pose proof ids_nodup as H. by apply list.NoDup_app in H as [? _]. Qed.

Lemma id_range i : i ∈ L.*1 ++ F -> (i < length (entries c))%nat.
Proof. rewrite (rp_ids _ _ _ Hr), elem_of_seq. lia. Qed.

Lemma item_entry i x : (i, x) ∈ L -> exists e, get_entry c i = Ok e /\ view e = Ok x /\ e_variable e = var_of (c_var x) /\ e_varsize e = zlen (c_var x) /\
  nxt (entries c) i = Some (e_next e) /\ prv (entries c) i = Some (e_previous e).
Proof.
  intros Hi. pose proof (proj1 (Forall_forall _ _) (rp_body _ _ _ Hr) (i, x)) as Hb. rewrite <- list_elem_of_In in Hb. specialize (Hb Hi). cbn [fst snd] in Hb.
  destruct (view_body _ _ _ Hb) as (e & He & Hv & H1 & H2). exists e. unfold get_entry, nxt, prv. by rewrite He.
Qed.

(** ** The search *)

Lemma lru_search_spec w : forall a b p fuel, L = a ++ b -> (length b < fuel)%nat -> dll (entries c) p b.*1 None ->
  lru_search compare fuel c w (first b.*1 None) = Ok (option_map fst (find (fun q => bool_decide (key q.2 = key w)) b)).
Proof.
  intros a b. revert a. induction b as [|[i x] b IH]; intros a p [|fuel] E Hf Hd; cbn in Hf; try lia; [done|].
  cbn [fmap list_fmap fst first lru_search]. destruct (item_entry i x) as (e & He & Hv & _ & _ & Hn & _); [rewrite E; apply elem_of_app; right; by left|].
  rewrite He. cbn [mbind res_bind]. rewrite Hv. cbn [mbind res_bind]. unfold compare. cbn [find snd]. destruct (bool_decide (key x = key w)); [done|]. cbn [negb].
  cbn [fmap list_fmap fst dll] in Hd. destruct Hd as (_ & Hn' & Hd). rewrite Hn in Hn'. injection Hn' as ->.
  apply (IH (a ++ [(i, x)]) (Some i)); [by rewrite <- (assoc_L (++))|lia|done].
Qed.

Lemma hash_search_spec w : forall a b fuel, hseg (links c) (a ++ b) None -> (forall k i, (k, i) ∈ b -> exists x, (i, x) ∈ L) -> (length b < fuel)%nat ->
  exists r, hash_search compare fuel c w (first b.*1 None) = Ok r /\
  match r with Some i => exists x, (i, x) ∈ L /\ key x = key w | None => forall k i x, (k, i) ∈ b -> (i, x) ∈ L -> key x <> key w end.
Proof.
  intros a b. revert a. induction b as [|[k i] b IH]; intros a [|fuel] Hs Hb Hf; cbn in Hf; try lia.
  { exists None. split; [done|]. intros k i x Hin. by apply elem_of_nil in Hin. }
  cbn [fmap list_fmap fst first hash_search]. pose proof (hseg_lookup _ _ _ _ _ _ Hs) as Hk. unfold get_link. rewrite Hk. cbn [mbind res_bind h_entry h_next].
  destruct (Hb k i) as (x & Hx); [by left|]. destruct (item_entry i x Hx) as (e & He & Hv & _). rewrite He. cbn [mbind res_bind]. rewrite Hv. cbn [mbind res_bind]. unfold compare.
  case_bool_decide as Ek; cbn [negb].
  - exists (Some i). split; [done|]. by exists x.
  - destruct (IH (a ++ [(k, i)]) fuel) as (r & Hr' & Hres); [by rewrite <- (assoc_L (++))|intros k' i' H'; apply (Hb k'); by right|lia|]. exists r. split; [done|].
    destruct r as [j|]; [done|]. intros k' i' y [[= -> ->]|Hin]%elem_of_cons Hy; [|by eapply Hres]. intros Ey. apply Ek. rewrite <- Ey. f_equal.
    apply (item_unique L i); [apply list_nodup|done|done].
Qed.

Lemma cache_search_spec w : (hashing c = true -> 0 <= dohash w < max_hash c) -> exists r, search dohash compare c w = Ok r /\
  match r with Some i => exists a x b, L = a ++ ((i, x) :: b) /\ key x = key w | None => Forall (fun p => key p.2 <> key w) L end.
Proof.
  intros Hw. unfold search. destruct (hashing c) eqn:Hon.
  - destruct (rp_hash _ _ _ Hr Hon) as [(chains & fl & Hh) _]. specialize (Hw eq_refl). destruct (chain_of _ _ _ _ _ Hh w Hw) as [ch Hch].
    pose proof (chain_at _ _ _ _ _ Hh _ _ Hch) as Hat. rewrite Z2Nat.id in Hat by lia. rewrite Hat. cbn [mbind res_bind]. pose proof (chain_length _ _ _ _ _ Hh _ _ Hch) as Hlen.
    assert (forall k i, (k, i) ∈ ch -> exists x, (i, x) ∈ L) as Hin by (intros k i Hk; destruct (hr_hash _ _ _ _ _ Hh _ _ _ _ Hch Hk) as (x & ? & _); by exists x).
    destruct (hash_search_spec w [] ch (S (length (links c)))) as (r & Hs & Hres); [by eapply chain_hseg|done|lia|]. exists r. split; [done|]. destruct r as [i|].
    + destruct Hres as (x & Hx & Ek). apply list_elem_of_split in Hx as (a & b & E). by exists a, x, b.
    + apply Forall_forall. intros [i x] Hx%list_elem_of_In Ek. cbn [snd] in Ek. destruct (link_of dohash c L chains fl i x Hh Hx list_nodup) as (h & ch' & a & k & b & Eh & Hch' & -> & _).
      assert (Z.to_nat (dohash w) = h) as Ehw by (unfold dohash in *; rewrite <- Ek, Eh; lia). rewrite Ehw in Hch. rewrite Hch in Hch'. injection Hch' as ->.
      apply (Hres k i x); [apply elem_of_app; right; by left|done|done].
  - pose proof (Permutation_length (rp_ids _ _ _ Hr)) as El. rewrite length_app, length_fmap, length_seq in El.
    rewrite (rp_recent _ _ _ Hr), (lru_search_spec w [] L None) by (done || lia || apply Hr). eexists. split; [done|].
    destruct (find _ L) as [[i x]|] eqn:Ef; cbn [option_map fst].
    + apply find_some in Ef as [Hx Ek]. apply list_elem_of_In, list_elem_of_split in Hx as (a & b & E). exists a, x, b. split; [done|]. by apply bool_decide_eq_true in Ek.
    + apply Forall_forall. intros p Hp. pose proof (find_none _ _ Ef p Hp) as Ek. cbn beta in Ek. by apply bool_decide_eq_false in Ek.
Qed.
End rep.

(** ** Fetching *)

(** An entry of the list: what its links are, and what is apart. *)
Lemma entry_links c a i x b F : rep c (a ++ ((i, x) :: b)) F -> exists e, get_entry c i = Ok e /\ view e = Ok x /\ e_variable e = var_of (c_var x) /\ e_varsize e = zlen (c_var x) /\
  e_previous e = final a.*1 None /\ e_next e = first b.*1 None /\ (i < length (entries c))%nat /\ NoDup (a.*1 ++ i :: b.*1) /\
  (forall k, k ∈ a.*1 -> (k < length (entries c))%nat) /\ (forall k, k ∈ b.*1 -> (k < length (entries c))%nat) /\
  (forall k, k ∈ F -> (k ∉ a.*1) /\ (k ∉ b.*1) /\ k <> i /\ (k < length (entries c))%nat).
Proof.
  intros Hr. destruct (item_entry _ _ _ Hr i x) as (e & He & Hv & Hv1 & Hv2 & Hn & Hp); [apply elem_of_app; right; by left|].
  pose proof (ids_nodup _ _ _ Hr) as Hnd. pose proof (id_range _ _ _ Hr) as Hrange. pose proof (rp_list _ _ _ Hr) as Hd. rewrite fmap_app in Hd, Hnd, Hrange. cbn [fmap list_fmap fst] in Hd, Hnd, Hrange.
  apply dll_app in Hd as [D1 (D2 & D3 & D4)]. rewrite Hp in D2. rewrite Hn in D3. injection D2 as D2. injection D3 as D3. exists e. apply list.NoDup_app in Hnd as (Hnd & Hd & _).
  split_and!; try done; intros.
  - apply Hrange. rewrite !elem_of_app, elem_of_cons. tauto.
  - apply Hrange. rewrite !elem_of_app. tauto.
  - apply Hrange. rewrite !elem_of_app, elem_of_cons. tauto.
  - split_and!; [intros Hk; apply (Hd k); [rewrite elem_of_app; tauto|done]|intros Hk; apply (Hd k); [rewrite elem_of_app, elem_of_cons; tauto|done]|
      intros ->; apply (Hd i); [rewrite elem_of_app, elem_of_cons; tauto|done]|apply Hrange; rewrite elem_of_app; tauto].
Qed.

(** The header with other entries, and other ends of the list. *)
Definition relisted (es : list (CACHED_GENERIC P)) (m o : option nat) (c : CACHE_HEADER P) : CACHE_HEADER P := set_most_recent m (set_oldest o (with_entries (fun _ => es) c)).

(** Computes the fields of an updated header. *)
Ltac is_record c := lazymatch c with mk_cache _ _ _ _ _ _ _ _ _ _ _ _ _ _ => idtac | _ => is_var c end.
Ltac is_setter t := lazymatch t with
  | with_entries _ ?c => is_record c | with_links _ ?c => is_record c | set_most_recent _ ?c => is_record c | set_oldest _ ?c => is_record c
  | set_free _ ?c => is_record c | set_hash _ _ ?c => is_record c | count_up _ _ _ ?c => is_record c
  end.
Ltac flattened t :=
  let u := eval unfold with_entries, with_links, set_most_recent, set_oldest, set_free, set_hash, count_up in t in
  eval cbn [entries links most_recent_entry oldest_entry free_entry free_hash first_hash hashing freeing reads writes_count hits max_hash freed] in u.
(** A nest of updates becomes one record, the innermost update first. *)
Ltac flat :=
  unfold relisted; repeat match goal with |- context [?t] => is_setter t; let v := flattened t in change t with v end;
  cbn [entries links most_recent_entry oldest_entry free_entry free_hash first_hash hashing freeing reads writes_count hits max_hash freed].
Ltac flat_in H :=
  unfold relisted in H; repeat match type of H with context [?t] => is_setter t; let v := flattened t in change t with v in H end;
  cbn [entries links most_recent_entry oldest_entry free_entry free_hash first_hash hashing freeing reads writes_count hits max_hash freed] in H.

(** The list is as before, in another order and with other links. *)
Lemma rep_relisted c L L' F es : rep c L F -> L ≡ₚ L' -> length es = length (entries c) -> dll es None L'.*1 None ->
  (forall j, j ∈ F -> nxt es j = nxt (entries c) j) -> (forall j, body es j = body (entries c) j) -> rep (relisted es (first L'.*1 None) (final L'.*1 None) c) L' F.
Proof.
  intros [Hl Hm Ho Hfr Hfe Hids Hb Hh Hk] EL El Hd Hn Hbd. unfold relisted. split; cbn [entries most_recent_entry oldest_entry free_entry hashing with_entries set_oldest set_most_recent]; try done.
  - by eapply sll_ext.
  - by rewrite El, <- Hids, EL.
  - rewrite <- EL. eapply List.Forall_impl; [|exact Hb]. intros p Hp. by rewrite Hbd.
  - intros Hon. destruct (Hh Hon) as [(chains & fl & Hh1) Hh2]. rewrite El. split; [|done]. exists chains, fl. apply (hash_perm dohash _ _ _ _) with (L' := L') in Hh1; [|done]. by destruct Hh1.
  - by rewrite <- EL.
Qed.

(** Unlinking, when there is an entry before [i]. *)
Lemma unlink_exec (c : CACHE_HEADER P) A pr B : final A None = Some pr -> (forall k, k ∈ A -> (k < length (entries c))%nat) -> (forall k, k ∈ B -> (k < length (entries c))%nat) ->
  (c' ← set_next (first B None) pr c; match first B None with Some n => set_previous (Some pr) n c' | None => Ok (set_oldest (Some pr) c') end)
  = Ok (set_oldest (match B with [] => Some pr | _ => oldest_entry c end) (with_entries (fun _ => unlinked A B (entries c)) c)).
Proof.
  intros EA HA HB. rewrite set_next_eq by (apply HA; by destruct (final_in A None pr EA)). cbn [mbind res_bind]. unfold unlinked, relink_first, relink_last. rewrite EA.
  destruct B as [|n B]; [done|]. cbn [first]. by rewrite set_previous_eq by (cbn [entries with_entries]; rewrite length_alter; apply HB; by left).
Qed.

(** The list with [i] unlinked and relinked at the head. *)
Lemma move_spec c a i x b F : rep c (a ++ ((i, x) :: b)) F -> exists c', move_to_head c i = Ok c' /\ rep c' ((i, x) :: a ++ b) F /\ same_shape c c' /\ freed c' = freed c.
Proof.
  intros Hr. destruct (entry_links c a i x b F Hr) as (e & He & _ & _ & _ & Ep & En & Hi & Hnd & HA & HB & HF). pose proof (rp_list _ _ _ Hr) as Hl. pose proof (rp_recent _ _ _ Hr) as Hm. pose proof (rp_oldest _ _ _ Hr) as Ho.
  rewrite fmap_app in Hl, Hm, Ho. cbn [fmap list_fmap fst] in Hl, Hm, Ho. unfold move_to_head. rewrite He. cbn [mbind res_bind]. rewrite Ep, En.
  destruct (rev_case a) as [->|(a' & [pr y] & Ea)]; [by exists c|]. set (A := a.*1) in *. set (B := b.*1) in *. set (es := entries c) in *.
  assert (final A None = Some pr /\ (exists m, first A None = Some m /\ m ∈ A)) as [EA (m & EmA & HmA)].
  { unfold A. rewrite Ea, fmap_app. cbn. rewrite final_snoc. split; [done|]. destruct a'.*1; cbn; eexists; (split; [done|by left]). }
  assert (most_recent_entry c = Some m) as Em by (rewrite Hm, first_app; by destruct A). assert (Some m = first (A ++ B) None) as Em' by (rewrite first_app; by destruct A).
  assert ((i ∉ A ++ B) /\ NoDup (A ++ B)) as [HiAB HndAB] by (rewrite <- Permutation_middle in Hnd; by apply list.NoDup_cons in Hnd).
  rewrite EA. pose proof (unlink_exec c A pr B EA HA HB) as Hun. fold es in Hun. destruct (set_next (first B None) pr c) as [c1| |]; cbn [mbind res_bind] in Hun |- *; try done. rewrite Hun. cbn [mbind res_bind].
  set (es2 := unlinked A B es). assert (length es2 = length es) as El2 by apply length_unlinked.
  rewrite set_next_eq by (cbn; lia). cbn [mbind res_bind]. rewrite set_previous_eq by (cbn; rewrite length_alter; lia). cbn [mbind res_bind most_recent_entry with_entries set_oldest]. rewrite Em.
  rewrite set_previous_eq by (cbn; rewrite !length_alter; pose proof (HA m HmA); lia). cbn [mbind res_bind]. eexists. split; [reflexivity|].
  flat. split; [|by unfold same_shape; flat; rewrite !length_alter].
  assert (pushed i (A ++ B) es2 = alter (put_prev (Some i)) m (alter (put_prev None) i (alter (put_next (Some m)) i es2))) as Epush by (unfold pushed, relink_first; by rewrite <- Em').
  pose proof (rep_relisted c _ ((i, x) :: a ++ b) F (pushed i (A ++ B) es2) Hr) as Hrep. rewrite fmap_cons, fmap_app in Hrep. cbn [fst first final] in Hrep. fold A B in Hrep. rewrite Epush in Hrep.
  assert (final (A ++ B) (Some i) = match B with [] => Some pr | _ => oldest_entry c end) as Eo.
  { rewrite Ho, !final_app. destruct B; [|done]. cbn [final]. unfold A. rewrite Ea, fmap_app. cbn. by rewrite final_snoc. }
  rewrite Eo in Hrep. flat_in Hrep. apply Hrep; [by rewrite <- Permutation_middle|by rewrite !length_alter|..]; rewrite <- Epush.
  - apply dll_push; [done|done|lia|]. by apply dll_unlink with (i := i).
  - intros j Hj. destruct (HF j Hj) as (? & ? & ? & _). rewrite nxt_pushed by done. by apply nxt_unlinked.
  - intros j. rewrite body_pushed. apply body_unlinked.
Qed.
Lemma rep_same c c' L F : entries c' = entries c -> links c' = links c -> most_recent_entry c' = most_recent_entry c -> oldest_entry c' = oldest_entry c ->
  free_entry c' = free_entry c -> free_hash c' = free_hash c -> first_hash c' = first_hash c -> hashing c' = hashing c -> max_hash c' = max_hash c -> rep c L F -> rep c' L F.
Proof.
  intros E1 E2 E3 E4 E5 E6 E7 E8 E9 [Hl Hm Ho Hfr Hfe Hids Hb Hh Hk]. split; rewrite ?E1, ?E2, ?E3, ?E4, ?E5, ?E8; try done. intros Hon. destruct (Hh Hon) as [(chains & fl & [? ? ? ? ? ? ? ?]) ?].
  split; [|done]. exists chains, fl. split; rewrite ?E2, ?E6, ?E7, ?E9; done.
Qed.

Lemma rep_count c L F r w h : rep c L F -> rep (count_up r w h c) L F.
Proof. by apply rep_same. Qed.

Lemma rep_call_free c L F x : rep c L F -> rep (call_free x c) L F.
Proof. unfold call_free. destruct (freeing c); [by apply rep_same|done]. Qed.

Lemma fetch_rep c L F w : rep c L F -> (hashing c = true -> 0 <= dohash w < max_hash c) -> exists r c', ntfs_fetch_cache dohash compare c w = Ok (r, c') /\ same_shape c c' /\ freed c' = freed c /\
  match r with
  | Some i => exists a x b, L = a ++ ((i, x) :: b) /\ key x = key w /\ rep c' ((i, x) :: a ++ b) F
  | None => Forall (fun p => key p.2 <> key w) L /\ rep c' L F
  end.
Proof.
  intros Hr Hw. destruct (cache_search_spec c L F Hr w Hw) as (r & Hs & Hres). unfold ntfs_fetch_cache. rewrite Hs. cbn [mbind res_bind]. destruct r as [i|].
  - destruct Hres as (a & x & b & -> & Ek). destruct (move_spec (count_up 0 0 1 c) a i x b F (rep_count _ _ _ _ _ _ Hr)) as (c' & Hm & Hr' & Hsh & Hfr). rewrite Hm. cbn [mbind res_bind].
    exists (Some i), (count_up 1 0 0 c'). split; [done|]. split; [exact Hsh|]. split; [exact Hfr|]. exists a, x, b. split; [done|]. split; [done|]. by apply rep_count.
  - cbn [mbind res_bind]. exists None, (count_up 1 0 0 c). split; [done|]. split; [by unfold same_shape|]. split; [done|]. split; [done|]. by apply rep_count.
Qed.

(** ** Entering *)

Lemma Forall_impl_in {A} (Q R : A -> Prop) (l : list A) : Forall Q l -> (forall y, y ∈ l -> Q y -> R y) -> Forall R l.
Proof. rewrite !Forall_forall. intros HQ HR y Hy. apply HR; [by apply list_elem_of_In|by apply HQ]. Qed.

(** The entry [i] is taken out: neither in the list nor free. *)
Record detached (c : CACHE_HEADER P) (i : nat) (L : list (nat * content P)) (F : list nat) : Prop := {
  dt_list : dll (entries c) None L.*1 None;
  dt_recent : most_recent_entry c = first L.*1 None;
  dt_oldest : oldest_entry c = final L.*1 (Some i);
  dt_free : sll (entries c) F;
  dt_free_entry : free_entry c = first F None;
  dt_ids : i :: L.*1 ++ F ≡ₚ seq 0 (length (entries c));
  dt_body : Forall (fun p => body (entries c) p.1 = Some (body_of p.2)) L;
  dt_hash : hashing c = true -> hash_ok dohash c L /\ length (links c) = length (entries c);
  dt_keys : NoDup (key <$> L.*2)
}.

(** Memory for the variable part of an item is there. *)
Definition allocated (c : CACHE_HEADER P) (i : nat) (item : content P) : Prop :=
  exists p, body (entries c) i = Some (p, if zlen (c_var item) =? 0 then VNull else VData (replicate (Z.to_nat (zlen (c_var item))) 0), zlen (c_var item)).

Lemma take_free c L f F item : rep c L (f :: F) -> exists c', take_entry dohash c item true = Ok (f, c') /\ detached c' f L F /\ allocated c' f item /\ same_shape c c' /\ freed c' = freed c.
Proof.
  intros Hr. pose proof Hr as [Hl Hm Ho Hfr Hfe Hids Hb Hh Hk]. pose proof (ids_nodup _ _ _ Hr) as Hnd. apply list.NoDup_app in Hnd as (Hn1 & Hn2 & Hn3). apply list.NoDup_cons in Hn3 as [Hn3 _].
  assert (f < length (entries c))%nat as Hf by (apply (id_range _ _ _ Hr); rewrite elem_of_app, elem_of_cons; tauto). destruct (lookup_lt_is_Some_2 _ _ Hf) as [e He].
  cbn [sll] in Hfr. destruct Hfr as [Hfn Hfr]. unfold nxt in Hfn. rewrite He in Hfn. injection Hfn as Hfn.
  unfold take_entry. rewrite Hfe. cbn [first]. unfold get_entry. rewrite He. cbn [mbind res_bind]. rewrite set_variable_eq by (cbn; lia). cbn [mbind res_bind]. rewrite Hfn.
  set (n := zlen (c_var item)). set (v := if n =? 0 then VNull else alloc true n). exists (set_oldest (final L.*1 (Some f)) (with_entries (alter (put_var v n) f) (set_free (first F None) c))).
  assert (f ∉ L.*1) as HfL by (intros Hin; apply (Hn2 f Hin); by left). split.
  { do 2 f_equal. cbn [oldest_entry with_entries set_free]. rewrite Ho. destruct (rev_case L) as [->|(L' & [q y] & ->)]; [done|]. rewrite fmap_app. cbn. rewrite !final_snoc. flat. by rewrite Ho, fmap_app; cbn; rewrite final_snoc. }
  flat. split; [split|split; [|split]]; cbn [entries most_recent_entry oldest_entry free_entry hashing]; rewrite ?length_alter; try done.
  - by apply dll_var.
  - by apply sll_var.
  - rewrite <- Hids. by rewrite <- Permutation_middle.
  - eapply Forall_impl_in; [exact Hb|]. intros p Hp Hbp. rewrite body_var, decide_False; [done|]. intros E. apply HfL. rewrite E. by apply list_elem_of_fmap_2.
  - intros Hon. destruct (Hh Hon) as [(chains & fl & [? ? ? ? ? ? ? ?]) ?]. split; [|done]. by exists chains, fl.
  - unfold allocated. cbn [entries]. rewrite body_var, decide_True by done. unfold body. rewrite He. by eexists.
  - by unfold same_shape; flat; rewrite length_alter.
Qed.
(** Dropping the link of an entry, when there is hashing. *)
Lemma drop_any (c : CACHE_HEADER P) L i x L' : (hashing c = true -> hash_ok dohash c L) -> L ≡ₚ ((i, x) :: L') -> NoDup L.*1 ->
  exists ls fh fst_h, drophashindex c i (dohash x) = Ok (with_links (fun _ => ls) (set_hash fh fst_h c)) /\ length ls = length (links c) /\
    (hashing c = true -> hash_ok dohash (with_links (fun _ => ls) (set_hash fh fst_h c)) L').
Proof.
  intros Hh EL Hnd. destruct (hashing c) eqn:Hon.
  - destruct (drop_spec dohash c L i x L' Hon (Hh eq_refl) EL Hnd) as (ls & fh & f1 & Hd & Hl & Hok). by exists ls, fh, f1.
  - exists (links c), (free_hash c), (first_hash c). split; [|done]. unfold drophashindex. rewrite Hon. by destruct c.
Qed.

Lemma hash_ok_same (c c' : CACHE_HEADER P) L : links c' = links c -> free_hash c' = free_hash c -> first_hash c' = first_hash c -> max_hash c' = max_hash c ->
  hash_ok dohash c L -> hash_ok dohash c' L.
Proof. intros E1 E2 E3 E4 (chains & fl & []). exists chains, fl. split; rewrite ?E1, ?E2, ?E3, ?E4; done. Qed.

Lemma free_var_of d : free_var (var_of d) = Ok tt.
Proof. by destruct d. Qed.

Definition logged (c : CACHE_HEADER P) (y : content P) : list (content P) := if freeing c then [y] else [].

Lemma call_free_eq y (c : CACHE_HEADER P) : call_free y c = mk_cache (entries c) (links c) (most_recent_entry c) (oldest_entry c) (free_entry c) (free_hash c) (first_hash c)
  (hashing c) (freeing c) (reads c) (writes_count c) (hits c) (max_hash c) (freed c ++ logged c y).
Proof. unfold call_free, logged. destruct c as [? ? ? ? ? ? ? ? fr ? ? ? ? ?]. cbn. destruct fr; [done|]. by rewrite app_nil_r. Qed.

Lemma take_oldest c L o y item : rep c (L ++ [(o, y)]) [] -> L <> [] -> exists c', take_entry dohash c item true = Ok (o, c') /\ detached c' o L [] /\ allocated c' o item /\
  same_shape c c' /\ freed c' = freed c ++ logged c y.
Proof.
  intros Hr Hne. destruct (entry_links c L o y [] [] Hr) as (e & He & Hv & Hv1 & Hv2 & Ep & _ & Hi & Hnd & HA & _ & _). pose proof Hr as [Hl Hm Ho Hfr Hfe Hids Hb Hh Hk].
  rewrite fmap_app in Hl, Hm, Ho, Hids. cbn [fmap list_fmap fst] in Hl, Hm, Ho, Hids. rewrite final_snoc in Ho.
  destruct (rev_case L) as [->|(L' & [before z] & EL)]; [done|]. assert (final L.*1 None = Some before) as Ef by (rewrite EL, fmap_app; cbn; apply final_snoc).
  assert (before ∈ L.*1) as Hbf by (by destruct (final_in L.*1 None before Ef)).
  unfold take_entry. rewrite Hfe, Ho, He. cbn [first mbind res_bind]. rewrite Ep, Ef. rewrite set_next_eq by (by apply HA). cbn [mbind res_bind]. rewrite Hv. cbn [mbind res_bind].
  set (es1 := alter (put_next None) before (entries c)). assert (es1 = relink_last L.*1 None (entries c)) as Ees1 by (unfold es1, relink_last; by rewrite Ef).
  destruct (drop_any (with_entries (alter (put_next None) before) c) (L ++ [(o, y)]) o y L) as (ls & fh & f1 & Hd & Hls & Hok).
  { intros Hon. eapply (hash_ok_same c); try done. by apply Hh. } { by rewrite Permutation_app_comm. } { rewrite fmap_app. cbn. apply Hnd. }
  rewrite Hd. cbn [mbind res_bind]. rewrite call_free_eq. flat. fold es1. flat_in Hok. fold es1 in Hok.
  assert ((if e_varsize e =? 0 then Ok tt else free_var (e_variable e)) = Ok tt) as -> by (rewrite Hv1, free_var_of; by destruct (_ =? 0)). cbn [mbind res_bind].
  assert (length es1 = length (entries c)) as El by apply length_alter. rewrite set_variable_eq by (cbn; lia). cbn [mbind res_bind]. eexists. split; [reflexivity|].
  assert (o ∉ L.*1) as HoL by (apply list.NoDup_app in Hnd as (_ & Hd' & _); intros Hin; apply (Hd' o Hin); by left). apply list.NoDup_app in Hnd as (HndL & _ & _).
  flat. split; [split|split; [|split]]; cbn [entries most_recent_entry oldest_entry free_entry hashing links]; rewrite ?length_alter, ?El; try done.
  - apply dll_var. rewrite Ees1. apply dll_app in Hl as [Hl _]. by eapply dll_relink_last.
  - rewrite Hm, EL, fmap_app. by destruct L'.
  - rewrite EL, fmap_app. cbn. by rewrite final_snoc.
  - rewrite <- Hids, !app_nil_r. by rewrite Permutation_app_comm.
  - apply Forall_app in Hb as [Hb _]. eapply Forall_impl_in; [exact Hb|]. intros p Hp Hbp. rewrite body_var, decide_False.
    + unfold es1. by rewrite body_next.
    + intros E. apply HoL. rewrite E. by apply list_elem_of_fmap_2.
  - intros Hon. split; [by eapply hash_ok_same; [..|exact (Hok Hon)]|]. rewrite Hls. by apply Hh.
  - rewrite !fmap_app in Hk. by apply list.NoDup_app in Hk as [? _].
  - unfold allocated. cbn [entries]. rewrite body_var, decide_True by done. unfold es1. rewrite body_next. unfold body. destruct (lookup_lt_is_Some_2 _ _ Hi) as [e' He']. rewrite He'. by eexists.
  - by unfold same_shape; flat; rewrite length_alter.
Qed.
Lemma insert_any (c : CACHE_HEADER P) L i x e : (hashing c = true -> hash_ok dohash c L /\ (length L < length (links c))%nat /\ 0 <= dohash x < max_hash c) -> entries c !! i = Some e -> view e = Ok x ->
  exists ls fh fst_h, inserthashindex dohash c i = Ok (with_links (fun _ => ls) (set_hash fh fst_h c)) /\ length ls = length (links c) /\
    (hashing c = true -> hash_ok dohash (with_links (fun _ => ls) (set_hash fh fst_h c)) ((i, x) :: L)).
Proof.
  intros Hh He Hv. destruct (hashing c) eqn:Hon.
  - destruct (Hh eq_refl) as (H1 & H2 & H3). destruct (insert_spec dohash c L i x e Hon H1 H2 H3 He Hv) as (ls & fh & f1 & Hd & Hl & Hok). by exists ls, fh, f1.
  - exists (links c), (free_hash c), (first_hash c). split; [|done]. unfold inserthashindex. rewrite Hon. by destruct c.
Qed.

(** The entries when [i] has got the item [x] and is the head of [ids]. *)
Definition filled (i : nat) (ids : list nat) (x : content P) (es : list (CACHED_GENERIC P)) : list (CACHED_GENERIC P) :=
  alter (put_var (var_of (c_var x)) (zlen (c_var x))) i (alter (put_payload (c_payload x)) i (pushed i ids es)).

Lemma filled_body i ids x es j : body (filled i ids x es) j = if decide (i = j) then (fun _ => body_of x) <$> body es j else body es j.
Proof. unfold filled. rewrite body_var, body_payload, body_pushed. destruct (decide (i = j)); [|done]. by destruct (body es j). Qed.

Lemma attach_exec c i item L F : detached c i L F -> allocated c i item ->
  attach_entry dohash c item i = (c' ← inserthashindex dohash (set_most_recent (Some i) (with_entries (fun _ => filled i L.*1 item (entries c)) c)) i; Ok (Some i, c')).
Proof.
  intros [Hl Hm Ho Hfr Hfe Hids Hb Hh Hk] (p & Hal). assert (i < length (entries c))%nat as Hi by (assert (i ∈ seq 0 (length (entries c))) as Hin by (rewrite <- Hids; by left); apply elem_of_seq in Hin; lia).
  assert (forall k, k ∈ L.*1 -> (k < length (entries c))%nat) as HL by (intros k Hk'; assert (k ∈ seq 0 (length (entries c))) as Hin by (rewrite <- Hids; right; rewrite elem_of_app; tauto); apply elem_of_seq in Hin; lia).
  unfold attach_entry. rewrite Hm. rewrite set_next_eq by done. cbn [mbind res_bind]. rewrite set_previous_eq by (cbn; rewrite length_alter; lia). cbn [mbind res_bind most_recent_entry with_entries]. rewrite Hm.
  assert (match first L.*1 None with Some m => set_previous (Some i) m (with_entries (alter (put_prev None) i) (with_entries (alter (put_next (first L.*1 None)) i) c))
    | None => Ok (with_entries (alter (put_prev None) i) (with_entries (alter (put_next (first L.*1 None)) i) c)) end = Ok (with_entries (fun _ => pushed i L.*1 (entries c)) c)) as ->.
  { unfold pushed, relink_first. destruct (first L.*1 None) as [m|] eqn:Em; [|by flat]. rewrite set_previous_eq by (cbn; rewrite !length_alter; apply HL; by apply first_in). by flat. }
  cbn [mbind res_bind]. rewrite set_payload_eq by (cbn; rewrite length_pushed; lia). cbn [mbind res_bind]. flat. unfold get_entry. cbn [entries].
  assert (exists e, alter (put_payload (c_payload item)) i (pushed i L.*1 (entries c)) !! i = Some e /\ e_varsize e = zlen (c_var item) /\
    e_variable e = if zlen (c_var item) =? 0 then VNull else VData (replicate (Z.to_nat (zlen (c_var item))) 0)) as (e & He & Hsz & Hvar).
  { pose proof (body_payload (c_payload item) i (pushed i L.*1 (entries c)) i) as Hbp. rewrite decide_True, body_pushed, Hal in Hbp by done. unfold body in Hbp.
    destruct (alter _ i _ !! i) as [e|]; [|done]. injection Hbp as _ ? ?. by exists e. }
  rewrite He. cbn [mbind res_bind]. rewrite Hvar, Hsz. unfold filled, var_of. destruct (c_var item) as [|d0 d] eqn:Ed.
  - change (zlen (@nil Z) =? 0) with true. cbv iota. rewrite set_variable_eq by (cbn; rewrite length_alter, length_pushed; lia). cbn [mbind res_bind]. flat. done.
  - assert ((zlen (d0 :: d) =? 0) = false) as E0 by (rewrite zlen_cons; pose proof (zlen_nonneg d); apply Z.eqb_neq; lia). rewrite E0. cbv iota.
    rewrite set_variable_eq by (cbn; rewrite length_alter, length_pushed; lia). cbn [mbind res_bind]. flat. done.
Qed.
Lemma attach_spec c i item L F : detached c i L F -> allocated c i item -> Forall (fun p => key p.2 <> key item) L -> (hashing c = true -> 0 <= dohash item < max_hash c) ->
  exists c', attach_entry dohash c item i = Ok (Some i, c') /\ rep c' ((i, item) :: L) F /\ same_shape c c' /\ freed c' = freed c.
Proof.
  intros Hd Hal Hfresh Hw. rewrite (attach_exec c i item L F Hd Hal). destruct Hal as (p & Hal). pose proof Hd as [Hl Hm Ho Hfr Hfe Hids Hb Hh Hk].
  assert (NoDup (i :: L.*1 ++ F)) as Hnd by (rewrite Hids; apply NoDup_seq). apply list.NoDup_cons in Hnd as [HiLF Hnd]. apply list.NoDup_app in Hnd as (HndL & HLF & HndF). rewrite elem_of_app in HiLF.
  assert (i < length (entries c))%nat as Hi by (assert (i ∈ seq 0 (length (entries c))) as Hin by (rewrite <- Hids; by left); apply elem_of_seq in Hin; lia).
  set (es := filled i L.*1 item (entries c)). assert (length es = length (entries c)) as El by (unfold es, filled; by rewrite !length_alter, length_pushed).
  assert (body es i = Some (body_of item)) as Hbi by (unfold es; rewrite filled_body, decide_True, Hal by done; done). destruct (view_body _ _ _ Hbi) as (e & He & Hv & _).
  destruct (insert_any (set_most_recent (Some i) (with_entries (fun _ => es) c)) L i item e) as (ls & fh & f1 & Hins & Hls & Hok); [|done|done|].
  { flat. intros Hon. destruct (Hh Hon) as [H1 H2]. split; [by eapply hash_ok_same; [..|exact H1]|]. split; [|by apply Hw]. pose proof (Permutation_length Hids) as Ep.
    cbn [length] in Ep. rewrite length_app, length_fmap, length_seq in Ep. lia. }
  rewrite Hins. cbn [mbind res_bind]. eexists. split; [reflexivity|]. flat. flat_in Hok. split; [|by unfold same_shape; flat; rewrite El].
  split; cbn [entries most_recent_entry oldest_entry free_entry hashing links]; rewrite ?El; try done.
  - cbn [fmap list_fmap fst]. unfold es, filled. apply dll_var, dll_payload, dll_push; [tauto|done|done|done].
  - eapply sll_ext; [|exact Hfr]. intros j Hj. unfold es, filled. rewrite nxt_var, nxt_payload, nxt_pushed; [done|]. intros ->. tauto.
  - constructor; [done|]. eapply Forall_impl_in; [exact Hb|]. intros q Hq Hbq. unfold es. rewrite filled_body, decide_False; [done|]. intros E. apply HiLF. left. rewrite E. by apply list_elem_of_fmap_2.
  - intros Hon. split; [by eapply hash_ok_same; [..|exact (Hok Hon)]|]. rewrite Hls. flat. by apply Hh.
  - cbn [fmap list_fmap snd]. apply list.NoDup_cons. split; [|done]. intros (y & Ey & Hy)%list_elem_of_fmap.
    apply list_elem_of_fmap in Hy as (q & -> & Hq). by apply (proj1 (Forall_forall _ _) Hfresh q); [apply list_elem_of_In|].
Qed.

(** The items behind the new one: all, or all but the oldest. *)
Lemma enter_rep c L F item : rep c L F -> (2 <= length (entries c))%nat -> (hashing c = true -> 0 <= dohash item < max_hash c) ->
  exists i c', ntfs_enter_cache dohash compare c item true = Ok (Some i, c') /\ same_shape c c' /\
  ((exists x, (i, x) ∈ L /\ key x = key item /\ rep c' L F /\ freed c' = freed c ++ logged c item) \/
   (Forall (fun p => key p.2 <> key item) L /\
    ((exists F', F = i :: F' /\ rep c' ((i, item) :: L) F' /\ freed c' = freed c) \/
     (exists L' y, F = [] /\ L = L' ++ [(i, y)] /\ rep c' ((i, item) :: L') [] /\ freed c' = freed c ++ logged c y)))).
Proof.
  intros Hr Hn Hw. destruct (cache_search_spec c L F Hr item Hw) as (r & Hs & Hres). unfold ntfs_enter_cache. rewrite Hs. cbn [mbind res_bind]. destruct r as [i|].
  { destruct Hres as (a & x & b & E & Ek). cbn [mbind res_bind]. exists i, (count_up 0 1 0 (call_free item c)). split; [done|]. split; [rewrite call_free_eq; by unfold same_shape|]. left. exists x.
    split; [rewrite E, elem_of_app, elem_of_cons; tauto|]. split; [done|]. split; [by apply rep_count, rep_call_free|]. by rewrite call_free_eq. }
  assert (exists i c1 L1 F1, take_entry dohash c item true = Ok (i, c1) /\ detached c1 i L1 F1 /\ allocated c1 i item /\ same_shape c c1 /\
    ((F = i :: F1 /\ L1 = L /\ freed c1 = freed c) \/ (exists y, F = [] /\ F1 = [] /\ L = L1 ++ [(i, y)] /\ freed c1 = freed c ++ logged c y))) as (i & c1 & L1 & F1 & Ht & Hd & Hal & Hsh & Hcase).
  { destruct F as [|f F].
    - pose proof (Permutation_length (rp_ids _ _ _ Hr)) as El. rewrite app_nil_r, length_fmap, length_seq in El. destruct (rev_case L) as [->|(L' & [o y] & ->)]; [cbn in El; lia|].
      destruct (take_oldest c L' o y item Hr) as (c1 & ? & ? & ? & ? & ?); [intros ->; cbn in El; lia|]. exists o, c1, L', []. split_and!; try done. right. by exists y.
    - destruct (take_free c L f F item Hr) as (c1 & ? & ? & ? & ? & ?). exists f, c1, L, F. split_and!; try done. by left. }
  rewrite Ht. cbn [mbind res_bind]. destruct Hsh as (Sh1 & Sh2 & Sh3 & Sh4).
  destruct (attach_spec c1 i item L1 F1 Hd Hal) as (c2 & Ha & Hr2 & (Sh5 & Sh6 & Sh7 & Sh8) & Hfd).
  { destruct Hcase as [(_ & -> & _)|(y & _ & _ & -> & _)]; [done|]. by apply Forall_app in Hres as [? _]. } { rewrite Sh2, Sh4. exact Hw. }
  rewrite Ha. cbn [mbind res_bind]. exists i, (count_up 0 1 0 c2). split; [done|]. split; [unfold same_shape; flat; split_and!; congruence|]. right. split; [done|].
  destruct Hcase as [(-> & -> & Hf1)|(y & -> & -> & -> & Hf1)].
  - left. exists F1. split; [done|]. split; [by apply rep_count|]. flat. congruence.
  - right. exists L1, y. split; [done|]. split; [done|]. split; [by apply rep_count|]. flat. congruence.
Qed.
(** ** Invalidation *)

Definition logged_if (flags : Z) (c : CACHE_HEADER P) (x : content P) : list (content P) := if negb (Z.land flags CACHE_FREE =? 0) then logged c x else [].

(** The links around [i] are set; what is behind it first. *)
Lemma unlink_any (c : CACHE_HEADER P) A B : (forall k, k ∈ A -> (k < length (entries c))%nat) -> (forall k, k ∈ B -> (k < length (entries c))%nat) ->
  (c ← match first B None with Some n => set_previous (final A None) n c | None => Ok (set_oldest (final A None) c) end;
   match final A None with Some p => set_next (first B None) p c | None => Ok (set_most_recent (first B None) c) end)
  = Ok (set_most_recent (match final A None with Some _ => most_recent_entry c | None => first B None end)
         (set_oldest (match first B None with Some _ => oldest_entry c | None => final A None end) (with_entries (fun _ => unlinked A B (entries c)) c))).
Proof.
  intros HA HB. unfold unlinked. rewrite <- relink_comm. unfold relink_last, relink_first.
  destruct (first B None) as [n|] eqn:EB.
  - rewrite set_previous_eq by (apply HB; by apply first_in). cbn [mbind res_bind]. destruct (final A None) as [p|] eqn:EA; [|done].
    rewrite set_next_eq; [done|]. cbn [entries with_entries]. rewrite length_alter. apply HA. by destruct (final_in A None p EA).
  - cbn [mbind res_bind]. destruct (final A None) as [p|] eqn:EA; [|done]. rewrite set_next_eq; [done|]. apply HA. by destruct (final_in A None p EA).
Qed.

Lemma ends_without A i B (c : CACHE_HEADER P) : most_recent_entry c = first (A ++ i :: B) None -> oldest_entry c = final (A ++ i :: B) None ->
  match final A None with Some _ => most_recent_entry c | None => first B None end = first (A ++ B) None /\
  match first B None with Some _ => oldest_entry c | None => final A None end = final (A ++ B) None.
Proof.
  intros -> ->. rewrite !first_app, !final_app. cbn [first final]. split.
  - destruct (rev_case A) as [->|(A' & q & ->)]; [done|]. rewrite final_snoc. by destruct A'.
  - by destruct B.
Qed.

Lemma remove_rep c a i x b F flags : rep c (a ++ ((i, x) :: b)) F ->
  exists c', (c ← drophashindex c i (dohash x); do_invalidate c i flags) = Ok c' /\ rep c' (a ++ b) (i :: F) /\ same_shape c c' /\ freed c' = freed c ++ logged_if flags c x.
Proof.
  intros Hr. destruct (entry_links c a i x b F Hr) as (e & He & Hv & Hv1 & Hv2 & Ep & En & Hi & Hnd & HA & HB & HF). pose proof Hr as [Hl Hm Ho Hfr Hfe Hids Hb Hh Hk].
  rewrite fmap_app in Hl, Hm, Ho, Hids. cbn [fmap list_fmap fst] in Hl, Hm, Ho, Hids. destruct (ends_without _ _ _ c Hm Ho) as [Em Eo].
  assert (L_perm : a ++ ((i, x) :: b) ≡ₚ ((i, x) :: (a ++ b))) by (by rewrite <- Permutation_middle).
  destruct (drop_any c (a ++ ((i, x) :: b)) i x (a ++ b)) as (ls & fh & f1 & Hd & Hls & Hok); [by intros Hon; apply Hh|done|rewrite fmap_app; exact Hnd|].
  rewrite Hd. cbn [mbind res_bind]. unfold do_invalidate. change (get_entry (with_links _ (set_hash fh f1 c)) i) with (get_entry c i). rewrite He. cbn [mbind res_bind]. rewrite Hv. cbn [mbind res_bind].
  assert ((if negb (Z.land flags CACHE_FREE =? 0) then Ok (call_free x (with_links (fun _ => ls) (set_hash fh f1 c))) else Ok (with_links (fun _ => ls) (set_hash fh f1 c)))
    = Ok (mk_cache (entries c) ls (most_recent_entry c) (oldest_entry c) (free_entry c) fh f1 (hashing c) (freeing c) (reads c) (writes_count c) (hits c) (max_hash c) (freed c ++ logged_if flags c x))) as ->.
  { unfold logged_if. destruct (negb _); [by rewrite call_free_eq; flat|]. rewrite app_nil_r. by flat. }
  cbn [mbind res_bind]. rewrite Ep, En. set (c1 := mk_cache _ _ _ _ _ _ _ _ _ _ _ _ _ _). pose proof (unlink_any c1 a.*1 b.*1 HA HB) as Hun.
  destruct (match first b.*1 None with Some n => set_previous (final a.*1 None) n c1 | None => Ok (set_oldest (final a.*1 None) c1) end) as [c2| |]; cbn [mbind res_bind] in Hun |- *; try done. rewrite Hun. cbn [mbind res_bind]. unfold c1 in *. flat. flat_in Hok.
  cbn [most_recent_entry oldest_entry] in Em, Eo. rewrite Em, Eo. set (es := unlinked _ _ _). assert (length es = length (entries c)) as El by apply length_unlinked.
  rewrite set_next_eq by (cbn; lia). cbn [mbind res_bind]. flat. rewrite Hv1, free_var_of. cbn [mbind res_bind]. rewrite set_variable_eq by (cbn; rewrite length_alter; lia).
  eexists. split; [reflexivity|]. flat. split; [|split; [unfold same_shape; flat; by rewrite !length_alter, El|done]].
  assert (i ∉ a.*1 ++ b.*1) as Hiab by (rewrite <- Permutation_middle in Hnd; by apply list.NoDup_cons in Hnd as [? _]).
  split; cbn [entries most_recent_entry oldest_entry free_entry hashing links]; rewrite ?length_alter, ?El, ?fmap_app; try done.
  - apply dll_var, dll_next; [done|]. by apply dll_unlink with (i := i).
  - cbn [sll]. rewrite nxt_var, nxt_next, decide_True by done. unfold es. rewrite nxt_unlinked by (rewrite elem_of_app in Hiab; tauto). split.
    + unfold nxt. destruct (lookup_lt_is_Some_2 _ _ Hi) as [e' ->]. cbn. by rewrite Hfe.
    + eapply sll_ext; [|exact Hfr]. intros j Hj. destruct (HF j Hj) as (? & ? & ? & _). rewrite nxt_var, nxt_next, decide_False by congruence. by apply nxt_unlinked.
  - by rewrite <- Hids, <- (Permutation_middle (a.*1 ++ b.*1) F i), <- (Permutation_middle a.*1 b.*1 i).
  - rewrite L_perm in Hb. apply Forall_cons_1 in Hb as [_ Hb]. eapply Forall_impl_in; [exact Hb|]. intros q Hq Hbq.
    rewrite body_var, decide_False by (intros E; apply Hiab; rewrite E, <- fmap_app; by apply list_elem_of_fmap_2). rewrite body_next. unfold es. by rewrite body_unlinked.
  - intros Hon. split; [by eapply hash_ok_same; [..|exact (Hok Hon)]|]. rewrite Hls. by apply Hh.
  - rewrite L_perm in Hk. cbn [fmap list_fmap snd] in Hk. apply list.NoDup_cons in Hk as [_ Hk]. rewrite !fmap_app in Hk. rewrite ?fmap_app. exact Hk.
Qed.
Lemma remove_correct_rep c a i x b F flags : rep c (a ++ ((i, x) :: b)) F ->
  exists c', ntfs_remove_cache dohash c i flags = Ok (1, c') /\ rep c' (a ++ b) (i :: F) /\ same_shape c c' /\ freed c' = freed c ++ logged_if flags c x.
Proof.
  intros Hr. destruct (entry_links c a i x b F Hr) as (e & He & Hv & _). destruct (remove_rep c a i x b F flags Hr) as (c' & E & H). exists c'. split; [|done].
  unfold ntfs_remove_cache. rewrite He. cbn [mbind res_bind]. rewrite Hv. cbn [mbind res_bind]. destruct (drophashindex _ _ _) as [c1| |]; cbn [mbind res_bind] in E |- *; try done. by rewrite E.
Qed.

(** What the walks keep and what they take out. *)
Definition kept (w : content P) (L : list (nat * content P)) : list (nat * content P) := List.filter (fun p => compare p.2 w) L.
Definition taken (w : content P) (L : list (nat * content P)) : list (nat * content P) := List.filter (fun p => negb (compare p.2 w)) L.

Lemma same_shape_trans c1 c2 c3 : same_shape c1 c2 -> same_shape c2 c3 -> same_shape c1 c3.
Proof. intros (? & ? & ? & ?) (? & ? & ? & ?). unfold same_shape. split_and!; congruence. Qed.

Lemma logged_same c c' flags x : freeing c' = freeing c -> logged_if flags c' x = logged_if flags c x.
Proof. intros E. unfold logged_if, logged. by rewrite E. Qed.

Lemma invalidate_list_spec w flags : forall b a c F fuel n, rep c (a ++ b) F -> (length b < fuel)%nat -> exists c' F',
  invalidate_list dohash compare fuel c w flags (first b.*1 None) n = Ok (n + zlen (taken w b), c') /\ rep c' (a ++ kept w b) F' /\ same_shape c c' /\
  freed c' = freed c ++ concat (map (fun p => logged_if flags c p.2) (taken w b)).
Proof.
  induction b as [|[i x] b IH]; intros a c F [|fuel] n Hr Hf; cbn in Hf; try lia.
  { exists c, F. rewrite app_nil_r in Hr. cbn. rewrite !app_nil_r. split; [do 2 f_equal; unfold zlen; cbn; lia|]. split; [done|]. by unfold same_shape. }
  cbn [fmap list_fmap fst first invalidate_list]. destruct (entry_links c a i x b F Hr) as (e & He & Hv & _ & _ & _ & En & _). rewrite He. cbn [mbind res_bind]. rewrite Hv. cbn [mbind res_bind]. rewrite En.
  unfold kept, taken. cbn [List.filter snd]. destruct (compare x w); cbn [negb].
  - destruct (IH (a ++ [(i, x)]) c F fuel n) as (c' & F' & E & Hr' & ?); [by rewrite <- (assoc_L (++))|lia|]. exists c', F'. split; [done|]. split; [|done]. by rewrite <- (assoc_L (++)) in Hr'.
  - destruct (remove_rep c a i x b F flags Hr) as (c1 & E1 & Hr1 & Hsh & Hfr).
    destruct (drophashindex _ _ _) as [c0| |]; cbn [mbind res_bind] in E1 |- *; try done. rewrite E1. cbn [mbind res_bind].
    destruct (IH a c1 (i :: F) fuel (n + 1) Hr1 ltac:(lia)) as (c' & F' & E & Hr' & Hsh' & Hfr'). exists c', F'. split.
    { rewrite E. do 2 f_equal. rewrite zlen_cons. unfold taken. lia. }
    split; [done|]. split; [by eapply same_shape_trans|]. rewrite Hfr', Hfr, <- (assoc_L (++)). f_equal. cbn [map concat]. f_equal. f_equal. apply map_ext. intros p. apply logged_same, Hsh.
Qed.
(** The walk of a list and that of a chain come to the same. *)
Lemma compare_false x w : compare x w = false <-> key x = key w.
Proof. unfold compare. rewrite negb_false_iff. apply bool_decide_eq_true. Qed.

Lemma compare_true x w : compare x w = true <-> key x <> key w.
Proof. unfold compare. rewrite negb_true_iff. apply bool_decide_eq_false. Qed.

Lemma kept_all w L : Forall (fun p => key p.2 <> key w) L -> kept w L = L /\ taken w L = [].
Proof.
  induction 1 as [|[i x] L Hx _ [IH1 IH2]]; [done|]. unfold kept, taken in *. cbn [List.filter snd] in *. rewrite (proj2 (compare_true x w) Hx). cbn [negb]. by rewrite IH1, IH2.
Qed.

Lemma kept_one w l1 i x l2 : NoDup (key <$> (l1 ++ (i, x) :: l2).*2) -> key x = key w -> kept w (l1 ++ (i, x) :: l2) = l1 ++ l2 /\ taken w (l1 ++ (i, x) :: l2) = [(i, x)].
Proof.
  intros Hnd Ek. rewrite !fmap_app in Hnd. cbn [fmap list_fmap snd] in Hnd. apply list.NoDup_app in Hnd as (_ & Hd & Hn). apply list.NoDup_cons in Hn as [Hn _].
  destruct (kept_all w l1) as [K1 T1]. { apply Forall_forall. intros p Hp%list_elem_of_In Ep. apply (Hd (key p.2)); [by apply list_elem_of_fmap_2, list_elem_of_fmap_2|]. apply elem_of_cons. left. congruence. }
  destruct (kept_all w l2) as [K2 T2]. { apply Forall_forall. intros p Hp%list_elem_of_In Ep. apply Hn. rewrite Ek, <- Ep. by apply list_elem_of_fmap_2, list_elem_of_fmap_2. }
  unfold kept, taken in *. rewrite !List.filter_app. cbn [List.filter snd]. rewrite (proj2 (compare_false x w) Ek). cbn [negb]. by rewrite K1, T1, K2, T2.
Qed.

Lemma upd_entry_links f i (c c' : CACHE_HEADER P) : upd_entry f i c = Ok c' -> links c' = links c.
Proof. unfold upd_entry. destruct (entries c !! i); [|done]. by intros [= <-]. Qed.

Lemma call_free_links x (c : CACHE_HEADER P) : links (call_free x c) = links c.
Proof. unfold call_free. by destruct (freeing c). Qed.

Lemma do_invalidate_links (c : CACHE_HEADER P) i flags c' : do_invalidate c i flags = Ok c' -> links c' = links c.
Proof.
  unfold do_invalidate. destruct (get_entry c i) as [e| |]; try done. cbn [mbind res_bind].
  destruct (if negb _ then _ else _) as [c1| |] eqn:E1; try done. cbn [mbind res_bind]. assert (links c1 = links c) as <-.
  { destruct (negb _); [|by injection E1 as <-]. destruct (view e); try done. cbn in E1. injection E1 as <-. apply call_free_links. }
  destruct (match e_next e with Some _ => _ | None => _ end) as [c2| |] eqn:E2; try done. cbn [mbind res_bind]. assert (links c2 = links c1) as <- by (destruct (e_next e); [by eapply upd_entry_links|by injection E2 as <-]).
  destruct (match e_previous e with Some _ => _ | None => _ end) as [c3| |] eqn:E3; try done. cbn [mbind res_bind]. assert (links c3 = links c2) as <- by (destruct (e_previous e); [by eapply upd_entry_links|by injection E3 as <-]).
  destruct (set_next _ i c3) as [c4| |] eqn:E4; try done. cbn [mbind res_bind]. rewrite <- (upd_entry_links _ _ _ _ E4). destruct (free_var _); try done. cbn [mbind res_bind]. by intros E5%upd_entry_links.
Qed.

(** Nothing in the rest of a chain matches. *)
Lemma invalidate_chain_none c L F w h flags n : rep c L F -> forall b fuel, hseg (links c) b None -> (forall k i, (k, i) ∈ b -> exists x, (i, x) ∈ L /\ key x <> key w) -> (length b < fuel)%nat ->
  invalidate_chain compare fuel c w h flags (first b.*1 None) n = Ok (n, c).
Proof.
  intros Hr. induction b as [|[k i] b IH]; intros [|fuel] Hs Hb Hf; cbn in Hf; try lia; [done|]. cbn [fmap list_fmap fst first invalidate_chain hseg] in *. destruct Hs as [Hk Hs].
  unfold get_link. rewrite Hk. cbn [mbind res_bind h_entry h_next]. destruct (Hb k i) as (x & Hx & Ex); [by left|]. destruct (item_entry c L F Hr i x Hx) as (e & He & Hv & _). rewrite He. cbn [mbind res_bind].
  rewrite Hv. cbn [mbind res_bind]. rewrite (proj2 (compare_true x w) Ex). apply IH; [done| |lia]. intros k' i' H'. apply (Hb k'). by right.
Qed.

Lemma invalidate_chain_spec c L F w flags chains fl ch : rep c L F -> hashing c = true -> hash_rep dohash c L chains fl -> chains !! Z.to_nat (dohash w) = Some ch -> 0 <= dohash w < max_hash c ->
  forall b a fuel, ch = a ++ b -> (forall k i x, (k, i) ∈ a -> (i, x) ∈ L -> key x <> key w) -> (length b < fuel)%nat -> exists c' F',
  invalidate_chain compare fuel c w (dohash w) flags (first b.*1 None) 0 = Ok (zlen (taken w L), c') /\ rep c' (kept w L) F' /\ same_shape c c' /\
  freed c' = freed c ++ concat (map (fun p => logged_if flags c p.2) (taken w L)).
Proof.
  intros Hr Hon Hh Hch Hw. induction b as [|[k i] b IH]; intros a [|fuel] E Ha Hf; cbn in Hf; try lia.
  - destruct (kept_all w L) as [-> ->]. 2:{ exists c, F. cbn. rewrite app_nil_r. split_and!; try done. }
    apply Forall_forall. intros [i x] Hx%list_elem_of_In Ex. cbn [snd] in Ex. destruct (link_of dohash c L chains fl i x Hh Hx (list_nodup _ _ _ Hr)) as (h & ch' & a' & k & b' & Eh & Hch' & -> & _).
    assert (Z.to_nat (dohash w) = h) as Ehw by (unfold dohash in *; rewrite <- Ex, Eh; lia). rewrite Ehw, E, app_nil_r in Hch. rewrite Hch in Hch'. injection Hch' as ->.
    apply (Ha k i x); [rewrite elem_of_app, elem_of_cons; tauto|done|done].
  - pose proof (chain_hseg _ _ _ _ _ Hh _ _ Hch) as Hs. rewrite E in Hs. pose proof (hseg_lookup _ _ _ _ _ _ Hs) as Hk.
    destruct (hr_hash _ _ _ _ _ Hh _ _ k i Hch) as (x & Hx & _); [rewrite E, elem_of_app, elem_of_cons; tauto|]. destruct (item_entry c L F Hr i x Hx) as (e & He & Hv & _).
    cbn [fmap list_fmap fst first invalidate_chain]. unfold get_link. rewrite Hk. cbn [mbind res_bind h_entry h_next]. rewrite He. cbn [mbind res_bind]. rewrite Hv. cbn [mbind res_bind].
    destruct (compare x w) eqn:Ec.
    { apply (IH (a ++ [(k, i)])); [by rewrite <- (assoc_L (++))| |lia]. intros k' i' y [Hin|Hin%list_elem_of_singleton]%elem_of_app Hy; [by eapply Ha|]. injection Hin as -> ->.
      rewrite (item_unique L i y x) by (done || by eapply list_nodup). by apply compare_true. }
    apply compare_false in Ec. apply list_elem_of_split in Hx as (l1 & l2 & EL). rewrite EL in Hr |- *. destruct (kept_one w l1 i x l2 (rp_keys _ _ _ Hr) Ec) as [-> ->].
    destruct (remove_rep c l1 i x l2 F flags Hr) as (c1 & E1 & Hr1 & Hsh & Hfr). assert (dohash x = dohash w) as Ed by (unfold dohash; by rewrite Ec). rewrite Ed in E1.
    destruct (drophashindex c i (dohash w)) as [c0| |] eqn:Edr; cbn [mbind res_bind] in E1 |- *; try done. rewrite E1. cbn [mbind res_bind].
    destruct (chain_nodup _ _ _ _ _ Hh _ _ Hch) as [Hn1 Hn2]; [rewrite EL; by eapply list_nodup|]. pose proof (chain_length _ _ _ _ _ Hh _ _ Hch) as Hcl. rewrite E in Hn1, Hn2, Hcl. rewrite length_app in Hcl. cbn in Hcl.
    rewrite fmap_app in Hn2. cbn [fmap list_fmap snd] in Hn2. apply list.NoDup_app in Hn2 as (_ & Hia & Hib). apply list.NoDup_cons in Hib as [Hib _].
    assert (hseg (links c1) b None) as Hsb.
    { rewrite (do_invalidate_links _ _ _ _ E1). apply (drop_frame c c0 i (dohash w) a k b); try done; [unfold in_hash; by rewrite (proj2 (Z.leb_le _ _)), (proj2 (Z.ltb_lt _ _)) by lia| | |lia].
      - pose proof (chain_at _ _ _ _ _ Hh _ _ Hch) as Hat. rewrite Z2Nat.id in Hat by lia. by rewrite Hat, E.
      - intros Hin. apply (Hia i Hin). apply elem_of_cons. by left. }
    rewrite (invalidate_chain_none c1 (l1 ++ l2) (i :: F) w (dohash w) flags (0 + 1) Hr1 b fuel Hsb); [|clear -Hh Hch E EL Hib Hr Ec|lia].
    { exists c1, (i :: F). cbn [map concat snd]. rewrite app_nil_r. split_and!; done. }
    intros k' i' Hin. destruct (hr_hash _ _ _ _ _ Hh _ _ k' i' Hch) as (y & Hy & _); [rewrite E, elem_of_app, elem_of_cons; tauto|]. exists y. rewrite EL in Hy.
    assert (i' <> i) as Hne by (intros ->; apply Hib; by apply (list_elem_of_fmap_2 snd _ (k', i))).
    assert ((i', y) ∈ l1 ++ l2) as Hy' by (rewrite elem_of_app, elem_of_cons in Hy; rewrite elem_of_app; destruct Hy as [?|[[= ? ?]|?]]; [by left|done|by right]). split; [done|]. intros Ey.
    pose proof (rp_keys _ _ _ Hr) as Hk. rewrite <- (Permutation_middle l1 l2 (i, x)) in Hk. cbn [fmap list_fmap snd] in Hk. apply list.NoDup_cons in Hk as [Hk _]. apply Hk. rewrite Ec, <- Ey.
    apply list_elem_of_fmap_2. by apply (list_elem_of_fmap_2 snd _ (i', y)).
Qed.
Lemma invalidate_rep c L F w flags : rep c L F -> (hashing c = true -> 0 <= dohash w < max_hash c) -> exists c' F',
  ntfs_invalidate_cache dohash compare c w flags = Ok (zlen (taken w L), c') /\ rep c' (kept w L) F' /\ same_shape c c' /\
  freed c' = freed c ++ concat (map (fun p => logged_if flags c p.2) (taken w L)).
Proof.
  intros Hr Hw. unfold ntfs_invalidate_cache. set (nohash := negb (Z.land flags CACHE_NOHASH =? 0)).
  destruct (negb nohash && hashing c) eqn:Ehash.
  - apply andb_true_iff in Ehash as [En Eh]. apply negb_true_iff in En. destruct (rp_hash _ _ _ Hr Eh) as [(chains & fl & Hh) _]. specialize (Hw Eh). destruct (chain_of _ _ _ _ _ Hh w Hw) as [ch Hch].
    pose proof (chain_at _ _ _ _ _ Hh _ _ Hch) as Hat. rewrite Z2Nat.id in Hat by lia. rewrite Hat. cbn [mbind res_bind]. pose proof (chain_length _ _ _ _ _ Hh _ _ Hch) as Hlen.
    destruct (invalidate_chain_spec c L F w flags chains fl ch Hr Eh Hh Hch Hw ch [] (S (length (links c))) eq_refl) as (c' & F' & E & Hr' & Hsh & Hfr); [intros k i x Hin; by apply elem_of_nil in Hin|lia|].
    rewrite E. cbn [mbind res_bind]. exists c', F'. destruct Hsh as (S1 & S2 & S3 & S4). rewrite En, S2, Eh. cbn [orb negb]. done.
  - cbn [mbind res_bind]. assert (nohash || negb (hashing c) = true) as -> by (by destruct nohash, (hashing c)).
    pose proof (Permutation_length (rp_ids _ _ _ Hr)) as El. rewrite length_app, length_fmap, length_seq in El. rewrite (rp_recent _ _ _ Hr).
    destruct (invalidate_list_spec w flags L [] c F (S (length (entries c))) 0 Hr ltac:(lia)) as (c' & F' & E & Hr' & H). exists c', F'. done.
Qed.

(** ** Creation *)

Lemma chain_seq n : forall m i, (i + m)%nat = n -> (0 < m)%nat -> first (seq (S i) (m - 1)) None = chain n i.
Proof.
  intros m i E Hm. unfold chain. destruct (Nat.ltb_spec (S i) n).
  - destruct m as [|[|m]]; [lia|lia|done].
  - destruct m as [|[|m]]; [lia|done|lia].
Qed.

Lemma sll_seq (f : nat -> CACHED_GENERIC P) n : (forall i, e_next (f i) = chain n i) -> forall m i, (i + m)%nat = n -> sll (map f (seq 0 n)) (seq i m).
Proof.
  intros Hf. induction m as [|m IH]; intros i E; cbn [seq sll]; [done|]. split; [|apply IH; lia].
  unfold nxt. change (map f (seq 0 n)) with (f <$> seq 0 n). rewrite list_lookup_fmap, lookup_seq_lt by lia. cbn. rewrite Hf, <- (chain_seq n (S m) i) by lia. by replace (S m - 1)%nat with m by lia.
Qed.
Lemma fchain_seq n : forall m i, (i + m)%nat = n -> fchain (map (fun i => mk_link (chain n i) 0) (seq 0 n)) (seq i m).
Proof.
  induction m as [|m IH]; intros i E; cbn [seq fchain]; [done|]. split; [|apply IH; lia]. change (map ?f (seq 0 n)) with (f <$> seq 0 n).
  rewrite list_lookup_fmap, lookup_seq_lt by lia. cbn. rewrite <- (chain_seq n (S m) i) by lia. by replace (S m - 1)%nat with m by lia.
Qed.

Lemma concat_replicate_nil (n : nat) : concat (replicate n (@nil (nat * nat))) = [].
Proof. induction n as [|n IH]; [done|]. exact IH. Qed.

Lemma create_rep junk free hash count max : 0 < count -> 0 <= max ->
  rep (ntfs_create_cache junk free hash count max) [] (seq 0 (Z.to_nat count)).
Proof.
  intros Hc Hm. set (n := Z.to_nat count). assert (exists k, n = S k) as [k En] by (exists (Z.to_nat (count - 1)); lia). unfold ntfs_create_cache. fold n.
  split; cbn [entries most_recent_entry oldest_entry free_entry hashing links fmap list_fmap]; [done..| | | | | |].
  - by apply sll_seq.
  - by rewrite En.
  - by rewrite length_map, length_seq.
  - constructor.
  - intros Hon. apply andb_true_iff in Hon as [-> Hon]. rewrite Hon. cbn [andb]. split; [|by rewrite !length_map].
    exists (replicate (Z.to_nat max) []), (seq 0 n). split; cbn [max_hash first_hash links free_hash]; rewrite ?concat_replicate_nil.
    + rewrite length_replicate. lia.
    + by rewrite fmap_replicate.
    + by apply Forall_replicate.
    + by apply fchain_seq.
    + by rewrite En.
    + by rewrite length_map, length_seq.
    + done.
    + intros h ch l i [-> _]%lookup_replicate Hin. by apply elem_of_nil in Hin.
  - constructor.
Qed.
End thm.
