(* ===== verification/CacheRef.v ===== *)
(** A cache implements a bounded list of items, the most recently used first:
    every sequence of operations on a new cache gives the results of the list. *)

From S2P Require Import Prelude Cache CacheHeap CacheHash CacheThm.

Section refinement.
Context {P K : Type} `{EqDecision K} (key : content P -> K) (hashk : K -> Z).

(** The operations, and what they answer. *)
Inductive cache_op := Fetch (w : content P) | Enter (x : content P) | Invalidate (w : content P) (flags : Z).
Inductive answer := Item (x : option (content P)) | Count (n : Z).

(** * Specification: the list *)

Definition spec_step (cap : nat) (l : list (content P)) (o : cache_op) : answer * list (content P) :=
  match o with
  | Fetch w => (Item (spec_find key (key w) l), spec_fetch key (key w) l)
  | Enter x => (Item (Some (default x (spec_find key (key x) l))), spec_enter key cap x l)
  | Invalidate w _ => (Count (zlen l - zlen (spec_without key (key w) l)), spec_without key (key w) l)
  end.

Fixpoint spec_run (cap : nat) (l : list (content P)) (os : list cache_op) : list answer * list (content P) :=
  match os with
  | [] => ([], l)
  | o :: os => let '(a, l) := spec_step cap l o in let '(r, l) := spec_run cap l os in (a :: r, l)
  end.

(** * The cache *)

(** The item of the entry that was returned. *)
Definition answered (r : option nat) (c : CACHE_HEADER P) : res answer :=
  match r with
  | None => Ok (Item None)
  | Some i => e ← get_entry c i; x ← view e; Ok (Item (Some x))
  end.

Definition run_step (c : CACHE_HEADER P) (o : cache_op) : res (answer * CACHE_HEADER P) :=
  match o with
  | Fetch w => '(r, c) ← ntfs_fetch_cache (dohash key hashk) (compare key) c w; a ← answered r c; Ok (a, c)
  | Enter x => '(r, c) ← ntfs_enter_cache (dohash key hashk) (compare key) c x true; a ← answered r c; Ok (a, c)
  | Invalidate w flags => '(n, c) ← ntfs_invalidate_cache (dohash key hashk) (compare key) c w flags; Ok (Count n, c)
  end.

Fixpoint run (c : CACHE_HEADER P) (os : list cache_op) : res (list answer * CACHE_HEADER P) :=
  match os with
  | [] => Ok ([], c)
  | o :: os => '(a, c) ← run_step c o; '(r, c) ← run c os; Ok (a :: r, c)
  end.

(** * Proofs *)

Implicit Types (L : list (nat * content P)).

Lemma find_none_spec k L : Forall (fun p => key p.2 <> k) L -> spec_find key k L.*2 = None /\ spec_without key k L.*2 = L.*2.
Proof.
  induction 1 as [|[i x] L Hx _ [IH1 IH2]]; [done|]. unfold spec_find, spec_without in *. cbn [fmap list_fmap snd find List.filter] in *. rewrite bool_decide_eq_false_2 by done. cbn [negb]. by rewrite IH1, IH2.
Qed.

Lemma find_some_spec k L1 i x L2 : NoDup (key <$> (L1 ++ (i, x) :: L2).*2) -> key x = k ->
  spec_find key k (L1 ++ (i, x) :: L2).*2 = Some x /\ spec_without key k (L1 ++ (i, x) :: L2).*2 = (L1 ++ L2).*2.
Proof.
  intros Hnd Ek. induction L1 as [|[j y] L1 IH]; cbn [app fmap list_fmap snd] in *; apply list.NoDup_cons in Hnd as [Hn Hnd].
  - unfold spec_find, spec_without. cbn [find List.filter]. rewrite bool_decide_eq_true_2 by done. cbn [negb]. split; [done|]. destruct (find_none_spec k L2) as [_ E]; [|exact E].
    apply Forall_forall. intros p Hp%list_elem_of_In Ep. apply Hn. rewrite Ek, <- Ep. by apply list_elem_of_fmap_2, list_elem_of_fmap_2.
  - destruct (IH Hnd) as [E1 E2]. unfold spec_find, spec_without in *. cbn [find List.filter]. rewrite bool_decide_eq_false_2.
    + cbn [negb]. by rewrite E1, E2.
    + intros Ey. apply Hn. rewrite Ey, <- Ek, !fmap_app, elem_of_app. right. cbn. apply elem_of_cons. by left.
Qed.

Lemma kept_without w L : (kept key w L).*2 = spec_without key (key w) L.*2 /\ zlen (taken key w L) = zlen L.*2 - zlen (spec_without key (key w) L.*2).
Proof.
  induction L as [|[i x] L [IH1 IH2]]; [done|]. unfold kept, taken, spec_without, compare in *. cbn [fmap list_fmap snd List.filter] in *.
  destruct (bool_decide (key x = key w)); cbn [negb]; rewrite !zlen_cons; cbn [fmap list_fmap snd]; rewrite ?zlen_cons, ?IH1; (split; [done|lia]).
Qed.

(** The cache stands for the list [l]. *)
Definition stands_for (n : nat) (c : CACHE_HEADER P) (l : list (content P)) : Prop :=
  length (entries c) = n /\ (hashing c = true -> forall k, 0 <= hashk k < max_hash c) /\ exists L F, rep key hashk c L F /\ L.*2 = l.

Lemma stands_shape n c c' l L F : same_shape c c' -> stands_for n c l -> rep key hashk c' L F -> stands_for n c' L.*2.
Proof. intros (S1 & S2 & S3 & S4) (Hn & Hh & _) Hr. split; [congruence|]. split; [rewrite S2, S4; done|]. by exists L, F. Qed.

Lemma answered_head c i x L F : rep key hashk c L F -> (i, x) ∈ L -> answered (Some i) c = Ok (Item (Some x)).
Proof. intros Hr Hx. destruct (item_entry key hashk c L F Hr i x Hx) as (e & He & Hv & _). unfold answered. rewrite He. cbn [mbind res_bind]. by rewrite Hv. Qed.

Lemma step_refines n c l o : (2 <= n)%nat -> stands_for n c l -> exists c', run_step c o = Ok (fst (spec_step n l o), c') /\ stands_for n c' (snd (spec_step n l o)).
Proof.
  intros Hn2 Hst. pose proof Hst as (Hn & Hh & L & F & Hr & El). subst l. destruct o as [w|x|w flags]; cbn [run_step spec_step fst snd].
  - destruct (fetch_rep key hashk c L F w Hr ltac:(intros; by apply Hh)) as (r & c' & E & Hsh & _ & Hres). rewrite E. cbn [mbind res_bind]. exists c'. unfold spec_fetch. destruct r as [i|].
    + destruct Hres as (a & x & b & -> & Ek & Hr'). destruct (find_some_spec (key w) a i x b (rp_keys _ _ _ _ _ Hr) Ek) as [-> ->].
      rewrite (answered_head c' i x _ F Hr') by by left. split; [done|]. apply (stands_shape n c c' _ _ F Hsh Hst Hr').
    + destruct Hres as [Hno Hr']. destruct (find_none_spec (key w) L Hno) as [-> _]. split; [done|]. by apply (stands_shape n c c' _ _ F Hsh Hst Hr').
  - destruct (enter_rep key hashk c L F x Hr ltac:(lia) ltac:(intros; by apply Hh)) as (i & c' & E & Hsh & Hres). rewrite E. cbn [mbind res_bind]. exists c'. unfold spec_enter.
    pose proof (Permutation_length (rp_ids _ _ _ _ _ Hr)) as Elen. rewrite length_app, length_fmap, length_seq, Hn in Elen.
    destruct Hres as [(y & Hy & Ek & Hr' & _)|[Hno [(F' & -> & Hr' & _)|(L' & y & -> & -> & Hr' & _)]]].
    + rewrite (answered_head c' i y _ F Hr' Hy). apply list_elem_of_split in Hy as (a & b & ->). destruct (find_some_spec (key x) a i y b (rp_keys _ _ _ _ _ Hr) Ek) as [-> _]. split; [done|].
      by apply (stands_shape n c c' _ _ F Hsh Hst Hr').
    + rewrite (answered_head c' i x _ F' Hr') by by left. destruct (find_none_spec (key x) L Hno) as [-> _]. split; [done|]. cbn [length] in Elen. rewrite take_ge by (rewrite length_fmap; lia).
      by apply (stands_shape n c c' _ _ F' Hsh Hst Hr').
    + rewrite (answered_head c' i x _ [] Hr') by by left. destruct (find_none_spec (key x) _ Hno) as [-> _]. split; [done|]. rewrite length_app in Elen. cbn in Elen.
      rewrite fmap_app. rewrite take_app_le, take_ge by (rewrite length_fmap; lia). by apply (stands_shape n c c' _ _ [] Hsh Hst Hr').
  - destruct (invalidate_rep key hashk c L F w flags Hr ltac:(intros; by apply Hh)) as (c' & F' & E & Hr' & Hsh & _). rewrite E. cbn [mbind res_bind]. exists c'.
    destruct (kept_without w L) as [E1 E2]. rewrite <- E1, E2, <- E1. split; [done|]. by apply (stands_shape n c c' _ _ F' Hsh Hst Hr').
Qed.

Lemma run_refines n os : (2 <= n)%nat -> forall c l, stands_for n c l -> exists c', run c os = Ok (fst (spec_run n l os), c') /\ stands_for n c' (snd (spec_run n l os)).
Proof.
  intros Hn. induction os as [|o os IH]; intros c l Hst; cbn [run spec_run]; [by exists c|]. destruct (step_refines n c l o Hn Hst) as (c1 & E1 & Hst1). rewrite E1. cbn [mbind res_bind].
  destruct (spec_step n l o) as [a l1]. cbn [fst snd] in *. destruct (IH c1 l1 Hst1) as (c2 & E2 & Hst2). rewrite E2. cbn [mbind res_bind]. exists c2. by destruct (spec_run n l1 os).
Qed.

(** C25: a cache of at least two entries, hashed or not, implements a bounded list of items with the most recently
    used first.  For every sequence of fetches, entries and invalidations on a new cache (memory for the variable
    parts being there), every operation ends, follows no NULL or dangling pointer, and answers what the list does:
    a fetch finds the item of its key and moves it to the front; an item entered that is already there stays as it
    is, otherwise it goes to the front and only a full cache loses its last item; an invalidation removes exactly
    the items of its key and counts them. *)
Theorem cache_refines_list junk free hash count max os : 2 <= count -> 0 <= max -> (forall k, 0 <= hashk k < max \/ max = 0) ->
  exists c, run (ntfs_create_cache junk free hash count max) os = Ok (fst (spec_run (Z.to_nat count) [] os), c) /\
    stands_for (Z.to_nat count) c (snd (spec_run (Z.to_nat count) [] os)).
Proof.
  intros Hc Hm Hk. apply run_refines; [lia|]. split; [by cbn; rewrite length_map, length_seq|]. split.
  - cbn [hashing max_hash ntfs_create_cache]. intros Hon k. rewrite Hon. destruct (Hk k) as [?|E]; [done|]. rewrite E, andb_false_r in Hon. done.
  - exists [], (seq 0 (Z.to_nat count)). split; [|done]. apply create_rep; lia.
Qed.

(** * Release *)

Lemma release_loop_spec c L F fuel : rep key hashk c L F -> forall a b p, L = a ++ b -> (length b < fuel)%nat -> dll (entries c) p b.*1 None ->
  forall log, free_loop fuel (mk_cache (entries c) (links c) (most_recent_entry c) (oldest_entry c) (free_entry c) (free_hash c) (first_hash c) (hashing c) (freeing c) (reads c) (writes_count c) (hits c) (max_hash c) log) (first b.*1 None)
    = Ok (log ++ (if freeing c then b.*2 else [])).
Proof.
  intros Hr a b. revert fuel a. induction b as [|[i x] b IH]; intros [|fuel] a p E Hf Hd log; cbn in Hf; try lia.
  { cbn. by destruct (freeing c); rewrite app_nil_r. }
  destruct (item_entry _ _ _ _ _ Hr i x) as (e & He & Hv & Hvar & _ & Hn & _); [rewrite E; apply elem_of_app; right; by left|].
  cbn [fmap list_fmap fst first free_loop]. unfold get_entry in *. cbn [entries]. rewrite He. cbn [mbind res_bind]. rewrite Hv. cbn [mbind res_bind]. rewrite Hvar.
  assert (free_var (var_of (c_var x)) = Ok tt) as -> by by destruct (c_var x). cbn [mbind res_bind].
  cbn [fmap list_fmap fst dll] in Hd. destruct Hd as (_ & Hn' & Hd). rewrite Hn in Hn'. injection Hn' as ->.
  unfold call_free. cbn [freeing freed entries links most_recent_entry oldest_entry free_entry free_hash first_hash hashing reads writes_count hits max_hash].
  destruct (freeing c) eqn:Hfr.
  - specialize (IH fuel (a ++ [(i, x)]) (Some i) ltac:(by rewrite <- (assoc_L (++))) ltac:(lia) Hd (log ++ [x])). rewrite IH. cbn. by rewrite <- (assoc_L (++)).
  - apply (IH fuel (a ++ [(i, x)]) (Some i)); [by rewrite <- (assoc_L (++))|lia|done].
Qed.

Lemma free_rep c L F : rep key hashk c L F -> ntfs_free_cache c = Ok (freed c ++ (if freeing c then L.*2 else [])).
Proof.
  intros Hr. unfold ntfs_free_cache. rewrite (rp_recent _ _ _ _ _ Hr). pose proof (Permutation_length (rp_ids _ _ _ _ _ Hr)) as El. rewrite length_app, length_fmap, length_seq in El.
  replace c with (mk_cache (entries c) (links c) (most_recent_entry c) (oldest_entry c) (free_entry c) (free_hash c) (first_hash c) (hashing c) (freeing c) (reads c) (writes_count c) (hits c) (max_hash c) (freed c)) at 2 by by destruct c.
  apply (release_loop_spec c L F _ Hr [] L None); [done|lia|apply Hr].
Qed.

(** A cache used in any way is released without freeing memory twice; the items
    handed to [dofree] at the end are those of the list, in its order. *)
Theorem cache_release n c l : stands_for n c l -> ntfs_free_cache c = Ok (freed c ++ (if freeing c then l else [])).
Proof. intros (_ & _ & L & F & Hr & <-). by apply (free_rep c L F). Qed.

End refinement.

(** Items that are numbers with a variable part, compared by the number. *)
Definition item (k : Z) (d : list Z) : content Z := mk_content k d.

Lemma cache_refines_list_witness :
  exists c, run c_payload (fun k => k mod 4) (ntfs_create_cache 0 true true 2 4) [Enter (item 1 [7]); Enter (item 5 []); Fetch (item 1 []); Enter (item 6 [8; 9]); Fetch (item 5 []); Invalidate (item 1 []) 1] =
    Ok ([Item (Some (item 1 [7])); Item (Some (item 5 [])); Item (Some (item 1 [7])); Item (Some (item 6 [8; 9])); Item None; Count 1], c) /\
    stands_for c_payload (fun k => k mod 4) 2 c [item 6 [8; 9]].
Proof.
  assert (spec_run c_payload (Z.to_nat 2) [] [Enter (item 1 [7]); Enter (item 5 []); Fetch (item 1 []); Enter (item 6 [8; 9]); Fetch (item 5 []); Invalidate (item 1 []) 1] =
    ([Item (Some (item 1 [7])); Item (Some (item 5 [])); Item (Some (item 1 [7])); Item (Some (item 6 [8; 9])); Item None; Count 1], [item 6 [8; 9]])) as E by (vm_compute; reflexivity).
  pose proof (cache_refines_list c_payload (fun k => k mod 4) 0 true true 2 4 [Enter (item 1 [7]); Enter (item 5 []); Fetch (item 1 []); Enter (item 6 [8; 9]); Fetch (item 5 []); Invalidate (item 1 []) 1]) as H.
  rewrite E in H. apply H.
  - lia.
  - lia.
  - intros k. left. apply Z.mod_pos_bound. lia.
Defined.

(** * What the contract excludes *)

(** A list that closes on one of its entries. *)
Lemma lru_search_cycle (c : CACHE_HEADER Z) (w : content Z) i e x : get_entry c i = Ok e -> view e = Ok x -> e_next e = Some i -> c_payload x <> c_payload w ->
  forall fuel, lru_search (compare c_payload) fuel c w (Some i) = Undef.
Proof.
  intros He Hv Hn Hx fuel. induction fuel as [|fuel IH]; [done|]. cbn [lru_search]. rewrite He. cbn [mbind res_bind]. rewrite Hv. cbn [mbind res_bind]. unfold compare at 1.
  rewrite bool_decide_eq_false_2 by done. cbn [negb]. by rewrite Hn.
Qed.

(** An item is entered in a new cache of three entries, a second one without
    memory for its variable part, and the first one is fetched. *)
Definition after_failed_alloc : res (CACHE_HEADER Z) :=
  let dohash := dohash c_payload (fun k => k) in
  let compare := compare c_payload in
  '(_, c) ← ntfs_enter_cache dohash compare (ntfs_create_cache 0 false false 3 0) (item 1 []) true;
  '(_, c) ← ntfs_enter_cache dohash compare c (item 2 [7]) false;
  '(_, c) ← ntfs_fetch_cache dohash compare c (item 1 []);
  Ok c.

(** When there is no memory for a variable part, the entry goes back to the free
    list, but the entry behind it keeps it as its previous one.  The next fetch
    of that entry makes it its own successor: from then on a search for an item
    that is not there never ends. *)
Theorem enter_failure_corrupts_list : exists c, after_failed_alloc = Ok c /\ forall fuel, lru_search (compare c_payload) fuel c (item 9 []) (most_recent_entry c) = Undef.
Proof.
  eexists. split; [vm_compute; reflexivity|]. eapply (lru_search_cycle _ _ 0%nat); reflexivity || (cbn; lia).
Qed.

(** A hash value out of range does not make the cache give up hashing when it
    searches: the table is accessed out of its bounds. *)
Theorem hash_out_of_range_fetched :
  ntfs_fetch_cache (dohash c_payload (fun k => k)) (compare c_payload) (ntfs_create_cache 0 false true 3 4) (item 4 []) = Undef.
Proof. reflexivity. Qed.
