(* ===== verification/Logfile.v ===== *)
(** The journal $LogFile (libntfs/logfile.c): the checks of its restart pages,
    the search for the current one, and emptying it.  A page is the array of
    its bytes, the restart area and the client records are offsets in it. *)

From S2P Require Import Prelude Bytes Mst AttrIO Collate.

Definition magic_RSTR : Z := 0x52545352.
Definition magic_RCRD : Z := 0x44524352.
Definition magic_CHKD : Z := 0x444b4843.
Definition magic_empty : Z := 0xffffffff.

Definition MaxLogFileSize : Z := 0x100000000.
Definition DefaultLogPageSize : Z := 4096.
Definition MinLogRecordPages : Z := 48.
Definition LOGFILE_NO_CLIENT : Z := 0xffff.

(** ** Fields of RESTART_PAGE_HEADER *)

Definition rp_magic (rp : list Z) : res Z := get_le 4 rp 0.
Definition rp_usa_ofs (rp : list Z) : res Z := get_le 2 rp 4.
Definition rp_usa_count (rp : list Z) : res Z := get_le 2 rp 6.
Definition rp_chkdsk_lsn (rp : list Z) : res Z := v ← get_le 8 rp 8; Ok (s64 v).
Definition rp_system_page_size (rp : list Z) : res Z := get_le 4 rp 16.
Definition rp_log_page_size (rp : list Z) : res Z := get_le 4 rp 20.
Definition rp_restart_area_offset (rp : list Z) : res Z := get_le 2 rp 24.
Definition rp_minor_ver (rp : list Z) : res Z := v ← get_le 2 rp 26; Ok (s16 v).
Definition rp_major_ver (rp : list Z) : res Z := v ← get_le 2 rp 28; Ok (s16 v).

(** [offsetof(RESTART_PAGE_HEADER, usn)] *)
Definition usn_ofs : Z := 30.

(** ** Fields of RESTART_AREA, at [ra] *)

Definition ra_current_lsn (rp : list Z) (ra : Z) : res Z := v ← get_le 8 rp ra; Ok (s64 v).
Definition ra_log_clients (rp : list Z) (ra : Z) : res Z := get_le 2 rp (ra + 8).
Definition ra_client_free_list (rp : list Z) (ra : Z) : res Z := get_le 2 rp (ra + 10).
Definition ra_client_in_use_list (rp : list Z) (ra : Z) : res Z := get_le 2 rp (ra + 12).
Definition ra_seq_number_bits (rp : list Z) (ra : Z) : res Z := get_le 4 rp (ra + 16).
Definition ra_restart_area_length (rp : list Z) (ra : Z) : res Z := get_le 2 rp (ra + 20).
Definition ra_client_array_offset (rp : list Z) (ra : Z) : res Z := get_le 2 rp (ra + 22).
Definition ra_file_size (rp : list Z) (ra : Z) : res Z := get_le 8 rp (ra + 24).
Definition ra_log_record_header_length (rp : list Z) (ra : Z) : res Z := get_le 2 rp (ra + 36).
Definition ra_log_page_data_offset (rp : list Z) (ra : Z) : res Z := get_le 2 rp (ra + 38).

(** [offsetof(RESTART_AREA, file_size)], [sizeof(RESTART_AREA)] *)
Definition file_size_ofs : Z := 24.
Definition sizeof_RESTART_AREA : Z := 48.

(** ** Fields of LOG_CLIENT_RECORD, at [cr] *)

Definition sizeof_LOG_CLIENT_RECORD : Z := 160.
Definition cr_prev_client (rp : list Z) (cr : Z) : res Z := get_le 2 rp (cr + 16).
Definition cr_next_client (rp : list Z) (cr : Z) : res Z := get_le 2 rp (cr + 18).

(** ** The checks *)

(** [x & (x - 1)]: is [x] not a power of two? *)
Definition not_power (x : Z) : bool := negb (Z.land x (u32 (x - 1)) =? 0).

(** The end of the update sequence array, 0 when there is none; [None] when it is
    not where it may be. *)
Definition check_usa (rp : list Z) (page_size : Z) : res (option Z) :=
  magic ← rp_magic rp;
  count ← rp_usa_count rp;
  if (magic =? magic_CHKD) && (count =? 0) then Ok (Some 0) else
  let usa_count := u16 (1 + Z.shiftr page_size 9) in
  if negb (usa_count =? count) then Ok None else
  usa_ofs ← rp_usa_ofs rp;
  let usa_end := u16 (usa_ofs + usa_count * 2) in
  Ok (if (usa_ofs <? usn_ofs) || (NTFS_BLOCK_SIZE - 2 <? usa_end) then None else Some usa_end).

(** Without an update sequence array the restart area may begin at [usn]. *)
Definition check_ra_ofs (rp : list Z) (page_size usa_end : Z) : res bool :=
  magic ← rp_magic rp;
  count ← rp_usa_count rp;
  let have_usa := negb ((magic =? magic_CHKD) && (count =? 0)) in
  ra_ofs ← rp_restart_area_offset rp;
  Ok (negb (negb (Z.land ra_ofs 7 =? 0) || (ra_ofs <? (if have_usa then usa_end else usn_ofs)) || (page_size <? ra_ofs))).

Definition ntfs_check_restart_page_header (rp : list Z) (pos : Z) : res bool :=
  system_page_size ← rp_system_page_size rp;
  log_page_size ← rp_log_page_size rp;
  if (system_page_size <? NTFS_BLOCK_SIZE) || (log_page_size <? NTFS_BLOCK_SIZE) || not_power system_page_size || not_power log_page_size then Ok false else
  if negb (pos =? 0) && negb (pos =? system_page_size) then Ok false else
  major ← rp_major_ver rp;
  minor ← rp_minor_ver rp;
  if (negb (major =? 1) || negb (minor =? 1)) && (negb (major =? 2) || negb (minor =? 0)) then Ok false else
  usa ← check_usa rp system_page_size;
  match usa with
  | None => Ok false
  | Some usa_end =>
      ok ← check_ra_ofs rp system_page_size usa_end;
      if negb ok then Ok false else
      magic ← rp_magic rp;
      lsn ← rp_chkdsk_lsn rp;
      Ok ((magic =? magic_CHKD) || (lsn =? 0))
  end.

(** [while (file_size) { file_size >>= 1; fs_bits++; }] *)
Fixpoint file_size_bits (fuel : nat) (file_size fs_bits : Z) : res Z :=
  match fuel with
  | O => Undef
  | S fuel => if file_size =? 0 then Ok fs_bits else file_size_bits fuel (Z.shiftr file_size 1) (u8 (fs_bits + 1))
  end.

(** [((x + 7) & ~7) != x] *)
Definition unaligned (x : Z) : bool := negb (Z.land (x + 7) (Z.lnot 7) =? x).

(** The part of the check up to the lists of the clients. *)
Definition check_ra_bounds (rp : list Z) (ra_ofs : Z) : res bool :=
  if NTFS_BLOCK_SIZE - 2 <? ra_ofs + file_size_ofs then Ok false else
  ca_ofs ← ra_client_array_offset rp ra_ofs;
  if unaligned ca_ofs || (NTFS_BLOCK_SIZE - 2 <? ra_ofs + ca_ofs) then Ok false else
  log_clients ← ra_log_clients rp ra_ofs;
  let ra_len := u16 (ca_ofs + log_clients * sizeof_LOG_CLIENT_RECORD) in
  page_size ← rp_system_page_size rp;
  length ← ra_restart_area_length rp ra_ofs;
  if (page_size <? u32 (ra_ofs + ra_len)) || (page_size <? u32 (ra_ofs + length)) || (length <? ra_len) then Ok false else
  free ← ra_client_free_list rp ra_ofs;
  used ← ra_client_in_use_list rp ra_ofs;
  Ok (negb ((negb (free =? LOGFILE_NO_CLIENT) && (log_clients <=? free)) || (negb (used =? LOGFILE_NO_CLIENT) && (log_clients <=? used)))).

Definition ntfs_check_restart_area (rp : list Z) : res bool :=
  ra_ofs ← rp_restart_area_offset rp;
  ok ← check_ra_bounds rp ra_ofs;
  if negb ok then Ok false else
  file_size ← ra_file_size rp ra_ofs;
  fs_bits ← file_size_bits 65 file_size 0;
  seq_bits ← ra_seq_number_bits rp ra_ofs;
  if negb (seq_bits =? u32 (67 - fs_bits)) then Ok false else
  header ← ra_log_record_header_length rp ra_ofs;
  if unaligned header then Ok false else
  data ← ra_log_page_data_offset rp ra_ofs;
  Ok (negb (unaligned data)).

(** The walk of one list from [idx]: the records that may still be visited, or
    [None] when the list is corrupt.  [ca] is the offset of the client array. *)
Fixpoint check_list (fuel : nat) (rp : list Z) (ca log_clients page_size nr_clients idx : Z) (is_first : bool) : res (option Z) :=
  match fuel with
  | O => Undef
  | S fuel =>
      if idx =? LOGFILE_NO_CLIENT then Ok (Some nr_clients) else
      if (nr_clients =? 0) || (log_clients <=? idx) then Ok None else
      if page_size <? ca + (idx + 1) * sizeof_LOG_CLIENT_RECORD then Ok None else
      let cr := ca + idx * sizeof_LOG_CLIENT_RECORD in
      bad ← (if is_first then prev ← cr_prev_client rp cr; Ok (negb (prev =? LOGFILE_NO_CLIENT)) else Ok false);
      if bad : bool then Ok None else
      next ← cr_next_client rp cr;
      check_list fuel rp ca log_clients page_size (nr_clients - 1) next false
  end.

(** Every record visited takes one of those that may be. *)
Definition ntfs_check_log_client_array (rp : list Z) : res bool :=
  ra ← rp_restart_area_offset rp;
  page_size ← rp_system_page_size rp;
  if page_size <? ra + sizeof_RESTART_AREA then Ok false else
  ca_ofs ← ra_client_array_offset rp ra;
  let offset_clients := ra + ca_ofs in
  if page_size <=? offset_clients then Ok false else
  log_clients ← ra_log_clients rp ra;
  free ← ra_client_free_list rp ra;
  nr ← check_list (S (Z.to_nat log_clients)) rp offset_clients log_clients page_size log_clients free true;
  match nr with
  | None => Ok false
  | Some nr =>
      used ← ra_client_in_use_list rp ra;
      nr ← check_list (S (Z.to_nat log_clients)) rp offset_clients log_clients page_size nr used true;
      Ok (match nr with Some _ => true | None => false end)
  end.

(** ** Loading a restart page *)

Section load.
Context {A : Type} `{Heap} `{AttrIO A}.

(** The whole page: copied from [rp], or read.  A read that fails or is short is
    an I/O error unless memory was missing. *)
Definition read_page (log_na : A) (rp : list Z) (pos page_size : Z) : res (list Z) :=
  if page_size <=? NTFS_BLOCK_SIZE then aslice rp 0 page_size else
  match ntfs_attr_pread log_na pos page_size with
  | Ok b => if zlen b =? page_size then Ok b else Err EIO
  | Err ENOMEM => Err ENOMEM
  | Err _ => Err EIO
  | Undef => Undef
  end.

(** The page after [ntfs_mst_post_read_fixup], and whether that failed. *)
Definition deprotect (trp : list Z) (page_size : Z) : res (list Z * bool) :=
  magic ← rp_magic trp;
  count ← rp_usa_count trp;
  if negb (magic =? magic_CHKD) || negb (count =? 0) then
    '(w, e) ← ntfs_mst_post_read_fixup (ntfschars trp) page_size;
    Ok (concat (map (le_bytes 2) w), match e with None => false | Some _ => true end)
  else Ok (trp, false).

(** The page and its lsn; the error is the value returned. *)
Definition ntfs_check_and_load_restart_page (log_na : A) (rp : list Z) (pos : Z) : res (list Z * Z) :=
  ok ← ntfs_check_restart_page_header rp pos;
  if negb ok then Err EINVAL else
  ok ← ntfs_check_restart_area rp;
  if negb ok then Err EINVAL else
  ra ← rp_restart_area_offset rp;
  page_size ← rp_system_page_size rp;
  count ← rp_usa_count rp;
  if (u32 ((count - 1) * NTFS_BLOCK_SIZE) <? page_size) || (zlen (attr_value log_na) <? page_size) then Err EINVAL else
  if negb (heap_grants page_size) then Err ENOMEM else
  trp ← read_page log_na rp pos page_size;
  '(trp, failed) ← deprotect trp page_size;
  length ← ra_restart_area_length rp ra;
  if (failed : bool) && (NTFS_BLOCK_SIZE - 2 <? ra + length) then Err EINVAL else
  magic ← rp_magic rp;
  used ← ra_client_in_use_list rp ra;
  ok ← (if (magic =? magic_RSTR) && negb (used =? LOGFILE_NO_CLIENT) then ntfs_check_log_client_array trp else Ok true);
  if negb ok then Err EINVAL else
  lsn ← (if magic =? magic_RSTR then ra_current_lsn rp ra else rp_chkdsk_lsn rp);
  Ok (trp, lsn).

(** ** The search for the current restart page *)

(** What the search has found: whether all blocks were empty, and the pages with
    their lsn.  [None] is [goto err_out]. *)
Record found := mk_found { logfile_is_empty : bool; rstr1 : option (list Z * Z); rstr2 : option (list Z * Z) }.

Definition next_pos (pos : Z) : Z := Z.shiftl (if pos =? 0 then Z.shiftr NTFS_BLOCK_SIZE 1 else pos) 1.

(** [for (pos = 0; pos < size; pos <<= 1)].  [behind] is the memory behind the
    block allocated for the reads. *)
Fixpoint search_pages (fuel : nat) (log_na : A) (behind : list Z) (size pos : Z) (f : found) : res (option found) :=
  match fuel with
  | O => Undef
  | S fuel =>
      if size <=? pos then Ok (Some f) else
      match ntfs_attr_pread log_na pos NTFS_BLOCK_SIZE with
      | Undef => Undef
      | Err _ => Ok None
      | Ok kaddr =>
          if negb (zlen kaddr =? NTFS_BLOCK_SIZE) then Ok None else
          magic ← rp_magic kaddr;
          if (magic =? magic_empty) && negb (logfile_is_empty f) then Ok (Some f) else
          let f := mk_found (logfile_is_empty f && (magic =? magic_empty)) (rstr1 f) (rstr2 f) in
          if magic =? magic_RCRD then Ok (Some f) else
          if negb (magic =? magic_RSTR) && negb (magic =? magic_CHKD) then search_pages fuel log_na behind size (next_pos pos) f else
          match ntfs_check_and_load_restart_page log_na (kaddr ++ behind) pos with
          | Ok page =>
              let f := match rstr1 f with
                       | None => mk_found (logfile_is_empty f) (Some page) (rstr2 f)
                       | Some _ => mk_found (logfile_is_empty f) (rstr1 f) (Some page)
                       end in
              if pos =? 0 then search_pages fuel log_na behind size (next_pos pos) f else Ok (Some f)
          | Err EINVAL => search_pages fuel log_na behind size (next_pos pos) f
          | Err _ => Ok None
          | Undef => Undef
          end
      end
  end.

(** What [ntfs_check_logfile] returns. *)
Inductive journal_state := Corrupt | Empty | Restart (rp : list Z).

(** The flag of the volume that says that the journal is empty, and the answer.
    The positions double up to 4 GiB, so there are 25 of them. *)
Definition ntfs_check_logfile (log_na : A) (behind : list Z) (log_file_empty : bool) : res (bool * journal_state) :=
  if log_file_empty then Ok (true, Empty) else
  let size := Z.min (zlen (attr_value log_na)) MaxLogFileSize in
  let size := Z.land size (Z.lnot (DefaultLogPageSize - 1)) in
  if (size <? DefaultLogPageSize * 2) || (Z.shiftr (size - DefaultLogPageSize * 2) 12 <? MinLogRecordPages) then Ok (false, Corrupt) else
  if negb (heap_grants NTFS_BLOCK_SIZE) then Ok (false, Corrupt) else
  r ← search_pages 26 log_na behind size 0 (mk_found true None None);
  Ok (match r with
      | None => (false, Corrupt)
      | Some f =>
          if logfile_is_empty f then (true, Empty) else
          (false, match rstr1 f, rstr2 f with
                  | None, _ => Corrupt
                  | Some (p, _), None => Restart p
                  | Some (p1, lsn1), Some (p2, lsn2) => Restart (if lsn1 <? lsn2 then p2 else p1)
                  end)
      end).

(** ** Emptying *)

Definition NTFS_BUF_SIZE : Z := 8192.

(** [while ((count = na->data_size - pos) > 0)] *)
Fixpoint empty_loop (fuel : nat) (na : A) (pos : Z) : res A :=
  match fuel with
  | O => Undef
  | S fuel =>
      let count := zlen (attr_value na) - pos in
      if count <=? 0 then Ok na else
      let count := Z.min count NTFS_BUF_SIZE in
      '(na, count) ← ntfs_attr_pwrite na pos (replicate (Z.to_nat count) 0xff);
      if count <=? 0 then Err EIO else empty_loop fuel na (pos + count)
  end.

(** The attribute and the flag of the volume.  Every write makes the rest
    shorter. *)
Definition ntfs_empty_logfile (na : A) (non_resident log_file_empty : bool) : res (A * bool) :=
  if log_file_empty then Ok (na, true) else
  if negb non_resident then Err EIO else
  na ← empty_loop (S (length (attr_value na))) na 0;
  Ok (na, true).

End load.
