(* ===== verification/LogfileThm.v ===== *)
(** The checks of restart pages: what is read, and what pages they accept. *)

From S2P Require Import Prelude Bytes Mst AttrIO Collate Logfile.

(** * Fields *)

(** The [n]-byte integer at [p], for places within the array. *)
Definition le_at (n : Z) (b : list Z) (p : Z) : Z := match get_le n b p with Ok v => v | _ => 0 end.

Lemma get_le_at n b p : 0 <= p -> 0 <= n -> p + n <= zlen b -> get_le n b p = Ok (le_at n b p).
Proof. intros. unfold le_at, get_le, aslice. zdec. done. Qed.

Lemma le_at_range n b p : bytes b -> 0 <= n -> 0 <= le_at n b p < 256 ^ n.
Proof.
  intros Hb Hn. unfold le_at. destruct (get_le n b p) as [v| |] eqn:E; [by eapply get_le_range| |]; (split; [lia|]); apply Z.pow_pos_nonneg; lia.
Qed.

Lemma le_at_1 b p : bytes b -> 0 <= le_at 1 b p < 2 ^ 8. Proof. intros H. exact (le_at_range 1 b p H ltac:(lia)). Qed.
Lemma le_at_2 b p : bytes b -> 0 <= le_at 2 b p < 2 ^ 16. Proof. intros H. exact (le_at_range 2 b p H ltac:(lia)). Qed.
Lemma le_at_4 b p : bytes b -> 0 <= le_at 4 b p < 2 ^ 32. Proof. intros H. exact (le_at_range 4 b p H ltac:(lia)). Qed.
Lemma le_at_8 b p : bytes b -> 0 <= le_at 8 b p < 2 ^ 64. Proof. intros H. exact (le_at_range 8 b p H ltac:(lia)). Qed.

(** Reads of fields become [le_at], given that they are within the array. *)
Ltac field := rewrite !get_le_at by lia; cbn [mbind res_bind]; cbv zeta.
(** The ranges of all fields that occur. *)
Ltac field_ranges Hb :=
  repeat match goal with
  | |- context [le_at 2 ?b ?p] => lazymatch goal with _ : 0 <= le_at 2 b p < _ |- _ => fail | _ => pose proof (le_at_2 b p Hb) end
  | |- context [le_at 4 ?b ?p] => lazymatch goal with _ : 0 <= le_at 4 b p < _ |- _ => fail | _ => pose proof (le_at_4 b p Hb) end
  | |- context [le_at 8 ?b ?p] => lazymatch goal with _ : 0 <= le_at 8 b p < _ |- _ => fail | _ => pose proof (le_at_8 b p Hb) end
  end.

(** * The lists of clients *)

Section clients.
Context (rp : list Z) (ca clients page_size : Z).

Definition cr_at (idx : Z) : Z := ca + idx * sizeof_LOG_CLIENT_RECORD.
Definition next_of (idx : Z) : Z := le_at 2 rp (cr_at idx + 18).
Definition prev_of (idx : Z) : Z := le_at 2 rp (cr_at idx + 16).
(** The record is in the array and in the page. *)
Definition record_ok (idx : Z) : Prop := idx < clients /\ cr_at (idx + 1) <= page_size.

(** The records from [idx] on, each named by the one before. *)
Inductive client_chain : Z -> list Z -> Prop :=
  | chain_end : client_chain LOGFILE_NO_CLIENT []
  | chain_record idx l : idx <> LOGFILE_NO_CLIENT -> record_ok idx -> client_chain (next_of idx) l -> client_chain idx (idx :: l).

(** A list: its first record has none before it. *)
Definition client_list (idx : Z) (l : list Z) : Prop := client_chain idx l /\ match l with [] => True | i :: _ => prev_of i = LOGFILE_NO_CLIENT end.

Lemma chain_fun idx l : client_chain idx l -> forall l', client_chain idx l' -> l = l'.
Proof. induction 1 as [|idx l Hi _ _ IH]; intros l'; inversion 1; subst; try done. f_equal. by apply IH. Qed.

Lemma chain_suffix idx l : client_chain idx l -> forall i, i ∈ l -> exists l', client_chain i l' /\ (length l' <= length l)%nat.
Proof.
  induction 1 as [|idx l Hi Hok Hc IH]; intros i Hin; [by apply elem_of_nil in Hin|]. apply elem_of_cons in Hin as [->|Hin].
  - exists (idx :: l). split; [by constructor|done].
  - destruct (IH i Hin) as (l' & ? & ?). exists l'. split; [done|cbn; lia].
Qed.

(** A chain that ends visits no record twice. *)
Lemma client_chain_nodup idx l : client_chain idx l -> NoDup l.
Proof.
  induction 1 as [|idx l Hi Hok Hc IH]; constructor; [|done]. intros Hin. destruct (chain_suffix _ _ Hc _ Hin) as (l' & Hc' & Hl).
  assert (l' = idx :: l) as -> by (eapply chain_fun; [exact Hc'|by constructor]). cbn in Hl. lia.
Qed.

Context (Hb : bytes rp) (Hca : 0 <= ca) (Hpage : page_size <= zlen rp).

Lemma check_list_spec : forall fuel nr idx first, 0 <= nr < Z.of_nat fuel -> 0 <= idx < 2 ^ 16 ->
  exists r, check_list fuel rp ca clients page_size nr idx first = Ok r /\
    forall n', r = Some n' <-> exists l, client_chain idx l /\ (first = true -> client_list idx l) /\ n' = nr - zlen l /\ 0 <= n'.
Proof.
  induction fuel as [|fuel IH]; intros nr idx first Hn Hi; [lia|]. cbn [check_list]. destruct (Z.eqb_spec idx LOGFILE_NO_CLIENT) as [->|Hne].
  { exists (Some nr). split; [done|]. intros n'. split.
    - intros [= <-]. exists []. split; [constructor|]. split; [split; [constructor|done]|]. rewrite zlen_nil. lia.
    - intros (l & Hc & _ & -> & _). inversion Hc; [|done]. rewrite zlen_nil. f_equal. lia. }
  assert (forall l, client_chain idx l -> l = idx :: tl l /\ record_ok idx /\ client_chain (next_of idx) (tl l)) as Hinv by (inversion 1; subst; [done|by split]).
  assert (forall n', (exists l, client_chain idx l /\ (first = true -> client_list idx l) /\ n' = nr - zlen l /\ 0 <= n') -> 0 < nr /\ record_ok idx) as Hneed.
  { intros n' (l & Hc & _ & -> & Hn0). destruct (Hinv l Hc) as (El & Hok & _). rewrite El, zlen_cons in Hn0. pose proof (zlen_nonneg (tl l)). split; [lia|done]. }
  destruct (Z.eqb_spec nr 0) as [->|Hn0]; cbn [orb]; [exists None; split; [done|]; split; [done|]; intros Hx; destruct (Hneed _ Hx); lia|].
  destruct (Z.leb_spec clients idx) as [Hge|Hlt]; [exists None; split; [done|]; split; [done|]; intros Hx; destruct (Hneed _ Hx) as [_ [? _]]; lia|].
  destruct (Z.ltb_spec page_size (ca + (idx + 1) * sizeof_LOG_CLIENT_RECORD)) as [Hgt|Hle]; [exists None; split; [done|]; split; [done|]; intros Hx; destruct (Hneed _ Hx) as [_ [_ ?]]; unfold cr_at in *; lia|].
  assert (record_ok idx) as Hok by done. unfold sizeof_LOG_CLIENT_RECORD in Hle. unfold cr_prev_client, cr_next_client. fold (cr_at idx).
  assert (0 <= cr_at idx /\ cr_at idx + 160 <= zlen rp) as [Hc0 Hc1] by (unfold cr_at, sizeof_LOG_CLIENT_RECORD; lia).
  rewrite !get_le_at by lia. cbn [mbind res_bind]. fold (next_of idx) (prev_of idx).
  assert ((if first then Ok (negb (prev_of idx =? LOGFILE_NO_CLIENT)) else Ok false) = Ok (first && negb (prev_of idx =? LOGFILE_NO_CLIENT))) as -> by by destruct first.
  cbn [mbind res_bind]. destruct (first && negb (prev_of idx =? LOGFILE_NO_CLIENT)) eqn:Ebad.
  { exists None. split; [done|]. intros n'. split; [done|]. intros (l & Hc & Hf & _). apply andb_prop in Ebad as [-> Ep]. destruct (Hinv l Hc) as (El & _). destruct (Hf eq_refl) as [_ Hp]. rewrite El in Hp. lia. }
  destruct (IH (nr - 1) (next_of idx) false) as (r & E & Hr); [lia|apply le_at_2, Hb|]. exists r. split; [done|]. intros n'. rewrite Hr. split.
  - intros (l & Hc & _ & -> & H0). exists (idx :: l). assert (client_chain idx (idx :: l)) as Hc' by by constructor. split; [done|]. split; [|rewrite zlen_cons; lia].
    intros ->. split; [done|]. cbn in Ebad. lia.
  - intros (l & Hc & _ & -> & H0). destruct (Hinv l Hc) as (El & _ & Hc'). exists (tl l). split; [done|]. split; [done|]. rewrite El, zlen_cons in *. cbn [tl] in *. lia.
Qed.
End clients.

(** * The client array *)

Definition ra_of (rp : list Z) : Z := le_at 2 rp 24.
Definition ca_of (rp : list Z) : Z := ra_of rp + le_at 2 rp (ra_of rp + 22).
Definition clients_of (rp : list Z) : Z := le_at 2 rp (ra_of rp + 8).

(** The restart area and the start of the array are in the page, and the lists of
    free and used clients are lists of records of the array, together no more
    than there are. *)
Definition client_array_ok (rp : list Z) : Prop :=
  ra_of rp + sizeof_RESTART_AREA <= zlen rp /\ ca_of rp < zlen rp /\
  exists free used,
    client_list rp (ca_of rp) (clients_of rp) (zlen rp) (le_at 2 rp (ra_of rp + 10)) free /\
    client_list rp (ca_of rp) (clients_of rp) (zlen rp) (le_at 2 rp (ra_of rp + 12)) used /\
    NoDup free /\ NoDup used /\ zlen free + zlen used <= clients_of rp.

Lemma client_array_spec rp : bytes rp -> 32 <= zlen rp -> le_at 4 rp 16 = zlen rp ->
  exists ok, ntfs_check_log_client_array rp = Ok ok /\ (ok = true <-> client_array_ok rp).
Proof.
  intros Hb Hl Hs. unfold ntfs_check_log_client_array, rp_restart_area_offset, rp_system_page_size. field. fold (ra_of rp). rewrite Hs.
  pose proof (le_at_2 rp 24 Hb) as Hra. fold (ra_of rp) in Hra.
  destruct (Z.ltb_spec (zlen rp) (ra_of rp + sizeof_RESTART_AREA)) as [Hgt|Hle].
  { exists false. split; [done|]. split; [done|]. intros [? _]. lia. }
  unfold sizeof_RESTART_AREA in *. unfold ra_client_array_offset, ra_log_clients, ra_client_free_list, ra_client_in_use_list. field. fold (ca_of rp).
  destruct (Z.leb_spec (zlen rp) (ca_of rp)) as [Hge|Hlt].
  { exists false. split; [done|]. split; [done|]. intros (_ & ? & _). lia. }
  fold (clients_of rp). pose proof (le_at_2 rp (ra_of rp + 8) Hb) as Hn. fold (clients_of rp) in Hn.
  assert (0 <= ca_of rp) as Hca by (unfold ca_of; pose proof (le_at_2 rp (ra_of rp + 22) Hb); lia).
  destruct (check_list_spec rp (ca_of rp) (clients_of rp) (zlen rp) Hb Hca ltac:(lia) (S (Z.to_nat (clients_of rp))) (clients_of rp) (le_at 2 rp (ra_of rp + 10)) true ltac:(lia) (le_at_2 _ _ Hb)) as (r & -> & Hr).
  cbn [mbind res_bind]. destruct r as [nr|].
  - destruct (proj1 (Hr nr) eq_refl) as (free & Hf & Hfl & En & Hn0). specialize (Hfl eq_refl). pose proof (zlen_nonneg free).
    destruct (check_list_spec rp (ca_of rp) (clients_of rp) (zlen rp) Hb Hca ltac:(lia) (S (Z.to_nat (clients_of rp))) nr (le_at 2 rp (ra_of rp + 12)) true ltac:(lia) (le_at_2 _ _ Hb)) as (r2 & -> & Hr2).
    cbn [mbind res_bind]. eexists. split; [done|]. destruct r2 as [n2|].
    + split; [intros _|done]. destruct (proj1 (Hr2 n2) eq_refl) as (used & Hu & Hul & En2 & Hn2). specialize (Hul eq_refl). split; [done|]. split; [done|]. exists free, used.
      split; [done|]. split; [done|]. split; [by eapply client_chain_nodup|]. split; [by eapply client_chain_nodup|lia].
    + split; [done|]. intros (_ & _ & free' & used & [Hf' _] & Hu & _ & _ & Hlen). assert (free' = free) as -> by by eapply chain_fun.
      destruct Hu as [Hu Hp]. assert (None = Some (nr - zlen used)) as [=]. apply Hr2. exists used. split; [done|]. split; [by split|]. lia.
  - exists false. split; [done|]. split; [done|]. intros (_ & _ & free & used & [Hf Hp] & _ & _ & _ & Hlen). pose proof (zlen_nonneg used).
    assert (None = Some (clients_of rp - zlen free)) as [=]. apply Hr. exists free. split; [done|]. split; [by split|]. lia.
Qed.
