(* ===== verification/LogfilePage.v ===== *)
(** Restart pages: the fixup of a page leaves its fields, the header and the
    restart area are checked within the block, and a page that is loaded. *)

From S2P Require Import Prelude Bytes Mst AttrIO Collate BootSect Logfile LogfileThm.

(** * The fixup *)

(** The removal of the protection changes the magic and the ends of the sectors
    at most. *)
Lemma fixup_frame w size : Forall (in_u 16) w -> zlen w = size / 2 -> 8 <= size < 2 ^ 32 ->
  exists w' e, ntfs_mst_post_read_fixup w size = Ok (w', e) /\ zlen w' = zlen w /\
    forall j, 2 <= j -> sector_end j = false -> aget w' j = aget w j.
Proof.
  intros Hw Hl Hs. destruct (aget_total w 2) as [ofs H2]; [dlia|]. destruct (aget_total w 3) as [count H3]; [dlia|].
  assert (exists b, set_magic w magic_BAAD = Ok b /\ zlen b = zlen w /\ forall j, 2 <= j -> aget b j = aget w j) as (bb & Eb & Lb & Gb).
  { unfold set_magic. rewrite aset_ok by dlia. cbn [mbind res_bind]. rewrite aset_ok by (autorewrite with zlen; dlia). eexists. split; [done|]. autorewrite with zlen. split; [done|].
    intros j Hj. by rewrite !aget_insert_ne by lia. }
  unfold ntfs_mst_post_read_fixup, ntfs_mst_post_read_fixup_warn. rewrite H2, H3. cbn [mbind res_bind].
  destruct (is_valid_record size ofs count) eqn:Hv; cbn [negb].
  2:{ rewrite Eb. cbn [mbind res_bind]. exists bb, (Some EINVAL). split; [done|]. split; [done|]. intros j Hj _. by apply Gb. }
  destruct (post_read_spec_aux w size ofs count) as (usn & r & Hu & Hr & _ & b' & Hb' & L'); try done.
  change (block_words - 1) with 255. rewrite Hu. cbn [mbind res_bind]. rewrite Hr. cbn [mbind res_bind]. destruct r; cbn [negb].
  - rewrite Hb'. cbn [mbind res_bind]. exists b', None. split; [done|]. split; [done|]. intros j Hj Hse.
    assert (in_u 16 ofs /\ in_u 16 count) as [W2 W3] by (split; eapply Forall_lookup_1; [exact Hw|by apply aget_ok in H2 as [_ ?]|exact Hw|by apply aget_ok in H3 as [_ ?]]).
    destruct (is_valid_record_spec size ofs count) as (S1 & S2 & S3 & S4); [lia|done..|]. unfold in_u in W2, W3. rewrite predec_count_eq in Hb' by lia.
    apply mst_restore_get in Hb' as [_ G]; [|dlia|dlia]. rewrite G. destruct (sect_pos 255 _ j) eqn:Es; [|done]. unfold sect_pos in Es. unfold sector_end in Hse.
    change block_words with 256 in Hse. rewrite !andb_true_iff, Z.eqb_eq in Es. apply Z.eqb_neq in Hse. exfalso. apply Hse. destruct Es as [[_ Em] _]. revert Em. dlia.
  - rewrite Eb. cbn [mbind res_bind]. exists bb, (Some EIO). split; [done|]. split; [done|]. intros j Hj _. by apply Gb.
Qed.

(** The page as it was, but for its magic and the ends of its sectors. *)
Definition same_page (a b : list Z) : Prop := zlen a = zlen b /\ forall i, (4 <= i)%nat -> (i mod 512 < 510)%nat -> a !! i = b !! i.

Lemma deprotect_spec trp : bytes trp -> 512 <= zlen trp < 2 ^ 32 -> zlen trp mod 2 = 0 ->
  exists p failed, deprotect trp (zlen trp) = Ok (p, failed) /\ bytes p /\ same_page p trp.
Proof.
  intros Hb Hl Hm. unfold deprotect, rp_magic, rp_usa_count. rewrite !get_le_at by lia. cbn [mbind res_bind].
  destruct (negb (le_at 4 trp 0 =? magic_CHKD) || negb (le_at 2 trp 6 =? 0)); [|by exists trp, false].
  assert (length trp = (2 * Z.to_nat (zlen trp / 2))%nat) as Hm2 by (unfold zlen in *; dlia).
  destruct (fixup_frame (ntfschars trp) (zlen trp)) as (w & e & E & Lw & G).
  - by apply ntfschars_name.
  - unfold zlen. rewrite ntfschars_length. by rewrite Nat2Z.inj_div.
  - lia.
  - rewrite E. cbn [mbind res_bind]. fold (bytes_of w). eexists _, _. split; [done|]. split; [apply bytes_of_bytes|]. split.
    + unfold zlen in *. rewrite bytes_of_length, Nat2Z.inj_mul, Lw, ntfschars_length, Nat2Z.inj_div. rewrite <- Z_div_exact_full_2; lia.
    + intros i Hi Hmod. rewrite <- (bytes_of_chars _ trp Hm2 Hb) at 1. rewrite !bytes_of_lookup. f_equal. unfold aget in G.
      assert (forall (a b : list Z) j, aget a (Z.of_nat j) = aget b (Z.of_nat j) -> length a = length b -> a !! j = b !! j) as Hget.
      { intros a b j Hj Hlen. destruct (a !! j) eqn:Ea, (b !! j) eqn:Eb'; try done.
        - assert (aget a (Z.of_nat j) = Ok z /\ aget b (Z.of_nat j) = Ok z0) as [? ?] by (rewrite !aget_ok, !Nat2Z.id; split; split; (lia || done)). congruence.
        - apply lookup_lt_Some in Ea. apply lookup_ge_None in Eb'. lia.
        - apply lookup_lt_Some in Eb'. apply lookup_ge_None in Ea. lia. }
      apply Hget; [|unfold zlen in Lw; lia]. apply G.
      * assert (2 <= i / 2)%nat by (apply Nat.div_le_lower_bound; lia). lia.
      * unfold sector_end. change block_words with 256. apply Z.eqb_neq. rewrite Nat2Z.inj_div. intros Ez.
        assert (Z.of_nat i mod 512 < 510) by (change 512 with (Z.of_nat 512); rewrite <- Nat2Z.inj_mod; lia). dlia.
Qed.
