(* ===== verification/LogfileLoad.v ===== *)
(** Loading a restart page: what the checks of header and restart area accept,
    and that they read within the block and eight bytes behind it. *)

From S2P Require Import Prelude Bytes Mst AttrIO Collate BootSect Bitmap Logfile LogfileThm LogfilePage.

(** * The header *)

Definition size_of (rp : list Z) : Z := le_at 4 rp 16.
Definition power_of_two (x : Z) : Prop := x = 2 ^ Z.log2 x.
Definition is_chkd (rp : list Z) : Prop := le_at 4 rp 0 = magic_CHKD.

(** The update sequence array is in the first sector and ends at [e]; a page
    modified by chkdsk may have none.  The 16-bit sums are those of the code. *)
Definition usa_at (rp : list Z) (e : Z) : Prop :=
  (is_chkd rp /\ le_at 2 rp 6 = 0 /\ e = usn_ofs) \/
  (~ (is_chkd rp /\ le_at 2 rp 6 = 0) /\ le_at 2 rp 6 = u16 (1 + size_of rp / 512) /\ usn_ofs <= le_at 2 rp 4 /\ e = u16 (le_at 2 rp 4 + 2 * le_at 2 rp 6) /\ e <= 510).

Record header_ok (rp : list Z) (pos : Z) : Prop := {
  ho_size : 512 <= size_of rp /\ power_of_two (size_of rp);
  ho_log_size : 512 <= le_at 4 rp 20 /\ power_of_two (le_at 4 rp 20);
  ho_pos : pos = 0 \/ pos = size_of rp;
  ho_version : (s16 (le_at 2 rp 28) = 1 /\ s16 (le_at 2 rp 26) = 1) \/ (s16 (le_at 2 rp 28) = 2 /\ s16 (le_at 2 rp 26) = 0);
  ho_area : exists e, usa_at rp e /\ e <= ra_of rp <= size_of rp /\ ra_of rp mod 8 = 0;
  ho_lsn : is_chkd rp \/ s64 (le_at 8 rp 8) = 0
}.

Lemma not_power_spec x : 0 < x < 2 ^ 32 -> not_power x = false <-> power_of_two x.
Proof.
  intros Hx. unfold not_power, power_of_two. rewrite u32_small by lia. fold (not_power_of_2 x). split.
  - apply power_of_2. lia.
  - intros ->. apply power_of_2_ok, Z.log2_nonneg.
Qed.

Lemma check_usa_spec rp : bytes rp -> 32 <= zlen rp -> exists r, check_usa rp (size_of rp) = Ok r /\
  forall e, usa_at rp e <-> exists u, r = Some u /\ e = if decide (is_chkd rp /\ le_at 2 rp 6 = 0) then usn_ofs else u.
Proof.
  intros Hb Hl. unfold check_usa, rp_magic, rp_usa_count, rp_usa_ofs. rewrite !get_le_at by lia. cbn [mbind res_bind]. unfold usa_at, is_chkd.
  destruct (decide (le_at 4 rp 0 = magic_CHKD /\ le_at 2 rp 6 = 0)) as [[E1 E2]|Hn].
  - rewrite E1, E2. cbn [Z.eqb andb]. eexists. split; [reflexivity|]. intros e. split.
    + intros [(_ & _ & ->)|[Hx _]]; [by eexists|]. by destruct Hx.
    + intros (u & _ & ->). by left.
  - assert (((le_at 4 rp 0 =? magic_CHKD) && (le_at 2 rp 6 =? 0)) = false) as -> by lia. rewrite Z.shiftr_div_pow2 by lia. change (2 ^ 9) with 512.
    destruct (Z.eqb_spec (u16 (1 + size_of rp / 512)) (le_at 2 rp 6)) as [E|E]; cbn [negb].
    + cbv zeta. rewrite E, (Z.mul_comm (le_at 2 rp 6)). eexists. split; [reflexivity|]. unfold NTFS_BLOCK_SIZE. intros e.
      destruct (Z.ltb_spec (le_at 2 rp 4) usn_ofs); destruct (Z.ltb_spec (512 - 2) (u16 (le_at 2 rp 4 + 2 * le_at 2 rp 6))); cbn [orb].
      1-3: split; [intros [?|?]; [tauto|lia]|intros (? & [=] & _)].
      split; [intros [?|(_ & _ & _ & -> & _)]; [tauto|by eexists]|]. intros (u & [= <-] & ->). right. split; [done|]. lia.
    + eexists. split; [reflexivity|]. intros e. split; [intros [?|(_ & E' & _)]; [tauto|by rewrite E' in E]|]. by intros (? & [=] & _).
Qed.

Lemma header_spec rp pos : bytes rp -> 32 <= zlen rp -> exists ok, ntfs_check_restart_page_header rp pos = Ok ok /\ (ok = true <-> header_ok rp pos).
Proof.
  intros Hb Hl. unfold ntfs_check_restart_page_header, rp_system_page_size, rp_log_page_size, rp_major_ver, rp_minor_ver. rewrite !get_le_at by lia. cbn [mbind res_bind]. fold (size_of rp).
  pose proof (le_at_4 rp 16 Hb) as Hsz. fold (size_of rp) in Hsz. pose proof (le_at_4 rp 20 Hb) as Hlg. unfold NTFS_BLOCK_SIZE.
  destruct (((size_of rp <? 512) || (le_at 4 rp 20 <? 512)) || not_power (size_of rp) || not_power (le_at 4 rp 20)) eqn:E1.
  { exists false. split; [done|]. split; [done|]. intros [[? P1] [? P2] _ _ _ _]. apply not_power_spec in P1; [|lia]. apply not_power_spec in P2; [|lia]. rewrite P1, P2 in E1. lia. }
  apply orb_false_elim in E1 as [E1 P2]. apply orb_false_elim in E1 as [E1 P1]. apply orb_false_elim in E1 as [L1 L2]. apply not_power_spec in P1; [|lia]. apply not_power_spec in P2; [|lia].
  destruct (negb (pos =? 0) && negb (pos =? size_of rp)) eqn:E2.
  { exists false. split; [done|]. split; [done|]. intros [_ _ ? _ _ _]. lia. }
  destruct ((negb (s16 (le_at 2 rp 28) =? 1) || negb (s16 (le_at 2 rp 26) =? 1)) && (negb (s16 (le_at 2 rp 28) =? 2) || negb (s16 (le_at 2 rp 26) =? 0))) eqn:E3.
  { exists false. split; [done|]. split; [done|]. intros [_ _ _ ? _ _]. lia. }
  destruct (check_usa_spec rp Hb Hl) as (r & -> & Hr). cbn [mbind res_bind]. destruct r as [u|].
  2:{ exists false. split; [done|]. split; [done|]. intros [_ _ _ _ (e & He & _) _]. apply Hr in He as (? & [=] & _). }
  unfold check_ra_ofs, rp_magic, rp_usa_count, rp_restart_area_offset, rp_chkdsk_lsn. rewrite !get_le_at by lia. cbn [mbind res_bind]. fold (ra_of rp). rewrite (land7 (ra_of rp)).
  assert ((if negb ((le_at 4 rp 0 =? magic_CHKD) && (le_at 2 rp 6 =? 0)) then u else usn_ofs) = if decide (is_chkd rp /\ le_at 2 rp 6 = 0) then usn_ofs else u) as ->.
  { unfold is_chkd. destruct (decide (le_at 4 rp 0 = magic_CHKD /\ le_at 2 rp 6 = 0)) as [[-> ->]|Hn]; [done|]. assert (((le_at 4 rp 0 =? magic_CHKD) && (le_at 2 rp 6 =? 0)) = false) as -> by (clear - Hn; lia). done. }
  set (e := if decide _ then usn_ofs else u) in *. assert (usa_at rp e) as He by (apply Hr; by exists u). rewrite negb_involutive.
  destruct (negb (ra_of rp mod 8 =? 0) || (ra_of rp <? e) || (size_of rp <? ra_of rp)) eqn:E4.
  { exists false. split; [done|]. split; [done|]. intros [_ _ _ _ (e' & He' & ? & ?) _]. apply Hr in He' as (u' & Eu & Ee). injection Eu as Eu. rewrite <- Eu in Ee. change (e' = e) in Ee. lia. }
  eexists. split; [reflexivity|]. unfold is_chkd in *. split.
  - intros E5. split; try lia; try done; [split; [lia|done]|split; [lia|done]|exists e; split; [done|lia]|unfold is_chkd; lia].
  - intros [_ _ _ _ _ H]. unfold is_chkd in H. lia.
Qed.

(** * The restart area *)

(** The bits of a number. *)
Definition bits_of (x : Z) : Z := if x =? 0 then 0 else Z.log2 x + 1.

Lemma file_size_bits_spec fuel : forall x n, 0 <= x < 2 ^ (Z.of_nat fuel - 1) -> 0 <= n -> n + bits_of x < 256 -> file_size_bits fuel x n = Ok (n + bits_of x).
Proof.
  induction fuel as [|fuel IH]; intros x n Hx Hn Hs; [cbn in Hx; lia|]. cbn [file_size_bits]. unfold bits_of in *. destruct (Z.eqb_spec x 0) as [->|Hne]; [by rewrite Z.add_0_r|].
  rewrite Z.shiftr_div_pow2 by lia. change (2 ^ 1) with 2. pose proof (Z.log2_nonneg x). rewrite u8_small by lia.
  assert (0 < Z.of_nat fuel) by (destruct fuel; [cbn in Hx; lia|lia]).
  assert (bits_of (x / 2) = Z.log2 x) as Eb.
  { unfold bits_of. destruct (Z.eqb_spec (x / 2) 0) as [E0|Hz]; [assert (x = 1) as -> by dlia; done|].
    assert (1 < x) by (assert (x <> 1) by (intros ->; done); lia). assert (Z.log2 (x / 2) = Z.log2 x - 1) as -> by (change (x / 2) with (x / 2 ^ 1); rewrite <- Z.shiftr_div_pow2, Z.log2_shiftr by lia; assert (1 <= Z.log2 x) by (change 1 with (Z.log2 2); apply Z.log2_le_mono; lia); lia). assert (1 <= Z.log2 x) by (change 1 with (Z.log2 2); apply Z.log2_le_mono; lia). lia. }
  rewrite IH; [unfold bits_of in Eb; rewrite Eb; f_equal; lia| |lia|unfold bits_of in Eb; lia].
  replace (Z.of_nat (S fuel) - 1) with (Z.succ (Z.of_nat fuel - 1)) in Hx by lia. rewrite Z.pow_succ_r in Hx by lia. dlia.
Qed.

Definition in_clients (rp : list Z) (idx : Z) : Prop := idx = LOGFILE_NO_CLIENT \/ idx < clients_of rp.

(** The length of the area with its clients, in 16 bits as in the code. *)
Definition area_length (rp : list Z) : Z := u16 (le_at 2 rp (ra_of rp + 22) + clients_of rp * sizeof_LOG_CLIENT_RECORD).

Record area_ok (rp : list Z) : Prop := {
  ao_head : ra_of rp + file_size_ofs <= 510;
  ao_clients : le_at 2 rp (ra_of rp + 22) mod 8 = 0 /\ ca_of rp <= 510;
  ao_length : area_length rp <= le_at 2 rp (ra_of rp + 20) /\ ra_of rp + le_at 2 rp (ra_of rp + 20) <= size_of rp;
  ao_lists : in_clients rp (le_at 2 rp (ra_of rp + 10)) /\ in_clients rp (le_at 2 rp (ra_of rp + 12));
  ao_seq : le_at 4 rp (ra_of rp + 16) = 67 - bits_of (le_at 8 rp (ra_of rp + 24));
  ao_aligned : le_at 2 rp (ra_of rp + 36) mod 8 = 0 /\ le_at 2 rp (ra_of rp + 38) mod 8 = 0
}.

Lemma unaligned_spec x : unaligned x = false <-> x mod 8 = 0.
Proof.
  unfold unaligned. rewrite negb_false_iff, Z.eqb_eq, land_not7. dlia.
Qed.

Lemma area_spec rp : bytes rp -> 32 <= zlen rp -> ra_of rp mod 8 = 0 -> (ra_of rp + file_size_ofs <= 510 -> ra_of rp + 40 <= zlen rp) ->
  exists ok, ntfs_check_restart_area rp = Ok ok /\ (ok = true <-> area_ok rp).
Proof.
  intros Hb Hl Hal Hin. unfold ntfs_check_restart_area, rp_restart_area_offset, check_ra_bounds, rp_system_page_size. rewrite !get_le_at by lia. cbn [mbind res_bind]. fold (ra_of rp) (size_of rp).
  pose proof (le_at_2 rp 24 Hb) as Hra. fold (ra_of rp) in Hra. unfold NTFS_BLOCK_SIZE.
  destruct (Z.ltb_spec (512 - 2) (ra_of rp + file_size_ofs)) as [Hgt|Hle]; cbn [mbind res_bind negb].
  { exists false. split; [done|]. split; [done|]. intros []. lia. }
  specialize (Hin Hle). unfold file_size_ofs in *.
  unfold ra_client_array_offset, ra_log_clients, ra_restart_area_length, ra_client_free_list, ra_client_in_use_list, ra_file_size, ra_seq_number_bits, ra_log_record_header_length, ra_log_page_data_offset.
  rewrite !get_le_at by lia. cbn [mbind res_bind]. fold (clients_of rp) (ca_of rp).
  destruct (unaligned (le_at 2 rp (ra_of rp + 22)) || (512 - 2 <? ca_of rp)) eqn:E1; cbn [mbind res_bind negb].
  { exists false. split; [done|]. split; [done|]. intros [_ [? ?] _ _ _ _]. destruct (unaligned _) eqn:Eu; [by apply unaligned_spec in H; rewrite H in Eu|lia]. }
  apply orb_false_elim in E1 as [U1 E1]. apply unaligned_spec in U1. cbv zeta. fold (area_length rp).
  assert (0 <= area_length rp < 2 ^ 16) as Hlen by (apply wrapu_range; lia). pose proof (le_at_2 rp (ra_of rp + 20) Hb). rewrite !u32_small by lia.
  destruct ((size_of rp <? ra_of rp + area_length rp) || (size_of rp <? ra_of rp + le_at 2 rp (ra_of rp + 20)) || (le_at 2 rp (ra_of rp + 20) <? area_length rp)) eqn:E2; cbn [mbind res_bind negb].
  { exists false. split; [done|]. split; [done|]. intros [_ _ ? _ _ _]. lia. }
  rewrite negb_involutive. destruct ((negb (le_at 2 rp (ra_of rp + 10) =? LOGFILE_NO_CLIENT) && _) || _) eqn:E3.
  { exists false. split; [done|]. split; [done|]. intros [_ _ _ [[?|?] [?|?]] _ _]; lia. }
  pose proof (le_at_8 rp (ra_of rp + 24) Hb) as Hfs. assert (0 <= bits_of (le_at 8 rp (ra_of rp + 24)) <= 64) as Hbits.
  { unfold bits_of. destruct (Z.eqb_spec (le_at 8 rp (ra_of rp + 24)) 0); [lia|]. pose proof (Z.log2_nonneg (le_at 8 rp (ra_of rp + 24))). assert (Z.log2 (le_at 8 rp (ra_of rp + 24)) < 64) by (apply Z.log2_lt_pow2; lia). lia. }
  rewrite file_size_bits_spec by (change (Z.of_nat 65 - 1) with 64; lia). cbn [mbind res_bind]. rewrite Z.add_0_l, u32_small by lia.
  destruct (Z.eqb_spec (le_at 4 rp (ra_of rp + 16)) (67 - bits_of (le_at 8 rp (ra_of rp + 24)))) as [E4|E4]; cbn [negb].
  2:{ exists false. split; [done|]. split; [done|]. by intros []. }
  destruct (unaligned (le_at 2 rp (ra_of rp + 36))) eqn:E5.
  { exists false. split; [done|]. split; [done|]. intros [_ _ _ _ _ [? ?]]. apply unaligned_spec in H0. congruence. }
  eexists. split; [reflexivity|]. rewrite negb_true_iff, unaligned_spec. apply unaligned_spec in E5. split.
  - intros E6. split; try done; unfold in_clients; lia.
  - by intros [_ _ _ _ _ [? ?]].
Qed.

(** * Loading *)

Section load.
Context {A : Type} `{Heap} `{AttrIOLaws A}.

(** The bytes of the journal [v] at [pos]. *)
Definition part (v : list Z) (pos n : Z) : list Z := take (Z.to_nat n) (drop (Z.to_nat pos) v).

(** The page [p] with lsn [lsn] is what the journal [v] holds at [pos], and it
    passes all checks; [rp] is its first block. *)
Record page_at (v rp : list Z) (pos : Z) (p : list Z) (lsn : Z) : Prop := {
  pa_header : header_ok rp pos;
  pa_area : area_ok rp;
  pa_count : size_of rp <= u32 ((le_at 2 rp 6 - 1) * 512);
  pa_inside : pos + size_of rp <= zlen v;
  pa_memory : heap_grants (size_of rp) = true;
  pa_fixup : exists failed, deprotect (part v pos (size_of rp)) (size_of rp) = Ok (p, failed) /\ (failed = true -> ra_of rp + le_at 2 rp (ra_of rp + 20) <= 510);
  pa_clients : le_at 4 rp 0 = magic_RSTR -> le_at 2 rp (ra_of rp + 12) <> LOGFILE_NO_CLIENT -> client_array_ok p;
  pa_lsn : lsn = s64 (if le_at 4 rp 0 =? magic_RSTR then le_at 8 rp (ra_of rp) else le_at 8 rp 8)
}.

(** How a page is refused: EIO when it leaves the journal, ENOMEM when there is no
    memory for it. *)
Definition refused (v rp : list Z) (pos : Z) (e : errno) : Prop :=
  match e with
  | EINVAL => True
  | EIO => zlen v < pos + size_of rp
  | ENOMEM => heap_grants (size_of rp) = false
  | _ => False
  end.

Lemma part_zlen v pos n : 0 <= pos -> 0 <= n -> pos + n <= zlen v -> zlen (part v pos n) = n.
Proof. intros. unfold part, zlen in *. rewrite length_take, length_drop. lia. Qed.

Lemma part_bytes v pos n : bytes v -> bytes (part v pos n).
Proof. intros Hv. by apply Forall_take, Forall_drop. Qed.

Lemma part_lookup v pos n i : 0 <= pos -> (i < Z.to_nat n)%nat -> part v pos n !! i = v !! (Z.to_nat pos + i)%nat.
Proof. intros. unfold part. rewrite lookup_take_lt by done. by rewrite lookup_drop. Qed.

(** Fields that are not at the end of a sector survive the fixup. *)
Lemma same_page_le n a b p : same_page a b -> 0 <= n -> 4 <= p -> p mod 512 + n <= 510 -> le_at n a p = le_at n b p.
Proof.
  intros [Hl Hs] Hn Hp Hm. unfold le_at, get_le, aslice. rewrite Hl. destruct ((p <? 0) || (n <? 0) || (zlen b <? p + n)); [done|]. cbn [mbind res_bind]. f_equal.
  apply list_eq. intros i. destruct (decide (i < Z.to_nat n)%nat) as [Hi|Hi].
  - rewrite !lookup_take_lt by done. rewrite !lookup_drop. pose proof (Z.mod_pos_bound p 512 ltac:(lia)) as Hpm. pose proof (Z.div_mod p 512 ltac:(lia)) as Hpd. apply Hs; [lia|].
    replace ((Z.to_nat p + i) mod 512)%nat with (Z.to_nat (p mod 512) + i)%nat; [lia|].
    apply Nat.mod_unique with (q := Z.to_nat (p / 512)); [lia|]. pose proof (Z.div_pos p 512). lia.
  - by rewrite !lookup_take_ge by lia.
Qed.

Context (na : A) (behind : list Z) (Hv : bytes (attr_value na)) (Hbb : bytes behind) (Hbl : 8 <= zlen behind).

Lemma le_at_part v pos size n p : 0 <= pos -> 0 <= p -> 0 <= n -> p + n <= 512 -> 512 <= size -> pos + size <= zlen v ->
  le_at n (part v pos size) p = le_at n (part v pos 512 ++ behind) p.
Proof.
  intros. unfold le_at, get_le, aslice. rewrite zlen_app, !part_zlen by lia. pose proof (zlen_nonneg behind).
  zdec. cbn [mbind res_bind]. f_equal. apply list_eq. intros i. destruct (decide (i < Z.to_nat n)%nat) as [Hi|Hi]; [|by rewrite !lookup_take_ge by lia].
  rewrite !lookup_take_lt, !lookup_drop by done. rewrite lookup_app_l by (rewrite <- (Nat2Z.id (length _)); fold (zlen (part v pos 512)); rewrite part_zlen; lia).
  by rewrite !part_lookup by lia.
Qed.

Lemma read_page_spec pos size : 0 <= pos -> 512 <= size -> size mod 512 = 0 -> pos + 512 <= zlen (attr_value na) ->
  read_page na (part (attr_value na) pos 512 ++ behind) pos size = if zlen (attr_value na) <? pos + size then Err EIO else Ok (part (attr_value na) pos size).
Proof.
  intros Hp Hs Hm Hin. unfold read_page, NTFS_BLOCK_SIZE. destruct (Z.leb_spec size 512).
  - assert (size = 512) as -> by lia. rewrite (proj2 (Z.ltb_ge _ _)) by lia. assert (zlen (part (attr_value na) pos 512) = 512) as Hl by (apply part_zlen; lia).
    exact (aslice_mid [] (part (attr_value na) pos 512) behind 0 512 eq_refl (eq_sym Hl)).
  - rewrite pread_value by lia. fold (part (attr_value na) pos size). destruct (Z.ltb_spec (zlen (attr_value na)) (pos + size)).
    + destruct (Z.eqb_spec (zlen (part (attr_value na) pos size)) size) as [E|]; [|done]. unfold part, zlen in *. rewrite length_take, length_drop in E. lia.
    + rewrite part_zlen, Z.eqb_refl by lia. done.
Qed.

(** What loading a page answers: the page and its lsn exactly when it is there
    and sound, an error otherwise. *)
Definition load_answer (v rp : list Z) (pos : Z) (r : res (list Z * Z)) : Prop :=
  match r with
  | Ok (p, lsn) => page_at v rp pos p lsn /\ bytes p /\ same_page p (part v pos (size_of rp))
  | Err e => refused v rp pos e /\ forall p lsn, ~ page_at v rp pos p lsn
  | Undef => False
  end.

Lemma size_mod rp pos : header_ok rp pos -> size_of rp mod 512 = 0.
Proof.
  intros [[Hs E] _ _ _ _ _]. unfold power_of_two in E. assert (9 <= Z.log2 (size_of rp)) as Hk by (change 9 with (Z.log2 512); apply Z.log2_le_mono; lia).
  rewrite E. replace (Z.log2 (size_of rp)) with (9 + (Z.log2 (size_of rp) - 9)) by lia. rewrite Z.pow_add_r by lia. change (2 ^ 9) with 512. rewrite Z.mul_comm. apply Z.mod_mul. lia.
Qed.

Lemma load_spec pos : 0 <= pos -> pos + 512 <= zlen (attr_value na) ->
  let v := attr_value na in let rp := part v pos 512 ++ behind in
  load_answer v rp pos (ntfs_check_and_load_restart_page na rp pos).
Proof.
  intros Hp Hin v. fold v in Hin, Hv. intros rp. assert (zlen (part v pos 512) = 512) as Hl by (apply part_zlen; lia). assert (bytes rp) as Hb by (apply Forall_app_2; [by apply part_bytes|done]).
  assert (520 <= zlen rp) as Hl2 by (unfold rp; rewrite zlen_app; unfold v in *; lia). unfold ntfs_check_and_load_restart_page.
  destruct (header_spec rp pos Hb ltac:(lia)) as (ok & -> & Hok). cbn [mbind res_bind]. destruct ok; cbn [negb]; [|split; [done|]; intros p lsn [Hx _ _ _ _ _ _ _]; by apply Hok in Hx].
  pose proof (proj1 Hok eq_refl) as Hh. destruct (ho_area _ _ Hh) as (e & _ & Hra & Hal).
  destruct (area_spec rp Hb ltac:(lia) Hal) as (oka & -> & Hoka); [unfold file_size_ofs; intros; dlia|]. cbn [mbind res_bind]. destruct oka; cbn [negb]; [|split; [done|]; intros p lsn [_ Hx _ _ _ _ _ _]; by apply Hoka in Hx].
  pose proof (proj1 Hoka eq_refl) as Ha. pose proof (ao_head _ Ha) as Hah. unfold file_size_ofs in Hah.
  unfold rp_restart_area_offset, rp_system_page_size, rp_usa_count. rewrite !get_le_at by lia. cbn [mbind res_bind]. fold (ra_of rp) (size_of rp). fold v.
  pose proof (ho_size _ _ Hh) as [Hsz _]. pose proof (le_at_4 rp 16 Hb) as Hsz2. fold (size_of rp) in Hsz2. pose proof (size_mod _ _ Hh) as Hmod. pose proof (le_at_2 rp 24 Hb) as Hra0. fold (ra_of rp) in Hra0.
  unfold NTFS_BLOCK_SIZE. destruct (Z.ltb_spec (u32 ((le_at 2 rp 6 - 1) * 512)) (size_of rp)) as [Hc|Hc]; cbn [orb]; [split; [done|]; intros p lsn []; lia|].
  destruct (Z.ltb_spec (zlen v) (size_of rp)) as [Hz|Hz]; [split; [done|]; intros p lsn []; lia|].
  destruct (heap_grants (size_of rp)) eqn:Hg; cbn [negb]; [|split; [done|]; intros p lsn []; congruence].
  unfold rp, v. rewrite read_page_spec by done. fold v. fold rp. destruct (Z.ltb_spec (zlen v) (pos + size_of rp)) as [Ho|Ho]; cbn [mbind res_bind]; [split; [done|]; intros p lsn []; lia|].
  assert (zlen (part v pos (size_of rp)) = size_of rp) as Hpl by (apply part_zlen; lia).
  destruct (deprotect_spec (part v pos (size_of rp))) as (p & failed & Hd & Hbp & Hsame); [by apply part_bytes|lia|dlia|]. rewrite Hpl in Hd. rewrite Hd. cbn [mbind res_bind].
  unfold ra_restart_area_length, rp_magic, ra_client_in_use_list. rewrite !get_le_at by lia. cbn [mbind res_bind].
  destruct (failed && (512 - 2 <? ra_of rp + le_at 2 rp (ra_of rp + 20))) eqn:Ef.
  { split; [done|]. intros p' lsn [_ _ _ _ _ (f' & Hd' & Hf') _ _]. rewrite Hd in Hd'. injection Hd' as -> ->. destruct f'; [specialize (Hf' eq_refl); lia|done]. }
  assert (exists ok, (if (le_at 4 rp 0 =? magic_RSTR) && negb (le_at 2 rp (ra_of rp + 12) =? LOGFILE_NO_CLIENT) then ntfs_check_log_client_array p else Ok true) = Ok ok /\
    (ok = true <-> (le_at 4 rp 0 = magic_RSTR -> le_at 2 rp (ra_of rp + 12) <> LOGFILE_NO_CLIENT -> client_array_ok p))) as (ok & -> & Hcl).
  { destruct ((le_at 4 rp 0 =? magic_RSTR) && negb (le_at 2 rp (ra_of rp + 12) =? LOGFILE_NO_CLIENT)) eqn:Ec; [|exists true; split; [done|]; split; [intros _ X1 X2; exfalso; lia|done]].
    destruct (client_array_spec p) as (ok & E & Hcl); [done|destruct Hsame; lia| |exists ok; split; [done|]; rewrite Hcl; split; [done|intros X; apply X; lia]].
    rewrite (same_page_le 4 p _ 16 Hsame) by (done || lia). destruct Hsame as [-> _]. rewrite Hpl. refine (le_at_part v pos (size_of rp) 4 16 _ _ _ _ _ _); lia. }
  cbn [mbind res_bind]. destruct ok; cbn [negb].
  2:{ split; [done|]. intros p' lsn [_ _ _ _ _ (f' & Hd' & Hf') Hx _]. rewrite Hd in Hd'. injection Hd' as -> ->. by apply Hcl in Hx. }
  assert ((if le_at 4 rp 0 =? magic_RSTR then ra_current_lsn rp (ra_of rp) else rp_chkdsk_lsn rp) = Ok (s64 (if le_at 4 rp 0 =? magic_RSTR then le_at 8 rp (ra_of rp) else le_at 8 rp 8))) as ->.
  { unfold ra_current_lsn, rp_chkdsk_lsn. rewrite !get_le_at by lia. by destruct (le_at 4 rp 0 =? magic_RSTR). }
  cbn [mbind res_bind]. split; [|done]. split; try done; [|by apply Hcl].
  exists failed. split; [done|]. intros ->. cbn [andb] in Ef. lia.
Qed.
End load.
