(* ===== verification/LogfileSearch.v ===== *)
(** The search for the current restart page, and the journal after it has been
    emptied. *)

From S2P Require Import Prelude Bytes Mst AttrIO Collate Logfile LogfileThm LogfilePage LogfileLoad.

Section search.
Context {A : Type} `{Heap} `{AttrIOLaws A} (behind : list Z) (Hbb : bytes behind) (Hbl : 8 <= zlen behind).

(** The places of the journal that are looked at. *)
Definition probe (size pos : Z) : Prop := (pos = 0 \/ exists k, 0 <= k /\ pos = 512 * 2 ^ k) /\ pos < size.

Definition magic_at (v : list Z) (pos : Z) : Z := le_at 4 (part v pos 512) 0.

(** A restart page of the journal that passes the checks, with its lsn. *)
Definition sound (v : list Z) (pos : Z) (p : list Z) (lsn : Z) : Prop :=
  (magic_at v pos = magic_RSTR \/ magic_at v pos = magic_CHKD) /\ page_at v (part v pos 512 ++ behind) pos p lsn.

Lemma sound_fun v pos p lsn p' lsn' : sound v pos p lsn -> sound v pos p' lsn' -> p = p' /\ lsn = lsn'.
Proof.
  intros [_ [_ _ _ _ _ (f & E & _) _ E1]] [_ [_ _ _ _ _ (f' & E' & _) _ E1']]. rewrite E in E'. injection E' as -> ->. by rewrite E1, E1'.
Qed.

Definition all_empty (v : list Z) (size : Z) : Prop := forall pos, probe size pos -> magic_at v pos = magic_empty.

(** Why the search can fail: memory is missing, or a page leaves the journal. *)
Definition gives_up (v : list Z) (size : Z) : Prop :=
  (exists n, heap_grants n = false) \/ exists pos, probe size pos /\ (magic_at v pos = magic_RSTR \/ magic_at v pos = magic_CHKD) /\ zlen v < pos + size_of (part v pos 512 ++ behind).

(** What the search has found before [pos], which is not the first place. *)
Record before (v : list Z) (pos : Z) (f : found) : Prop := {
  bf_empty : logfile_is_empty f = true <-> all_empty v pos;
  bf_none : rstr1 f = None -> forall p lsn, ~ sound v 0 p lsn;
  bf_some : forall p lsn, rstr1 f = Some (p, lsn) -> sound v 0 p lsn;
  bf_first : rstr2 f = None
}.

(** What it has found in the end. *)
Record result (v : list Z) (size : Z) (f : found) : Prop := {
  rs_empty : logfile_is_empty f = true <-> all_empty v size;
  rs_none : rstr1 f = None -> rstr2 f = None /\ forall p lsn, ~ sound v 0 p lsn;
  rs_one : forall p lsn, rstr1 f = Some (p, lsn) -> rstr2 f = None -> exists pos, probe size pos /\ sound v pos p lsn /\ (pos = 0 \/ forall q l, ~ sound v 0 q l);
  rs_two : forall p lsn p2 lsn2, rstr1 f = Some (p, lsn) -> rstr2 f = Some (p2, lsn2) -> sound v 0 p lsn /\ exists pos, probe size pos /\ sound v pos p2 lsn2
}.

Lemma probe_mono size size' pos : size <= size' -> probe size pos -> probe size' pos.
Proof. intros Hs [? ?]. split; [done|lia]. Qed.

Lemma probe_next k pos : 0 <= k -> probe (512 * 2 ^ Z.succ k) pos <-> probe (512 * 2 ^ k) pos \/ pos = 512 * 2 ^ k.
Proof.
  intros Hk. pose proof (Z.pow_pos_nonneg 2 k ltac:(lia) Hk). rewrite Z.pow_succ_r by done. unfold probe. split.
  - intros [[->|(j & Hj & ->)] Hl]; [left; split; [by left|lia]|]. destruct (Z.lt_trichotomy j k) as [Hlt|[->|Hgt]].
    + left. split; [right; by exists j|]. apply Z.mul_lt_mono_pos_l; [lia|]. apply Z.pow_lt_mono_r; lia.
    + by right.
    + exfalso. pose proof (Z.pow_le_mono_r 2 (Z.succ k) j ltac:(lia) ltac:(lia)) as Hp. rewrite Z.pow_succ_r in Hp by done. lia.
  - intros [[? ?]| ->]; [split; [done|lia]|]. split; [right; by exists k|lia].
Qed.

Lemma all_empty_next v k : 0 <= k -> all_empty v (512 * 2 ^ Z.succ k) <-> all_empty v (512 * 2 ^ k) /\ magic_at v (512 * 2 ^ k) = magic_empty.
Proof.
  intros Hk. unfold all_empty. split.
  - intros He. split; [intros pos Hp|]; apply He, probe_next; tauto.
  - intros [He Hm] pos [Hp| ->]%probe_next; [by apply He|done|done].
Qed.

Lemma probe_zero pos : probe 512 pos <-> pos = 0.
Proof.
  split; [|intros ->; split; [by left|done]]. intros [[->|(k & Hk & ->)] Hl]; [done|]. pose proof (Z.pow_pos_nonneg 2 k ltac:(lia) Hk). lia.
Qed.

Context (na : A) (Hv : bytes (attr_value na)).

Lemma block_read pos : 0 <= pos -> pos + 512 <= zlen (attr_value na) ->
  ntfs_attr_pread na pos NTFS_BLOCK_SIZE = Ok (part (attr_value na) pos 512) /\ zlen (part (attr_value na) pos 512) = 512 /\ rp_magic (part (attr_value na) pos 512) = Ok (magic_at (attr_value na) pos).
Proof.
  intros Hp Hin. unfold NTFS_BLOCK_SIZE. rewrite pread_value by lia. fold (part (attr_value na) pos 512). assert (zlen (part (attr_value na) pos 512) = 512) as Hl by (apply part_zlen; lia).
  split; [done|]. split; [done|]. unfold rp_magic. by rewrite get_le_at by lia.
Qed.

(** ** One iteration *)

Inductive outcome := Stop (f : found) | Go (f : found) | Fail.

Definition push (f : found) (page : list Z * Z) : found :=
  match rstr1 f with None => mk_found (logfile_is_empty f) (Some page) (rstr2 f) | Some _ => mk_found (logfile_is_empty f) (rstr1 f) (Some page) end.
Definition nonempty (f : found) : found := mk_found false (rstr1 f) (rstr2 f).

Definition visited (size pos : Z) (f : found) (o : outcome) : Prop :=
  let v := attr_value na in
  match o with
  | Stop f' => (f' = f /\ logfile_is_empty f = false) \/
      (magic_at v pos <> magic_empty /\ ((f' = nonempty f /\ forall p lsn, ~ sound v pos p lsn) \/ (pos <> 0 /\ exists p lsn, sound v pos p lsn /\ f' = push (nonempty f) (p, lsn))))
  | Go f' => (f' = mk_found (logfile_is_empty f && (magic_at v pos =? magic_empty)) (rstr1 f) (rstr2 f) /\ forall p lsn, ~ sound v pos p lsn) \/
      (pos = 0 /\ magic_at v pos <> magic_empty /\ exists p lsn, sound v pos p lsn /\ f' = push (nonempty f) (p, lsn))
  | Fail => gives_up v size
  end.

Lemma visit_spec fuel size pos f : probe size pos -> pos + 512 <= zlen (attr_value na) -> exists o,
  search_pages (S fuel) na behind size pos f = match o with Stop f' => Ok (Some f') | Go f' => search_pages fuel na behind size (next_pos pos) f' | Fail => Ok None end /\
  visited size pos f o.
Proof.
  intros Hp Hin. assert (0 <= pos) as Hp0 by (destruct Hp as [[->|(k & Hk & ->)] _]; [done|pose proof (Z.pow_pos_nonneg 2 k ltac:(lia) Hk); lia]).
  cbn [search_pages]. rewrite (proj2 (Z.leb_gt _ _)) by apply Hp. destruct (block_read pos Hp0 Hin) as (-> & Hl & Hm). unfold NTFS_BLOCK_SIZE. rewrite Hl. cbn [Z.eqb negb]. change (512 =? 512) with true. cbn [negb].
  rewrite Hm. cbn [mbind res_bind]. set (v := attr_value na) in *. pose proof (load_spec na behind Hv Hbb Hbl pos Hp0 Hin) as Hload. cbv zeta in Hload. fold v in Hload.
  destruct ((magic_at v pos =? magic_empty) && negb (logfile_is_empty f)) eqn:E1.
  { exists (Stop f). split; [done|]. left. split; [done|]. destruct (logfile_is_empty f); [by rewrite andb_false_r in E1|done]. }
  destruct (Z.eqb_spec (magic_at v pos) magic_RCRD) as [Er|Er].
  { exists (Stop (nonempty f)). rewrite Er. change (magic_RCRD =? magic_empty) with false. rewrite andb_false_r. split; [done|]. right. fold v. rewrite Er. split; [done|]. left. split; [done|]. intros p lsn [[E|E] _]; by rewrite Er in E. }
  destruct (negb (magic_at v pos =? magic_RSTR) && negb (magic_at v pos =? magic_CHKD)) eqn:E2.
  { eexists (Go _). split; [reflexivity|]. left. split; [done|]. intros p lsn [[E|E] _]; fold v in E; rewrite E in E2; done. }
  assert (magic_at v pos <> magic_empty /\ (magic_at v pos = magic_RSTR \/ magic_at v pos = magic_CHKD)) as [Hne Hmag].
  { assert (magic_at v pos = magic_RSTR \/ magic_at v pos = magic_CHKD) as [->| ->] by lia; (split; [done|by auto]). }
  rewrite (proj2 (Z.eqb_neq _ _) Hne), andb_false_r. fold (nonempty f). destruct (ntfs_check_and_load_restart_page na (part v pos 512 ++ behind) pos) as [[p lsn]|e|]; [| |done].
  - destruct Hload as (Hpa & _). assert (sound v pos p lsn) as Hs by done. fold (push (nonempty f) (p, lsn)). destruct (Z.eqb_spec pos 0) as [->|Hne0].
    + eexists (Go _). split; [reflexivity|]. right. split; [done|]. split; [done|]. by exists p, lsn.
    + eexists (Stop _). split; [reflexivity|]. right. split; [done|]. right. split; [done|]. by exists p, lsn.
  - destruct Hload as [Href Hno]. assert (forall p lsn, ~ sound v pos p lsn) as Hns by (intros p lsn [_ Hx]; by eapply Hno).
    destruct e; try done.
    + eexists (Go _). split; [reflexivity|]. left. split; [|done]. fold v. by rewrite (proj2 (Z.eqb_neq _ _) Hne), andb_false_r.
    + exists Fail. split; [done|]. right. by exists pos.
    + exists Fail. split; [done|]. left. by eexists.
Qed.

(** ** The loop *)

Definition finished (size : Z) (r : res (option found)) : Prop :=
  (exists f, r = Ok (Some f) /\ result (attr_value na) size f) \/ (r = Ok None /\ gives_up (attr_value na) size).

Lemma stopped v size pos f : 0 < size -> ~ all_empty v size -> before v pos f -> result v size (nonempty f).
Proof.
  intros Hs Hn [B1 B2 B3 B4]. split; cbn [nonempty logfile_is_empty rstr1 rstr2].
  - by split.
  - intros E. split; [done|by apply B2].
  - intros p lsn E _. exists 0. split; [split; [by left|done]|]. split; [by apply B3|by left].
  - intros p lsn p2 lsn2 _. by rewrite B4.
Qed.

Lemma stopped_found v size pos f p lsn : ~ all_empty v size -> before v pos f -> probe size pos -> sound v pos p lsn -> result v size (push (nonempty f) (p, lsn)).
Proof.
  intros Hn [B1 B2 B3 B4] Hp Hs. unfold push. cbn [nonempty rstr1]. destruct (rstr1 f) as [[q l]|] eqn:E; split; cbn [nonempty logfile_is_empty rstr1 rstr2]; try done.
  - intros q' l' p2 lsn2 [= <- <-] [= <- <-]. split; [by apply B3|by exists pos].
  - intros q l [= <- <-] _. exists pos. split; [done|]. split; [done|]. right. by apply B2.
  - intros q l q2 l2 _. by rewrite B4.
Qed.

Lemma search_spec_at fuel : forall k size f, 0 <= k -> size <= 512 * 2 ^ (k + Z.of_nat fuel) -> size <= zlen (attr_value na) -> size mod 512 = 0 ->
  (forall q, probe (512 * 2 ^ k) q -> q < size) -> before (attr_value na) (512 * 2 ^ k) f -> finished size (search_pages (S fuel) na behind size (512 * 2 ^ k) f).
Proof.
  induction fuel as [|fuel IH]; intros k size f Hk Hf Hz Hm Hprev Hbf; pose proof (Z.pow_pos_nonneg 2 k ltac:(lia) Hk) as Hpk;
    assert (probe size 0) as Hp0 by (split; [by left|apply Hprev; split; [by left|lia]]);
    (destruct (Z.leb_spec size (512 * 2 ^ k)) as [Hle|Hlt]; [left; exists f; cbn [search_pages]; rewrite (proj2 (Z.leb_le _ _)) by done; split; [done|]|]).
  1,3: destruct Hbf as [B1 B2 B3 B4]; split;
    [rewrite B1; split; intros He pos Hp; apply He; [by eapply probe_mono|split; [apply Hp|by apply Hprev]]|intros E; split; [done|by apply B2]|intros p lsn E _; exists 0; split; [done|split; [by apply B3|by left]]|intros p lsn p2 lsn2 _; by rewrite B4].
  { exfalso. rewrite Z.add_0_r in Hf. lia. }
  set (v := attr_value na) in *. assert (probe size (512 * 2 ^ k)) as Hpr by (split; [right; by exists k|done]).
  destruct (visit_spec (S fuel) size (512 * 2 ^ k) f Hpr) as (o & -> & Hvis); [fold v; dlia|]. fold v in Hvis. pose proof Hbf as [B1 B2 B3 B4].
  assert (magic_at v (512 * 2 ^ k) <> magic_empty -> ~ all_empty v size) as Hne by (intros Hx He; by apply Hx, He).
  destruct o as [f'|f'|]; cbn [visited] in Hvis; fold v in Hvis.
  - left. exists f'. split; [done|]. destruct Hvis as [[-> Ee]|[Hx [[-> _]|(_ & p & lsn & Hs & ->)]]].
    + assert (f = nonempty f) as Ef by (destruct f; cbn in Ee; by rewrite Ee). rewrite Ef. apply (stopped v size (512 * 2 ^ k)); [apply Hp0| |done]. intros He. assert (logfile_is_empty f = true) as E1 by (apply B1; intros q Hq; apply He; split; [apply Hq|by apply Hprev]). congruence.
    + by apply (stopped v size (512 * 2 ^ k)); [apply Hp0|apply Hne|].
    + by eapply stopped_found; [apply Hne| | |].
  - destruct Hvis as [[-> Hns]|[E0 _]]; [|lia]. assert (next_pos (512 * 2 ^ k) = 512 * 2 ^ Z.succ k) as -> by (unfold next_pos; rewrite (proj2 (Z.eqb_neq _ _)), Z.shiftl_mul_pow2, Z.pow_succ_r by lia; lia).
    apply IH; [lia|by replace (Z.succ k + Z.of_nat fuel) with (k + Z.of_nat (S fuel)) by lia|done|done| |].
    + intros q [Hq| ->]%probe_next; [by apply Hprev|done|done].
    + split; cbn [logfile_is_empty rstr1 rstr2]; [|done|done|done]. fold v. rewrite andb_true_iff, Z.eqb_eq, B1. symmetry. by apply all_empty_next.
  - by right.
Qed.

(** The whole search: 26 places are more than there are. *)
Lemma log_search_spec size : 512 <= size <= 2 ^ 32 -> size <= zlen (attr_value na) -> size mod 512 = 0 ->
  finished size (search_pages 26 na behind size 0 (mk_found true None None)).
Proof.
  intros Hs Hz Hm. set (v := attr_value na) in *. assert (probe size 0) as Hp0 by (split; [by left|lia]).
  assert (magic_at v 0 <> magic_empty -> ~ all_empty v size) as Hne by (intros Hx He; by apply Hx, He).
  destruct (visit_spec 25 size 0 (mk_found true None None) Hp0) as (o & -> & Hvis); [fold v; lia|].
  assert (forall r1, (magic_at v 0 = magic_empty -> r1 = None) -> (r1 = None -> forall p lsn, ~ sound v 0 p lsn) -> (forall p lsn, r1 = Some (p, lsn) -> sound v 0 p lsn) ->
    finished size (search_pages 25 na behind size 512 (mk_found (magic_at v 0 =? magic_empty) r1 None))) as Hgo.
  { intros r1 _ R2 R3. apply (search_spec_at 24 0); [done|cbn; lia|done|done| |].
    - intros q Hq. apply probe_zero in Hq as ->. lia.
    - split; [|done|done|done]. cbn [logfile_is_empty]. rewrite Z.eqb_eq. unfold all_empty. split; [intros E q ->%probe_zero; done|intros E; by apply E, probe_zero]. }
  destruct o as [f'|f'|]; cbn [visited] in Hvis; fold v in Hvis.
  - left. exists f'. split; [done|]. destruct Hvis as [[_ [=]]|[Hx [[-> Hns]|([] & _)]]]; [|done]. split; cbn [nonempty logfile_is_empty rstr1 rstr2]; try done.
    split; [done|]. intros He. by destruct (Hne Hx).
  - change (next_pos 0) with 512. destruct Hvis as [[-> Hns]|(_ & Hx & p & lsn & Hs0 & ->)]; cbn [logfile_is_empty rstr1 rstr2 andb].
    + by apply Hgo.
    + unfold push. cbn [nonempty rstr1 rstr2 logfile_is_empty]. rewrite <- (proj2 (Z.eqb_neq _ _) Hx). apply Hgo; [done|done|]. by intros q l [= <- <-].
  - by right.
Qed.
End search.
