(* ===== verification/LogfileCheck.v ===== *)
(** What [ntfs_check_logfile] and [ntfs_empty_logfile] promise the mount. *)

From S2P Require Import Prelude Bytes Mst AttrIO Collate Bitmap Logfile LogfileThm LogfilePage LogfileLoad LogfileSearch.

(** The part of the journal that is searched, in whole pages. *)
Definition journal_size (v : list Z) : Z := 4096 * (Z.min (zlen v) MaxLogFileSize / 4096).

(** Two restart pages and 48 log pages. *)
Definition min_journal : Z := 50 * 4096.

Lemma land_page x : Z.land x (Z.lnot (DefaultLogPageSize - 1)) = 4096 * (x / 4096).
Proof. change (DefaultLogPageSize - 1) with (Z.ones 12). rewrite land_lnot_ones by done. done. Qed.

Lemma journal_size_spec v : journal_size v mod 512 = 0 /\ 0 <= journal_size v <= 2 ^ 32 /\ journal_size v <= zlen v /\ journal_size v mod 4096 = 0.
Proof. unfold journal_size, MaxLogFileSize. pose proof (zlen_nonneg v). dlia. Qed.

Lemma probe_aligned size pos : probe size pos -> 0 <= pos /\ pos mod 512 = 0.
Proof.
  intros [[->|(k & Hk & ->)] _]; [done|]. pose proof (Z.pow_pos_nonneg 2 k ltac:(lia) Hk). split; [lia|]. rewrite Z.mul_comm. apply Z.mod_mul. lia.
Qed.

Section check.
Context {A : Type} `{Heap} `{AttrIOLaws A}.

Definition check_answer (v behind : list Z) (r : journal_state) : Prop :=
  let size := journal_size v in
  match r with
  | Empty => min_journal <= size /\ all_empty v size
  | Restart p => ~ all_empty v size /\ exists pos lsn, probe size pos /\ sound behind v pos p lsn /\ forall q l, sound behind v 0 q l -> l <= lsn
  | Corrupt => size < min_journal \/ gives_up behind v size \/ (~ all_empty v size /\ forall p l, ~ sound behind v 0 p l)
  end.

Lemma check_spec (na : A) behind : bytes (attr_value na) -> bytes behind -> 8 <= zlen behind ->
  exists r, ntfs_check_logfile na behind false = Ok (match r with Empty => true | _ => false end, r) /\ check_answer (attr_value na) behind r.
Proof.
  intros Hv Hb Hl. set (v := attr_value na) in *. unfold ntfs_check_logfile. fold v. rewrite land_page. fold (journal_size v). cbv zeta. unfold DefaultLogPageSize, MinLogRecordPages.
  rewrite Z.shiftr_div_pow2 by done. change (2 ^ 12) with 4096.
  destruct (journal_size_spec v) as (Hm & Hr & Hz & Hm2).
  destruct ((journal_size v <? 4096 * 2) || ((journal_size v - 4096 * 2) / 4096 <? 48)) eqn:E1.
  { exists Corrupt. split; [done|]. left. unfold min_journal. dlia. }
  destruct (heap_grants NTFS_BLOCK_SIZE) eqn:Hg; cbn [negb].
  2:{ exists Corrupt. split; [done|]. right. left. left. by eexists. }
  destruct (log_search_spec behind Hb Hl na Hv (journal_size v)) as [(f & -> & R)|[-> G]]; [dlia|done|done| |].
  2:{ exists Corrupt. cbn [mbind res_bind]. split; [done|]. right. by left. }
  cbn [mbind res_bind]. destruct R as [R1 R2 R3 R4]. fold v in R1, R2, R3, R4. destruct (logfile_is_empty f) eqn:Ee.
  { exists Empty. split; [done|]. split; [unfold min_journal; dlia|by apply R1]. }
  assert (~ all_empty v (journal_size v)) as Hne by (intros He; by apply R1 in He).
  destruct (rstr1 f) as [[p1 l1]|].
  2:{ exists Corrupt. split; [done|]. right. right. split; [done|]. by apply R2. }
  destruct (rstr2 f) as [[p2 l2]|].
  - destruct (R4 _ _ _ _ eq_refl eq_refl) as (S0 & pos & Hp & S2). exists (Restart (if l1 <? l2 then p2 else p1)). split; [done|]. split; [done|].
    destruct (Z.ltb_spec l1 l2).
    + exists pos, l2. split; [done|]. split; [done|]. intros q l Hq. destruct (sound_fun _ _ _ _ _ _ _ S0 Hq) as [_ <-]. lia.
    + exists 0, l1. split; [split; [by left|dlia]|]. split; [done|]. intros q l Hq. destruct (sound_fun _ _ _ _ _ _ _ S0 Hq) as [_ <-]. lia.
  - destruct (R3 _ _ eq_refl eq_refl) as (pos & Hp & S & Hor). exists (Restart p1). split; [done|]. split; [done|]. exists pos, l1. split; [done|]. split; [done|].
    intros q l Hq. destruct Hor as [->|Hno]; [|by destruct (Hno q l)]. destruct (sound_fun _ _ _ _ _ _ _ S Hq) as [_ <-]. lia.
Qed.

(** C32: The check of the journal at mount always ends and answers, whatever the journal holds, and reads at most
    eight bytes behind the block it has allocated.  A journal is taken for empty exactly when the volume is marked
    so or every place where a restart page can be is empty.  The page it returns is in the journal, passes all
    checks, and is at least as recent as a sound page at the start; a journal is called corrupt only when it is
    too small, memory is missing, a page leaves it, or no sound page is at its start. *)
Theorem check_logfile_correct (na : A) behind log_file_empty : bytes (attr_value na) -> bytes behind -> 8 <= zlen behind ->
  exists r, ntfs_check_logfile na behind log_file_empty = Ok (match r with Empty => true | _ => false end, r) /\
    if log_file_empty then r = Empty else check_answer (attr_value na) behind r.
Proof. intros Hv Hb Hl. destruct log_file_empty; [by exists Empty|]. by apply check_spec. Qed.

(** ** Emptying *)

Lemma empty_loop_spec fuel : forall (na : A) pos, 0 <= pos <= zlen (attr_value na) -> zlen (attr_value na) - pos < Z.of_nat fuel -> take (Z.to_nat pos) (attr_value na) = replicate (Z.to_nat pos) 255 ->
  exists na', empty_loop fuel na pos = Ok na' /\ attr_value na' = replicate (length (attr_value na)) 255.
Proof.
  induction fuel as [|fuel IH]; intros na pos Hp Hf Ht; [lia|]. cbn [empty_loop]. cbv zeta. destruct (Z.leb_spec (zlen (attr_value na) - pos) 0) as [Hle|Hgt].
  - exists na. split; [done|]. rewrite take_ge in Ht by (unfold zlen in *; lia). rewrite Ht. f_equal. by rewrite length_replicate.
  - set (n := Z.min (zlen (attr_value na) - pos) NTFS_BUF_SIZE). unfold NTFS_BUF_SIZE in n. assert (0 < n) as Hn by lia. assert (zlen (replicate (Z.to_nat n) 255) = n) as Hzr by (unfold zlen; rewrite length_replicate; lia).
    destruct (pwrite_inside na pos (replicate (Z.to_nat n) 255)) as (na' & E & Ew); [lia|lia|]. change 0xff with 255. rewrite E. cbn [mbind res_bind]. rewrite Hzr, (proj2 (Z.leb_gt _ _)) by lia.
    unfold awrite in Ew. rewrite Hzr in Ew. destruct ((pos <? 0) || (zlen (attr_value na) <? pos + n)); [done|]. injection Ew as Ew.
    assert (length (attr_value na') = length (attr_value na)) as El by (rewrite <- Ew, !length_app, length_take, length_drop, length_replicate; unfold zlen in *; lia).
    destruct (IH na' (pos + n)) as (na2 & E2 & Ev); [unfold zlen in *; lia|unfold zlen in *; lia| |exists na2; split; [exact E2|by rewrite Ev, El]].
    rewrite <- Ew, Ht, (assoc_L (++)), <- replicate_add, take_app_length'; [f_equal; lia|rewrite length_replicate; lia].
Qed.

Lemma empty_block n : (4 <= n)%nat -> le_at 4 (replicate n 255) 0 = magic_empty.
Proof. intros Hn. replace n with (4 + (n - 4))%nat by lia. rewrite replicate_add. unfold le_at. by rewrite get_le_head. Qed.

(** Emptying succeeds on a journal that is not resident, fills it with 0xff and marks the volume; and when the
    mark is gone, at the next mount, the check finds the journal empty. *)
Theorem empty_logfile_roundtrip (na : A) behind : (forall n, heap_grants n = true) -> min_journal <= zlen (attr_value na) -> bytes behind -> 8 <= zlen behind ->
  exists na', ntfs_empty_logfile na true false = Ok (na', true) /\ attr_value na' = replicate (length (attr_value na)) 255 /\
    ntfs_check_logfile na' behind false = Ok (true, Empty).
Proof.
  intros Hg Hl Hb Hbl. unfold min_journal in Hl. destruct (empty_loop_spec (S (length (attr_value na))) na 0) as (na' & E & Ev); [unfold zlen in *; lia|unfold zlen; lia|done|].
  exists na'. unfold ntfs_empty_logfile. cbn [negb]. rewrite E. split; [done|]. split; [done|].
  assert (forall pos, 0 <= pos -> pos + 512 <= zlen (attr_value na') -> magic_at (attr_value na') pos = magic_empty) as Hmag.
  { intros pos Hp Hin. unfold magic_at, part. rewrite Ev in *. rewrite drop_replicate, take_replicate. apply empty_block. unfold zlen in Hin. rewrite length_replicate in Hin. lia. }
  assert (zlen (attr_value na') = zlen (attr_value na)) as Ez by (unfold zlen; by rewrite Ev, length_replicate).
  destruct (check_spec na' behind) as (r & -> & Ha); [rewrite Ev; by apply Forall_replicate|done|done|].
  assert (min_journal <= journal_size (attr_value na')) as Hsize by (unfold min_journal, journal_size, MaxLogFileSize; dlia).
  assert (all_empty (attr_value na') (journal_size (attr_value na'))) as He.
  { intros pos Hp. destruct (probe_aligned _ _ Hp) as [Hp0 Hpm]. destruct (journal_size_spec (attr_value na')) as (Hm & _ & Hle & _). apply Hmag; [done|]. destruct Hp as [_ Hlt]. revert Hpm Hm Hlt Hle. generalize (journal_size (attr_value na')). clear. intros z Hpm Hm Hlt Hle. dlia. }
  destruct r; cbn [check_answer] in Ha; [|done|by destruct Ha].
  destruct Ha as [?|[[(n & Hn)|(pos & Hp & Hm & _)]|[Hne _]]]; [lia|by rewrite Hg in Hn| |done].
  rewrite (He pos Hp) in Hm. by destruct Hm.
Qed.
End check.

(** ** Witnesses *)

Definition pad (n : Z) (b : list Z) : list Z := b ++ replicate (Z.to_nat (n - zlen b)) 0.

(** A restart page of 512 bytes with one client, in use. *)
Definition sample_header : list Z := [0x52; 0x53; 0x54; 0x52] ++ [30; 0; 2; 0] ++ replicate 8 0 ++ [0; 2; 0; 0] ++ [0; 2; 0; 0] ++ [40; 0] ++ [1; 0; 1; 0] ++ [5; 0; 0; 0].
Definition sample_area : list Z := [7; 0; 0; 0; 0; 0; 0; 0] ++ [1; 0; 255; 255; 0; 0; 0; 0] ++ [49; 0; 0; 0] ++ [208; 0; 48; 0] ++ [0; 32; 3; 0; 0; 0; 0; 0] ++ replicate 4 0 ++ [48; 0; 64; 0].
Definition sample_client : list Z := replicate 16 0 ++ [255; 255; 255; 255].
Definition sample_page : list Z := pad 510 (pad 88 (pad 40 sample_header ++ sample_area) ++ sample_client) ++ [5; 0].
Definition sample_journal : list Z := sample_page ++ replicate (Z.to_nat 204288) 255.

Example sample_journal_checked : exists p, @ntfs_check_logfile _ ample_heap mem_attr sample_journal (replicate 8 0) false = Ok (false, Restart p) /\ zlen p = 512.
Proof. eexists. split; vm_compute; reflexivity. Qed.

Lemma check_logfile_correct_witness : exists r, @ntfs_check_logfile _ ample_heap mem_attr sample_journal (replicate 8 0) false = Ok (match r with Empty => true | _ => false end, r) /\
  @check_answer ample_heap sample_journal (replicate 8 0) r.
Proof.
  apply (@check_logfile_correct (list Z) ample_heap mem_attr mem_attr_laws sample_journal (replicate 8 0) false).
  - compute_decide.
  - compute_decide.
  - compute_decide.
Defined.

Lemma empty_logfile_roundtrip_witness : exists na', @ntfs_empty_logfile _ mem_attr sample_journal true false = Ok (na', true) /\
  attr_value na' = replicate (length sample_journal) 255 /\ @ntfs_check_logfile _ ample_heap mem_attr na' (replicate 8 0) false = Ok (true, Empty).
Proof.
  apply (@empty_logfile_roundtrip (list Z) ample_heap mem_attr mem_attr_laws sample_journal (replicate 8 0)).
  - reflexivity.
  - compute_decide.
  - compute_decide.
  - compute_decide.
Defined.

(** ** What the checks miss *)

(** The restart area at the end of the block, its client array at its start. *)
Definition late_header : list Z := [0x52; 0x53; 0x54; 0x52] ++ [30; 0; 2; 0] ++ replicate 8 0 ++ [0; 2; 0; 0] ++ [0; 2; 0; 0] ++ [0xe0; 1] ++ [1; 0; 1; 0] ++ [5; 0; 0; 0].
Definition late_area : list Z := replicate 8 0 ++ [0; 0; 255; 255; 255; 255; 0; 0] ++ [67; 0; 0; 0] ++ [0; 0; 0; 0] ++ replicate 8 0.
Definition late_page : list Z := pad 480 late_header ++ late_area.

(** The fields behind [file_size] are read although only the client array, whose
    offset may be 0, is known to be in the block: for this block the bytes
    behind it are read. *)
Theorem restart_area_overread : zlen late_page = 512 /\ ntfs_check_restart_page_header late_page 0 = Ok true /\ ntfs_check_restart_area late_page = Undef /\
  ntfs_check_restart_area (late_page ++ replicate 8 0) = Ok true.
Proof. by vm_compute. Qed.

(** A restart area with 32768 clients, 5 MB: its length is computed in 16 bits,
    so that it fits into a page of 512 bytes. *)
Definition crowded_area : list Z := replicate 8 0 ++ [0; 128; 255; 255; 255; 255; 0; 0] ++ [67; 0; 0; 0] ++ [48; 0; 48; 0] ++ replicate 8 0 ++ replicate 4 0 ++ [48; 0; 64; 0].

Theorem restart_area_length_wraps :
  let page := pad 512 (pad 40 sample_header ++ crowded_area) in
  ntfs_check_restart_area page = Ok true /\ size_of page = 512 /\ ca_of page + clients_of page * sizeof_LOG_CLIENT_RECORD = 5242968.
Proof. by vm_compute. Qed.
