(* ===== verification/FsckBitmap.v ===== *)
(** The bitmaps ntfsck collected, applied to those on the volume
    (src/ntfsck.c): counting the blocks that differ, counting the clusters
    that would be freed, the barrier against freeing too many, and the
    application itself.

    The code gets the collected bitmap through a callback that returns the
    block of a byte position; here the callback is the class [BitmapSource],
    whose law FsckBitmapThm.v proves for the cluster bitmap and for the mft
    bitmap of Fsck.v. *)

From S2P Require Import Prelude AttrIO Bytes Bitmap Fsck.

(** [get_bmp_func]; the collected bitmap may change when a block of it is
    read. *)
Class BitmapSource (F : Type) := {
  get_bmp_func : F -> Z -> res (F * list Z);
  (** Bit [j] is set. *)
  marked_bit : F -> Z -> bool;
  source_ok : F -> Prop;
  (** The bytes there are blocks for. *)
  source_len : F -> Z
}.

Class BitmapSourceLaws (F : Type) `{BitmapSource F} := {
  get_bmp_block : forall f pos, source_ok f -> 0 <= pos < source_len f -> pos mod NTFS_BUF_SIZE = 0 ->
    exists f' bm, get_bmp_func f pos = Ok (f', bm) /\ source_ok f' /\ source_len f' = source_len f /\
      (forall z, 0 <= z -> marked_bit f' z = marked_bit f z) /\ zlen bm = NTFS_BUF_SIZE /\ bytes bm /\
      forall k, 0 <= k < 8 * NTFS_BUF_SIZE -> gbit bm k = marked_bit f (8 * pos + k)
}.

Definition FSCK_BMP_INITIAL : Z := 1.
Definition FSCK_BMP_FINAL : Z := 0.

(** The two bitmaps of a volume, and any other attribute. *)
Inductive bmp_attr := LCNBMP_NA | MFTBMP_NA | OTHER_NA.

#[global] Instance bmp_attr_eq_dec : EqDecision bmp_attr.
Proof. solve_decision. Defined.

(** [fsck_errors] and [fsck_fixes] *)
Record fsck_counts := mk_counts { fsck_errors : Z; fsck_fixes : Z }.

Definition fsck_err_found (c : fsck_counts) : fsck_counts := mk_counts (fsck_errors c + 1) (fsck_fixes c).
Definition fsck_err_fixed (c : fsck_counts) : fsck_counts := mk_counts (fsck_errors c) (fsck_fixes c + 1).

(** What the scan of the mft records counted. *)
Record scan_counts := mk_scan {
  total_valid_mft : Z;
  total_inuse_mft : Z;
  fsck_scan_eio : Z
}.

(** The size of the next block: the last one may be short. *)
Definition next_count (count remain : Z) : Z :=
  if negb (remain =? 0) && (remain <? NTFS_BUF_SIZE) then remain else count.

Definition first_count (total : Z) : Z := if total <? NTFS_BUF_SIZE then total else NTFS_BUF_SIZE.

(** More blocks than an attribute of [total] bytes has. *)
Definition block_fuel (total : Z) : nat := S (Z.to_nat (total / NTFS_BUF_SIZE + 1)).

(** [__builtin_popcount] of a byte. *)
Definition popcount8 (b : Z) : Z :=
  foldr (fun k acc => Z.b2z (Z.testbit b k) + acc) 0 [0; 1; 2; 3; 4; 5; 6; 7].

(** [for (j = 0; j < count; j++)] *)
Fixpoint count_free_bytes (n : nat) (disk_bm fsck_bm : list Z) (j to_free : Z) : res Z :=
  match n with
  | O => Ok to_free
  | S n =>
      d ← aget disk_bm j;
      f ← aget fsck_bm j;
      let b := u8 (Z.land d (Z.lnot f)) in
      count_free_bytes n disk_bm fsck_bm (j + 1) (if negb (b =? 0) then to_free + popcount8 b else to_free)
  end.

(** [*dbml |= *fbml] for the words of a block, from word [i] on. *)
Fixpoint or_words (n : nat) (i : Z) (disk_bm fsck_bm : list Z) : res (list Z) :=
  match n with
  | O => Ok disk_bm
  | S n =>
      d ← get_le 8 disk_bm (8 * i);
      f ← get_le 8 fsck_bm (8 * i);
      disk_bm ← (if negb (d =? f) then put_le 8 disk_bm (8 * i) (Z.lor d f) else Ok disk_bm);
      or_words n (i + 1) disk_bm fsck_bm
  end.

Definition or_block (count : Z) (disk_bm fsck_bm : list Z) : res (list Z) :=
  let word_count := count / 8 in
  let tail_bytes := count mod 8 in
  disk_bm ← or_words (Z.to_nat word_count) 0 disk_bm fsck_bm;
  or_bytes (Z.to_nat tail_bytes) disk_bm (8 * word_count) fsck_bm (8 * word_count).

(** [memcmp(fsck_bm, disk_bm, count) == 0] *)
Definition same_block (fsck_bm disk_bm : list Z) (count : Z) : res bool :=
  a ← aslice fsck_bm 0 count;
  b ← aslice disk_bm 0 count;
  Ok (bool_decide (a = b)).

(** A full read into a cleared buffer; [None] for a failed or a short one. *)
Definition read_block {A} `{AttrIO A} (na : A) (pos count : Z) : res (option (list Z)) :=
  match ntfs_attr_pread na pos count with
  | Ok bs => if zlen bs =? count then bm ← awrite zero_block 0 bs; Ok (Some bm) else Ok None
  | Err _ => Ok None
  | Undef => Undef
  end.

(** [-1] for a failed write. *)
Definition write_block {A} `{AttrIO A} (na : A) (pos count : Z) (bm : list Z) : res (A * Z) :=
  bs ← aslice bm 0 count;
  match ntfs_attr_pwrite na pos bs with
  | Ok r => Ok r
  | Err _ => Ok (na, -1)
  | Undef => Undef
  end.

Section apply.
Context {HP : Heap} {A : Type} {IO : AttrIO A} {F : Type} {SRC : BitmapSource F}.

Fixpoint count_to_free_loop (fuel : nat) (na : A) (f : F) (pos count remain to_free : Z) : res (F * Z) :=
  match fuel with
  | O => Undef
  | S fuel =>
      m ← read_block na pos count;
      match m with
      | None => Ok (f, -1)
      | Some disk_bm =>
          '(f, fsck_bm) ← get_bmp_func f pos;
          to_free ← count_free_bytes (Z.to_nat count) disk_bm fsck_bm 0 to_free;
          let pos := pos + count in
          let remain := remain - count in
          let count := next_count count remain in
          if remain =? 0 then Ok (f, to_free) else count_to_free_loop fuel na f pos count remain to_free
      end
  end.

Definition ntfsck_bitmap_count_to_free (na : A) (f : F) : res (F * Z) :=
  if negb (heap_grants NTFS_BUF_SIZE) then Ok (f, -1) else
  let total := zlen (attr_value na) in
  count_to_free_loop (block_fuel total) na f 0 (first_count total) total 0.

Definition ntfsck_bitmap_consensus_block (nr_clusters : Z) (sc : scan_counts) (to_free : Z) : bool :=
  if (nr_clusters <=? 0) || (s64 (to_free * 20) <? nr_clusters) then false else
  let fails := 0 in
  let fails := if (0 <? total_inuse_mft sc) && (total_inuse_mft sc <? s64 (fsck_scan_eio sc * 1000))
               then fails + 1 else fails in
  let fails := if (0 <? total_inuse_mft sc) && (s64 (total_valid_mft sc * 100) <? s64 (total_inuse_mft sc * 90))
               then fails + 1 else fails in
  let fails := if nr_clusters <=? s64 (to_free * 10) then fails + 1 else fails in
  2 <=? fails.

Fixpoint count_mismatch_loop (fuel : nat) (na : A) (f : F) (pos count remain mismatches : Z) : res (F * Z * Z) :=
  if remain =? 0 then Ok (f, mismatches, 0) else
  match fuel with
  | O => Undef
  | S fuel =>
      m ← read_block na pos count;
      match m with
      | None => Ok (f, mismatches, -1)
      | Some disk_bm =>
          '(f, fsck_bm) ← get_bmp_func f pos;
          same ← same_block fsck_bm disk_bm count;
          let mismatches := if same : bool then mismatches else u64 (mismatches + 1) in
          let pos := pos + count in
          let remain := remain - count in
          count_mismatch_loop fuel na f pos (next_count count remain) remain mismatches
      end
  end.

(** The collected bitmap, the count and the status. *)
Definition ntfsck_count_bitmap_mismatches (which : bmp_attr) (na : A) (f : F) (mismatches : Z) : res (F * Z * Z) :=
  if bool_decide (which = OTHER_NA) then Ok (f, mismatches, -1) else
  if negb (heap_grants NTFS_BUF_SIZE) then Ok (f, mismatches, -1) else
  let total := zlen (attr_value na) in
  count_mismatch_loop (block_fuel total) na f 0 (first_count total) total mismatches.

(** The bitmap on the volume, the collected one, the counts of errors and the
    status. *)
Definition apply_result : Type := (A * F * fsck_counts * Z)%type.

(** A block that differs: the attribute, the counts, and whether the write
    failed.  [approved]: the repair is wanted.  With another [wtype] the code
    compares a length that it never set. *)
Definition repair_block (wtype : Z) (block_mass_free approved : bool) (na : A) (c : fsck_counts)
    (pos count : Z) (disk_bm fsck_bm : list Z) : res (A * fsck_counts * bool) :=
  disk_bm ← or_block count disk_bm fsck_bm;
  let c := if wtype =? FSCK_BMP_FINAL then fsck_err_found c else c in
  if approved then
    '(na, wcnt, c) ←
      (if wtype =? FSCK_BMP_INITIAL then '(na, w) ← write_block na pos count disk_bm; Ok (na, w, c)
       else if block_mass_free then '(na, w) ← write_block na pos count disk_bm; Ok (na, w, c)
       else if wtype =? FSCK_BMP_FINAL
            then '(na, w) ← write_block na pos count fsck_bm; Ok (na, w, fsck_err_fixed c)
       else Undef);
    Ok (na, c, negb (wcnt =? count))
  else Ok (na, c, false).

(** [fix_ pos] stands for the answer to [ntfs_fix_problem] for the block at
    [pos]. *)
Fixpoint apply_loop (fuel : nat) (fix_ : Z -> bool) (wtype : Z) (decided : option bool) (block_mass_free : bool)
    (na : A) (f : F) (c : fsck_counts) (pos count remain : Z) : res apply_result :=
  match fuel with
  | O => Undef
  | S fuel =>
      m ← read_block na pos count;
      match m with
      | None => Ok (na, f, c, -1)
      | Some disk_bm =>
          '(f, fsck_bm) ← get_bmp_func f pos;
          same ← same_block fsck_bm disk_bm count;
          '(na, c, failed) ←
            (if same : bool then Ok (na, c, false)
             else repair_block wtype block_mass_free (default (fix_ pos) decided) na c pos count disk_bm fsck_bm);
          if failed : bool then Ok (na, f, c, -1) else
          let pos := pos + count in
          let remain := remain - count in
          let count := next_count count remain in
          if remain =? 0 then Ok (na, f, c, 0)
          else apply_loop fuel fix_ wtype decided block_mass_free na f c pos count remain
      end
  end.

(** Whether the barrier against freeing too many clusters is up. *)
Definition mass_free_blocked (which : bmp_attr) (nr_clusters : Z) (sc : scan_counts) (wtype : Z) (na : A) (f : F)
    : res (F * bool) :=
  if bool_decide (which = LCNBMP_NA) && (wtype =? FSCK_BMP_FINAL) then
    '(f, to_free) ← ntfsck_bitmap_count_to_free na f;
    Ok (f, (0 <? to_free) && ntfsck_bitmap_consensus_block nr_clusters sc to_free)
  else Ok (f, false).

(** [decided] is [Some repair_approved] when [repair_decided]. *)
Definition ntfsck_apply_bitmap (fix_ : Z -> bool) (which : bmp_attr) (nr_clusters : Z) (sc : scan_counts)
    (wtype : Z) (decided : option bool) (na : A) (f : F) (c : fsck_counts) : res apply_result :=
  if bool_decide (which = OTHER_NA) then Ok (na, f, c, -1) else
  '(f, block_mass_free) ← mass_free_blocked which nr_clusters sc wtype na f;
  if negb (heap_grants NTFS_BUF_SIZE) then Ok (na, f, c, -1) else
  let total := zlen (attr_value na) in
  let c := if block_mass_free : bool then fsck_err_found c else c in
  apply_loop (block_fuel total) fix_ wtype decided block_mass_free na f c 0 (first_count total) total.

End apply.
