(* ===== verification/FsckBitmapThm.v ===== *)
(** Applying the collected bitmaps to the volume, proved against
    [BitmapSource]: what each bit of the bitmap on the volume is afterwards,
    when clusters are freed, and the counts of errors and repairs.  The law of
    [BitmapSource] is proved for the bitmaps of Fsck.v. *)

From S2P Require Import Prelude AttrIO Bytes Bitmap Fsck FsckThm FsckRead FsckBitmap.

(** ** Bits and words *)

Lemma testbit_byte b x k : 0 <= b < 256 -> 0 <= k ->
  Z.testbit (b + 256 * x) k = if k <? 8 then Z.testbit b k else Z.testbit x (k - 8).
Proof.
  intros Hb Hk. destruct (Z.ltb_spec k 8).
  - rewrite <- (Z.mod_pow2_bits_low _ 8) by lia. f_equal. change (2 ^ 8) with 256. dlia.
  - replace k with ((k - 8) + 8) at 1 by lia. rewrite <- Z.div_pow2_bits by lia. f_equal. change (2 ^ 8) with 256. dlia.
Qed.

Lemma gbit_cons b bs j : 0 <= j -> gbit (b :: bs) j = if j <? 8 then Z.testbit b j else gbit bs (j - 8).
Proof.
  intros Hj. unfold gbit. destruct (Z.ltb_spec j 8).
  - rewrite Z.div_small, Z.mod_small by lia. done.
  - replace (Z.to_nat (j / 8)) with (S (Z.to_nat ((j - 8) / 8))) by dlia. cbn [lookup list_lookup].
    by replace ((j - 8) mod 8) with (j mod 8) by dlia.
Qed.

Lemma testbit_le bs : bytes bs -> forall j, 0 <= j -> Z.testbit (le bs) j = gbit bs j.
Proof.
  induction 1 as [|b bs Hb _ IH]; intros j Hj; [apply Z.testbit_0_l|]. cbn [le]. rewrite testbit_byte, gbit_cons by lia.
  destruct (Z.ltb_spec j 8); [done|]. apply IH. lia.
Qed.

Lemma gbit_le_bytes n : forall v j, 0 <= j < 8 * Z.of_nat n -> gbit (le_bytes n v) j = Z.testbit v j.
Proof.
  induction n as [|n IH]; intros v j Hj; [lia|]. cbn [le_bytes]. rewrite gbit_cons by lia. change 256 with (2 ^ 8). destruct (Z.ltb_spec j 8).
  - apply Z.mod_pow2_bits_low. lia.
  - rewrite IH by lia. rewrite Z.div_pow2_bits by lia. f_equal. lia.
Qed.

Lemma gbit_outside bm j : 8 * zlen bm <= j -> gbit bm j = false.
Proof. intros Hj. unfold gbit. by rewrite lookup_ge_None_2 by (unfold zlen in Hj; dlia). Qed.

(** Arrays of bytes with the same bits are equal. *)
Lemma bits_inj a b : bytes a -> bytes b -> zlen a = zlen b ->
  (forall j, 0 <= j < 8 * zlen a -> gbit a j = gbit b j) -> a = b.
Proof.
  intros Ha Hb Hl G. apply le_inj; [done..|unfold zlen in Hl; lia|]. apply Z.bits_inj'. intros j Hj. rewrite !testbit_le by done.
  destruct (Z.lt_ge_cases j (8 * zlen a)); [by apply G|]. by rewrite !gbit_outside by lia.
Qed.

Lemma gbit_slice bm p n bs j : aslice bm p n = Ok bs -> 0 <= j < 8 * n -> gbit bs j = gbit bm (8 * p + j).
Proof.
  unfold aslice. intros H Hj. destruct (Z.ltb_spec p 0), (Z.ltb_spec n 0), (zlen bm <? p + n); try done. injection H as <-.
  rewrite gbit_take by lia. unfold gbit. rewrite lookup_drop.
  replace (Z.to_nat p + Z.to_nat (j / 8))%nat with (Z.to_nat ((8 * p + j) / 8)) by dlia.
  by replace ((8 * p + j) mod 8) with (j mod 8) by dlia.
Qed.

Lemma aslice_bytes bm p n bs : aslice bm p n = Ok bs -> bytes bm -> bytes bs /\ zlen bs = n.
Proof.
  unfold aslice. intros H Hb. destruct (Z.ltb_spec p 0), (Z.ltb_spec n 0), (Z.ltb_spec (zlen bm) (p + n)); try done. injection H as <-.
  split; [apply Forall_take, Forall_drop, Hb|]. unfold zlen in *. rewrite length_take, length_drop. lia.
Qed.

Lemma aslice_total {A} (bm : list A) p n : 0 <= p -> 0 <= n -> p + n <= zlen bm -> exists bs, aslice bm p n = Ok bs.
Proof. intros. unfold aslice. zdec. by eexists. Qed.

Lemma bytes_awrite bm p xs bm' : awrite bm p xs = Ok bm' -> bytes bm -> bytes xs -> bytes bm'.
Proof.
  unfold awrite. intros H Hb Hx. destruct ((p <? 0) || _); [done|]. injection H as <-.
  apply Forall_app_2; [by apply Forall_take|]. apply Forall_app_2; [done|by apply Forall_drop].
Qed.

(** The OR of the words [i] to [i + n]. *)
Lemma or_words_spec src : bytes src -> forall n i dst, bytes dst -> 0 <= i ->
  8 * (i + Z.of_nat n) <= zlen dst -> 8 * (i + Z.of_nat n) <= zlen src ->
  exists dst', or_words n i dst src = Ok dst' /\ zlen dst' = zlen dst /\
    forall j, 0 <= j -> gbit dst' j = gbit dst j || ((64 * i <=? j) && (j <? 64 * (i + Z.of_nat n)) && gbit src j).
Proof.
  intros Hs. induction n as [|n IH]; intros i dst Hd Hi Hdl Hsl; cbn [or_words].
  { exists dst. split_and!; [done..|]. intros j Hj. zcase; rewrite ?orb_false_r; done || lia. }
  destruct (aslice_total dst (8 * i) 8) as [d Ed]; [lia..|]. destruct (aslice_total src (8 * i) 8) as [f Ef]; [lia..|].
  destruct (aslice_bytes _ _ _ _ Ed Hd) as [Hdb Hdz]. destruct (aslice_bytes _ _ _ _ Ef Hs) as [Hfb Hfz].
  unfold get_le at 1 2. rewrite Ed, Ef. cbn [mbind res_bind].
  assert (exists dst1, (if negb (le d =? le f) then put_le 8 dst (8 * i) (Z.lor (le d) (le f)) else Ok dst) = Ok dst1 /\
    bytes dst1 /\ zlen dst1 = zlen dst /\
    forall j, 0 <= j -> gbit dst1 j = gbit dst j || ((64 * i <=? j) && (j <? 64 * i + 64) && gbit src j)) as (dst1 & -> & Hb1 & L1 & G1).
  { assert (forall j, 64 * i <= j < 64 * i + 64 -> gbit dst j = Z.testbit (le d) (j - 64 * i) /\ gbit src j = Z.testbit (le f) (j - 64 * i)) as G.
    { intros j Hj. rewrite !testbit_le, (gbit_slice _ _ _ _ _ Ed), (gbit_slice _ _ _ _ _ Ef) by (done || lia).
      by replace (8 * (8 * i) + (j - 64 * i)) with j by lia. }
    destruct (Z.eqb_spec (le d) (le f)) as [E|E]; cbn [negb].
    - exists dst. split_and!; [done..|]. intros j Hj. zcase; cbn [andb]; rewrite ?orb_false_r; try done.
      destruct (G j) as [-> ->]; [lia|]. rewrite E. by rewrite orb_diag.
    - unfold put_le. destruct (awrite dst (8 * i) (le_bytes 8 (Z.lor (le d) (le f)))) as [dst1| |] eqn:W;
        [|unfold awrite in W; rewrite le_bytes_zlen in W; revert W; zdec; done..].
      exists dst1. split; [done|]. split; [by eapply bytes_awrite; [done..|apply le_bytes_bytes]|].
      split; [by apply (awrite_lookup _ _ _ _ 0) in W as [? _]|].
      intros j Hj. rewrite (gbit_awrite _ _ _ _ _ W), le_bytes_zlen by lia.
      zcase; cbn [andb]; rewrite ?orb_false_r; try done; try lia.
      destruct (G j) as [-> ->]; [lia|]. rewrite gbit_le_bytes, Z.lor_spec by lia.
      by replace (j - 8 * (8 * i)) with (j - 64 * i) by lia. }
  cbn [mbind res_bind]. destruct (IH (i + 1) dst1) as (dst' & -> & L & G); [done|lia..|].
  exists dst'. split; [done|]. split; [lia|]. intros j Hj. rewrite G, G1 by done.
  destruct (gbit dst j), (gbit src j); rewrite ?andb_false_r, ?andb_true_r; try done. cbn [orb]. zcase; cbn [andb orb]; done || lia.
Qed.

Lemma or_block_spec count dst src : bytes dst -> bytes src -> zlen dst = NTFS_BUF_SIZE -> zlen src = NTFS_BUF_SIZE -> 0 <= count <= NTFS_BUF_SIZE ->
  exists dst', or_block count dst src = Ok dst' /\ zlen dst' = NTFS_BUF_SIZE /\
    forall j, 0 <= j < 8 * count -> gbit dst' j = gbit dst j || gbit src j.
Proof.
  intros Hd Hs Ld Ls Hc. unfold or_block. destruct (or_words_spec src Hs (Z.to_nat (count / 8)) 0 dst Hd) as (d1 & -> & L1 & G1); [dlia..|].
  cbn [mbind res_bind]. destruct (or_bytes_spec src (Z.to_nat (count mod 8)) d1 (8 * (count / 8)) (8 * (count / 8))) as (d2 & -> & L2 & G2); [dlia..|].
  exists d2. split; [done|]. split; [congruence|]. intros j Hj. rewrite G2, G1 by lia.
  replace (j - 8 * (8 * (count / 8)) + 8 * (8 * (count / 8))) with j by lia.
  destruct (gbit dst j), (gbit src j); rewrite ?andb_false_r, ?andb_true_r; try done. cbn [orb]. zcase; cbn [andb orb]; done || dlia.
Qed.

Lemma same_block_spec a b count : bytes a -> bytes b -> zlen a = NTFS_BUF_SIZE -> zlen b = NTFS_BUF_SIZE -> 0 <= count <= NTFS_BUF_SIZE ->
  exists r, same_block a b count = Ok r /\ (r = true <-> forall j, 0 <= j < 8 * count -> gbit a j = gbit b j).
Proof.
  intros Ha Hb La Lb Hc. unfold same_block.
  destruct (aslice_total a 0 count) as [x Ex]; [lia..|]. destruct (aslice_total b 0 count) as [y Ey]; [lia..|].
  rewrite Ex, Ey. cbn [mbind res_bind]. eexists. split; [done|]. rewrite bool_decide_eq_true.
  destruct (aslice_bytes _ _ _ _ Ex Ha) as [Bx Zx]. destruct (aslice_bytes _ _ _ _ Ey Hb) as [By Zy]. split.
  - intros -> j Hj. pose proof (gbit_slice _ _ _ _ _ Ex Hj) as G1. pose proof (gbit_slice _ _ _ _ _ Ey Hj) as G2.
    rewrite G1 in G2. exact G2.
  - intros G. apply bits_inj; [done..|congruence|]. intros j Hj. rewrite (gbit_slice _ _ _ _ _ Ex), (gbit_slice _ _ _ _ _ Ey) by lia.
    apply G. lia.
Qed.

(** ** Walking over the blocks of a bitmap *)

(** Block [i] of [value], a bitmap of [total] bytes, differs from [marks]. *)
Definition block_differs (value : list Z) (marks : Z -> bool) (total i : Z) : bool :=
  negb (forallb (fun j => eqb (gbit value j) (marks j))
    (seqZ (8 * (NTFS_BUF_SIZE * i)) (8 * Z.min NTFS_BUF_SIZE (total - NTFS_BUF_SIZE * i)))).

Definition nr_blocks (total : Z) : Z := (total + (NTFS_BUF_SIZE - 1)) / NTFS_BUF_SIZE.

Lemma block_differs_false value marks total i : block_differs value marks total i = false <->
  forall j, 0 <= j < 8 * Z.min NTFS_BUF_SIZE (total - NTFS_BUF_SIZE * i) ->
    gbit value (8 * (NTFS_BUF_SIZE * i) + j) = marks (8 * (NTFS_BUF_SIZE * i) + j).
Proof.
  unfold block_differs. rewrite negb_false_iff, forallb_forall. split.
  - intros H j Hj. apply eqb_prop, H. apply list_elem_of_In, elem_of_seqZ. lia.
  - intros H x Hx%list_elem_of_In%elem_of_seqZ. apply eqb_true_iff.
    replace x with (8 * (NTFS_BUF_SIZE * i) + (x - 8 * (NTFS_BUF_SIZE * i))) by lia. apply H. lia.
Qed.

(** The loops are at block [i]. *)
Record at_block (total i pos count remain : Z) : Prop := {
  ab_pos : pos = NTFS_BUF_SIZE * i;
  ab_i : 0 <= i;
  ab_remain : remain = total - pos;
  ab_count : count = Z.min NTFS_BUF_SIZE remain;
  ab_left : 0 < remain \/ total = 0 /\ remain = 0
}.

Lemma at_block_first total : 0 <= total -> at_block total 0 0 (first_count total) total.
Proof. intros. unfold first_count. split; try lia. zcase; lia. Qed.

Lemma at_block_next total i pos count remain : at_block total i pos count remain -> remain - count <> 0 ->
  at_block total (i + 1) (pos + count) (next_count count (remain - count)) (remain - count) /\ i + 1 < nr_blocks total.
Proof.
  intros [-> Hi -> -> Hl] Hr. unfold next_count, nr_blocks, NTFS_BUF_SIZE in *. split; [|dlia].
  split; unfold NTFS_BUF_SIZE in *; zcase; cbn [negb andb]; lia.
Qed.

(** At the last block. *)
Lemma at_block_last total i pos count remain : at_block total i pos count remain -> remain - count = 0 ->
  0 < total -> nr_blocks total = i + 1.
Proof. intros [-> Hi -> -> Hl] Hr Ht. unfold nr_blocks, NTFS_BUF_SIZE in *. dlia. Qed.

Lemma block_fuel_enough total : 0 <= total -> nr_blocks total < Z.of_nat (block_fuel total).
Proof. intros. unfold block_fuel, nr_blocks, NTFS_BUF_SIZE. dlia. Qed.

Lemma count_true_zero g n : forall pos j, count_true g pos n = 0 -> pos <= j < pos + Z.of_nat n -> g j = false.
Proof.
  induction n as [|n IH]; intros pos j H Hj; [lia|]. cbn [count_true] in H. pose proof (count_true_range g n (pos + 1)) as R.
  destruct (g pos) eqn:E; cbn [Z.b2z] in H; [lia|]. destruct (Z.eq_dec j pos) as [->|]; [done|]. apply (IH (pos + 1)); lia.
Qed.

Section blocks.
Context {A : Type} {IO : AttrIO A} {LAWS : AttrIOLaws A} {F : Type} {SRC : BitmapSource F} {SLAWS : BitmapSourceLaws F}.
Implicit Types (na : A) (f : F).

Lemma read_block_spec na pos count :
  0 <= pos -> 0 <= count <= NTFS_BUF_SIZE -> pos + count <= zlen (attr_value na) -> bytes (drop (Z.to_nat pos) (attr_value na)) ->
  exists bm, read_block na pos count = Ok (Some bm) /\ zlen bm = NTFS_BUF_SIZE /\ bytes bm /\
    forall j, 0 <= j < 8 * count -> gbit bm j = gbit (attr_value na) (8 * pos + j).
Proof.
  intros Hp Hc Hl Hb. unfold read_block. rewrite pread_value by lia.
  set (bs := take (Z.to_nat count) (drop (Z.to_nat pos) (attr_value na))).
  assert (zlen bs = count) as El by (unfold bs, zlen in *; rewrite length_take, length_drop; lia).
  assert (aslice (attr_value na) pos count = Ok bs) as Es by (unfold aslice; by zdec).
  rewrite El, Z.eqb_refl.
  assert (zlen zero_block = NTFS_BUF_SIZE) as Ez by (unfold zlen, zero_block; by rewrite length_replicate).
  destruct (awrite zero_block 0 bs) as [bm| |] eqn:W; [|unfold awrite in W; rewrite Ez, El in W; revert W; zdec; done..].
  exists bm. split; [done|]. split; [apply (awrite_lookup _ _ _ _ 0) in W as [-> _]; exact Ez|]. split.
  - eapply bytes_awrite; [exact W| |by apply Forall_take]. apply Forall_replicate. lia.
  - intros j Hj. rewrite (gbit_awrite _ _ _ _ _ W), El by lia. zdec. rewrite Z.sub_0_r. by apply (gbit_slice _ _ _ _ _ Es).
Qed.

(** What one round of a loop reads. *)
Record block_read (na : A) (f : F) (total i pos count : Z) (bm : list Z) (f' : F) (fbm : list Z) : Prop := {
  br_read : read_block na pos count = Ok (Some bm);
  br_get : get_bmp_func f pos = Ok (f', fbm);
  br_ok : source_ok f';
  br_len : source_len f' = source_len f;
  br_marks : forall z, 0 <= z -> marked_bit f' z = marked_bit f z;
  br_zlen : zlen bm = NTFS_BUF_SIZE;
  br_fzlen : zlen fbm = NTFS_BUF_SIZE;
  br_bytes : bytes bm;
  br_fbytes : bytes fbm;
  br_bits : forall j, 0 <= j < 8 * count -> gbit bm j = gbit (attr_value na) (8 * pos + j);
  br_fbits : forall j, 0 <= j < 8 * count -> gbit fbm j = marked_bit f (8 * pos + j);
  br_same : same_block fbm bm count = Ok (negb (block_differs (attr_value na) (marked_bit f) total i))
}.

Lemma block_round na f total i pos count remain :
  at_block total i pos count remain -> zlen (attr_value na) = total -> bytes (drop (Z.to_nat pos) (attr_value na)) ->
  source_ok f -> total <= source_len f -> 0 < source_len f ->
  exists bm f' fbm, block_read na f total i pos count bm f' fbm.
Proof.
  intros AB Hl Hb Hf Hs Hs0. pose proof AB as [-> Hi -> Hc Hr].
  destruct (read_block_spec na (NTFS_BUF_SIZE * i) count) as (bm & E1 & L1 & B1 & G1); [unfold NTFS_BUF_SIZE in *; lia..|done|].
  destruct (get_bmp_block f (NTFS_BUF_SIZE * i)) as (f' & fbm & E2 & Hf' & Hl' & Hm & L2 & B2 & G2);
    [done|unfold NTFS_BUF_SIZE in *; lia|unfold NTFS_BUF_SIZE; dlia|].
  assert (forall j, 0 <= j < 8 * count -> gbit fbm j = marked_bit f (8 * (NTFS_BUF_SIZE * i) + j)) as G2'
    by (intros j Hj; apply G2; lia).
  destruct (same_block_spec fbm bm count) as (r & Er & Hreq); [done..|unfold NTFS_BUF_SIZE in *; lia|].
  exists bm, f', fbm. split; try done. rewrite Er. f_equal.
  destruct (block_differs (attr_value na) (marked_bit f) total i) eqn:D; cbn [negb].
  - apply not_true_iff_false. intros E.
    pose proof (proj1 Hreq E) as G. assert (block_differs (attr_value na) (marked_bit f) total i = false); [|congruence].
    apply block_differs_false. intros j Hj. rewrite <- G1, <- G2' by lia. symmetry. apply G. lia.
  - apply Hreq. intros j Hj. rewrite block_differs_false in D. rewrite G1, G2' by done. symmetry. apply D. lia.
Qed.

(** ** Counting *)

(** A bit that is set on the volume and not marked. *)
Definition freed (value : list Z) (marks : Z -> bool) (j : Z) : bool := gbit value j && negb (marks j).

Lemma popcount_freed (d fbm : list Z) j x y : aget d j = Ok x -> aget fbm j = Ok y -> 0 <= j ->
  popcount8 (u8 (Z.land x (Z.lnot y))) = count_true (freed d (gbit fbm)) (8 * j) 8.
Proof.
  intros [_ Ex]%aget_ok [_ Ey]%aget_ok Hj. unfold popcount8. cbn [foldr count_true].
  assert (forall k, 0 <= k < 8 -> Z.testbit (u8 (Z.land x (Z.lnot y))) k = freed d (gbit fbm) (8 * j + k)) as G.
  { intros k Hk. rewrite testbit_u8, Z.land_spec, Z.lnot_spec by lia. unfold freed.
    replace (Z.to_nat j) with (Z.to_nat ((8 * j + k) / 8)) in Ex, Ey by dlia.
    rewrite (gbit_lookup _ _ _ Ex), (gbit_lookup _ _ _ Ey). by replace ((8 * j + k) mod 8) with k by dlia. }
  rewrite !G by lia. rewrite <- !Z.add_assoc. cbn. by rewrite Z.add_0_r.
Qed.

Lemma count_free_bytes_spec (d fbm : list Z) n : forall j acc, 0 <= j -> j + Z.of_nat n <= zlen d -> j + Z.of_nat n <= zlen fbm ->
  count_free_bytes n d fbm j acc = Ok (acc + count_true (freed d (gbit fbm)) (8 * j) (8 * n)).
Proof.
  induction n as [|n IH]; intros j acc Hj Hd Hf; cbn [count_free_bytes]; [cbn; f_equal; lia|].
  destruct (aget_total d j) as [x Ex]; [lia|]. destruct (aget_total fbm j) as [y Ey]; [lia|].
  rewrite Ex, Ey. cbn [mbind res_bind]. rewrite IH by lia. f_equal.
  replace (8 * S n)%nat with (8 + 8 * n)%nat by lia. rewrite count_true_app, <- (popcount_freed d fbm j x y) by done.
  replace (8 * j + Z.of_nat 8) with (8 * (j + 1)) by lia.
  destruct (Z.eqb_spec (u8 (Z.land x (Z.lnot y))) 0) as [->|]; cbn [negb]; [|lia]. change (popcount8 0) with 0. lia.
Qed.

Lemma count_to_free_spec na total fuel : forall f i pos count remain acc,
  at_block total i pos count remain -> zlen (attr_value na) = total -> bytes (attr_value na) ->
  source_ok f -> total <= source_len f -> 0 < source_len f -> nr_blocks total < i + Z.of_nat fuel ->
  exists f', count_to_free_loop fuel na f pos count remain acc =
      Ok (f', acc + count_true (freed (attr_value na) (marked_bit f)) (8 * pos) (Z.to_nat (8 * remain))) /\
    source_ok f' /\ source_len f' = source_len f /\ forall z, 0 <= z -> marked_bit f' z = marked_bit f z.
Proof.
  induction fuel as [|fuel IH]; intros f i pos count remain acc AB Hl Hb Hf Hs Hs0 Hfu.
  { destruct AB. unfold nr_blocks, NTFS_BUF_SIZE in *. exfalso. dlia. }
  destruct (block_round na f total i pos count remain) as (bm & f1 & fbm & BR); try done; [by apply Forall_drop|].
  pose proof AB as [Ep Hi Er Ec Hr]. destruct BR. cbn [count_to_free_loop]. rewrite br_read0. cbn [mbind res_bind]. rewrite br_get0. cbn [mbind res_bind].
  unfold NTFS_BUF_SIZE in *. rewrite count_free_bytes_spec by lia. cbn [mbind res_bind].
  assert (count_true (freed bm (gbit fbm)) (8 * 0) (8 * Z.to_nat count) =
    count_true (freed (attr_value na) (marked_bit f)) (8 * pos) (Z.to_nat (8 * count))) as ->.
  { replace (8 * Z.to_nat count)%nat with (Z.to_nat (8 * count)) by lia. apply count_true_shift. intros k Hk. unfold freed.
    rewrite br_bits0, br_fbits0 by lia. done. }
  assert (Z.to_nat (8 * remain) = Z.to_nat (8 * count) + Z.to_nat (8 * (remain - count)))%nat as -> by lia.
  rewrite count_true_app. destruct (Z.eqb_spec (remain - count) 0) as [E|E].
  - exists f1. rewrite E. change (Z.to_nat (8 * 0)) with O. cbn [count_true]. split; [by rewrite Z.add_0_r|done].
  - destruct (at_block_next _ _ _ _ _ AB E) as [AB' Hn].
    destruct (IH f1 (i + 1) (pos + count) (next_count count (remain - count)) (remain - count)
      (acc + count_true (freed (attr_value na) (marked_bit f)) (8 * pos) (Z.to_nat (8 * count)))) as (f' & -> & Hf' & Hl' & Hm'); [done..|lia|lia|lia|].
    exists f'. split; [|split; [done|split; [congruence|intros z Hz; rewrite Hm' by done; by apply br_marks0]]]. do 2 f_equal.
    rewrite Z2Nat.id by lia. replace (8 * (pos + count)) with (8 * pos + 8 * count) by lia.
    rewrite (count_true_ext (freed _ (marked_bit f1)) (freed (attr_value na) (marked_bit f))); [lia|].
    intros j Hj. unfold freed. rewrite br_marks0; [done|lia].
Qed.

Lemma block_differs_ext value value' marks marks' total i : 0 <= i -> (forall z, 0 <= z -> marks z = marks' z) ->
  (forall z, 8 * (NTFS_BUF_SIZE * i) <= z -> gbit value z = gbit value' z) ->
  block_differs value marks total i = block_differs value' marks' total i.
Proof.
  intros Hi E V. apply eq_true_iff_eq. rewrite <- !not_false_iff_true, !block_differs_false.
  split; intros N H; apply N; intros j Hj; specialize (H j Hj); rewrite ?V, ?E in * by (unfold NTFS_BUF_SIZE in *; lia); done.
Qed.

(** The blocks that differ from block [i] on. *)
Definition differing (value : list Z) (marks : Z -> bool) (total i : Z) : Z :=
  count_true (block_differs value marks total) i (Z.to_nat (nr_blocks total - i)).

Lemma differing_step value marks total i : i < nr_blocks total ->
  differing value marks total i = Z.b2z (block_differs value marks total i) + differing value marks total (i + 1).
Proof.
  intros Hi. unfold differing. replace (Z.to_nat (nr_blocks total - i)) with (S (Z.to_nat (nr_blocks total - (i + 1)))) by lia. done.
Qed.

Lemma at_block_inside total i pos count remain : at_block total i pos count remain -> 0 < remain -> i < nr_blocks total.
Proof. intros [-> Hi -> -> Hl] Hr. unfold nr_blocks, NTFS_BUF_SIZE in *. dlia. Qed.

Lemma differing_end value marks total : differing value marks total (nr_blocks total) = 0.
Proof. unfold differing. by rewrite Z.sub_diag. Qed.

Lemma differing_range value marks total i : 0 <= differing value marks total i <= Z.max 0 (nr_blocks total - i).
Proof. unfold differing. pose proof (count_true_range (block_differs value marks total) (Z.to_nat (nr_blocks total - i)) i). lia. Qed.

Lemma count_mismatch_spec na total fuel : forall f i pos count remain m,
  at_block total i pos count remain \/ i = nr_blocks total /\ remain = 0 -> 0 <= i -> zlen (attr_value na) = total -> bytes (attr_value na) ->
  source_ok f -> total <= source_len f -> 0 < source_len f -> nr_blocks total < i + Z.of_nat fuel ->
  0 <= m -> m + differing (attr_value na) (marked_bit f) total i < 2 ^ 64 ->
  exists f', count_mismatch_loop fuel na f pos count remain m =
      Ok (f', m + differing (attr_value na) (marked_bit f) total i, 0) /\
    source_ok f' /\ source_len f' = source_len f /\ forall z, 0 <= z -> marked_bit f' z = marked_bit f z.
Proof.
  induction fuel as [|fuel IH]; intros f i pos count remain m AB Hi Hl Hb Hf Hs Hs0 Hfu Hm0 Hm; cbn [count_mismatch_loop].
  { exfalso. destruct AB as [[]|[]]; [|lia]. unfold nr_blocks, NTFS_BUF_SIZE in *. dlia. }
  destruct (Z.eqb_spec remain 0) as [->|Hr].
  { assert (i = nr_blocks total) as ->.
    { destruct AB as [[-> _ E _ [|[-> _]]]|[? _]]; [lia| |done]. unfold nr_blocks, NTFS_BUF_SIZE in *. dlia. }
    exists f. rewrite differing_end, Z.add_0_r. done. }
  destruct AB as [AB|[_ ?]]; [|done]. assert (0 < remain) as Hr0 by (destruct AB; lia).
  destruct (block_round na f total i pos count remain) as (bm & f1 & fbm & BR); try done; [by apply Forall_drop|].
  destruct BR. rewrite br_read0. cbn [mbind res_bind]. rewrite br_get0. cbn [mbind res_bind]. rewrite br_same0. cbn [mbind res_bind].
  rewrite differing_step in Hm |- * by (by eapply at_block_inside).
  pose proof (differing_range (attr_value na) (marked_bit f) total (i + 1)) as Hd.
  set (b := block_differs (attr_value na) (marked_bit f) total i) in *.
  assert ((if negb b then m else u64 (m + 1)) = m + Z.b2z b) as -> by (destruct b; cbn [negb Z.b2z] in *; [apply u64_small; lia|lia]).
  assert (differing (attr_value na) (marked_bit f1) total (i + 1) = differing (attr_value na) (marked_bit f) total (i + 1)) as Ed.
  { unfold differing. apply count_true_ext. intros j Hj. by apply block_differs_ext; [lia|..]. }
  destruct (IH f1 (i + 1) (pos + count) (next_count count (remain - count)) (remain - count) (m + Z.b2z b)) as (f' & -> & Hf' & Hl' & Hm');
    try done; try lia.
  - destruct (Z.eq_dec (remain - count) 0) as [E|E]; [right|left; by eapply at_block_next].
    split; [|done]. symmetry. eapply at_block_last; [done..|]. destruct AB; unfold NTFS_BUF_SIZE in *; lia.
  - destruct b; cbn [Z.b2z]; lia.
  - exists f'. rewrite Ed. split; [do 3 f_equal; lia|]. split; [done|]. split; [congruence|]. intros z Hz. by rewrite Hm', br_marks0.
Qed.

(** ** Applying *)

(** Bit [j] afterwards: a block that is not approved stays; with [keep] the
    bits that are set stay set. *)
Definition new_bit (keep : bool) (approved : Z -> bool) (value : list Z) (marks : Z -> bool) (j : Z) : bool :=
  if approved (NTFS_BUF_SIZE * (j / (8 * NTFS_BUF_SIZE))) then
    if keep then gbit value j || marks j else marks j
  else gbit value j.

Definition keeps (wtype : Z) (blocked : bool) : bool := (wtype =? FSCK_BMP_INITIAL) || blocked.

(** An error for every block that differs, a repair for every one that is
    replaced. *)
Definition counts_after (wtype : Z) (keep : bool) (approved : Z -> bool) (differs : Z -> bool) (i : Z) (n : nat)
    (c : fsck_counts) : fsck_counts :=
  mk_counts (fsck_errors c + if wtype =? FSCK_BMP_FINAL then count_true differs i n else 0)
    (fsck_fixes c + if keep then 0 else count_true (fun k => differs k && approved (NTFS_BUF_SIZE * k)) i n).

Lemma counts_after_step wtype keep approved differs i n c :
  counts_after wtype keep approved differs i (S n) c =
  counts_after wtype keep approved differs (i + 1) n (counts_after wtype keep approved differs i 1 c).
Proof. unfold counts_after. cbn [count_true fsck_errors fsck_fixes]. f_equal; [destruct (wtype =? _)|destruct keep]; lia. Qed.

Lemma counts_after_ext wtype keep approved differs differs' i n c : (forall k, i <= k < i + Z.of_nat n -> differs k = differs' k) ->
  counts_after wtype keep approved differs i n c = counts_after wtype keep approved differs' i n c.
Proof.
  intros E. unfold counts_after. rewrite (count_true_ext differs differs') by done.
  rewrite (count_true_ext (fun k => differs k && _) (fun k => differs' k && approved (NTFS_BUF_SIZE * k))); [done|].
  intros j Hj. by rewrite E.
Qed.

(** A block is written over the attribute. *)
Lemma write_block_spec na pos count bm : 0 <= pos -> 0 <= count <= NTFS_BUF_SIZE -> zlen bm = NTFS_BUF_SIZE ->
  pos + count <= zlen (attr_value na) ->
  exists na', write_block na pos count bm = Ok (na', count) /\ zlen (attr_value na') = zlen (attr_value na) /\
    drop (Z.to_nat (pos + count)) (attr_value na') = drop (Z.to_nat (pos + count)) (attr_value na) /\
    forall j, 0 <= j -> gbit (attr_value na') j =
      if (8 * pos <=? j) && (j <? 8 * (pos + count)) then gbit bm (j - 8 * pos) else gbit (attr_value na) j.
Proof.
  intros Hp Hc Hb Hl. unfold write_block. destruct (aslice_total bm 0 count) as [bs Es]; [lia..|]. rewrite Es. cbn [mbind res_bind].
  assert (zlen bs = count) as Ez.
  { unfold aslice in Es. revert Es. zdec. intros [= <-]. unfold zlen in *. rewrite length_take, length_drop. lia. }
  destruct (pwrite_inside na pos bs Hp) as (na' & -> & W); [lia|]. exists na'. rewrite Ez. split; [done|].
  pose proof (awrite_lookup _ _ _ _ 0 W) as [L _]. split; [done|]. split.
  - apply list_eq. intros k. rewrite !lookup_drop. destruct (awrite_lookup _ _ _ _ (Z.to_nat (pos + count) + k) W) as [_ ->].
    rewrite decide_False by (unfold zlen in Ez; lia). done.
  - intros j Hj. rewrite (gbit_awrite _ _ _ _ _ W), Ez by done. zcase; cbn [andb]; try done.
    rewrite (gbit_slice _ _ _ _ _ Es) by lia. done.
Qed.

(** What a round does to the attribute. *)
Definition block_applied (keep : bool) (approved : Z -> bool) (marks : Z -> bool) (pos count : Z) (na na' : A) : Prop :=
  zlen (attr_value na') = zlen (attr_value na) /\
  drop (Z.to_nat (pos + count)) (attr_value na') = drop (Z.to_nat (pos + count)) (attr_value na) /\
  forall j, 0 <= j -> gbit (attr_value na') j =
    if (8 * pos <=? j) && (j <? 8 * (pos + count)) then new_bit keep approved (attr_value na) marks j else gbit (attr_value na) j.

Lemma block_bit_pos total i pos count remain j : at_block total i pos count remain -> 8 * pos <= j < 8 * (pos + count) ->
  NTFS_BUF_SIZE * (j / (8 * NTFS_BUF_SIZE)) = pos.
Proof. intros [-> Hi -> -> Hl] Hj. unfold NTFS_BUF_SIZE in *. dlia. Qed.

Lemma repair_block_spec wtype blocked approved na f total i pos count remain bm f' fbm c :
  wtype = FSCK_BMP_INITIAL \/ wtype = FSCK_BMP_FINAL ->
  at_block total i pos count remain -> zlen (attr_value na) = total -> block_read na f total i pos count bm f' fbm ->
  block_differs (attr_value na) (marked_bit f) total i = true ->
  exists na', repair_block wtype blocked (approved pos) na c pos count bm fbm =
      Ok (na', counts_after wtype (keeps wtype blocked) approved (block_differs (attr_value na) (marked_bit f) total) i 1 c, false) /\
    block_applied (keeps wtype blocked) approved (marked_bit f) pos count na na'.
Proof.
  intros Hw AB Hl [] Hd. pose proof AB as [Ep Hi Er Ec Hr]. unfold repair_block.
  assert (0 <= count <= NTFS_BUF_SIZE /\ 0 <= pos /\ pos + count <= zlen (attr_value na)) as (Hc & Hp & Hpc) by (unfold NTFS_BUF_SIZE in *; lia).
  destruct (or_block_spec count bm fbm) as (orb' & -> & Lo & Go); [done..|]. cbn [mbind res_bind].
  pose proof (block_bit_pos total i pos count remain) as Hbp.
  assert (exists na', write_block na pos count (if keeps wtype blocked then orb' else fbm) = Ok (na', count) /\
    (approved pos = true -> block_applied (keeps wtype blocked) approved (marked_bit f) pos count na na')) as (na' & Ew & Ha).
  { destruct (write_block_spec na pos count orb') as (n1 & E1 & L1 & D1 & G1); [done..|].
    destruct (write_block_spec na pos count fbm) as (n2 & E2 & L2 & D2 & G2); [done..|].
    assert (approved pos = true -> block_applied true approved (marked_bit f) pos count na n1) as A1.
    { intros Hap. split; [done|]. split; [done|]. intros j Hj. rewrite G1 by done. zcase; cbn [andb]; try done.
      unfold new_bit. rewrite (Hbp j), Hap, Go, br_bits0, br_fbits0 by (done || lia). f_equal; f_equal; lia. }
    assert (approved pos = true -> block_applied false approved (marked_bit f) pos count na n2) as A2.
    { intros Hap. split; [done|]. split; [done|]. intros j Hj. rewrite G2 by done. zcase; cbn [andb]; try done.
      unfold new_bit. rewrite (Hbp j), Hap, br_fbits0 by (done || lia). f_equal; lia. }
    destruct (keeps wtype blocked); [by exists n1|by exists n2]. }
  unfold counts_after. cbn [count_true]. rewrite Hd. cbn [andb].
  destruct (approved pos) eqn:Hap.
  - exists na'. split; [|by apply Ha]. rewrite <- Ep, Hap. unfold fsck_err_found, fsck_err_fixed, keeps in *.
    destruct c as [ce cf], Hw as [-> | ->]; change (FSCK_BMP_INITIAL =? FSCK_BMP_INITIAL) with true in *;
      change (FSCK_BMP_INITIAL =? FSCK_BMP_FINAL) with false; change (FSCK_BMP_FINAL =? FSCK_BMP_INITIAL) with false in *;
      change (FSCK_BMP_FINAL =? FSCK_BMP_FINAL) with true; cbn [orb] in *; [|destruct blocked]; rewrite Ew; cbn [mbind res_bind Z.b2z fsck_errors fsck_fixes]; by rewrite Z.eqb_refl, ?Z.add_0_r.
  - exists na. split.
    + rewrite <- Ep, Hap. unfold fsck_err_found. destruct c as [ce cf], Hw as [-> | ->], (keeps _ blocked); cbn; by rewrite ?Z.add_0_r.
    + split; [done|]. split; [done|]. intros j Hj. zcase; cbn [andb]; try done. unfold new_bit. by rewrite (Hbp j), Hap by (done || lia).
Qed.

Lemma new_bit_same keep approved value marks j : gbit value j = marks j -> new_bit keep approved value marks j = gbit value j.
Proof. intros E. unfold new_bit. rewrite <- E, orb_diag. by destruct (approved _), keep. Qed.

Lemma new_bit_ext keep approved value value' marks marks' j : gbit value j = gbit value' j -> marks j = marks' j ->
  new_bit keep approved value marks j = new_bit keep approved value' marks' j.
Proof. intros E1 E2. unfold new_bit. by rewrite E1, E2. Qed.

Lemma counts_after_0 wtype keep approved differs i c : counts_after wtype keep approved differs i 0 c = c.
Proof. unfold counts_after. cbn [count_true]. destruct c, (wtype =? _), keep; cbn; by rewrite !Z.add_0_r. Qed.

(** One round, whatever the block holds. *)
Lemma round_spec wtype blocked approved na f total i pos count remain bm f' fbm c :
  wtype = FSCK_BMP_INITIAL \/ wtype = FSCK_BMP_FINAL ->
  at_block total i pos count remain -> zlen (attr_value na) = total -> block_read na f total i pos count bm f' fbm ->
  let differs := block_differs (attr_value na) (marked_bit f) total in
  exists na', (if negb (differs i) then Ok (na, c, false) else repair_block wtype blocked (approved pos) na c pos count bm fbm) =
      Ok (na', counts_after wtype (keeps wtype blocked) approved differs i 1 c, false) /\
    block_applied (keeps wtype blocked) approved (marked_bit f) pos count na na'.
Proof.
  intros Hw AB Hl BR differs. destruct (differs i) eqn:D; [by eapply repair_block_spec|]. exists na. cbn [negb]. split.
  - unfold counts_after. cbn [count_true]. rewrite D. cbn. destruct c, (wtype =? _), (keeps _ _); cbn; by rewrite !Z.add_0_r.
  - split; [done|]. split; [done|]. intros j Hj. zcase; cbn [andb]; try done. symmetry. apply new_bit_same.
    apply (proj1 (block_differs_false _ _ _ _)) with (j := j - 8 * pos) in D; destruct AB as [Ep Hi Er Ec Hr].
    + by replace (8 * (NTFS_BUF_SIZE * i) + (j - 8 * pos)) with j in D by (unfold NTFS_BUF_SIZE in *; lia).
    + unfold NTFS_BUF_SIZE in *. lia.
Qed.

Lemma apply_loop_spec fix_ wtype decided blocked total fuel : wtype = FSCK_BMP_INITIAL \/ wtype = FSCK_BMP_FINAL ->
  forall na f c i pos count remain,
  at_block total i pos count remain -> zlen (attr_value na) = total -> bytes (drop (Z.to_nat pos) (attr_value na)) ->
  source_ok f -> total <= source_len f -> 0 < source_len f -> nr_blocks total < i + Z.of_nat fuel ->
  let approved := fun p => default (fix_ p) decided in
  exists na' f', apply_loop fuel fix_ wtype decided blocked na f c pos count remain =
      Ok (na', f', counts_after wtype (keeps wtype blocked) approved (block_differs (attr_value na) (marked_bit f) total) i
        (Z.to_nat (nr_blocks total - i)) c, 0) /\
    source_ok f' /\ source_len f' = source_len f /\ (forall z, 0 <= z -> marked_bit f' z = marked_bit f z) /\
    zlen (attr_value na') = total /\
    forall j, 0 <= j -> gbit (attr_value na') j =
      if (8 * pos <=? j) && (j <? 8 * total) then new_bit (keeps wtype blocked) approved (attr_value na) (marked_bit f) j else gbit (attr_value na) j.
Proof.
  intros Hw. induction fuel as [|fuel IH]; intros na f c i pos count remain AB Hl Hb Hf Hs Hs0 Hfu approved.
  { destruct AB. unfold nr_blocks, NTFS_BUF_SIZE in *. exfalso. dlia. }
  destruct (block_round na f total i pos count remain) as (bm & f1 & fbm & BR); [done..|].
  destruct (round_spec wtype blocked approved na f total i pos count remain bm f1 fbm c) as (na1 & Er & L1 & D1 & G1); [done..|].
  pose proof AB as [Ep Hi Erm Ec Hr]. destruct BR. cbn [apply_loop]. rewrite br_read0. cbn [mbind res_bind]. rewrite br_get0. cbn [mbind res_bind].
  rewrite br_same0. cbn [mbind res_bind]. fold (approved pos). rewrite Er. cbn [mbind res_bind].
  set (differs := block_differs (attr_value na) (marked_bit f) total) in *. set (keep := keeps wtype blocked) in *.
  destruct (Z.eqb_spec (remain - count) 0) as [E|E].
  - exists na1, f1. split; [|split; [done|split; [done|split; [done|split; [congruence|]]]]].
    + do 3 f_equal. destruct (Z.eq_dec total 0) as [Et|Et].
      * assert (i = 0 /\ nr_blocks total = 0) as [-> ->] by (rewrite Et; unfold NTFS_BUF_SIZE in *; split; [lia|done]).
        unfold counts_after. cbn [count_true Z.to_nat Z.sub]. assert (differs 0 = false) as ->; [|cbn; by destruct (wtype =? _), keep].
        apply block_differs_false. unfold NTFS_BUF_SIZE in *. lia.
      * erewrite at_block_last by (done || unfold NTFS_BUF_SIZE in *; lia). by replace (Z.to_nat (i + 1 - i)) with 1%nat by lia.
    + intros j Hj. rewrite G1 by done. zcase; cbn [andb]; done || lia.
  - destruct (at_block_next _ _ _ _ _ AB E) as [AB' Hn].
    assert (forall z, 8 * (NTFS_BUF_SIZE * (i + 1)) <= z -> gbit (attr_value na1) z = gbit (attr_value na) z) as Hsame.
    { intros z Hz. rewrite G1 by (unfold NTFS_BUF_SIZE in *; lia). zcase; cbn [andb]; try done. exfalso. unfold NTFS_BUF_SIZE in *. lia. }
    destruct (IH na1 f1 (counts_after wtype keep approved differs i 1 c) (i + 1) (pos + count) (next_count count (remain - count)) (remain - count))
      as (na' & f' & -> & Hf' & Hl' & Hm' & Lz & G'); [done|congruence| |done|lia|lia|lia|].
    { rewrite D1. apply (Forall_drop _ (Z.to_nat (pos + count) - Z.to_nat pos)) in Hb. rewrite drop_drop in Hb.
      by replace (Z.to_nat pos + (Z.to_nat (pos + count) - Z.to_nat pos))%nat with (Z.to_nat (pos + count)) in Hb by (unfold NTFS_BUF_SIZE in *; lia). }
    exists na', f'. split; [|split; [done|split; [congruence|split; [|split; [done|]]]]].
    + do 3 f_equal. replace (Z.to_nat (nr_blocks total - i)) with (S (Z.to_nat (nr_blocks total - (i + 1)))) by lia.
      rewrite (counts_after_step _ _ _ differs i (Z.to_nat (nr_blocks total - (i + 1)))). apply counts_after_ext. intros k Hk. apply block_differs_ext; [lia|done|].
      intros z Hz. apply Hsame. unfold NTFS_BUF_SIZE in *. lia.
    + intros z Hz. by rewrite Hm', br_marks0.
    + intros j Hj. rewrite G' by done. pose proof (G1 j Hj) as Gj. unfold NTFS_BUF_SIZE in *.
      destruct (Z.leb_spec (8 * (pos + count)) j), (Z.ltb_spec j (8 * total)), (Z.leb_spec (8 * pos) j), (Z.ltb_spec j (8 * (pos + count)));
        cbn [andb] in *; try lia; try done.
      apply new_bit_ext; [done|by apply br_marks0].
Qed.

End blocks.

(** ** The application of a bitmap *)

Section results.
Context {HP : Heap} (Hheap : forall n, heap_grants n = true).
Context {A : Type} {IO : AttrIO A} {LAWS : AttrIOLaws A} {F : Type} {SRC : BitmapSource F} {SLAWS : BitmapSourceLaws F}.

(** The bits a FINAL application would clear. *)
Definition to_free (value : list Z) (marks : Z -> bool) : Z :=
  count_true (freed value marks) 0 (Z.to_nat (8 * zlen value)).

(** The barrier is up. *)
Definition blocked (which : bmp_attr) (nr_clusters : Z) (sc : scan_counts) (wtype : Z) (value : list Z) (marks : Z -> bool) : bool :=
  bool_decide (which = LCNBMP_NA) && (wtype =? FSCK_BMP_FINAL) && (0 <? to_free value marks) &&
    ntfsck_bitmap_consensus_block nr_clusters sc (to_free value marks).

Lemma mass_free_spec which nr_clusters sc wtype (na : A) (f : F) :
  bytes (attr_value na) -> source_ok f -> zlen (attr_value na) <= source_len f -> 0 < source_len f ->
  exists f', mass_free_blocked which nr_clusters sc wtype na f =
      Ok (f', blocked which nr_clusters sc wtype (attr_value na) (marked_bit f)) /\
    source_ok f' /\ source_len f' = source_len f /\ forall z, 0 <= z -> marked_bit f' z = marked_bit f z.
Proof.
  intros Hb Hf Hs Hs0. unfold mass_free_blocked, blocked. destruct (bool_decide (which = LCNBMP_NA) && (wtype =? FSCK_BMP_FINAL)); [|by exists f].
  cbn [andb]. unfold ntfsck_bitmap_count_to_free. rewrite Hheap. cbn [negb]. pose proof (zlen_nonneg (attr_value na)).
  destruct (count_to_free_spec na (zlen (attr_value na)) (block_fuel (zlen (attr_value na))) f 0 0 (first_count (zlen (attr_value na)))
    (zlen (attr_value na)) 0) as (f' & -> & Hf'); [by apply at_block_first|done..|by apply block_fuel_enough|].
  cbn [mbind res_bind]. exists f'. by rewrite Z.mul_0_r, Z.add_0_l.
Qed.

Lemma apply_bitmap_spec fix_ which nr_clusters sc wtype decided (na : A) (f : F) c :
  which <> OTHER_NA -> wtype = FSCK_BMP_INITIAL \/ wtype = FSCK_BMP_FINAL ->
  bytes (attr_value na) -> source_ok f -> zlen (attr_value na) <= source_len f -> 0 < source_len f ->
  let value := attr_value na in
  let up := blocked which nr_clusters sc wtype value (marked_bit f) in
  let keep := keeps wtype up in
  let approved := fun pos => default (fix_ pos) decided in
  exists na' f', ntfsck_apply_bitmap fix_ which nr_clusters sc wtype decided na f c =
      Ok (na', f', counts_after wtype keep approved (block_differs value (marked_bit f) (zlen value)) 0
        (Z.to_nat (nr_blocks (zlen value))) (if up then fsck_err_found c else c), 0) /\
    source_ok f' /\ (forall z, 0 <= z -> marked_bit f' z = marked_bit f z) /\ zlen (attr_value na') = zlen value /\
    forall j, 0 <= j < 8 * zlen value -> gbit (attr_value na') j = new_bit keep approved value (marked_bit f) j.
Proof.
  intros Hwh Hw Hb Hf Hs Hs0 value up keep approved. unfold ntfsck_apply_bitmap. rewrite bool_decide_eq_false_2 by done.
  destruct (mass_free_spec which nr_clusters sc wtype na f) as (f1 & -> & Hf1 & Hl1 & Hm1); [done..|].
  cbn [mbind res_bind]. rewrite Hheap. cbn [negb]. pose proof (zlen_nonneg (attr_value na)) as Hz.
  fold value in Hs, Hz |- *. fold up. destruct (apply_loop_spec fix_ wtype decided up (zlen value) (block_fuel (zlen value)) Hw na f1
    (if up then fsck_err_found c else c) 0 0 (first_count (zlen value)) (zlen value)) as (na' & f' & E & Hf' & Hl' & Hm' & Lz & G);
    [by apply at_block_first|done|done|done|lia|lia|by apply block_fuel_enough|].
  exists na', f'. split; [|split; [done|split; [|split; [done|]]]].
  - rewrite E. do 3 f_equal. rewrite Z.sub_0_r. apply counts_after_ext. intros k Hk. by apply block_differs_ext; [lia|..].
  - intros z Hz0. by rewrite Hm', Hm1.
  - intros j Hj. rewrite G by lia. zdec. apply new_bit_ext; [done|]. apply Hm1. lia.
Qed.

(** C17: applying a bitmap to the volume succeeds when its attribute can be read
    and written.  In every block whose repair is approved, the bits are
    afterwards those collected; or, in the first pass and when the barrier is
    up, the set bits of both.  Blocks that are not approved stay.  An error is
    counted for every block that differs in the last pass and for the barrier,
    a repair for every block replaced. *)
Theorem apply_bitmap_correct fix_ which nr_clusters sc wtype decided (na : A) (f : F) c :
  which <> OTHER_NA -> wtype = FSCK_BMP_INITIAL \/ wtype = FSCK_BMP_FINAL ->
  bytes (attr_value na) -> source_ok f -> zlen (attr_value na) <= source_len f -> 0 < source_len f ->
  let value := attr_value na in
  let up := blocked which nr_clusters sc wtype value (marked_bit f) in
  let keep := keeps wtype up in
  let approved := fun pos => default (fix_ pos) decided in
  exists na' f', ntfsck_apply_bitmap fix_ which nr_clusters sc wtype decided na f c =
      Ok (na', f', counts_after wtype keep approved (block_differs value (marked_bit f) (zlen value)) 0
        (Z.to_nat (nr_blocks (zlen value))) (if up then fsck_err_found c else c), 0) /\
    source_ok f' /\ (forall z, 0 <= z -> marked_bit f' z = marked_bit f z) /\ zlen (attr_value na') = zlen value /\
    forall j, 0 <= j < 8 * zlen value -> gbit (attr_value na') j = new_bit keep approved value (marked_bit f) j.
Proof. exact (apply_bitmap_spec fix_ which nr_clusters sc wtype decided na f c). Qed.

(** the count of blocks that differ is right: it is raised by zero exactly
    when the two bitmaps agree. *)
Theorem count_mismatches_correct which (na : A) (f : F) m :
  which <> OTHER_NA -> bytes (attr_value na) -> source_ok f -> zlen (attr_value na) <= source_len f -> 0 < source_len f ->
  0 <= m -> m + nr_blocks (zlen (attr_value na)) < 2 ^ 64 ->
  exists f' d, ntfsck_count_bitmap_mismatches which na f m = Ok (f', m + d, 0) /\ source_ok f' /\
    (forall z, 0 <= z -> marked_bit f' z = marked_bit f z) /\ 0 <= d /\
    (d = 0 <-> forall j, 0 <= j < 8 * zlen (attr_value na) -> gbit (attr_value na) j = marked_bit f j).
Proof.
  intros Hwh Hb Hf Hs Hs0 Hm0 Hm. unfold ntfsck_count_bitmap_mismatches. rewrite bool_decide_eq_false_2, Hheap by done. cbn [negb].
  set (V := attr_value na) in *. pose proof (zlen_nonneg V) as Hz. pose proof (differing_range V (marked_bit f) (zlen V) 0) as Hd.
  assert (0 <= nr_blocks (zlen V)) by (unfold nr_blocks, NTFS_BUF_SIZE; dlia).
  destruct (count_mismatch_spec na (zlen V) (block_fuel (zlen V)) f 0 0 (first_count (zlen V)) (zlen V) m) as (f' & -> & Hf' & _ & Hm');
    try done; [left; by apply at_block_first|by apply block_fuel_enough|fold V; lia|].
  exists f', (differing V (marked_bit f) (zlen V) 0). split; [done|]. split; [done|]. split; [done|]. split; [lia|].
  unfold differing. rewrite Z.sub_0_r. split.
  - intros E j Hj. assert (block_differs V (marked_bit f) (zlen V) (j / (8 * NTFS_BUF_SIZE)) = false) as D.
    { apply (count_true_zero _ _ _ _ E). unfold nr_blocks, NTFS_BUF_SIZE in *. dlia. }
    apply (proj1 (block_differs_false _ _ _ _)) with (j := j mod (8 * NTFS_BUF_SIZE)) in D; [|unfold NTFS_BUF_SIZE in *; dlia].
    replace (8 * (NTFS_BUF_SIZE * (j / (8 * NTFS_BUF_SIZE))) + j mod (8 * NTFS_BUF_SIZE)) with j in D by (unfold NTFS_BUF_SIZE; dlia). done.
  - intros G. rewrite (count_true_const _ _ false); [done|]. intros i Hi. apply block_differs_false. intros j Hj. apply G. unfold NTFS_BUF_SIZE in *. lia.
Qed.

(** C18: when a tenth of the clusters would be freed and the scan is in doubt (a
    thousandth of the records in use could not be read, or less than nine
    tenths of them were valid), the last pass clears no bit of the cluster
    bitmap. *)
Theorem mass_free_refused fix_ nr_clusters sc decided (na : A) (f : F) c :
  bytes (attr_value na) -> source_ok f -> zlen (attr_value na) <= source_len f -> 0 < source_len f ->
  zlen (attr_value na) < 2 ^ 50 -> 0 < nr_clusters -> 0 < total_inuse_mft sc < 2 ^ 50 ->
  0 <= total_valid_mft sc < 2 ^ 50 -> 0 <= fsck_scan_eio sc < 2 ^ 50 ->
  nr_clusters <= 10 * to_free (attr_value na) (marked_bit f) ->
  total_inuse_mft sc < 1000 * fsck_scan_eio sc \/ 100 * total_valid_mft sc < 90 * total_inuse_mft sc ->
  exists na' f' c', ntfsck_apply_bitmap fix_ LCNBMP_NA nr_clusters sc FSCK_BMP_FINAL decided na f c = Ok (na', f', c', 0) /\
    forall j, 0 <= j < 8 * zlen (attr_value na) -> gbit (attr_value na) j = true -> gbit (attr_value na') j = true.
Proof.
  intros Hb Hf Hs Hs0 Hz Hn Hi Hv He Ht Hd.
  destruct (apply_bitmap_spec fix_ LCNBMP_NA nr_clusters sc FSCK_BMP_FINAL decided na f c) as (na' & f' & E & _ & _ & _ & G);
    [done|by right|done..|].
  assert (blocked LCNBMP_NA nr_clusters sc FSCK_BMP_FINAL (attr_value na) (marked_bit f) = true) as Hup.
  { assert (0 <= to_free (attr_value na) (marked_bit f) < 2 ^ 54) as Hr.
    { unfold to_free. pose proof (count_true_range (freed (attr_value na) (marked_bit f)) (Z.to_nat (8 * zlen (attr_value na))) 0).
      pose proof (zlen_nonneg (attr_value na)). lia. }
    unfold blocked, ntfsck_bitmap_consensus_block. change (bool_decide (LCNBMP_NA = LCNBMP_NA) && (FSCK_BMP_FINAL =? FSCK_BMP_FINAL)) with true.
    rewrite !s64_small by lia. cbn [andb]. zdec.
    destruct (Z.ltb_spec (total_inuse_mft sc) (fsck_scan_eio sc * 1000)), (Z.ltb_spec (total_valid_mft sc * 100) (total_inuse_mft sc * 90)); done || lia. }
  rewrite Hup in *. eexists na', f', _. split; [exact E|]. intros j Hj Hg. rewrite G by done. unfold new_bit.
  destruct (default _ _); [|done]. by rewrite Hg.
Qed.

End results.

(** ** The bitmaps of fsck as sources *)

(** The private blocks hold bytes. *)
Definition blocks_bytes (ba : block_array) : Prop := Forall (fun b => bytes (slot_bytes b)) (blocks ba).

Lemma fill_unused_bytes nr last bm bm' : bytes bm -> ntfs_fsck_fill_unused_lcnbmp nr last bm = Ok bm' -> bytes bm'.
Proof.
  intros Hb. unfold ntfs_fsck_fill_unused_lcnbmp. set (o := Z.shiftr _ 3). intros H.
  destruct (if o + 1 <? NTFS_BUF_SIZE then amemset bm (o + 1) (NTFS_BUF_SIZE - (o + 1)) 255 else Ok bm) as [b1| |] eqn:E1; try done.
  cbn [mbind res_bind] in H. assert (bytes b1) as Hb1.
  { destruct (o + 1 <? NTFS_BUF_SIZE); [|by injection E1 as <-]. eapply bytes_awrite; [exact E1|done|]. apply Forall_replicate. lia. }
  destruct (aget b1 o) as [x| |] eqn:Ex; try done. cbn [mbind res_bind] in H. unfold aset in H. destruct ((o <? 0) || (zlen b1 <=? o)); [done|].
  injection H as <-. apply Forall_insert; [done|]. apply wrapu_range. lia.
Qed.

Lemma const_blocks_bytes : bytes zero_block /\ bytes ones_block.
Proof. split; apply Forall_replicate; lia. Qed.

Lemma find_lcnbmp_bytes nr ba pos ba' bm : blocks_bytes ba -> ntfs_fsck_find_lcnbmp_block nr ba pos = Ok (ba', bm) -> blocks_bytes ba' /\ bytes bm.
Proof.
  intros Hb. destruct const_blocks_bytes as [Hz Ho]. unfold ntfs_fsck_find_lcnbmp_block. set (i := u32 (FB_ROUND_DOWN pos)). set (l := u32 _). intros H.
  destruct (if i <? max_flb_cnt nr then aget (blocks ba) i else Ok FbNull) as [b| |] eqn:Eb; try done. cbn [mbind res_bind] in H.
  assert (bytes (slot_bytes b)) as Hs.
  { destruct (i <? max_flb_cnt nr); [|by injection Eb as <-]. apply aget_ok in Eb as [_ Eb]. exact (Forall_lookup_1 _ _ _ _ Hb Eb). }
  destruct b as [| |lit]; cbn [slot_bytes] in Hs.
  - destruct (i =? l); [|by injection H as <- <-]. destruct (ntfs_fsck_fill_unused_lcnbmp nr l zero_block) as [bm1| |] eqn:E; try done.
    injection H as <- <-. split; [done|by eapply fill_unused_bytes].
  - by injection H as <- <-.
  - destruct (i =? l); [|by injection H as <- <-]. destruct (ntfs_fsck_fill_unused_lcnbmp nr l lit) as [bm1| |] eqn:E; try done.
    cbn [mbind res_bind] in H. unfold aset in H. destruct ((i <? 0) || (zlen (blocks ba) <=? i)); [done|]. injection H as <- <-.
    assert (bytes bm1) as H1 by by eapply fill_unused_bytes. split; [|done]. by apply Forall_insert.
Qed.

(** The clusters fsck found in use, and the positions behind the volume. *)
#[export] Instance lcn_source (nr_clusters : Z) : BitmapSource block_array := {
  get_bmp_func := ntfs_fsck_find_lcnbmp_block nr_clusters;
  marked_bit ba j := fbit ba j || (nr_clusters <=? j);
  source_ok ba := array_of nr_clusters ba /\ blocks_bytes ba /\ 0 < nr_clusters < 2 ^ 47 /\ nr_clusters mod FB_BLOCK_BITS <> 0;
  source_len _ := NTFS_BUF_SIZE * max_flb_cnt nr_clusters
}.

#[export] Instance lcn_source_laws nr_clusters : @BitmapSourceLaws block_array (lcn_source nr_clusters).
Proof.
  split. intros f pos (Ha & Hb & Hn & Hm) Hp Hal. cbn [get_bmp_func source_ok source_len marked_bit lcn_source] in *.
  destruct (fsck_find_block_correct nr_clusters f pos) as (ba' & bm & E & Ha' & Hf & Hz & G); [done..|].
  destruct (find_lcnbmp_bytes _ _ _ _ _ Hb E) as [Hb' Hbm]. exists ba', bm. split; [done|]. split; [done|]. split; [done|]. split; [|split; [done|split; [done|]]].
  - intros z Hz0. destruct (Z.leb_spec nr_clusters z); [by rewrite !orb_true_r|]. by rewrite Hf.
  - intros k Hk. rewrite G by (rewrite fb_bits; unfold NTFS_BUF_SIZE in *; lia). rewrite fb_bits. unfold NTFS_BUF_SIZE in *.
    by replace (65536 * (pos / 8192) + k) with (8 * pos + k) by dlia.
Qed.

(** The mft records fsck found in use. *)
#[export] Instance mft_source : BitmapSource mft_bitmap := {
  get_bmp_func mb pos := bm ← ntfs_fsck_find_mftbmp_block mb pos; Ok (mb, bm);
  marked_bit := mbit;
  source_ok mb := mft_ok mb /\ Forall (fun b => bytes (default zero_block b)) mb;
  source_len _ := 2 ^ 44
}.

#[export] Instance mft_source_laws : BitmapSourceLaws mft_bitmap.
Proof.
  split. intros mb pos (Hok & Hb) Hp Hal. cbn [get_bmp_func source_ok source_len marked_bit mft_source] in *. unfold NTFS_BUF_SIZE in Hal.
  unfold ntfs_fsck_find_mftbmp_block. rewrite FB_ROUND_DOWN_spec, u32_small by dlia.
  assert (forall k, 0 <= k < 8 * NTFS_BUF_SIZE -> (8 * pos + k) / FB_BLOCK_BITS = pos / 8192 /\ (8 * pos + k) mod FB_BLOCK_BITS = k) as Ei.
  { intros k Hk. rewrite fb_bits. unfold NTFS_BUF_SIZE in Hk. split; dlia. }
  assert (zlen zero_block = NTFS_BUF_SIZE) as Ez by (unfold zlen, zero_block; by rewrite length_replicate).
  destruct (Z.leb_spec (zlen mb) (pos / 8192)) as [H|H].
  - exists mb, zero_block. split; [done|]. split; [done|]. split; [done|]. split; [done|]. split; [done|]. split; [apply const_blocks_bytes|].
    intros k Hk. unfold mbit. destruct (Ei k Hk) as [-> ->]. rewrite (lookup_ge_None_2 mb) by (unfold zlen in H; lia).
    apply zero_block_bits. rewrite fb_bits. unfold NTFS_BUF_SIZE in Hk. lia.
  - destruct (aget_total mb (pos / 8192)) as [b E]; [dlia|]. rewrite E. apply aget_ok in E as [_ E].
    exists mb, (default zero_block b). split; [by destruct b|]. split; [done|]. split; [done|]. split; [done|]. split; [|split].
    + destruct b; [exact (Forall_lookup_1 _ _ _ _ Hok E)|done].
    + exact (Forall_lookup_1 _ _ _ _ Hb E).
    + intros k Hk. unfold mbit. destruct (Ei k Hk) as [-> ->]. rewrite E. destruct b; [done|].
      apply zero_block_bits. rewrite fb_bits. unfold NTFS_BUF_SIZE in Hk. lia.
Qed.

(** ** Witnesses *)

(** A volume of 100 clusters with a bitmap of 16 bytes; nothing was found in
    use. *)
Definition ex_marks : block_array := mk_blocks [FbNull] [0].
Definition ex_volume (used : nat) : list Z := replicate used 255 ++ replicate (16 - used) 0.

Lemma ex_marks_ok : @source_ok _ (lcn_source 100) ex_marks.
Proof.
  split; [|split; [|split; [lia|by vm_compute]]].
  - split; [|done]. apply shared_blocks_ok; [done|]. apply Forall_singleton. by left.
  - apply Forall_singleton, const_blocks_bytes.
Qed.

(** Eight clusters are freed, and the bits behind the volume set. *)
Lemma apply_bitmap_correct_witness :
  exists na' f', ntfsck_apply_bitmap (HP := ample_heap) (SRC := lcn_source 100) (fun _ => true) LCNBMP_NA 100 (mk_scan 50 50 0)
      FSCK_BMP_FINAL None (ex_volume 1) ex_marks (mk_counts 0 0) = Ok (na', f', mk_counts 1 1, 0) /\
    gbit (attr_value na') 7 = false /\ gbit (attr_value na') 100 = true.
Proof.
  destruct (apply_bitmap_correct (HP := ample_heap) (fun _ => eq_refl) (SRC := lcn_source 100) (fun _ => true) LCNBMP_NA 100 (mk_scan 50 50 0)
    FSCK_BMP_FINAL None (ex_volume 1) ex_marks (mk_counts 0 0)) as (na' & f' & E & _ & _ & _ & G).
  - discriminate.
  - right. reflexivity.
  - compute_decide.
  - exact ex_marks_ok.
  - vm_compute. discriminate.
  - vm_compute. reflexivity.
  - exists na', f'. split; [rewrite E; vm_compute; reflexivity|].
    split; rewrite G by (vm_compute; split; [discriminate|reflexivity]); vm_compute; reflexivity.
Defined.

Lemma count_mismatches_correct_witness :
  exists f' d, ntfsck_count_bitmap_mismatches (HP := ample_heap) MFTBMP_NA (ex_volume 1) ([None] : mft_bitmap) 3 = Ok (f', 3 + d, 0) /\ d <> 0.
Proof.
  destruct (count_mismatches_correct (HP := ample_heap) (fun _ => eq_refl) MFTBMP_NA (ex_volume 1) ([None] : mft_bitmap) 3)
    as (f' & d & E & _ & _ & _ & D).
  - discriminate.
  - compute_decide.
  - split; [by apply Forall_singleton|]. apply Forall_singleton. exact (proj1 const_blocks_bytes).
  - vm_compute. discriminate.
  - reflexivity.
  - discriminate.
  - vm_compute. reflexivity.
  - exists f', d. split; [exact E|]. intros H. apply (proj1 D) with (j := 0) in H; [discriminate H|].
    vm_compute. split; [discriminate|reflexivity].
Defined.

(** Sixteen clusters would be freed, and only half of the records were valid. *)
Lemma mass_free_refused_witness :
  exists na' f' c', ntfsck_apply_bitmap (HP := ample_heap) (SRC := lcn_source 100) (fun _ => true) LCNBMP_NA 100 (mk_scan 5 10 1)
      FSCK_BMP_FINAL None (ex_volume 2) ex_marks (mk_counts 0 0) = Ok (na', f', c', 0) /\ gbit (attr_value na') 15 = true.
Proof.
  destruct (mass_free_refused (HP := ample_heap) (fun _ => eq_refl) (SRC := lcn_source 100) (fun _ => true) 100 (mk_scan 5 10 1) None
    (ex_volume 2) ex_marks (mk_counts 0 0)) as (na' & f' & c' & E & G).
  - compute_decide.
  - exact ex_marks_ok.
  - vm_compute. discriminate.
  - vm_compute. reflexivity.
  - vm_compute. reflexivity.
  - reflexivity.
  - split; reflexivity.
  - split; [discriminate|reflexivity].
  - split; [discriminate|reflexivity].
  - vm_compute. discriminate.
  - left. reflexivity.
  - exists na', f', c'. split; [exact E|]. apply G; [|reflexivity]. vm_compute. split; [discriminate|reflexivity].
Defined.
