(* ===== verification/AttrList.v ===== *)
(** Attribute lists: the search through them (libntfs/attrib.c), the
    attachment of extent records (libntfs/inode.c), adding and removing entries
    (libntfs/attrlist.c).

    A list is the array of its bytes and an entry the offset of its
    ATTR_LIST_ENTRY.  The records of an inode are the base record and the
    extents attached to it; a record is referred to by its place among them. *)

From S2P Require Import Prelude Bytes Runlist Unistr Collate IndexNode AttrDef AttrRec.

(** ** Fields of ATTR_LIST_ENTRY and of MFT_RECORD *)

Definition al_type (al : list Z) (p : Z) : res Z := get_le 4 al p.
Definition al_length (al : list Z) (p : Z) : res Z := get_le 2 al (p + 4).
Definition al_name_length (al : list Z) (p : Z) : res Z := get_le 1 al (p + 6).
Definition al_name_offset (al : list Z) (p : Z) : res Z := get_le 1 al (p + 7).
Definition al_lowest_vcn (al : list Z) (p : Z) : res Z := v ← get_le 8 al (p + 8); Ok (s64 v).
Definition al_mft_reference (al : list Z) (p : Z) : res Z := get_le 8 al (p + 16).
Definition al_instance (al : list Z) (p : Z) : res Z := get_le 2 al (p + 24).

(** [offsetof(ATTR_LIST_ENTRY, name)], [offsetof(ATTR_LIST_ENTRY, name_length)] *)
Definition al_name_ofs : Z := 26.
Definition al_name_length_ofs : Z := 6.

Definition m_sequence_number (m : list Z) : res Z := get_le 2 m 16.
Definition a_instance (m : list Z) (a : Z) : res Z := get_le 2 m (a + 14).
Definition a_lowest_vcn (m : list Z) (a : Z) : res Z := v ← get_le 8 m (a + 16); Ok (s64 v).

(** The characters of the name of an attribute, and what follows them. *)
Definition a_name (m : list Z) (a : Z) : res (list Z) := o ← a_name_offset m a; Ok (ntfschars (drop (Z.to_nat (a + o)) m)).
Definition al_name (al : list Z) (p : Z) : res (list Z) := o ← al_name_offset al p; Ok (ntfschars (drop (Z.to_nat (p + o)) al)).

(** ** References to mft records *)

Definition MFT_REF_MASK_CPU : Z := 0x0000ffffffffffff.
Definition MREF (x : Z) : Z := Z.land x MFT_REF_MASK_CPU.
Definition MSEQNO (x : Z) : Z := Z.land (Z.shiftr x 48) 0xffff.
Definition MK_MREF (m s : Z) : Z := Z.lor (u64 (Z.shiftl s 48)) (Z.land m MFT_REF_MASK_CPU).

(** ** Inodes *)

Record ainode := mk_ainode { mft_no : Z; mrec : list Z }.

(** A base inode with the extents attached to it; [has_list] is NInoAttrList. *)
Record base_inode := mk_base {
  base_ni : ainode;
  extent_nis : list ainode;
  has_list : bool;
  attr_list : option (list Z)
}.

Inductive ino_ref := InBase | InExtent (i : nat).

#[global] Instance ino_ref_eq_dec : EqDecision ino_ref.
Proof. solve_decision. Defined.

Definition ino_of (b : base_inode) (r : ino_ref) : res ainode :=
  match r with
  | InBase => Ok (base_ni b)
  | InExtent i => match extent_nis b !! i with Some n => Ok n | None => Undef end
  end.

(** ** Attaching an extent *)

(** The volume: the sizes, whether the mft is open, and the runlist of the mft
    (None for NULL). *)
Record mft_geometry := mk_geometry {
  mft_record_size_bits : Z;
  cluster_size_bits : Z;
  mft_na : bool;
  mft_rl : option runlist
}.

(** [while (rl->length && ((rl->vcn + rl->length) <= extent_vcn))] *)
Fixpoint skip_runs (rl : runlist) (extent_vcn : Z) : res runlist_element :=
  match rl with
  | [] => Undef
  | r :: rl => if negb (len r =? 0) && (vcn r + len r <=? extent_vcn) then skip_runs rl extent_vcn else Ok r
  end.

(** An extent of the mft itself must lie in its mapped part. *)
Definition extent_unmapped (geo : mft_geometry) (mft_no : Z) : res bool :=
  let extent_vcn := Z.shiftr (u64 (Z.shiftl mft_no (mft_record_size_bits geo))) (cluster_size_bits geo) in
  match mft_rl geo with
  | None => Ok true
  | Some rl => r ← skip_runs rl extent_vcn; Ok (lcn r <? 0)
  end.

(** The first attached extent with the number. *)
Fixpoint find_extent (nis : list ainode) (no : Z) (i : nat) : option nat :=
  match nis with
  | [] => None
  | n :: nis => if no =? mft_no n then Some i else find_extent nis no (S i)
  end.

(** [load] reads a record from the volume, checks that it belongs to the base,
    and allocates the inode.  An extent that is attached already is returned
    whatever its sequence number. *)
Definition ntfs_extent_inode_open (geo : mft_geometry) (load : Z -> option ainode) (b : base_inode) (mref : Z)
    : res (option (base_inode * nat)) :=
  let no := MREF mref in
  bad ← (if mft_no (base_ni b) =? 0 then extent_unmapped geo no else Ok false);
  if bad : bool then Ok None else
  match find_extent (extent_nis b) no 0 with
  | Some i => Ok (Some (b, i))
  | None =>
      Ok (match load mref with
          | Some n => Some (mk_base (base_ni b) (extent_nis b ++ [n]) (has_list b) (attr_list b), length (extent_nis b))
          | None => None
          end)
  end.

(** ** The search *)

(** [ntfs_attr_search_ctx]: the record and the attribute in it, the entry of the
    list, whether the base inode is set, and the attribute in the base record.
    The entry is an offset, [None] for NULL. *)
Record al_ctx := mk_al_ctx {
  x_ino : ino_ref;
  x_attr : Z;
  x_first : bool;
  x_entry : option Z;
  x_based : bool;
  x_base_attr : Z
}.

Section external.
Context (memcmp : list Z -> list Z -> Z) (upcase : list Z) (upcase_len : Z).
Context (geo : mft_geometry) (load : Z -> option ainode).

(** What to search for. *)
Record wanted := mk_wanted {
  w_type : Z;
  w_name : attr_name;
  w_name_len : Z;
  w_ic : IGNORE_CASE_BOOL;
  w_lowest_vcn : Z;
  w_val : option (list Z);
  w_val_len : Z
}.

(** What the code does with an entry: pass it, end the search, give up, or
    look the attribute up. *)
Inductive entry_verdict := NextEntry | NotFound | Corrupt | Take.

(** The entry does not lie in the list. *)
Definition entry_outside (al : list Z) (p : Z) : res bool :=
  if zlen al <? p + al_name_ofs then Ok true else
  l ← al_length al p;
  if zlen al <? p + l then Ok true else
  if negb (Z.land l 7 =? 0) then Ok true else
  if l <? al_name_length_ofs then Ok true else
  nl ← al_name_length al p;
  if nl =? 0 then Ok false else
  o ← al_name_offset al p;
  Ok (zlen al <? p + o + nl * 2).

(** The next entry is of the same attribute and still fits the vcn.  The code
    reads the vcn and the name of that entry before it is known to lie in the
    list. *)
Definition next_fits (al : list Z) (w : wanted) (p next : Z) : res bool :=
  if w_lowest_vcn w =? 0 then Ok false else
  if negb (next + 6 <? zlen al) then Ok false else
  l ← al_length al next;
  if zlen al <? next + l then Ok false else
  v ← al_lowest_vcn al next;
  if w_lowest_vcn w <? v then Ok false else
  t1 ← al_type al next;
  t2 ← al_type al p;
  if negb (t1 =? t2) then Ok false else
  n1 ← al_name_length al next;
  n2 ← al_name_length al p;
  if negb (n1 =? n2) then Ok false else
  s1 ← al_name al next;
  s2 ← al_name al p;
  ntfs_names_are_equal s1 n1 s2 n2 CASE_SENSITIVE upcase upcase_len.

(** The type, the name and the vcn of an entry that lies in the list. *)
Definition entry_verdict_of (al : list Z) (w : wanted) (p next : Z) : res entry_verdict :=
  if w_type w =? AT_UNUSED then Ok Take else
  t ← al_type al p;
  if w_type w <? t then Ok NotFound else
  if negb (w_type w =? t) then Ok NextEntry else
  nl ← al_name_length al p;
  v ← match w_name w with
      | AtUnnamed => Ok (if nl =? 0 then Take else NotFound)
      | AnyName => Ok Take
      | Name s =>
          n ← al_name al p;
          rc ← ntfs_names_full_collate s (w_name_len w) n nl (w_ic w) upcase upcase_len;
          Ok (if rc =? 0 then Take else if rc <? 0 then NotFound else NextEntry)
      end;
  match v with
  | Take => fits ← next_fits al w p next; Ok (if fits : bool then NextEntry else Take)
  | _ => Ok v
  end.

(** The record an entry refers to; the sequence number is checked when the record
    is the one of the previous search.  The search is given up with that record
    still in hand, or with none when the extent could not be opened. *)
Inductive entry_rec := InRecord (b : base_inode) (ni : ino_ref) | GiveUp | NoExtent.

Definition entry_record (b : base_inode) (ni : ino_ref) (mref : Z) : res entry_rec :=
  n ← ino_of b ni;
  if MREF mref =? mft_no n then
    s ← m_sequence_number (mrec n);
    Ok (if MSEQNO mref =? s then InRecord b ni else GiveUp)
  else if MREF mref =? mft_no (base_ni b) then Ok (InRecord b InBase)
  else if negb (mft_na geo) then Ok GiveUp
  else
    m ← ntfs_extent_inode_open geo load b mref;
    Ok (match m with Some (b, i) => InRecord b (InExtent i) | None => NoExtent end).

(** [do_next_attr_loop]: the attribute of the record that the entry describes;
    or none has the value, and the search goes on with the next entry; or the
    search is given up; with the attribute the context is left at. *)
Inductive attr_found := Found (a : Z) | NoneHere (a : Z) | BadAttr (a : Z).

Fixpoint instance_loop (fuel : nat) (m al : list Z) (p : Z) (w : wanted) (attr a : Z) : res attr_found :=
  match fuel with
  | O => Undef
  | S fuel =>
      biu ← m_bytes_in_use m;
      let space := biu - a in
      if a <? 0 then Ok (BadAttr attr) else
      ended ← (if 4 <=? space then t ← a_type m a; Ok (t =? AT_END) else Ok false);
      if ended : bool then Ok (NoneHere attr) else
      l ← a_length m a;
      if l =? 0 then Ok (BadAttr attr) else
      if (space <? resident_end) || (space <? l) then Ok (BadAttr attr) else
      i1 ← al_instance al p;
      i2 ← a_instance m a;
      if negb (i1 =? i2) then instance_loop fuel m al p w attr (a + l) else
      t1 ← al_type al p;
      t2 ← a_type m a;
      if negb (t1 =? t2) then Ok (BadAttr attr) else
      n1 ← a_name_length m a;
      n2 ← al_name_length al p;
      s1 ← a_name m a;
      s2 ← al_name al p;
      same ← ntfs_names_are_equal s1 n1 s2 n2 CASE_SENSITIVE upcase upcase_len;
      if negb same then Ok (BadAttr attr) else
      hit ← (if w_type w =? AT_UNUSED then Ok true else
             match w_val w with
             | None => Ok true
             | Some v =>
                 nr ← a_non_resident m a;
                 if negb (nr =? 0) then Ok false else
                 vl ← a_value_length m a;
                 if negb (vl =? w_val_len w) then Ok false else
                 o ← a_value_offset m a;
                 v1 ← aslice m (a + o) (w_val_len w);
                 v2 ← aslice v 0 (w_val_len w);
                 Ok (memcmp v1 v2 =? 0)
             end);
      if hit : bool then Ok (Found a) else instance_loop fuel m al p w a (a + l)
  end.

(** How a search ends. *)
Inductive al_outcome := AlFound | AlCorrupt | AlNoExtent | AlNotFound.

(** [for (;; al_entry = next_al_entry)]: the inode, the record, the attribute,
    the entry. *)
Fixpoint al_loop (fuel : nat) (b : base_inode) (al : list Z) (w : wanted) (ni : ino_ref) (attr : Z) (entry p : Z)
    : res (base_inode * ino_ref * Z * Z * al_outcome) :=
  match fuel with
  | O => Undef
  | S fuel =>
      if (p <? 0) || (zlen al <? p) then Ok (b, ni, attr, entry, AlCorrupt) else
      if p =? zlen al then Ok (b, ni, attr, p, AlNotFound) else
      out ← entry_outside al p;
      if out : bool then Ok (b, ni, attr, p, AlCorrupt) else
      l ← al_length al p;
      let next := p + l in
      v ← entry_verdict_of al w p next;
      match v with
      | NotFound => Ok (b, ni, attr, p, AlNotFound)
      | Corrupt => Ok (b, ni, attr, p, AlCorrupt)
      | NextEntry => al_loop fuel b al w ni attr p next
      | Take =>
          mref ← al_mft_reference al p;
          r ← entry_record b ni mref;
          match r with
          | GiveUp => Ok (b, ni, attr, p, AlCorrupt)
          | NoExtent => Ok (b, ni, attr, p, AlNoExtent)
          | InRecord b ni =>
              n ← ino_of b ni;
              a ← m_attrs_offset (mrec n);
              f ← instance_loop (S (length (mrec n))) (mrec n) al p w a a;
              match f with
              | Found a => Ok (b, ni, a, p, AlFound)
              | NoneHere a => al_loop fuel b al w ni a p next
              | BadAttr a => Ok (b, ni, a, p, AlCorrupt)
              end
          end
      end
  end.

(** Where a search starts. *)
Inductive al_start := StartAt (p : Z) | ListAttr (p : Z) | StartCorrupt | StartNotFound.

Definition first_entry (al : list Z) (w : wanted) (ctx : al_ctx) : res al_start :=
  let p := default 0 (x_entry ctx) in
  if x_first ctx then
    if (w_type w =? AT_UNUSED) && bool_decide (x_entry ctx = None) then
      t ← al_type al p;
      Ok (if AT_ATTRIBUTE_LIST <? t then ListAttr p else StartAt p)
    else Ok (StartAt p)
  else
    if zlen al - p <? al_name_ofs then Ok StartCorrupt else
    l ← al_length al p;
    if negb (Z.land l 7 =? 0) || (l <? al_name_ofs) then Ok StartCorrupt else
    let next := p + l in
    if next =? zlen al then Ok StartNotFound else
    if zlen al - next <? al_name_ofs then Ok StartCorrupt else
    if negb (w_type w =? AT_UNUSED) then Ok (StartAt next) else
    t1 ← al_type al p;
    t2 ← al_type al next;
    Ok (if (t1 <? AT_ATTRIBUTE_LIST) && (AT_ATTRIBUTE_LIST <? t2) then ListAttr next else StartAt next).

(** [do { ret = ntfs_attr_find(...); } while (!ret);] *)
Fixpoint find_to_end (fuel : nat) (m : list Z) (w : wanted) (c : search_ctx) : res (search_ctx * errno) :=
  match fuel with
  | O => Undef
  | S fuel =>
      '(c, e) ← ntfs_attr_find memcmp upcase upcase_len m (w_type w) (w_name w) (w_name_len w) (w_ic w) (w_val w) (w_val_len w) c;
      match e with None => find_to_end fuel m w c | Some e => Ok (c, e) end
  end.

(** [not_found]: the place in the base record where the attribute belongs; the
    entry stays. *)
Definition al_not_found (b : base_inode) (w : wanted) (entry : option Z) : res (base_inode * al_ctx * option errno) :=
  let m := mrec (base_ni b) in
  o ← m_attrs_offset m;
  if (w_type w =? AT_UNUSED) || (w_type w =? AT_END) then
    '(c, e) ← ntfs_attr_find memcmp upcase upcase_len m AT_END (w_name w) (w_name_len w) (w_ic w) (w_val w) (w_val_len w) (mk_ctx o true);
    Ok (b, mk_al_ctx InBase (ctx_attr c) (is_first c) None false 0, e)
  else
    '(c, e) ← find_to_end (S (length m)) m w (mk_ctx o true);
    Ok (b, mk_al_ctx InBase (ctx_attr c) (is_first c) entry false 0, Some e).

Definition ntfs_external_attr_find (b : base_inode) (w : wanted) (ctx : al_ctx) : res (base_inode * al_ctx * option errno) :=
  let base_attr := if bool_decide (x_ino ctx = InBase) then x_attr ctx else x_base_attr ctx in
  if w_type w =? AT_END then al_not_found b w (x_entry ctx) else
  match attr_list b with
  | None => Undef
  | Some al =>
      st ← first_entry al w ctx;
      let entry := default 0 (x_entry ctx) in
      let corrupt := fun ni attr entry =>
        (b, mk_al_ctx InBase (if bool_decide (ni = InBase) then attr else base_attr) false (Some entry) true base_attr, Some EIO) in
      match st with
      | StartNotFound => al_not_found b w (Some entry)
      | StartCorrupt => Ok (corrupt (x_ino ctx) (x_attr ctx) entry)
      | ListAttr p =>
          let m := mrec (base_ni b) in
          match w_name w, w_val w with
          | AnyName, None =>
              if negb (w_name_len w =? 0) || negb (w_val_len w =? 0) || negb (w_lowest_vcn w =? 0)
              then Ok (b, mk_al_ctx (x_ino ctx) (x_attr ctx) false (Some entry) true base_attr, Some EINVAL) else
              o ← m_attrs_offset m;
              '(c, e) ← ntfs_attr_find memcmp upcase upcase_len m AT_ATTRIBUTE_LIST AnyName 0 IGNORE_CASE None 0 (mk_ctx o true);
              Ok (b, mk_al_ctx InBase (ctx_attr c) true (Some p) true base_attr,
                  match e with Some ENOENT => Some EIO | _ => e end)
          | _, _ => Ok (b, mk_al_ctx (x_ino ctx) (x_attr ctx) false (Some entry) true base_attr, Some EINVAL)
          end
      | StartAt p =>
          '(b, ni, attr, entry, r) ← al_loop (S (S (length al))) b al w (x_ino ctx) (x_attr ctx) entry p;
          match r with
          | AlFound => Ok (b, mk_al_ctx ni attr false (Some entry) true base_attr, None)
          | AlNotFound => al_not_found b w (Some entry)
          | AlCorrupt =>
              Ok (b, mk_al_ctx InBase (if bool_decide (ni = InBase) then attr else base_attr) false (Some entry) true base_attr, Some EIO)
          | AlNoExtent => Ok (b, mk_al_ctx InBase base_attr false (Some entry) true base_attr, Some EIO)
          end
      end
  end.

(** [ntfs_attr_get_search_ctx] on the base inode. *)
Definition ntfs_attr_get_search_ctx (b : base_inode) : res al_ctx :=
  o ← m_attrs_offset (mrec (base_ni b));
  Ok (mk_al_ctx InBase o true None false 0).

(** The search in the record when there is no list, or for the list itself. *)
Definition ntfs_attr_lookup (b : base_inode) (w : wanted) (ctx : al_ctx) : res (base_inode * al_ctx * option errno) :=
  if negb (has_list b) || (w_type w =? AT_ATTRIBUTE_LIST) then
    n ← ino_of b (x_ino ctx);
    '(c, e) ← ntfs_attr_find memcmp upcase upcase_len (mrec n) (w_type w) (w_name w) (w_name_len w) (w_ic w) (w_val w) (w_val_len w)
                (mk_ctx (x_attr ctx) (x_first ctx));
    Ok (b, mk_al_ctx (x_ino ctx) (ctx_attr c) (is_first c) (x_entry ctx) (x_based ctx) (x_base_attr ctx), e)
  else ntfs_external_attr_find b w ctx.

End external.

(** ** Is the list needed? *)

(** 1 when an entry refers to another record. *)
Fixpoint need_loop (fuel : nat) (al : list Z) (no p : Z) : res Z :=
  if zlen al <=? p then Ok 0 else
  match fuel with
  | O => Undef
  | S fuel =>
      mref ← al_mft_reference al p;
      if negb (MREF mref =? no) then Ok 1 else
      l ← al_length al p;
      need_loop fuel al no (p + l)
  end.

Definition ntfs_attrlist_need (fuel : nat) (b : base_inode) : res Z :=
  if negb (has_list b) then Err EINVAL else
  match attr_list b with
  | None => Err EINVAL
  | Some al => need_loop fuel al (mft_no (base_ni b)) 0
  end.

(** ** Entries *)

Definition al_entry_len (name_length : Z) : Z := align8 (al_name_ofs + 2 * name_length).

(** The fields of an entry of a cleared list. *)
Definition put_entry (al : list Z) (p type entry_len name_length lowest_vcn mref instance : Z) (name : list Z) : res (list Z) :=
  al ← put_le 4 al p type;
  al ← put_le 2 al (p + 4) entry_len;
  al ← put_le 1 al (p + 6) name_length;
  al ← put_le 1 al (p + 7) al_name_ofs;
  al ← put_le 8 al (p + 8) lowest_vcn;
  al ← put_le 8 al (p + 16) mref;
  al ← put_le 2 al (p + 24) instance;
  awrite al (p + al_name_ofs) name.

(** The bytes of the name of an attribute. *)
Definition name_bytes (m : list Z) (a : Z) : res (list Z) :=
  nl ← a_name_length m a;
  if nl =? 0 then Ok [] else
  o ← a_name_offset m a;
  aslice m (a + o) (nl * 2).

Section entries.
Context {HP : Heap} (memcmp : list Z -> list Z -> Z) (upcase : list Z) (upcase_len : Z).
Context (geo : mft_geometry) (load : Z -> option ainode).

(** Opening and truncating the attribute of the list, which changes records of
    the inode and may move attributes between them, and then their entries in
    the list: the inode afterwards, and the error, if any. *)
Context (resize_list : base_inode -> Z -> base_inode * option errno).

Definition set_attr_list (b : base_inode) (al : list Z) : base_inode := mk_base (base_ni b) (extent_nis b) (has_list b) (Some al).

(** What the attribute to add is searched for by. *)
Definition wanted_for (m : list Z) (a : Z) : res wanted :=
  t ← a_type m a;
  nl ← a_name_length m a;
  nr ← a_non_resident m a;
  s ← a_name m a;
  let name := if nl =? 0 then AtUnnamed else Name (take (Z.to_nat nl) s) in
  if negb (nr =? 0) then
    v ← a_lowest_vcn m a;
    Ok (mk_wanted t name nl CASE_SENSITIVE v None 0)
  else
    o ← a_value_offset m a;
    vl ← a_value_length m a;
    Ok (mk_wanted t name nl CASE_SENSITIVE 0 (Some (take (Z.to_nat vl) (drop (Z.to_nat (a + o)) m))) vl).

(** The entries of the list as it is now, around the new one at [p]. *)
Definition copy_around (b : base_inode) (new_al : list Z) (p entry_len : Z) : res (base_inode * option errno) :=
  match attr_list b with
  | None => Undef
  | Some al =>
      before ← aslice al 0 p;
      after ← aslice al p (zlen al - p);
      new_al ← awrite new_al 0 before;
      new_al ← awrite new_al (p + entry_len) after;
      Ok (set_attr_list b (take (Z.to_nat (zlen al + entry_len)) new_al), None)
  end.

(** Adds an entry for the attribute at [a] of the record of [ni]. *)
Definition ntfs_attrlist_entry_add (b : base_inode) (ni : ino_ref) (a : Z) : res (base_inode * option errno) :=
  n ← ino_of b ni;
  let m := mrec n in
  seq ← m_sequence_number m;
  let mref := MK_MREF (mft_no n) seq in
  if negb (has_list b) then Ok (b, Some ENOENT) else
  match attr_list b with
  | None => Undef
  | Some al =>
      nl ← a_name_length m a;
      let entry_len := al_entry_len nl in
      if negb (heap_grants (zlen al + entry_len)) then Ok (b, Some ENOMEM) else
      ctx ← ntfs_attr_get_search_ctx b;
      w ← wanted_for m a;
      '(b, ctx, e) ← ntfs_attr_lookup memcmp upcase upcase_len geo load b w ctx;
      place ← match e, x_entry ctx with
              | None, Some p =>
                  v1 ← al_lowest_vcn al p;
                  v2 ← a_lowest_vcn m a;
                  if v1 =? v2 then Ok (inr EEXIST) else l ← al_length al p; Ok (inl (p + l))
              | Some ENOENT, Some p => Ok (inl p)
              | Some ENOENT, None | None, None => Undef
              | Some e, _ => Ok (inr e)
              end;
      match place with
      | inr e => Ok (b, Some e)
      | inl p =>
          t ← a_type m a;
          nr ← a_non_resident m a;
          v ← (if negb (nr =? 0) then a_lowest_vcn m a else Ok 0);
          inst ← a_instance m a;
          name ← name_bytes m a;
          new_al ← put_entry (replicate (Z.to_nat (zlen al + entry_len)) 0) p t entry_len nl v mref inst name;
          match resize_list b (zlen al + entry_len) with
          | (b, Some e) => Ok (b, Some e)
          | (b, None) => copy_around b new_al p entry_len
          end
      end
  end.

(** The entries of the list as it is now, without the one at [p]. *)
Definition copy_without (b : base_inode) (p new_al_len : Z) : res (base_inode * option errno) :=
  match attr_list b with
  | None => Undef
  | Some al =>
      before ← aslice al 0 p;
      l ← al_length al p;
      after ← aslice al (p + l) (new_al_len - p);
      new_al ← awrite (replicate (Z.to_nat new_al_len) 0) 0 before;
      new_al ← awrite new_al p after;
      Ok (set_attr_list b new_al, None)
  end.

(** Removes the entry at [p]. *)
Definition ntfs_attrlist_entry_rm (b : base_inode) (p : Z) : res (base_inode * option errno) :=
  if negb (has_list b) then Ok (b, Some ENOENT) else
  match attr_list b with
  | None => Undef
  | Some al =>
      l ← al_length al p;
      let new_al_len := zlen al - l in
      if negb (heap_grants new_al_len) then Ok (b, Some ENOMEM) else
      match resize_list b new_al_len with
      | (b, Some e) => Ok (b, Some e)
      | (b, None) => copy_without b p new_al_len
      end
  end.

(** ** Moving an attribute to another record *)

Definition set_mrec (b : base_inode) (ni : ino_ref) (m : list Z) : base_inode :=
  match ni with
  | InBase => mk_base (mk_ainode (mft_no (base_ni b)) m) (extent_nis b) (has_list b) (attr_list b)
  | InExtent i => mk_base (base_ni b) (alter (fun n => mk_ainode (mft_no n) m) i (extent_nis b)) (has_list b) (attr_list b)
  end.

(** The attribute [a] of the record [from], whose entry is at [entry] of the
    list, is moved to the record [ni]: it gets the next instance there, and its
    entry the new reference and instance. *)
Definition ntfs_attr_record_move_to (b : base_inode) (from : ino_ref) (a : Z) (entry : option Z) (ni : ino_ref) : res (base_inode * option errno) :=
  if decide (from = ni) then Ok (b, None) else
  match entry, attr_list b with
  | None, _ => Ok (b, Some EINVAL)
  | Some _, None => Undef
  | Some p, Some al =>
      src ← ino_of b from;
      n ← ino_of b ni;
      let m := mrec n in
      ty ← a_type (mrec src) a;
      s ← a_name (mrec src) a;
      nl ← a_name_length (mrec src) a;
      c ← ntfs_attr_init_search_ctx m;
      '(c, e) ← ntfs_attr_find memcmp upcase upcase_len m ty (Name (take (Z.to_nat nl) s)) nl CASE_SENSITIVE None 0 c;
      match e with
      | None => Ok (b, Some EEXIST)
      | Some ENOENT =>
          l ← a_length (mrec src) a;
          match ntfs_make_room_for_attr m (ctx_attr c) l with
          | Undef => Undef
          | Err e => Ok (b, Some e)
          | Ok m =>
              bytes ← aslice (mrec src) a l;
              m ← awrite m (ctx_attr c) bytes;
              inst ← m_next_attr_instance m;
              m ← put_le 2 m (ctx_attr c + 14) inst;
              m ← put_le 2 m 40 (Z.land (inst + 1) 0xffff);
              '(from_m, _) ← ntfs_attr_record_resize (mrec src) a 0;
              seq ← m_sequence_number m;
              al ← put_le 8 al (p + 16) (MK_MREF (mft_no n) seq);
              al ← put_le 2 al (p + 24) inst;
              Ok (set_attr_list (set_mrec (set_mrec b from from_m) ni m) al, None)
          end
      | Some e => Ok (b, Some e)
      end
  end.

End entries.
