(* ===== verification/AttrListThm.v ===== *)
(** Attribute lists as lists of entries: the bytes of an entry, the fields read
    from them, adding and removing an entry. *)

From S2P Require Import Prelude Bytes Fields Unistr Collate IndexNode AttrDef AttrRec AttrFind AttrRecThm AttrList.

(** * Specification *)

Record al_ent := mk_ent { e_type : Z; e_name : list Z; e_vcn : Z; e_mref : Z; e_inst : Z }.

Record ent_ok (e : al_ent) : Prop := {
  eo_type : in_u 32 (e_type e);
  eo_name : is_name (e_name e);
  eo_len : zlen (e_name e) < 256;
  eo_vcn : in_s 64 (e_vcn e);
  eo_mref : in_u 64 (e_mref e);
  eo_inst : in_u 16 (e_inst e)
}.

Definition ent_len (e : al_ent) : Z := al_entry_len (zlen (e_name e)).

(** The bytes in front of the name. *)
Definition ent_head (e : al_ent) : list Z :=
  le_bytes 4 (e_type e) ++ le_bytes 2 (ent_len e) ++ le_bytes 1 (zlen (e_name e)) ++ le_bytes 1 al_name_ofs ++
  le_bytes 8 (e_vcn e) ++ le_bytes 8 (e_mref e) ++ le_bytes 2 (e_inst e).

Definition ent_bytes (e : al_ent) : list Z :=
  ent_head e ++ bytes_of (e_name e) ++ replicate (Z.to_nat (ent_len e - (al_name_ofs + 2 * zlen (e_name e)))) 0.

Definition list_bytes (ents : list al_ent) : list Z := concat (map ent_bytes ents).

(** * Proofs *)

Lemma bytes_of_zlen s : zlen (bytes_of s) = 2 * zlen s.
Proof. unfold zlen. rewrite bytes_of_length. lia. Qed.

Lemma ent_len_spec e : al_name_ofs + 2 * zlen (e_name e) <= ent_len e < al_name_ofs + 2 * zlen (e_name e) + 8 /\ ent_len e mod 8 = 0.
Proof. unfold ent_len, al_entry_len. pose proof (align8_spec (al_name_ofs + 2 * zlen (e_name e))). lia. Qed.

Lemma ent_head_length e : length (ent_head e) = 26%nat.
Proof. reflexivity. Qed.

Lemma ent_bytes_zlen e : zlen (ent_bytes e) = ent_len e.
Proof.
  pose proof (ent_len_spec e). unfold ent_bytes, al_name_ofs in *. rewrite !zlen_app, bytes_of_zlen. unfold zlen at 1. rewrite ent_head_length.
  unfold zlen at 2. rewrite length_replicate. lia.
Qed.

Lemma list_bytes_app a b : list_bytes (a ++ b) = list_bytes a ++ list_bytes b.
Proof. unfold list_bytes. by rewrite map_app, concat_app. Qed.

Lemma list_bytes_cons e l : list_bytes (e :: l) = ent_bytes e ++ list_bytes l.
Proof. done. Qed.

(** ** Fields of an entry *)

Section fields.
Context (pre post : list Z) (e : al_ent) (He : ent_ok e).

Lemma ent_field n k v before after : ent_head e = before ++ le_bytes n v ++ after -> length before = k -> 0 <= v < 256 ^ Z.of_nat n ->
  get_le (Z.of_nat n) (pre ++ ent_bytes e ++ post) (zlen pre + Z.of_nat k) = Ok v.
Proof.
  intros E <- Hv. unfold ent_bytes. rewrite E, <- !app_assoc. rewrite (app_assoc pre before).
  rewrite get_le_mid; [by rewrite le_le_bytes_small|rewrite zlen_app; done|apply le_bytes_zlen].
Qed.

Lemma ent_type_at : al_type (pre ++ ent_bytes e ++ post) (zlen pre) = Ok (e_type e).
Proof. rewrite <- (Z.add_0_r (zlen pre)). apply (ent_field 4 0 _ []) with (after := drop 4 (ent_head e)); [done|done|apply He]. Qed.

Lemma ent_len_range : 0 <= ent_len e < 65536.
Proof. pose proof (ent_len_spec e). pose proof (eo_len e He). pose proof (zlen_nonneg (e_name e)). unfold al_name_ofs in *. lia. Qed.

Lemma ent_length_at : al_length (pre ++ ent_bytes e ++ post) (zlen pre) = Ok (ent_len e).
Proof. apply (ent_field 2 4 _ (take 4 (ent_head e))) with (after := drop 6 (ent_head e)); [done|done|apply ent_len_range]. Qed.

Lemma ent_name_length_at : al_name_length (pre ++ ent_bytes e ++ post) (zlen pre) = Ok (zlen (e_name e)).
Proof.
  apply (ent_field 1 6 _ (take 6 (ent_head e))) with (after := drop 7 (ent_head e)); [done|done|].
  pose proof (eo_len e He). pose proof (zlen_nonneg (e_name e)). lia.
Qed.

Lemma ent_name_offset_at : al_name_offset (pre ++ ent_bytes e ++ post) (zlen pre) = Ok al_name_ofs.
Proof. apply (ent_field 1 7 _ (take 7 (ent_head e))) with (after := drop 8 (ent_head e)); done. Qed.

Lemma le_bytes_wrap n v : le_bytes n v = le_bytes n (v mod 256 ^ Z.of_nat n).
Proof.
  revert v. induction n as [|n IH]; intros v; [done|]. cbn [le_bytes]. rewrite (IH (v / 256)), (IH (_ / 256)).
  rewrite Nat2Z.inj_succ, Z.pow_succ_r by lia. pose proof (Z.pow_pos_nonneg 256 (Z.of_nat n)).
  f_equal; [|f_equal]; rewrite Z.rem_mul_r by lia; [dlia|]. rewrite (Z.mul_comm 256), Z.div_add, Z.add_comm by lia.
  rewrite (Z.div_small (v mod 256)) by dlia. rewrite Z.add_0_r. by rewrite Z.mod_mod by lia.
Qed.

Lemma ent_vcn_at : al_lowest_vcn (pre ++ ent_bytes e ++ post) (zlen pre) = Ok (e_vcn e).
Proof.
  unfold al_lowest_vcn. pose proof (eo_vcn e He) as Hv. unfold in_s in Hv.
  assert (get_le 8 (pre ++ ent_bytes e ++ post) (zlen pre + 8) = Ok (e_vcn e mod 2 ^ 64)) as ->.
  { apply (ent_field 8 8 _ (take 8 (ent_head e))) with (after := drop 16 (ent_head e)); [|done|apply Z.mod_pos_bound; done].
    unfold ent_head. rewrite (le_bytes_wrap 8 (e_vcn e)). done. }
  cbn [mbind res_bind]. f_equal. unfold wraps. change (2 ^ (64 - 1)) with (2 ^ 63) in *. dlia.
Qed.

Lemma ent_mref_at : al_mft_reference (pre ++ ent_bytes e ++ post) (zlen pre) = Ok (e_mref e).
Proof. apply (ent_field 8 16 _ (take 16 (ent_head e))) with (after := drop 24 (ent_head e)); [done|done|apply He]. Qed.

Lemma ent_inst_at : al_instance (pre ++ ent_bytes e ++ post) (zlen pre) = Ok (e_inst e).
Proof. apply (ent_field 2 24 _ (take 24 (ent_head e))) with (after := []); [done|done|apply He]. Qed.

Lemma ent_name_at : exists r, al_name (pre ++ ent_bytes e ++ post) (zlen pre) = Ok (e_name e ++ r).
Proof.
  unfold al_name. rewrite ent_name_offset_at. cbn [mbind res_bind]. eexists. f_equal.
  replace (Z.to_nat (zlen pre + al_name_ofs)) with (length pre + length (ent_head e))%nat by (rewrite ent_head_length; unfold zlen, al_name_ofs; lia).
  rewrite <- drop_drop, drop_app_length. unfold ent_bytes. rewrite <- app_assoc, drop_app_length, <- app_assoc. apply ntfschars_bytes, He.
Qed.

End fields.

(** ** Writing an entry *)

(** A write behind what is written of a cleared part. *)
Lemma write_tail d w k rest l : (length l <= k)%nat ->
  awrite (d ++ (w ++ replicate k 0) ++ rest) (zlen d + zlen w) l = Ok (d ++ ((w ++ l) ++ replicate (k - length l) 0) ++ rest).
Proof.
  intros Hl. replace k with (length l + (k - length l))%nat at 1 by lia. rewrite replicate_add.
  assert (d ++ (w ++ replicate (length l) 0 ++ replicate (k - length l) 0) ++ rest =
    (d ++ w) ++ replicate (length l) 0 ++ replicate (k - length l) 0 ++ rest) as -> by (by rewrite <- !app_assoc).
  rewrite awrite_mid; [by rewrite <- !app_assoc|by rewrite zlen_app|apply length_replicate].
Qed.

Lemma put_tail n d w k rest v p : (n <= k)%nat -> p = zlen d + zlen w ->
  put_le n (d ++ (w ++ replicate k 0) ++ rest) p v = Ok (d ++ ((w ++ le_bytes n v) ++ replicate (k - n) 0) ++ rest).
Proof. intros Hn ->. unfold put_le. rewrite write_tail by (by rewrite le_bytes_length). by rewrite le_bytes_length. Qed.

Lemma put_entry_spec d rest e : ent_ok e ->
  put_entry (d ++ replicate (Z.to_nat (ent_len e)) 0 ++ rest) (zlen d) (e_type e) (ent_len e) (zlen (e_name e)) (e_vcn e) (e_mref e) (e_inst e)
    (bytes_of (e_name e)) = Ok (d ++ ent_bytes e ++ rest).
Proof.
  intros He. pose proof (ent_len_spec e) as [Hl _]. pose proof (zlen_nonneg (e_name e)) as Hn. unfold al_name_ofs in Hl.
  unfold put_entry. change (replicate (Z.to_nat (ent_len e)) 0) with ([] ++ replicate (Z.to_nat (ent_len e)) 0).
  assert (exists k, Z.to_nat (ent_len e) = 26 + k /\ 2 * length (e_name e) <= k)%nat as (k & Ek & Hk) by (exists (Z.to_nat (ent_len e) - 26)%nat; unfold zlen in *; lia). rewrite Ek.
  repeat (rewrite put_tail; [cbn [mbind res_bind]|lia|rewrite ?zlen_app, ?le_bytes_zlen, ?zlen_nil; lia]).
  replace (zlen d + al_name_ofs) with (zlen d + zlen (ent_head e)) by done.
  match goal with |- awrite (d ++ (?w ++ _) ++ _) _ _ = _ => replace w with (ent_head e) by (unfold ent_head; rewrite app_nil_l; by rewrite <- !app_assoc) end.
  rewrite write_tail by (rewrite bytes_of_length; lia). do 2 f_equal. unfold ent_bytes. rewrite <- !app_assoc. do 3 f_equal. f_equal. rewrite bytes_of_length. unfold al_name_ofs, zlen in *. f_equal. lia.
Qed.
