(* ===== verification/AttrListFind.v ===== *)
(** The search through an attribute list, on the list of its entries and the
    records they refer to. *)

From S2P Require Import Prelude Bytes Fields Unistr Collate IndexNode AttrDef AttrRec AttrFind AttrRecThm AttrList AttrListThm.

(** * Specification *)

(** The instance number of an attribute and the vcn it begins with. *)
Definition at_instance (b : list Z) : Z := fld 2 14 b.
Definition at_lowest_vcn (b : list Z) : Z := s64 (fld 8 16 b).

(** A record: its number and the parts of its bytes. *)
Record arec := mk_arec {
  ar_no : Z;
  ar_h0 : list Z; ar_h1 : list Z; ar_inst : Z; ar_h2 : list Z;
  ar_attrs : list (list Z);
  ar_eb : list Z; ar_slack : list Z
}.

Definition ar_bytes (r : arec) : list Z := rec_of (ar_h0 r) (ar_h1 r) (ar_inst r) (ar_h2 r) (ar_attrs r) (ar_eb r) (ar_slack r).
Definition ar_ino (r : arec) : ainode := mk_ainode (ar_no r) (ar_bytes r).
Definition ar_seq (r : arec) : Z := fld 2 16 (ar_h0 r).

(** The offset of the attribute behind [a1]. *)
Definition ar_ofs (r : arec) (a1 : list (list Z)) : Z := first_ofs (ar_h2 r) + zlen (concat a1).

Record arec_ok (r : arec) : Prop := {
  ar_wf : rec_wf (ar_h0 r) (ar_h1 r) (ar_inst r) (ar_h2 r) (ar_attrs r) (ar_eb r) (ar_slack r);
  ar_no_range : 0 <= ar_no r < 2 ^ 48;
  ar_head : bytes (ar_h0 r)
}.

(** The entry is that of the attribute [x] of the record, the only one with its
    instance number. *)
Record resolves (r : arec) (e : al_ent) (a1 : list (list Z)) (x : list Z) (a2 : list (list Z)) : Prop := {
  rs_attrs : ar_attrs r = a1 ++ x :: a2;
  rs_no : MREF (e_mref e) = ar_no r;
  rs_seq : MSEQNO (e_mref e) = ar_seq r;
  rs_inst : at_instance x = e_inst e;
  rs_type : at_type x = e_type e;
  rs_name : at_name x = e_name e;
  rs_unique : Forall (fun y => at_instance y <> e_inst e) (a1 ++ a2)
}.

(** The value asked for, if any, is that of the attribute. *)
Definition value_hit (w : wanted) (x : list Z) : Prop :=
  w_type w = AT_UNUSED \/
  match w_val w with
  | None => True
  | Some v => at_non_resident x = 0 /\ at_value_length x = w_val_len w /\ at_value x = take (Z.to_nat (w_val_len w)) v
  end.

#[global] Instance value_hit_dec w x : Decision (value_hit w x).
Proof. unfold value_hit. destruct (w_val w); apply _. Defined.

Definition value_given (w : wanted) : Prop :=
  match w_val w with Some v => w_val_len w = zlen v | None => True end.

(** An entry with the record and the attribute it refers to. *)
Record rent := mk_rent {
  re_ent : al_ent;
  re_ino : ino_ref;
  re_rec : arec;
  re_before : list (list Z); re_attr : list Z; re_after : list (list Z)
}.

(** How what is wanted compares to an entry. *)
Definition ent_cmp (upcase : list Z) (w : wanted) (e : al_ent) : comparison :=
  if w_type w =? AT_UNUSED then Eq else
  match w_type w ?= e_type e with
  | Eq =>
      match w_name w with
      | AnyName => Eq
      | AtUnnamed => match e_name e with [] => Eq | _ => Lt end
      | Name n =>
          match w_ic w with
          | CASE_SENSITIVE => names_compare upcase n (e_name e)
          | IGNORE_CASE => lex (map (toup upcase) n) (map (toup upcase) (e_name e))
          end
      end
  | c => c
  end.

(** The names that the code takes for the same. *)
Definition same_name (n1 n2 : list Z) : bool := bool_decide (zlen n1 = zlen n2 /\ until0 n1 = until0 n2).

(** The next entry is of the same attribute and does not begin behind the vcn
    that is wanted. *)
Definition fits_next (w : wanted) (e : al_ent) (next : option al_ent) : bool :=
  negb (w_type w =? AT_UNUSED) && negb (w_lowest_vcn w =? 0) &&
  match next with
  | Some e' => (e_vcn e' <=? w_lowest_vcn w) && (e_type e' =? e_type e) && same_name (e_name e') (e_name e)
  | None => false
  end.

(** The search: the number of entries that are passed, and whether it ends with
    an entry that is wanted. *)
Fixpoint al_scan (upcase : list Z) (w : wanted) (rents : list rent) : nat * bool :=
  match rents with
  | [] => (0%nat, false)
  | t :: rents =>
      let '(k, found) := al_scan upcase w rents in
      match ent_cmp upcase w (re_ent t) with
      | Lt => (0%nat, false)
      | Gt => (S k, found)
      | Eq =>
          if fits_next w (re_ent t) (re_ent <$> head rents) then (S k, found) else
          if decide (value_hit w (re_attr t)) then (0%nat, true) else (S k, found)
      end
  end.

(** What may be asked for. *)
Record wanted_ok (w : wanted) : Prop := {
  wk_type : 0 <= w_type w < AT_END;
  wk_name : match w_name w with Name n => is_name n /\ w_name_len w = zlen n | _ => True end;
  wk_value : value_given w
}.

(** * Proofs *)

Section record.
Context (r : arec) (Hr : arec_ok r).

Lemma ar_attr_at a1 x a2 : ar_attrs r = a1 ++ x :: a2 ->
  exists pre post, ar_bytes r = pre ++ x ++ post /\ zlen pre = ar_ofs r a1 /\ attr_ok x.
Proof.
  intros E. destruct Hr as [Hwf _ _]. unfold ar_bytes. rewrite (rec_split _ _ _ _ _ _ _ a1 (x :: a2) E). cbn [concat]. rewrite <- app_assoc.
  eexists _, _. split; [done|]. split; [by eapply rec_pre_zlen|].
  pose proof (rw_attrs _ _ _ _ _ _ _ Hwf) as H. rewrite E in H. apply Forall_app in H as [_ H]. by apply Forall_cons_1 in H as [H _].
Qed.

Lemma ar_ofs_app a1 a2 : ar_ofs r (a1 ++ a2) = ar_ofs r a1 + zlen (concat a2).
Proof. unfold ar_ofs. rewrite concat_app, zlen_app. lia. Qed.

Lemma ar_ofs_one a1 x : ar_ofs r (a1 ++ [x]) = ar_ofs r a1 + zlen x.
Proof. rewrite ar_ofs_app. cbn [concat]. by rewrite app_nil_r. Qed.

Lemma ar_ofs_pos a1 : 0 <= ar_ofs r a1.
Proof. unfold ar_ofs, first_ofs. pose proof (zlen_nonneg (concat a1)). pose proof (zlen_nonneg (ar_h2 r)). lia. Qed.

Lemma ar_seq_at : m_sequence_number (ar_bytes r) = Ok (ar_seq r).
Proof.
  destruct Hr as [Hwf _ _]. destruct Hwf. unfold m_sequence_number, ar_bytes, rec_of, rec_head. rewrite <- !app_assoc.
  apply (fld_at 2 16 []). unfold zlen in *. lia.
Qed.

Lemma attrs_count l : Forall attr_ok l -> (length l <= length (concat l))%nat.
Proof. induction 1 as [|x l Hx _ IH]; [done|]. cbn [concat length]. rewrite length_app. pose proof (attr_length_nat x Hx). lia. Qed.

Lemma ar_count : (length (ar_attrs r) < S (length (ar_bytes r)))%nat.
Proof.
  pose proof (attrs_count (ar_attrs r) ltac:(apply Hr)). unfold ar_bytes, rec_of. rewrite !length_app. lia.
Qed.

Lemma ar_in_use : m_bytes_in_use (ar_bytes r) = Ok (rec_used (ar_h2 r) (ar_attrs r)).
Proof. apply in_use_at, Hr. Qed.

Lemma ar_used_split a1 a2 : ar_attrs r = a1 ++ a2 -> rec_used (ar_h2 r) (ar_attrs r) = ar_ofs r a1 + zlen (concat a2) + 8.
Proof. intros E. unfold rec_used, ar_ofs, first_ofs. rewrite E, concat_app, zlen_app. lia. Qed.

Lemma ar_first : m_attrs_offset (ar_bytes r) = Ok (ar_ofs r []).
Proof. unfold ar_bytes. rewrite attrs_offset_at by apply Hr. unfold ar_ofs. cbn [concat]. by rewrite zlen_nil, Z.add_0_r. Qed.

End record.

Section attr_fields.
Context (pre x post : list Z) (Hx : attr_ok x).

Lemma instance_at_attr : a_instance (pre ++ x ++ post) (zlen pre) = Ok (at_instance x).
Proof. pose proof (attr_length_nat x Hx). apply (fld_at 2 14). lia. Qed.

Lemma non_resident_at_attr : a_non_resident (pre ++ x ++ post) (zlen pre) = Ok (at_non_resident x).
Proof. pose proof (attr_length_nat x Hx). apply (fld_at 1 8). lia. Qed.

Lemma lowest_vcn_at_attr : a_lowest_vcn (pre ++ x ++ post) (zlen pre) = Ok (at_lowest_vcn x).
Proof. pose proof (attr_length_nat x Hx). unfold a_lowest_vcn. change 8 with (Z.of_nat 8). rewrite (fld_at 8 16) by lia. done. Qed.

Lemma name_at_attr : exists s, a_name (pre ++ x ++ post) (zlen pre) = Ok (at_name x ++ s).
Proof.
  unfold a_name. rewrite name_offset_at by done. cbn [mbind res_bind]. destruct (name_chars_at pre x post Hx) as [s E]. exists s. by rewrite E.
Qed.

End attr_fields.

Section search.
Context (memcmp : list Z -> list Z -> Z) (upcase : list Z) (Hmemcmp : memcmp_law memcmp) (Hup : is_name upcase).

Lemma names_equal_self n r1 r2 : is_name n -> ntfs_names_are_equal (n ++ r1) (zlen n) (n ++ r2) (zlen n) CASE_SENSITIVE upcase (zlen upcase) = Ok true.
Proof. intros Hn. destruct (names_are_equal_correct CASE_SENSITIVE upcase n r1 n r2) as (b & -> & E); [done..|]. f_equal. by apply E. Qed.

Section in_record.
Context (r : arec) (Hr : arec_ok r) (pre post : list Z) (e : al_ent) (He : ent_ok e) (w : wanted) (Hw : value_given w).
Let al := pre ++ ent_bytes e ++ post.

(** What comes before the test of the instance, at an attribute and at the end. *)
Lemma instance_step fuel attr a1 x a2 : ar_attrs r = a1 ++ x :: a2 -> at_instance x <> e_inst e ->
  instance_loop memcmp upcase (zlen upcase) (S fuel) (ar_bytes r) al (zlen pre) w attr (ar_ofs r a1) =
  instance_loop memcmp upcase (zlen upcase) fuel (ar_bytes r) al (zlen pre) w attr (ar_ofs r (a1 ++ [x])).
Proof.
  intros E Hi. cbn [instance_loop]. rewrite ar_in_use by done. cbn [mbind res_bind].
  destruct (ar_attr_at r Hr a1 x a2 E) as (p & q & Em & Ep & Hx). pose proof (ar_ofs_pos r a1) as Hp. pose proof (ao_size x Hx) as Hs. unfold resident_end in Hs.
  pose proof (ar_used_split r a1 (x :: a2) E) as Hu. cbn [concat] in Hu. rewrite zlen_app in Hu. pose proof (zlen_nonneg (concat a2)).
  rewrite ar_ofs_one, <- Ep. rewrite Em. rewrite type_at, attr_length_at, instance_at_attr by done. unfold al. rewrite ent_inst_at by done.
  unfold resident_end. zdec. cbn [mbind res_bind]. rewrite (proj2 (Z.eqb_neq _ AT_END)) by apply Hx. zdec. cbn [mbind res_bind].
  done.
Qed.

Lemma instance_end fuel attr : instance_loop memcmp upcase (zlen upcase) (S fuel) (ar_bytes r) al (zlen pre) w attr (ar_ofs r (ar_attrs r)) = Ok (NoneHere attr).
Proof.
  cbn [instance_loop]. rewrite ar_in_use by done. cbn [mbind res_bind]. pose proof (ar_ofs_pos r (ar_attrs r)) as Hp.
  pose proof (ar_used_split r (ar_attrs r) [] ltac:(by rewrite app_nil_r)) as Hu. cbn [concat] in Hu. rewrite zlen_nil in Hu. zdec.
  destruct (ar_wf r Hr). assert (a_type (ar_bytes r) (ar_ofs r (ar_attrs r)) = Ok AT_END) as ->.
  { unfold ar_bytes. rewrite (rec_split _ _ _ _ _ _ _ (ar_attrs r) [] ltac:(by rewrite app_nil_r)). cbn [concat app].
    assert (ar_ofs r (ar_attrs r) = zlen (rec_pre (ar_h0 r) (ar_h1 r) (ar_inst r) (ar_h2 r) (ar_attrs r) (ar_attrs r))) as ->
      by (symmetry; eapply rec_pre_zlen; apply Hr). by apply end_type_at. }
  done.
Qed.

Lemma instance_pass attr : forall a2 a1 a3 fuel, ar_attrs r = a1 ++ a2 ++ a3 -> Forall (fun y => at_instance y <> e_inst e) a2 ->
  instance_loop memcmp upcase (zlen upcase) (length a2 + fuel) (ar_bytes r) al (zlen pre) w attr (ar_ofs r a1) =
  instance_loop memcmp upcase (zlen upcase) fuel (ar_bytes r) al (zlen pre) w attr (ar_ofs r (a1 ++ a2)).
Proof.
  induction a2 as [|x a2 IH]; intros a1 a3 fuel E H; [by rewrite app_nil_r|]. apply Forall_cons_1 in H as [Hx H]. cbn [length Nat.add].
  rewrite (instance_step _ _ a1 x (a2 ++ a3)) by done. rewrite (IH (a1 ++ [x]) a3) by (rewrite <- ?app_assoc; done). by rewrite <- app_assoc.
Qed.

(** The test of the value. *)
Lemma value_test x p q : attr_ok x ->
  (if w_type w =? AT_UNUSED then Ok true else
   match w_val w with
   | None => Ok true
   | Some v =>
       nr ← a_non_resident (p ++ x ++ q) (zlen p);
       if negb (nr =? 0) then Ok false else
       vl ← a_value_length (p ++ x ++ q) (zlen p);
       if negb (vl =? w_val_len w) then Ok false else
       o ← a_value_offset (p ++ x ++ q) (zlen p);
       v1 ← aslice (p ++ x ++ q) (zlen p + o) (w_val_len w);
       v2 ← aslice v 0 (w_val_len w);
       Ok (memcmp v1 v2 =? 0)
   end) = Ok (bool_decide (value_hit w x)).
Proof.
  intros Hx. destruct (Z.eqb_spec (w_type w) AT_UNUSED) as [Eu|Eu]; [rewrite bool_decide_eq_true_2; [done|by left]|].
  unfold value_given in Hw. destruct (w_val w) as [v|] eqn:Ev; [|rewrite bool_decide_eq_true_2; [done|right; by rewrite Ev]].
  rewrite non_resident_at_attr by done. cbn [mbind res_bind]. destruct (Z.eqb_spec (at_non_resident x) 0) as [En|En]; cbn [negb].
  2:{ rewrite bool_decide_eq_false_2; [done|]. intros [?|H]; [done|]. rewrite Ev in H. by destruct H. }
  rewrite value_length_at by done. cbn [mbind res_bind]. destruct (Z.eqb_spec (at_value_length x) (w_val_len w)) as [El|El]; cbn [negb].
  2:{ rewrite bool_decide_eq_false_2; [done|]. intros [?|H]; [done|]. rewrite Ev in H. by destruct H as (_ & ? & _). }
  rewrite value_offset_at by done. cbn [mbind res_bind]. pose proof (ao_value x Hx En) as Hin. pose proof (value_offset_range x Hx). pose proof (value_length_range x Hx).
  assert (aslice (p ++ x ++ q) (zlen p + at_value_offset x) (w_val_len w) = Ok (at_value x)) as ->.
  { unfold aslice. rewrite !zlen_app. pose proof (zlen_nonneg p). pose proof (zlen_nonneg q). zdec. cbn [orb]. f_equal. unfold at_value. rewrite El.
    rewrite drop_app_ge by (unfold zlen; lia). replace (Z.to_nat (zlen p + at_value_offset x) - length p)%nat with (Z.to_nat (at_value_offset x)) by (unfold zlen; lia).
    rewrite drop_app_le by (unfold zlen in Hin; lia). rewrite take_app_le by (rewrite length_drop; unfold zlen in *; lia). done. }
  assert (aslice v 0 (w_val_len w) = Ok (take (Z.to_nat (w_val_len w)) v)) as -> by (unfold aslice; zdec; done).
  cbn [mbind res_bind]. f_equal. apply eq_true_iff_eq. rewrite Z.eqb_eq, bool_decide_eq_true.
  set (v' := take (Z.to_nat (w_val_len w)) v).
  assert (zlen (at_value x) = zlen v') as Ez by (unfold v', at_value, zlen in *; rewrite !length_take, length_drop; lia).
  pose proof (Hmemcmp (at_value x) v' Ez) as Hm. split.
  - intros E0. right. rewrite Ev. split; [done|]. split; [done|]. apply lex_eq. fold v'. rewrite E0 in Hm. destruct (lex (at_value x) v'); [done|cbn in Hm; lia..].
  - intros [?|Hh]; [done|]. rewrite Ev in Hh. destruct Hh as (_ & _ & E). fold v' in E. rewrite E, lex_refl in Hm; rewrite E. cbn in Hm. lia.
Qed.

(** The attribute of the entry is found, or its value is not the one asked
    for. *)
Lemma instance_loop_spec fuel attr a1 x a2 : resolves r e a1 x a2 -> (length (ar_attrs r) < fuel)%nat ->
  exists attr', instance_loop memcmp upcase (zlen upcase) fuel (ar_bytes r) al (zlen pre) w attr (ar_ofs r []) =
    Ok (if decide (value_hit w x) then Found (ar_ofs r a1) else NoneHere attr').
Proof.
  intros [E Hno Hseq Hi Ht Hn Hu] Hf. apply Forall_app in Hu as [Hu1 Hu2]. rewrite E, length_app in Hf. cbn [length] in Hf.
  replace fuel with (length a1 + (S (fuel - length a1 - 1)))%nat by lia. rewrite (instance_pass attr a1 [] (x :: a2)) by done. cbn [app].
  set (f2 := (fuel - length a1 - 1)%nat). cbn [instance_loop]. rewrite ar_in_use by done. cbn [mbind res_bind].
  destruct (ar_attr_at r Hr a1 x a2 E) as (p & q & Em & Ep & Hx). pose proof (ar_ofs_pos r a1) as Hp. pose proof (ao_size x Hx) as Hs. unfold resident_end in Hs.
  pose proof (ar_used_split r a1 (x :: a2) E) as Hus. cbn [concat] in Hus. rewrite zlen_app in Hus. pose proof (zlen_nonneg (concat a2)).
  assert (forall attr, instance_loop memcmp upcase (zlen upcase) f2 (ar_bytes r) al (zlen pre) w attr (ar_ofs r (a1 ++ [x])) = Ok (NoneHere attr)) as Hrest.
  { intros attr'. replace f2 with (length a2 + S (f2 - length a2 - 1))%nat by lia. rewrite (instance_pass attr' a2 (a1 ++ [x]) []) by (rewrite ?app_nil_r, <- ?app_assoc; done).
    assert ((a1 ++ [x]) ++ a2 = ar_attrs r) as -> by (by rewrite E, <- app_assoc). apply instance_end. }
  rewrite ar_ofs_one in Hrest. rewrite <- Ep in Hrest |- *. rewrite Em in Hrest |- *.
  destruct (name_at_attr p x q Hx) as [s1 Es1]. destruct (ent_name_at pre post e He) as [s2 Es2].
  rewrite type_at, attr_length_at, instance_at_attr, name_length_at, Es1 by done. unfold al in *. rewrite ent_inst_at, ent_type_at, ent_name_length_at, Es2 by done.
  unfold resident_end. zdec. cbn [mbind res_bind]. rewrite (proj2 (Z.eqb_neq _ AT_END)) by apply Hx. zdec. cbn [mbind res_bind]. rewrite ?Hi, ?Ht, ?Z.eqb_refl. cbn [negb].
  rewrite <- (at_name_zlen x Hx), <- Hn, names_equal_self by by apply at_name_is_name. cbn [mbind res_bind negb].
  rewrite value_test by done. cbn [mbind res_bind]. case_bool_decide as Hv; destruct (decide (value_hit w x)) as [?|?]; try done.
  exists (zlen p). by rewrite Hrest.
Qed.

End in_record.

(** ** The records of an inode *)

(** The base inode with its extents. *)
Definition inode_of (base : arec) (exts : list arec) (al : option (list Z)) : base_inode :=
  mk_base (ar_ino base) (map ar_ino exts) true al.

Record records_ok (base : arec) (exts : list arec) : Prop := {
  ro_base : arec_ok base;
  ro_exts : Forall arec_ok exts;
  ro_distinct : NoDup (map ar_no (base :: exts));
  ro_not_mft : ar_no base <> 0
}.

(** The record at a place. *)
Definition rec_at (base : arec) (exts : list arec) (ni : ino_ref) : option arec :=
  match ni with InBase => Some base | InExtent i => exts !! i end.

Section inode.
Context (geo : mft_geometry) (Hmft : mft_na geo = true) (load : Z -> option ainode).
Context (base : arec) (exts : list arec) (Hrecs : records_ok base exts) (al : option (list Z)).
Let b := inode_of base exts al.

Lemma ino_at ni r : rec_at base exts ni = Some r -> ino_of b ni = Ok (ar_ino r).
Proof.
  destruct ni as [|i]; cbn [rec_at ino_of]; [by intros [= ->]|]. intros E. unfold b, inode_of. cbn [extent_nis].
  change (map ar_ino exts) with (ar_ino <$> exts). by rewrite list_lookup_fmap, E.
Qed.

Lemma rec_at_ok ni r : rec_at base exts ni = Some r -> arec_ok r.
Proof. destruct Hrecs. destruct ni as [|i]; cbn; [by intros [= <-]|]. intros E. exact (Forall_lookup_1 _ _ _ _ ro_exts0 E). Qed.

Lemma find_extent_spec no : forall l k i r, NoDup (map ar_no l) -> l !! i = Some r -> ar_no r = no -> find_extent (map ar_ino l) no k = Some (k + i)%nat.
Proof.
  induction l as [|x l IH]; intros k i r Hnd Hl En; [done|]. cbn [map] in Hnd. apply list.NoDup_cons in Hnd as [Hx Hnd]. cbn [map find_extent ar_ino mft_no].
  destruct i as [|i]; cbn in Hl.
  - injection Hl as ->. rewrite En, Z.eqb_refl. f_equal. lia.
  - destruct (Z.eqb_spec no (ar_no x)) as [E|_]; [|rewrite (IH (S k) i r) by done; f_equal; lia].
    exfalso. apply Hx. apply list_elem_of_fmap. exists r. split; [congruence|]. by eapply list_elem_of_lookup_2.
Qed.

(** An entry with the right sequence number leads to its record. *)
Lemma entry_record_spec ni ri n r mref : rec_at base exts ni = Some n -> rec_at base exts ri = Some r -> MREF mref = ar_no r -> MSEQNO mref = ar_seq r ->
  entry_record geo load b ni mref = Ok (InRecord b ri).
Proof.
  intros Hn Hr Em Es. unfold entry_record. rewrite (ino_at _ _ Hn). cbn [mbind res_bind ar_ino mft_no mrec]. rewrite Em.
  destruct Hrecs as [Hb Hx Hd H0]. cbn [map] in Hd. pose proof Hd as Hd'. apply list.NoDup_cons in Hd as [Hnb Hd].
  assert (forall i n, exts !! i = Some n -> ar_no n <> ar_no base) as Hne.
  { intros i m Hi E. apply Hnb. rewrite <- E. apply list_elem_of_fmap. exists m. split; [done|]. by eapply list_elem_of_lookup_2. }
  destruct (Z.eqb_spec (ar_no r) (ar_no n)) as [E|E].
  - assert (ni = ri) as ->.
    { destruct ni as [|i], ri as [|j]; cbn [rec_at] in *; [done|injection Hn as <-; by apply Hne in Hr|injection Hr as <-; by symmetry in E; apply Hne in Hn|].
      f_equal. eapply (NoDup_lookup (map ar_no exts)); [done| |]; change (map ar_no exts) with (ar_no <$> exts); rewrite list_lookup_fmap, ?Hn, ?Hr; [done|].
      cbn. by rewrite E. }
    assert (r = n) as -> by congruence. rewrite ar_seq_at by (by eapply rec_at_ok). cbn [mbind res_bind]. by rewrite Es, Z.eqb_refl.
  - change (mft_no (base_ni b)) with (ar_no base). destruct ri as [|j]; cbn [rec_at] in Hr.
    + injection Hr as ->. by rewrite Z.eqb_refl.
    + rewrite (proj2 (Z.eqb_neq (ar_no r) (ar_no base))), Hmft by (by eapply Hne). cbn [negb]. unfold ntfs_extent_inode_open.
      change (mft_no (base_ni b)) with (ar_no base). rewrite (proj2 (Z.eqb_neq (ar_no base) 0)) by done. cbn [mbind res_bind].
      rewrite Em. change (extent_nis b) with (map ar_ino exts). by rewrite (find_extent_spec (ar_no r) exts 0 j r).
Qed.

(** ** The entries of a list *)

Definition rent_ok (t : rent) : Prop :=
  ent_ok (re_ent t) /\ rec_at base exts (re_ino t) = Some (re_rec t) /\ resolves (re_rec t) (re_ent t) (re_before t) (re_attr t) (re_after t).

Section entry.
Context (pre : list Z) (e : al_ent) (post : list Z) (He : ent_ok e) (w : wanted) (Hw : wanted_ok w).

Lemma entry_inside : entry_outside (pre ++ ent_bytes e ++ post) (zlen pre) = Ok false.
Proof.
  pose proof (ent_len_spec e) as [Hl Hal]. pose proof (zlen_nonneg pre). pose proof (zlen_nonneg post). pose proof (zlen_nonneg (e_name e)).
  unfold entry_outside. rewrite !zlen_app, ent_bytes_zlen. unfold al_name_ofs, al_name_length_ofs in *. zdec.
  rewrite ent_length_at by done. cbn [mbind res_bind]. zdec. change 7 with (Z.ones 3). rewrite Z.land_ones by lia. change (2 ^ 3) with 8. rewrite Hal. cbn [Z.eqb negb]. zdec.
  rewrite ent_name_length_at by done. cbn [mbind res_bind]. destruct (zlen (e_name e) =? 0); [done|].
  rewrite ent_name_offset_at by done. cbn [mbind res_bind]. unfold al_name_ofs. f_equal. apply Z.ltb_ge. lia.
Qed.

(** The first entry of what follows. *)
Lemma next_fits_spec rest : post = list_bytes rest -> Forall ent_ok rest -> w_type w <> AT_UNUSED ->
  next_fits upcase (zlen upcase) (pre ++ ent_bytes e ++ post) w (zlen pre) (zlen pre + ent_len e) = Ok (fits_next w e (head rest)).
Proof.
  intros Ep Hrest Ht. unfold next_fits, fits_next. rewrite (proj2 (Z.eqb_neq (w_type w) AT_UNUSED)) by done. cbn [negb andb].
  destruct (Z.eqb_spec (w_lowest_vcn w) 0) as [|Hv]; [done|]. cbn [negb andb]. rewrite !zlen_app, ent_bytes_zlen.
  destruct rest as [|e' rest]; [rewrite Ep; change (zlen (list_bytes [])) with 0; by zdec|]. apply Forall_cons_1 in Hrest as [He' _]. cbn [head].
  rewrite list_bytes_cons in Ep. pose proof (ent_len_spec e') as [Hl' _]. pose proof (zlen_nonneg (list_bytes rest)). pose proof (zlen_nonneg (e_name e')). unfold al_name_ofs in Hl'.
  rewrite Ep, zlen_app, ent_bytes_zlen. zdec.
  assert (pre ++ ent_bytes e ++ ent_bytes e' ++ list_bytes rest = (pre ++ ent_bytes e) ++ ent_bytes e' ++ list_bytes rest) as E by by rewrite <- app_assoc.
  assert (zlen pre + ent_len e = zlen (pre ++ ent_bytes e)) as En by (by rewrite zlen_app, ent_bytes_zlen). rewrite En.
  destruct (ent_name_at (pre ++ ent_bytes e) (list_bytes rest) e' He') as [r1 E1]. destruct (ent_name_at pre (ent_bytes e' ++ list_bytes rest) e He) as [r2 E2].
  rewrite ent_type_at, ent_name_length_at, E2 by done. rewrite E, ent_length_at, ent_vcn_at, ent_type_at, ent_name_length_at, E1 by done.
  cbn [mbind res_bind]. zdec. destruct (Z.ltb_spec (w_lowest_vcn w) (e_vcn e')); [by zdec|]. zdec.
  destruct (e_type e' =? e_type e); [|done]. cbn [negb andb].
  assert (zlen (e_name e') <> zlen (e_name e) -> same_name (e_name e') (e_name e) = false) as Hs by (intros; apply bool_decide_eq_false; tauto).
  destruct (Z.eqb_spec (zlen (e_name e')) (zlen (e_name e))) as [El|El]; cbn [negb]; [|by rewrite Hs].
  destruct (names_are_equal_correct CASE_SENSITIVE upcase (e_name e') r1 (e_name e) r2 Hup (eo_name _ He') (eo_name _ He)) as (c & -> & Hc).
  f_equal. apply eq_true_iff_eq. rewrite Hc. unfold same_name. by rewrite bool_decide_eq_true.
Qed.

(** The verdict on an entry. *)
Lemma entry_verdict_spec rest : post = list_bytes rest -> Forall ent_ok rest ->
  entry_verdict_of upcase (zlen upcase) (pre ++ ent_bytes e ++ post) w (zlen pre) (zlen pre + ent_len e) =
  Ok (match ent_cmp upcase w e with
      | Lt => NotFound
      | Gt => NextEntry
      | Eq => if fits_next w e (head rest) then NextEntry else Take
      end).
Proof.
  intros Ep Hrest. destruct Hw as [Ht Hn _]. unfold entry_verdict_of, ent_cmp.
  destruct (Z.eqb_spec (w_type w) AT_UNUSED) as [E|Hnz]; [unfold fits_next; by rewrite (proj2 (Z.eqb_eq _ _) E)|].
  rewrite ent_type_at by done. cbn [mbind res_bind]. destruct (Z.compare_spec (w_type w) (e_type e)) as [E|E|E]; [|by zdec|by zdec].
  rewrite E, Z.ltb_irrefl, Z.eqb_refl. cbn [negb]. rewrite ent_name_length_at by done. cbn [mbind res_bind].
  pose proof (next_fits_spec rest Ep Hrest Hnz) as Hfit. destruct (ent_name_at pre post e He) as [r Er].
  destruct (w_name w) as [| |n].
  - cbn [mbind res_bind]. rewrite Hfit. cbn [mbind res_bind]. by destruct (fits_next _ _ _).
  - cbn [mbind res_bind]. destruct (e_name e) as [|c l] eqn:El.
    + cbn [Z.eqb]. change (zlen [] =? 0) with true. cbn iota. rewrite Hfit. cbn [mbind res_bind]. by destruct (fits_next _ _ _).
    + rewrite zlen_cons. pose proof (zlen_nonneg l). by zdec.
  - destruct Hn as [Hn ->]. rewrite Er. cbn [mbind res_bind]. pose proof (eo_name e He) as Hne.
    pose proof (names_full_collate_correct (w_ic w) upcase n [] (e_name e) r Hn Hne) as Ec. rewrite app_nil_r in Ec. rewrite Ec. clear Ec. cbn [mbind res_bind].
    destruct (match w_ic w with CASE_SENSITIVE => _ | IGNORE_CASE => _ end); cbn [sgn Z.eqb Z.ltb]; [|done|done].
    rewrite Hfit. cbn [mbind res_bind]. by destruct (fits_next _ _ _).
Qed.

End entry.

(** The offset of an entry. *)
Definition ents_of (rents : list rent) : list al_ent := map re_ent rents.
Definition ent_ofs (rents : list rent) : Z := zlen (list_bytes (ents_of rents)).

Lemma ents_of_app l1 l2 : ents_of (l1 ++ l2) = ents_of l1 ++ ents_of l2.
Proof. apply map_app. Qed.

Lemma ent_ofs_one l t : ent_ofs (l ++ [t]) = ent_ofs l + ent_len (re_ent t).
Proof. unfold ent_ofs. rewrite ents_of_app, list_bytes_app, zlen_app. cbn [ents_of map]. rewrite list_bytes_cons, zlen_app, ent_bytes_zlen. change (zlen (list_bytes [])) with 0. lia. Qed.

Lemma rents_ents_ok l : Forall rent_ok l -> Forall ent_ok (ents_of l).
Proof. induction 1 as [|t l Ht _ IH]; [constructor|]. constructor; [apply Ht|done]. Qed.

Lemma al_loop_spec w (Hw : wanted_ok w) bytes_ : forall rest fuel passed ni n attr entry, bytes_ = list_bytes (ents_of (passed ++ rest)) -> Forall rent_ok rest ->
  rec_at base exts ni = Some n -> (length rest < fuel)%nat ->
  let '(k, found) := al_scan upcase w rest in
  exists ni' attr', al_loop memcmp upcase (zlen upcase) geo load fuel b bytes_ w ni attr entry (ent_ofs passed) =
    Ok (b, ni', attr', ent_ofs (passed ++ take k rest), if found then AlFound else AlNotFound) /\
    (found = true -> exists t, rest !! k = Some t /\ ni' = re_ino t /\ attr' = ar_ofs (re_rec t) (re_before t)) /\
    (k <= length rest)%nat.
Proof.
  induction rest as [|t rest IH]; intros fuel passed ni n attr entry Eb Hok Hn Hf; (destruct fuel as [|fuel]; [cbn in Hf; lia|]); cbn [al_scan al_loop].
  - assert (zlen bytes_ = ent_ofs passed) as Ez by (rewrite Eb, app_nil_r; done). pose proof (zlen_nonneg bytes_). rewrite Ez. zdec.
    exists ni, attr. cbn [take]. rewrite app_nil_r. split; [done|]. split; [done|]. cbn. lia.
  - apply Forall_cons_1 in Hok as [(He & Hri & Hres) Hok]. set (e := re_ent t) in *.
    assert (bytes_ = list_bytes (ents_of passed) ++ ent_bytes e ++ list_bytes (ents_of rest)) as Eb' by (by rewrite Eb, ents_of_app, list_bytes_app).
    pose proof (entry_inside (list_bytes (ents_of passed)) e (list_bytes (ents_of rest)) He) as Hin. rewrite <- Eb' in Hin. fold (ent_ofs passed) in Hin.
    pose proof (entry_verdict_spec (list_bytes (ents_of passed)) e (list_bytes (ents_of rest)) He w Hw (ents_of rest) eq_refl (rents_ents_ok _ Hok)) as Hv.
    rewrite <- Eb' in Hv. fold (ent_ofs passed) in Hv.
    assert (al_length bytes_ (ent_ofs passed) = Ok (ent_len e)) as Hl by (rewrite Eb'; by apply ent_length_at).
    pose proof (ent_len_spec e) as [Hlen _]. pose proof (zlen_nonneg (e_name e)). pose proof (zlen_nonneg (list_bytes (ents_of passed))) as Hp0. fold (ent_ofs passed) in Hp0.
    pose proof (zlen_nonneg (list_bytes (ents_of rest))).
    assert (ent_ofs passed + ent_len e <= zlen bytes_) as Hz by (rewrite Eb', !zlen_app, ent_bytes_zlen; unfold ent_ofs; lia). unfold al_name_ofs in Hlen. zdec.
    rewrite Hin, Hl. cbn [mbind res_bind]. rewrite Hv. cbn [mbind res_bind]. clear Hv Hin.
    assert (forall ni attr entry n, rec_at base exts ni = Some n -> let '(k, found) := al_scan upcase w rest in
      exists ni' attr', al_loop memcmp upcase (zlen upcase) geo load fuel b bytes_ w ni attr entry (ent_ofs passed + ent_len e) =
        Ok (b, ni', attr', ent_ofs (passed ++ take (S k) (t :: rest)), if found then AlFound else AlNotFound) /\
        (found = true -> exists t', (t :: rest) !! S k = Some t' /\ ni' = re_ino t' /\ attr' = ar_ofs (re_rec t') (re_before t')) /\
        (S k <= length (t :: rest))%nat) as Hnext.
    { intros ni' attr' entry' n' Hn'. specialize (IH fuel (passed ++ [t]) ni' n' attr' entry'). rewrite ent_ofs_one in IH. fold e in IH.
      destruct (al_scan upcase w rest) as [k found]. destruct IH as (ni1 & attr1 & -> & Ht & Hk); [by rewrite <- app_assoc|done|done|cbn in Hf; lia|].
      exists ni1, attr1. rewrite <- app_assoc. split; [done|]. split; [done|]. cbn. lia. }
    destruct (al_scan upcase w rest) as [k found] eqn:Esc. assert (re_ent <$> head rest = head (ents_of rest)) as -> by by destruct rest.
    destruct (ent_cmp upcase w e).
    + destruct (fits_next w e (head (ents_of rest))); [exact (Hnext ni attr _ n Hn)|].
      assert (al_mft_reference bytes_ (ent_ofs passed) = Ok (e_mref e)) as -> by (rewrite Eb'; by apply ent_mref_at). cbn [mbind res_bind].
      rewrite (entry_record_spec ni (re_ino t) n (re_rec t) (e_mref e) Hn Hri) by (destruct Hres; done). cbn [mbind res_bind].
      rewrite (ino_at _ _ Hri). cbn [mbind res_bind ar_ino mrec]. pose proof (rec_at_ok _ _ Hri) as Hrok. rewrite ar_first by done. cbn [mbind res_bind].
      destruct (instance_loop_spec (re_rec t) Hrok (list_bytes (ents_of passed)) (list_bytes (ents_of rest)) e He w (wk_value w Hw)
        (S (length (ar_bytes (re_rec t)))) (ar_ofs (re_rec t) []) (re_before t) (re_attr t) (re_after t) Hres) as (attr1 & E).
      { by apply ar_count. }
      rewrite <- Eb' in E. fold (ent_ofs passed) in E. rewrite E. cbn [mbind res_bind]. clear E. destruct (decide (value_hit w (re_attr t))) as [Hhit|Hhit].
      * eexists _, _. cbn [take]. rewrite app_nil_r. split; [done|]. split; [|cbn; lia]. intros _. exists t. done.
      * exact (Hnext (re_ino t) attr1 _ (re_rec t) Hri).
    + exists ni, attr. cbn [take]. rewrite app_nil_r. split; [done|]. split; [done|]. lia.
    + exact (Hnext ni attr _ n Hn).
Qed.

(** ** The end of a search without success *)

Lemma scan_cases cmp l : forall o, snd (scan cmp o l) = Some ENOENT \/
  exists l1 x l2, l = l1 ++ x :: l2 /\ scan cmp o l = (o + zlen (concat l1), None).
Proof.
  induction l as [|x l IH]; intros o; [by left|]. cbn [scan]. destruct (cmp x).
  - right. exists [], x, l. split; [done|]. cbn [concat]. by rewrite zlen_nil, Z.add_0_r.
  - by left.
  - destruct (IH (o + zlen x)) as [|(l1 & y & l2 & -> & E)]; [by left|]. right. exists (x :: l1), y, l2. split; [done|].
    rewrite E. cbn [concat]. by rewrite zlen_app, Z.add_assoc.
Qed.

(** What may be asked of the base record. *)
Definition base_want (w : wanted) (attrs : list (list Z)) : Prop := want_ok (w_type w) (w_name w) (w_name_len w) (w_val w) (w_val_len w) attrs.

Lemma base_want_tail w a1 a2 : base_want w (a1 ++ a2) -> base_want w a2.
Proof. intros [Ht Hn Hv]. split; [done|done|]. destruct (w_val w); [|done]. destruct Hv as [? Hv]. split; [done|]. by apply Forall_app in Hv as [_ Hv]. Qed.

Lemma find_to_end_tail r w : arec_ok r -> forall fuel a1 x a2, ar_attrs r = a1 ++ x :: a2 -> base_want w a2 -> (length a2 < fuel)%nat ->
  exists c, find_to_end memcmp upcase (zlen upcase) fuel (ar_bytes r) w (mk_ctx (ar_ofs r a1) false) = Ok (c, ENOENT).
Proof.
  intros Hr. induction fuel as [|fuel IH]; intros a1 x a2 E Hb Hf; [lia|]. cbn [find_to_end].
  pose proof (find_next_spec _ _ _ _ _ _ _ (ar_wf r Hr) memcmp upcase (w_type w) (w_name w) (w_name_len w) (w_ic w) (w_val w) (w_val_len w) Hmemcmp a1 x a2 E Hb) as En.
  fold (ar_bytes r) (ar_ofs r a1) in En. rewrite En.
  cbn [mbind res_bind]. destruct (scan_cases (want_cmp upcase (w_type w) (w_name w) (w_ic w) (w_val w)) a2 (first_ofs (ar_h2 r) + zlen (concat (a1 ++ [x])))) as [Es|(l1 & y & l2 & El & Es)].
  - destruct (scan _ _ _) as [o e']. cbn [snd] in Es. subst e'. by eexists.
  - rewrite Es. fold (ar_ofs r (a1 ++ [x])). rewrite <- ar_ofs_app. apply (IH _ y l2).
    + rewrite E, El. by rewrite <- !app_assoc.
    + apply (base_want_tail w (l1 ++ [y])). rewrite <- app_assoc. cbn [app]. by rewrite <- El.
    + rewrite El, length_app in Hf. cbn [length] in Hf. lia.
Qed.

Lemma find_to_end_spec r w : arec_ok r -> base_want w (ar_attrs r) ->
  exists c, find_to_end memcmp upcase (zlen upcase) (S (length (ar_bytes r))) (ar_bytes r) w (mk_ctx (ar_ofs r []) true) = Ok (c, ENOENT).
Proof.
  intros Hr Hb. cbn [find_to_end].
  pose proof (find_spec _ _ _ _ _ _ _ (ar_wf r Hr) memcmp upcase (w_type w) (w_name w) (w_name_len w) (w_ic w) (w_val w) (w_val_len w) Hmemcmp Hb) as E.
  unfold ntfs_attr_init_search_ctx in E. fold (ar_bytes r) in E. rewrite (ar_first r Hr) in E. cbn [mbind res_bind] in E. rewrite E. cbn [mbind res_bind].
  destruct (scan_cases (want_cmp upcase (w_type w) (w_name w) (w_ic w) (w_val w)) (ar_attrs r) (first_ofs (ar_h2 r))) as [Es|(l1 & y & l2 & El & Es)].
  - destruct (scan _ _ _) as [o e']. cbn [snd] in Es. subst e'. by eexists.
  - rewrite Es. fold (ar_ofs r l1). apply (find_to_end_tail r w Hr _ l1 y l2 El).
    + apply (base_want_tail w (l1 ++ [y])). rewrite <- app_assoc. cbn [app]. by rewrite <- El.
    + pose proof (ar_count r Hr). rewrite El, length_app in H. cbn [length] in H. lia.
Qed.

End inode.

(** ** Searches from the beginning *)

Lemma list_bytes_count ents : Forall ent_ok ents -> (length ents <= length (list_bytes ents))%nat.
Proof.
  induction 1 as [|e l He _ IH]; [done|]. rewrite list_bytes_cons, length_app. cbn [length]. pose proof (ent_bytes_zlen e). pose proof (ent_len_spec e).
  pose proof (zlen_nonneg (e_name e)). unfold al_name_ofs, zlen in *. lia.
Qed.

Lemma al_lookup_spec geo (Hmft : mft_na geo = true) load base exts rents w : records_ok base exts -> Forall (rent_ok base exts) rents -> wanted_ok w ->
  w_type w <> AT_UNUSED -> w_type w <> AT_ATTRIBUTE_LIST -> base_want w (ar_attrs base) ->
  let b := inode_of base exts (Some (list_bytes (ents_of rents))) in
  let '(k, found) := al_scan upcase w rents in
  exists ctx, (ctx ← ntfs_attr_get_search_ctx b; ntfs_attr_lookup memcmp upcase (zlen upcase) geo load b w ctx) =
      Ok (b, ctx, if found then None else Some ENOENT) /\
    x_entry ctx = Some (ent_ofs (take k rents)) /\ (k <= length rents)%nat /\
    (found = true -> exists t, rents !! k = Some t /\ x_ino ctx = re_ino t /\ x_attr ctx = ar_ofs (re_rec t) (re_before t)).
Proof.
  intros Hrecs Hok Hw Hnz Hnl Hbw b. pose proof (ro_base _ _ Hrecs) as Hbase.
  pose proof (al_loop_spec geo Hmft load base exts Hrecs (Some (list_bytes (ents_of rents))) w Hw (list_bytes (ents_of rents)) rents
    (S (S (length (list_bytes (ents_of rents))))) [] InBase base (ar_ofs base []) 0 eq_refl Hok eq_refl) as L.
  unfold ntfs_attr_get_search_ctx. change (mrec (base_ni b)) with (ar_bytes base). rewrite ar_first by done. cbn [mbind res_bind].
  unfold ntfs_attr_lookup. rewrite (proj2 (Z.eqb_neq (w_type w) AT_ATTRIBUTE_LIST)) by done. cbn [has_list b inode_of negb orb].
  unfold ntfs_external_attr_find. cbn [x_ino x_attr x_entry x_first]. pose proof (wk_type w Hw) as Ht. rewrite (proj2 (Z.eqb_neq (w_type w) AT_END)) by lia.
  change (attr_list b) with (Some (list_bytes (ents_of rents))). cbn iota. unfold first_entry. cbn [x_first x_entry default]. rewrite (proj2 (Z.eqb_neq (w_type w) AT_UNUSED)) by done. cbn [andb mbind res_bind].
  destruct (al_scan upcase w rents) as [k found]. destruct L as (ni' & attr' & E & Hfound & Hk).
  { pose proof (list_bytes_count (ents_of rents) (rents_ents_ok _ _ _ Hok)). unfold ents_of in H at 1. rewrite length_map in H. lia. }
  change (ent_ofs []) with 0 in E. fold b in E |- *. rewrite E. cbn [mbind res_bind app]. destruct found.
  - eexists. split; [done|]. split; [done|]. split; [done|]. intros _. exact (Hfound eq_refl).
  - unfold al_not_found. change (mrec (base_ni b)) with (ar_bytes base). rewrite ar_first by done. cbn [mbind res_bind].
    rewrite (proj2 (Z.eqb_neq (w_type w) AT_UNUSED)), (proj2 (Z.eqb_neq (w_type w) AT_END)) by (done || lia). cbn [orb].
    destruct (find_to_end_spec base w Hbase Hbw) as (c & ->). cbn [mbind res_bind]. eexists. split; [done|]. split; [done|]. split; [done|]. discriminate.
Qed.
End search.
