(* ===== verification/AttrListLookup.v ===== *)
(** What a search through an attribute list finds: the general result, and the
    extent that holds a vcn when the list is sorted. *)

From stdpp Require Import sorting.
From S2P Require Import Prelude Bytes Fields Unistr Collate IndexNode AttrDef AttrRec AttrFind AttrRecThm AttrList AttrListThm AttrListFind.

(** * Specification *)

(** The order of attributes: by type, then by name. *)
Definition attr_cmp (upcase : list Z) (t1 : Z) (n1 : list Z) (t2 : Z) (n2 : list Z) : comparison :=
  match t1 ?= t2 with Eq => names_compare upcase n1 n2 | c => c end.

(** The order of entries: by attribute, then by vcn. *)
Definition ent_le (upcase : list Z) (e1 e2 : al_ent) : Prop :=
  match attr_cmp upcase (e_type e1) (e_name e1) (e_type e2) (e_name e2) with
  | Lt => True
  | Eq => e_vcn e1 <= e_vcn e2
  | Gt => False
  end.

(** The name of an attribute that is asked for with its exact name. *)
Definition wanted_name (w : wanted) : option (list Z) :=
  match w_name w, w_ic w with
  | AtUnnamed, _ => Some []
  | Name n, CASE_SENSITIVE => Some n
  | _, _ => None
  end.

(** * Proofs *)

Section order.
Context (upcase : list Z).

Lemma attr_cmp_eq t1 n1 t2 n2 : attr_cmp upcase t1 n1 t2 n2 = Eq <-> t1 = t2 /\ n1 = n2.
Proof.
  unfold attr_cmp. destruct (Z.compare_spec t1 t2) as [->|H|H].
  - split; [intros ->%names_compare_eq; done|]. intros [_ ->]. apply names_compare_refl.
  - split; [done|lia].
  - split; [done|lia].
Qed.

Lemma attr_cmp_refl t n : attr_cmp upcase t n t n = Eq.
Proof. by apply attr_cmp_eq. Qed.

Lemma attr_cmp_antisym t1 n1 t2 n2 : attr_cmp upcase t2 n2 t1 n1 = CompOpp (attr_cmp upcase t1 n1 t2 n2).
Proof. unfold attr_cmp. rewrite Z.compare_antisym. destruct (t1 ?= t2); cbn [CompOpp]; [apply names_compare_antisym|done|done]. Qed.

Lemma attr_cmp_trans t1 n1 t2 n2 t3 n3 :
  attr_cmp upcase t1 n1 t2 n2 = Lt -> attr_cmp upcase t2 n2 t3 n3 = Lt -> attr_cmp upcase t1 n1 t3 n3 = Lt.
Proof.
  unfold attr_cmp. destruct (Z.compare_spec t1 t2) as [->|H12|H12], (Z.compare_spec t2 t3) as [->|H23|H23]; try done; intros A B.
  - by eapply names_compare_trans.
  - by rewrite (proj2 (Z.compare_lt_iff t1 t3)) by lia.
  - by rewrite (proj2 (Z.compare_lt_iff t1 t3)) by lia.
Qed.

#[global] Instance ent_le_trans : Transitive (ent_le upcase).
Proof.
  intros a b c. unfold ent_le. destruct (attr_cmp upcase (e_type a) _ _ _) eqn:E1; [|intros _|done].
  - apply attr_cmp_eq in E1 as [-> ->]. destruct (attr_cmp upcase (e_type b) _ _ _); [lia|done|done].
  - destruct (attr_cmp upcase (e_type b) _ _ _) eqn:E2; [|intros _|done].
    + apply attr_cmp_eq in E2 as [<- <-]. by rewrite E1.
    + by rewrite (attr_cmp_trans _ _ _ _ _ _ E1 E2).
Qed.

(** An attribute with an exact name compares to an entry by [attr_cmp]. *)
Lemma ent_cmp_exact w n e : w_type w <> AT_UNUSED -> wanted_name w = Some n -> ent_cmp upcase w e = attr_cmp upcase (w_type w) n (e_type e) (e_name e).
Proof.
  intros Ht Hn. unfold ent_cmp, attr_cmp. rewrite (proj2 (Z.eqb_neq _ AT_UNUSED)) by done. destruct (w_type w ?= e_type e); [|done|done].
  unfold wanted_name in Hn. destruct (w_name w) as [| |s]; [done| |].
  - injection Hn as <-. destruct (e_name e); [by rewrite names_compare_refl|]. unfold names_compare. done.
  - destruct (w_ic w); [|done]. by injection Hn as <-.
Qed.

Definition same_attr (w : wanted) (n : list Z) (e : al_ent) : Prop := e_type e = w_type w /\ e_name e = n.

Lemma same_attr_cmp w n e : attr_cmp upcase (w_type w) n (e_type e) (e_name e) = Eq <-> same_attr w n e.
Proof. rewrite attr_cmp_eq. unfold same_attr. split; intros [? ?]; by split. Qed.

Lemma until0_id l : (0 ∉ l) -> until0 l = l.
Proof.
  induction l as [|c l IH]; intros H; [done|]. apply not_elem_of_cons in H as [Hc H]. cbn [until0]. rewrite (proj2 (Z.eqb_neq c 0)) by congruence. by rewrite IH.
Qed.

Lemma same_name_spec n1 n2 : (0 ∉ n1) -> (0 ∉ n2) -> same_name n1 n2 = true <-> n1 = n2.
Proof. intros H1 H2. unfold same_name. rewrite bool_decide_eq_true, !until0_id by done. split; [by intros [_ ?]|by intros ->]. Qed.

Lemma ent_le_same w n e1 e2 : same_attr w n e1 -> same_attr w n e2 -> ent_le upcase e1 e2 -> e_vcn e1 <= e_vcn e2.
Proof. intros [A1 B1] [A2 B2]. unfold ent_le. by rewrite A1, A2, B1, B2, attr_cmp_refl. Qed.

(** Between entries of the same attribute are only entries of it. *)
Lemma ent_le_between w n e1 e2 e3 : same_attr w n e1 -> same_attr w n e3 -> ent_le upcase e1 e2 -> ent_le upcase e2 e3 -> same_attr w n e2.
Proof.
  intros [A1 B1] [A3 B3]. unfold ent_le. rewrite A1, B1, A3, B3.
  destruct (attr_cmp upcase (w_type w) n (e_type e2) (e_name e2)) eqn:E; [|intros _|done].
  - intros _ _. apply attr_cmp_eq in E as [? ?]. by split.
  - rewrite attr_cmp_antisym, E. done.
Qed.

(** With a sorted list, the search finds the extent that holds the vcn. *)
Lemma scan_sorted w n : w_type w <> AT_UNUSED -> wanted_name w = Some n -> w_val w = None -> 0 <= w_lowest_vcn w -> forall rents,
  StronglySorted (ent_le upcase) (ents_of rents) -> Forall (fun e => 0 <= e_vcn e /\ 0 ∉ e_name e) (ents_of rents) ->
  Exists (fun e => same_attr w n e /\ e_vcn e <= w_lowest_vcn w) (ents_of rents) ->
  exists k t, al_scan upcase w rents = (k, true) /\ rents !! k = Some t /\ same_attr w n (re_ent t) /\ e_vcn (re_ent t) <= w_lowest_vcn w /\
    Forall (fun e => same_attr w n e -> e_vcn e <= e_vcn (re_ent t) \/ w_lowest_vcn w < e_vcn e) (ents_of rents) /\
    (w_lowest_vcn w <> 0 -> Forall (fun e => same_attr w n e -> w_lowest_vcn w < e_vcn e) (drop (S k) (ents_of rents))).
Proof.
  intros Ht Hn Hval Hv. induction rents as [|t rents IH]; intros Hs Hnn Hex; [by apply Exists_nil in Hex|].
  cbn [ents_of map] in Hs, Hnn, Hex. fold (ents_of rents) in *. apply StronglySorted_inv in Hs as [Hs Hle]. apply Forall_cons_1 in Hnn as [[Hvt Hnul] Hnn].
  cbn [al_scan]. rewrite (ent_cmp_exact w n) by done. set (e := re_ent t) in *.
  assert (forall e', e' ∈ ents_of rents -> same_attr w n e' -> attr_cmp upcase (w_type w) n (e_type e) (e_name e) <> Lt) as Hlt.
  { intros e' Hin Hsame E. rewrite list.Forall_forall in Hle. specialize (Hle e' Hin). unfold ent_le in Hle. destruct Hsame as [A B]. rewrite <- A, <- B in E.
    destruct (attr_cmp upcase (e_type e) (e_name e) (e_type e') (e_name e')) eqn:E2; [| |done].
    - apply attr_cmp_eq in E2 as [E3 E4]. rewrite E3, E4, attr_cmp_refl in E. done.
    - pose proof (attr_cmp_trans _ _ _ _ _ _ E E2) as E3. by rewrite attr_cmp_refl in E3. }
  destruct (attr_cmp upcase (w_type w) n (e_type e) (e_name e)) eqn:Ec.
  - apply same_attr_cmp in Ec as Hsame. destruct (al_scan upcase w rents) as [k found] eqn:Esc.
    unfold fits_next. rewrite (proj2 (Z.eqb_neq (w_type w) AT_UNUSED)) by done. cbn [negb andb].
    assert (Forall (fun e' => same_attr w n e' -> e_vcn e <= e_vcn e') (ents_of rents)) as Hfirst.
    { rewrite list.Forall_forall in Hle |- *. intros e' Hin He'. apply (ent_le_same w n); [done|done|by apply Hle]. }
    set (fits := negb (w_lowest_vcn w =? 0) && _). destruct fits eqn:Ef; unfold fits in Ef; clear fits.
    + apply andb_true_iff in Ef as [_ Ef]. destruct rents as [|t2 rents]; [done|]. cbn [head fmap option_fmap option_map] in Ef.
      apply andb_true_iff in Ef as [Ef Hn2]. apply andb_true_iff in Ef as [Hv2%Z.leb_le Ht2%Z.eqb_eq].
      cbn [ents_of map] in *. fold (ents_of rents) in *. apply Forall_cons_1 in Hnn as Hnn'. destruct Hnn' as [[_ Hnul2] _].
      apply same_name_spec in Hn2; [|done|done]. assert (same_attr w n (re_ent t2)) as Hs2 by (destruct Hsame; split; congruence).
      destruct (IH Hs Hnn) as (k' & t' & E & Hk & Hsame' & Hvk & Hall & Hafter); [by left|]. injection E as -> ->.
      exists (S k'), t'. split; [done|]. split; [done|]. split; [done|]. split; [done|]. split; [|exact Hafter]. apply Forall_cons_2; [|done]. intros _.
      apply Forall_cons_1 in Hall as [H2 _]. apply Forall_cons_1 in Hfirst as [H1 _]. specialize (H1 Hs2). specialize (H2 Hs2). fold e. lia.
    + assert (w_lowest_vcn w <> 0 -> Forall (fun e' => same_attr w n e' -> w_lowest_vcn w < e_vcn e') (ents_of rents)) as Hafter.
      { intros H0. rewrite list.Forall_forall. intros e' Hin Hs'. destruct rents as [|t2 rents]; [by apply elem_of_nil in Hin|].
        cbn [head fmap option_fmap option_map] in Ef. cbn [ents_of map] in *. fold (ents_of rents) in *.
        assert (same_attr w n (re_ent t2) /\ e_vcn (re_ent t2) <= e_vcn e') as [Hs2 Hv2].
        { apply StronglySorted_inv in Hs as [_ Hs2]. apply list.elem_of_cons in Hin as [->|Hin]; [split; [done|lia]|].
          rewrite list.Forall_forall in Hs2. specialize (Hs2 e' Hin). apply Forall_cons_1 in Hle as [Hle _].
          assert (same_attr w n (re_ent t2)) as Ha by (by eapply (ent_le_between w n e _ e')). split; [done|]. by apply (ent_le_same w n). }
        rewrite (proj2 (Z.eqb_neq _ 0)) in Ef by done. cbn [negb andb] in Ef. apply Forall_cons_1 in Hnn as [[_ Hnul2] _]. destruct Hsame as [A1 B1], Hs2 as [A2 B2].
        rewrite A1, A2, Z.eqb_refl in Ef. rewrite (proj2 (same_name_spec _ _ Hnul2 Hnul)) in Ef by congruence.
        rewrite !andb_true_r in Ef. apply Z.leb_gt in Ef. lia. }
      rewrite decide_True by (right; by rewrite Hval). exists 0%nat, t. split; [done|]. split; [done|]. split; [done|]. fold e. split; [|split; [|exact Hafter]].
      * apply Exists_cons in Hex as [[_ ?]|Hex]; [done|]. apply list.Exists_exists in Hex as (e' & Hin & Hs' & Hv'). rewrite list.Forall_forall in Hfirst. specialize (Hfirst e' Hin Hs'). lia.
      * apply Forall_cons_2; [intros _; left; apply Z.le_refl|]. destruct (Z.eq_dec (w_lowest_vcn w) 0) as [E0|H0].
        -- rewrite list.Forall_forall in Hnn, Hfirst |- *. intros e' Hin Hs'. specialize (Hnn e' Hin). specialize (Hfirst e' Hin Hs'). lia.
        -- eapply list.Forall_impl; [exact (Hafter H0)|]. intros e' He' Hs'. right. by apply He'.
  - exfalso. apply Exists_cons in Hex as [[He _]|Hex].
    + apply same_attr_cmp in He. congruence.
    + apply list.Exists_exists in Hex as (e' & Hin & Hsame & _). by eapply Hlt.
  - apply Exists_cons in Hex as [[He _]|Hex]; [apply same_attr_cmp in He; congruence|].
    destruct (IH Hs Hnn Hex) as (k & t' & -> & Hk & Hsame & Hvk & Hall & Hafter). exists (S k), t'. split; [done|]. split; [done|]. split; [done|]. split; [done|].
    split; [|exact Hafter]. apply Forall_cons_2; [|done]. intros He. fold e in He. apply same_attr_cmp in He. congruence.
Qed.

(** Without an entry whose attribute has the value, the search ends where one
    belongs. *)
Lemma scan_missing w n : w_type w <> AT_UNUSED -> wanted_name w = Some n -> forall rents,
  StronglySorted (ent_le upcase) (ents_of rents) -> Forall (fun t => same_attr w n (re_ent t) -> ~ value_hit w (re_attr t)) rents ->
  exists k, al_scan upcase w rents = (k, false) /\
    Forall (fun e => attr_cmp upcase (e_type e) (e_name e) (w_type w) n <> Gt) (take k (ents_of rents)) /\
    Forall (fun e => attr_cmp upcase (w_type w) n (e_type e) (e_name e) = Lt) (drop k (ents_of rents)).
Proof.
  intros Ht Hn. induction rents as [|t rents IH]; intros Hs Hno; [by exists 0%nat|]. cbn [ents_of map] in Hs. fold (ents_of rents) in *.
  apply StronglySorted_inv in Hs as [Hs Hle]. apply Forall_cons_1 in Hno as [Hnt Hno]. destruct (IH Hs Hno) as (k & E & Hb & Ha).
  assert (attr_cmp upcase (e_type (re_ent t)) (e_name (re_ent t)) (w_type w) n <> Gt ->
    Forall (fun e => attr_cmp upcase (e_type e) (e_name e) (w_type w) n <> Gt) (take (S k) (ents_of (t :: rents)))) as Hpass by (intros Hc; constructor; [exact Hc|exact Hb]).
  cbn [al_scan]. rewrite E, (ent_cmp_exact w n) by done. set (e := re_ent t) in *.
  destruct (attr_cmp upcase (w_type w) n (e_type e) (e_name e)) eqn:Ec.
  - assert (attr_cmp upcase (e_type e) (e_name e) (w_type w) n <> Gt) as Hng by (by rewrite attr_cmp_antisym, Ec).
    apply same_attr_cmp in Ec. rewrite decide_False by auto. destruct (fits_next _ _ _); (exists (S k); split; [done|]; split; [by apply Hpass|done]).
  - exists 0%nat. split; [done|]. split; [constructor|]. cbn [drop ents_of map]. fold (ents_of rents). apply Forall_cons_2; [done|].
    eapply list.Forall_impl; [exact Hle|]. intros e'. unfold ent_le. destruct (attr_cmp upcase (e_type e) (e_name e) (e_type e') (e_name e')) eqn:E2; [intros _|intros _|done].
    + apply attr_cmp_eq in E2 as [<- <-]. done.
    + by eapply attr_cmp_trans.
  - exists (S k). split; [done|]. split; [|exact Ha]. apply Hpass. by rewrite attr_cmp_antisym, Ec.
Qed.

End order.

(** ** The results *)

Section lookup.
Context (memcmp : list Z -> list Z -> Z) (upcase : list Z) (Hmemcmp : memcmp_law memcmp) (Hup : is_name upcase).
Context (geo : mft_geometry) (Hmft : mft_na geo = true) (load : Z -> option ainode) (base : arec) (exts : list arec) (Hrecs : records_ok base exts).
Context (rents : list rent) (Hok : Forall (rent_ok base exts) rents).
Let b := inode_of base exts (Some (list_bytes (ents_of rents))).

(** a search from the beginning of the list passes the entries that compare
    lower, and those that the next entry fits better, looks the attribute up in
    the record of the first other entry, and goes on when its value is not the
    one asked for.  It ends on every list whose entries resolve, and reads only
    within the list and the records; without success it leaves the place of a
    new entry. *)
Theorem al_lookup_correct w : wanted_ok w -> w_type w <> AT_UNUSED -> w_type w <> AT_ATTRIBUTE_LIST -> base_want w (ar_attrs base) ->
  let '(k, found) := al_scan upcase w rents in
  exists ctx, (ctx ← ntfs_attr_get_search_ctx b; ntfs_attr_lookup memcmp upcase (zlen upcase) geo load b w ctx) =
      Ok (b, ctx, if found then None else Some ENOENT) /\
    x_entry ctx = Some (ent_ofs (take k rents)) /\ (k <= length rents)%nat /\
    (found = true -> exists t, rents !! k = Some t /\ x_ino ctx = re_ino t /\ x_attr ctx = ar_ofs (re_rec t) (re_before t)).
Proof. exact (al_lookup_spec memcmp upcase Hmemcmp Hup geo Hmft load base exts rents w Hrecs Hok). Qed.

Lemma al_lookup_extent_spec w n : wanted_ok w -> w_type w <> AT_UNUSED -> w_type w <> AT_ATTRIBUTE_LIST ->
  wanted_name w = Some n -> w_val w = None -> 0 <= w_lowest_vcn w ->
  StronglySorted (ent_le upcase) (ents_of rents) -> Forall (fun e => 0 <= e_vcn e /\ 0 ∉ e_name e) (ents_of rents) ->
  Exists (fun e => same_attr w n e /\ e_vcn e <= w_lowest_vcn w) (ents_of rents) ->
  exists ctx t, (ctx ← ntfs_attr_get_search_ctx b; ntfs_attr_lookup memcmp upcase (zlen upcase) geo load b w ctx) = Ok (b, ctx, None) /\
    t ∈ rents /\ x_ino ctx = re_ino t /\ x_attr ctx = ar_ofs (re_rec t) (re_before t) /\
    at_type (re_attr t) = w_type w /\ at_name (re_attr t) = n /\ e_vcn (re_ent t) <= w_lowest_vcn w /\
    Forall (fun e => same_attr w n e -> e_vcn e <= e_vcn (re_ent t) \/ w_lowest_vcn w < e_vcn e) (ents_of rents).
Proof.
  intros Hw Ht Hl Hn Hval Hv Hs Hnn Hex.
  destruct (scan_sorted upcase w n Ht Hn Hval Hv rents Hs Hnn Hex) as (k & t & E & Hk & [Hs1 Hs2] & Hvk & Hall & _).
  assert (base_want w (ar_attrs base)) as Hbw by (destruct Hw as [? ? ?]; split; [done|done|by rewrite Hval]).
  pose proof (al_lookup_spec memcmp upcase Hmemcmp Hup geo Hmft load base exts rents w Hrecs Hok Hw Ht Hl Hbw) as L.
  rewrite E in L. destruct L as (ctx & EL & _ & _ & Hf). destruct (Hf eq_refl) as (t' & Hk' & Hi & Ha). assert (t' = t) as -> by congruence.
  exists ctx, t. split; [exact EL|]. pose proof (Forall_lookup_1 _ _ _ _ Hok Hk) as (_ & _ & [_ _ _ _ Hrt Hrn _]).
  split; [by eapply list_elem_of_lookup_2|]. split; [done|]. split; [done|]. split; [congruence|]. split; [congruence|]. by split.
Qed.

(** C21: in a sorted list, the search for a vcn of a named or unnamed attribute finds
    the extent that holds it: the extent of the attribute that begins at or
    before the vcn and is not followed by another such. *)
Theorem al_lookup_extent w n : wanted_ok w -> w_type w <> AT_UNUSED -> w_type w <> AT_ATTRIBUTE_LIST ->
  wanted_name w = Some n -> w_val w = None -> 0 <= w_lowest_vcn w ->
  StronglySorted (ent_le upcase) (ents_of rents) -> Forall (fun e => 0 <= e_vcn e /\ 0 ∉ e_name e) (ents_of rents) ->
  Exists (fun e => same_attr w n e /\ e_vcn e <= w_lowest_vcn w) (ents_of rents) ->
  exists ctx t, (ctx ← ntfs_attr_get_search_ctx b; ntfs_attr_lookup memcmp upcase (zlen upcase) geo load b w ctx) = Ok (b, ctx, None) /\
    t ∈ rents /\ x_ino ctx = re_ino t /\ x_attr ctx = ar_ofs (re_rec t) (re_before t) /\
    at_type (re_attr t) = w_type w /\ at_name (re_attr t) = n /\ e_vcn (re_ent t) <= w_lowest_vcn w /\
    Forall (fun e => same_attr w n e -> e_vcn e <= e_vcn (re_ent t) \/ w_lowest_vcn w < e_vcn e) (ents_of rents).
Proof. exact (al_lookup_extent_spec w n). Qed.

End lookup.
