(* ===== verification/AttrListEdit.v ===== *)
(** Changes of an attribute list: whether it is needed, adding and removing
    entries. *)

From stdpp Require Import sorting.
From S2P Require Import Prelude Bytes Fields Unistr Collate IndexNode AttrDef AttrRec AttrFind AttrRecThm AttrList AttrListThm AttrListFind AttrListLookup.

(** * Specification *)

(** The entry of the attribute [x] of a record. *)
Definition attr_vcn (x : list Z) : Z := if at_non_resident x =? 0 then 0 else at_lowest_vcn x.

Definition ent_of (r : arec) (inst : list Z -> Z) (x : list Z) : al_ent :=
  mk_ent (at_type x) (at_name x) (attr_vcn x) (MK_MREF (ar_no r) (ar_seq r)) (inst x).

(** What an attribute to add is searched for by. *)
Definition wanted_of (x : list Z) : wanted :=
  let name := if at_name_length x =? 0 then AtUnnamed else Name (at_name x) in
  if at_non_resident x =? 0
  then mk_wanted (at_type x) name (at_name_length x) CASE_SENSITIVE 0 (Some (at_value x)) (at_value_length x)
  else mk_wanted (at_type x) name (at_name_length x) CASE_SENSITIVE (at_lowest_vcn x) None 0.

(** * Proofs *)

Lemma at_bytes_ranges x : attr_ok x -> in_u 32 (at_type x) /\ in_s 64 (at_lowest_vcn x) /\ in_u 16 (at_instance x).
Proof.
  intros Hx. split; [apply (fld_range 4 0), Hx|]. split; [|apply (fld_range 2 14), Hx]. apply wraps_range. lia.
Qed.

Lemma mref_parts m s : 0 <= m < 2 ^ 48 -> 0 <= s < 2 ^ 16 -> MREF (MK_MREF m s) = m /\ MSEQNO (MK_MREF m s) = s /\ in_u 64 (MK_MREF m s).
Proof.
  intros Hm Hs. unfold MREF, MSEQNO, MK_MREF, MFT_REF_MASK_CPU. change 0xffffffffffff with (Z.ones 48). change 0xffff with (Z.ones 16).
  rewrite !Z.land_ones, Z.shiftl_mul_pow2, u64_small by lia. rewrite (Z.mod_small m) by done.
  assert (Z.lor (s * 2 ^ 48) m = s * 2 ^ 48 + m) as ->.
  { rewrite <- (Z.add_lor_land (s * 2 ^ 48) m). assert (Z.land (s * 2 ^ 48) m = 0) as ->; [|lia]. apply Z.bits_inj'. intros i Hi. rewrite Z.land_spec, Z.bits_0.
    destruct (Z.lt_ge_cases i 48); [by rewrite Z.mul_pow2_bits_low|].
    assert (Z.testbit m i = false) as ->; [|apply andb_false_r]. rewrite <- (Z.mod_small m (2 ^ 48)) by done. apply Z.mod_pow2_bits_high. lia. }
  rewrite Z.shiftr_div_pow2 by lia. change (2 ^ 48) with 281474976710656 in *. change (2 ^ 16) with 65536 in *. unfold in_u. change (2 ^ 64) with 18446744073709551616.
  split; [dlia|]. split; [|lia]. replace ((s * 281474976710656 + m) / 281474976710656) with s by dlia. apply Z.mod_small. lia.
Qed.

Section fields.
Context (r : arec) (Hr : arec_ok r) (a1 : list (list Z)) (x : list Z) (a2 : list (list Z)) (E : ar_attrs r = a1 ++ x :: a2).

Lemma ar_attr_ok : attr_ok x.
Proof. by destruct (ar_attr_at r Hr a1 x a2 E) as (? & ? & _ & _ & H). Qed.

Lemma ar_seq_range : 0 <= ar_seq r < 2 ^ 16.
Proof. apply (fld_range 2 16), Hr. Qed.

(** The entry of an attribute is an entry. *)
Lemma ent_of_ok inst : in_u 16 (inst x) -> ent_ok (ent_of r inst x).
Proof.
  intros Hi. pose proof ar_attr_ok as Hx. destruct (at_bytes_ranges x Hx) as (Ht & Hv & _). destruct (mref_parts (ar_no r) (ar_seq r)) as (_ & _ & Hm); [apply Hr|apply ar_seq_range|].
  split; cbn [ent_of e_type e_name e_vcn e_mref e_inst]; [done|by apply at_name_is_name| |unfold attr_vcn; destruct (_ =? 0); [by vm_compute|done]|done|done].
  rewrite at_name_zlen by done. apply name_length_range. done.
Qed.

Lemma ent_of_resolves inst : at_instance x = inst x -> Forall (fun y => at_instance y <> inst x) (a1 ++ a2) -> resolves r (ent_of r inst x) a1 x a2.
Proof.
  intros Hi Hu. destruct (mref_parts (ar_no r) (ar_seq r)) as (Hm & Hs & _); [apply Hr|apply ar_seq_range|]. by split.
Qed.

(** The name, as characters and as bytes. *)
Lemma a_name_taken : exists s, a_name (ar_bytes r) (ar_ofs r a1) = Ok s /\ take (Z.to_nat (at_name_length x)) s = at_name x.
Proof.
  destruct (ar_attr_at r Hr a1 x a2 E) as (p & q & -> & <- & Hx). destruct (name_at_attr p x q Hx) as [s ->]. eexists. split; [done|].
  rewrite <- (at_name_zlen x Hx). unfold zlen. rewrite Nat2Z.id. apply take_app_length.
Qed.

Lemma name_bytes_at : name_bytes (ar_bytes r) (ar_ofs r a1) = Ok (bytes_of (at_name x)).
Proof.
  destruct (ar_attr_at r Hr a1 x a2 E) as (p & q & -> & <- & Hx). unfold name_bytes. rewrite name_length_at by done. cbn [mbind res_bind].
  pose proof (name_length_range x Hx). pose proof (name_offset_range x Hx). pose proof (at_name_zlen x Hx) as Ez.
  destruct (Z.eqb_spec (at_name_length x) 0) as [E0|Hne].
  { rewrite E0 in Ez. by destruct (at_name x) as [|c l]; [|rewrite zlen_cons in Ez; pose proof (zlen_nonneg l); lia]. }
  rewrite name_offset_at by done. cbn [mbind res_bind]. destruct (ao_name x Hx) as [?|Hn]; [done|].
  pose proof (zlen_nonneg p). pose proof (zlen_nonneg q). unfold aslice. rewrite !zlen_app. zdec. cbn [orb]. f_equal.
  rewrite drop_app_ge by (unfold zlen; lia). replace (Z.to_nat (zlen p + at_name_offset x) - length p)%nat with (Z.to_nat (at_name_offset x)) by (unfold zlen; lia).
  rewrite drop_app_le by (unfold zlen in Hn; lia). rewrite take_app_le by (rewrite length_drop; unfold zlen in *; lia).
  unfold at_name. replace (Z.to_nat (at_name_length x * 2)) with (2 * Z.to_nat (at_name_length x))%nat by lia. symmetry.
  apply (bytes_of_chars (Z.to_nat (at_name_length x))); [rewrite length_take, length_drop; unfold zlen in *; lia|apply Forall_take, Forall_drop, Hx].
Qed.

(** What [ntfs_attrlist_entry_add] looks up. *)
Lemma wanted_for_spec : wanted_for (ar_bytes r) (ar_ofs r a1) = Ok (wanted_of x).
Proof.
  destruct a_name_taken as (s & Es & Et). unfold wanted_for, wanted_of. rewrite Es.
  destruct (ar_attr_at r Hr a1 x a2 E) as (p & q & Ep & Eo & Hx). rewrite Ep, <- Eo.
  rewrite type_at, name_length_at, non_resident_at_attr by done. cbn [mbind res_bind]. rewrite Et.
  destruct (Z.eqb_spec (at_non_resident x) 0) as [En|En]; cbn [negb].
  - rewrite value_offset_at, value_length_at by done. cbn [mbind res_bind]. do 2 f_equal. f_equal.
    pose proof (ao_value x Hx En) as Hin. pose proof (value_offset_range x Hx). pose proof (value_length_range x Hx). pose proof (zlen_nonneg p).
    rewrite drop_app_ge by (unfold zlen; lia). replace (Z.to_nat (zlen p + at_value_offset x) - length p)%nat with (Z.to_nat (at_value_offset x)) by (unfold zlen; lia).
    rewrite drop_app_le by (unfold zlen in Hin; lia). rewrite take_app_le by (rewrite length_drop; unfold zlen in *; lia). done.
  - by rewrite lowest_vcn_at_attr.
Qed.

Lemma wanted_of_ok : wanted_ok (wanted_of x).
Proof.
  pose proof ar_attr_ok as Hx. destruct (at_bytes_ranges x Hx) as (Ht & _ & _). pose proof (ao_type x Hx) as Hte. unfold in_u in Ht.
  pose proof (at_name_zlen x Hx) as Ez. pose proof (at_name_is_name x Hx) as Hn. unfold wanted_of.
  assert (match (if at_name_length x =? 0 then AtUnnamed else Name (at_name x)) with Name n => is_name n /\ at_name_length x = zlen n | _ => True end) as Hname
    by (by destruct (at_name_length x =? 0)).
  unfold AT_END in *. destruct (Z.eqb_spec (at_non_resident x) 0) as [En|En]; (split; cbn [w_type w_name w_name_len]; [unfold AT_END; lia|done|]); [|done].
  unfold value_given. cbn [w_val w_val_len]. unfold at_value, zlen. pose proof (ao_value x Hx En). pose proof (value_offset_range x Hx). pose proof (value_length_range x Hx).
  rewrite length_take, length_drop. unfold zlen in *. lia.
Qed.

End fields.

(** ** Is the list needed? *)

Lemma need_loop_spec no : forall rest fuel passed, Forall ent_ok rest -> (length rest < fuel)%nat ->
  need_loop fuel (list_bytes (passed ++ rest)) no (zlen (list_bytes passed)) = Ok (Z.b2z (existsb (fun e => negb (MREF (e_mref e) =? no)) rest)).
Proof.
  induction rest as [|e rest IH]; intros fuel passed Hok Hf; (destruct fuel as [|fuel]; [cbn in Hf; lia|]); cbn [need_loop existsb].
  - rewrite app_nil_r. by zdec.
  - apply Forall_cons_1 in Hok as [He Hok]. rewrite list_bytes_app, list_bytes_cons, !zlen_app, ent_bytes_zlen.
    pose proof (ent_len_spec e) as [Hl _]. pose proof (zlen_nonneg (e_name e)). pose proof (zlen_nonneg (list_bytes rest)). unfold al_name_ofs in Hl. zdec.
    rewrite ent_mref_at, ent_length_at by done. cbn [mbind res_bind]. destruct (negb (MREF (e_mref e) =? no)); [done|]. cbn [orb].
    specialize (IH fuel (passed ++ [e]) Hok). rewrite <- app_assoc in IH. cbn [app] in IH. rewrite <- IH by (cbn in Hf; lia).
    rewrite !list_bytes_app, zlen_app. cbn [list_bytes map concat]. rewrite app_nil_r, ent_bytes_zlen. done.
Qed.

(** an attribute list is needed exactly when an entry refers to another record
    than that of the inode. *)
Theorem attrlist_need_correct fuel b ents : has_list b = true -> attr_list b = Some (list_bytes ents) -> Forall ent_ok ents -> (length ents < fuel)%nat ->
  ntfs_attrlist_need fuel b = Ok (if existsb (fun e => negb (MREF (e_mref e) =? mft_no (base_ni b))) ents then 1 else 0).
Proof.
  intros Hh Ha Hok Hf. unfold ntfs_attrlist_need. rewrite Hh, Ha. cbn [negb].
  pose proof (need_loop_spec (mft_no (base_ni b)) ents fuel [] Hok Hf) as E. change (zlen (list_bytes [])) with 0 in E. cbn [app] in E. rewrite E. by destruct (existsb _ _).
Qed.

(** On an entry of length zero that refers to the record of the inode, the
    search does not end. *)
Theorem attrlist_need_loops fuel b al : has_list b = true -> attr_list b = Some al -> 24 <= zlen al ->
  al_length al 0 = Ok 0 -> (exists mref, al_mft_reference al 0 = Ok mref /\ MREF mref = mft_no (base_ni b)) -> ntfs_attrlist_need fuel b = Undef.
Proof.
  intros Hh Ha Hz Hl (mref & Hm & Eq). unfold ntfs_attrlist_need. rewrite Hh, Ha. cbn [negb]. induction fuel as [|fuel IH]; cbn [need_loop]; zdec; [done|].
  rewrite Hm, Hl. cbn [mbind res_bind]. by rewrite Eq, Z.eqb_refl.
Qed.

(** ** Removing and adding *)

Lemma replicate_split (n m : nat) : (m <= n)%nat -> replicate n 0 = replicate m (0 : Z) ++ replicate (n - m) 0.
Proof. intros. rewrite <- replicate_add. f_equal. lia. Qed.

Lemma awrite_front (l l' r : list Z) : length l = length l' -> awrite (l ++ r) 0 l' = Ok (l' ++ r).
Proof. intros El. exact (awrite_mid [] l r l' 0 eq_refl El). Qed.

Lemma aslice_front (l r : list Z) : aslice (l ++ r) 0 (zlen l) = Ok l.
Proof. exact (aslice_mid [] l r 0 (zlen l) eq_refl eq_refl). Qed.

Lemma aslice_back (l r : list Z) i n : i = zlen l -> n = zlen r -> aslice (l ++ r) i n = Ok r.
Proof. intros Hi Hn. rewrite <- (app_nil_r r) at 1. by apply aslice_mid. Qed.

Lemma awrite_back (l r r' : list Z) i : i = zlen l -> length r = length r' -> awrite (l ++ r) i r' = Ok (l ++ r').
Proof. intros Hi Hr. rewrite <- (app_nil_r r). rewrite (awrite_mid l r []) by done. by rewrite app_nil_r. Qed.

Lemma ents_of_take k rents : ents_of (take k rents) = take k (ents_of rents).
Proof. unfold ents_of. by rewrite firstn_map. Qed.

Section edit.
Context {HP : Heap} (Hheap : forall n, heap_grants n = true).
Context (memcmp : list Z -> list Z -> Z) (upcase : list Z) (Hmemcmp : memcmp_law memcmp) (Hup : is_name upcase).
Context (geo : mft_geometry) (Hmft : mft_na geo = true) (load : Z -> option ainode) (resize_list : base_inode -> Z -> base_inode * option errno).

Lemma entry_rm_spec b b2 l1 e l2 : has_list b = true -> attr_list b = Some (list_bytes (l1 ++ e :: l2)) -> ent_ok e ->
  resize_list b (zlen (list_bytes (l1 ++ l2))) = (b2, None) -> attr_list b2 = attr_list b ->
  ntfs_attrlist_entry_rm resize_list b (zlen (list_bytes l1)) = Ok (set_attr_list b2 (list_bytes (l1 ++ l2)), None).
Proof.
  intros Hh Ha He Hr Hkeep. unfold ntfs_attrlist_entry_rm, copy_without. rewrite Hh, Ha in *. rewrite list_bytes_app, list_bytes_cons in *. cbn [negb].
  rewrite zlen_app in Hr. rewrite ent_length_at by done. cbn [mbind res_bind]. rewrite Hheap. cbn [negb]. rewrite !zlen_app, ent_bytes_zlen.
  replace (zlen (list_bytes l1) + (ent_len e + zlen (list_bytes l2)) - ent_len e) with (zlen (list_bytes l1) + zlen (list_bytes l2)) by lia. rewrite Hr, Hkeep.
  rewrite aslice_front. cbn [mbind res_bind]. rewrite ent_length_at by done. cbn [mbind res_bind]. rewrite app_assoc, aslice_back by (rewrite ?zlen_app, ?ent_bytes_zlen; lia). cbn [mbind res_bind].
  rewrite (replicate_split _ (length (list_bytes l1))) by (unfold zlen; lia). rewrite awrite_front by by rewrite length_replicate. cbn [mbind res_bind].
  rewrite awrite_back; [cbn [mbind res_bind]; by rewrite list_bytes_app|done|]. rewrite length_replicate. unfold zlen. lia.
Qed.

Section add.
Context (base : arec) (exts : list arec) (Hrecs : records_ok base exts).
Context (rents : list rent) (Hok : Forall (rent_ok base exts) rents).
Let b := inode_of base exts (Some (list_bytes (ents_of rents))).
Context (ni : ino_ref) (r : arec) (Hni : rec_at base exts ni = Some r).
Context (a1 : list (list Z)) (x : list Z) (a2 : list (list Z)) (E : ar_attrs r = a1 ++ x :: a2).
Let e := ent_of r at_instance x.
Context (Ht : at_type x <> AT_UNUSED) (Hl : at_type x <> AT_ATTRIBUTE_LIST).
Context (Hbw : base_want (wanted_of x) (ar_attrs base)).
Context (b2 : base_inode) (Hresize : resize_list b (zlen (list_bytes (ents_of rents)) + ent_len e) = (b2, None)) (Hkeep : attr_list b2 = attr_list b).

(** The list with the entry at a place. *)
Definition added (k : nat) : list al_ent := take k (ents_of rents) ++ e :: drop k (ents_of rents).

Lemma put_and_copy k : (k <= length rents)%nat ->
  (new_al ← put_entry (replicate (Z.to_nat (zlen (list_bytes (ents_of rents)) + ent_len e)) 0) (ent_ofs (take k rents)) (e_type e) (ent_len e)
      (zlen (e_name e)) (e_vcn e) (e_mref e) (e_inst e) (bytes_of (e_name e));
   before ← aslice (list_bytes (ents_of rents)) 0 (ent_ofs (take k rents));
   after ← aslice (list_bytes (ents_of rents)) (ent_ofs (take k rents)) (zlen (list_bytes (ents_of rents)) - ent_ofs (take k rents));
   new_al ← awrite new_al 0 before;
   awrite new_al (ent_ofs (take k rents) + ent_len e) after) = Ok (list_bytes (added k)).
Proof.
  intros Hk. assert (ent_ok e) as He.
  { eapply ent_of_ok; [by eapply rec_at_ok|exact E|]. apply at_bytes_ranges. eapply ar_attr_ok; [by eapply rec_at_ok|exact E]. }
  set (l1 := list_bytes (take k (ents_of rents))). set (l2 := list_bytes (drop k (ents_of rents))).
  assert (ent_ofs (take k rents) = zlen l1) as -> by (unfold ent_ofs, l1; by rewrite ents_of_take).
  assert (list_bytes (ents_of rents) = l1 ++ l2) as -> by (unfold l1, l2; by rewrite <- list_bytes_app, take_drop).
  pose proof (ent_len_range e He) as Hlen. rewrite zlen_app. pose proof (zlen_nonneg l1). pose proof (zlen_nonneg l2).
  replace (Z.to_nat (zlen l1 + zlen l2 + ent_len e)) with (length l1 + (Z.to_nat (ent_len e) + length l2))%nat by (unfold zlen; lia). rewrite !replicate_add.
  replace (zlen l1) with (zlen (replicate (length l1) (0 : Z))) at 1 by (unfold zlen; by rewrite length_replicate).
  rewrite put_entry_spec by done. cbn [mbind res_bind].
  rewrite aslice_front. cbn [mbind res_bind]. rewrite aslice_back by lia. cbn [mbind res_bind].
  rewrite awrite_front by by rewrite length_replicate. cbn [mbind res_bind]. rewrite app_assoc.
  rewrite awrite_back; [|by rewrite zlen_app, ent_bytes_zlen|by rewrite length_replicate].
  unfold added. by rewrite list_bytes_app, list_bytes_cons, <- app_assoc.
Qed.

Lemma added_zlen k : zlen (list_bytes (added k)) = zlen (list_bytes (ents_of rents)) + ent_len e.
Proof.
  unfold added. rewrite list_bytes_app, list_bytes_cons, !zlen_app, ent_bytes_zlen. rewrite <- (take_drop k (ents_of rents)) at 3. rewrite list_bytes_app, zlen_app. lia.
Qed.

Lemma entry_at k t : rents !! k = Some t ->
  exists post, list_bytes (ents_of rents) = list_bytes (ents_of (take k rents)) ++ ent_bytes (re_ent t) ++ post /\
    ent_ofs (take (S k) rents) = ent_ofs (take k rents) + ent_len (re_ent t) /\ ent_ok (re_ent t).
Proof.
  intros Hk. exists (list_bytes (ents_of (drop (S k) rents))).
  split; [|split; [by rewrite (take_S_r _ _ t), ent_ofs_one|exact (proj1 (Forall_lookup_1 _ _ _ _ Hok Hk))]].
  rewrite <- (take_drop_middle rents k t Hk) at 1. by rewrite ents_of_app, list_bytes_app.
Qed.

Lemma entry_add_spec :
  let '(k, found) := al_scan upcase (wanted_of x) rents in
  ntfs_attrlist_entry_add memcmp upcase (zlen upcase) geo load resize_list b ni (ar_ofs r a1) =
    if found then
      match rents !! k with
      | Some t => if e_vcn (re_ent t) =? at_lowest_vcn x then Ok (b, Some EEXIST) else Ok (set_attr_list b2 (list_bytes (added (S k))), None)
      | None => Undef
      end
    else Ok (set_attr_list b2 (list_bytes (added k)), None).
Proof.
  pose proof (rec_at_ok base exts Hrecs ni r Hni) as Hr. destruct (ar_attr_at r Hr a1 x a2 E) as (pre & post & Ep & Eo & Hx).
  assert (w_type (wanted_of x) = at_type x) as Ewt by (unfold wanted_of; by destruct (at_non_resident x =? 0)).
  pose proof (al_lookup_spec memcmp upcase Hmemcmp Hup geo Hmft load base exts rents (wanted_of x) Hrecs Hok) as L.
  specialize (L (wanted_of_ok r Hr a1 x a2 E) ltac:(congruence) ltac:(congruence) Hbw). fold b in L.
  assert (forall k, (k <= length rents)%nat -> (t ← a_type (ar_bytes r) (ar_ofs r a1);
      nr ← a_non_resident (ar_bytes r) (ar_ofs r a1);
      v ← (if negb (nr =? 0) then Ok (at_lowest_vcn x) else Ok 0);
      inst ← a_instance (ar_bytes r) (ar_ofs r a1);
      name ← name_bytes (ar_bytes r) (ar_ofs r a1);
      new_al ← put_entry (replicate (Z.to_nat (zlen (list_bytes (ents_of rents)) + al_entry_len (at_name_length x))) 0) (ent_ofs (take k rents)) t
        (al_entry_len (at_name_length x)) (at_name_length x) v (MK_MREF (ar_no r) (ar_seq r)) inst name;
      match resize_list b (zlen (list_bytes (ents_of rents)) + al_entry_len (at_name_length x)) with
      | (b, Some e) => Ok (b, Some e)
      | (b, None) => copy_around b new_al (ent_ofs (take k rents)) (al_entry_len (at_name_length x))
      end) = Ok (set_attr_list b2 (list_bytes (added k)), None)) as Hput.
  { intros k Hk. rewrite (name_bytes_at r Hr a1 x a2 E). rewrite Ep, <- Eo. rewrite type_at, non_resident_at_attr, instance_at_attr by done. cbn [mbind res_bind].
    assert ((if negb (at_non_resident x =? 0) then Ok (at_lowest_vcn x) else Ok 0) = Ok (attr_vcn x)) as -> by (unfold attr_vcn; by destruct (at_non_resident x =? 0)).
    cbn [mbind res_bind]. rewrite <- (at_name_zlen x Hx). change (al_entry_len (zlen (at_name x))) with (ent_len e). rewrite Hresize.
    unfold copy_around. rewrite Hkeep. change (attr_list b) with (Some (list_bytes (ents_of rents))).
    pose proof (put_and_copy k Hk) as P. cbn [e ent_of e_type e_name e_vcn e_mref e_inst] in P. fold e in P.
    destruct (put_entry _ _ _ _ _ _ _ _ _) as [n1| |]; [|done..]. cbn [mbind res_bind] in P |- *.
    destruct (aslice _ 0 _) as [n2| |]; [|done..]. cbn [mbind res_bind] in P |- *. destruct (aslice _ (ent_ofs _) _) as [n3| |]; [|done..]. cbn [mbind res_bind] in P |- *.
    destruct (awrite n1 0 n2) as [n4| |]; [|done..]. cbn [mbind res_bind] in P |- *. rewrite P. cbn [mbind res_bind]. do 3 f_equal. apply take_ge.
    pose proof (added_zlen k). unfold zlen in *. lia. }
  pose proof (ino_at base exts Hrecs (Some (list_bytes (ents_of rents))) ni r Hni) as Ei. fold b in Ei. unfold ntfs_attrlist_entry_add. rewrite Ei. cbn [mbind res_bind ar_ino mft_no mrec]. rewrite ar_seq_at by done. cbn [mbind res_bind].
  change (has_list b) with true. change (attr_list b) with (Some (list_bytes (ents_of rents))). cbn [negb].
  assert (a_name_length (ar_bytes r) (ar_ofs r a1) = Ok (at_name_length x)) as -> by (rewrite Ep, <- Eo; by apply name_length_at). cbn [mbind res_bind].
  rewrite Hheap. cbn [negb]. destruct (al_scan upcase (wanted_of x) rents) as [k found]. destruct L as (ctx & L & He & Hk & Hf).
  destruct (ntfs_attr_get_search_ctx b) as [c0| |]; [|done..]. cbn [mbind res_bind] in L |- *. rewrite (wanted_for_spec r Hr a1 x a2 E). cbn [mbind res_bind]. rewrite L. cbn [mbind res_bind].
  assert (a_lowest_vcn (ar_bytes r) (ar_ofs r a1) = Ok (at_lowest_vcn x)) as -> by (rewrite Ep, <- Eo; by apply lowest_vcn_at_attr).
  rewrite He. destruct found.
  - destruct (Hf eq_refl) as (t & Hkt & _). rewrite Hkt. destruct (entry_at k t Hkt) as (q & Eq & Eofs & Het). 
    assert (al_lowest_vcn (list_bytes (ents_of rents)) (ent_ofs (take k rents)) = Ok (e_vcn (re_ent t))) as -> by (rewrite Eq; by apply ent_vcn_at).
    assert (al_length (list_bytes (ents_of rents)) (ent_ofs (take k rents)) = Ok (ent_len (re_ent t))) as -> by (rewrite Eq; by apply ent_length_at). cbn [mbind res_bind].
    cbn [mbind res_bind]. destruct (e_vcn (re_ent t) =? at_lowest_vcn x); [done|]. cbn [mbind res_bind]. rewrite <- Eofs. apply Hput. apply lookup_lt_Some in Hkt. lia.
  - cbn [mbind res_bind]. by apply Hput.
Qed.

(** *** The order of the entries *)

Let w := wanted_of x.

Lemma wanted_of_name : attr_ok x -> wanted_name w = Some (at_name x) /\ w_type w = at_type x.
Proof.
  intros Hx. pose proof (at_name_zlen x Hx) as Ez. unfold w, wanted_of, wanted_name. destruct (Z.eqb_spec (at_name_length x) 0) as [E0|_].
  - assert (at_name x = []) as -> by (destruct (at_name x) as [|c l]; [done|rewrite zlen_cons in Ez; pose proof (zlen_nonneg l); lia]).
    by destruct (at_non_resident x =? 0).
  - by destruct (at_non_resident x =? 0).
Qed.

Lemma same_attr_new : attr_ok x -> same_attr w (at_name x) e.
Proof. intros Hx. split; [symmetry; apply (wanted_of_name Hx)|done]. Qed.

Lemma x_ok : attr_ok x.
Proof. eapply ar_attr_ok; [by eapply rec_at_ok|exact E]. Qed.

(** A place that the order allows. *)
Lemma added_sorted k : StronglySorted (ent_le upcase) (ents_of rents) -> Forall (fun e' => ent_le upcase e' e) (take k (ents_of rents)) ->
  Forall (ent_le upcase e) (drop k (ents_of rents)) -> StronglySorted (ent_le upcase) (added k).
Proof.
  unfold added. rewrite <- (take_drop k (ents_of rents)) at 1. generalize (take k (ents_of rents)) (drop k (ents_of rents)). intros l1 l2.
  induction l1 as [|y l1 IH]; cbn [app]; intros Hs H1 H2; [by constructor|]. apply StronglySorted_inv in Hs as [Hs Hy]. apply Forall_cons_1 in H1 as [Hye H1].
  constructor; [by apply IH|]. apply Forall_app in Hy as [Hy1 Hy2]. apply Forall_app. split; [done|]. by constructor.
Qed.

(** Behind the extent before it. *)
Lemma place_behind k t : StronglySorted (ent_le upcase) (ents_of rents) -> rents !! k = Some t -> same_attr w (at_name x) (re_ent t) -> e_vcn (re_ent t) <= e_vcn e ->
  Forall (fun e' => same_attr w (at_name x) e' -> e_vcn e < e_vcn e') (drop (S k) (ents_of rents)) -> StronglySorted (ent_le upcase) (added (S k)).
Proof.
  intros Hs Hk Hsame Hv Hafter. pose proof (same_attr_new x_ok) as Hnew.
  assert (ents_of rents !! k = Some (re_ent t)) as Hkt by (unfold ents_of; change (map re_ent rents) with (re_ent <$> rents); by rewrite list_lookup_fmap, Hk).
  assert (ent_le upcase (re_ent t) e) as Hte by (destruct Hsame as [A B], Hnew as [A' B']; unfold ent_le; by rewrite A, B, A', B', attr_cmp_refl).
  apply added_sorted; [done| |].
  - rewrite (take_S_r _ _ _ Hkt). apply Forall_app. split; [|by constructor].
    rewrite <- (take_drop_middle _ _ _ Hkt) in Hs. apply list.Forall_forall. intros y Hy. transitivity (re_ent t); [|done].
    eapply StronglySorted_app_1_elem_of; [exact Hs|done|]. by left.
  - rewrite <- (take_drop_middle _ _ _ Hkt) in Hs. apply StronglySorted_app_1_r in Hs. apply StronglySorted_inv in Hs as [_ Hs].
    rewrite list.Forall_forall in Hs, Hafter |- *. intros y Hy. specialize (Hs y Hy). specialize (Hafter y Hy). unfold ent_le in Hs |- *.
    destruct Hsame as [A B], Hnew as [A' B']. rewrite A, B in Hs. rewrite A', B'. destruct (attr_cmp upcase (w_type w) (at_name x) (e_type y) (e_name y)) eqn:Ec; [|done|done].
    apply same_attr_cmp in Ec. specialize (Hafter Ec). lia.
Qed.

(** Where an attribute belongs that the list does not have. *)
Lemma place_new k : StronglySorted (ent_le upcase) (ents_of rents) ->
  Forall (fun e' => same_attr w (at_name x) e' -> e_vcn e' <= e_vcn e) (ents_of rents) ->
  Forall (fun e' => attr_cmp upcase (e_type e') (e_name e') (w_type w) (at_name x) <> Gt) (take k (ents_of rents)) ->
  Forall (fun e' => attr_cmp upcase (w_type w) (at_name x) (e_type e') (e_name e') = Lt) (drop k (ents_of rents)) ->
  StronglySorted (ent_le upcase) (added k).
Proof.
  intros Hs Hv H1 H2. destruct (same_attr_new x_ok) as [A B]. apply added_sorted; [done| |].
  - apply (Forall_take _ k) in Hv. rewrite list.Forall_forall in H1, Hv |- *. intros y Hy. specialize (H1 y Hy). specialize (Hv y Hy). unfold ent_le. rewrite A, B.
    destruct (attr_cmp upcase (e_type y) (e_name y) (w_type w) (at_name x)) eqn:Ec; [|done|done]. apply Hv. by apply attr_cmp_eq in Ec.
  - eapply list.Forall_impl; [exact H2|]. intros y Hy. unfold ent_le. by rewrite A, B, Hy.
Qed.

Lemma added_split k : ents_of rents = take k (ents_of rents) ++ drop k (ents_of rents).
Proof. by rewrite take_drop. Qed.

Definition no_value_hit : Prop := Forall (fun t => same_attr w (at_name x) (re_ent t) -> ~ value_hit w (re_attr t)) rents.

(** an attribute of which the list has no extent, or none with its value, is
    added where the order wants it. *)
Theorem entry_add_new : StronglySorted (ent_le upcase) (ents_of rents) -> no_value_hit ->
  Forall (fun e' => same_attr w (at_name x) e' -> e_vcn e' <= e_vcn e) (ents_of rents) ->
  exists l1 l2, ents_of rents = l1 ++ l2 /\ StronglySorted (ent_le upcase) (l1 ++ e :: l2) /\
    ntfs_attrlist_entry_add memcmp upcase (zlen upcase) geo load resize_list b ni (ar_ofs r a1) = Ok (set_attr_list b2 (list_bytes (l1 ++ e :: l2)), None).
Proof.
  intros Hs Hno Hv. destruct (wanted_of_name x_ok) as [Hn Hwt].
  destruct (scan_missing upcase w (at_name x) ltac:(congruence) Hn rents Hs Hno) as (k & Esc & H1 & H2).
  exists (take k (ents_of rents)), (drop k (ents_of rents)). split; [apply added_split|]. split; [by apply place_new|].
  pose proof entry_add_spec as L. fold w in L. rewrite Esc in L. exact L.
Qed.

(** C22: an extent of a non-resident attribute is added right behind the extents of
    the attribute that begin before it, which keeps the list sorted; and one that
    the list has is refused.  The records are as truncating the attribute of the
    list left them, which succeeds and keeps the entries. *)
Theorem entry_add_extent : at_non_resident x <> 0 -> 0 <= at_lowest_vcn x -> StronglySorted (ent_le upcase) (ents_of rents) ->
  Forall (fun e' => 0 <= e_vcn e' /\ 0 ∉ e_name e') (ents_of rents) ->
  Exists (fun e' => same_attr w (at_name x) e' /\ e_vcn e' <= at_lowest_vcn x) (ents_of rents) ->
  (Exists (fun e' => same_attr w (at_name x) e' /\ e_vcn e' = at_lowest_vcn x) (ents_of rents) /\
   ntfs_attrlist_entry_add memcmp upcase (zlen upcase) geo load resize_list b ni (ar_ofs r a1) = Ok (b, Some EEXIST)) \/
  (~ Exists (fun e' => same_attr w (at_name x) e' /\ e_vcn e' = at_lowest_vcn x) (ents_of rents) /\
   exists l1 l2, ents_of rents = l1 ++ l2 /\ StronglySorted (ent_le upcase) (l1 ++ e :: l2) /\
     ntfs_attrlist_entry_add memcmp upcase (zlen upcase) geo load resize_list b ni (ar_ofs r a1) = Ok (set_attr_list b2 (list_bytes (l1 ++ e :: l2)), None)).
Proof.
  intros Hnr Hpos Hs Hnn Hex. destruct (wanted_of_name x_ok) as [Hn Hwt].
  assert (w_val w = None /\ w_lowest_vcn w = at_lowest_vcn x) as [Hval Hwv] by (unfold w, wanted_of; by rewrite (proj2 (Z.eqb_neq _ 0) Hnr)).
  assert (e_vcn e = at_lowest_vcn x) as Hev by (cbn; unfold attr_vcn; by rewrite (proj2 (Z.eqb_neq _ 0) Hnr)).
  destruct (scan_sorted upcase w (at_name x) ltac:(congruence) Hn Hval ltac:(congruence) rents Hs Hnn) as (k & t & Esc & Hk & Hsame & Hvk & Hall & Hafter); [by rewrite Hwv|].
  pose proof entry_add_spec as L. fold w in L. rewrite Esc, Hk in L. rewrite Hwv in *.
  pose proof (list_elem_of_lookup_2 _ _ _ Hk) as Htin. apply (list_elem_of_fmap_2 re_ent) in Htin. change (re_ent <$> rents) with (ents_of rents) in Htin.
  destruct (Z.eqb_spec (e_vcn (re_ent t)) (at_lowest_vcn x)) as [Ee|Ee].
  - left. split; [|done]. apply list.Exists_exists. by exists (re_ent t).
  - right. split.
    + intros Hx. apply list.Exists_exists in Hx as (y & Hy & Hsy & Hvy). rewrite list.Forall_forall in Hall. specialize (Hall y Hy Hsy). lia.
    + exists (take (S k) (ents_of rents)), (drop (S k) (ents_of rents)). split; [apply added_split|]. split; [|exact L].
      apply (place_behind k t); [done|done|done|by rewrite Hev|]. rewrite Hev. apply Hafter. rewrite list.Forall_forall in Hnn. destruct (Hnn (re_ent t) Htin). lia.
Qed.

(** an entry that was added is gone again when it is removed; the records are
    as truncating the attribute of the list left them. *)
Theorem entry_add_rm b' b3 : has_list b2 = true ->
  ntfs_attrlist_entry_add memcmp upcase (zlen upcase) geo load resize_list b ni (ar_ofs r a1) = Ok (b', None) ->
  resize_list b' (zlen (list_bytes (ents_of rents))) = (b3, None) -> attr_list b3 = attr_list b' ->
  exists k, attr_list b' = Some (list_bytes (added k)) /\
    ntfs_attrlist_entry_rm resize_list b' (ent_ofs (take k rents)) = Ok (set_attr_list b3 (list_bytes (ents_of rents)), None).
Proof.
  intros Hl2 Hadd Hr Hk3. assert (exists k, b' = set_attr_list b2 (list_bytes (added k))) as [k ->].
  { pose proof entry_add_spec as L. rewrite Hadd in L. destruct (al_scan _ _ _) as [k found]. destruct found; [|injection L as ->; by exists k].
    destruct (rents !! k) as [t|]; [|done]. destruct (_ =? _); [done|]. injection L as ->. by exists (S k). }
  exists k. split; [done|]. assert (ent_ofs (take k rents) = zlen (list_bytes (take k (ents_of rents)))) as -> by (unfold ent_ofs; by rewrite ents_of_take).
  rewrite (entry_rm_spec _ b3 (take k (ents_of rents)) e (drop k (ents_of rents))); rewrite ?take_drop; [done|done|done| |done|done].
  eapply ent_of_ok; [by eapply rec_at_ok|exact E|]. apply at_bytes_ranges, x_ok.
Qed.

End add.
End edit.
