(* ===== verification/AttrListEx.v ===== *)
(** Attribute lists on concrete inodes: the witnesses of the theorems, and what
    goes wrong in the code. *)

From stdpp Require Import sorting.
From S2P Require Import Prelude Bytes Fields Unistr Collate IndexNode AttrDef AttrRec AttrFind AttrRecThm AttrList AttrListThm AttrListFind AttrListLookup AttrListEdit.

(** * The inode *)

(** A non-resident unnamed $DATA extent. *)
Definition nr_attr (vcn inst : Z) : list Z :=
  le_bytes 4 0x80 ++ le_bytes 4 72 ++ [1; 0; 0; 0; 0; 0] ++ le_bytes 2 inst ++ le_bytes 8 vcn ++ replicate 48 0.

(** A record of 256 bytes with one such. *)
Definition rec_with (no seq : Z) (x : list Z) (slack : nat) : arec :=
  mk_arec no (replicate 16 0 ++ le_bytes 2 seq ++ [0; 0; 48; 0; 0; 0]) ([0; 1; 0; 0] ++ replicate 8 0) 3 (replicate 6 0) [x] ex_end (replicate slack 0).

Definition rec0 : arec := rec_with 30 1 (nr_attr 0 0) 128.
Definition rec1 : arec := rec_with 31 2 (nr_attr 8 1) 128.
Definition rec2 : arec := rec_with 32 3 (nr_attr 20 2) 128.

Definition rent_of (ni : ino_ref) (r : arec) (x : list Z) : rent := mk_rent (ent_of r at_instance x) ni r [] x [].

Definition rent0 : rent := rent_of InBase rec0 (nr_attr 0 0).
Definition rent1 : rent := rent_of (InExtent 0) rec1 (nr_attr 8 1).
Definition rent2 : rent := rent_of (InExtent 1) rec2 (nr_attr 20 2).

Definition data_at (vcn : Z) : wanted := mk_wanted 0x80 AtUnnamed 0 CASE_SENSITIVE vcn None 0.

Definition no_geometry : mft_geometry := mk_geometry 10 12 true None.
Definition no_load (mref : Z) : option ainode := None.

(** A heap that grants everything. *)
Definition full_heap : Heap := {| heap_grants := fun _ => true; heap_junk := fun _ => 0 |}.

(** * Its properties *)

Lemma nr_attr_ok vcn inst : vcn ∈ [0; 8; 20] -> inst ∈ [0; 1; 2] -> attr_ok (nr_attr vcn inst).
Proof.
  intros Hv Hi. rewrite !list.elem_of_cons in Hv, Hi. rewrite elem_of_nil in Hv, Hi.
  destruct Hv as [->|[->|[->|[]]]], Hi as [->|[->|[->|[]]]]; split; try done; try compute_decide; by left.
Qed.

Lemma rec_with_ok no seq vcn inst : 0 <= no < 2 ^ 48 -> seq ∈ [1; 2; 3] -> vcn ∈ [0; 8; 20] -> inst ∈ [0; 1; 2] -> arec_ok (rec_with no seq (nr_attr vcn inst) 128).
Proof.
  intros Hn Hs Hv Hi. pose proof (nr_attr_ok vcn inst Hv Hi) as Hx. assert (bytes (replicate 16 0 ++ le_bytes 2 seq ++ [0; 0; 48; 0; 0; 0]) /\ True) as [Hb _].
  { rewrite !list.elem_of_cons, elem_of_nil in Hs. destruct Hs as [->|[->|[->|[]]]]; split; (done || compute_decide). }
  split; [|done|done]. split; try done; try (cbn; lia).
  - by apply Forall_singleton.
  - split; compute_decide.
Qed.

Lemma recs_ok : records_ok rec0 [rec1; rec2].
Proof.
  split; [apply rec_with_ok; [done|compute_decide..]| |compute_decide|done].
  do 2 (apply Forall_cons_2; [apply rec_with_ok; [done|compute_decide..]|]). constructor.
Qed.

Lemma rent_of_ok ni r x : rec_at rec0 [rec1; rec2] ni = Some r -> ar_attrs r = [x] -> rent_ok rec0 [rec1; rec2] (rent_of ni r x).
Proof.
  intros Hr E. pose proof (rec_at_ok _ _ recs_ok _ _ Hr) as Hok. split; [|split; [done|]]; cbn [rent_of re_ent re_rec re_before re_attr re_after].
  - apply (ent_of_ok r Hok [] x [] E). apply at_bytes_ranges. by apply (ar_attr_ok r Hok [] x []).
  - apply ent_of_resolves; [done|done|done|constructor].
Qed.

Lemma rents_ok : Forall (rent_ok rec0 [rec1; rec2]) [rent0; rent1; rent2].
Proof. do 3 (apply Forall_cons_2; [by apply rent_of_ok|]). constructor. Qed.

Lemma data_at_ok vcn : wanted_ok (data_at vcn) /\ base_want (data_at vcn) (ar_attrs rec0).
Proof. split; split; done. Qed.

(** What is searched for in the examples. *)
Definition search (base : arec) (exts : list arec) (al : list Z) (w : wanted) : res (base_inode * al_ctx * option errno) :=
  let b := inode_of base exts (Some al) in
  ctx ← ntfs_attr_get_search_ctx b; ntfs_attr_lookup memcmp_diff [] 0 no_geometry no_load b w ctx.

(** A list whose attribute is truncated without any other change. *)
Definition same_inode (b : base_inode) (n : Z) : base_inode * option errno := (b, None).

Definition add_at (base : arec) (exts : list arec) (al : list Z) (ni : ino_ref) (a : Z) : res (base_inode * option errno) :=
  @ntfs_attrlist_entry_add full_heap memcmp_diff [] 0 no_geometry no_load same_inode (inode_of base exts (Some al)) ni a.

Definition ents012 : list al_ent := ents_of [rent0; rent1; rent2].

Lemma search_examples :
  (match search rec0 [rec1; rec2] (list_bytes ents012) (data_at 12) with Ok (_, ctx, None) => x_ino ctx = InExtent 0 /\ x_attr ctx = 48 | _ => False end) /\
  (match search rec0 [rec1; rec2] (list_bytes ents012) (data_at 20) with Ok (_, ctx, None) => x_ino ctx = InExtent 1 | _ => False end).
Proof. vm_compute. done. Qed.

(** * What goes wrong *)

(** An extent that begins before the first one of its attribute in the list is
    added behind it, although the code says that it checks the order: the list is
    not sorted any more, and a search for a vcn of the second extent finds the
    first. *)
Theorem entry_add_misplaces_first :
  match add_at rec0 [rec1; rec2] (list_bytes (ents_of [rent2])) (InExtent 0) 48 with
  | Ok (b', None) => attr_list b' = Some (list_bytes (ents_of [rent2; rent1])) /\
      match search rec0 [rec1; rec2] (list_bytes (ents_of [rent2; rent1])) (data_at 25) with Ok (_, ctx, None) => x_ino ctx = InExtent 0 | _ => False end
  | _ => False
  end /\ ~ StronglySorted (ent_le []) (ents_of [rent2; rent1]) /\ StronglySorted (ent_le []) (ents_of [rent2]).
Proof.
  split; [vm_compute; done|]. split; [|repeat constructor]. intros Hs. apply StronglySorted_inv in Hs as [_ Hs]. apply Forall_cons_1 in Hs as [Hs _].
  unfold ent_le in Hs. vm_compute in Hs. by apply Hs.
Qed.

(** A resident attribute that the list has is added once more: the vcn of the
    entry is compared with the bytes of the record at the offset of the vcn, where
    a resident attribute has the length and the offset of its value. *)
Theorem entry_add_resident_twice :
  let base := rec_with 30 1 ex_attr 168 in
  let e := ent_of base at_instance ex_attr in
  match add_at base [] (list_bytes [e]) InBase 48 with
  | Ok (b', None) => attr_list b' = Some (list_bytes [e; e])
  | _ => False
  end.
Proof. vm_compute. done. Qed.

(** The entry behind the one in hand is read before it is known to lie in the
    list: its length of eight bytes ends with the list, its vcn is behind it. *)
Theorem next_entry_overread :
  let al := ent_bytes (re_ent rent0) ++ [0x80; 0; 0; 0; 8; 0; 0; 0] in
  search rec0 [] al (data_at 5) = Undef.
Proof. vm_compute. done. Qed.

(** The reference of an entry to an attached extent whose sequence number is
    another is taken all the same: the error is logged, the extent returned. *)
Theorem stale_extent_taken :
  let b := inode_of rec0 [rec1; rec2] None in
  ntfs_extent_inode_open no_geometry no_load b (MK_MREF 31 7) = Ok (Some (b, 0%nat)) /\ ar_seq rec1 <> 7.
Proof. vm_compute. done. Qed.

(** * Witnesses *)

Lemma ents012_sorted : StronglySorted (ent_le []) ents012.
Proof. repeat constructor; unfold ent_le; vm_compute; discriminate. Qed.

Lemma ents012_vcns : Forall (fun e => 0 <= e_vcn e /\ 0 ∉ e_name e) ents012.
Proof. repeat constructor; cbn; by apply not_elem_of_nil || (vm_compute; discriminate). Qed.

Lemma al_lookup_correct_witness :
  let '(k, found) := al_scan [] (data_at 12) [rent0; rent1; rent2] in
  (k, found) = (1%nat, true) /\
  exists ctx, search rec0 [rec1; rec2] (list_bytes ents012) (data_at 12) = Ok (inode_of rec0 [rec1; rec2] (Some (list_bytes ents012)), ctx, None) /\ x_ino ctx = InExtent 0.
Proof.
  destruct (data_at_ok 12) as [Hw Hb].
  pose proof (al_lookup_correct memcmp_diff [] memcmp_diff_law (Forall_nil_2 _) no_geometry eq_refl no_load rec0 [rec1; rec2] recs_ok [rent0; rent1; rent2] rents_ok (data_at 12) Hw
    ltac:(discriminate) ltac:(discriminate) Hb) as H.
  assert (al_scan [] (data_at 12) [rent0; rent1; rent2] = (1%nat, true)) as E by (vm_compute; reflexivity). rewrite E in H. rewrite E.
  split; [reflexivity|]. destruct H as (ctx & H & _ & _ & Hf). destruct (Hf eq_refl) as (t & Ht & Hi & _). exists ctx. split; [exact H|]. cbn in Ht. injection Ht as <-. exact Hi.
Defined.

Lemma al_lookup_extent_witness :
  exists ctx, search rec0 [rec1; rec2] (list_bytes ents012) (data_at 25) = Ok (inode_of rec0 [rec1; rec2] (Some (list_bytes ents012)), ctx, None).
Proof.
  destruct (data_at_ok 25) as [Hw Hb].
  destruct (al_lookup_extent memcmp_diff [] memcmp_diff_law (Forall_nil_2 _) no_geometry eq_refl no_load rec0 [rec1; rec2] recs_ok [rent0; rent1; rent2] rents_ok (data_at 25) [] Hw
    ltac:(discriminate) ltac:(discriminate) eq_refl eq_refl ltac:(vm_compute; discriminate) ents012_sorted ents012_vcns) as (ctx & t & H & _).
  { left. split; [split; reflexivity|]. vm_compute. discriminate. }
  exists ctx. exact H.
Defined.

Lemma attrlist_need_correct_witness : ntfs_attrlist_need 4 (inode_of rec0 [rec1; rec2] (Some (list_bytes ents012))) = Ok 1.
Proof.
  rewrite (attrlist_need_correct 4 (inode_of rec0 [rec1; rec2] (Some (list_bytes ents012))) ents012 eq_refl eq_refl); [vm_compute; reflexivity| |compute_decide].
  exact (rents_ents_ok _ _ _ rents_ok).
Defined.

Lemma attrlist_need_loops_witness :
  ntfs_attrlist_need 1000 (mk_base (mk_ainode 30 []) [] true (Some (replicate 16 0 ++ [30; 0; 0; 0; 0; 0; 0; 0]))) = Undef.
Proof.
  apply (attrlist_need_loops 1000 _ (replicate 16 0 ++ [30; 0; 0; 0; 0; 0; 0; 0])); [reflexivity|reflexivity|vm_compute; discriminate|reflexivity|].
  exists 30. split; reflexivity.
Defined.

(** The second extent is added to a list of the first and the third. *)
Lemma rents02_ok : Forall (rent_ok rec0 [rec1; rec2]) [rent0; rent2].
Proof. do 2 (apply Forall_cons_2; [by apply rent_of_ok|]). constructor. Qed.

Lemma ents02_sorted : StronglySorted (ent_le []) (ents_of [rent0; rent2]).
Proof. repeat constructor; unfold ent_le; vm_compute; discriminate. Qed.

Lemma ents02_vcns : Forall (fun e => 0 <= e_vcn e /\ 0 ∉ e_name e) (ents_of [rent0; rent2]).
Proof. repeat constructor; cbn; by apply not_elem_of_nil || (vm_compute; discriminate). Qed.

Lemma wanted1_ok : base_want (wanted_of (nr_attr 8 1)) (ar_attrs rec0).
Proof. split; done. Qed.

Lemma entry_add_extent_witness : exists l1 l2, ents_of [rent0; rent2] = l1 ++ l2 /\ StronglySorted (ent_le []) (l1 ++ re_ent rent1 :: l2) /\
  add_at rec0 [rec1; rec2] (list_bytes (ents_of [rent0; rent2])) (InExtent 0) 48 =
    Ok (inode_of rec0 [rec1; rec2] (Some (list_bytes (l1 ++ re_ent rent1 :: l2))), None).
Proof.
  destruct (@entry_add_extent full_heap (fun _ => eq_refl) memcmp_diff [] memcmp_diff_law (Forall_nil_2 _) no_geometry eq_refl no_load same_inode rec0 [rec1; rec2] recs_ok
    [rent0; rent2] rents02_ok (InExtent 0) rec1 eq_refl [] (nr_attr 8 1) [] eq_refl ltac:(vm_compute; discriminate) ltac:(vm_compute; discriminate) wanted1_ok _ eq_refl eq_refl
    ltac:(vm_compute; discriminate) ltac:(vm_compute; discriminate) ents02_sorted ents02_vcns) as [[H _]|[_ H]].
  - left. split; [split; reflexivity|]. vm_compute. discriminate.
  - exfalso. apply list.Exists_exists in H as (y & Hy & _ & Hv). cbn [ents_of map] in Hy. rewrite !list.elem_of_cons, elem_of_nil in Hy. destruct Hy as [->|[->|[]]]; vm_compute in Hv; discriminate Hv.
  - exact H.
Defined.

Lemma entry_add_rm_witness : exists b', add_at rec0 [rec1; rec2] (list_bytes (ents_of [rent0; rent2])) (InExtent 0) 48 = Ok (b', None) /\
  exists p, @ntfs_attrlist_entry_rm full_heap same_inode b' p = Ok (inode_of rec0 [rec1; rec2] (Some (list_bytes (ents_of [rent0; rent2]))), None).
Proof.
  eexists. split; [vm_compute; reflexivity|].
  edestruct (@entry_add_rm full_heap (fun _ => eq_refl) memcmp_diff [] memcmp_diff_law (Forall_nil_2 _) no_geometry eq_refl no_load same_inode rec0 [rec1; rec2] recs_ok
    [rent0; rent2] rents02_ok (InExtent 0) rec1 eq_refl [] (nr_attr 8 1) [] eq_refl ltac:(vm_compute; discriminate) ltac:(vm_compute; discriminate) wanted1_ok _ eq_refl eq_refl) as (k & _ & H).
  - reflexivity.
  - vm_compute. reflexivity.
  - reflexivity.
  - reflexivity.
  - eexists. exact H.
Defined.

(** An attribute of another type. *)
Definition rec3 : arec := rec_with 30 1 ex_attr 168.

Lemma rec3_ok : records_ok rec3 [].
Proof.
  split; [|constructor|compute_decide|done]. split; [|done|compute_decide]. split; try done; [by apply Forall_singleton; apply ex_attr_ok|split; compute_decide].
Qed.

Lemma entry_add_new_witness : exists l1 l2, [] = l1 ++ l2 /\ StronglySorted (ent_le []) (l1 ++ ent_of rec3 at_instance ex_attr :: l2) /\
  add_at rec3 [] [] InBase 48 = Ok (inode_of rec3 [] (Some (list_bytes (l1 ++ ent_of rec3 at_instance ex_attr :: l2))), None).
Proof.
  refine (@entry_add_new full_heap (fun _ => eq_refl) memcmp_diff [] memcmp_diff_law (Forall_nil_2 _) no_geometry eq_refl no_load same_inode rec3 [] rec3_ok
    [] (Forall_nil_2 _) InBase rec3 eq_refl [] ex_attr [] eq_refl ltac:(vm_compute; discriminate) ltac:(vm_compute; discriminate) _ _ eq_refl eq_refl (SSorted_nil _) (Forall_nil_2 _) (Forall_nil_2 _)).
  split; [done|done|]. split; [done|]. by apply Forall_singleton.
Defined.
