(* ===== verification/FsckAttrList.v ===== *)
(** The list of attributes that ntfsck builds anew from the records of an inode
    (src/ntfsck.c): collecting the attributes, sorting them and writing the
    entries. *)

From S2P Require Import Prelude Bytes Unistr AttrDef AttrRec AttrList.

(** [struct ntfsck_attrlist_item] *)
Record attrlist_item := mk_item { record_ni : ino_ref; it_attr : Z }.

(** The largest list. *)
Definition MAX_ATTRLIST : Z := 0x40000.

Section rebuild.
Context {HP : Heap} (memcmp : list Z -> list Z -> Z) (upcase : list Z) (upcase_len : Z).

(** ** Collecting *)

(** The size of an item. *)
Definition item_size : Z := 16.

(** The array grows from 16 items on, by doubling; false for a failed
    allocation. *)
Definition grow (count capacity : Z) : Z * bool :=
  if count =? capacity then
    let new_capacity := if capacity =? 0 then 16 else capacity * 2 in
    (new_capacity, heap_grants (new_capacity * item_size))
  else (capacity, true).

(** [while (!(ret = ntfs_attrs_walk(ctx)))] over one record; None: an error. *)
Fixpoint walk_record (fuel : nat) (ni : ino_ref) (m : list Z) (c : search_ctx) (collected : list attrlist_item) (capacity : Z)
    : res (option (list attrlist_item * Z)) :=
  match fuel with
  | O => Undef
  | S fuel =>
      '(c, e) ← ntfs_attr_find memcmp upcase upcase_len m AT_UNUSED AnyName 0 CASE_SENSITIVE None 0 c;
      match e with
      | Some ENOENT => Ok (Some (collected, capacity))
      | Some _ => Ok None
      | None =>
          t ← a_type m (ctx_attr c);
          if t =? AT_ATTRIBUTE_LIST then walk_record fuel ni m c collected capacity else
          let '(capacity, granted) := grow (zlen collected) capacity in
          if granted then walk_record fuel ni m c (collected ++ [mk_item ni (ctx_attr c)]) capacity else Ok None
      end
  end.

(** The base record, then the extents. *)
Fixpoint walk_records (b : base_inode) (nis : list ino_ref) (collected : list attrlist_item) (capacity : Z)
    : res (option (list attrlist_item)) :=
  match nis with
  | [] => Ok (Some collected)
  | ni :: nis =>
      n ← ino_of b ni;
      c ← ntfs_attr_init_search_ctx (mrec n);
      r ← walk_record (S (length (mrec n))) ni (mrec n) c collected capacity;
      match r with
      | Some (collected, capacity) => walk_records b nis collected capacity
      | None => Ok None
      end
  end.

Definition all_records (b : base_inode) : list ino_ref := InBase :: map InExtent (seq 0 (length (extent_nis b))).

Definition ntfsck_collect_attrlist_items (b : base_inode) : res (option (list attrlist_item)) :=
  walk_records b (all_records b) [] 0.

(** ** Sorting *)

(** The vcn of the first cluster, zero for a resident attribute. *)
Definition item_lowest_vcn (m : list Z) (a : Z) : res Z :=
  nr ← a_non_resident m a;
  if negb (nr =? 0) then a_lowest_vcn m a else Ok 0.

(** Smaller, equal, larger. *)
Definition cmp_num (a b : Z) : Z := if a <? b then -1 else if b <? a then 1 else 0.

(** The difference of the types is an [int]. *)
Definition compare_types (t1 t2 : Z) : Z := s32 (s32 t1 - s32 t2).

Definition compare_names (m1 : list Z) (a1 : Z) (m2 : list Z) (a2 : Z) : res Z :=
  n1 ← a_name_length m1 a1;
  n2 ← a_name_length m2 a2;
  if (n1 =? 0) && negb (n2 =? 0) then Ok (-1) else
  if negb (n1 =? 0) && (n2 =? 0) then Ok 1 else
  if negb (n1 =? 0) && negb (n2 =? 0) then
    s1 ← a_name m1 a1;
    s2 ← a_name m2 a2;
    ntfs_names_full_collate s1 n1 s2 n2 CASE_SENSITIVE upcase upcase_len
  else Ok 0.

Definition ntfsck_compare_attrlist_items (b : base_inode) (left right : attrlist_item) : res Z :=
  n1 ← ino_of b (record_ni left);
  n2 ← ino_of b (record_ni right);
  let m1 := mrec n1 in
  let m2 := mrec n2 in
  t1 ← a_type m1 (it_attr left);
  t2 ← a_type m2 (it_attr right);
  let rc := compare_types t1 t2 in
  if negb (rc =? 0) then Ok rc else
  rc ← compare_names m1 (it_attr left) m2 (it_attr right);
  if negb (rc =? 0) then Ok rc else
  v1 ← item_lowest_vcn m1 (it_attr left);
  v2 ← item_lowest_vcn m2 (it_attr right);
  if negb (cmp_num v1 v2 =? 0) then Ok (cmp_num v1 v2) else
  i1 ← (if v1 =? 0 then a_instance m1 (it_attr left) else Ok 0);
  i2 ← (if v2 =? 0 then a_instance m2 (it_attr right) else Ok 0);
  if negb (cmp_num i1 i2 =? 0) then Ok (cmp_num i1 i2) else
  Ok (cmp_num (mft_no n1) (mft_no n2)).

Section sort.
Context (compare : attrlist_item -> attrlist_item -> res Z).

(** [while (sort_index > 0 && compare(&items[sort_index - 1], &item) > 0)] *)
Fixpoint shift_items (sort_index : nat) (items : list attrlist_item) (item : attrlist_item) : res (list attrlist_item * Z) :=
  match sort_index with
  | O => Ok (items, 0)
  | S k =>
      prev ← aget items (Z.of_nat k);
      rc ← compare prev item;
      if 0 <? rc then items ← aset items (Z.of_nat sort_index) prev; shift_items k items item
      else Ok (items, Z.of_nat sort_index)
  end.

(** [for (index = 1; index < count; index++)] *)
Fixpoint sort_loop (n : nat) (index : Z) (items : list attrlist_item) : res (list attrlist_item) :=
  match n with
  | O => Ok items
  | S n =>
      item ← aget items index;
      '(items, k) ← shift_items (Z.to_nat index) items item;
      items ← aset items k item;
      sort_loop n (index + 1) items
  end.

Definition sort_items (items : list attrlist_item) : res (list attrlist_item) := sort_loop (pred (length items)) 1 items.

End sort.

Definition ntfsck_sort_attrlist_items (b : base_inode) (items : list attrlist_item) : res (list attrlist_item) :=
  sort_items (ntfsck_compare_attrlist_items b) items.

(** ** Writing the list *)

(** The length of the list; None when it is too long. *)
Fixpoint list_length (b : base_inode) (items : list attrlist_item) (new_al_len : Z) : res (option Z) :=
  match items with
  | [] => Ok (Some new_al_len)
  | it :: items =>
      n ← ino_of b (record_ni it);
      nl ← a_name_length (mrec n) (it_attr it);
      let entry_len := al_entry_len nl in
      if u32 (MAX_ATTRLIST - entry_len) <? new_al_len then Ok None else list_length b items (u32 (new_al_len + entry_len))
  end.

(** The entry of an item, written at [offset] of the cleared list. *)
Definition write_entry (b : base_inode) (new_al : list Z) (offset : Z) (it : attrlist_item) : res (list Z * Z) :=
  n ← ino_of b (record_ni it);
  let m := mrec n in
  let a := it_attr it in
  nl ← a_name_length m a;
  let entry_len := al_entry_len nl in
  t ← a_type m a;
  nr ← a_non_resident m a;
  v ← item_lowest_vcn m a;
  seq ← m_sequence_number m;
  i ← a_instance m a;
  let inst := if negb (nr =? 0) && negb (v =? 0) then 0 else i in
  name ← name_bytes m a;
  new_al ← put_entry new_al offset t entry_len nl v (MK_MREF (mft_no n) seq) inst name;
  Ok (new_al, offset + entry_len).

Fixpoint write_entries (b : base_inode) (items : list attrlist_item) (new_al : list Z) (offset : Z) : res (list Z) :=
  match items with
  | [] => Ok new_al
  | it :: items =>
      '(new_al, offset) ← write_entry b new_al offset it;
      write_entries b items new_al offset
  end.

(** ** Storing the list *)

(** The list in memory is replaced. *)
Definition install_list (b : base_inode) (new_al : list Z) : base_inode := mk_base (base_ni b) (extent_nis b) true (Some new_al).

(** [store_list]: the attribute is opened, truncated to the length of the list,
    and the list written to it, which may change every record of the inode; the
    inode afterwards, and whether all of this succeeds.  The status is 0 or -1. *)
Definition ntfsck_rebuild_attr_list (store_list : base_inode -> list Z -> res (base_inode * bool)) (b : base_inode) : res (base_inode * Z) :=
  if negb (has_list b) || bool_decide (attr_list b = None) then Ok (b, -1) else
  items ← ntfsck_collect_attrlist_items b;
  match items with
  | None | Some [] => Ok (b, -1)
  | Some items =>
      items ← ntfsck_sort_attrlist_items b items;
      l ← list_length b items 0;
      match l with
      | None => Ok (b, -1)
      | Some new_al_len =>
          if negb (heap_grants new_al_len) then Ok (b, -1) else
          new_al ← write_entries b items (replicate (Z.to_nat new_al_len) 0) 0;
          '(b, stored) ← store_list b new_al;
          Ok (if stored : bool then (install_list b new_al, 0) else (b, -1))
      end
  end.

(** The calls that store the list, when its attribute is resident and unnamed:
    [ntfs_attr_open] finds it in the base record and wipes its flags,
    [ntfs_attr_truncate] resizes its value when the record has room
    ([ntfs_resident_attr_resize_i]), [ntfs_attr_pwrite] copies the list to it
    and writes the record ([write_record], whether this succeeds).
    [store_other]: what the calls do from there on in every other case. *)
Section store.
Context (attrdef : option (list Z)) (attrdef_len mft_record_size : Z) (write_record : list Z -> bool).
Context (store_other : base_inode -> list Z -> res (base_inode * bool)).

(** [ntfs_attr_truncate] *)
Definition truncate_list (m : list Z) (a newsize : Z) : res (list Z * resize_result) :=
  vl ← a_value_length m a;
  if vl =? newsize then Ok (m, Resized) else
  match ntfs_attr_size_bounds_check attrdef attrdef_len AT_ATTRIBUTE_LIST newsize with
  | Undef => Undef
  | Err e => Ok (m, ResizeErr (if decide (e = ENOENT) then EIO else e))
  | Ok _ => if newsize <? mft_record_size then ntfs_resident_attr_value_resize m a newsize else Ok (m, ResizeErr ENOSPC)
  end.

(** [ntfs_attr_pwrite] *)
Definition write_list (b : base_inode) (m : list Z) (a : Z) (new_al : list Z) : res (base_inode * bool) :=
  vo ← a_value_offset m a;
  vl ← a_value_length m a;
  if mft_record_size <? a + vo + vl then Ok (set_mrec b InBase m, false) else
  m ← awrite m (a + vo) new_al;
  Ok (set_mrec b InBase m, write_record m).

Definition store_resident_list (b : base_inode) (new_al : list Z) : res (base_inode * bool) :=
  let m := mrec (base_ni b) in
  c ← ntfs_attr_init_search_ctx m;
  '(c, e) ← ntfs_attr_find memcmp upcase upcase_len m AT_ATTRIBUTE_LIST AnyName 0 CASE_SENSITIVE None 0 c;
  match e with
  | Some _ => Ok (b, false)
  | None =>
      let a := ctx_attr c in
      nr ← a_non_resident m a;
      nl ← a_name_length m a;
      if negb (nr =? 0) || negb (nl =? 0) then store_other b new_al else
      m ← put_le 2 m (a + 12) 0;
      '(m, r) ← truncate_list m a (zlen new_al);
      match r with
      | Resized => write_list b m a new_al
      | _ => store_other (set_mrec b InBase m) new_al
      end
  end.

End store.

End rebuild.
