(* ===== verification/FsckAttrStore.v ===== *)
(** Storing the rebuilt attribute list: when its attribute is resident in the
    base record and the record has room, the list becomes its value and every
    other attribute stays where it is. *)

From S2P Require Import Prelude Bytes Fields Unistr Collate IndexNode AttrDef AttrRec AttrFind AttrRecThm AttrValueThm AttrAddThm AttrList AttrListThm AttrListFind FsckAttrList.

(** * Specification *)

(** The attribute [x] of the base record is the one of the list, and it can hold
    [n] bytes. *)
Record resident_list (base : arec) (a1 : list (list Z)) (x : list Z) (a2 : list (list Z)) (n : Z) : Prop := {
  rl_attrs : ar_attrs base = a1 ++ x :: a2;
  rl_before : Forall (fun y => at_type y < AT_ATTRIBUTE_LIST) a1;
  rl_type : at_type x = AT_ATTRIBUTE_LIST;
  rl_resident : resident_ok x;
  rl_unnamed : at_name_length x = 0;
  rl_fits : size_with x n <= zlen x + zlen (ar_slack base)
}.

(** The record with another attribute in the place of [x]. *)
Definition with_attr (base : arec) (a1 : list (list Z)) (x : list Z) (a2 : list (list Z)) (slack : list Z) : arec :=
  mk_arec (ar_no base) (ar_h0 base) (ar_h1 base) (ar_inst base) (ar_h2 base) (a1 ++ x :: a2) (ar_eb base) slack.

(** * Proofs *)

(** Attributes of the same size with the same header, but for the flags. *)
Record same_header (b b' : list Z) : Prop := {
  sh_zlen : zlen b' = zlen b;
  sh_bytes : bytes b';
  sh_fld : forall n f, (f + n <= 12 \/ (14 <= f /\ f + n <= 24))%nat -> fld n f b' = fld n f b
}.

Lemma same_header_trans b1 b2 b3 : same_header b1 b2 -> same_header b2 b3 -> same_header b1 b3.
Proof. intros [A1 _ F1] [A2 B2 F2]. split; [congruence|done|]. intros n f H. by rewrite F2, F1. Qed.

Lemma same_header_upd k l b : attr_ok b -> bytes l -> (k + length l <= length b)%nat -> (k = 12 /\ length l = 2 \/ 24 <= k)%nat -> same_header b (upd k l b).
Proof.
  intros Hb Hl Hk Hp. split; [by apply upd_field_zlen|by apply upd_bytes, Hb|]. intros n f Hf. apply fld_upd_other; [done|lia].
Qed.

Section header.
Context (b b' : list Z) (Hr : resident_ok b) (Hh : same_header b b').

Lemma header_fields : at_type b' = at_type b /\ at_length b' = at_length b /\ at_non_resident b' = at_non_resident b /\ at_name_length b' = at_name_length b /\
  at_name_offset b' = at_name_offset b /\ at_value_length b' = at_value_length b /\ at_value_offset b' = at_value_offset b /\ at_instance b' = at_instance b.
Proof. destruct Hh as [_ _ F]. split_and!; apply F; lia. Qed.

Lemma header_start : value_start b' = value_start b.
Proof. destruct header_fields as (_ & _ & _ & En & _ & El & Eo & _). unfold value_start. by rewrite En, El, Eo. Qed.

Lemma header_resident : resident_ok b'.
Proof.
  pose proof header_start as Es. destruct header_fields as (Et & Ele & Er & En & Eno & El & Eo & _). pose proof (sh_zlen _ _ Hh) as Ez.
  destruct Hr as [[? ? ? ? ? ? ?] ? ? ?]. split; [split|..]; rewrite ?Es, ?Et, ?Ele, ?Er, ?En, ?Eno, ?El, ?Eo, ?Ez; try done. apply Hh.
Qed.

Lemma header_size n : size_with b' n = size_with b n.
Proof. unfold size_with. by rewrite header_start. Qed.

End header.

Lemma at_value_zlen b : attr_ok b -> at_non_resident b = 0 -> zlen (at_value b) = at_value_length b.
Proof.
  intros Hb Hr. pose proof (ao_value b Hb Hr). pose proof (value_length_range b Hb). pose proof (value_offset_range b Hb).
  unfold at_value, zlen in *. rewrite length_take, length_drop. lia.
Qed.

Lemma flags_instance b b' : attr_ok b -> attr_ok b' -> fld 4 12 b' = fld 4 12 b -> at_instance b' = at_instance b.
Proof.
  intros Hb Hb' E. pose proof (attr_length_nat b Hb). pose proof (attr_length_nat b' Hb').
  assert (forall c, at_instance c = le (drop 2 (take 4 (drop 12 c)))) as Ei by (intros c; unfold at_instance, fld; by rewrite skipn_firstn_comm, drop_drop).
  rewrite !Ei. f_equal. f_equal. apply le_inj; [apply Forall_take, Forall_drop, Hb'|apply Forall_take, Forall_drop, Hb|rewrite !length_take, !length_drop; lia|exact E].
Qed.

Section store.
Context (memcmp : list Z -> list Z -> Z) (upcase : list Z) (Hmemcmp : memcmp_law memcmp).
Context (attrdef : option (list Z)) (attrdef_len : Z) (write_record : list Z -> bool) (Hwrite : forall m, write_record m = true).
Context (store_other : base_inode -> list Z -> res (base_inode * bool)).
Context (base : arec) (Hbase : arec_ok base) (a1 : list (list Z)) (x : list Z) (a2 : list (list Z)) (new_al : list Z).
Context (Hlist : resident_list base a1 x a2 (zlen new_al)) (Hnew : bytes new_al) (Hpos : 0 < zlen new_al < 2 ^ 20).
Let size := zlen (ar_bytes base).
Context (Hsize : zlen new_al < size) (Hbounds : ntfs_attr_size_bounds_check attrdef attrdef_len AT_ATTRIBUTE_LIST (zlen new_al) = Ok tt).

Lemma with_attr_self : base = with_attr base a1 x a2 (ar_slack base).
Proof. unfold with_attr. rewrite <- (rl_attrs _ _ _ _ _ Hlist). by destruct base. Qed.

Lemma with_attr_bytes y slack : ar_bytes (with_attr base a1 y a2 slack) = rec_of (ar_h0 base) (ar_h1 base) (ar_inst base) (ar_h2 base) (a1 ++ y :: a2) (ar_eb base) slack.
Proof. done. Qed.

Lemma base_wf : rec_wf (ar_h0 base) (ar_h1 base) (ar_inst base) (ar_h2 base) (a1 ++ x :: a2) (ar_eb base) (ar_slack base).
Proof. rewrite <- (rl_attrs _ _ _ _ _ Hlist). apply Hbase. Qed.

(** Reading from and writing to the attribute in its place. *)
Lemma place (y slack : list Z) : exists pre post : list Z, zlen pre = ar_ofs base a1 /\ forall y' : list Z, zlen y' = zlen y -> ar_bytes (with_attr base a1 y' a2 slack) = pre ++ y' ++ post.
Proof.
  destruct (in_place (ar_h0 base) (ar_h1 base) (ar_inst base) (ar_h2 base) a1 a2 (ar_eb base) y slack) as (pre & post & Ep & E); [apply base_wf..|].
  exists pre, post. split; [exact Ep|]. intros y' Hy. rewrite with_attr_bytes. by apply E.
Qed.

Lemma find_list : (c ← ntfs_attr_init_search_ctx (ar_bytes base);
   ntfs_attr_find memcmp upcase (zlen upcase) (ar_bytes base) AT_ATTRIBUTE_LIST AnyName 0 CASE_SENSITIVE None 0 c) = Ok (mk_ctx (ar_ofs base a1) false, None).
Proof.
  rewrite with_attr_self, with_attr_bytes. rewrite (find_spec _ _ _ _ _ _ _ base_wf) by (done || by split).
  rewrite scan_found; [done| |].
  - eapply list.Forall_impl; [exact (rl_before _ _ _ _ _ Hlist)|]. intros y Hy. unfold want_cmp. cbn [Z.eqb AT_ATTRIBUTE_LIST AT_UNUSED]. by rewrite (proj2 (Z.compare_gt_iff _ _)).
  - unfold want_cmp. rewrite (rl_type _ _ _ _ _ Hlist), Z.compare_refl. done.
Qed.

(** The flags are wiped. *)
Let x1 := upd 12 (le_bytes 2 0) x.

Lemma x1_header : same_header x x1.
Proof.
  pose proof (rs_ok x (rl_resident _ _ _ _ _ Hlist)) as Hx. pose proof (attr_length_nat x Hx).
  apply same_header_upd; [done|apply le_bytes_bytes|rewrite le_bytes_length; lia|left; by rewrite le_bytes_length].
Qed.

(** The value is resized. *)
Lemma truncate_spec : exists x2 slack', truncate_list attrdef attrdef_len size (ar_bytes (with_attr base a1 x1 a2 (ar_slack base))) (ar_ofs base a1) (zlen new_al) =
    Ok (ar_bytes (with_attr base a1 x2 a2 slack'), Resized) /\
  rec_wf (ar_h0 base) (ar_h1 base) (ar_inst base) (ar_h2 base) (a1 ++ x2 :: a2) (ar_eb base) slack' /\
  resident_ok x2 /\ at_value_length x2 = zlen new_al /\ at_type x2 = AT_ATTRIBUTE_LIST /\ at_instance x2 = at_instance x.
Proof.
  pose proof Hlist as [_ _ Ht Hr Hu Hfit]. pose proof x1_header as Hh. pose proof (header_resident x x1 Hr Hh) as Hr1.
  destruct (header_fields x x1 Hh) as (Et & _ & _ & _ & _ & El & _ & Ei). pose proof (swap_wf _ _ _ _ _ _ _ _ _ _ base_wf (rs_ok _ Hr1) (sh_zlen _ _ Hh)) as Hwf1.
  unfold truncate_list. destruct (place x1 (ar_slack base)) as (pre & post & Ep & E).
  assert (a_value_length (ar_bytes (with_attr base a1 x1 a2 (ar_slack base))) (ar_ofs base a1) = Ok (at_value_length x1)) as ->.
  { rewrite (E x1 eq_refl), <- Ep. apply value_length_at, Hr1. }
  cbn [mbind res_bind]. destruct (Z.eqb_spec (at_value_length x1) (zlen new_al)) as [Eq|Ne].
  { exists x1, (ar_slack base). split; [done|]. split; [done|]. split; [done|]. split; [done|]. split; [congruence|done]. }
  rewrite Hbounds, (proj2 (Z.ltb_lt _ _) Hsize).
  destruct (value_resize_ok _ _ _ _ _ _ _ _ _ (zlen new_al) Hwf1 Hr1) as (x2 & slack' & E2 & Hwf2 & Hr2 & [St _ _ Sf _] & Sv).
  - change (2 ^ 30 - 2 ^ 17) with 1073610752. lia.
  - by rewrite (header_size x x1 Hh), (sh_zlen _ _ Hh).
  - right. unfold too_big_root. rewrite Et, Ht. done.
  - exists x2, slack'. split; [exact E2|]. split; [done|]. split; [done|]. split; [|split; [congruence|]].
    + rewrite <- at_value_zlen by apply Hr2. rewrite Sv. unfold zlen. rewrite length_take, length_app, length_replicate. lia.
    + rewrite <- Ei. by apply flags_instance; [apply Hr1|apply Hr2|].
Qed.

(** The list is the value now. *)
Lemma write_spec b x2 slack' : rec_wf (ar_h0 base) (ar_h1 base) (ar_inst base) (ar_h2 base) (a1 ++ x2 :: a2) (ar_eb base) slack' ->
  zlen (ar_bytes (with_attr base a1 x2 a2 slack')) = size -> resident_ok x2 -> at_value_length x2 = zlen new_al ->
  exists x3, write_list size write_record b (ar_bytes (with_attr base a1 x2 a2 slack')) (ar_ofs base a1) new_al =
    Ok (set_mrec b InBase (ar_bytes (with_attr base a1 x3 a2 slack')), true) /\ same_header x2 x3 /\ at_value x3 = new_al.
Proof.
  intros Hwf Hz Hr El. pose proof (rs_ok x2 Hr) as Hx. pose proof (ao_value x2 Hx (rs_resident x2 Hr)) as Hv. pose proof (rs_start x2 Hr) as Hs.
  assert (value_start x2 = at_value_offset x2) as Evs by (unfold value_start; by rewrite (proj2 (Z.eqb_neq _ 0)) by lia). rewrite Evs in Hs. unfold resident_end in Hs.
  destruct (place x2 slack') as (pre & post & Ep & E). set (vo := at_value_offset x2) in *. exists (upd (Z.to_nat vo) new_al x2).
  assert (same_header x2 (upd (Z.to_nat vo) new_al x2)) as Hh by (apply same_header_upd; [done|done|unfold zlen in *; lia|right; lia]).
  assert (zlen pre + vo + at_value_length x2 <= size) as Hfit by (rewrite <- Hz, (E x2 eq_refl), !zlen_app; pose proof (zlen_nonneg post); lia).
  split; [|split; [done|]].
  - rewrite (E _ (sh_zlen _ _ Hh)), (E x2 eq_refl), <- Ep. unfold write_list. rewrite value_offset_at, value_length_at by done. cbn [mbind res_bind].
    fold vo. rewrite (proj2 (Z.ltb_ge _ _)) by done. replace (zlen pre + vo) with (zlen pre + Z.of_nat (Z.to_nat vo)) by lia.
    rewrite awrite_at by (unfold zlen in *; lia). cbn [mbind res_bind]. by rewrite Hwrite.
  - destruct (header_fields _ _ Hh) as (_ & _ & _ & _ & _ & El3 & Eo3 & _). unfold at_value. rewrite Eo3, El3, El. fold vo. rewrite zlen_to_nat.
    apply seg_upd_same. unfold zlen in *. lia.
Qed.

(** The list is stored, and nothing else of the record changes but the room
    left. *)
Lemma store_resident_spec exts al : exists x' slack',
  store_resident_list memcmp upcase (zlen upcase) attrdef attrdef_len size write_record store_other (inode_of base exts al) new_al =
    Ok (inode_of (with_attr base a1 x' a2 slack') exts al, true) /\
  arec_ok (with_attr base a1 x' a2 slack') /\ at_type x' = AT_ATTRIBUTE_LIST /\ at_instance x' = at_instance x /\ at_non_resident x' = 0 /\ at_value x' = new_al.
Proof.
  pose proof Hlist as [_ _ Ht Hr Hu _]. pose proof (rs_ok x Hr) as Hx. destruct truncate_spec as (x2 & slack' & E2 & Hwf2 & Hr2 & El2 & Et2 & Ei2).
  destruct (write_spec (inode_of base exts al) x2 slack' Hwf2) as (x3 & E3 & Hh3 & Ev3); [|done|done|].
  { pose proof (f_equal (fun r => zlen (ar_bytes r)) with_attr_self) as Es. cbn beta in Es. rewrite with_attr_bytes, (rec_zlen _ _ _ _ _ _ _ base_wf) in Es.
    rewrite with_attr_bytes, (rec_zlen _ _ _ _ _ _ _ Hwf2). unfold size. rewrite Es, <- (rw_alloc _ _ _ _ _ _ _ Hwf2), <- (rw_alloc _ _ _ _ _ _ _ base_wf). done. }
  exists x3, slack'. pose proof (header_resident _ _ Hr2 Hh3) as Hr3. destruct (header_fields _ _ Hh3) as (Et3 & _ & _ & _ & _ & _ & _ & Ei3). split.
  - pose proof find_list as Hf. unfold store_resident_list. change (mrec (base_ni (inode_of base exts al))) with (ar_bytes base).
    destruct (ntfs_attr_init_search_ctx _) as [c| |]; [|done..]. cbn [mbind res_bind] in Hf |- *. rewrite Hf. cbn [mbind res_bind ctx_attr].
    destruct (place x (ar_slack base)) as (pre & post & Ep & E). pose proof (E x eq_refl) as Ex. rewrite <- with_attr_self in Ex.
    rewrite Ex, <- Ep, non_resident_at_attr, name_length_at by done. cbn [mbind res_bind]. rewrite (rs_resident x Hr), Hu. cbn [negb orb Z.eqb].
    pose proof (put_at 2 12 0 pre x post) as Hput. change (Z.of_nat 12) with 12 in Hput. rewrite Hput by (pose proof (attr_length_nat x Hx); lia). cbn [mbind res_bind].
    fold x1. rewrite <- (E x1 (sh_zlen _ _ x1_header)), Ep. rewrite E2. cbn [mbind res_bind]. rewrite E3. done.
  - split; [|split; [congruence|split; [congruence|split; [apply Hr3|done]]]]. destruct Hbase as [_ ? ?]. split; [|done|done].
    exact (swap_wf _ _ _ _ _ _ _ _ _ _ Hwf2 (rs_ok _ Hr3) (sh_zlen _ _ Hh3)).
Qed.

End store.

(** * An attribute of a list *)

(** A resident $ATTRIBUTE_LIST with a value of three bytes. *)
Definition list_attr : list Z := [0x20; 0; 0; 0; 32; 0; 0; 0; 0; 0; 0; 0; 1; 0; 4; 0; 3; 0; 0; 0; 24; 0; 0; 0; 1; 2; 3; 0; 0; 0; 0; 0].

Lemma list_attr_resident : resident_ok list_attr.
Proof. split; [split; try done; compute_decide|done|compute_decide|by left]. Qed.

Lemma list_attr_ok : attr_ok list_attr.
Proof. apply list_attr_resident. Qed.
