(* ===== verification/FsckAttrListThm.v ===== *)
(** The rebuilt attribute list of ntfsck: it has an entry for every attribute of
    the records except the list itself, in order, and searches in it find the
    extents. *)

From stdpp Require Import sorting.
From S2P Require Import Prelude Bytes Fields Unistr Collate IndexNode AttrDef AttrRec AttrFind AttrRecThm AttrList AttrListThm AttrListFind AttrListLookup AttrListEdit AttrListEx FsckAttrList FsckAttrStore.

(** * Specification *)

(** The instance that the entry of an attribute gets. *)
Definition fsck_inst (x : list Z) : Z := if negb (at_non_resident x =? 0) && negb (at_lowest_vcn x =? 0) then 0 else at_instance x.

(** The entries of the attributes of a record in the order of the record. *)
Fixpoint split_rents (ni : ino_ref) (r : arec) (a1 rest : list (list Z)) : list rent :=
  match rest with
  | [] => []
  | x :: a2 =>
      let tail := split_rents ni r (a1 ++ [x]) a2 in
      if at_type x =? AT_ATTRIBUTE_LIST then tail else mk_rent (ent_of r fsck_inst x) ni r a1 x a2 :: tail
  end.

Definition record_rents (ni : ino_ref) (r : arec) : list rent := split_rents ni r [] (ar_attrs r).

Fixpoint ext_rents (i : nat) (exts : list arec) : list rent :=
  match exts with
  | [] => []
  | r :: exts => record_rents (InExtent i) r ++ ext_rents (S i) exts
  end.

Definition all_rents (base : arec) (exts : list arec) : list rent := record_rents InBase base ++ ext_rents 0 exts.

Definition item_of (t : rent) : attrlist_item := mk_item (re_ino t) (ar_ofs (re_rec t) (re_before t)).

(** Three-way comparison of numbers, one after the other. *)
Definition then_cmp (c1 c2 : comparison) : comparison := match c1 with Eq => c2 | c => c end.

(** The order that the items are sorted by. *)
Definition rent_cmp (upcase : list Z) (t1 t2 : rent) : comparison :=
  let e1 := re_ent t1 in
  let e2 := re_ent t2 in
  let i1 := if e_vcn e1 =? 0 then at_instance (re_attr t1) else 0 in
  let i2 := if e_vcn e2 =? 0 then at_instance (re_attr t2) else 0 in
  then_cmp (attr_cmp upcase (e_type e1) (e_name e1) (e_type e2) (e_name e2))
    (then_cmp (e_vcn e1 ?= e_vcn e2) (then_cmp (i1 ?= i2) (ar_no (re_rec t1) ?= ar_no (re_rec t2)))).

Definition rent_le (upcase : list Z) (t1 t2 : rent) : Prop := rent_cmp upcase t1 t2 <> Gt.

(** The attribute of an entry is where the entry says. *)
Record placed (base : arec) (exts : list arec) (t : rent) : Prop := {
  pl_rec : rec_at base exts (re_ino t) = Some (re_rec t);
  pl_attrs : ar_attrs (re_rec t) = re_before t ++ re_attr t :: re_after t;
  pl_ent : re_ent t = ent_of (re_rec t) fsck_inst (re_attr t)
}.

(** * Proofs *)

(** ** Insertion sort *)

Section insertion.
Context {A : Type} (f : A -> attrlist_item) (compare : attrlist_item -> attrlist_item -> res Z) (cmp : A -> A -> comparison) (dom : A -> Prop).
Context (Hcompare : forall a b, dom a -> dom b -> exists z, compare (f a) (f b) = Ok z /\ (0 < z <-> cmp a b = Gt)).
Context (Htotal : forall a b, cmp a b = Gt -> cmp b a <> Gt) (Htrans : forall a b c, cmp a b <> Gt -> cmp b c <> Gt -> cmp a c <> Gt).
Let le a b := cmp a b <> Gt.

Lemma shift_items_spec a : dom a -> forall p y q, Forall dom p -> StronglySorted le p ->
  exists p1 p2 y', p = p1 ++ p2 /\
    shift_items compare (length p) (map f p ++ y :: q) (f a) = Ok (map f p1 ++ y' :: map f p2 ++ q, zlen p1) /\
    Forall (fun b => le b a) p1 /\ Forall (le a) p2.
Proof.
  intros Ha. induction p as [|z p IH] using rev_ind; intros y q Hp Hs.
  - exists [], [], y. split; [done|]. split; [done|]. split; constructor.
  - apply Forall_app in Hp as [Hp Hz]. apply Forall_cons_1 in Hz as [Hz _]. rewrite length_app. cbn [length]. rewrite Nat.add_1_r. cbn [shift_items].
    rewrite map_app, <- app_assoc. cbn [map app]. assert (length (map f p) = length p) as El by apply length_map. rewrite aget_mid by (unfold zlen; lia).
    cbn [mbind res_bind]. destruct (Hcompare z a Hz Ha) as (c & -> & Hc). cbn [mbind res_bind]. destruct (Z.ltb_spec 0 c) as [H|H].
    + assert (map f p ++ f z :: y :: q = (map f p ++ [f z]) ++ y :: q) as -> by (by rewrite <- app_assoc).
      rewrite aset_mid by (rewrite zlen_app; unfold zlen; cbn; lia). cbn [mbind res_bind]. rewrite <- app_assoc. cbn [app].
      destruct (IH (f z) (f z :: q) Hp) as (p1 & p2 & y' & E & -> & H1 & H2); [by apply StronglySorted_app_1_l in Hs|]. exists p1, (p2 ++ [z]), y'. rewrite app_assoc, <- E. split; [done|].
      rewrite map_app, <- app_assoc. split; [done|]. split; [done|]. apply Forall_app. split; [done|]. apply list.Forall_singleton. by apply Htotal, Hc.
    + exists (p ++ [z]), [], y. rewrite app_nil_r. split; [done|]. rewrite map_app, <- app_assoc. cbn [map app]. unfold zlen. rewrite length_app. cbn [length].
      split; [do 2 f_equal; lia|]. split; [|constructor]. assert (le z a) as Hza by (unfold le; rewrite <- Hc; lia).
      apply Forall_app. split; [|by apply list.Forall_singleton]. apply list.Forall_forall. intros b Hb.
      assert (le b z) as Hbz by (eapply StronglySorted_app_1_elem_of; [exact Hs|done|by left]). exact (Htrans b z a Hbz Hza).
Qed.

Lemma sorted_insert_at p1 p2 a : StronglySorted le (p1 ++ p2) -> Forall (fun b => le b a) p1 -> Forall (le a) p2 -> StronglySorted le (p1 ++ a :: p2).
Proof.
  induction p1 as [|y p1 IH]; cbn [app]; intros Hs H1 H2; [by constructor|]. apply StronglySorted_inv in Hs as [Hs Hy]. apply Forall_cons_1 in H1 as [Hya H1].
  constructor; [by apply IH|]. apply Forall_app in Hy as [Hy1 Hy2]. apply Forall_app. split; [done|]. by constructor.
Qed.

Lemma sort_loop_spec : forall rest p, Forall dom p -> Forall dom rest -> StronglySorted le p ->
  exists l, l ≡ₚ p ++ rest /\ StronglySorted le l /\ sort_loop compare (length rest) (zlen p) (map f (p ++ rest)) = Ok (map f l).
Proof.
  induction rest as [|a rest IH]; intros p Hp Hrest Hs; cbn [length sort_loop].
  - exists p. rewrite app_nil_r. done.
  - apply Forall_cons_1 in Hrest as [Ha Hrest]. rewrite map_app. cbn [map]. assert (zlen (map f p) = zlen p) as El by (unfold zlen; by rewrite length_map).
    rewrite aget_mid by done. cbn [mbind res_bind]. assert (Z.to_nat (zlen p) = length p) as -> by (unfold zlen; lia).
    destruct (shift_items_spec a Ha p (f a) (map f rest) Hp Hs) as (p1 & p2 & y' & E & -> & H1 & H2). cbn [mbind res_bind].
    assert (zlen p1 = zlen (map f p1)) as El1 by (unfold zlen; by rewrite length_map). rewrite aset_mid by done. cbn [mbind res_bind].
    destruct (IH (p1 ++ a :: p2)) as (l & Hl & Hls & Hr).
    + rewrite E in Hp. apply Forall_app in Hp as [? ?]. apply Forall_app. split; [done|]. by constructor.
    + done.
    + apply sorted_insert_at; [by rewrite <- E|done|done].
    + exists l. split; [rewrite Hl, E, <- !app_assoc; cbn [app]; apply Permutation_app_head, Permutation_middle|]. split; [done|]. rewrite <- Hr.
      f_equal; [rewrite E, !zlen_app, zlen_cons; lia|]. rewrite !map_app. cbn [map]. by rewrite <- app_assoc.
Qed.

Lemma sort_items_spec l : Forall dom l -> exists l', l' ≡ₚ l /\ StronglySorted le l' /\ sort_items compare (map f l) = Ok (map f l').
Proof.
  intros Hl. destruct l as [|a l]; [exists []; repeat split; constructor|]. apply Forall_cons_1 in Hl as [Ha Hl].
  destruct (sort_loop_spec l [a]) as (l' & Hp & Hs & E); [by apply list.Forall_singleton|done|repeat constructor|].
  exists l'. split; [done|]. split; [done|]. unfold sort_items. cbn [map length pred]. rewrite length_map. exact E.
Qed.

End insertion.

(** ** Orders *)

Record cmp_laws {A : Type} (c : A -> A -> comparison) : Prop := {
  cl_antisym a b : c b a = CompOpp (c a b);
  cl_eq a b d : c a b = Eq -> c a d = c b d;
  cl_trans a b d : c a b = Lt -> c b d = Lt -> c a d = Lt
}.

Lemma then_laws {A : Type} (c1 c2 : A -> A -> comparison) : cmp_laws c1 -> cmp_laws c2 -> cmp_laws (fun a b => then_cmp (c1 a b) (c2 a b)).
Proof.
  intros H1 H2. split; intros a b.
  - rewrite (cl_antisym c1 H1 a b). destruct (c1 a b); cbn; [apply H2|done|done].
  - intros d E. destruct (c1 a b) eqn:E1; [|done|done]. cbn in E. rewrite (cl_eq c1 H1 a b d E1). by rewrite (cl_eq c2 H2 a b d E).
  - intros d A1 A2. destruct (c1 a b) eqn:E1; cbn in A1; [| |done].
    + rewrite (cl_eq c1 H1 a b d E1). destruct (c1 b d); cbn in *; [by eapply H2|done|done].
    + destruct (c1 b d) eqn:E2; cbn in A2; [| |done].
      * assert (c1 d b = Eq) as E3 by (by rewrite (cl_antisym c1 H1 b d), E2). pose proof (cl_eq c1 H1 d b a E3) as E4.
        rewrite (cl_antisym c1 H1 d a), E4, (cl_antisym c1 H1 a b), E1. done.
      * by rewrite (cl_trans c1 H1 a b d E1 E2).
Qed.

Lemma key_laws {A : Type} (k : A -> Z) : cmp_laws (fun a b => k a ?= k b).
Proof.
  split; cbn beta; intros a b; [apply Z.compare_antisym|intros d ->%Z.compare_eq; done|].
  intros d. rewrite !Z.compare_lt_iff. lia.
Qed.

Lemma attr_laws {A : Type} upcase (ty : A -> Z) (nm : A -> list Z) : cmp_laws (fun a b => attr_cmp upcase (ty a) (nm a) (ty b) (nm b)).
Proof. split; intros a b; [apply attr_cmp_antisym|by intros d [-> ->]%attr_cmp_eq|intros d; apply attr_cmp_trans]. Qed.

Lemma laws_total {A : Type} (c : A -> A -> comparison) : cmp_laws c -> forall a b, c a b = Gt -> c b a <> Gt.
Proof. intros H a b E. by rewrite (cl_antisym c H a b), E. Qed.

Lemma laws_trans {A : Type} (c : A -> A -> comparison) : cmp_laws c -> forall a b d, c a b <> Gt -> c b d <> Gt -> c a d <> Gt.
Proof.
  intros H a b d H1 H2. destruct (c a b) eqn:E1; [by rewrite (cl_eq c H a b d E1)| |done]. destruct (c b d) eqn:E2; [| |done].
  - assert (c d b = Eq) as E3 by (by rewrite (cl_antisym c H b d), E2). by rewrite (cl_antisym c H d a), (cl_eq c H d b a E3), (cl_antisym c H a b), E1.
  - by rewrite (cl_trans c H a b d E1 E2).
Qed.

Lemma rent_laws upcase : cmp_laws (rent_cmp upcase).
Proof.
  apply (then_laws (fun t1 t2 => attr_cmp upcase (e_type (re_ent t1)) (e_name (re_ent t1)) (e_type (re_ent t2)) (e_name (re_ent t2)))); [apply (attr_laws upcase)|].
  apply (then_laws (fun t1 t2 => e_vcn (re_ent t1) ?= e_vcn (re_ent t2))); [apply key_laws|].
  apply (then_laws (fun t1 t2 => (if e_vcn (re_ent t1) =? 0 then at_instance (re_attr t1) else 0) ?= (if e_vcn (re_ent t2) =? 0 then at_instance (re_attr t2) else 0))); [|apply key_laws].
  apply (key_laws (fun t => if e_vcn (re_ent t) =? 0 then at_instance (re_attr t) else 0)).
Qed.

Lemma rent_le_ent_le upcase t1 t2 : rent_le upcase t1 t2 -> ent_le upcase (re_ent t1) (re_ent t2).
Proof.
  unfold rent_le, rent_cmp, ent_le. destruct (attr_cmp _ _ _ _ _); cbn [then_cmp]; [|done|done]. intros H.
  destruct (Z.compare_spec (e_vcn (re_ent t1)) (e_vcn (re_ent t2))); cbn in H; [lia|lia|done].
Qed.

Lemma sorted_ents upcase l : StronglySorted (rent_le upcase) l -> StronglySorted (ent_le upcase) (ents_of l).
Proof.
  induction l as [|t l IH]; intros Hs; cbn [ents_of map]; [constructor|]. fold (ents_of l). apply StronglySorted_inv in Hs as [Hs Ht].
  constructor; [by apply IH|]. change (ents_of l) with (re_ent <$> l).
  apply list.Forall_fmap. eapply list.Forall_impl; [exact Ht|]. intros t' H. by apply rent_le_ent_le.
Qed.

(** ** Comparing *)

Section items.
Context (memcmp : list Z -> list Z -> Z) (upcase : list Z) (Hmemcmp : memcmp_law memcmp).
Context (base : arec) (exts : list arec) (Hrecs : records_ok base exts) (al : list Z).
Let b := inode_of base exts (Some al).

(** What is read from the attribute of an item. *)
Record item_reads (t : rent) : Prop := {
  ir_ino : ino_of b (re_ino t) = Ok (ar_ino (re_rec t));
  ir_type : a_type (ar_bytes (re_rec t)) (ar_ofs (re_rec t) (re_before t)) = Ok (at_type (re_attr t));
  ir_name_length : a_name_length (ar_bytes (re_rec t)) (ar_ofs (re_rec t) (re_before t)) = Ok (at_name_length (re_attr t));
  ir_name : exists s, a_name (ar_bytes (re_rec t)) (ar_ofs (re_rec t) (re_before t)) = Ok (at_name (re_attr t) ++ s);
  ir_non_resident : a_non_resident (ar_bytes (re_rec t)) (ar_ofs (re_rec t) (re_before t)) = Ok (at_non_resident (re_attr t));
  ir_vcn : item_lowest_vcn (ar_bytes (re_rec t)) (ar_ofs (re_rec t) (re_before t)) = Ok (attr_vcn (re_attr t));
  ir_instance : a_instance (ar_bytes (re_rec t)) (ar_ofs (re_rec t) (re_before t)) = Ok (at_instance (re_attr t));
  ir_ok : attr_ok (re_attr t)
}.

Lemma placed_reads t : placed base exts t -> item_reads t.
Proof.
  intros [Hr Ha _]. pose proof (rec_at_ok base exts Hrecs _ _ Hr) as Hok. destruct (ar_attr_at _ Hok _ _ _ Ha) as (p & q & Em & Eo & Hx).
  split; [by apply ino_at|..]; rewrite ?Em, <- ?Eo; [by apply type_at|by apply name_length_at|by apply name_at_attr|by apply non_resident_at_attr| |by apply instance_at_attr|done].
  unfold item_lowest_vcn, attr_vcn. rewrite non_resident_at_attr by done. cbn [mbind res_bind]. destruct (_ =? 0); [done|]. by apply lowest_vcn_at_attr.
Qed.

Definition small_type (t : rent) : Prop := at_type (re_attr t) < 2 ^ 31.

Lemma cmp_num_sgn x y : cmp_num x y = sgn (x ?= y).
Proof. unfold cmp_num. destruct (Z.compare_spec x y); zdec; done. Qed.

Lemma compare_types_small t1 t2 : 0 <= t1 < 2 ^ 31 -> 0 <= t2 < 2 ^ 31 -> compare_types t1 t2 = t1 - t2.
Proof. intros H1 H2. unfold compare_types. change (2 ^ 31) with 2147483648 in *. rewrite (wraps_small 32 t1), (wraps_small 32 t2), (wraps_small 32) by (change (2 ^ (32 - 1)) with 2147483648; lia). lia. Qed.

Lemma compare_names_spec m1 p1 m2 p2 n1 n2 s1 s2 : is_name n1 -> is_name n2 ->
  a_name_length m1 p1 = Ok (zlen n1) -> a_name_length m2 p2 = Ok (zlen n2) -> a_name m1 p1 = Ok (n1 ++ s1) -> a_name m2 p2 = Ok (n2 ++ s2) ->
  compare_names upcase (zlen upcase) m1 p1 m2 p2 = Ok (sgn (names_compare upcase n1 n2)).
Proof.
  intros H1 H2 E1 E2 E3 E4. unfold compare_names. rewrite E1, E2, E3, E4. cbn [mbind res_bind].
  pose proof (names_full_collate_correct CASE_SENSITIVE upcase n1 s1 n2 s2 H1 H2) as Ec.
  destruct n1 as [|c1 n1], n2 as [|c2 n2]; rewrite ?zlen_cons in *; change (zlen []) with 0 in *; [done|..].
  - pose proof (zlen_nonneg n2). by zdec.
  - pose proof (zlen_nonneg n1). by zdec.
  - pose proof (zlen_nonneg n1). pose proof (zlen_nonneg n2). by zdec.
Qed.

(** Two items compare as their entries. *)
Lemma compare_items_spec t1 t2 : placed base exts t1 -> placed base exts t2 -> small_type t1 -> small_type t2 ->
  exists z, ntfsck_compare_attrlist_items upcase (zlen upcase) b (item_of t1) (item_of t2) = Ok z /\ (0 < z <-> rent_cmp upcase t1 t2 = Gt).
Proof.
  intros H1 H2 Hs1 Hs2. destruct (placed_reads t1 H1) as [I1 T1 L1 [s1 N1] _ V1 J1 O1], (placed_reads t2 H2) as [I2 T2 L2 [s2 N2] _ V2 J2 O2].
  unfold ntfsck_compare_attrlist_items. cbn [item_of record_ni it_attr]. rewrite I1, I2. cbn [mbind res_bind ar_ino mrec mft_no]. rewrite T1, T2. cbn [mbind res_bind].
  destruct (at_bytes_ranges _ O1) as ([? _] & _), (at_bytes_ranges _ O2) as ([? _] & _). unfold small_type in *. rewrite compare_types_small by done.
  rewrite <- (at_name_zlen _ O1) in L1. rewrite <- (at_name_zlen _ O2) in L2.
  rewrite (compare_names_spec _ _ _ _ _ _ s1 s2 (at_name_is_name _ O1) (at_name_is_name _ O2) L1 L2 N1 N2), V1, V2. cbn [mbind res_bind].
  unfold rent_cmp. rewrite (pl_ent _ _ _ H1), (pl_ent _ _ _ H2). cbn zeta. cbn [ent_of e_type e_name e_vcn]. unfold attr_cmp.
  destruct (Z.compare_spec (at_type (re_attr t1)) (at_type (re_attr t2))) as [E|E|E].
  2-3: rewrite (proj2 (Z.eqb_neq _ 0)) by lia; eexists; (split; [done|]); cbn [then_cmp]; split; [intros; lia || done|done || (intros; lia)].
  rewrite (proj2 (Z.eqb_eq _ 0)) by lia. cbn [negb]. destruct (names_compare upcase _ _); cbn [sgn Z.eqb negb then_cmp]; [|by eexists|by eexists].
  rewrite !cmp_num_sgn. destruct (_ ?= _); cbn [sgn Z.eqb negb then_cmp]; [|by eexists|by eexists].
  rewrite J1, J2.
  assert (forall (c : bool) i, (if c then Ok i else Ok 0) = Ok (if c then i else 0)) as Hif by (by intros []). rewrite !Hif. cbn [mbind res_bind].
  rewrite !cmp_num_sgn. destruct (_ ?= _); cbn [sgn Z.eqb negb then_cmp]; [|by eexists|by eexists]. eexists. split; [done|]. by destruct (_ ?= _).
Qed.

(** ** Collecting *)

Context {HP : Heap} (Hheap : forall n, heap_grants n = true).

Definition find_any (m : list Z) (c : search_ctx) := ntfs_attr_find memcmp upcase (zlen upcase) m AT_UNUSED AnyName 0 CASE_SENSITIVE None 0 c.

Lemma want_any attrs : want_ok AT_UNUSED AnyName 0 None 0 attrs.
Proof. by split. Qed.

(** The outcome of a step of the walk before the attributes [rest]. *)
Definition at_next (r : arec) (a1 rest : list (list Z)) : search_ctx * errno + search_ctx :=
  match rest with [] => inl (mk_ctx (ar_ofs r a1) false, ENOENT) | _ => inr (mk_ctx (ar_ofs r a1) false) end.

Lemma find_any_first r : arec_ok r ->
  (c ← ntfs_attr_init_search_ctx (ar_bytes r); find_any (ar_bytes r) c) =
    Ok (match at_next r [] (ar_attrs r) with inl (c, e) => (c, Some e) | inr c => (c, None) end).
Proof.
  intros Hr. pose proof (find_spec _ _ _ _ _ _ _ (ar_wf r Hr) memcmp upcase AT_UNUSED AnyName 0 CASE_SENSITIVE None 0 Hmemcmp (want_any _)) as E.
  unfold find_any, ar_bytes. rewrite E. unfold at_next, ar_ofs. cbn [concat]. rewrite zlen_nil, Z.add_0_r. by destruct (ar_attrs r).
Qed.

Lemma find_any_next r a1 x a2 : arec_ok r -> ar_attrs r = a1 ++ x :: a2 ->
  find_any (ar_bytes r) (mk_ctx (ar_ofs r a1) false) = Ok (match at_next r (a1 ++ [x]) a2 with inl (c, e) => (c, Some e) | inr c => (c, None) end).
Proof.
  intros Hr Ea. pose proof (find_next_spec _ _ _ _ _ _ _ (ar_wf r Hr) memcmp upcase AT_UNUSED AnyName 0 CASE_SENSITIVE None 0 Hmemcmp a1 x a2 Ea (want_any _)) as E.
  unfold find_any, at_next, ar_bytes, ar_ofs. rewrite E. by destruct a2.
Qed.

Lemma walk_record_spec ni r : arec_ok r -> forall rest a1 fuel c collected capacity, ar_attrs r = a1 ++ rest -> (length rest < fuel)%nat ->
  find_any (ar_bytes r) c = Ok (match at_next r a1 rest with inl (c, e) => (c, Some e) | inr c => (c, None) end) ->
  exists capacity', walk_record memcmp upcase (zlen upcase) fuel ni (ar_bytes r) c collected capacity =
    Ok (Some (collected ++ map item_of (split_rents ni r a1 rest), capacity')).
Proof.
  intros Hr. induction rest as [|x rest IH]; intros a1 fuel c collected capacity Ea Hf Hc; (destruct fuel as [|fuel]; [cbn in Hf; lia|]); cbn [walk_record]; fold (find_any (ar_bytes r) c); rewrite Hc; cbn [at_next mbind res_bind split_rents].
  - exists capacity. by rewrite app_nil_r.
  - destruct (ar_attr_at r Hr a1 x rest Ea) as (p & q & Em & Eo & Hx).
    assert (a_type (ar_bytes r) (ar_ofs r a1) = Ok (at_type x)) as Ht by (rewrite Em, <- Eo; by apply type_at). cbn [ctx_attr]. rewrite Ht. cbn [mbind res_bind].
    assert (ar_attrs r = (a1 ++ [x]) ++ rest) as Ea' by (by rewrite <- app_assoc). pose proof (find_any_next r a1 x rest Hr Ea) as Hnext.
    assert (length rest < fuel)%nat as Hf' by (cbn in Hf; lia).
    destruct (at_type x =? AT_ATTRIBUTE_LIST); [by apply IH|]. assert (exists cap', grow (zlen collected) capacity = (cap', true)) as [cap' ->].
    { unfold grow. destruct (_ =? _); [|by eexists]. rewrite Hheap. by eexists. }
    destruct (IH (a1 ++ [x]) fuel _ (collected ++ [mk_item ni (ar_ofs r a1)]) cap' Ea' Hf' Hnext) as [cap'' ->]. exists cap''. by rewrite <- app_assoc.
Qed.

Lemma walk_records_step ni r nis collected capacity : rec_at base exts ni = Some r ->
  exists capacity', walk_records memcmp upcase (zlen upcase) b (ni :: nis) collected capacity =
    walk_records memcmp upcase (zlen upcase) b nis (collected ++ map item_of (record_rents ni r)) capacity'.
Proof.
  intros Hr. pose proof (rec_at_ok base exts Hrecs _ _ Hr) as Hok. cbn [walk_records]. unfold b. rewrite (ino_at base exts Hrecs _ _ _ Hr). cbn [mbind res_bind ar_ino mrec].
  pose proof (find_any_first r Hok) as Hf. destruct (ntfs_attr_init_search_ctx (ar_bytes r)) as [c| |]; [|done..]. cbn [mbind res_bind] in Hf |- *.
  destruct (walk_record_spec ni r Hok (ar_attrs r) [] (S (length (ar_bytes r))) c collected capacity eq_refl (ar_count r Hok) Hf) as [cap' ->]. by exists cap'.
Qed.

Lemma walk_extents_spec : forall l k collected capacity, (forall i r, l !! i = Some r -> rec_at base exts (InExtent (k + i)) = Some r) ->
  walk_records memcmp upcase (zlen upcase) b (map InExtent (seq k (length l))) collected capacity = Ok (Some (collected ++ map item_of (ext_rents k l))).
Proof.
  induction l as [|r l IH]; intros k collected capacity Hl; cbn [length seq map ext_rents]; [by rewrite app_nil_r|].
  specialize (Hl 0%nat r eq_refl) as H0. rewrite Nat.add_0_r in H0.
  destruct (walk_records_step (InExtent k) r (map InExtent (seq (S k) (length l))) collected capacity H0) as [cap' ->].
  rewrite (IH (S k)); [by rewrite map_app, <- app_assoc|]. intros i r' Hi. rewrite <- (Hl (S i) r' Hi). by rewrite Nat.add_succ_r.
Qed.

Lemma collect_spec : ntfsck_collect_attrlist_items memcmp upcase (zlen upcase) b = Ok (Some (map item_of (all_rents base exts))).
Proof.
  unfold ntfsck_collect_attrlist_items, all_records. destruct (walk_records_step InBase base (map InExtent (seq 0 (length (extent_nis b)))) [] 0 eq_refl) as [cap ->].
  change (extent_nis b) with (map ar_ino exts). rewrite length_map. rewrite (walk_extents_spec exts 0); [|done]. unfold all_rents. by rewrite map_app.
Qed.

Lemma split_rents_placed ni r : rec_at base exts ni = Some r -> forall rest a1, ar_attrs r = a1 ++ rest -> Forall (placed base exts) (split_rents ni r a1 rest).
Proof.
  intros Hr. induction rest as [|x rest IH]; intros a1 Ea; cbn [split_rents]; [constructor|].
  assert (Forall (placed base exts) (split_rents ni r (a1 ++ [x]) rest)) as H by (apply IH; by rewrite <- app_assoc).
  destruct (_ =? _); [done|]. constructor; [by split|done].
Qed.

Lemma ext_rents_placed : forall l k, (forall i r, l !! i = Some r -> rec_at base exts (InExtent (k + i)) = Some r) -> Forall (placed base exts) (ext_rents k l).
Proof.
  induction l as [|r l IH]; intros k Hl; cbn [ext_rents]; [constructor|]. apply Forall_app. split.
  - apply split_rents_placed; [|done]. rewrite <- (Hl 0%nat r eq_refl). by rewrite Nat.add_0_r.
  - apply IH. intros i r' Hi. rewrite <- (Hl (S i) r' Hi). by rewrite Nat.add_succ_r.
Qed.

Lemma all_rents_placed : Forall (placed base exts) (all_rents base exts).
Proof. apply Forall_app. split; [by apply split_rents_placed|by apply ext_rents_placed]. Qed.

(** ** Writing *)

Lemma placed_ent_ok t : placed base exts t -> ent_ok (re_ent t).
Proof.
  intros [Hr Ha ->]. pose proof (rec_at_ok base exts Hrecs _ _ Hr) as Hok. eapply ent_of_ok; [done|exact Ha|].
  unfold fsck_inst. destruct (_ && _); [by vm_compute|]. apply at_bytes_ranges. by eapply ar_attr_ok.
Qed.

Lemma placed_len t : placed base exts t -> al_entry_len (at_name_length (re_attr t)) = ent_len (re_ent t).
Proof. intros H. pose proof (ir_ok _ (placed_reads t H)) as Hx. rewrite (pl_ent _ _ _ H). unfold ent_len. cbn [ent_of e_name]. by rewrite at_name_zlen. Qed.

Lemma placed_forall_ok l : Forall (placed base exts) l -> Forall ent_ok (ents_of l).
Proof. intros H. apply list.Forall_fmap. eapply list.Forall_impl; [exact H|]. intros t Ht. by apply placed_ent_ok. Qed.

Lemma list_length_spec : forall l acc, Forall (placed base exts) l -> 0 <= acc <= MAX_ATTRLIST ->
  list_length b (map item_of l) acc = Ok (if acc + zlen (list_bytes (ents_of l)) <=? MAX_ATTRLIST then Some (acc + zlen (list_bytes (ents_of l))) else None).
Proof.
  induction l as [|t l IH]; intros acc Hl Hacc; cbn [map list_length]; unfold MAX_ATTRLIST in *.
  - change (zlen (list_bytes (ents_of []))) with 0. rewrite Z.add_0_r. by zdec.
  - apply Forall_cons_1 in Hl as [Ht Hl]. pose proof (placed_reads t Ht) as [I _ L _ _ _ _ _]. cbn [item_of record_ni it_attr]. rewrite I. cbn [mbind res_bind ar_ino mrec]. rewrite L. cbn [mbind res_bind].
    rewrite (placed_len t Ht). pose proof (ent_len_range _ (placed_ent_ok t Ht)) as He. cbn [ents_of map]. fold (ents_of l). rewrite list_bytes_cons, zlen_app, ent_bytes_zlen.
    pose proof (zlen_nonneg (list_bytes (ents_of l))). rewrite u32_small by lia. destruct (Z.ltb_spec (262144 - ent_len (re_ent t)) acc); [by zdec|].
    rewrite u32_small by lia. rewrite IH by (done || lia). by rewrite Z.add_assoc.
Qed.

Lemma write_entry_spec d rest t : placed base exts t ->
  write_entry b (d ++ replicate (Z.to_nat (ent_len (re_ent t))) 0 ++ rest) (zlen d) (item_of t) =
    Ok (d ++ ent_bytes (re_ent t) ++ rest, zlen d + ent_len (re_ent t)).
Proof.
  intros Ht. pose proof (placed_reads t Ht) as [I T L _ N V J O]. pose proof (put_entry_spec d rest (re_ent t) (placed_ent_ok t Ht)) as P.
  unfold write_entry. cbn [item_of record_ni it_attr]. rewrite I. cbn [mbind res_bind ar_ino mrec mft_no].
  destruct Ht as [Hr Ha He] eqn:Eq. clear Eq. pose proof (rec_at_ok base exts Hrecs _ _ Hr) as Hok.
  rewrite L, T, N, V, J, ar_seq_at, (name_bytes_at _ Hok _ _ _ Ha) by done. cbn [mbind res_bind].
  assert (al_entry_len (at_name_length (re_attr t)) = ent_len (re_ent t)) as -> by by apply placed_len.
  assert ((if negb (at_non_resident (re_attr t) =? 0) && negb (attr_vcn (re_attr t) =? 0) then 0 else at_instance (re_attr t)) = fsck_inst (re_attr t)) as ->.
  { unfold fsck_inst, attr_vcn. by destruct (at_non_resident (re_attr t) =? 0). }
  rewrite <- (at_name_zlen _ O). revert P. rewrite He. cbn [ent_of e_type e_name e_vcn e_mref e_inst]. rewrite <- He. intros ->. done.
Qed.

Lemma write_entries_spec : forall l d, Forall (placed base exts) l ->
  write_entries b (map item_of l) (d ++ replicate (Z.to_nat (zlen (list_bytes (ents_of l)))) 0) (zlen d) = Ok (d ++ list_bytes (ents_of l)).
Proof.
  induction l as [|t l IH]; intros d Hl; cbn [map write_entries]; [done|]. apply Forall_cons_1 in Hl as [Ht Hl].
  cbn [ents_of map]. fold (ents_of l). rewrite list_bytes_cons, zlen_app, ent_bytes_zlen. pose proof (ent_len_range _ (placed_ent_ok t Ht)).
  pose proof (zlen_nonneg (list_bytes (ents_of l))). rewrite Z2Nat.inj_add, replicate_add by lia. rewrite write_entry_spec by done. cbn [mbind res_bind].
  specialize (IH (d ++ ent_bytes (re_ent t)) Hl). rewrite zlen_app, ent_bytes_zlen, <- !app_assoc in IH. exact IH.
Qed.

(** ** The rebuilt list *)

Lemma rebuild_spec store_list : Forall small_type (all_rents base exts) -> exists l, l ≡ₚ all_rents base exts /\ StronglySorted (rent_le upcase) l /\
  ntfsck_rebuild_attr_list memcmp upcase (zlen upcase) store_list b =
    if bool_decide (l <> []) && (zlen (list_bytes (ents_of l)) <=? MAX_ATTRLIST)
    then '(b2, stored) ← store_list b (list_bytes (ents_of l)); Ok (if stored : bool then (install_list b2 (list_bytes (ents_of l)), 0) else (b2, -1))
    else Ok (b, -1).
Proof.
  intros Hsmall. pose proof all_rents_placed as Hpl.
  destruct (sort_items_spec item_of (ntfsck_compare_attrlist_items upcase (zlen upcase) b) (rent_cmp upcase) (fun t => placed base exts t /\ small_type t)) with (l := all_rents base exts)
    as (l & Hp & Hs & E).
  { intros t1 t2 [H1 S1] [H2 S2]. by apply compare_items_spec. }
  { apply laws_total, rent_laws. }
  { apply laws_trans, rent_laws. }
  { apply list.Forall_and. by split. }
  exists l. split; [done|]. split; [done|]. unfold ntfsck_rebuild_attr_list. change (has_list b) with true. change (attr_list b) with (Some al).
  rewrite bool_decide_eq_false_2 by done. cbn [negb orb]. rewrite collect_spec. cbn [mbind res_bind].
  destruct (all_rents base exts) as [|t0 rs] eqn:Ea; [apply Permutation_nil_r in Hp as ->; done|]. cbn [map]. change (item_of t0 :: map item_of rs) with (map item_of (t0 :: rs)).
  unfold ntfsck_sort_attrlist_items. rewrite E. cbn [mbind res_bind]. rewrite <- Hp in Hpl. rewrite list_length_spec by (done || (unfold MAX_ATTRLIST; lia)). cbn [mbind res_bind]. rewrite Z.add_0_l.
  rewrite bool_decide_eq_true_2 by (intros ->; by apply Permutation_nil_l in Hp). cbn [andb].
  destruct (zlen (list_bytes (ents_of l)) <=? MAX_ATTRLIST); [|done]. rewrite Hheap. cbn [negb andb].
  pose proof (write_entries_spec l [] Hpl) as W. cbn [app] in W. change (zlen []) with 0 in W. by rewrite W.
Qed.

End items.

(** ** The results *)

Section results.
Context {HP : Heap} (Hheap : forall n, heap_grants n = true).
Context (memcmp : list Z -> list Z -> Z) (upcase : list Z) (Hmemcmp : memcmp_law memcmp).
Context (base : arec) (exts : list arec) (Hrecs : records_ok base exts) (al : list Z).
Context (Hsmall : Forall small_type (all_rents base exts)).
Let b := inode_of base exts (Some al).


End results.

(** The instances of a record are distinct, and zero for the extents that
    continue an attribute. *)
Definition instances_ok (r : arec) : Prop :=
  NoDup (map at_instance (ar_attrs r)) /\ Forall (fun x => at_instance x = fsck_inst x) (ar_attrs r).

Section lookup.
Context (memcmp : list Z -> list Z -> Z) (upcase : list Z) (Hmemcmp : memcmp_law memcmp) (Hup : is_name upcase).
Context (geo : mft_geometry) (Hmft : mft_na geo = true) (load : Z -> option ainode) (base : arec) (exts : list arec) (Hrecs : records_ok base exts).

Lemma placed_rent_ok t : placed base exts t -> Forall instances_ok (base :: exts) -> rent_ok base exts t.
Proof.
  intros Ht Hi. pose proof (placed_ent_ok base exts Hrecs t Ht) as He. destruct Ht as [Hr Ha Ee]. split; [done|]. split; [done|].
  assert (instances_ok (re_rec t)) as [Hnd Hf].
  { rewrite list.Forall_forall in Hi. apply Hi. destruct (re_ino t) as [|i]; cbn in Hr; [injection Hr as ->; by left|]. right. by eapply list_elem_of_lookup_2. }
  rewrite Ha in Hnd, Hf. apply Forall_app in Hf as [_ Hf]. apply Forall_cons_1 in Hf as [Hx _]. rewrite Ee. apply ent_of_resolves; [|by rewrite Ha|done|].
  - exact (rec_at_ok base exts Hrecs _ _ Hr).
  - rewrite <- Hx. change (map at_instance) with (fmap (M := list) at_instance) in Hnd. rewrite fmap_app, fmap_cons in Hnd. apply list.NoDup_app in Hnd as (_ & H1 & Hnd).
    apply list.NoDup_cons in Hnd as [H2 _]. apply Forall_app. rewrite !list.Forall_forall. split; intros y Hy E.
    + apply (H1 (at_instance y)); [by apply list_elem_of_fmap_2|]. rewrite E. by left.
    + apply H2. rewrite <- E. by apply list_elem_of_fmap_2.
Qed.

(** ** Searches in the new list *)

(** A sorted list with the entries of the records leads to their attributes. *)
Lemma installed_lookup l w n : StronglySorted (ent_le upcase) l -> l ≡ₚ ents_of (all_rents base exts) -> Forall instances_ok (base :: exts) ->
  Forall (fun e => 0 <= e_vcn e /\ 0 ∉ e_name e) l ->
  wanted_ok w -> w_type w <> AT_UNUSED -> w_type w <> AT_ATTRIBUTE_LIST -> wanted_name w = Some n -> w_val w = None -> 0 <= w_lowest_vcn w ->
  Exists (fun e => same_attr w n e /\ e_vcn e <= w_lowest_vcn w) l ->
  let b' := inode_of base exts (Some (list_bytes l)) in
  exists ctx t, (ctx ← ntfs_attr_get_search_ctx b'; ntfs_attr_lookup memcmp upcase (zlen upcase) geo load b' w ctx) = Ok (b', ctx, None) /\
    t ∈ all_rents base exts /\ x_ino ctx = re_ino t /\ x_attr ctx = ar_ofs (re_rec t) (re_before t) /\
    at_type (re_attr t) = w_type w /\ at_name (re_attr t) = n /\ e_vcn (re_ent t) <= w_lowest_vcn w /\
    Forall (fun e => same_attr w n e -> e_vcn e <= e_vcn (re_ent t) \/ w_lowest_vcn w < e_vcn e) l.
Proof.
  intros Hs Hp Hi Hnn Hw Ht Hl Hn Hval Hv Hex. destruct (Permutation_map_inv _ _ Hp) as (rs & -> & Hrs). change (map re_ent rs) with (ents_of rs) in *.
  pose proof (all_rents_placed base exts) as Hpl. rewrite Hrs in Hpl.
  assert (Forall (rent_ok base exts) rs) as Hok by (eapply list.Forall_impl; [exact Hpl|]; intros t Htp; by apply placed_rent_ok).
  destruct (al_lookup_extent_spec memcmp upcase Hmemcmp Hup geo Hmft load base exts Hrecs rs Hok w n Hw Ht Hl Hn Hval Hv Hs Hnn Hex) as (ctx & t & H1 & H2 & H3).
  exists ctx, t. split; [exact H1|]. split; [by rewrite Hrs|exact H3].
Qed.

End lookup.

(** ** The records after the list was stored *)

Lemma split_rents_ents ni r r' : ar_no r' = ar_no r -> ar_seq r' = ar_seq r -> forall rest rest' a1 a1',
  Forall2 (fun x y => x = y \/ (at_type x = AT_ATTRIBUTE_LIST /\ at_type y = AT_ATTRIBUTE_LIST)) rest rest' ->
  ents_of (split_rents ni r' a1' rest') = ents_of (split_rents ni r a1 rest).
Proof.
  intros En Es. intros rest rest' a1 a1' H. revert a1 a1'. induction H as [|x y rest rest' Hxy H IH]; intros a1 a1'; cbn [split_rents]; [done|].
  destruct Hxy as [<-|[-> ->]]; [|apply IH]. destruct (at_type x =? AT_ATTRIBUTE_LIST); [apply IH|]. cbn [ents_of map re_ent]. f_equal; [|apply IH].
  unfold ent_of. by rewrite En, Es.
Qed.

Lemma with_attr_rents base exts a1 x a2 x' slack' : ar_attrs base = a1 ++ x :: a2 -> at_type x = AT_ATTRIBUTE_LIST -> at_type x' = AT_ATTRIBUTE_LIST ->
  ents_of (all_rents (with_attr base a1 x' a2 slack') exts) = ents_of (all_rents base exts).
Proof.
  intros E Hx Hx'. unfold all_rents, record_rents. unfold ents_of. rewrite !map_app. f_equal. apply split_rents_ents; [done|done|]. rewrite E. cbn [with_attr ar_attrs].
  apply Forall2_app; [|constructor; [by right|]]; apply Forall_Forall2_diag, list.Forall_forall; intros; by left.
Qed.

Lemma with_attr_instances base a1 x a2 x' slack' : ar_attrs base = a1 ++ x :: a2 -> at_instance x' = at_instance x -> at_non_resident x' = 0 ->
  instances_ok base -> instances_ok (with_attr base a1 x' a2 slack').
Proof.
  intros E Ei Er [H1 H2]. unfold instances_ok. cbn [with_attr ar_attrs]. rewrite E in H1, H2. rewrite map_app in H1 |- *. cbn [map] in H1 |- *. rewrite Ei. split; [done|].
  apply Forall_app in H2 as [? H2]. apply Forall_cons_1 in H2 as [_ ?]. apply Forall_app. split; [done|]. constructor; [|done].
  unfold fsck_inst. rewrite Er. done.
Qed.

Lemma with_attr_records base exts a1 x' a2 slack' : records_ok base exts -> arec_ok (with_attr base a1 x' a2 slack') -> records_ok (with_attr base a1 x' a2 slack') exts.
Proof. intros [_ ? ? ?] H. by split. Qed.

(** The bytes of the entries of all attributes. *)
Definition new_list_size (base : arec) (exts : list arec) : Z := zlen (list_bytes (ents_of (all_rents base exts))).

Lemma list_bytes_perm l l' : l ≡ₚ l' -> zlen (list_bytes l) = zlen (list_bytes l').
Proof.
  induction 1 as [|e l l' _ IH|e e' l|l1 l2 l3 _ IH1 _ IH2]; [done|..]; rewrite ?list_bytes_cons, ?zlen_app; try rewrite !list_bytes_cons, !zlen_app; lia.
Qed.

Lemma ent_bytes_bytes e : bytes (ent_bytes e).
Proof.
  unfold ent_bytes, ent_head. repeat apply Forall_app_2; try apply le_bytes_bytes; [apply bytes_of_bytes|]. apply Forall_replicate. lia.
Qed.

Lemma list_bytes_bytes l : bytes (list_bytes l).
Proof. induction l as [|e l IH]; [constructor|]. rewrite list_bytes_cons. apply Forall_app_2; [apply ent_bytes_bytes|done]. Qed.

Section stored.
Context {HP : Heap} (Hheap : forall n, heap_grants n = true).
Context (memcmp : list Z -> list Z -> Z) (upcase : list Z) (Hmemcmp : memcmp_law memcmp) (Hup : is_name upcase).
Context (geo : mft_geometry) (Hmft : mft_na geo = true) (load : Z -> option ainode) (base : arec) (exts : list arec) (Hrecs : records_ok base exts) (al : list Z).
Context (Hsmall : Forall small_type (all_rents base exts)).
Context (attrdef : option (list Z)) (attrdef_len : Z) (write_record : list Z -> bool) (Hwrite : forall m, write_record m = true).
Context (store_other : base_inode -> list Z -> res (base_inode * bool)).
Let b := inode_of base exts (Some al).
Let store := store_resident_list memcmp upcase (zlen upcase) attrdef attrdef_len (zlen (ar_bytes base)) write_record store_other.

(** C24: when the list is resident and unnamed in the base record, with only
    attributes of smaller types before it ([resident_list]), the record has room
    for the new one, and it is written, then the list is rebuilt, and a search for
    a vcn of an attribute in the inode as it is afterwards, with the attributes
    behind the list moved within the base record, finds the extent that holds it;
    provided that the instances of every record are distinct and those of
    continued attributes zero, the vcns are not negative and the names have no
    NUL. *)
Theorem rebuild_lookup a1 x a2 w n :
  resident_list base a1 x a2 (new_list_size base exts) -> new_list_size base exts <= MAX_ATTRLIST -> new_list_size base exts < zlen (ar_bytes base) ->
  ntfs_attr_size_bounds_check attrdef attrdef_len AT_ATTRIBUTE_LIST (new_list_size base exts) = Ok tt ->
  Forall instances_ok (base :: exts) -> Forall (fun t => 0 <= e_vcn (re_ent t) /\ 0 ∉ e_name (re_ent t)) (all_rents base exts) ->
  wanted_ok w -> w_type w <> AT_UNUSED -> w_type w <> AT_ATTRIBUTE_LIST -> wanted_name w = Some n -> w_val w = None -> 0 <= w_lowest_vcn w ->
  Exists (fun t => same_attr w n (re_ent t) /\ e_vcn (re_ent t) <= w_lowest_vcn w) (all_rents base exts) ->
  exists b' x' slack' ctx t, let base' := with_attr base a1 x' a2 slack' in
    ntfsck_rebuild_attr_list memcmp upcase (zlen upcase) store b = Ok (b', 0) /\
    b' = inode_of base' exts (Some (at_value x')) /\ at_type x' = AT_ATTRIBUTE_LIST /\
    (ctx ← ntfs_attr_get_search_ctx b'; ntfs_attr_lookup memcmp upcase (zlen upcase) geo load b' w ctx) = Ok (b', ctx, None) /\
    t ∈ all_rents base' exts /\ x_ino ctx = re_ino t /\ x_attr ctx = ar_ofs (re_rec t) (re_before t) /\
    at_type (re_attr t) = w_type w /\ at_name (re_attr t) = n /\ e_vcn (re_ent t) <= w_lowest_vcn w /\
    Forall (fun t' => same_attr w n (re_ent t') -> e_vcn (re_ent t') <= e_vcn (re_ent t) \/ w_lowest_vcn w < e_vcn (re_ent t')) (all_rents base' exts).
Proof.
  intros Hlist Hmax Hsize Hbounds Hi Hnn Hw Ht Hl Hn Hval Hv Hex.
  destruct (rebuild_spec memcmp upcase Hmemcmp base exts Hrecs al Hheap store Hsmall) as (l & Hp & Hs & E). fold b in E.
  assert (ents_of l ≡ₚ ents_of (all_rents base exts)) as Hpe by (unfold ents_of; by rewrite Hp).
  pose proof (list_bytes_perm _ _ Hpe) as Ez. fold (new_list_size base exts) in Ez.
  assert (l <> []) as Hne by (intros ->; rewrite <- Hp in Hex; by apply Exists_nil in Hex).
  rewrite bool_decide_eq_true_2, Ez, (proj2 (Z.leb_le _ _) Hmax) in E by done. cbn [andb] in E.
  pose proof (all_rents_placed base exts) as Hpl. rewrite <- Hp in Hpl. pose proof (placed_forall_ok base exts Hrecs l Hpl) as Hok.
  assert (0 < new_list_size base exts) as Hpos.
  { rewrite <- Ez. destruct l as [|t l]; [done|]. cbn [ents_of map] in Hok |- *. apply Forall_cons_1 in Hok as [Hok _]. rewrite list_bytes_cons, zlen_app, ent_bytes_zlen.
    pose proof (ent_len_spec (re_ent t)). unfold al_name_ofs in *. pose proof (zlen_nonneg (e_name (re_ent t))). pose proof (zlen_nonneg (list_bytes (map re_ent l))). lia. }
  rewrite <- Ez in Hlist, Hsize, Hbounds.
  destruct (store_resident_spec memcmp upcase Hmemcmp attrdef attrdef_len write_record Hwrite store_other base (ro_base _ _ Hrecs) a1 x a2 (list_bytes (ents_of l)) Hlist) with (exts := exts) (al := Some al)
    as (x' & slack' & Est & Hok' & Et' & Ei' & Er' & Ev'); [by apply list_bytes_bytes|rewrite Ez; unfold MAX_ATTRLIST in Hmax; change (2 ^ 20) with 1048576; lia|done|done|].
  fold store b in Est. rewrite Est in E. cbn [mbind res_bind install_list] in E.
  set (base' := with_attr base a1 x' a2 slack') in *. change (install_list _ _) with (inode_of base' exts (Some (list_bytes (ents_of l)))) in E.
  assert (ents_of (all_rents base' exts) = ents_of (all_rents base exts)) as Ee by (apply (with_attr_rents _ _ _ x); [apply Hlist|apply Hlist|done]).
  destruct (installed_lookup memcmp upcase Hmemcmp Hup geo Hmft load base' exts (with_attr_records _ _ _ _ _ _ Hrecs Hok') (ents_of l) w n) as (ctx & t & H1 & H2 & H3); try done.
  - by apply sorted_ents.
  - by rewrite Ee.
  - apply Forall_cons_1 in Hi as [? ?]. constructor; [|done]. apply (with_attr_instances _ _ x); [apply Hlist|done..].
  - rewrite Hpe. by apply list.Forall_fmap.
  - rewrite Hpe. by apply list.Exists_fmap.
  - exists (inode_of base' exts (Some (list_bytes (ents_of l)))), x', slack', ctx, t. rewrite Ev'. split; [exact E|]. split; [done|]. split; [done|]. split; [exact H1|]. split; [exact H2|].
    rewrite Hpe, <- Ee in H3. destruct H3 as (? & ? & ? & ? & ? & H3). do 5 (split; [done|]). by apply list.Forall_fmap in H3.
Qed.

End stored.


(** ** On concrete inodes *)

(** A base record of 256 bytes with a resident list and the first extent of $DATA. *)
Definition rec0' : arec :=
  mk_arec 30 (replicate 16 0 ++ le_bytes 2 1 ++ [0; 0; 48; 0; 0; 0]) ([0; 1; 0; 0] ++ replicate 8 0) 5 (replicate 6 0) [list_attr; nr_attr 0 0] ex_end (replicate 96 0).

(** Storing in a record of [size] bytes. *)
Definition store_in (size : Z) (store_other : base_inode -> list Z -> res (base_inode * bool)) : base_inode -> list Z -> res (base_inode * bool) :=
  store_resident_list memcmp_diff [] 0 (Some ntfs_attrdef_default) 2560 size (fun _ => true) store_other.

Definition not_stored (b : base_inode) (new_al : list Z) : res (base_inode * bool) := Ok (b, false).

(** The rebuild on a heap that grants everything. *)
Definition rebuild_of (base : arec) (exts : list arec) (al : list Z) : res (base_inode * Z) :=
  @ntfsck_rebuild_attr_list full_heap memcmp_diff [] 0 (store_in 256 not_stored) (inode_of base exts (Some al)).

Definition search_in (b : base_inode) (w : wanted) : res (base_inode * al_ctx * option errno) :=
  ctx ← ntfs_attr_get_search_ctx b; ntfs_attr_lookup memcmp_diff [] 0 no_geometry no_load b w ctx.

(** The rebuilt list has the instance zero for every extent that continues an
    attribute, while the search compares the instance with that of the record: an
    extent with another instance, that the old list leads to, is not found any
    more. *)
Theorem rebuild_loses_extents :
  match search rec0' [rec1; rec2] (list_bytes ents012) (data_at 12) with Ok (_, ctx, None) => x_ino ctx = InExtent 0 | _ => False end /\
  match rebuild_of rec0' [rec1; rec2] (list_bytes ents012) with
  | Ok (b', 0) => match search_in b' (data_at 12) with Ok (_, _, e) => e = Some ENOENT | _ => False end
  | _ => False
  end.
Proof. vm_compute. done. Qed.

(** A base record of 200 bytes without room for a longer list, and an extent
    with an attribute of another type. *)
Definition full_base : arec :=
  mk_arec 30 (replicate 16 0 ++ le_bytes 2 1 ++ [0; 0; 48; 0; 0; 0]) ([200; 0; 0; 0] ++ replicate 8 0) 5 (replicate 6 0) [list_attr; nr_attr 0 0] ex_end (replicate 40 0).
Definition other_attr : list Z := [0; 1; 0; 0; 32; 0; 0; 0; 0; 0; 0; 0; 0; 0; 1; 0; 3; 0; 0; 0; 24; 0; 0; 0; 1; 2; 3; 0; 0; 0; 0; 0].
Definition other_ext : arec := rec_with 31 2 other_attr 168.

Definition full_list : list Z := list_bytes [ent_of full_base at_instance (nr_attr 0 0); ent_of other_ext at_instance other_attr].

(** What [ntfs_inode_free_space] does then, when the list cannot be made
    non-resident: the $DATA of the base record is moved to the extent. *)
Definition free_base (b : base_inode) : res (base_inode * option errno) :=
  ntfs_attr_record_move_to memcmp_diff [] 0 b InBase 80 (Some 0) (InExtent 0).

Definition store_with_move : base_inode -> list Z -> res (base_inode * bool) :=
  store_in 200 (fun b new_al => '(b, e) ← free_base b; if decide (e = None) then store_in 200 not_stored b new_al else Ok (b, false)).

(** Storing the list may move an attribute to another record; its entry is then
    corrected in the old list, which is thrown away, but not in the new one: after
    a rebuild that reports success the attribute is not found any more, although
    with the old list it was found before and would be found afterwards. *)
Theorem rebuild_stale_after_move :
  match search full_base [other_ext] full_list (data_at 0) with Ok (_, ctx, None) => x_ino ctx = InBase | _ => False end /\
  match free_base (inode_of full_base [other_ext] (Some full_list)) with
  | Ok (b', None) => match search_in b' (data_at 0) with Ok (_, ctx, None) => x_ino ctx = InExtent 0 | _ => False end
  | _ => False
  end /\
  match @ntfsck_rebuild_attr_list full_heap memcmp_diff [] 0 store_with_move (inode_of full_base [other_ext] (Some full_list)) with
  | Ok (b', 0) => match search_in b' (data_at 0) with Ok (_, _, e) => e = Some ENOENT | _ => False end
  | _ => False
  end.
Proof. vm_compute. done. Qed.

(** Extents that continue an attribute have the instance zero here. *)
Definition rec1' : arec := rec_with 31 2 (nr_attr 8 0) 128.
Definition rec2' : arec := rec_with 32 3 (nr_attr 20 0) 128.

Lemma rec0'_ok : arec_ok rec0'.
Proof.
  split; [|done|compute_decide]. split; try done; try (cbn; lia); [|split; compute_decide].
  apply Forall_cons_2; [apply list_attr_ok|]. apply Forall_singleton, nr_attr_ok; compute_decide.
Qed.

Lemma recs'_ok : records_ok rec0' [rec2'; rec1'].
Proof.
  split; [apply rec0'_ok| |compute_decide|done].
  do 2 (apply Forall_cons_2; [apply rec_with_ok; [done|compute_decide..]|]). constructor.
Qed.

Lemma small_types : Forall small_type (all_rents rec0' [rec2'; rec1']).
Proof. repeat constructor; vm_compute; reflexivity. Qed.


Lemma rebuild_lookup_witness : exists b' ctx, rebuild_of rec0' [rec2'; rec1'] [] = Ok (b', 0) /\ search_in b' (data_at 12) = Ok (b', ctx, None) /\
  attr_list b' <> Some [].
Proof.
  destruct (data_at_ok 12) as [Hw _].
  edestruct (@rebuild_lookup full_heap (fun _ => eq_refl) memcmp_diff [] memcmp_diff_law (Forall_nil_2 _) no_geometry eq_refl no_load rec0' [rec2'; rec1'] recs'_ok [] small_types
    (Some ntfs_attrdef_default) 2560 (fun _ => true) (fun _ => eq_refl) not_stored [] list_attr [nr_attr 0 0]) with (w := data_at 12) (n := @nil Z)
    as (b' & x' & slack' & ctx & t & H1 & H2 & _ & H3 & _).
  - split; [reflexivity|constructor|reflexivity|exact list_attr_resident|reflexivity|vm_compute; discriminate].
  - vm_compute. discriminate.
  - vm_compute. reflexivity.
  - vm_compute. reflexivity.
  - do 3 (apply Forall_cons_2; [split; [compute_decide|repeat constructor]|]). constructor.
  - repeat constructor; cbn; by apply not_elem_of_nil || (vm_compute; discriminate).
  - exact Hw.
  - discriminate.
  - discriminate.
  - reflexivity.
  - reflexivity.
  - vm_compute. discriminate.
  - left. split; [split; reflexivity|]. vm_compute. discriminate.
  - exists b', ctx. split; [exact H1|]. split; [exact H3|].
    intros E. vm_compute in H1. injection H1 as <-. discriminate E.
Defined.
